(* ===== verification/_CoqProject ===== *)
-Q . S2P
Prelude.v
Strings.v
Json.v
Ip.v
Models.v
Db.v
Api.v
Handler.v
Traffic.v
RateLimit.v
Ha.v
Settings.v
LogBuf.v
Geo.v
Update.v
Access.v
Wg.v
Subscription.v
Documents.v
SubPage.v
Spec.v
Reach.v
Enroll.v
Push.v
Inbounds.v
Auth.v
Login.v
Labels.v
AuditLog.v
Secrets.v
Services.v
Users.v
Accounts.v
Delivery.v
Issues.v
Versions.v
Fleet.v
Gitops.v
Schedule.v
Notify.v
Monitor.v
StatusPage.v
Router.v
Domains.v
PanelHost.v
Analytics.v
Overview.v
Telegram.v
Mcp.v
Live.v
Collector.v
Agents.v
Commands.v
Process.v
Views.v
