(* ===== verification/Prelude.v ===== *)
(** * Honey: a verification library for the panel's control plane

    Honey is a multi-node VPN panel.  Its master (src/master, in Rust) keeps
    users, nodes and inbounds in PostgreSQL, builds from them the configuration
    each node's agent should run, pushes it, collects traffic, suspends users
    that are over quota and renders the documents clients subscribe to.  This
    library models the master: its handlers, queries and background loops are
    Rocq functions over explicit tables, and the theorems are about those
    functions.

    ** Files

    - Prelude.v, Strings.v, Json.v, Ip.v: results and early returns, stable
      sorting, fallible traversal, UTF-8 strings, [serde_json::Value] and the
      textual IP addresses of Rust's standard library.
    - Models.v (db/models.rs) and Db.v (migrations, the deletions of
      db/repo.rs): the rows, the shared tables and their cascades.
    - Api.v (api/mod.rs): the error type of the handlers, its responses, and
      the validators several handlers share.
    - Handler.v: the state and error monad of the handlers.  A step returns its
      answer and the store as it then is, with the trace of the pushes, versions
      and audit events emitted; [hoare] is the logic the invariants of handler
      sequences are proved in.
    - Traffic.v (record_traffic and the quota queries of db/repo.rs): counters,
      hourly history, quota windows.
    - RateLimit.v (ratelimit.rs): the login limiter in [Login], the
      subscription limiter in [Subscription], their theorems in [LoginFacts]
      and [SubscriptionFacts].
    - Ha.v (ha.rs): the lease and the election loop as a state machine.
    - Settings.v (the settings handlers of api/mod.rs), LogBuf.v (logbuf.rs),
      Geo.v (geo.rs), Update.v (update.rs): runtime settings, the log ring, the
      country table, self-update.
    - Access.v (db/repo.rs): node groups, who reaches which node, subscription
      endpoints, chain users.
    - Wg.v (wg.rs): address pools, peers, AmneziaWG parameters, client files.
    - Subscription.v and Documents.v (subscription.rs), SubPage.v
      (subscription_page.rs): sing-box documents; share links, Clash documents
      and headers; the HTML page.
    - Spec.v (spec.rs): [build_node_spec], summaries and previews.
    - Reach.v (reach.rs and the reachability handlers): probes, the consensus
      of vantage points, SNI and CDN rotation, the preflight gate.
    - Enroll.v (the enrollment handlers of api/mod.rs): one-time tokens and the
      certificate inventory.
    - Push.v (registry.rs, reconcile.rs): live channels, pushes, deferred
      pushes, heartbeats and the reconcile tick.
    - Inbounds.v (api/mod.rs): validation, creation and update of inbounds,
      multihop chains.
    - Auth.v, Login.v (auth.rs, api/mod.rs): the request middleware, roles and
      credentials; the login handler.
    - Labels.v (api/mod.rs): labels and saved views.
    - AuditLog.v (auth.rs, api/mod.rs): the audit hash chain.
    - Secrets.v (secret.rs, secret_source.rs, main.rs): the envelope of stored
      secrets, where the key comes from, re-encryption and rotation.
    - Services.v (api/mod.rs, the agent's internal/svc/svc.go): MTProto and
      NaiveProxy services from the request to the file the agent writes.
    - Users.v (the user handlers of api/mod.rs): users, their links, resellers.
    - Accounts.v (the account handlers of api/mod.rs): operator accounts, custom
      roles, API keys, sessions, two-factor set-up and the address allowlist.
    - Delivery.v (the public routes of api/mod.rs): what a subscription link
      answers, and the guard in front of it.
    - Issues.v (issues.rs): the conditions the panel reports.
    - Versions.v (db/repo.rs, db/models.rs): the last twenty states of nodes,
      users and inbounds, and how a revert reads one back.
    - Fleet.v (the node, group, profile, WireGuard, inbound and history handlers
      of api/mod.rs): the tables around the world of Delivery.v and everything
      an operator does to them.
    - Gitops.v (api/mod.rs): the fleet exported as a document, a document
      applied, and users imported.
    - Schedule.v (schedule.rs): operations left for later, and the loop that
      runs them as a step relation among requests.
    - Notify.v (notify.rs): notification channels, alerts with their cooldown,
      the in-app list and its read marks.
    - Monitor.v (monitor.rs): ticks of the traffic anomaly, availability,
      device limit and drift loops.
    - StatusPage.v (api/mod.rs): branding, announcements, the public status page.
    - Router.v (api/mod.rs): every route, the guard of its group, and the policy
      of the middleware restated per handler.
    - Domains.v (domains.rs): managed domains and their checks.
    - PanelHost.v (panel.rs, the domain commands of main.rs): where the embedded
      panel is served.
    - Analytics.v (api/mod.rs, db/repo.rs): traffic over a window by time, user,
      node and core, and the printable report.
    - Overview.v (api/mod.rs): the onboarding checklist, the metrics exposition,
      and the export and erasure of a user's data.
    - Telegram.v (telegram.rs): the allowlist of chats, the bot's commands and its
      polling loop.
    - Mcp.v (bin/honey-mcp.rs): the bridge for assistants, its tools, and the
      catalog it reads out of the text of the router.
    - Live.v (the node inspection, live connection, geography and cluster handlers
      of api/mod.rs, registry.rs, reality.rs): what is asked of agents and shown.
    - Collector.v (stats.rs, quota.rs, reconcile.rs): the statistics collector and
      its streams as a state machine; turns of the quota, retention and reconcile
      loops.
    - Agents.v (agent_client.rs, tls.rs, tunnel.rs, pki.rs): signing certificates,
      TLS configuration, and how a stream becomes a channel in either direction.
    - Commands.v (main.rs): account administration from the shell, and what must
      hold before the API and the service start.
    - Process.v (main.rs): every subcommand, and the process from the key source to
      the command's effect.
    - Views.v (inbound and certificate views and request ids of api/mod.rs): what is
      shown of inbounds.

    ** How the code is read

    A table is a finite map or a list of rows with the schema's constraints
    checked on insertion; a handler takes the tables and returns its answer and
    the new tables, so that what a failing handler has already written stays
    written.  Clock readings, generated ids and random bytes are arguments.  The
    answers of agents, sockets and downloads, and the queries that fail where
    the code treats failures differently, are arguments too.  Cryptography
    (token digests, SHA-256, Argon2, TOTP, the AEAD, key generation), URL,
    base64, CIDR, QR and JSON printing libraries, the database's collation and
    case folding, and the openssl command are parameters of the sections
    that use them; where a theorem relies on one, its law is a named hypothesis
    or a class ([Secrets.AeadLaws], [Secrets.Base64Laws], [Secrets.SecretStore],
    [Agents.OpensslLaws]).
    Integers are [Z], with the width written out where the code depends on it
    (counters, address masks, port and limit conversions).

    ** What is proved

    - Provisioning: a node's spec serves exactly the active users with access,
      carries the right quota, credentials and WireGuard peers; a preview is the
      exact difference to the last push; the access queries agree with each
      other and with the subscriptions.
    - Users: whatever a reseller does, other operators' users stay as they are;
      what it creates is within its allocation (and how a later update escapes
      it); a created user's links resolve to it, and a rotated link does not.
    - Links: a suppressed user gets nothing to connect with on any route, the QR code
      of the user's own link and the page that says so apart; all
      links of a user share one rate budget, but for percent-encoded spellings.
    - Pushing: an accepted reconcile converges and stays put until the desired spec
      changes; overlapping pushes can leave a stale spec in place.
    - Accounting: usage, counters and history agree over any sequence of
      reports and resets; quota crossings are reported exactly; readings are
      charged once.
    - Admission: what the middleware and the login handler require, what a
      reseller is confined to, after how many failures a key is locked out whatever
      came before, rate bounds, single-use enrollment tokens, revoked certificates,
      tamper evidence of the audit log up to a collision between its own messages.
    - Accounts: whatever panel sessions without a custom role request, an owner
      remains; a minted key is worth what was granted until it expires or is
      revoked; suspending an account ends its sessions (not its keys); fresh
      recovery codes work once each and replace the old ones; starting a new
      two-factor set-up takes the account off its second factor; deleting a
      custom role gives its holders their rank back.
    - Secrets: decryption inverts encryption; rotation keeps every secret
      readable; what re-encryption leaves out, and why an interrupted rotation
      cannot be resumed.
    - Documents: every reference in a sing-box or Clash document is declared;
      which documents hide a CDN-fronted origin and which do not; text on the
      page cannot change its markup; a NaiveProxy configuration stays within its
      template, but for fields spelled in another case.
    - Operations: settings round trip and are clamped; the log ring refines the
      complete log; geo lookup picks the narrowest range; only verified bytes are
      installed; a block the fleet reports stands; the preflight gate is exact;
      every issue is reported once; labels and saved views stay normalized and
      private.
    - Addresses: allocation is lowest-free and keeps peers unique.
    - Election: at most one timely leader, and how a stalled renewal breaks
      this.
    - Multihop chains stay acyclic under every create, update and deletion, and
      a revert can break this.
    - Fleet: names, defaults, ports and references stay consistent under every
      request; the history is the end of the complete log of states, and going
      back to one restores every setting; an exported configuration applies to
      its own fleet without a change, unless two names differ by case only, and a dry
      run foretells a run; an import accounts for every entry.
    - Schedules: an operation runs at most once and never early, a cancelled one
      never, and a tick settles what is due; a cancellation between scan and run
      is overtaken.
    - Routes: no handler runs past its guard; the policy the middleware reads off
      the text of a path is a table of handlers, for each kind of account; where
      the API's paths leave the panel alone.
    - Alerts: one per key and cooldown from the database and one from the fallback,
      which do not know of each other, every occurrence counted; reading marks
      are private and complete; some kinds of channel can never be stored.
    - Monitors: a device limit acts exactly on more addresses than it allows and cuts
      the ones that came last; uptime
      is the share of the samples taken; steady traffic raises nothing; every
      domain is checked against its own node.
    - Reports: the parts of a traffic report add up to its whole, and a reseller's
      depends on nothing but the reseller's own users; erasing a user leaves the
      recorded versions behind.
    - Bots: a stranger's chat changes nothing, an admin's chat one user at a time,
      recorded when the audit log can be written, no update is taken twice, and one message can end the process; the
      bridge's catalog is exactly the router and advertises the roles that are
      enforced, its tools send what they say, and how its key can leave its origin.
    - Live views: an operator sees exactly the connections of the nodes that answer, a
      reseller exactly those of its own users; the geography is a partition of them; asking
      changes nothing an agent runs; generated REALITY keys are accepted back.
    - Loops: one stream per node and core, reopened within one turn of the loop; a user whose
      quota a sample exhausts is off the node when the sample is taken; a quota
      window turns over for exactly the users that are due; and how an instance that
      lost the lease still charges traffic.
    - Agents and commands: an enrolled certificate is accepted in both directions for
      its ninety days unless it is revoked, what a dialled-in connection needs, and as
      which nodes a revoked certificate still gets in; exactly when and where the API is
      served; accounts made
      from the shell log in and disabled ones do not; no command handles secrets
      without a key, a generated key starts the service, and a command that fails in
      one step leaves no trace; the views of an inbound hide its private columns and
      show its chain uuid.
    - Pages: no stored text changes the markup of the status page; branding
      stays safe to embed; a panel answers where it was added and nowhere else.

    ** Bounds

    [Mcp.scan_routes] has one step per byte of the text it scans.
    [Inbounds.walk_chain] has the eight hops of the code's loop.  The pool search of
    [Wg.first_free] has one step per host of the pool, which is every candidate
    the code's range visits.  [Documents.unit_index] has one step per unit;
    [Strings.utf8_from], [Documents.replace_fuel] and [SubPage.unescape_fuel] have one per
    byte of the text.  Other recursion is structural on the data.

    ** Not modelled

    The Go agent but for the file [Services] renders, the web panel, scripts and
    protocol files; https.rs and acme.rs, which configure and run third-party servers;
    argument parsing, logging set-up and pool setup in main.rs and db/mod.rs; the
    gRPC transport and its generated messages. *)

From stdpp Require Export base gmap list strings.
From Stdlib Require Export ZArith Lia Ascii.
From Stdlib Require Export Permutation Sorted.

#[global] Open Scope Z_scope.

(** ** Results *)

(** Rust's [Result]: the error type comes second, as in the source. *)
Inductive result (A E : Type) : Type :=
| Ok (a : A)
| Err (e : E).
Arguments Ok {A E} _.
Arguments Err {A E} _.

Declare Scope rust_scope.
Delimit Scope rust_scope with rust.

(** The question-mark operator on [Result] and on [Option]. *)
Notation "'let?' x := c 'in' k" :=
  (match c with Ok x => k | Err e => Err e end)
  (at level 10, x binder, c at level 100, k at level 200) : rust_scope.
Notation "'let!' x := c 'in' k" :=
  (match c with Some x => k | None => None end)
  (at level 10, x binder, c at level 100, k at level 200) : rust_scope.
(** A guard that returns early with an error when the test holds. *)
Notation "'bail' e 'when' b 'in' k" :=
  (if b then Err e else k)
  (at level 10, e at level 9, b at level 100, k at level 200) : rust_scope.
#[global] Open Scope rust_scope.

Definition is_ok {A E} (r : result A E) : bool :=
  match r with Ok _ => true | Err _ => false end.

(** [Result::map_err]. *)
Definition lift {A E F} (f : E -> F) (r : result A E) : result A F :=
  match r with Ok a => Ok a | Err e => Err (f e) end.

(** [Option::is_some_and] and [Option::map_or]. *)
Definition is_some_and {A} (o : option A) (p : A -> bool) : bool :=
  match o with Some a => p a | None => false end.
Definition map_or {A B} (o : option A) (d : B) (f : A -> B) : B :=
  match o with Some a => f a | None => d end.
Definition is_some {A} (o : option A) : bool :=
  match o with Some _ => true | None => false end.
Definition opt_filter {A} (p : A -> bool) (o : option A) : option A :=
  match o with Some a => if p a then Some a else None | None => None end.
(** [Option::or]. *)
Definition opt_or {A} (a b : option A) : option A :=
  match a with Some _ => a | None => b end.

Lemma negb_is_some {A} (o : option A) : negb (is_some o) = true <-> o = None.
Proof. by destruct o. Qed.

(** ** Machine integers: Z with the bounds written out *)

Definition u8_max : Z := 255.
Definition u16_max : Z := 65535.
Definition u32_max : Z := 4294967295.
Definition u64_max : Z := 18446744073709551615.
Definition i32_max : Z := 2147483647.
Definition i64_max : Z := 9223372036854775807.
Definition i64_min : Z := -9223372036854775808.

Definition sat_add_u32 (a b : Z) : Z := Z.min (a + b) u32_max.
Definition sat_add_u64 (a b : Z) : Z := Z.min (a + b) u64_max.
Definition sat_sub_u64 (a b : Z) : Z := Z.max (a - b) 0.
Definition sat_i64 (a : Z) : Z := Z.max i64_min (Z.min a i64_max).
Definition sat_add_i64 (a b : Z) : Z := sat_i64 (a + b).
Definition sat_sub_i64 (a b : Z) : Z := sat_i64 (a - b).
(** [AtomicU64::fetch_add] wraps around. *)
Definition wrap_u64 (a : Z) : Z := a mod 2 ^ 64.
Definition wrap_u32 (a : Z) : Z := a mod 2 ^ 32.
(** [clamp(lo, hi)]. *)
Definition clamp (lo hi x : Z) : Z := Z.max lo (Z.min x hi).

(** One second in the nanoseconds that [Instant] and [Duration] count. *)
Definition secs (n : Z) : Z := n * 1000000000.
(** [Duration::as_secs] truncates. *)
Definition as_secs (d : Z) : Z := d / 1000000000.

(** Uuids are 128-bit numbers, compared for equality only. *)
Abbreviation Uuid := Z (only parsing).

(** ** Booleans *)

Create HintDb honey discriminated.
Create Rewrite HintDb honey_bool.

#[export] Hint Rewrite andb_true_iff andb_false_iff orb_true_iff orb_false_iff
  negb_true_iff negb_false_iff Z.ltb_lt Z.ltb_ge Z.leb_le Z.leb_gt
  Z.eqb_eq Z.eqb_neq Z.gtb_ltb Z.geb_leb String.eqb_eq String.eqb_neq : honey_bool.

(** Turn every boolean test of the goal and hypotheses into its proposition. *)
Ltac breflect := autorewrite with honey_bool in *.

(** Split on every [if] and [match] the goal computes with. *)
Ltac split_ifs :=
  repeat match goal with
  | |- context [if ?b then _ else _] => destruct b eqn:?
  end.

(** Keep arithmetic and comparisons folded under [simpl]. *)
#[global] Arguments Z.ltb : simpl never.
#[global] Arguments Z.leb : simpl never.
#[global] Arguments Z.eqb : simpl never.
#[global] Arguments Z.gtb : simpl never.
#[global] Arguments Z.geb : simpl never.
#[global] Arguments Z.add : simpl never.
#[global] Arguments Z.sub : simpl never.
#[global] Arguments Z.mul : simpl never.
#[global] Arguments Z.max : simpl never.
#[global] Arguments Z.min : simpl never.
#[global] Arguments Z.div : simpl never.
#[global] Arguments Z.modulo : simpl never.
#[global] Arguments Z.of_nat : simpl never.
#[global] Arguments Z.pow : simpl never.

(** ** Sums over finite maps *)

Definition sumZ (l : list Z) : Z := foldr Z.add 0 l.

(** [SELECT SUM(f)] over the rows of a table. *)
Definition msum {K V} `{Countable K} (f : K -> V -> Z) (m : gmap K V) : Z :=
  sumZ ((fun kv => f kv.1 kv.2) <$> map_to_list m).

Lemma sumZ_perm l l' : l ≡ₚ l' -> sumZ l = sumZ l'.
Proof. induction 1; simpl; lia. Qed.

Section Msum.
Context {K V : Type} `{Countable K}.
Implicit Types (m : gmap K V) (f : K -> V -> Z).

Lemma msum_empty f : msum f (∅ : gmap K V) = 0.
Proof. unfold msum. by rewrite map_to_list_empty. Qed.

Lemma msum_insert_new f m k v :
  m !! k = None -> msum f (<[k:=v]> m) = f k v + msum f m.
Proof.
  intros Hk. unfold msum.
  rewrite (sumZ_perm _ ((fun kv => f kv.1 kv.2) <$> ((k, v) :: map_to_list m))).
  - done.
  - apply fmap_Permutation. by apply map_to_list_insert.
Qed.

Lemma msum_delete f m k v :
  m !! k = Some v -> msum f m = f k v + msum f (delete k m).
Proof.
  intros Hk. rewrite <- (insert_delete_id m k v Hk) at 1.
  apply msum_insert_new. apply lookup_delete_eq.
Qed.

Lemma msum_insert f m k v :
  msum f (<[k:=v]> m)
  = msum f m + f k v - match m !! k with Some v0 => f k v0 | None => 0 end.
Proof.
  destruct (m !! k) as [v0|] eqn:E.
  - rewrite (msum_delete f m k v0 E), <- (insert_delete_eq m k v).
    rewrite msum_insert_new by apply lookup_delete_eq. lia.
  - rewrite msum_insert_new by done. lia.
Qed.

Lemma msum_nonneg f m :
  (forall k v, m !! k = Some v -> 0 <= f k v) -> 0 <= msum f m.
Proof.
  induction m as [|k v m Hk IH] using map_ind; intros Hf.
  - by rewrite msum_empty.
  - rewrite msum_insert_new by done.
    assert (0 <= f k v) by (apply Hf; apply lookup_insert_eq).
    enough (0 <= msum f m) by lia. apply IH. intros k' v' Hl. apply Hf.
    rewrite lookup_insert_ne; [done|]. intros ->. congruence.
Qed.

Lemma msum_zero f m :
  (forall k v, m !! k = Some v -> f k v = 0) -> msum f m = 0.
Proof.
  induction m as [|k v m Hk IH] using map_ind; intros Hf.
  - by rewrite msum_empty.
  - rewrite msum_insert_new by done.
    rewrite (Hf k v (lookup_insert_eq _ _ _)), IH; [done|].
    intros k' v' Hl. apply (Hf k' v').
    rewrite lookup_insert_ne; [done|]. intros ->. congruence.
Qed.

Lemma msum_filter f m (P : K * V -> bool) :
  (forall k v, m !! k = Some v -> P (k, v) = false -> f k v = 0) ->
  msum f (filter (fun kv => P kv = true) m) = msum f m.
Proof.
  induction m as [|k v m Hk IH] using map_ind; intros Hf.
  - by rewrite map_filter_empty.
  - assert (IH' : msum f (filter (fun kv => P kv = true) m) = msum f m).
    { apply IH. intros k' v' Hl. apply Hf.
      rewrite lookup_insert_ne; [done|]. intros ->. congruence. }
    rewrite (msum_insert_new f m k v Hk).
    destruct (P (k, v)) eqn:E.
    + rewrite map_filter_insert_True by done. rewrite msum_insert_new; [lia|].
      rewrite map_lookup_filter, Hk. done.
    + rewrite map_filter_insert_False by congruence.
      rewrite (Hf k v (lookup_insert_eq _ _ _) E).
      rewrite delete_id by done. lia.
Qed.
End Msum.

(** ** Stable sorting ([sort_by], [ORDER BY]) *)

Section Sorting.
Context {A : Type} (le : A -> A -> bool).

Fixpoint insert_by (x : A) (l : list A) : list A :=
  match l with
  | [] => [x]
  | y :: l' => if le x y then x :: l else y :: insert_by x l'
  end.
Fixpoint sort_by (l : list A) : list A :=
  match l with [] => [] | x :: l' => insert_by x (sort_by l') end.

Lemma insert_by_perm x l : insert_by x l ≡ₚ x :: l.
Proof.
  induction l as [|y l IH]; simpl; [done|]. destruct (le x y); [done|].
  rewrite IH. apply Permutation_swap.
Qed.

Lemma sort_by_perm l : sort_by l ≡ₚ l.
Proof. induction l as [|x l IH]; simpl; [done|]. by rewrite insert_by_perm, IH. Qed.

Lemma sort_by_in x l : In x (sort_by l) <-> In x l.
Proof.
  split; apply Permutation_in; [|symmetry]; apply sort_by_perm.
Qed.

Hypothesis le_total : forall x y, le x y = false -> le y x = true.
Hypothesis le_trans : forall x y z, le x y = true -> le y z = true -> le x z = true.

Lemma insert_by_sorted x l :
  StronglySorted (fun a b => le a b = true) l ->
  StronglySorted (fun a b => le a b = true) (insert_by x l).
Proof.
  induction 1 as [|y l Hs IH Hf]; simpl; [repeat constructor|].
  destruct (le x y) eqn:E.
  - constructor; [by constructor|]. constructor; [done|].
    eapply List.Forall_impl; [|exact Hf]. simpl. eauto.
  - constructor; [done|]. rewrite (insert_by_perm x l). constructor; [by apply le_total|done].
Qed.

Lemma sort_by_sorted l : StronglySorted (fun a b => le a b = true) (sort_by l).
Proof. induction l; simpl; [constructor|by apply insert_by_sorted]. Qed.
End Sorting.

(** A sort by a refinement of an order sorts by that order. *)
Lemma sort_by_coarse {A} (le : A -> A -> bool) (R : A -> A -> Prop) :
  (forall x y z, R x y -> R y z -> R x z) ->
  (forall x y, le x y = true -> R x y) -> (forall x y, le x y = false -> R y x) ->
  forall l, StronglySorted R (sort_by le l).
Proof.
  intros Htr Ht Hf.
  assert (Hi : forall x l, StronglySorted R l -> StronglySorted R (insert_by le x l)).
  { intros x l. induction 1 as [|y l Hs IH Hy]; simpl; [repeat constructor|].
    destruct (le x y) eqn:E.
    - constructor; [by constructor|]. constructor; [auto|]. eapply Forall_impl; [exact Hy|]. eauto.
    - constructor; [done|]. rewrite insert_by_perm. constructor; auto. }
  induction l as [|x l IH]; simpl; [constructor|auto].
Qed.

(** ** Consecutive duplicates *)

(** [dedup_by]: an element equal to its kept predecessor is dropped. *)
Fixpoint dedup_from {A} (same : A -> A -> bool) (prev : A) (l : list A) : list A :=
  match l with
  | [] => []
  | x :: l' => if same x prev then dedup_from same prev l' else x :: dedup_from same x l'
  end.
Definition dedup_by {A} (same : A -> A -> bool) (l : list A) : list A :=
  match l with [] => [] | x :: l' => x :: dedup_from same x l' end.

Lemma dedup_from_nodup {A B} `{EqDecision B} (same : A -> A -> bool) (f : A -> B) :
  (forall x y, same x y = true -> f x = f y) ->
  forall l prev, NoDup (f <$> (prev :: l)) -> dedup_from same prev l = l.
Proof.
  intros Hs. induction l as [|x l IH]; intros prev Hnd; simpl; [done|].
  apply NoDup_cons in Hnd as [Hni Hnd]. destruct (same x prev) eqn:E.
  - destruct Hni. rewrite <- (Hs _ _ E). left.
  - by rewrite IH.
Qed.

Lemma dedup_by_nodup {A B} `{EqDecision B} (same : A -> A -> bool) (f : A -> B) l :
  (forall x y, same x y = true -> f x = f y) -> NoDup (f <$> l) -> dedup_by same l = l.
Proof. intros Hs. destruct l as [|x l]; [done|]. intros Hnd. simpl. by rewrite (dedup_from_nodup same f). Qed.

(** ** Fallible traversal ([collect::<Result<Vec<_>, _>>()]) *)

Fixpoint try_map {A B E} (f : A -> result B E) (l : list A) : result (list B) E :=
  match l with
  | [] => Ok []
  | x :: l' =>
      let? y := f x in
      let? ys := try_map f l' in
      Ok (y :: ys)
  end.

Lemma try_map_inv {A B E} (f : A -> result B E) l ys :
  try_map f l = Ok ys -> Forall2 (fun x y => f x = Ok y) l ys.
Proof.
  revert ys. induction l as [|x l IH]; simpl; intros ys H; [simplify_eq; constructor|].
  destruct (f x) as [y|] eqn:Ex; [|done].
  destruct (try_map f l) as [ys'|]; [|done]. simplify_eq. constructor; auto.
Qed.

Lemma try_map_total {A B E} (f : A -> result B E) l :
  (forall x, In x l -> exists y, f x = Ok y) -> exists ys, try_map f l = Ok ys.
Proof.
  induction l as [|x l IH]; simpl; intros H; [eauto|].
  destruct (H x ltac:(auto)) as [y ->]. destruct IH as [ys ->]; eauto.
Qed.

Lemma try_map_in {A B E} (f : A -> result B E) l ys y :
  try_map f l = Ok ys -> In y ys -> exists x, In x l /\ f x = Ok y.
Proof.
  intros H Hy. apply try_map_inv in H. induction H as [|x z l ys Hx _ IH]; [done|].
  destruct Hy as [->|Hy]; [eexists; split; [by left|done]|].
  destruct (IH Hy) as (x' & ? & ?). eexists; split; [by right|done].
Qed.

Lemma try_map_in_inv {A B E} (f : A -> result B E) l ys x :
  try_map f l = Ok ys -> In x l -> exists y, In y ys /\ f x = Ok y.
Proof.
  intros H Hx. apply try_map_inv in H. induction H as [|z y l ys Hz _ IH]; [done|].
  destruct Hx as [->|Hx]; [eexists; split; [by left|done]|].
  destruct (IH Hx) as (y' & ? & ?). eexists; split; [by right|done].
Qed.

(** ** Lists *)

Lemma list_nil_in {A} (l : list A) : (forall x, ~ In x l) -> l = [].
Proof. destruct l as [|x l]; [done|]. intros H. destruct (H x). by left. Qed.

Lemma list_nil_filter {A} (f : A -> bool) l : (forall x, In x l -> f x = false) -> List.filter f l = [].
Proof.
  intros H. apply list_nil_in. intros x Hx. apply List.filter_In in Hx as [Hx Hf].
  rewrite H in Hf; done.
Qed.

Lemma list_filter_nil {A} (f : A -> bool) l : List.filter f l = [] <-> forall x, In x l -> f x = false.
Proof.
  split; [|apply list_nil_filter]. intros Hf x Hx. apply not_true_iff_false. intros Ht.
  assert (Hin : In x (List.filter f l)) by (by apply List.filter_In). by rewrite Hf in Hin.
Qed.

(** Rows of a table as a query scans them. *)
Definition rows {K V} `{Countable K} (m : gmap K V) : list V := snd <$> map_to_list m.

Lemma in_rows {K V} `{Countable K} (m : gmap K V) v :
  In v (rows m) <-> exists k, m !! k = Some v.
Proof.
  unfold rows. rewrite <- list_elem_of_In, list_elem_of_fmap. split.
  - intros ([k v'] & -> & Hin). exists k. by apply elem_of_map_to_list.
  - intros [k Hk]. exists (k, v). split; [done|]. by apply elem_of_map_to_list.
Qed.

(** The rows of a table keyed by one of their columns. *)
Lemma rows_nodup {K V} `{Countable K} (f : V -> K) (m : gmap K V) :
  (forall k v, m !! k = Some v -> f v = k) -> NoDup (f <$> rows m).
Proof.
  intros Hk. unfold rows. rewrite <- list_fmap_compose, (Forall_fmap_ext_1 _ fst); [apply NoDup_fst_map_to_list|].
  apply Forall_forall. intros [k v] Hv%elem_of_map_to_list. by apply Hk in Hv.
Qed.

Lemma rows_insert {K V} `{Countable K} (m : gmap K V) k v :
  m !! k = None -> rows (<[k := v]> m) ≡ₚ v :: rows m.
Proof. intros Hk. unfold rows. by rewrite map_to_list_insert. Qed.

Lemma rows_delete {K V} `{Countable K} (m : gmap K V) k v :
  m !! k = Some v -> rows m ≡ₚ v :: rows (delete k m).
Proof.
  intros Hk. rewrite <- (rows_insert (delete k m) k v) by apply lookup_delete_eq.
  by rewrite insert_delete_id.
Qed.

Lemma filter_perm {A} (p : A -> bool) l l' : l ≡ₚ l' -> List.filter p l ≡ₚ List.filter p l'.
Proof.
  induction 1 as [| |x y l|]; simpl; [done| | |by etrans].
  - destruct (p x); [by constructor|done].
  - destruct (p x), (p y); try done. apply Permutation_swap.
Qed.

Lemma sum_perm (l l' : list Z) : l ≡ₚ l' -> foldr Z.add 0 l = foldr Z.add 0 l'.
Proof. induction 1; simpl; lia. Qed.
