(* ===== verification/Strings.v ===== *)
(** * Rust strings

    [String] and [&str] are UTF-8 byte strings.  A [char] is the byte string of
    its encoding, so that [chars], [trim] and the character classes the code
    uses are read off the bytes; on other byte strings they are never run. *)

From S2P Require Import Prelude.
From stdpp Require Export pretty.

#[global] Open Scope string_scope.
#[global] Open Scope list_scope.
#[global] Open Scope Z_scope.

Definition code (c : ascii) : Z := Z.of_N (N_of_ascii c).

(** ** Bytes *)

Definition between (lo hi : Z) (c : ascii) : bool := (lo <=? code c) && (code c <=? hi).

Definition is_digit : ascii -> bool := between 48 57.
Definition is_upper : ascii -> bool := between 65 90.
Definition is_lower : ascii -> bool := between 97 122.
Definition is_alphanumeric (c : ascii) : bool := is_digit c || is_upper c || is_lower c.
Definition is_hexdigit (c : ascii) : bool := is_digit c || between 65 70 c || between 97 102 c.

Definition lower (c : ascii) : ascii :=
  if is_upper c then ascii_of_N (N_of_ascii c + 32) else c.

Fixpoint map_bytes (f : ascii -> ascii) (s : string) : string :=
  match s with "" => "" | String c s' => String (f c) (map_bytes f s') end.
Definition to_ascii_lowercase : string -> string := map_bytes lower.

Fixpoint all_bytes (p : ascii -> bool) (s : string) : bool :=
  match s with "" => true | String c s' => p c && all_bytes p s' end.
Fixpoint any_byte (p : ascii -> bool) (s : string) : bool :=
  match s with "" => false | String c s' => p c || any_byte p s' end.

(** [matches!(s, a | b | ...)]. *)
Definition one_of (l : list string) (s : string) : bool := existsb (String.eqb s) l.

Definition is_empty (s : string) : bool := String.eqb s "".
(** [str::len]: bytes. *)
Definition len (s : string) : Z := Z.of_nat (String.length s).

(** ** Characters *)

Definition is_continuation : ascii -> bool := between 128 191.

Fixpoint chars (s : string) : list string :=
  match s with
  | "" => []
  | String c s' =>
      match chars s' with
      | (String d _ as ch) :: rest =>
          if is_continuation d then String c ch :: rest else String c "" :: ch :: rest
      | rest => String c "" :: rest
      end
  end.

(** [chars().count()]. *)
Definition char_count (s : string) : Z := Z.of_nat (length (chars s)).

Definition concat_chars (l : list string) : string := foldr String.app "" l.

Definition bytes_of (l : list Z) : string :=
  foldr (fun b s => String (ascii_of_N (Z.to_N b)) s) "" l.

(** The characters with the White_Space property, by their encoding. *)
Definition whitespace : list string :=
  map bytes_of
    ([[9]; [10]; [11]; [12]; [13]; [32]; [194; 133]; [194; 160]; [225; 154; 128];
      [226; 128; 168]; [226; 128; 169]; [226; 128; 175]; [226; 129; 159]; [227; 128; 128]]
     ++ map (fun b => [226; 128; b])
          [128; 129; 130; 131; 132; 133; 134; 135; 136; 137; 138]).
Definition is_whitespace (ch : string) : bool := existsb (String.eqb ch) whitespace.

(** [char::is_control]: U+0000..U+001F and U+007F..U+009F. *)
Definition is_control (ch : string) : bool :=
  match ch with
  | String c "" => between 0 31 c || (code c =? 127)
  | String c (String d "") => (code c =? 194) && between 128 159 d
  | _ => false
  end.

Fixpoint drop_while (p : string -> bool) (l : list string) : list string :=
  match l with
  | [] => []
  | x :: l' => if p x then drop_while p l' else l
  end.

Definition trim_start (s : string) : string :=
  concat_chars (drop_while is_whitespace (chars s)).
Definition trim (s : string) : string :=
  concat_chars (List.rev (drop_while is_whitespace
    (List.rev (drop_while is_whitespace (chars s))))).

(** [chars().take(n).collect()]. *)
Definition take_chars (n : nat) (s : string) : string := concat_chars (firstn n (chars s)).

(** [split_at] on bytes, in range. *)
Fixpoint take_bytes (n : nat) (s : string) : string :=
  match n, s with
  | S n, String c s' => String c (take_bytes n s')
  | _, _ => ""
  end.
Fixpoint drop_bytes (n : nat) (s : string) : string :=
  match n, s with
  | S n, String _ s' => drop_bytes n s'
  | _, _ => s
  end.

(** The length of the well-formed sequence the text starts with, as
    [str::from_utf8] accepts it. *)
Definition utf8_char (s : string) : option nat :=
  match s with
  | "" => None
  | String a s1 =>
      if between 0 127 a then Some 1%nat else
      match s1 with
      | "" => None
      | String b s2 =>
          if between 194 223 a then if is_continuation b then Some 2%nat else None else
          match s2 with
          | "" => None
          | String c s3 =>
              let second := if code a =? 224 then between 160 191 b
                            else if code a =? 237 then between 128 159 b
                            else is_continuation b in
              if between 224 239 a then if second && is_continuation c then Some 3%nat else None else
              match s3 with
              | "" => None
              | String d _ =>
                  let second := if code a =? 240 then between 144 191 b
                                else if code a =? 244 then between 128 143 b
                                else is_continuation b in
                  if between 240 244 a && second && is_continuation c && is_continuation d
                  then Some 4%nat else None
              end
          end
      end
  end.

Fixpoint utf8_from (fuel : nat) (s : string) : bool :=
  match fuel with
  | O => is_empty s
  | S fuel => is_empty s || match utf8_char s with Some n => utf8_from fuel (drop_bytes n s) | None => false end
  end.
(** Every character takes at least one byte. *)
Definition utf8_valid (s : string) : bool := utf8_from (String.length s) s.

(** ** Searching and splitting *)

Definition starts_with (p s : string) : bool := String.prefix p s.

Fixpoint strip_prefix (p s : string) : option string :=
  match p, s with
  | "", _ => Some s
  | String a p', String b s' => if Ascii.eqb a b then strip_prefix p' s' else None
  | _, _ => None
  end.

Fixpoint ends_with (suffix s : string) : bool :=
  String.eqb s suffix
  || match s with "" => false | String _ s' => ends_with suffix s' end.

(** [str::contains] with a string needle. *)
Fixpoint contains (needle s : string) : bool :=
  starts_with needle s
  || match s with "" => false | String _ s' => contains needle s' end.

(** [split_once(c)] with an ASCII separator. *)
Fixpoint split_once (sep : ascii) (s : string) : option (string * string) :=
  match s with
  | "" => None
  | String c s' =>
      if Ascii.eqb c sep then Some ("", s')
      else match split_once sep s' with
           | Some (a, b) => Some (String c a, b)
           | None => None
           end
  end.

(** [split(c)]: always at least one piece. *)
Fixpoint split (sep : ascii) (s : string) : list string :=
  match s with
  | "" => [""]
  | String c s' =>
      if Ascii.eqb c sep then "" :: split sep s'
      else match split sep s' with
           | p :: rest => String c p :: rest
           | [] => [String c ""]
           end
  end.

Fixpoint join (sep : string) (l : list string) : string :=
  match l with
  | [] => ""
  | [s] => s
  | s :: rest => s +:+ sep +:+ join sep rest
  end.

(** [trim_start_matches], [trim_end_matches] and [trim_matches] with an ASCII
    character. *)
Fixpoint trim_start_matches (c : ascii) (s : string) : string :=
  match s with
  | String c' rest => if Ascii.eqb c c' then trim_start_matches c rest else s
  | "" => ""
  end.
Fixpoint trim_end_matches (c : ascii) (s : string) : string :=
  match s with
  | "" => ""
  | String d s' =>
      let rest := trim_end_matches c s' in
      if Ascii.eqb c d && is_empty rest then "" else String d rest
  end.
Definition trim_matches (c : ascii) (s : string) : string := trim_end_matches c (trim_start_matches c s).

(** [rsplit_once(c)] with an ASCII separator. *)
Fixpoint rsplit_once (sep : ascii) (s : string) : option (string * string) :=
  match s with
  | "" => None
  | String c s' =>
      match rsplit_once sep s' with
      | Some (a, b) => Some (String c a, b)
      | None => if Ascii.eqb c sep then Some ("", s') else None
      end
  end.

(** [to_ascii_uppercase]. *)
Definition upper (c : ascii) : ascii :=
  if is_lower c then ascii_of_N (N_of_ascii c - 32) else c.
Definition to_ascii_uppercase : string -> string := map_bytes upper.

(** [strip_suffix] with one byte. *)
Fixpoint strip_last (c : ascii) (s : string) : string :=
  match s with
  | "" => ""
  | String d "" => if Ascii.eqb c d then "" else s
  | String d s' => String d (strip_last c s')
  end.

(** [str::lines]: pieces ended by a line feed, without it and one carriage return
    before it, and a last piece when it is not empty. *)
Definition line_feed : ascii := Ascii.ascii_of_nat 10.
Definition carriage_return : ascii := Ascii.ascii_of_nat 13.
Fixpoint ended_lines (pieces : list string) : list string :=
  match pieces with
  | [] => []
  | [last] => if is_empty last then [] else [last]
  | p :: rest => strip_last carriage_return p :: ended_lines rest
  end.
Definition lines (s : string) : list string := ended_lines (split line_feed s).

(** A line break as text. *)
Definition nl : string := String line_feed "".

(** [format!("{b:02x}")] over a byte sequence. *)
Definition hex_digit (n : Z) : ascii := ascii_of_N (Z.to_N (if n <? 10 then 48 + n else 87 + n)).
Definition hex_byte (b : Z) : string := String (hex_digit (b / 16)) (String (hex_digit (b mod 16)) "").
Definition hex (bs : list Z) : string := String.concat "" (hex_byte <$> bs).

(** [str::split_whitespace]: the maximal runs of other characters. *)
Fixpoint words_from (l : list string) (word : string) : list string :=
  let flush := if is_empty word then [] else [word] in
  match l with
  | [] => flush
  | ch :: l' => if is_whitespace ch then flush ++ words_from l' "" else words_from l' (word +:+ ch)
  end.
Definition split_whitespace (s : string) : list string := words_from (chars s) "".

(** ** Decimal numbers *)

Fixpoint digits_value (acc : Z) (s : string) : option Z :=
  match s with
  | "" => Some acc
  | String c s' =>
      if is_digit c then digits_value (acc * 10 + (code c - 48)) s' else None
  end.

(** The [FromStr] of an unsigned integer: an optional plus sign, then digits. *)
Definition parse_unsigned (max : Z) (s : string) : option Z :=
  let digits := match s with String "+" s' => s' | _ => s end in
  if is_empty digits then None
  else match digits_value 0 digits with
       | Some n => if n <=? max then Some n else None
       | None => None
       end.

Definition parse_i64 (s : string) : option Z :=
  match s with
  | String "-" s' =>
      if is_empty s' then None else
      match digits_value 0 s' with
      | Some n => if i64_min <=? - n then Some (- n) else None
      | None => None
      end
  | _ => parse_unsigned i64_max s
  end.

Definition show (n : Z) : string := pretty n.

(** ** IPv4 addresses, as 32-bit numbers *)

Definition parse_octet (s : string) : option Z :=
  let n := len s in
  if (n =? 0) || (3 <? n) then None
  else if (1 <? n) && starts_with "0" s then None
  else match digits_value 0 s with
       | Some v => if v <=? 255 then Some v else None
       | None => None
       end.

Definition ipv4_of_octets (a b c d : Z) : Z :=
  a * 2 ^ 24 + b * 2 ^ 16 + c * 2 ^ 8 + d.

(** [Ipv4Addr::from_str]: four octets without leading zeros. *)
Definition parse_ipv4 (s : string) : option Z :=
  match split "." s with
  | [a; b; c; d] =>
      match parse_octet a, parse_octet b, parse_octet c, parse_octet d with
      | Some a, Some b, Some c, Some d => Some (ipv4_of_octets a b c d)
      | _, _, _, _ => None
      end
  | _ => None
  end.

Definition octet (i : Z) (ip : Z) : Z := (ip / 2 ^ (8 * i)) mod 256.

Definition show_ipv4 (ip : Z) : string :=
  show (octet 3 ip) +:+ "." +:+ show (octet 2 ip) +:+ "."
  +:+ show (octet 1 ip) +:+ "." +:+ show (octet 0 ip).

(** ** Facts *)

Lemma append_assoc (a b c : string) : (a +:+ b) +:+ c = a +:+ (b +:+ c).
Proof. induction a as [|x a IH]; [done|exact (f_equal (String x) IH)]. Qed.

Lemma append_nil_r (a : string) : a +:+ "" = a.
Proof. induction a as [|x a IH]; [done|exact (f_equal (String x) IH)]. Qed.

Lemma split_nonempty sep s : split sep s <> [].
Proof.
  destruct s as [|c s]; simpl; [done|]. destruct (Ascii.eqb c sep); [done|].
  destruct (split sep s); done.
Qed.

Lemma split_no_sep sep s :
  all_bytes (fun c => negb (Ascii.eqb c sep)) s = true -> split sep s = [s].
Proof.
  induction s as [|c s IH]; simpl; [done|]. rewrite andb_true_iff, negb_true_iff.
  intros [-> Hs]. by rewrite IH.
Qed.

Lemma split_app sep s t :
  all_bytes (fun c => negb (Ascii.eqb c sep)) s = true ->
  split sep (s +:+ String sep t) = s :: split sep t.
Proof.
  induction s as [|c s IH]; simpl.
  - intros _. by rewrite Ascii.eqb_refl.
  - rewrite andb_true_iff, negb_true_iff. intros [-> Hs]. by rewrite IH.
Qed.

(** Every octet prints and parses back, and prints without a dot. *)
Definition octet_ok (n : Z) : bool :=
  match parse_octet (show n) with Some m => m =? n | None => false end
  && all_bytes (fun c => negb (Ascii.eqb c ".")) (show n).

Lemma octets_ok : forallb octet_ok (seqZ 0 256) = true.
Proof. vm_compute. reflexivity. Qed.

Lemma octet_roundtrip n :
  0 <= n < 256 ->
  parse_octet (show n) = Some n /\
  all_bytes (fun c => negb (Ascii.eqb c ".")) (show n) = true.
Proof.
  intros Hn. pose proof octets_ok as H. rewrite forallb_forall in H.
  specialize (H n). rewrite <- list_elem_of_In, elem_of_seqZ in H.
  specialize (H ltac:(lia)). unfold octet_ok in H.
  apply andb_true_iff in H as [H1 H2]. split; [|done].
  destruct (parse_octet (show n)) as [m|]; [|done]. breflect. by subst.
Qed.

Lemma ipv4_roundtrip ip : 0 <= ip <= u32_max -> parse_ipv4 (show_ipv4 ip) = Some ip.
Proof.
  intros Hip. unfold parse_ipv4, show_ipv4.
  assert (Ho : forall i, 0 <= octet i ip < 256)
    by (intros; unfold octet; apply Z.mod_pos_bound; lia).
  destruct (octet_roundtrip _ (Ho 3)) as [P3 D3].
  destruct (octet_roundtrip _ (Ho 2)) as [P2 D2].
  destruct (octet_roundtrip _ (Ho 1)) as [P1 D1].
  destruct (octet_roundtrip _ (Ho 0)) as [P0 D0].
  assert (Hdot : forall x, "." +:+ x = String "." x) by done. rewrite !Hdot.
  rewrite (split_app "." (show (octet 3 ip))) by done.
  rewrite (split_app "." (show (octet 2 ip))) by done.
  rewrite (split_app "." (show (octet 1 ip))) by done.
  rewrite (split_no_sep "." (show (octet 0 ip))) by done.
  rewrite P3, P2, P1, P0. f_equal. unfold ipv4_of_octets, octet, u32_max in *.
  change (8 * 3) with 24. change (8 * 2) with 16. change (8 * 1) with 8. change (8 * 0) with 0.
  change (2 ^ 24) with 16777216 in *. change (2 ^ 16) with 65536.
  change (2 ^ 8) with 256. change (2 ^ 0) with 1.
  Z.to_euclidean_division_equations. lia.
Qed.

Lemma code_range c : 0 <= code c < 256.
Proof.
  unfold code. pose proof (N_ascii_bounded c). lia.
Qed.

Lemma digits_value_nonneg s : forall acc n,
  0 <= acc -> digits_value acc s = Some n -> 0 <= n.
Proof.
  induction s as [|c s IH]; simpl; intros acc n Ha H; [by simplify_eq|].
  unfold is_digit, between in H. destruct (_ && _) eqn:E; [|done]. breflect.
  eapply IH; [|exact H]. lia.
Qed.

Lemma parse_ipv4_range s ip : parse_ipv4 s = Some ip -> 0 <= ip <= u32_max.
Proof.
  assert (Ho : forall t n, parse_octet t = Some n -> 0 <= n <= 255).
  { unfold parse_octet. intros t n. destruct (_ || _); [done|]. destruct (_ && _); [done|].
    destruct (digits_value 0 t) as [v|] eqn:Ev; [|done]. destruct (v <=? 255) eqn:El; [|done].
    intros [= <-]. apply digits_value_nonneg in Ev; [|done]. breflect. lia. }
  unfold parse_ipv4. destruct (split "." s) as [|a [|b [|c [|d [|]]]]]; try done.
  destruct (parse_octet a) as [x|] eqn:Ea; [|done]. destruct (parse_octet b) as [y|] eqn:Eb; [|done].
  destruct (parse_octet c) as [z|] eqn:Ec; [|done]. destruct (parse_octet d) as [w|] eqn:Ed; [|done].
  intros [= <-]. apply Ho in Ea, Eb, Ec, Ed. unfold ipv4_of_octets, u32_max. lia.
Qed.

Lemma strip_prefix_app p s : strip_prefix p (p +:+ s) = Some s.
Proof. induction p as [|c p IH]; simpl; [done|]. by rewrite Ascii.eqb_refl. Qed.

Lemma starts_with_app n b : starts_with n (n +:+ b) = true.
Proof. unfold starts_with. induction n as [|c n IH]; simpl; [by destruct b|]. by destruct (ascii_dec c c). Qed.

Lemma strip_prefix_starts p s rest : strip_prefix p s = Some rest -> starts_with p s = true.
Proof.
  unfold starts_with. revert s. induction p as [|c p IH]; intros s; [by destruct s|].
  destruct s as [|d s]; simpl; [done|].
  destruct (Ascii.eqb_spec c d) as [->|]; [|done].
  destruct (ascii_dec d d); [|done]. apply IH.
Qed.

Lemma take_bytes_app a b : take_bytes (String.length a) (a +:+ b) = a.
Proof. induction a as [|c a IH]; simpl; [by destruct b|]. by f_equal. Qed.

Lemma drop_bytes_app a b : drop_bytes (String.length a) (a +:+ b) = b.
Proof. induction a as [|c a IH]; simpl; [by destruct b|done]. Qed.

Lemma string_app_empty a : a +:+ "" = a.
Proof. induction a as [|c a IH]; [done|]. change (String c (a +:+ "") = String c a). by rewrite IH. Qed.

Lemma string_length_app a b : String.length (a +:+ b) = (String.length a + String.length b)%nat.
Proof. induction a as [|c a IH]; simpl; [done|]. by rewrite IH. Qed.

(** ** Characters and trimming *)

Lemma concat_chars_chars s : concat_chars (chars s) = s.
Proof.
  induction s as [|c s IH]; [done|]. cbn [chars].
  destruct (chars s) as [|[|d ch] rest] eqn:E; unfold concat_chars in *; simpl in *; try by rewrite <- IH.
  destruct (is_continuation d); simpl; by rewrite <- IH.
Qed.

Lemma drop_while_none (p : string -> bool) l : Forall (fun x => p x = false) l -> drop_while p l = l.
Proof. intros [|x l' Hx _]; simpl; [done|by rewrite Hx]. Qed.

Lemma trim_id s : Forall (fun ch => is_whitespace ch = false) (chars s) -> trim s = s.
Proof.
  intros H. unfold trim. rewrite (drop_while_none _ (chars s) H), drop_while_none.
  - by rewrite List.rev_involutive, concat_chars_chars.
  - by apply Forall_rev.
Qed.

(** A run of a text's characters is itself split into those characters. *)
Lemma chars_suffix : forall a s b, chars s = a ++ b -> chars (concat_chars b) = b.
Proof.
  assert (Ht : forall s x rest, chars s = x :: rest -> exists s', chars s' = rest).
  { induction s as [|c s IH]; intros x rest H; [done|]. cbn [chars] in H.
    destruct (chars s) as [|[|d ch] l] eqn:E; simplify_eq; [by exists ""|by exists s|].
    destruct (is_continuation d); simplify_eq; [by eapply IH|by exists s]. }
  induction a as [|x a IH]; intros s b H; simpl in H.
  - rewrite <- H, concat_chars_chars. done.
  - apply Ht in H as [s' Hs']. by eapply IH.
Qed.

Lemma chars_prefix : forall s a b, chars s = a ++ b -> chars (concat_chars a) = a.
Proof.
  induction s as [|c s IH]; intros [|x a] b H; [done|done|done|]. cbn [chars] in H.
  destruct (chars s) as [|[|d ch] l] eqn:E.
  - injection H as <- H. by destruct a.
  - injection H as <- H. specialize (IH a b ltac:(by rewrite <- H)). unfold concat_chars in *. simpl. cbn [chars].
    change ("" +:+ ?x) with x. rewrite IH. destruct a as [|[|e a0] a]; by simplify_eq.
  - destruct (is_continuation d) eqn:Ed; injection H as <- H.
    + specialize (IH (String d ch :: a) b ltac:(by rewrite H)). unfold concat_chars in *. simpl in *.
      cbn [chars]. cbn [chars] in IH. rewrite IH. by rewrite Ed.
    + specialize (IH a b ltac:(by rewrite <- H)). unfold concat_chars in *. simpl. cbn [chars].
      change ("" +:+ ?x) with x. rewrite IH. destruct a as [|e a]; [done|]. injection H as <- _. by rewrite Ed.
Qed.

Lemma drop_while_suffix p l : exists a, l = a ++ drop_while p l.
Proof.
  induction l as [|x l [a IH]]; [by exists []|]. simpl. destruct (p x); [|by exists []].
  exists (x :: a). simpl. by f_equal.
Qed.

Lemma drop_while_idem p l : drop_while p (drop_while p l) = drop_while p l.
Proof. induction l as [|x l IH]; simpl; [done|]. destruct (p x) eqn:E; [done|]. simpl. by rewrite E. Qed.

(** [trim] is a projection. *)
Lemma trim_trim s : trim (trim s) = trim s.
Proof.
  unfold trim at 1. set (w := drop_while is_whitespace (chars s)).
  set (m := drop_while is_whitespace (List.rev w)).
  destruct (drop_while_suffix is_whitespace (chars s)) as [a Ha].
  destruct (drop_while_suffix is_whitespace (List.rev w)) as [b Hb]. fold w in Ha. fold m in Hb.
  assert (Hw : w = List.rev m ++ List.rev b) by (by rewrite <- List.rev_app_distr, <- Hb, List.rev_involutive).
  assert (Hc : chars (trim s) = List.rev m).
  { apply (chars_prefix (concat_chars w) _ (List.rev b)). transitivity w; [by apply (chars_suffix a s)|exact Hw]. }
  rewrite Hc. assert (Hd : drop_while is_whitespace (List.rev m) = List.rev m).
  { assert (Hi := drop_while_idem is_whitespace (chars s)). fold w in Hi.
    destruct (List.rev m) as [|x r] eqn:Er; [done|]. rewrite Hw in Hi. simpl in Hi |- *.
    destruct (is_whitespace x); [|done]. apply (f_equal length) in Hi.
    destruct (drop_while_suffix is_whitespace (r ++ List.rev b)) as [z Hz].
    apply (f_equal length) in Hz. rewrite !length_app in Hz. simpl in Hi. rewrite length_app in Hi. lia. }
  rewrite Hd, List.rev_involutive. unfold m at 1. rewrite drop_while_idem. done.
Qed.

(** Bytes that are neither continuation bytes nor whitespace of their own. *)
Definition plain_byte (c : ascii) : bool := negb (is_continuation c) && negb (is_whitespace (String c "")).

Lemma plain_chars s : all_bytes plain_byte s = true -> Forall (fun ch => is_whitespace ch = false) (chars s).
Proof.
  intros H.
  assert (Hc : chars s = (fun c => String c "") <$> String.list_ascii_of_string s /\
               Forall (fun ch => is_whitespace ch = false) (chars s)); [|tauto].
  induction s as [|c s IH]; [by repeat constructor|]. cbn [all_bytes] in H.
  apply andb_true_iff in H as [Hp Hs]. destruct (IH Hs) as [Hl Hw]. apply andb_true_iff in Hp as [_ Hp].
  assert (He : chars (String c s) = String c "" :: chars s).
  { cbn [chars]. rewrite Hl. destruct s as [|d s']; [done|]. simpl.
    cbn [all_bytes] in Hs. apply andb_true_iff in Hs as [Hd _]. apply andb_true_iff in Hd as [Hd _].
    apply negb_true_iff in Hd. by rewrite Hd. }
  rewrite He. split; [by rewrite Hl|]. constructor; [by apply negb_true_iff|done].
Qed.

Lemma trim_plain s : all_bytes plain_byte s = true -> trim s = s.
Proof. intros H. by apply trim_id, plain_chars. Qed.

(** ** Printing and reading back decimal numbers *)

Lemma digits_value_go x : forall s, digits_value 0 (pretty_N_go x s) = digits_value (Z.of_N x) s.
Proof.
  induction (N.lt_wf_0 x) as [x _ IH]; intros s.
  destruct (N.eq_dec x 0%N) as [->|Hx]; [by rewrite pretty_N_go_0|].
  rewrite pretty_N_go_step by lia. rewrite IH by (apply N.div_lt; lia).
  assert (Hd : forall d, (d < 10)%N -> is_digit (pretty_N_char d) = true /\ code (pretty_N_char d) - 48 = Z.of_N d).
  { intros d Hd. assert (Hs : d ∈ (N.of_nat <$> seq 0 10)).
    { apply list_elem_of_fmap. exists (N.to_nat d). split; [lia|]. apply elem_of_seq. lia. }
    simpl in Hs. set_unfold in Hs. naive_solver. }
  destruct (Hd (x `mod` 10)%N) as [H1 H2]; [by apply N.mod_lt|].
  cbn [digits_value]. rewrite H1, H2. f_equal.
  rewrite N2Z.inj_div, N2Z.inj_mod. pose proof (Z.div_mod (Z.of_N x) 10). simpl Z.of_N. lia.
Qed.

Lemma pretty_N_bytes (p : ascii -> bool) x : forall s,
  (forall d, p (pretty_N_char d) = true) -> all_bytes p s = true -> all_bytes p (pretty_N_go x s) = true.
Proof.
  induction (N.lt_wf_0 x) as [x _ IH]; intros s Hp Hs.
  destruct (N.eq_dec x 0%N) as [->|Hx]; [by rewrite pretty_N_go_0|].
  rewrite pretty_N_go_step by lia. apply IH; [apply N.div_lt; lia|done|]. simpl. by rewrite Hp.
Qed.

Lemma pretty_N_digits (n : N) :
  all_bytes is_digit (pretty n) = true /\ digits_value 0 (pretty n) = Some (Z.of_N n) /\ pretty n <> "".
Proof.
  unfold pretty, pretty_N. case_decide as Hn; [by subst|].
  assert (Hv : digits_value 0 (pretty_N_go n "") = Some (Z.of_N n)) by apply digits_value_go.
  split; [|split; [done|]].
  - apply pretty_N_bytes; [|done]. intros d. unfold pretty_N_char. by repeat case_match.
  - intros He. rewrite He in Hv. injection Hv. lia.
Qed.

Lemma parse_digits max s n :
  all_bytes is_digit s = true -> digits_value 0 s = Some n -> s <> "" -> n <= max ->
  parse_unsigned max s = Some n.
Proof.
  intros Hd Hv Hne Hm. unfold parse_unsigned.
  assert ((match s with String "+" s' => s' | _ => s end) = s) as ->.
  { destruct s as [|c s]; [done|]. simpl in Hd. apply andb_true_iff in Hd as [Hd _].
    destruct (Ascii.eqb_spec c "+") as [->|Hc]; [done|].
    destruct c as [[] [] [] [] [] [] [] []]; done. }
  unfold is_empty. apply String.eqb_neq in Hne. rewrite Hne, Hv. apply Z.leb_le in Hm. by rewrite Hm.
Qed.

Lemma parse_unsigned_show max n : 0 <= n <= max -> parse_unsigned max (show n) = Some n.
Proof.
  intros Hn. unfold show. destruct n as [|p|p]; [|destruct (pretty_N_digits (N.pos p)) as (Hd & Hv & Hne)|lia].
  - apply parse_digits; [done..|lia].
  - apply parse_digits; [done..|simpl; lia].
Qed.

Lemma parse_i64_show n : i64_min <= n <= i64_max -> parse_i64 (show n) = Some n.
Proof.
  intros Hn. destruct (Z_le_gt_dec 0 n) as [Hp|Hp].
  - assert (Hu := parse_unsigned_show i64_max n (conj Hp (proj2 Hn))). unfold parse_i64.
    assert (Hd : all_bytes is_digit (show n) = true).
    { unfold show. destruct n as [|p|p]; [done|apply (pretty_N_digits (N.pos p))|lia]. }
    destruct (show n) as [|c s]; [done|]. simpl in Hd. apply andb_true_iff in Hd as [Hd _].
    destruct c as [[] [] [] [] [] [] [] []]; done.
  - destruct n as [|p|p]; [lia|lia|]. destruct (pretty_N_digits (N.pos p)) as (Hd & Hv & Hne).
    unfold show. change (pretty (Z.neg p)) with (String "-" (pretty (N.pos p))).
    cbn [parse_i64]. unfold is_empty. apply String.eqb_neq in Hne. rewrite Hne, Hv. simpl Z.of_N.
    assert (He : (i64_min <=? - Z.pos p) = true) by (apply Z.leb_le; lia). by rewrite He.
Qed.

Lemma all_bytes_impl (p q : ascii -> bool) s :
  (forall c, p c = true -> q c = true) -> all_bytes p s = true -> all_bytes q s = true.
Proof.
  intros H. induction s as [|c s IH]; [done|]. simpl. rewrite !andb_true_iff. intros [Hc Hs]. auto.
Qed.

(** A printed number is a sign and digits. *)
Lemma show_bytes (q : ascii -> bool) n :
  q "-"%char = true -> (forall c, is_digit c = true -> q c = true) -> all_bytes q (show n) = true.
Proof.
  intros Hm Hd. unfold show. destruct n as [|p|p].
  - change (pretty 0) with "0". simpl. by rewrite Hd.
  - apply (all_bytes_impl is_digit); [done|apply (pretty_N_digits (N.pos p))].
  - change (pretty (Z.neg p)) with (String "-" (pretty (N.pos p))). cbn [all_bytes]. rewrite Hm.
    apply (all_bytes_impl is_digit); [done|apply (pretty_N_digits (N.pos p))].
Qed.

Lemma trim_show n : trim (show n) = show n.
Proof. apply trim_plain, show_bytes; [done|]. by intros [[] [] [] [] [] [] [] []]. Qed.

Lemma utf8_ascii s : all_bytes (between 0 127) s = true -> utf8_valid s = true.
Proof.
  unfold utf8_valid. induction s as [|c s IH]; [done|]. cbn [all_bytes]. rewrite andb_true_iff. intros [Hc Hs].
  change (utf8_from (S (String.length s)) (String c s) = true). cbn [utf8_from utf8_char]. rewrite Hc. simpl.
  rewrite <- (IH Hs). by destruct s.
Qed.

Lemma utf8_show n : utf8_valid (show n) = true.
Proof. apply utf8_ascii, show_bytes; [done|]. by intros [[] [] [] [] [] [] [] []]. Qed.

Lemma show_inj x y : show x = show y -> x = y.
Proof. apply pretty_Z_inj. Qed.

(** [v.trim().parse::<i64>()] reads back what [to_string] printed. *)
Lemma parse_trim_show n : i64_min <= n <= i64_max -> parse_i64 (trim (show n)) = Some n.
Proof. intros H. by rewrite trim_show, parse_i64_show. Qed.

(** ** Order *)

(** [sort] followed by [dedup]. *)
Definition sort_dedup (l : list string) : list string :=
  dedup_by String.eqb (sort_by String.leb l).

Lemma string_leb_trans a b c : String.leb a b = true -> String.leb b c = true -> String.leb a c = true.
Proof.
  unfold String.leb. revert b c. induction a as [|x a IH]; intros [|y b] [|z c]; simpl; try done.
  unfold Ascii.compare. destruct (N.compare_spec (N_of_ascii x) (N_of_ascii y)) as [Hxy|Hxy|Hxy]; [| |done];
    destruct (N.compare_spec (N_of_ascii y) (N_of_ascii z)) as [Hyz|Hyz|Hyz]; try done; intros H1 H2.
  - rewrite Hxy, Hyz, N.compare_refl. by eapply IH.
  - rewrite Hxy. by rewrite (proj2 (N.compare_lt_iff _ _) Hyz).
  - rewrite <- Hyz. by rewrite (proj2 (N.compare_lt_iff _ _) Hxy).
  - assert (Hxz : (N_of_ascii x < N_of_ascii z)%N) by (by etrans). by rewrite (proj2 (N.compare_lt_iff _ _) Hxz).
Qed.

Lemma string_sorted l : StronglySorted (fun a b => String.leb a b = true) (sort_by String.leb l).
Proof.
  apply sort_by_sorted.
  - intros x y H. destruct (String.leb_total x y) as [H'|H']; [by rewrite H' in H|done].
  - intros x y z. apply string_leb_trans.
Qed.

Definition string_lt (a b : string) : Prop := String.leb a b = true /\ a <> b.

Lemma string_lt_trans a b c : string_lt a b -> string_lt b c -> string_lt a c.
Proof.
  intros [Hab Hne] [Hbc Hne']. split; [by eapply string_leb_trans|]. intros ->.
  destruct Hne'. by apply String.leb_antisym.
Qed.

Lemma string_ltb_lt a b : String.ltb a b = true <-> string_lt a b.
Proof.
  unfold string_lt, String.leb, String.ltb. destruct (String.compare a b) eqn:E; [| |naive_solver].
  - apply String.compare_eq_iff in E. naive_solver.
  - split; [|done]. intros _. split; [done|]. intros ->. assert (H := String.compare_antisym b b).
    by rewrite E in H.
Qed.

Lemma string_ltb_total a b : String.ltb a b = false -> a <> b -> String.ltb b a = true.
Proof.
  unfold String.ltb. rewrite (String.compare_antisym b a). destruct (String.compare a b) eqn:E; simpl; try done.
  by apply String.compare_eq_iff in E.
Qed.

Lemma dedup_from_in (prev x : string) l : In x (prev :: dedup_from String.eqb prev l) <-> In x (prev :: l).
Proof.
  revert prev. induction l as [|y l IH]; intros prev; [done|]. cbn [dedup_from].
  destruct (String.eqb_spec y prev) as [->|Hne].
  - rewrite (IH prev). simpl. tauto.
  - cbn [In]. specialize (IH y). cbn [In] in IH. tauto.
Qed.

Lemma sort_dedup_in x l : In x (sort_dedup l) <-> In x l.
Proof.
  rewrite <- (sort_by_in String.leb x l). unfold sort_dedup. destruct (sort_by _ l); [done|].
  apply dedup_from_in.
Qed.

Lemma sort_dedup_strict l : StronglySorted string_lt (sort_dedup l).
Proof.
  assert (H := string_sorted l). unfold sort_dedup. destruct (sort_by _ l) as [|x r]; [constructor|].
  clear l. cbn [dedup_by]. revert x H. induction r as [|y r IH]; intros x H; [repeat constructor|].
  apply StronglySorted_inv in H as [Hr Hx]. cbn [dedup_from]. inversion Hx as [|? ? Hxy Hxr]; subst.
  destruct (String.eqb_spec y x) as [->|Hne]; [by apply IH|].
  constructor; [by apply IH|]. assert (Hlt : string_lt x y) by done.
  specialize (IH y Hr). apply StronglySorted_inv in IH as [_ Hall]. constructor; [done|].
  eapply Forall_impl; [exact Hall|]. intros z Hz. by eapply string_lt_trans.
Qed.

(** A strictly sorted list is left alone. *)
Lemma sort_dedup_id l : StronglySorted string_lt l -> sort_dedup l = l.
Proof.
  intros H. unfold sort_dedup.
  assert (Hs : sort_by String.leb l = l).
  { induction H as [|x l Hl IH Hx]; [done|]. simpl. rewrite IH. destruct Hx as [|y l [Hxy _] _]; simpl; [done|].
    by rewrite Hxy. }
  rewrite Hs. clear Hs. destruct H as [|x l Hl Hx]; [done|]. cbn [dedup_by]. f_equal.
  revert x Hx. induction Hl as [|y l Hl IH Hy]; intros x Hx; [done|]. cbn [dedup_from].
  inversion Hx as [|? ? [_ Hne] _]; subst. destruct (String.eqb_spec y x) as [->|_]; [done|]. f_equal. by apply IH.
Qed.

Lemma sort_dedup_length l : (length (sort_dedup l) <= length l)%nat.
Proof.
  rewrite <- (Permutation_length (sort_by_perm String.leb l)). unfold sort_dedup.
  destruct (sort_by _ l) as [|x r]; [done|]. cbn [dedup_by length]. apply le_n_S.
  revert x. induction r as [|y r IH]; intros x; [done|]. cbn [dedup_from].
  destruct (String.eqb y x); cbn [length]; [specialize (IH x)|specialize (IH y)]; lia.
Qed.

(** Whatever holds of every byte by inspection. *)
Ltac by_byte := intros c; destruct c as [[] [] [] [] [] [] [] []]; (reflexivity || discriminate).

Lemma hex_cons b bs : hex (b :: bs) = hex_byte b +:+ hex bs.
Proof. unfold hex. destruct bs; [by rewrite string_app_empty|done]. Qed.

Lemma all_bytes_app p a b : all_bytes p (a +:+ b) = all_bytes p a && all_bytes p b.
Proof. induction a as [|c a IH]; [done|]. change (p c && all_bytes p (a +:+ b) = p c && all_bytes p a && all_bytes p b). by rewrite IH, andb_assoc. Qed.

Lemma map_bytes_app f a b : map_bytes f (a +:+ b) = map_bytes f a +:+ map_bytes f b.
Proof. induction a as [|c a IH]; [done|]. change (String (f c) (map_bytes f (a +:+ b)) = String (f c) (map_bytes f a +:+ map_bytes f b)). by rewrite IH. Qed.

Definition not_byte (x c : ascii) : bool := negb (Ascii.eqb c x).

Lemma split_once_skip c a b : all_bytes (not_byte c) a = true -> split_once c (a +:+ String c b) = Some (a, b).
Proof.
  induction a as [|d a IH]; intros Ha; [simpl; by rewrite Ascii.eqb_refl|].
  cbn [all_bytes] in Ha. apply andb_true_iff in Ha as [Hd%negb_true_iff Ha].
  change (String d a +:+ String c b) with (String d (a +:+ String c b)). cbn [split_once]. by rewrite Hd, IH.
Qed.

Definition ascii_byte (c : ascii) : bool := negb (is_continuation c).

Lemma chars_ascii s : all_bytes ascii_byte s = true -> chars s = (fun c => String c "") <$> String.list_ascii_of_string s.
Proof.
  induction s as [|c s IH]; [done|]. cbn [all_bytes]. intros [_ Hs]%andb_true_iff. cbn [chars]. rewrite (IH Hs). destruct s as [|d s]; [done|].
  cbn [all_bytes] in Hs. apply andb_true_iff in Hs as [Hd%negb_true_iff _]. cbn. by rewrite Hd.
Qed.

Lemma list_ascii_app a b : String.list_ascii_of_string (a +:+ b) = String.list_ascii_of_string a ++ String.list_ascii_of_string b.
Proof. induction a as [|c a IH]; [done|]. cbn. by rewrite <- IH. Qed.

(** A printed line loses its line feed and nothing else. *)
Lemma trim_line c a v : plain_byte c = true -> all_bytes ascii_byte a = true -> all_bytes plain_byte v = true -> v <> "" ->
  trim (String c a +:+ v +:+ nl) = String c a +:+ v.
Proof.
  intros Hc Ha Hv Hne. assert (Hva : all_bytes ascii_byte v = true).
  { revert Hv. apply all_bytes_impl. intros x. unfold plain_byte, ascii_byte. by intros [? _]%andb_true_iff. }
  assert (Hca : ascii_byte c = true) by (unfold plain_byte in Hc; by apply andb_true_iff in Hc as [? _]).
  assert (Hb : all_bytes ascii_byte (String c a +:+ v) = true) by (rewrite all_bytes_app; cbn; by rewrite Hca, Ha, Hva).
  assert (Hcs : chars (String c a +:+ v +:+ nl) = chars (String c a +:+ v) ++ [nl]).
  { rewrite <- append_assoc, !chars_ascii; [|done|by rewrite all_bytes_app, Hb].
    by rewrite list_ascii_app, fmap_app. }
  assert (Hw : Forall (fun ch => is_whitespace ch = false) (chars v)) by (by apply plain_chars).
  assert (Hsp : chars (String c a +:+ v) = String c "" :: ((fun c => String c "") <$> String.list_ascii_of_string a) ++ chars v).
  { rewrite !chars_ascii by done. change (String c a +:+ v) with (String c (a +:+ v)). cbn. by rewrite list_ascii_app, fmap_app. }
  assert (Hcw : is_whitespace (String c "") = false) by (unfold plain_byte in Hc; apply andb_true_iff in Hc as [_ H]; by apply negb_true_iff).
  unfold trim. rewrite Hcs. set (cs := chars (String c a +:+ v)) in *.
  assert (Hd1 : drop_while is_whitespace (cs ++ [nl]) = cs ++ [nl]) by (rewrite Hsp; cbn [app drop_while]; by rewrite Hcw).
  rewrite Hd1, rev_app_distr. cbn [rev app drop_while]. change (is_whitespace nl) with true. cbn iota.
  assert (Hd2 : drop_while is_whitespace (List.rev cs) = List.rev cs).
  { rewrite Hsp. cbn [rev]. rewrite rev_app_distr, <- app_assoc. destruct (List.rev (chars v)) as [|y l] eqn:E.
    - exfalso. apply Hne. rewrite <- (concat_chars_chars v). apply (f_equal (@List.rev string)) in E. rewrite List.rev_involutive in E. by rewrite E.
    - apply Forall_rev in Hw. rewrite E in Hw. apply Forall_cons in Hw as [Hy _]. cbn [app drop_while]. by rewrite Hy. }
  rewrite Hd2, List.rev_involutive. apply concat_chars_chars.
Qed.
