(* ===== verification/Json.v ===== *)
(** * JSON values

    The documented data type of [serde_json::Value], whose object map is a
    [BTreeMap]: fields are kept in key order and a key occurs once.  Strings
    are UTF-8 byte strings and compare byte by byte. *)

From S2P Require Import Prelude Strings.

#[local] Set Warnings "-register-all".

(** Integral numbers are their value; any other number is its literal. *)
Inductive number :=
| NInt (n : Z)
| NFloat (literal : string).

Inductive json :=
| JNull
| JBool (b : bool)
| JNumber (n : number)
| JString (s : string)
| JArray (items : list json)
| JObject (fields : list (string * json)).

Definition empty_object : json := JObject [].

Fixpoint field_get (k : string) (fields : list (string * json)) : option json :=
  match fields with
  | [] => None
  | (k', v) :: rest => if String.eqb k k' then Some v else field_get k rest
  end.

(** [Map::insert]: replaces in place or inserts in key order. *)
Fixpoint field_insert (k : string) (v : json)
    (fields : list (string * json)) : list (string * json) :=
  match fields with
  | [] => [(k, v)]
  | (k', v') :: rest =>
      if String.eqb k k' then (k, v) :: rest
      else if String.ltb k k' then (k, v) :: (k', v') :: rest
      else (k', v') :: field_insert k v rest
  end.

(** The [json!] object literal inserts its fields one after the other. *)
Definition obj (fields : list (string * json)) : json :=
  JObject (fold_left (fun acc kv => field_insert kv.1 kv.2 acc) fields []).

(** [Value::get] with a string key: absent on anything but an object. *)
Definition get (k : string) (v : json) : option json :=
  match v with JObject fields => field_get k fields | _ => None end.

(** [value\[k\] = v] on an object; indexing [Null] turns it into an object,
    any other value panics, which is [None] here. *)
Definition index_set (k : string) (v : json) (j : json) : option json :=
  match j with
  | JObject fields => Some (JObject (field_insert k v fields))
  | JNull => Some (JObject (field_insert k v []))
  | _ => None
  end.

Definition as_str (v : json) : option string :=
  match v with JString s => Some s | _ => None end.
Definition as_bool (v : json) : option bool :=
  match v with JBool b => Some b | _ => None end.
Definition as_i64 (v : json) : option Z :=
  match v with
  | JNumber (NInt n) => if (i64_min <=? n) && (n <=? i64_max) then Some n else None
  | _ => None
  end.
Definition as_u64 (v : json) : option Z :=
  match v with
  | JNumber (NInt n) => if (0 <=? n) && (n <=? u64_max) then Some n else None
  | _ => None
  end.
Definition as_array (v : json) : option (list json) :=
  match v with JArray l => Some l | _ => None end.
Definition is_object (v : json) : bool :=
  match v with JObject _ => true | _ => false end.
Definition is_null (v : json) : bool :=
  match v with JNull => true | _ => false end.

Definition get_str (k : string) (v : json) : option string :=
  match get k v with Some x => as_str x | None => None end.

Definition jint (n : Z) : json := JNumber (NInt n).
Definition jopt_str (o : option string) : json :=
  match o with Some s => JString s | None => JNull end.

(** ** Key order *)

Definition fields_sorted (fields : list (string * json)) : Prop :=
  StronglySorted (fun a b => String.ltb a.1 b.1 = true) fields.

Lemma field_get_insert k v k' fields :
  field_get k' (field_insert k v fields)
  = if String.eqb k' k then Some v else field_get k' fields.
Proof.
  induction fields as [|[k0 v0] rest IH]; simpl.
  - done.
  - destruct (String.eqb_spec k k0) as [->|Hne]; simpl.
    + destruct (String.eqb k' k0); done.
    + destruct (String.ltb k k0); simpl; [done|].
      rewrite IH. destruct (String.eqb_spec k' k0) as [->|]; [|done].
      destruct (String.eqb_spec k0 k); congruence.
Qed.

Lemma get_index_set k v j j' k' :
  index_set k v j = Some j' ->
  get k' j' = if String.eqb k' k then Some v else get k' j.
Proof.
  destruct j; simpl; intros; simplify_eq; simpl; rewrite ?field_get_insert; done.
Qed.

(** [value\[k\] = v] where the value is an object: the code only indexes
    objects it has just built. *)
Definition jset (k : string) (v : json) (j : json) : json :=
  match j with
  | JObject fields => JObject (field_insert k v fields)
  | _ => j
  end.

Definition jstrs (l : list string) : json := JArray (JString <$> l).

Lemma get_jset k v k' fields :
  get k' (jset k v (JObject fields))
  = if String.eqb k' k then Some v else get k' (JObject fields).
Proof. apply field_get_insert. Qed.

(** An object in key order keeps its order, and writing a field it already has
    changes nothing. *)
Lemma field_insert_keys k v fields x :
  In x (fst <$> field_insert k v fields) <-> x = k \/ In x (fst <$> fields).
Proof.
  induction fields as [|[k0 v0] rest IH]; simpl; [naive_solver|].
  destruct (String.eqb_spec k k0) as [->|]; simpl; [naive_solver|].
  destruct (String.ltb k k0); simpl; [naive_solver|]. rewrite IH. naive_solver.
Qed.

Lemma field_insert_same k v fields :
  fields_sorted fields -> field_get k fields = Some v -> field_insert k v fields = fields.
Proof.
  induction 1 as [|[k0 v0] rest Hs IH Hf]; simpl; [done|].
  destruct (String.eqb_spec k k0) as [->|Hne]; [by intros [= ->]|]. intros Hg. rewrite IH by done.
  destruct (String.ltb k k0) eqn:E; [|done]. exfalso.
  assert (Hin : exists x, In x rest /\ x.1 = k).
  { clear -Hg. induction rest as [|[k1 v1] rest IH]; simpl in *; [done|].
    destruct (String.eqb_spec k k1) as [->|]; [by exists (k1, v1); auto|].
    destruct (IH Hg) as (x & ? & ?); eauto. }
  destruct Hin as (x & Hx & <-). rewrite List.Forall_forall in Hf. specialize (Hf x Hx). simpl in Hf.
  rewrite string_ltb_lt in *. destruct (string_lt_trans _ _ _ E Hf) as [_ []]. done.
Qed.

Lemma field_insert_sorted k v fields : fields_sorted fields -> fields_sorted (field_insert k v fields).
Proof.
  induction 1 as [|[k0 v0] rest Hs IH Hf]; simpl; [repeat constructor|].
  destruct (String.eqb_spec k k0) as [->|Hne]; [by constructor|].
  destruct (String.ltb k k0) eqn:E.
  - constructor; [by constructor|]. constructor; [done|]. eapply Forall_impl; [exact Hf|].
    intros x. simpl. rewrite !string_ltb_lt in *. by apply string_lt_trans.
  - constructor; [done|]. apply List.Forall_forall. intros x Hx. simpl.
    assert (Hk := proj1 (field_insert_keys k v rest x.1) (List.in_map fst _ _ Hx)).
    destruct Hk as [->|Hin].
    + by apply string_ltb_total.
    + apply List.in_map_iff in Hin as (y & <- & Hy). by apply (proj1 (List.Forall_forall _ _) Hf y Hy).
Qed.
