(* ===== verification/Ip.v ===== *)
(** * Textual IP addresses ([std::net::IpAddr::from_str])

    A parser returns what it read and the rest of the text, or [None] without
    consuming anything. *)

From S2P Require Import Prelude Strings.

Inductive IpAddr :=
| V4 (bits : Z)
| V6 (bits : Z).
#[export] Instance IpAddr_eq_dec : EqDecision IpAddr.
Proof. solve_decision. Defined.

Definition digit_in (radix : Z) (c : ascii) : option Z :=
  let d :=
    if is_digit c then code c - 48
    else if between 97 102 c then code c - 87
    else if between 65 70 c then code c - 55 else 99 in
  if d <? radix then Some d else None.

(** The maximal run of digits with their count and value. *)
Fixpoint read_digits (radix acc count : Z) (s : string) : Z * Z * string :=
  match s with
  | "" => (acc, count, s)
  | String c rest =>
      match digit_in radix c with
      | Some d => read_digits radix (acc * radix + d) (count + 1) rest
      | None => (acc, count, s)
      end
  end.

(** [read_number]: at most [max_digits] digits and at most [max]. *)
Definition read_number (radix max_digits max : Z) (allow_zero_prefix : bool) (s : string)
    : option (Z * string) :=
  let '(v, n, rest) := read_digits radix 0 0 s in
  if (n =? 0) || (max_digits <? n) || (max <? v)
     || (negb allow_zero_prefix && starts_with "0" s && (1 <? n))
  then None else Some (v, rest).

Definition read_char (c : ascii) (s : string) : option string :=
  match s with String c' rest => if Ascii.eqb c c' then Some rest else None | "" => None end.

(** [read_separator]: the separator comes before every element but the first. *)
Definition read_separator {A} (sep : ascii) (first : bool) (p : string -> option (A * string))
    (s : string) : option (A * string) :=
  if first then p s else let! rest := read_char sep s in p rest.

Definition read_octet (first : bool) : string -> option (Z * string) :=
  read_separator "." first (read_number 10 3 255 false).

Definition read_ipv4 (s : string) : option (Z * string) :=
  let! a := read_octet true s in
  let! b := read_octet false a.2 in
  let! c := read_octet false b.2 in
  let! d := read_octet false c.2 in
  Some (ipv4_of_octets a.1 b.1 c.1 d.1, d.2).

(** [read_groups] into [limit] slots from index [i]: the groups read, whether an
    embedded IPv4 address ended them, and the rest. *)
Fixpoint read_groups (limit : nat) (first : bool) (s : string) : list Z * bool * string :=
  match limit with
  | O => ([], false, s)
  | S more =>
      match (match more with
             | O => None
             | S _ => read_separator ":" first read_ipv4 s
             end) with
      | Some (v4, rest) => ([v4 / 65536; v4 mod 65536], true, rest)
      | None =>
          match read_separator ":" first (read_number 16 4 65535 true) s with
          | Some (g, rest) =>
              let '(gs, v4, rest) := read_groups more false rest in (g :: gs, v4, rest)
          | None => ([], false, s)
          end
      end
  end.

Definition ipv6_of_groups (gs : list Z) : Z := fold_left (fun acc g => acc * 65536 + g) gs 0.

Definition read_ipv6 (s : string) : option (Z * string) :=
  let '(head, head_v4, rest) := read_groups 8 true s in
  if (length head =? 8)%nat then Some (ipv6_of_groups head, rest)
  else if head_v4 then None
  else
    let! rest := read_char ":" rest in
    let! rest := read_char ":" rest in
    let '(tail, _, rest) := read_groups (7 - length head) true rest in
    let zeros := replicate (8 - length head - length tail) 0 in
    Some (ipv6_of_groups (head ++ zeros ++ tail), rest).

Definition finish {A} (o : option (A * string)) : option A :=
  match o with Some (a, "") => Some a | _ => None end.

(** [read_ip_addr] tries IPv4 first; the whole text must be consumed. *)
Definition parse_ip (s : string) : option IpAddr :=
  finish (match read_ipv4 s with
          | Some (v, rest) => Some (V4 v, rest)
          | None => match read_ipv6 s with
                    | Some (v, rest) => Some (V6 v, rest)
                    | None => None
                    end
          end).

(** [IpAddr::is_loopback]. *)
Definition ip_is_loopback (ip : IpAddr) : bool :=
  match ip with V4 v => v / 2 ^ 24 =? 127 | V6 v => v =? 1 end.

(** ** Socket addresses *)

Record SocketAddr := mkSocket { sock_ip : IpAddr; sock_port : Z }.

(** [read_port]: a colon and a number of sixteen bits, of any number of digits. *)
Definition read_port (s : string) : option (Z * string) :=
  let! rest := read_char ":" s in read_number 10 (len rest) 65535 true rest.

(** [read_scope_id]: a percent sign and a number of thirty-two bits. *)
Definition read_scope_id (s : string) : option (Z * string) :=
  let! rest := read_char "%" s in read_number 10 (len rest) u32_max true rest.

Definition read_socket_v4 (s : string) : option (SocketAddr * string) :=
  let! ip := read_ipv4 s in
  let! port := read_port ip.2 in
  Some (mkSocket (V4 ip.1) port.1, port.2).

Definition read_socket_v6 (s : string) : option (SocketAddr * string) :=
  let! rest := read_char "[" s in
  let! ip := read_ipv6 rest in
  let rest := match read_scope_id ip.2 with Some (_, rest) => rest | None => ip.2 end in
  let! rest := read_char "]" rest in
  let! port := read_port rest in
  Some (mkSocket (V6 ip.1) port.1, port.2).

(** [str::parse::<SocketAddr>]; the scope of an IPv6 address is not kept. *)
Definition parse_socket (s : string) : option SocketAddr :=
  finish (match read_socket_v4 s with Some r => Some r | None => read_socket_v6 s end).

(** ** Display *)

Definition octets_text (v : Z) : string :=
  join "." (show <$> [v / 16777216; v / 65536 mod 256; v / 256 mod 256; v mod 256]).

(** [{:x}] of a group: no leading zeros. *)
Definition group_text (g : Z) : string :=
  let digits := [g / 4096; g / 256 mod 16; g / 16 mod 16; g mod 16] in
  let fix skip ds := match ds with
                     | d :: (_ :: _) as rest => if d =? 0 then skip rest else ds
                     | _ => ds
                     end in
  foldr (fun d s => String (hex_digit d) s) "" (skip digits).

Definition groups_of (v : Z) : list Z := (fun i => v / 2 ^ (16 * (7 - i)) mod 65536) <$> [0; 1; 2; 3; 4; 5; 6; 7].

(** The length of the run of zero groups at the front. *)
Fixpoint zeros (gs : list Z) : nat :=
  match gs with g :: rest => if g =? 0 then S (zeros rest) else O | [] => O end.

(** The start and length of the first longest run of zero groups. *)
Fixpoint longest_zeros (at_ : nat) (gs : list Z) (best : nat * nat) : nat * nat :=
  match gs with
  | [] => best
  | _ :: rest => longest_zeros (S at_) rest (if (best.2 <? zeros gs)%nat then (at_, zeros gs) else best)
  end.

Definition groups_text (gs : list Z) : string := join ":" (group_text <$> gs).

Definition ip_text (ip : IpAddr) : string :=
  match ip with
  | V4 v => octets_text v
  | V6 v =>
      if v / 2 ^ 32 =? 65535 then "::ffff:" +:+ octets_text (v mod 2 ^ 32)
      else
        let gs := groups_of v in
        let '(start, n) := longest_zeros 0 gs (0%nat, 0%nat) in
        if (1 <? n)%nat then groups_text (firstn start gs) +:+ "::" +:+ groups_text (skipn (start + n) gs)
        else groups_text gs
  end.

Example ip_text_examples :
  let shown := ["10.0.0.1"; "::1"; "::"; "2001:db8::8:800:200c:417a"; "::ffff:10.0.0.1"; "1:2:3:4:5:6:7:8";
                "1:0:2::3:0"; "fe80::"] in
  (fun s => ip_text <$> parse_ip s) <$> shown = Some <$> shown.
Proof. vm_compute. reflexivity. Qed.

Example parse_ip_examples :
  (parse_ip <$> ["10.0.0.1"; "::1"; "2001:db8::8:800:200c:417a"; "::ffff:10.0.0.1";
                 "1::2::3"; "01.2.3.4"; "::ffff:1.2.3.4:5"; "1:2:3:4:5:6:7:8"; ""])
  = [Some (V4 167772161); Some (V6 1); Some (V6 42540766411282592856906245548098208122);
     Some (V6 281470849515521); None; None; None; Some (V6 5192455318486707404433266433261576); None].
Proof. vm_compute. reflexivity. Qed.
