(* ===== verification/Models.v ===== *)
(** * Database rows and write inputs (src/master/src/db/models.rs)

    One module per struct, its fields under the source's names.  Timestamps are
    [Z], [Vec] is [list], the columns of type [i32] and [i64] are [Z]. *)

From S2P Require Import Prelude Json.

(** The three cases of a PATCH field stay distinct. *)
Inductive Patch (T : Type) :=
| Missing
| Null
| Value (v : T).
Arguments Missing {T}.
Arguments Null {T}.
Arguments Value {T} v.

(** [Deserialize for Patch]: what a present field parses to; an absent one is
    the [Default], [Missing]. *)
Definition patch_of_present {T} (v : option T) : Patch T :=
  match v with Some v => Value v | None => Null end.

(** A patched column: kept, cleared or set. *)
Definition effective {T} (p : Patch T) (current : option T) : option T :=
  match p with Missing => current | Null => None | Value v => Some v end.
(** A COALESCEd column. *)
Definition coalesce {T} (o : option T) (current : T) : T := default current o.

Module Node.
Record Node := mk {
  id : Uuid;
  name : string;
  address : string;
  tls_server_name : string;
  grpc_port : Z;
  transport : string;
  extra_addresses : list string;
  labels : list string;
  enabled : bool;
  maintenance : bool;
  last_seen : option Z;
  agent_version : option string;
  singbox_version : option string;
  desired_spec_hash : option string;
  applied_spec_hash : option string;
  applied_spec_summary : option json;
  applied_at : option Z;
  last_push_at : option Z;
  last_push_status : option string;
  last_push_message : option string;
  monthly_cost_cents : Z;
  created_at : Z;
  updated_at : Z }.
End Node.

Module Inbound.
Record Inbound := mk {
  id : Uuid;
  node_id : Uuid;
  tag : string;
  labels : list string;
  kind : string;
  core : string;
  listen : string;
  listen_port : Z;
  flow : string;
  tls_enabled : bool;
  server_name : option string;
  cert_path : option string;
  key_path : option string;
  reality : bool;
  reality_private_key : option string;
  reality_public_key : option string;
  reality_short_ids : list string;
  reality_handshake_server : option string;
  reality_handshake_port : option Z;
  network : string;
  transport_path : option string;
  transport_host : option string;
  transport_service_name : option string;
  transport_mode : option string;
  ech : bool;
  utls_fingerprint : option string;
  shadowtls_handshake_server : option string;
  shadowtls_handshake_port : option Z;
  extra : json;
  enabled : bool;
  reachable : option bool;
  reach_checked_at : option Z;
  reach_error : option string;
  fallback_host : option string;
  sni_pool : list string;
  cdn_pool : list string;
  up_mbps : Z;
  down_mbps : Z;
  udp_idle_timeout : string;
  upstream_inbound_id : option Uuid;
  chain_uuid : option string;
  chain_password : option string;
  created_at : Z;
  updated_at : Z }.
End Inbound.

Module User.
Record User := mk {
  id : Uuid;
  username : string;
  subscription_title : option string;
  subscription_description : option string;
  subscription_group : option string;
  subscription_traffic_policy : string;
  labels : list string;
  uuid : string;
  password : string;
  enabled : bool;
  traffic_limit_bytes : Z;
  used_traffic_bytes : Z;
  expires_at : option Z;
  device_limit : Z;
  routing_profile_id : option Uuid;
  quota_interval : string;
  quota_reset_at : option Z;
  created_by : option Uuid;
  subscription_alias : option string;
  created_at : Z;
  updated_at : Z }.

Definition suppressed_reason (now : Z) (u : User) : option string :=
  if negb (enabled u) then Some "disabled"
  else if is_some_and (expires_at u) (fun expires => expires <=? now)
  then Some "expired"
  else if (0 <? traffic_limit_bytes u)
          && (traffic_limit_bytes u <=? used_traffic_bytes u)
  then Some "quota"
  else None.

Definition is_active (now : Z) (u : User) : bool :=
  negb (is_some (suppressed_reason now u)).

(** Functional updates of the columns the queries write; the trigger on the
    table stamps [updated_at] with every update. *)
Definition with_used (v now : Z) (u : User) : User :=
  mk (id u) (username u) (subscription_title u) (subscription_description u)
    (subscription_group u) (subscription_traffic_policy u) (labels u) (uuid u)
    (password u) (enabled u) (traffic_limit_bytes u) v (expires_at u)
    (device_limit u) (routing_profile_id u) (quota_interval u) (quota_reset_at u)
    (created_by u) (subscription_alias u) (created_at u) now.
Definition with_quota (interval : string) (reset_at : option Z) (now : Z)
    (u : User) : User :=
  mk (id u) (username u) (subscription_title u) (subscription_description u)
    (subscription_group u) (subscription_traffic_policy u) (labels u) (uuid u)
    (password u) (enabled u) (traffic_limit_bytes u) (used_traffic_bytes u)
    (expires_at u) (device_limit u) (routing_profile_id u) interval reset_at
    (created_by u) (subscription_alias u) (created_at u) now.
Definition with_enabled (v : bool) (now : Z) (u : User) : User :=
  mk (id u) (username u) (subscription_title u) (subscription_description u)
    (subscription_group u) (subscription_traffic_policy u) (labels u) (uuid u)
    (password u) v (traffic_limit_bytes u) (used_traffic_bytes u) (expires_at u)
    (device_limit u) (routing_profile_id u) (quota_interval u) (quota_reset_at u)
    (created_by u) (subscription_alias u) (created_at u) now.
Definition with_credentials (uuid' password' : string) (u : User) : User :=
  mk (id u) (username u) (subscription_title u) (subscription_description u)
    (subscription_group u) (subscription_traffic_policy u) (labels u) uuid'
    password' (enabled u) (traffic_limit_bytes u) (used_traffic_bytes u)
    (expires_at u) (device_limit u) (routing_profile_id u) (quota_interval u)
    (quota_reset_at u) (created_by u) (subscription_alias u) (created_at u)
    (updated_at u).
End User.

Module SubscriptionEndpoint.
Record SubscriptionEndpoint := mk {
  inbound_id : Uuid;
  node_name : string;
  address : string;
  tag : string;
  kind : string;
  core : string;
  listen_port : Z;
  flow : string;
  tls_enabled : bool;
  server_name : option string;
  reality : bool;
  reality_public_key : option string;
  reality_short_ids : list string;
  network : string;
  transport_path : option string;
  transport_host : option string;
  transport_service_name : option string;
  transport_mode : option string;
  utls_fingerprint : option string;
  ech : bool;
  extra : json;
  extra_addresses : list string }.
End SubscriptionEndpoint.

Module NewInbound.
Record NewInbound := mk {
  node_id : Uuid;
  tag : string;
  kind : string;
  core : string;
  listen_port : Z;
  flow : string;
  tls_enabled : bool;
  server_name : option string;
  cert_path : option string;
  key_path : option string;
  reality : bool;
  reality_private_key : option string;
  reality_public_key : option string;
  reality_short_ids : list string;
  reality_handshake_server : option string;
  reality_handshake_port : option Z;
  network : string;
  transport_path : option string;
  transport_host : option string;
  transport_service_name : option string;
  transport_mode : option string;
  ech : bool;
  utls_fingerprint : option string;
  shadowtls_handshake_server : option string;
  shadowtls_handshake_port : option Z;
  extra : json;
  fallback_host : option string;
  sni_pool : list string;
  cdn_pool : list string;
  up_mbps : Z;
  down_mbps : Z;
  udp_idle_timeout : string;
  upstream_inbound_id : option Uuid }.
End NewInbound.

Module UpdateInbound.
Record UpdateInbound := mk {
  tag : option string;
  kind : option string;
  core : option string;
  listen_port : option Z;
  flow : option string;
  tls_enabled : option bool;
  server_name : Patch string;
  cert_path : Patch string;
  key_path : Patch string;
  reality : option bool;
  reality_private_key : Patch string;
  reality_public_key : Patch string;
  reality_short_ids : option (list string);
  reality_handshake_server : Patch string;
  reality_handshake_port : Patch Z;
  network : option string;
  transport_path : Patch string;
  transport_host : Patch string;
  transport_service_name : Patch string;
  transport_mode : Patch string;
  ech : option bool;
  utls_fingerprint : Patch string;
  shadowtls_handshake_server : Patch string;
  shadowtls_handshake_port : Patch Z;
  extra : option json;
  enabled : option bool;
  fallback_host : Patch string;
  sni_pool : option (list string);
  cdn_pool : option (list string);
  up_mbps : option Z;
  down_mbps : option Z;
  udp_idle_timeout : option string;
  upstream_inbound_id : Patch Uuid }.
End UpdateInbound.

Module NewUser.
Record NewUser := mk {
  username : string;
  password : string;
  subscription_title : option string;
  subscription_description : option string;
  subscription_group : option string;
  subscription_traffic_policy : string;
  traffic_limit_bytes : Z;
  expires_at : option Z;
  device_limit : Z }.
End NewUser.

Module UpdateUser.
Record UpdateUser := mk {
  username : option string;
  password : option string;
  subscription_title : Patch string;
  subscription_description : Patch string;
  subscription_group : Patch string;
  subscription_traffic_policy : option string;
  enabled : option bool;
  traffic_limit_bytes : option Z;
  expires_at : Patch Z;
  device_limit : option Z }.
End UpdateUser.

Module NewNode.
Record NewNode := mk {
  name : string;
  address : string;
  tls_server_name : string;
  grpc_port : Z;
  transport : string;
  monthly_cost_cents : Z }.
End NewNode.

Module UpdateNode.
Record UpdateNode := mk {
  name : option string;
  address : option string;
  tls_server_name : option string;
  grpc_port : option Z;
  transport : option string;
  enabled : option bool;
  extra_addresses : option (list string);
  maintenance : option bool;
  monthly_cost_cents : option Z }.
End UpdateNode.

Module NodeService.
Record NodeService := mk {
  id : Uuid;
  node_id : Uuid;
  kind : string;
  name : string;
  listen_port : Z;
  secret : option string;
  config : json;
  enabled : bool;
  created_at : Z;
  updated_at : Z }.
End NodeService.

Module WgInterface.
Record WgInterface := mk {
  id : Uuid;
  node_id : Uuid;
  name : string;
  listen_port : Z;
  private_key : string;
  public_key : string;
  address_cidr : string;
  dns : string;
  mtu : Z;
  amnezia : bool;
  amnezia_params : json;
  endpoint_host : option string;
  enabled : bool;
  created_at : Z;
  updated_at : Z }.
End WgInterface.

Module WgPeer.
Record WgPeer := mk {
  id : Uuid;
  interface_id : Uuid;
  user_id : Uuid;
  private_key : string;
  public_key : string;
  address : string;
  created_at : Z }.
End WgPeer.

Module RoutingProfile.
Record RoutingProfile := mk {
  id : Uuid;
  name : string;
  version : Z;
  block_ads : bool;
  direct_private : bool;
  direct_geosite : list string;
  direct_geoip : list string;
  final_proxy : bool;
  is_default : bool;
  notes : string;
  block_adult : bool;
  block_gambling : bool;
  blocked_domains : list string;
  direct_domains : list string;
  proxy_domains : list string;
  app_rules : json;
  dns_doh : string;
  dns_fakeip : bool;
  dns_block_plain : bool;
  created_at : Z;
  updated_at : Z }.
End RoutingProfile.
