(* ===== verification/Db.v ===== *)
(** * The data-plane tables and their cascades

    The tables the control plane shares, each a finite map from its primary
    key.  Rows keep what the queries of src/master/src/db/repo.rs read and
    write; foreign keys and cascades are those of src/master/migrations. *)

From S2P Require Import Prelude Json Models.

(** A row of node_user_traffic: the accumulated bytes and the last cumulative
    counters seen, with the core's counter epoch. *)
Record Counter := mkCounter {
  up_bytes : Z;
  down_bytes : Z;
  last_up : Z;
  last_down : Z;
  last_epoch : string;
  counter_updated_at : Z }.

(** A row of traffic_usage_hourly. *)
Record Bucket := mkBucket {
  b_up_bytes : Z;
  b_down_bytes : Z;
  sample_count : Z }.

(** (node, user, core) and (bucket, node, user, core). *)
Definition counter_key : Type := Uuid * Uuid * string.
Definition bucket_key : Type := Z * (Uuid * Uuid * string).

Record NodeGroup := mkGroup {
  group_name : string;
  is_default : bool;
  note : string }.

Record Db := mkDb {
  nodes : gmap Uuid Node.Node;
  inbounds : gmap Uuid Inbound.Inbound;
  users : gmap Uuid User.User;
  node_groups : gmap Uuid NodeGroup;
  node_group_members : gset (Uuid * Uuid);
  user_group_access : gset (Uuid * Uuid);
  node_user_traffic : gmap (Uuid * Uuid * string) Counter;
  traffic_usage_hourly : gmap (Z * (Uuid * Uuid * string)) Bucket }.

(** What a query can fail with. *)
Inductive db_error :=
| RowNotFound
| ForeignKeyViolation
| UniqueViolation
| NumericOutOfRange
| CheckViolation
| DecryptFailed
| EncryptFailed.

Definition with_nodes f (db : Db) : Db :=
  mkDb (f (nodes db)) (inbounds db) (users db) (node_groups db)
    (node_group_members db) (user_group_access db) (node_user_traffic db)
    (traffic_usage_hourly db).
Definition with_inbounds f (db : Db) : Db :=
  mkDb (nodes db) (f (inbounds db)) (users db) (node_groups db)
    (node_group_members db) (user_group_access db) (node_user_traffic db)
    (traffic_usage_hourly db).
Definition with_users f (db : Db) : Db :=
  mkDb (nodes db) (inbounds db) (f (users db)) (node_groups db)
    (node_group_members db) (user_group_access db) (node_user_traffic db)
    (traffic_usage_hourly db).
Definition with_members f (db : Db) : Db :=
  mkDb (nodes db) (inbounds db) (users db) (node_groups db)
    (f (node_group_members db)) (user_group_access db) (node_user_traffic db)
    (traffic_usage_hourly db).
Definition with_access f (db : Db) : Db :=
  mkDb (nodes db) (inbounds db) (users db) (node_groups db)
    (node_group_members db) (f (user_group_access db)) (node_user_traffic db)
    (traffic_usage_hourly db).
Definition with_counters f (db : Db) : Db :=
  mkDb (nodes db) (inbounds db) (users db) (node_groups db)
    (node_group_members db) (user_group_access db) (f (node_user_traffic db))
    (traffic_usage_hourly db).
Definition with_hourly f (db : Db) : Db :=
  mkDb (nodes db) (inbounds db) (users db) (node_groups db)
    (node_group_members db) (user_group_access db) (node_user_traffic db)
    (f (traffic_usage_hourly db)).

Definition empty_db : Db := mkDb ∅ ∅ ∅ ∅ ∅ ∅ ∅ ∅.

Definition counter_node (k : Uuid * Uuid * string) : Uuid := k.1.1.
Definition counter_user (k : Uuid * Uuid * string) : Uuid := k.1.2.

(** [SET NULL] on the chain references to inbounds that are gone. *)
Definition unchain (gone : gmap Uuid Inbound.Inbound)
    (i : Inbound.Inbound) : Inbound.Inbound :=
  let keep := opt_filter (fun up => negb (is_some (gone !! up)))
                (Inbound.upstream_inbound_id i) in
  Inbound.mk (Inbound.id i) (Inbound.node_id i) (Inbound.tag i) (Inbound.labels i)
    (Inbound.kind i) (Inbound.core i) (Inbound.listen i) (Inbound.listen_port i)
    (Inbound.flow i) (Inbound.tls_enabled i) (Inbound.server_name i)
    (Inbound.cert_path i) (Inbound.key_path i) (Inbound.reality i)
    (Inbound.reality_private_key i) (Inbound.reality_public_key i)
    (Inbound.reality_short_ids i) (Inbound.reality_handshake_server i)
    (Inbound.reality_handshake_port i) (Inbound.network i) (Inbound.transport_path i)
    (Inbound.transport_host i) (Inbound.transport_service_name i)
    (Inbound.transport_mode i) (Inbound.ech i) (Inbound.utls_fingerprint i)
    (Inbound.shadowtls_handshake_server i) (Inbound.shadowtls_handshake_port i)
    (Inbound.extra i) (Inbound.enabled i) (Inbound.reachable i)
    (Inbound.reach_checked_at i) (Inbound.reach_error i) (Inbound.fallback_host i)
    (Inbound.sni_pool i) (Inbound.cdn_pool i) (Inbound.up_mbps i)
    (Inbound.down_mbps i) (Inbound.udp_idle_timeout i) keep (Inbound.chain_uuid i)
    (Inbound.chain_password i) (Inbound.created_at i) (Inbound.updated_at i).

(** [DELETE FROM inbounds]: chained entries fall back to direct egress. *)
Definition delete_inbound (id : Uuid) (db : Db) : bool * Db :=
  match inbounds db !! id with
  | None => (false, db)
  | Some i =>
      (true, with_inbounds (fun m => unchain {[id := i]} <$> delete id m) db)
  end.

(** [DELETE FROM nodes]: its inbounds, memberships and traffic rows go too. *)
Definition delete_node (id : Uuid) (db : Db) : bool * Db :=
  match nodes db !! id with
  | None => (false, db)
  | Some _ =>
      let gone := filter (fun ki => (Inbound.node_id ki.2 =? id) = true) (inbounds db) in
      (true,
       mkDb (delete id (nodes db))
         (unchain gone <$> filter (fun ki => (Inbound.node_id ki.2 =? id) = false) (inbounds db))
         (users db) (node_groups db)
         (filter (fun e => e.1 <> id) (node_group_members db))
         (user_group_access db)
         (filter (fun kc => (counter_node kc.1 =? id) = false) (node_user_traffic db))
         (filter (fun kb => (counter_node kb.1.2 =? id) = false) (traffic_usage_hourly db)))
  end.

(** [DELETE FROM users]: its memberships and traffic rows go too. *)
Definition delete_user (id : Uuid) (db : Db) : bool * Db :=
  match users db !! id with
  | None => (false, db)
  | Some _ =>
      (true,
       mkDb (nodes db) (inbounds db) (delete id (users db)) (node_groups db)
         (node_group_members db)
         (filter (fun e => e.1 <> id) (user_group_access db))
         (filter (fun kc => (counter_user kc.1 =? id) = false) (node_user_traffic db))
         (filter (fun kb => (counter_user kb.1.2 =? id) = false) (traffic_usage_hourly db)))
  end.

(** [delete_node_group]: the default group stays; both membership tables
    cascade. *)
Definition delete_node_group (id : Uuid) (db : Db) : bool * Db :=
  match node_groups db !! id with
  | None => (false, db)
  | Some g =>
      if is_default g then (false, db) else
      (true,
       mkDb (nodes db) (inbounds db) (users db) (delete id (node_groups db))
         (filter (fun e => e.2 <> id) (node_group_members db))
         (filter (fun e => e.2 <> id) (user_group_access db))
         (node_user_traffic db) (traffic_usage_hourly db))
  end.
