(* ===== verification/Api.v ===== *)
(** * API errors and the validators handlers share
    (src/master/src/api/mod.rs)

    Handlers fail with an [api_error]; [response_of] is what the client of the
    panel sees of it. *)

From S2P Require Import Prelude Strings Json Models Db.

Inductive api_error :=
| BadRequest (message : string)
| Unauthorized (message : string)
| Forbidden (message : string)
| NotFound (message : string)
| Conflict (message : string)
| Gone (message : string)
| TooMany (message : string)
| BadGateway (detail : string)
| Internal (detail : string)
| ApiDb (e : db_error).

Record ApiError := mkApiError {
  ae_status : Z;
  ae_code : string;
  ae_message : string }.

(** [From<anyhow::Error>]: three constraint violations have an answer of their
    own; every other fault of the database is hidden behind a 500. *)
Definition from_db_error (e : db_error) : ApiError :=
  match e with
  | UniqueViolation => mkApiError 409 "M1205" "resource already exists"
  | ForeignKeyViolation =>
      mkApiError 400 "M1201" "referenced resource does not exist or is still in use"
  | CheckViolation => mkApiError 400 "M1201" "value violates a database constraint"
  | _ => mkApiError 500 "M1202" "internal server error"
  end.

Definition response_of (e : api_error) : ApiError :=
  match e with
  | BadRequest m => mkApiError 400 "M1201" m
  | Unauthorized m => mkApiError 401 "M1207" m
  | Forbidden m => mkApiError 403 "M1211" m
  | NotFound m => mkApiError 404 "M1204" m
  | Conflict m => mkApiError 409 "M1205" m
  | Gone m => mkApiError 410 "M1206" m
  | TooMany m => mkApiError 429 "M1208" m
  | BadGateway _ => mkApiError 502 "M1203" "upstream service request failed"
  | Internal _ => mkApiError 500 "M1202" "internal server error"
  | ApiDb d => from_db_error d
  end.

(** [into_response]: the JSON body. *)
Definition into_response (e : ApiError) : Z * json :=
  (ae_status e, obj [("error", JString (ae_message e)); ("code", JString (ae_code e))]).

Definition ok_when (b : bool) (m : string) : result unit api_error :=
  if b then Ok tt else Err (BadRequest m).

Definition lift_db {A} (r : result A db_error) : result A api_error := lift ApiDb r.

(** ** Validators *)

Definition port_ok (p : Z) : bool := (1 <=? p) && (p <=? 65535).

(** A text that, when given, has between one and [max] characters. *)
Definition titled (max : Z) (o : option string) : bool :=
  match o with Some s => (1 <=? char_count (trim s)) && (char_count (trim s) <=? max) | None => true end.

Definition validate_subscription_title (o : option string) : result unit api_error :=
  ok_when (titled 25 o) "subscription_title must contain 1 to 25 characters".
Definition validate_subscription_description (o : option string) : result unit api_error :=
  ok_when (titled 200 o) "subscription_description must contain 1 to 200 characters".
Definition validate_subscription_group (o : option string) : result unit api_error :=
  ok_when (titled 40 o) "subscription_group must contain 1 to 40 characters".
Definition validate_traffic_policy (policy : string) (allow_inherit : bool) : result unit api_error :=
  ok_when (one_of ["auto"; "always"; "never"] policy || (allow_inherit && String.eqb policy "inherit"))
    "subscription_traffic_policy must be inherit, auto, always or never".

Definition validate_user (input : NewUser.NewUser) : result unit api_error :=
  bail (BadRequest "username and password must not be empty")
    when is_empty (trim (NewUser.username input)) || is_empty (NewUser.password input) in
  bail (BadRequest "traffic_limit_bytes must not be negative")
    when NewUser.traffic_limit_bytes input <? 0 in
  let? _ := validate_subscription_title (NewUser.subscription_title input) in
  let? _ := validate_subscription_description (NewUser.subscription_description input) in
  let? _ := validate_subscription_group (NewUser.subscription_group input) in
  validate_traffic_policy (NewUser.subscription_traffic_policy input) true.

(** [if let Patch::Value(v)]. *)
Definition patch_value {A} (p : Patch A) : option A :=
  match p with Value v => Some v | _ => None end.

Definition validate_update_user (input : UpdateUser.UpdateUser) : result unit api_error :=
  bail (BadRequest "username and password must not be empty")
    when is_some_and (UpdateUser.username input) (fun v => is_empty (trim v))
         || is_some_and (UpdateUser.password input) is_empty in
  bail (BadRequest "traffic_limit_bytes must not be negative")
    when is_some_and (UpdateUser.traffic_limit_bytes input) (fun v => v <? 0) in
  let? _ := validate_subscription_title (patch_value (UpdateUser.subscription_title input)) in
  let? _ := validate_subscription_description (patch_value (UpdateUser.subscription_description input)) in
  let? _ := validate_subscription_group (patch_value (UpdateUser.subscription_group input)) in
  match UpdateUser.subscription_traffic_policy input with
  | Some policy => validate_traffic_policy policy true
  | None => Ok tt
  end.

Definition valid_transport (t : string) : bool := one_of ["serve"; "dial"; "both"] t.

Definition validate_name_address_port_transport (name address : string) (port : Z) (transport : string)
    : result unit api_error :=
  bail (BadRequest "node name must not be empty") when is_empty (trim name) in
  bail (BadRequest "node address must not be empty") when is_empty (trim address) in
  bail (BadRequest "grpc_port must be between 1 and 65535") when negb (port_ok port) in
  ok_when (valid_transport transport) "transport must be serve, dial, or both".

Definition validate_node (input : NewNode.NewNode) : result unit api_error :=
  bail (BadRequest "tls_server_name must not be empty")
    when is_empty (trim (NewNode.tls_server_name input)) in
  validate_name_address_port_transport (NewNode.name input) (NewNode.address input)
    (NewNode.grpc_port input) (NewNode.transport input).

Definition validate_update_node (input : UpdateNode.UpdateNode) : result unit api_error :=
  bail (BadRequest "tls_server_name must not be empty")
    when is_some_and (UpdateNode.tls_server_name input) (fun v => is_empty (trim v)) in
  bail (BadRequest "node name must not be empty")
    when is_some_and (UpdateNode.name input) (fun v => is_empty (trim v)) in
  bail (BadRequest "node address must not be empty")
    when is_some_and (UpdateNode.address input) (fun v => is_empty (trim v)) in
  bail (BadRequest "grpc_port must be between 1 and 65535")
    when is_some_and (UpdateNode.grpc_port input) (fun p => negb (port_ok p)) in
  ok_when (negb (is_some_and (UpdateNode.transport input) (fun t => negb (valid_transport t))))
    "transport must be serve, dial, or both".

Definition bounded_auth_text (value : string) (max : nat) (fallback : string) : string :=
  let value := trim value in
  take_chars max (if is_empty value then fallback else value).

Lemma ok_when_ok b m : ok_when b m = Ok tt <-> b = true.
Proof. unfold ok_when. by destruct b. Qed.
