(* ===== verification/Handler.v ===== *)
(** * The monad API handlers run in

    A handler reads and writes tables, may refuse at any step, and sends out
    pushes, versions and audit events.  A step that fails leaves what earlier
    statements committed.  The second half of the file is the program logic the
    handlers are verified with: read-only steps as a class, and triples over the
    store. *)

From S2P Require Import Prelude Json Db Api.

(** What a handler sends out besides its answer. *)
Inductive effect :=
| PushNodes (ids : gset Uuid)
| CaptureVersion (kind : string) (id : Uuid)
| Disconnect (id : Uuid)
| AuditEvent (action kind : string) (id : option Uuid) (detail : json).

(** The tables a handler works on, and what it has sent out so far. *)
Record St (D : Type) := mkSt { store : D; trace : list effect }.
Arguments mkSt {D} store trace.
Arguments store {D} s.
Arguments trace {D} s.

(** ** The monad *)

Definition M (D A : Type) : Type := St D -> result A api_error * St D.
#[global] Instance M_ret D : MRet (M D) := fun _ a s => (Ok a, s).
#[global] Instance M_bind D : MBind (M D) := fun _ _ k m s =>
  match m s with (Ok a, s') => k a s' | (Err e, s') => (Err e, s') end.

Section Steps.
Context {D : Type}.

Definition fail {A} (e : api_error) : M D A := fun s => (Err e, s).
Definition query {A} (f : D -> A) : M D A := fun s => (Ok (f (store s)), s).
Definition lift_result {A} (r : result A api_error) : M D A := fun s => (r, s).
Definition emit (e : effect) : M D unit := fun s => (Ok tt, mkSt (store s) (trace s ++ [e])).
(** A statement: what it answers or fails with, and the store it leaves. *)
Definition statement {A} (f : D -> result A db_error * D) : M D A :=
  fun s => let (r, db) := f (store s) in (lift_db r, mkSt db (trace s)).
Definition read {A} (f : D -> result A db_error) : M D A := fun s => (lift_db (f (store s)), s).
(** [ok_or_else]. *)
Definition found {A} (o : option A) (e : api_error) : M D A :=
  match o with Some a => mret a | None => fail e end.
(** [if ... { return Err(e) }]. *)
Definition refuse (b : bool) (e : api_error) : M D unit := if b then fail e else mret tt.

Definition encrypted (o : option string) : M D string :=
  match o with Some s => mret s | None => fail (ApiDb EncryptFailed) end.

Definition audit (action kind : string) (id : Uuid) (detail : json) : M D unit :=
  emit (AuditEvent action kind (Some id) detail).

Definition push_nodes (ids : list Uuid) : M D unit := emit (PushNodes (list_to_set ids)).
End Steps.

(** ** Reasoning about handlers *)

(** A step that leaves the store alone. *)
Class ReadOnly {D A} (m : M D A) : Prop := read_only : forall s, store (m s).2 = store s.

#[global] Instance ro_ret {D A} (a : A) : @ReadOnly D A (mret a).
Proof. done. Qed.
#[global] Instance ro_fail {D A} e : ReadOnly (@fail D A e).
Proof. done. Qed.
#[global] Instance ro_query {D A} (f : D -> A) : ReadOnly (query f).
Proof. done. Qed.
#[global] Instance ro_read {D A} (f : D -> result A db_error) : ReadOnly (read f).
Proof. done. Qed.
#[global] Instance ro_lift {D A} (r : result A api_error) : @ReadOnly D A (lift_result r).
Proof. done. Qed.
#[global] Instance ro_emit {D} e : @ReadOnly D unit (emit e).
Proof. done. Qed.
#[global] Instance ro_found {D A} (o : option A) e : @ReadOnly D A (found o e).
Proof. by destruct o. Qed.
#[global] Instance ro_refuse {D} b e : @ReadOnly D unit (refuse b e).
Proof. by destruct b. Qed.
#[global] Instance ro_encrypted {D} o : @ReadOnly D string (encrypted o).
Proof. by destruct o. Qed.
#[global] Instance ro_bind {D A B} (m : M D A) (k : A -> M D B) :
  ReadOnly m -> (forall a, ReadOnly (k a)) -> ReadOnly (m ≫= k).
Proof.
  intros Hm Hk s. unfold mbind, M_bind. specialize (Hm s). destruct (m s) as [[a|e] s']; [|done].
  simpl in *. rewrite <- Hm. apply Hk.
Qed.
#[global] Instance ro_if {D A} (b : bool) (m1 m2 : M D A) : ReadOnly m1 -> ReadOnly m2 -> ReadOnly (if b then m1 else m2).
Proof. by destruct b. Qed.
#[global] Instance ro_audit {D} a k id d : @ReadOnly D unit (audit a k id d).
Proof. apply _. Qed.
#[global] Instance ro_push {D} ids : @ReadOnly D unit (push_nodes ids).
Proof. apply _. Qed.

(** From a store satisfying [P], a step that answers leaves [Q], one that
    refuses leaves [E]. *)
Definition hoare {D : Type} {A} (P : D -> Prop) (m : M D A) (Q : A -> D -> Prop) (E : D -> Prop) : Prop :=
  forall s, P (store s) -> match m s with (Ok a, s') => Q a (store s') | (Err _, s') => E (store s') end.

Lemma hoare_bind {D : Type} {A B} P (m : M D A) Q (k : A -> M D B) Q' E :
  hoare P m Q E -> (forall a, hoare (Q a) (k a) Q' E) -> hoare P (m ≫= k) Q' E.
Proof.
  intros Hm Hk s Hs. specialize (Hm s Hs). unfold mbind, M_bind. destruct (m s) as [[a|e] s']; [|done].
  by apply Hk.
Qed.

Lemma hoare_pre {D : Type} {A} (P P' : D -> Prop) (m : M D A) Q E :
  (forall db, P db -> P' db) -> hoare P' m Q E -> hoare P m Q E.
Proof. intros H Hm s Hs. apply Hm, H, Hs. Qed.

Lemma hoare_only {D : Type} {A} (P : D -> Prop) (m : M D A) (E : D -> Prop) :
  ReadOnly m -> (forall db, P db -> E db) -> hoare P m (fun _ => P) E.
Proof. intros Hm HE s Hs. specialize (Hm s). destruct (m s) as [[a|e] s']; simpl in *; rewrite Hm; auto. Qed.

Lemma hoare_read {D : Type} {A B} (P : D -> Prop) (m : M D A) (k : A -> M D B) Q (E : D -> Prop) :
  ReadOnly m -> (forall db, P db -> E db) -> (forall a, hoare P (k a) Q E) -> hoare P (m ≫= k) Q E.
Proof. intros Hm HE Hk. by apply (hoare_bind _ _ (fun _ => P)); [apply hoare_only|]. Qed.

Lemma hoare_end {D : Type} {A} (P : D -> Prop) (m : M D A) (E : D -> Prop) :
  ReadOnly m -> (forall db, P db -> E db) -> hoare P m (fun _ => E) E.
Proof. intros Hm HE s Hs. specialize (Hm s). destruct (m s) as [[a|e] s']; simpl in *; rewrite Hm; auto. Qed.

Lemma hoare_statement {D : Type} {A} (P : D -> Prop) f (Q : A -> D -> Prop) (E : D -> Prop) :
  (forall db, P db -> match f db with (Ok a, db') => Q a db' | (Err _, db') => E db' end) ->
  hoare P (statement f) Q E.
Proof.
  intros H s Hs. specialize (H _ Hs). unfold statement. destruct (f (store s)) as [[a|e] db']; exact H.
Qed.

Lemma hoare_pure {D : Type} {A} (P : D -> Prop) (phi : Prop) (m : M D A) Q E :
  (phi -> hoare P m Q E) -> hoare (fun db => P db /\ phi) m Q E.
Proof. intros H s [Hs Hphi]. by apply H. Qed.

(** The steps past a check know it held. *)
Lemma hoare_refuse {D : Type} {B} (P : D -> Prop) b e (k : unit -> M D B) Q E :
  (forall db, P db -> E db) -> (b = false -> hoare P (k tt) Q E) -> hoare P (refuse b e ≫= k) Q E.
Proof. intros HE Hk. destruct b; [|by apply Hk]. intros s Hs. by apply HE. Qed.

Lemma hoare_lift {D : Type} {A B} (P : D -> Prop) (r : result A api_error) (k : A -> M D B) Q E :
  (forall db, P db -> E db) -> (forall a, r = Ok a -> hoare P (k a) Q E) -> hoare P (lift_result r ≫= k) Q E.
Proof. intros HE Hk. destruct r; [by apply Hk|]. intros s Hs. by apply HE. Qed.

Lemma hoare_found {D : Type} {A B} P (x : A) e (k : A -> M D B) Q E : hoare P (k x) Q E -> hoare P (found (Some x) e ≫= k) Q E.
Proof. done. Qed.

(** A handler that answers ran each of its steps to an answer. *)
Lemma bind_ok {D : Type} {A B} (m : M D A) (k : A -> M D B) s b s' :
  (m ≫= k) s = (Ok b, s') -> exists a s1, m s = (Ok a, s1) /\ k a s1 = (Ok b, s').
Proof. unfold mbind, M_bind. destruct (m s) as [[a|e] s1]; [eauto|done]. Qed.
Lemma found_ok {D : Type} {A} (o : option A) e (s : St D) a s' : found o e s = (Ok a, s') -> o = Some a /\ s' = s.
Proof. destruct o; [|done]. by intros [= -> ->]. Qed.
Lemma refuse_ok {D : Type} b e (s : St D) u s' : refuse b e s = (Ok u, s') -> b = false /\ s' = s.
Proof. destruct b; [done|]. by intros [= _ ->]. Qed.
Lemma encrypted_ok {D : Type} o (s : St D) a s' : encrypted o s = (Ok a, s') -> o = Some a /\ s' = s.
Proof. destruct o; [|done]. by intros [= -> ->]. Qed.
Lemma lift_db_ok {A} (r : result A db_error) a : lift_db r = Ok a <-> r = Ok a.
Proof. destruct r; split; intros [=]; by subst. Qed.
Lemma read_ok {D : Type} {A} f (s : St D) (a : A) s' : read f s = (Ok a, s') -> f (store s) = Ok a /\ s' = s.
Proof. unfold read. intros [= H ->]. by apply lift_db_ok in H. Qed.
Lemma query_ok {D : Type} {A} f (s : St D) (a : A) s' : query f s = (Ok a, s') -> a = f (store s) /\ s' = s.
Proof. by intros [= -> ->]. Qed.
Lemma statement_ok {D : Type} {A} f (s : St D) (a : A) s' :
  statement f s = (Ok a, s') -> f (store s) = (Ok a, store s') /\ trace s' = trace s.
Proof. unfold statement. destruct (f (store s)) as [[x|] db]; intros [= <- <-]; done. Qed.
Lemma only_ok {D : Type} {A} (m : M D A) s r s' : ReadOnly m -> m s = (r, s') -> store s' = store s.
Proof. intros Hm H. specialize (Hm s). by rewrite H in Hm. Qed.

(** Runs through the read-only steps at the head of a handler. *)
Ltac reads tac := repeat (apply hoare_read; [apply _|tac|intros ?]).


(** A step whose store only moves along [R], answered or refused. *)
Definition Keeps {D A} (R : relation D) (m : M D A) : Prop := forall s, R (store s) (store (m s).2).

Lemma keeps_only {D A} (R : relation D) (m : M D A) : Reflexive R -> ReadOnly m -> Keeps R m.
Proof. intros HR Hm s. by rewrite Hm. Qed.

Lemma keeps_bind {D A B} (R : relation D) (m : M D A) (k : A -> M D B) :
  Transitive R -> Keeps R m -> (forall a, Keeps R (k a)) -> Keeps R (m ≫= k).
Proof.
  intros HR Hm Hk s. unfold mbind, M_bind. specialize (Hm s). destruct (m s) as [[a|e] s']; [|done].
  etrans; [exact Hm|apply Hk].
Qed.

Lemma keeps_statement {D A} (R : relation D) (f : D -> result A db_error * D) :
  (forall db, R db (f db).2) -> Keeps R (statement f).
Proof. intros H s. unfold statement. specialize (H (store s)). by destruct (f (store s)). Qed.

Lemma keeps_hoare {D : Type} {A} (R : relation D) (P : D -> Prop) (m : M D A) :
  Keeps R m -> (forall db db', R db db' -> P db -> P db') -> hoare P m (fun _ => P) P.
Proof. intros Hm HP s Hs. specialize (Hm s). destruct (m s) as [[a|e] s']; by apply (HP (store s)). Qed.

(** Splits a handler into its steps; [R] is a preorder. *)
Ltac keeps :=
  repeat first
    [ apply keeps_only; [apply _|apply _]
    | apply keeps_bind; [apply _| |intros ?]
    | match goal with |- Keeps _ (match ?x with _ => _ end) => destruct x end ].
