(* ===== verification/Traffic.v ===== *)
(** * Traffic accounting and quota windows (record_traffic and the quota
    queries of src/master/src/db/repo.rs, src/master/src/stats.rs and
    src/master/src/quota.rs) *)

From S2P Require Import Prelude Json Models Db.

(** ** Counters *)

Definition in_i64 (z : Z) : bool := (i64_min <=? z) && (z <=? i64_max).

Definition checked_sub_i64 (a b : Z) : option Z :=
  if in_i64 (a - b) then Some (a - b) else None.

(** PostgreSQL arithmetic on bigint raises an error out of range. *)
Definition bigint (z : Z) : result Z db_error :=
  if in_i64 z then Ok z else Err NumericOutOfRange.

Definition traffic_delta (previous : option (Z * Z * string)) (epoch : string)
    (cur_up cur_down : Z) : Z * Z :=
  match previous with
  | None => (0, 0)
  | Some (last_up, last_down, last_epoch) =>
      if negb (String.eqb last_epoch epoch) then (0, 0) else
      (default 0 (opt_filter (fun delta => 0 <=? delta) (checked_sub_i64 cur_up last_up)),
       default 0 (opt_filter (fun delta => 0 <=? delta) (checked_sub_i64 cur_down last_down)))
  end.

(** The CASE expression of the upsert, one direction at a time. *)
Definition sql_increment (last_epoch epoch : string) (cur last : Z)
    : result Z db_error :=
  if String.eqb last_epoch epoch && (last <=? cur) then bigint (cur - last) else Ok 0.

(** The upsert into node_user_traffic. *)
Definition upsert_counter (now : Z) (epoch : string) (cur_up cur_down : Z)
    (row : option Counter) : result Counter db_error :=
  match row with
  | None => Ok (mkCounter 0 0 cur_up cur_down epoch now)
  | Some c =>
      let? du := sql_increment (last_epoch c) epoch cur_up (last_up c) in
      let? dd := sql_increment (last_epoch c) epoch cur_down (last_down c) in
      let? up := bigint (up_bytes c + du) in
      let? down := bigint (down_bytes c + dd) in
      Ok (mkCounter up down cur_up cur_down epoch now)
  end.

(** [date_trunc('hour', now())] on microsecond timestamps. *)
Definition hour : Z := 3600 * 1000000.
Definition hour_bucket (now : Z) : Z := now - now mod hour.

(** The upsert into traffic_usage_hourly. *)
Definition upsert_bucket (delta_up delta_down : Z) (row : option Bucket)
    : result Bucket db_error :=
  match row with
  | None => Ok (mkBucket delta_up delta_down 1)
  | Some b =>
      let? up := bigint (b_up_bytes b + delta_up) in
      let? down := bigint (b_down_bytes b + delta_down) in
      let? n := bigint (sample_count b + 1) in
      Ok (mkBucket up down n)
  end.

Definition of_user (user_id : Uuid) (k : Uuid * Uuid * string) (c : Counter) : Z :=
  if counter_user k =? user_id then up_bytes c + down_bytes c else 0.

(** [COALESCE(SUM(up_bytes + down_bytes), 0)] over the rows of one user. *)
Definition counted_bytes (user_id : Uuid) (m : gmap (Uuid * Uuid * string) Counter) : Z :=
  msum (of_user user_id) m.

(** Every row sum of the user is a bigint, or the SELECT fails. *)
Definition rows_in_range (user_id : Uuid) (m : gmap (Uuid * Uuid * string) Counter) : bool :=
  forallb (fun kc => in_i64 (of_user user_id kc.1 kc.2)) (map_to_list m).

(** The transaction of [record_traffic]: any error rolls everything back. *)
Definition record_traffic (now : Z) (node_id user_id : Uuid) (core epoch : string)
    (cur_up cur_down : Z) (db : Db) : result (bool * Db) db_error :=
  match users db !! user_id with
  | None => Err RowNotFound
  | Some u =>
      let limit := User.traffic_limit_bytes u in
      let before := User.used_traffic_bytes u in
      let key := (node_id, user_id, core) in
      let row := node_user_traffic db !! key in
      let previous := (fun c => (last_up c, last_down c, last_epoch c)) <$> row in
      let '(delta_up, delta_down) := traffic_delta previous epoch cur_up cur_down in
      bail ForeignKeyViolation when negb (is_some (nodes db !! node_id)) in
      let? c := upsert_counter now epoch cur_up cur_down row in
      let db := with_counters (fun m => <[key := c]> m) db in
      let? db :=
        if (0 <? delta_up) || (0 <? delta_down) then
          bail CheckViolation
            when negb (String.eqb core "singbox" || String.eqb core "xray") in
          let bkey := (hour_bucket now, key) in
          let? b := upsert_bucket delta_up delta_down (traffic_usage_hourly db !! bkey) in
          Ok (with_hourly (fun m => <[bkey := b]> m) db)
        else Ok db in
      bail NumericOutOfRange when negb (rows_in_range user_id (node_user_traffic db)) in
      let? after := bigint (counted_bytes user_id (node_user_traffic db)) in
      Ok ((0 <? limit) && (before <? limit) && (limit <=? after),
          with_users (fun m => <[user_id := User.with_used after now u]> m) db)
  end.

Definition reset_user_traffic (now : Z) (id : Uuid) (db : Db) : option User.User * Db :=
  let db := with_counters (fun m => filter (fun kc => (counter_user kc.1 =? id) = false) m) db in
  match users db !! id with
  | None => (None, db)
  | Some u =>
      let u := User.with_used 0 now u in
      (Some u, with_users (fun m => <[id := u]> m) db)
  end.

Definition delete_traffic_history_before (cutoff : Z) (db : Db) : Db :=
  with_hourly (fun m => filter (fun kb => (kb.1.1 <? cutoff) = false) m) db.

(** ** Cores and retention (stats.rs) *)

Inductive CoreKind := Unspecified | Singbox | Xray.

Definition core_str (core : CoreKind) : string :=
  match core with Xray => "xray" | _ => "singbox" end.

Definition bounded_history_days (value : Z) : Z := clamp 7 3650 value.

(** ** Quota windows (quota.rs) *)

Definition days (n : Z) : Z := n * 86400 * 1000000.

Definition next_boundary (now : Z) (interval : string) : Z :=
  now + days (if String.eqb interval "weekly" then 7 else 1).

Definition set_user_quota_interval (now : Z) (id : Uuid) (interval : string)
    (reset_at : option Z) (db : Db) : bool * Db :=
  match users db !! id with
  | None => (false, db)
  | Some u => (true, with_users (fun m => <[id := User.with_quota interval reset_at now u]> m) db)
  end.

Definition quota_due (now : Z) (u : User.User) : bool :=
  negb (String.eqb (User.quota_interval u) "none")
  && is_some_and (User.quota_reset_at u) (fun at_ => at_ <=? now).

Definition due_quota_resets (now : Z) (db : Db) : list (Uuid * string) :=
  (fun ku => (ku.1, User.quota_interval ku.2))
    <$> List.filter (fun ku => quota_due now ku.2) (map_to_list (users db)).

Definition advance_quota_reset (now : Z) (id : Uuid) (next : Z) (db : Db) : Db :=
  match users db !! id with
  | None => db
  | Some u => with_users (fun m => <[id := User.with_quota (User.quota_interval u) (Some next) now u]> m) db
  end.

(** One user of a quota tick: the reset, then the next boundary.  The reset is
    committed before its row is decrypted; a row that does not decrypt
    ([readable] is false) keeps its boundary. *)
Definition quota_reset_one (readable : User.User -> bool) (now : Z) (db : Db) (due : Uuid * string) : Db :=
  let '(user, db) := reset_user_traffic now due.1 db in
  if is_some_and user (fun u => negb (readable u)) then db
  else advance_quota_reset now due.1 (next_boundary now due.2) db.

(** One tick of the quota loop on the leader. *)
Definition quota_tick (readable : User.User -> bool) (now : Z) (is_leader : bool) (db : Db) : Db :=
  if negb is_leader then db else
  fold_left (quota_reset_one readable now) (due_quota_resets now db) db.

(** ** Properties *)

(** What a committed [record_traffic] did. *)
Definition prev_of (row : option Counter) : option (Z * Z * string) :=
  (fun c => (last_up c, last_down c, last_epoch c)) <$> row.

Lemma record_traffic_inv now n uid core epoch up down db crossed db' :
  record_traffic now n uid core epoch up down db = Ok (crossed, db') ->
  exists u c,
    users db !! uid = Some u /\
    upsert_counter now epoch up down (node_user_traffic db !! (n, uid, core)) = Ok c /\
    node_user_traffic db' = <[(n, uid, core) := c]> (node_user_traffic db) /\
    users db' = <[uid := User.with_used (counted_bytes uid (node_user_traffic db')) now u]>
                  (users db) /\
    crossed = (0 <? User.traffic_limit_bytes u)
              && (User.used_traffic_bytes u <? User.traffic_limit_bytes u)
              && (User.traffic_limit_bytes u <=? counted_bytes uid (node_user_traffic db')) /\
    (let '(du, dd) := traffic_delta (prev_of (node_user_traffic db !! (n, uid, core)))
                        epoch up down in
     if (0 <? du) || (0 <? dd)
     then exists b,
       upsert_bucket du dd (traffic_usage_hourly db !! (hour_bucket now, (n, uid, core))) = Ok b
       /\ traffic_usage_hourly db' = <[(hour_bucket now, (n, uid, core)) := b]>
                                       (traffic_usage_hourly db)
     else traffic_usage_hourly db' = traffic_usage_hourly db) /\
    nodes db' = nodes db.
Proof.
  unfold record_traffic. fold (prev_of (node_user_traffic db !! (n, uid, core))).
  destruct (users db !! uid) as [u|]; [|done].
  destruct (traffic_delta _ _ _ _) as [du dd].
  destruct (negb _); [done|].
  destruct (upsert_counter _ _ _ _ _) as [c|]; [|done].
  destruct ((0 <? du) || (0 <? dd)).
  - destruct (negb (_ || _)); [done|]. simpl.
    destruct (upsert_bucket _ _ _) as [b|] eqn:Eb; [|done]. simpl.
    destruct (negb _); [done|]. unfold bigint.
    destruct (in_i64 (counted_bytes _ _)); [|done]. intros; simplify_eq. simpl.
    exists u, c. repeat split; try done. eauto.
  - simpl. destruct (negb _); [done|]. unfold bigint.
    destruct (in_i64 (counted_bytes _ _)); [|done]. intros; simplify_eq. simpl.
    exists u, c. repeat split; done.
Qed.

(** The Rust delta and the SQL increments agree whenever the upsert commits. *)
Lemma upsert_delta now epoch up down row c :
  upsert_counter now epoch up down row = Ok c ->
  let '(du, dd) := traffic_delta (prev_of row) epoch up down in
  up_bytes c = match row with Some r => up_bytes r | None => 0 end + du /\
  down_bytes c = match row with Some r => down_bytes r | None => 0 end + dd /\
  0 <= du /\ 0 <= dd /\
  last_up c = up /\ last_down c = down /\ last_epoch c = epoch.
Proof.
  destruct row as [r|]; simpl; [|intros; simplify_eq; simpl; repeat split; done].
  unfold sql_increment, checked_sub_i64, bigint.
  destruct (String.eqb (last_epoch r) epoch); simpl.
  - destruct (Z.leb_spec (last_up r) up) as [Hu|Hu];
    [destruct (in_i64 (up - last_up r)); [|done]|];
    (destruct (Z.leb_spec (last_down r) down) as [Hd|Hd];
     [destruct (in_i64 (down - last_down r)); [|done]|]);
    destruct (in_i64 (up_bytes r + _)); try done;
    destruct (in_i64 (down_bytes r + _)); try done;
    intros; simplify_eq; simpl;
    rewrite ?Z.add_0_r;
    repeat match goal with
    | |- context [in_i64 ?x] => destruct (in_i64 x); simpl
    | |- context [0 <=? ?x] => destruct (Z.leb_spec 0 x); simpl
    end; repeat split; lia.
  - destruct (in_i64 (up_bytes r + _)); [|done].
    destruct (in_i64 (down_bytes r + _)); [|done].
    intros; simplify_eq. simpl. repeat split; lia.
Qed.

Lemma of_user_other uid k c : counter_user k <> uid -> of_user uid k c = 0.
Proof.
  intros H. unfold of_user. destruct (Z.eqb_spec (counter_user k) uid); [done|done].
Qed.

Lemma counted_insert_other (uid : Uuid) (k : Uuid * Uuid * string) (c : Counter)
    (m : gmap (Uuid * Uuid * string) Counter) :
  counter_user k <> uid -> counted_bytes uid (<[k := c]> m) = counted_bytes uid m.
Proof.
  intros H. unfold counted_bytes. rewrite msum_insert, of_user_other by done.
  destruct (m !! k); rewrite ?of_user_other by done; lia.
Qed.

(** The traffic operations of the control plane. *)
Inductive traffic_op :=
| Record_ (now : Z) (node user : Uuid) (core epoch : string) (up down : Z)
| ResetUser (now : Z) (user : Uuid)
| SetInterval (now : Z) (user : Uuid) (interval : string) (reset_at : option Z)
| QuotaTick (readable : User.User -> bool) (now : Z) (leader : bool)
| ExpireHistory (cutoff : Z)
| DeleteUser (user : Uuid).

Definition apply_op (db : Db) (o : traffic_op) : Db :=
  match o with
  | Record_ now n u core epoch up down =>
      match record_traffic now n u core epoch up down db with
      | Ok (_, db') => db'
      | Err _ => db
      end
  | ResetUser now u => (reset_user_traffic now u db).2
  | SetInterval now u interval reset_at => (set_user_quota_interval now u interval reset_at db).2
  | QuotaTick readable now leader => quota_tick readable now leader db
  | ExpireHistory cutoff => delete_traffic_history_before cutoff db
  | DeleteUser u => (delete_user u db).2
  end.

(** Every user's usage is the sum of its per-node counters. *)
Definition accounted (db : Db) : Prop :=
  forall id u, users db !! id = Some u ->
    User.used_traffic_bytes u = counted_bytes id (node_user_traffic db).

Lemma accounted_record now n uid core epoch up down db crossed db' :
  accounted db -> record_traffic now n uid core epoch up down db = Ok (crossed, db') ->
  accounted db'.
Proof.
  intros Ha Hr. apply record_traffic_inv in Hr as (u & c & Hu & _ & Hc & Hus & _).
  intros id v Hv. rewrite Hus in Hv. rewrite lookup_insert in Hv. case_decide.
  - simplify_eq. done.
  - rewrite (Ha id v Hv), Hc. symmetry. by apply counted_insert_other.
Qed.

Lemma counted_drop_user (id id' : Uuid) (m : gmap (Uuid * Uuid * string) Counter) :
  counted_bytes id' (filter (fun kc => (counter_user kc.1 =? id) = false) m)
  = if id' =? id then 0 else counted_bytes id' m.
Proof.
  unfold counted_bytes.
  assert (Hf : forall m', filter (fun kc : Uuid * Uuid * string * Counter =>
                 (counter_user kc.1 =? id) = false) m'
               = filter (fun kc => negb (counter_user kc.1 =? id) = true) m' :> gmap _ Counter).
  { intros m'. apply map_filter_ext. intros k c _. simpl. by rewrite negb_true_iff. }
  destruct (Z.eqb_spec id' id) as [->|Hne].
  - apply msum_zero. intros k c. rewrite map_lookup_filter_Some. simpl.
    intros [_ H]. breflect. by apply of_user_other.
  - rewrite Hf. apply (msum_filter _ _ (fun kc => negb (counter_user kc.1 =? id))).
    intros k c _ H. simpl in H. breflect. apply of_user_other. congruence.
Qed.

Lemma accounted_reset now id db : accounted db -> accounted (reset_user_traffic now id db).2.
Proof.
  intros Ha. unfold reset_user_traffic. simpl.
  destruct (users db !! id) as [u|] eqn:Hu; intros id' v; simpl.
  - rewrite lookup_insert. case_decide; intros; simplify_eq.
    + rewrite counted_drop_user, Z.eqb_refl. done.
    + rewrite counted_drop_user. destruct (Z.eqb_spec id' id); [congruence|]. by apply Ha.
  - intros Hv. rewrite counted_drop_user.
    destruct (Z.eqb_spec id' id) as [->|]; [congruence|]. by apply Ha.
Qed.

Lemma accounted_same db db' :
  accounted db -> node_user_traffic db' = node_user_traffic db ->
  (forall id u, users db' !! id = Some u ->
     exists u0, users db !! id = Some u0 /\
       User.used_traffic_bytes u0 = User.used_traffic_bytes u) ->
  accounted db'.
Proof.
  intros Ha Hc Hu id u Hl. destruct (Hu id u Hl) as (u0 & H0 & <-).
  rewrite Hc. by apply Ha.
Qed.

Lemma accounted_advance now id next db :
  accounted db -> accounted (advance_quota_reset now id next db).
Proof.
  intros Ha. unfold advance_quota_reset. destruct (users db !! id) as [u|] eqn:E; [|done].
  eapply accounted_same; [done..|]. intros id' v. simpl. rewrite lookup_insert.
  case_decide; intros; simplify_eq; eauto.
Qed.

Lemma accounted_reset_one readable now due db : accounted db -> accounted (quota_reset_one readable now db due).
Proof.
  intros Ha. unfold quota_reset_one. assert (H := accounted_reset now due.1 db Ha).
  destruct (reset_user_traffic now due.1 db) as [o db1]. destruct (is_some_and o _); [exact H|by apply accounted_advance].
Qed.

Lemma accounted_step db o : accounted db -> accounted (apply_op db o).
Proof.
  intros Ha. destruct o as [now n u core epoch up down|now u|now u i r|readable now leader|cutoff|u]; simpl.
  - destruct (record_traffic _ _ _ _ _ _ _ _) as [[c db']|] eqn:E; [|done].
    by eapply accounted_record.
  - by apply accounted_reset.
  - unfold set_user_quota_interval. destruct (users db !! u) as [v|] eqn:E; [|done].
    eapply accounted_same; [done..|]. intros id w. simpl. rewrite lookup_insert.
    case_decide; intros; simplify_eq; eauto.
  - unfold quota_tick. destruct (negb leader); [done|].
    generalize (due_quota_resets now db) as due. intros due. revert db Ha.
    induction due as [|d due IH]; intros db Ha; simpl; [done|].
    apply IH, accounted_reset_one, Ha.
  - eapply accounted_same; [done..|]. eauto.
  - unfold delete_user. destruct (users db !! u) as [v|] eqn:E; [|done].
    intros id w. simpl. rewrite lookup_delete. case_decide; [done|]. intros Hw.
    rewrite counted_drop_user. destruct (Z.eqb_spec id u); [congruence|]. by apply Ha.
Qed.

(** C6: after any history of traffic reports, resets, quota ticks and user
    deletions over users that start unused, every user's recorded usage equals
    the sum of its per-node counters. *)
Theorem usage_accounted (db : Db) (ops : list traffic_op) :
  node_user_traffic db = ∅ ->
  (forall id u, users db !! id = Some u -> User.used_traffic_bytes u = 0) ->
  accounted (fold_left apply_op ops db).
Proof.
  intros Hc Hu. assert (Ha : accounted db).
  { intros id u Hl. rewrite Hc, (Hu id u Hl). unfold counted_bytes. by rewrite msum_empty. }
  clear Hc Hu. revert db Ha. induction ops as [|o ops IH]; intros db Ha; simpl; [done|].
  apply IH. by apply accounted_step.
Qed.

(** Rows for worked examples. *)
Definition sample_user (id : Uuid) (name : string) (limit used : Z) : User.User :=
  User.mk id name None None None "inherit" [] "uuid" "password" true limit used
    None 0 None "none" None None None 0 0.
Definition sample_node (id : Uuid) (name : string) : Node.Node :=
  Node.mk id name "10.0.0.1" "honey-agent" 8443 "serve" [] [] true false None None
    None None None None None None None None 0 0 0.
Definition sample_db (limit : Z) : Db :=
  mkDb (<[1 := sample_node 1 "a"]> (<[2 := sample_node 2 "b"]> ∅)) ∅
    (<[7 := sample_user 7 "alice" limit 0]> ∅) ∅ ∅ ∅ ∅ ∅.

Lemma usage_accounted_witness :
  accounted (fold_left apply_op
    [Record_ 0 1 7 "xray" "e1" 100 10; Record_ 5 1 7 "xray" "e1" 300 40;
     Record_ 6 2 7 "singbox" "e9" 5 5; ResetUser 7 7] (sample_db 1000)).
Proof.
  apply usage_accounted; [reflexivity|].
  intros id u. unfold sample_db. simpl. rewrite lookup_insert.
  case_decide; intros; simplify_eq. reflexivity.
Defined.

(** A crossing is reported exactly for the report that takes
    a user with a limit from below it to at or over it; such a user, enabled
    and unexpired, was active before the report and is suppressed with reason
    quota after it. *)
Theorem quota_crossing (now : Z) (n uid : Uuid) (core epoch : string) (up down : Z)
    (db db' : Db) (crossed : bool) (u u' : User.User) :
  record_traffic now n uid core epoch up down db = Ok (crossed, db') ->
  users db !! uid = Some u -> users db' !! uid = Some u' ->
  (crossed = true <->
     0 < User.traffic_limit_bytes u /\
     User.used_traffic_bytes u < User.traffic_limit_bytes u <= User.used_traffic_bytes u')
  /\ (crossed = true -> User.enabled u = true ->
      is_some_and (User.expires_at u) (fun e => e <=? now) = false ->
      User.is_active now u = true /\ User.suppressed_reason now u' = Some "quota").
Proof.
  intros Hr Hu Hu'. apply record_traffic_inv in Hr as (v & c & Hv & _ & Hc & Hus & Hx & _).
  rewrite Hu in Hv. injection Hv as <-.
  rewrite Hus, lookup_insert_eq in Hu'. injection Hu' as <-. simpl.
  set (after := counted_bytes uid (node_user_traffic db')) in *.
  subst crossed. split; [breflect; lia|].
  intros Hx He Hexp. breflect. unfold User.is_active, User.suppressed_reason. simpl.
  rewrite He, Hexp. simpl.
  replace (0 <? User.traffic_limit_bytes u) with true by (symmetry; breflect; lia).
  replace (User.traffic_limit_bytes u <=? User.used_traffic_bytes u) with false
    by (symmetry; breflect; lia).
  replace (User.traffic_limit_bytes u <=? after) with true by (symmetry; breflect; lia).
  done.
Qed.

(** The state the example of [quota_crossing] reports into. *)
Definition before_crossing : Db :=
  apply_op (sample_db 1000) (Record_ 0 1 7 "xray" "e1" 100 10).
Definition after_crossing : Db :=
  apply_op before_crossing (Record_ 5 1 7 "xray" "e1" 1000 110).

Lemma quota_crossing_witness :
  User.suppressed_reason 5 (User.with_used 1000 5 (User.with_used 0 0 (sample_user 7 "alice" 1000 0)))
  = Some "quota".
Proof.
  refine (proj2 (proj2 (quota_crossing 5 1 7 "xray" "e1" 1000 110 before_crossing after_crossing
    true (User.with_used 0 0 (sample_user 7 "alice" 1000 0)) _ _ _ _) _ _ _));
    vm_compute; reflexivity.
Defined.

(** The hourly history of one (node, user, core), one direction. *)
Definition history (dir : Bucket -> Z) (key : Uuid * Uuid * string) (db : Db) : Z :=
  msum (fun bk b => if decide (bk.2 = key) then dir b else 0) (traffic_usage_hourly db).
Definition counter_total (dir : Counter -> Z) (key : Uuid * Uuid * string) (db : Db) : Z :=
  match node_user_traffic db !! key with Some c => dir c | None => 0 end.

Definition balanced (db : Db) : Prop :=
  forall key, history b_up_bytes key db = counter_total up_bytes key db
           /\ history b_down_bytes key db = counter_total down_bytes key db.

Lemma upsert_bucket_adds du dd row b :
  upsert_bucket du dd row = Ok b ->
  b_up_bytes b = match row with Some r => b_up_bytes r | None => 0 end + du /\
  b_down_bytes b = match row with Some r => b_down_bytes r | None => 0 end + dd.
Proof.
  unfold upsert_bucket, bigint. destruct row as [r|]; [|intros; simplify_eq; done].
  repeat destruct (in_i64 _); intros; simplify_eq; done.
Qed.

Lemma balanced_record now n uid core epoch up down db crossed db' :
  balanced db -> record_traffic now n uid core epoch up down db = Ok (crossed, db') ->
  balanced db'.
Proof.
  intros Hb Hr. apply record_traffic_inv in Hr as (u & c & _ & Hc & Hcs & _ & _ & Hh & _).
  apply upsert_delta in Hc.
  destruct (traffic_delta _ epoch up down) as [du dd].
  destruct Hc as (Hcu & Hcd & Hdu & Hdd & _).
  intros key. destruct (Hb key) as [Hku Hkd].
  unfold history, counter_total in *. rewrite Hcs, lookup_insert.
  destruct ((0 <? du) || (0 <? dd)) eqn:E.
  - destruct Hh as (b & Hub & ->). apply upsert_bucket_adds in Hub as [Hbu Hbd].
    rewrite !msum_insert. simpl. repeat case_decide; try congruence; subst.
    + destruct (traffic_usage_hourly db !! _); destruct (node_user_traffic db !! _); lia.
    + destruct (traffic_usage_hourly db !! _); lia.
  - rewrite Hh. breflect. case_decide; [|done]. subst.
    destruct (node_user_traffic db !! _); lia.
Qed.

Definition is_record (o : traffic_op) : bool :=
  match o with Record_ _ _ _ _ _ _ _ => true | _ => false end.

(** The hourly history and the quota counters agree: after any sequence of
    reports the hourly buckets of each node, user and core add up to exactly
    the bytes its counter has accumulated, in both directions. *)
Theorem history_matches_counters (db : Db) (ops : list traffic_op) :
  node_user_traffic db = ∅ -> traffic_usage_hourly db = ∅ ->
  Forall (fun o => is_record o = true) ops ->
  balanced (fold_left apply_op ops db).
Proof.
  intros Hc Hh Hops. assert (Hb : balanced db).
  { intros key. unfold history, counter_total. rewrite Hc, Hh, !msum_empty. done. }
  clear Hc Hh. revert db Hb. induction Hops as [|o ops Ho Hops IH]; intros db Hb; simpl; [done|].
  apply IH. destruct o; try done. simpl.
  destruct (record_traffic _ _ _ _ _ _ _ _) as [[x db']|] eqn:E; [|done].
  by eapply balanced_record.
Qed.

Lemma history_matches_counters_witness :
  balanced (fold_left apply_op
    [Record_ 0 1 7 "xray" "e1" 100 10; Record_ 5 1 7 "xray" "e1" 300 40;
     Record_ (3 * hour) 1 7 "xray" "e1" 900 41; Record_ (4 * hour) 1 7 "xray" "e2" 5 5]
    (sample_db 1000)).
Proof.
  apply history_matches_counters; [reflexivity..|]. repeat constructor.
Defined.

(** A stream of cumulative readings of one core process, as the collector
    stores them one after the other. *)
Fixpoint absorb (readings : list (Z * string * Z * Z)) (row : option Counter)
    : result (option Counter) db_error :=
  match readings with
  | [] => Ok row
  | (now, epoch, up, down) :: rest =>
      let? c := upsert_counter now epoch up down row in absorb rest (Some c)
  end.

Fixpoint rising (lo_up lo_down : Z) (epoch : string)
    (readings : list (Z * string * Z * Z)) : Prop :=
  match readings with
  | [] => True
  | (_, e, up, down) :: rest =>
      e = epoch /\ lo_up <= up <= i64_max /\ lo_down <= down <= i64_max
      /\ rising up down epoch rest
  end.

Lemma absorb_rising readings : forall c,
  0 <= last_up c -> 0 <= last_down c ->
  0 <= up_bytes c <= last_up c -> 0 <= down_bytes c <= last_down c ->
  rising (last_up c) (last_down c) (last_epoch c) readings ->
  exists c', absorb readings (Some c) = Ok (Some c') /\
    up_bytes c' - last_up c' = up_bytes c - last_up c /\
    down_bytes c' - last_down c' = down_bytes c - last_down c /\
    (match last readings with
     | Some (_, _, up, down) => last_up c' = up /\ last_down c' = down
     | None => c' = c end).
Proof.
  induction readings as [|[[[now e] up] down] rest IH]; intros c Hu Hd Hbu Hbd Hr.
  { exists c. done. }
  destruct Hr as (-> & Hup & Hdown & Hrest). simpl.
  unfold sql_increment, bigint. rewrite String.eqb_refl. simpl.
  replace (last_up c <=? up) with true by (symmetry; breflect; lia).
  replace (last_down c <=? down) with true by (symmetry; breflect; lia).
  assert (Hin : forall z, 0 <= z <= i64_max -> in_i64 z = true)
    by (intros; unfold in_i64, i64_min; breflect; lia).
  rewrite !Hin by lia.
  set (c1 := mkCounter _ _ up down (last_epoch c) now).
  destruct (IH c1) as (c' & H1 & H2 & H3 & H4); subst c1; simpl; try lia; [done|].
  exists c'. simpl in *. repeat split; try done; try lia.
  destruct rest as [|r rest]; [simpl in *; by subst c'|]. rewrite last_cons_cons.
  destruct (last (r :: rest)) as [[[[? ?] ?] ?]|] eqn:E; [done|]. by apply last_None in E.
Qed.

(** Readings are charged exactly once.  A rising stream of cumulative
    readings from one counter epoch, first reading included as the baseline,
    is charged as the last reading minus the first, however it is split. *)
Theorem readings_telescope (now0 : Z) (epoch : string) (up0 down0 : Z)
    (readings : list (Z * string * Z * Z)) (now1 : Z) (up1 down1 : Z) :
  0 <= up0 -> 0 <= down0 ->
  rising up0 down0 epoch (readings ++ [(now1, epoch, up1, down1)]) ->
  exists c,
    absorb ((now0, epoch, up0, down0) :: readings ++ [(now1, epoch, up1, down1)]) None
      = Ok (Some c)
    /\ up_bytes c = up1 - up0 /\ down_bytes c = down1 - down0.
Proof.
  intros Hu Hd Hr.
  destruct (absorb_rising _ (mkCounter 0 0 up0 down0 epoch now0) Hu Hd
              ltac:(simpl; lia) ltac:(simpl; lia) Hr) as (c & Ha & H1 & H2 & H3).
  exists c. simpl in *. rewrite Ha. rewrite last_snoc in H3. destruct H3 as [H3 H4].
  split; [done|]. lia.
Qed.

Lemma readings_telescope_witness :
  exists c,
    absorb ((0, "e", 10, 20) :: [(1, "e", 15, 20); (2, "e", 90, 25)] ++ [(3, "e", 100, 70)]) None
      = Ok (Some c) /\ up_bytes c = 100 - 10 /\ down_bytes c = 70 - 20.
Proof.
  apply readings_telescope; [vm_compute; discriminate..|].
  repeat split; vm_compute; discriminate.
Defined.

(** Usage is not monotone across node removal.  Deleting a node removes
    the counters it fed; the next report on another node recomputes the usage
    without them, and a user suspended for quota is served again. *)
Theorem node_removal_refunds_usage :
  exists db db1 db2 : Db, exists u u2 : User.User,
    accounted db /\ users db !! 7 = Some u /\
    User.suppressed_reason 9 u = Some "quota" /\
    delete_node 1 db = (true, db1) /\
    record_traffic 9 2 7 "xray" "e5" 1 1 db1 = Ok (false, db2) /\
    users db2 !! 7 = Some u2 /\ User.is_active 9 u2 = true.
Proof.
  pose (u := User.with_used 1000 5 (User.with_used 0 0 (sample_user 7 "alice" 1000 0))).
  exists after_crossing, (delete_node 1 after_crossing).2,
    (apply_op (delete_node 1 after_crossing).2 (Record_ 9 2 7 "xray" "e5" 1 1)),
    u, (User.with_used 0 9 u).
  split; [|repeat split; vm_compute; reflexivity].
  apply accounted_step, accounted_step. intros id v.
  unfold sample_db. simpl. rewrite lookup_insert. case_decide; intros; simplify_eq. done.
Qed.
