(* ===== verification/RateLimit.v ===== *)
(** * Brute-force and subscription rate limiting (src/master/src/ratelimit.rs)

    Instants and durations are nanosecond counts in [Z]; the clock readings a
    method takes are arguments, in the order the method takes them.  The
    mutex-protected hash maps are [gmap]s, [retain] is a map filter. *)

From S2P Require Import Prelude.

Definition MAX_FAILURES : Z := 5.
Definition WINDOW : Z := secs 300.
Definition LOCKOUT : Z := secs 900.

(** [Instant::duration_since] and [Instant - Instant] saturate at zero. *)
Definition duration_since (now start : Z) : Z := Z.max 0 (now - start).

(** ** LoginLimiter *)
Module Login.

Record Entry := mkEntry {
  failures : Z;
  window_start : Z;
  locked_until : option Z }.

Definition state := gmap string Entry.

Definition live (now : Z) (e : Entry) : bool :=
  is_some_and (locked_until e) (fun until => now <? until)
  || (duration_since now (window_start e) <=? WINDOW).

Definition prune (now : Z) (m : gmap string Entry) : gmap string Entry :=
  filter (fun kv => live now kv.2 = true) m.

(** Three clock readings: in [prune], in the match guard, in the subtraction. *)
Definition locked_for (now0 now1 now2 : Z) (key : string)
    (m : gmap string Entry) : option Z * gmap string Entry :=
  let m := prune now0 m in
  (match m !! key with
   | None => None
   | Some entry =>
       match locked_until entry with
       | Some until =>
           if now1 <? until
           then Some (sat_add_u64 (as_secs (duration_since until now2)) 1)
           else None
       | None => None
       end
   end, m).

Definition fresh (now : Z) : Entry := mkEntry 0 now None.

(** The window reset of [record_failure]. *)
Definition roll (now : Z) (entry : Entry) : Entry :=
  if map_or (locked_until entry) true (fun until => until <=? now)
     && (WINDOW <? duration_since now (window_start entry))
  then mkEntry 0 now None else entry.

(** The body of [record_failure] on the entry it finds or inserts. *)
Definition bump (now : Z) (entry : Entry) : Entry :=
  let entry := roll now entry in
  let failures := wrap_u32 (failures entry + 1) in
  mkEntry failures (window_start entry)
    (if MAX_FAILURES <=? failures then Some (now + LOCKOUT)
     else locked_until entry).

Definition record_failure (now : Z) (key : string)
    (m : gmap string Entry) : gmap string Entry :=
  <[key := bump now (default (fresh now) (m !! key))]> m.

Definition record_success (key : string)
    (m : gmap string Entry) : gmap string Entry := delete key m.

(** The limiter as the login handler drives it: each operation with the time
    its clock readings show. *)
Inductive op :=
| Check (key : string) (now : Z)
| Failure (key : string) (now : Z)
| Success (key : string).

Definition step (m : gmap string Entry) (o : op) : gmap string Entry :=
  match o with
  | Check key now => (locked_for now now now key m).2
  | Failure key now => record_failure now key m
  | Success key => record_success key m
  end.

Definition run (m : gmap string Entry) (ops : list op) : gmap string Entry :=
  fold_left step ops m.

End Login.

(** ** SubscriptionLimiter *)
Module Subscription.

Record SubscriptionLimitConfig := mkConfig {
  enabled : bool;
  max_requests : Z;
  window : Z;
  block : Z }.

Definition default_config : SubscriptionLimitConfig :=
  mkConfig true 120 (secs 60) (secs 300).

Inductive LimitDecision :=
| Allow
| Block (retry_after : Z).

Record SubscriptionEntry := mkEntry {
  requests : Z;
  window_start : Z;
  blocked_until : option Z }.

Record SubscriptionLimiter := mkLimiter {
  entries : gmap string SubscriptionEntry;
  allowed_total : Z;
  blocked_total : Z;
  last_blocked_at : Z }.

Definition new : SubscriptionLimiter := mkLimiter ∅ 0 0 0.

Definition live (config : SubscriptionLimitConfig) (now : Z)
    (e : SubscriptionEntry) : bool :=
  is_some_and (blocked_until e) (fun until => now <? until)
  || (duration_since now (window_start e) <=? window config).

(** [block]: [unix] is what [SystemTime::now] reads, in whole seconds. *)
Definition block_request (unix until now : Z) (l : SubscriptionLimiter)
    : LimitDecision * SubscriptionLimiter :=
  (Block (sat_add_u64 (as_secs (duration_since until now)) 1),
   mkLimiter (entries l) (allowed_total l) (wrap_u64 (blocked_total l + 1))
     (Z.min unix i64_max)).

Definition allow_request (l : SubscriptionLimiter)
    : LimitDecision * SubscriptionLimiter :=
  (Allow, mkLimiter (entries l) (wrap_u64 (allowed_total l + 1))
            (blocked_total l) (last_blocked_at l)).

Definition with_entries (m : gmap string SubscriptionEntry)
    (l : SubscriptionLimiter) : SubscriptionLimiter :=
  mkLimiter m (allowed_total l) (blocked_total l) (last_blocked_at l).

Definition check (config : SubscriptionLimitConfig) (unix now : Z)
    (key : string) (l : SubscriptionLimiter)
    : LimitDecision * SubscriptionLimiter :=
  if negb (enabled config) then allow_request l else
  let m := filter (fun kv => live config now kv.2 = true) (entries l) in
  let entry := default (mkEntry 0 now None) (m !! key) in
  match opt_filter (fun until => now <? until) (blocked_until entry) with
  | Some until =>
      block_request unix until now (with_entries (<[key := entry]> m) l)
  | None =>
      let entry :=
        if window config <? duration_since now (window_start entry)
        then mkEntry 0 now None else entry in
      let entry :=
        mkEntry (sat_add_u32 (requests entry) 1) (window_start entry)
          (blocked_until entry) in
      if max_requests config <? requests entry then
        let until := now + block config in
        let entry := mkEntry (requests entry) (window_start entry) (Some until) in
        block_request unix until now (with_entries (<[key := entry]> m) l)
      else
        allow_request (with_entries (<[key := entry]> m) l)
  end.

Record SubscriptionLimitStats := mkStats {
  stat_allowed : Z;
  stat_blocked : Z;
  active_buckets : nat;
  stat_last_blocked_at : option Z }.

Definition stats (l : SubscriptionLimiter) : SubscriptionLimitStats :=
  mkStats (allowed_total l) (blocked_total l) (size (entries l))
    (if 0 <? last_blocked_at l then Some (last_blocked_at l) else None).

(** A request stream against one configuration, with the decisions taken. *)
Record request := mkRequest { r_key : string; r_now : Z; r_unix : Z }.

Fixpoint serve (config : SubscriptionLimitConfig) (reqs : list request)
    (l : SubscriptionLimiter) : list (request * LimitDecision) * SubscriptionLimiter :=
  match reqs with
  | [] => ([], l)
  | r :: rest =>
      let '(d, l1) := check config (r_unix r) (r_now r) (r_key r) l in
      let '(ds, l2) := serve config rest l1 in
      ((r, d) :: ds, l2)
  end.

End Subscription.

(** ** Properties of the login limiter *)
Module LoginFacts.
Import Login.

(** What one operation does to the entry of key [k] alone. *)
Definition estep (k : string) (e : option Entry) (o : op) : option Entry :=
  match o with
  | Check _ now => opt_filter (live now) e
  | Failure k' now =>
      if String.eqb k' k then Some (bump now (default (fresh now) e)) else e
  | Success k' => if String.eqb k' k then None else e
  end.

Lemma lookup_prune now m (k : string) :
  prune now m !! k = opt_filter (live now) (m !! k).
Proof.
  unfold prune. rewrite map_lookup_filter.
  destruct (m !! k) as [e|] eqn:E; simpl; [|done].
  destruct (live now e) eqn:L.
  - rewrite option_guard_True; done.
  - rewrite option_guard_False; simpl; congruence.
Qed.

Lemma lookup_step m o k : step m o !! k = estep k (m !! k) o.
Proof.
  destruct o as [k' now|k' now|k']; simpl.
  - apply lookup_prune.
  - unfold record_failure. destruct (String.eqb_spec k' k) as [->|Hne].
    + apply lookup_insert_eq.
    + by rewrite lookup_insert_ne.
  - unfold record_success. destruct (String.eqb_spec k' k) as [->|Hne].
    + apply lookup_delete_eq.
    + by rewrite lookup_delete_ne.
Qed.

Lemma lookup_run ops : forall m k,
  run m ops !! k = fold_left (estep k) ops (m !! k).
Proof.
  induction ops as [|o ops IH]; intros m k; simpl; [done|].
  rewrite IH. by rewrite lookup_step.
Qed.

(** The failures of key [k] in a history, those since its last success, and
    the time of the last one. *)
Definition is_failure (k : string) (o : op) : bool :=
  match o with Failure k' _ => String.eqb k' k | _ => false end.
Definition failures_of (k : string) (ops : list op) : Z :=
  Z.of_nat (length (List.filter (is_failure k) ops)).
Definition streak_step (k : string) (n : Z) (o : op) : Z :=
  match o with
  | Failure k' _ => if String.eqb k' k then n + 1 else n
  | Success k' => if String.eqb k' k then 0 else n
  | Check _ _ => n
  end.
Definition streak (k : string) (ops : list op) : Z :=
  fold_left (streak_step k) ops 0.
Definition last_step (k : string) (t : option Z) (o : op) : option Z :=
  match o with
  | Failure k' now => if String.eqb k' k then Some now else t
  | _ => t
  end.
Definition last_failure (k : string) (ops : list op) : option Z :=
  fold_left (last_step k) ops None.

Definition op_within (lo hi : Z) (o : op) : Prop :=
  match o with
  | Check _ t | Failure _ t => lo <= t <= hi
  | Success _ => True
  end.
Definition not_success (k : string) (o : op) : Prop :=
  match o with Success k' => k' <> k | _ => True end.

(** Inside one window the entry counts every failure and the fifth locks it. *)
Definition counts (t0 n : Z) (last : option Z) (e : option Entry) : Prop :=
  match e with
  | None => n = 0
  | Some e =>
      failures e = n /\ t0 <= window_start e /\ 0 < n /\
      (exists tl, last = Some tl /\
         locked_until e = if MAX_FAILURES <=? n then Some (tl + LOCKOUT) else None)
  end.

Lemma wrap_u32_small n : 0 <= n <= u32_max -> wrap_u32 n = n.
Proof. unfold wrap_u32, u32_max. intros H. apply Z.mod_small. lia. Qed.

Lemma counts_step k t0 n last e o :
  counts t0 n last e -> 0 <= n -> (is_failure k o = true -> n < u32_max) ->
  op_within t0 (t0 + WINDOW) o -> not_success k o ->
  counts t0 (if is_failure k o then n + 1 else n) (last_step k last o)
    (estep k e o).
Proof.
  intros Hc Hn Hlt Ho Hs. destruct o as [k' t|k' t|k']; simpl in *.
  - destruct e as [e|]; simpl in *; [|done].
    destruct Hc as (Hf & Hw & Hp & tl & Hl & Hu).
    unfold live, duration_since.
    replace (Z.max 0 (t - window_start e) <=? WINDOW) with true
      by (symmetry; apply Z.leb_le; unfold WINDOW, secs in *; lia).
    rewrite orb_true_r. simpl. eauto 10.
  - destruct (String.eqb_spec k' k) as [->|Hne]; [|done].
    specialize (Hlt eq_refl).
    assert (Hwrap : wrap_u32 (n + 1) = n + 1)
      by (apply wrap_u32_small; lia).
    destruct e as [e|]; simpl in *.
    + destruct Hc as (Hf & Hw & Hp & tl & Hl & Hu).
      unfold bump, roll, duration_since.
      replace (WINDOW <? Z.max 0 (t - window_start e)) with false
        by (symmetry; apply Z.ltb_ge; unfold WINDOW, secs in *; lia).
      rewrite andb_false_r. simpl. rewrite Hf, Hwrap.
      repeat split; try lia; try done.
      exists t. split; [done|]. destruct (MAX_FAILURES <=? n + 1) eqn:E1; [done|].
      rewrite Hu. replace (MAX_FAILURES <=? n) with false; [done|].
      symmetry. breflect. lia.
    + subst n. unfold bump, roll, duration_since. simpl.
      rewrite Z.sub_diag. simpl.
      repeat split; try lia. exists t. done.
  - destruct (String.eqb_spec k' k) as [->|Hne]; [congruence|done].
Qed.

Lemma failures_of_cons k o ops :
  failures_of k (o :: ops) = (if is_failure k o then 1 else 0) + failures_of k ops.
Proof. unfold failures_of. simpl. destruct (is_failure k o); simpl; lia. Qed.

Lemma failures_of_nonneg k ops : 0 <= failures_of k ops.
Proof. unfold failures_of. lia. Qed.

Lemma counts_run k t0 ops : forall n last e,
  counts t0 n last e -> 0 <= n -> n + failures_of k ops <= u32_max ->
  Forall (op_within t0 (t0 + WINDOW)) ops -> Forall (not_success k) ops ->
  counts t0 (n + failures_of k ops) (fold_left (last_step k) ops last)
    (fold_left (estep k) ops e).
Proof.
  induction ops as [|o ops IH]; intros n last e Hc Hn Hb Hw Hs; simpl.
  - unfold failures_of; simpl. by rewrite Z.add_0_r.
  - inversion Hw; inversion Hs; subst. rewrite failures_of_cons in *.
    pose proof (failures_of_nonneg k ops).
    replace (n + ((if is_failure k o then 1 else 0) + failures_of k ops))
      with ((if is_failure k o then n + 1 else n) + failures_of k ops)
      by (destruct (is_failure k o); lia).
    apply IH; try done; try (destruct (is_failure k o); lia).
    apply counts_step; try done. intros Hf. rewrite Hf in Hb. lia.
Qed.

(** ** Lockout from any state

    The window is fixed, so it can turn over once inside five minutes; an entry left
    from before then takes up to three failures without locking. *)
Definition left_over (t0 n : Z) (last : option Z) (e : Entry) : Prop :=
  n < failures e
  /\ (MAX_FAILURES <= n + 1 -> exists tl, last = Some tl /\ t0 <= tl /\ locked_until e = Some (tl + LOCKOUT)).

(** After [n] failures: the old window goes on, or a new one counts all but three. *)
Definition tracked (t0 n b : Z) (last : option Z) (e : option Entry) : Prop :=
  (exists e', e = Some e' /\ left_over t0 n last e' /\ failures e' <= b)
  \/ (exists n', n - 3 <= n' <= n /\ 0 <= n' /\ counts t0 n' last e).

Lemma left_over_kept t0 n last e t :
  left_over t0 n last e -> MAX_FAILURES <= n + 1 -> t <= t0 + WINDOW -> is_some_and (locked_until e) (fun until => t <? until) = true.
Proof.
  intros [_ Hl] Hn Ht. destruct (Hl Hn) as (tl & _ & Hge & ->). simpl. apply Z.ltb_lt. unfold WINDOW, LOCKOUT, secs in *. lia.
Qed.

Lemma left_over_roll t0 n last e t :
  left_over t0 n last e -> t <= t0 + WINDOW -> roll t e = e \/ (roll t e = fresh t /\ n + 1 < MAX_FAILURES).
Proof.
  intros He Ht. unfold roll. destruct (_ && _) eqn:E; [|by left]. right. split; [done|].
  apply andb_true_iff in E as [E _]. destruct (Z.lt_ge_cases (n + 1) MAX_FAILURES) as [|Hn]; [done|].
  pose proof (left_over_kept _ _ _ _ t He Hn Ht) as Hk. destruct (locked_until e); simpl in *; [|done]. breflect. lia.
Qed.

Lemma left_over_bump t0 n b last e t : 0 <= n -> failures e <= b < u32_max -> t0 <= t <= t0 + WINDOW -> left_over t0 n last e ->
  tracked t0 (n + 1) (b + 1) (Some t) (Some (bump t e)).
Proof.
  intros Hn Hb Ht He. pose proof He as [Hle _]. unfold bump.
  destruct (left_over_roll _ _ _ _ t He) as [->|[-> Hlt]]; [lia| |].
  - left. eexists. split; [done|]. rewrite wrap_u32_small by (unfold u32_max in *; lia). split; [|simpl; lia].
    split; [simpl; lia|]. intros H5. exists t. split; [done|]. split; [lia|]. simpl.
    by replace (MAX_FAILURES <=? failures e + 1) with true by (symmetry; apply Z.leb_le; lia).
  - right. exists 1. unfold MAX_FAILURES in Hlt. split; [lia|]. split; [lia|]. simpl. split; [done|]. split; [lia|]. split; [lia|]. by exists t.
Qed.

Lemma tracked_step k t0 n b last e o :
  tracked t0 n b last e -> 0 <= n -> n <= b -> (is_failure k o = true -> b < u32_max) ->
  op_within t0 (t0 + WINDOW) o -> not_success k o ->
  tracked t0 (if is_failure k o then n + 1 else n) (if is_failure k o then b + 1 else b) (last_step k last o) (estep k e o).
Proof.
  intros [(e' & -> & He & Hb)|(n' & Hn' & Hp & Hc)] Hn Hnb Hlt Ho Hs.
  - destruct o as [k' t|k' t|k']; simpl in *.
    + destruct (live t e') eqn:El; [left; eauto|]. right. exists 0. split; [|done].
      destruct (Z.lt_ge_cases (n + 1) MAX_FAILURES) as [|H5]; [unfold MAX_FAILURES in *; lia|].
      unfold live in El. by rewrite (left_over_kept _ _ _ _ t He H5) in El by lia.
    + destruct (String.eqb k' k); [|left; eauto]. specialize (Hlt eq_refl). apply (left_over_bump _ _ _ last); [lia|lia|lia|done].
    + destruct (String.eqb_spec k' k); [done|left; eauto].
  - right. exists (if is_failure k o then n' + 1 else n').
    split; [destruct (is_failure k o); lia|]. split; [destruct (is_failure k o); lia|].
    apply counts_step; try done. intros Hf. specialize (Hlt Hf). lia.
Qed.

Lemma tracked_run k t0 ops : forall n b last e,
  tracked t0 n b last e -> 0 <= n -> n <= b -> b + failures_of k ops <= u32_max ->
  Forall (op_within t0 (t0 + WINDOW)) ops -> Forall (not_success k) ops ->
  tracked t0 (n + failures_of k ops) (b + failures_of k ops) (fold_left (last_step k) ops last) (fold_left (estep k) ops e).
Proof.
  induction ops as [|o ops IH]; intros n b last e Hc Hn Hnb Hb Hw Hs; simpl.
  - unfold failures_of; simpl. by rewrite !Z.add_0_r.
  - inversion Hw; inversion Hs; subst. rewrite failures_of_cons in *. pose proof (failures_of_nonneg k ops).
    replace (n + ((if is_failure k o then 1 else 0) + failures_of k ops))
      with ((if is_failure k o then n + 1 else n) + failures_of k ops) by (destruct (is_failure k o); lia).
    replace (b + ((if is_failure k o then 1 else 0) + failures_of k ops))
      with ((if is_failure k o then b + 1 else b) + failures_of k ops) by (destruct (is_failure k o); lia).
    apply IH; try done; try (destruct (is_failure k o); lia).
    apply tracked_step; try done. intros Hf. rewrite Hf in Hb. lia.
Qed.

(** A locked entry is what [locked_for] reports. *)
Lemma locked_reported k m e tl now :
  m !! k = Some e -> locked_until e = Some (tl + LOCKOUT) -> now < tl + LOCKOUT ->
  (locked_for now now now k m).1 = Some (sat_add_u64 (as_secs (tl + LOCKOUT - now)) 1).
Proof.
  intros Hk Hu Hnow. assert (Hb : (now <? tl + LOCKOUT) = true) by (apply Z.ltb_lt; lia).
  unfold locked_for. rewrite lookup_prune, Hk. simpl. unfold live. rewrite Hu. simpl. rewrite Hb. simpl. rewrite Hu, Hb.
  unfold duration_since. by rewrite Z.max_r by lia.
Qed.

Lemma tracked_locked t0 n b last e tl : tracked t0 n b last e -> last = Some tl ->
  (MAX_FAILURES + 3 <= n \/ counts t0 n last e /\ MAX_FAILURES <= n) -> exists e', e = Some e' /\ locked_until e' = Some (tl + LOCKOUT).
Proof.
  assert (Hcase : forall n', counts t0 n' last e -> MAX_FAILURES <= n' -> last = Some tl -> exists e', e = Some e' /\ locked_until e' = Some (tl + LOCKOUT)).
  { intros n' Hc Hn' ->. destruct e as [e|]; simpl in Hc; [|unfold MAX_FAILURES in *; lia].
    destruct Hc as (_ & _ & _ & tl' & [= <-] & Hu). exists e. split; [done|]. rewrite Hu.
    by replace (MAX_FAILURES <=? n') with true by (symmetry; apply Z.leb_le; lia). }
  intros Ht Hl [Hn|[Hc Hn]]; [|by apply (Hcase n)].
  destruct Ht as [(e' & -> & [_ He] & _)|(n' & Hn' & _ & Hc)]; [|apply (Hcase n'); [done|lia|done]].
  destruct (He ltac:(lia)) as (tl' & Hl' & _ & Hu). exists e'. split; [done|]. congruence.
Qed.

(** As long as the counter does not wrap, an entry counts at least one failure and at
    most those there were. *)
Definition positive (n : Z) (e : option Entry) : Prop := forall e', e = Some e' -> 1 <= failures e' <= n.

Lemma positive_step k n e o : 0 <= n -> positive n e -> (is_failure k o = true -> n < u32_max) ->
  positive (if is_failure k o then n + 1 else n) (estep k e o).
Proof.
  intros Hn He Hb e' He'. destruct o as [k' t|k' t|k']; simpl in *.
  - destruct e as [e|]; simpl in *; [|done]. destruct (live t e); simplify_eq. by apply He.
  - destruct (String.eqb k' k); [|by apply He]. specialize (Hb eq_refl). simplify_eq.
    assert (H1 : 0 <= failures (roll t (default (fresh t) e)) <= n).
    { unfold roll. destruct (_ && _); simpl; [lia|]. destruct e as [e|]; simpl; [|lia]. specialize (He e eq_refl). lia. }
    simpl. rewrite wrap_u32_small by lia. lia.
  - destruct (String.eqb k' k); [done|by apply He].
Qed.

Lemma positive_run k ops : forall n e, 0 <= n -> positive n e -> n + failures_of k ops <= u32_max ->
  positive (n + failures_of k ops) (fold_left (estep k) ops e).
Proof.
  induction ops as [|o ops IH]; intros n e Hn He Hb; simpl; [unfold failures_of; simpl; by rewrite Z.add_0_r|].
  rewrite failures_of_cons in *. pose proof (failures_of_nonneg k ops).
  replace (n + ((if is_failure k o then 1 else 0) + failures_of k ops))
    with ((if is_failure k o then n + 1 else n) + failures_of k ops) by (destruct (is_failure k o); lia).
  apply IH; try (destruct (is_failure k o); lia). apply positive_step; try done. intros Hf. rewrite Hf in Hb. lia.
Qed.

Lemma entry_bounded k ops e : failures_of k ops <= u32_max -> run ∅ ops !! k = Some e -> 1 <= failures e <= failures_of k ops.
Proof. intros Hb. rewrite lookup_run, lookup_empty. apply (positive_run k ops 0 None); [lia|done|lia]. Qed.

(** C3: Failures lock a key.  After any history, five failures of a key without an
    entry, or eight of one that still has an entry, within five minutes and without a
    success of the key between them, lock it: whatever other operations are
    interleaved, the limiter then refuses the key until fifteen minutes after the last
    failure, and reports the remaining seconds.  (The key has failed no more often in
    all than a u32 counts.) *)
Theorem login_lockout (k : string) (before ops : list op) (t0 now tl : Z) :
  Forall (op_within t0 (t0 + WINDOW)) ops ->
  Forall (not_success k) ops ->
  match run ∅ before !! k with None => MAX_FAILURES | Some _ => MAX_FAILURES + 3 end <= failures_of k ops ->
  failures_of k before + failures_of k ops <= u32_max ->
  last_failure k ops = Some tl ->
  now < tl + LOCKOUT ->
  (locked_for now now now k (run ∅ (before ++ ops))).1
    = Some (sat_add_u64 (as_secs (tl + LOCKOUT - now)) 1).
Proof.
  intros Hw Hs Hn Hu Hl Hnow. pose proof (failures_of_nonneg k before) as Hp.
  unfold run. rewrite fold_left_app. fold (run ∅ before).
  assert (He : exists e, run (run ∅ before) ops !! k = Some e /\ locked_until e = Some (tl + LOCKOUT))
    ; [|destruct He as (e & He & Hlk); by apply (locked_reported k _ e tl)].
  rewrite lookup_run. pose proof (failures_of_nonneg k ops). pose proof (entry_bounded k before) as Hb. destruct (run ∅ before !! k) as [e0|].
  - specialize (Hb e0 ltac:(lia) eq_refl). apply (tracked_locked t0 (0 + failures_of k ops) (failures_of k before + failures_of k ops) (last_failure k ops)); [|done|left; lia].
    apply tracked_run; try done; try lia. left. exists e0. split; [done|]. split; [|lia].
    split; [lia|unfold MAX_FAILURES; lia].
  - pose proof (counts_run k t0 ops 0 None None eq_refl ltac:(lia) ltac:(lia) Hw Hs) as Hc.
    apply (tracked_locked t0 (0 + failures_of k ops) (failures_of k ops) (last_failure k ops)); [|done|right; split; [done|lia]].
    right. exists (0 + failures_of k ops). pose proof (failures_of_nonneg k ops). split; [lia|]. split; [lia|done].
Qed.

(** An attacker whose window is about to turn over: three failures at its end, five
    after it. *)
Definition straddling : list op :=
  Failure "1.2.3.4" <$> [secs 201; secs 202; secs 203; secs 302; secs 303; secs 304; secs 305; secs 306].

Lemma login_lockout_witness :
  (locked_for (secs 400) (secs 400) (secs 400) "1.2.3.4" (run ∅ ([Failure "1.2.3.4" (secs 1)] ++ straddling))).1
  = Some (sat_add_u64 (as_secs (secs 306 + LOCKOUT - secs 400)) 1).
Proof.
  apply (login_lockout "1.2.3.4" [Failure "1.2.3.4" (secs 1)] straddling (secs 100) (secs 400) (secs 306)).
  - repeat constructor; vm_compute; discriminate.
  - repeat constructor; vm_compute; discriminate.
  - vm_compute. discriminate.
  - vm_compute. discriminate.
  - reflexivity.
  - reflexivity.
Defined.

(** Eight is the least number: seven failures in less than two minutes, three before
    the window turns over and four after it, leave the key open. *)
Example seven_failures_open :
  failures_of "1.2.3.4" (removelast straddling) = 7
  /\ (locked_for (secs 400) (secs 400) (secs 400) "1.2.3.4" (run ∅ ([Failure "1.2.3.4" (secs 1)] ++ removelast straddling))).1 = None.
Proof. vm_compute. done. Qed.

Definition bounded_by (n : Z) (e : option Entry) : Prop :=
  forall e', e = Some e' ->
    0 <= failures e' <= n /\ (locked_until e' <> None -> MAX_FAILURES <= n).

Lemma bounded_by_step k n e o :
  0 <= n -> bounded_by n e -> bounded_by (streak_step k n o) (estep k e o).
Proof.
  intros Hn He e' He'. destruct o as [k' t|k' t|k']; simpl in *.
  - destruct e as [e|]; simpl in *; [|done].
    destruct (live t e); simplify_eq. by apply He.
  - destruct (String.eqb k' k); [|by apply He]. simplify_eq. simpl.
    set (e1 := roll t _).
    assert (H1 : 0 <= failures e1 <= n /\ (locked_until e1 <> None -> MAX_FAILURES <= n)).
    { subst e1. unfold roll. destruct (_ && _); simpl; [split; [lia|done]|].
      destruct e as [e|]; simpl; [by apply He|split; [lia|done]]. }
    destruct H1 as [H1 H2].
    assert (Hw : 0 <= wrap_u32 (failures e1 + 1) <= failures e1 + 1).
    { unfold wrap_u32. split; [apply Z.mod_pos_bound; lia|apply Z.mod_le; lia]. }
    split; [lia|]. destruct (MAX_FAILURES <=? _) eqn:E; breflect; intros; [lia|].
    specialize (H2 ltac:(assumption)). lia.
  - destruct (String.eqb k' k); [done|by apply He].
Qed.

Lemma bounded_by_run k ops : forall n e,
  0 <= n -> bounded_by n e ->
  bounded_by (fold_left (streak_step k) ops n) (fold_left (estep k) ops e).
Proof.
  induction ops as [|o ops IH]; intros n e Hn He; simpl; [done|].
  apply IH; [|by apply bounded_by_step].
  destruct o; simpl; try destruct (String.eqb _ _); lia.
Qed.

(** The limiter never locks a key without cause: in any history from an
    empty table, a locked key has failed at least five times since its last
    success. *)
Theorem login_lock_justified (k : string) (ops : list op) (now0 now1 now2 r : Z) :
  (locked_for now0 now1 now2 k (run ∅ ops)).1 = Some r ->
  MAX_FAILURES <= streak k ops.
Proof.
  unfold locked_for. simpl. rewrite lookup_prune, lookup_run, lookup_empty.
  assert (Hb : bounded_by (streak k ops) (fold_left (estep k) ops None))
    by (apply bounded_by_run; [lia|done]).
  destruct (fold_left (estep k) ops None) as [e|]; simpl; [|done].
  destruct (live now0 e); simpl; [|done].
  destruct (locked_until e) eqn:E; [|done]. intros _.
  destruct (Hb e eq_refl) as [_ H]. apply H. congruence.
Qed.

Lemma login_lock_justified_witness :
  MAX_FAILURES <= streak "a" (List.repeat (Failure "a" 7) 5).
Proof.
  apply (login_lock_justified "a" _ 8 8 8 900). reflexivity.
Defined.

End LoginFacts.

(** ** Properties of the subscription limiter *)
Module SubscriptionFacts.
Import Subscription.

Definition is_allow (d : LimitDecision) : bool :=
  match d with Allow => true | Block _ => false end.

Section OneConfig.
Context (config : SubscriptionLimitConfig).
Hypothesis config_enabled : enabled config = true.
(** Saturation of the request counter stays out of reach of the limit. *)
Hypothesis config_max : 0 <= max_requests config < u32_max.

(** The verdict on a request of the key itself, and the entry it leaves. *)
Definition own (now : Z) (e : option SubscriptionEntry) : bool * SubscriptionEntry :=
  let entry := default (mkEntry 0 now None) (opt_filter (live config now) e) in
  match opt_filter (fun until => now <? until) (blocked_until entry) with
  | Some _ => (false, entry)
  | None =>
      let entry := if window config <? duration_since now (window_start entry)
                   then mkEntry 0 now None else entry in
      let n := sat_add_u32 (requests entry) 1 in
      if max_requests config <? n
      then (false, mkEntry n (window_start entry) (Some (now + block config)))
      else (true, mkEntry n (window_start entry) (blocked_until entry))
  end.

Definition estep (k : string) (r : request) (e : option SubscriptionEntry)
    : bool * option SubscriptionEntry :=
  if String.eqb (r_key r) k
  then let '(ok, e') := own (r_now r) e in (ok, Some e')
  else (false, opt_filter (live config (r_now r)) e).

Lemma lookup_retain now (m : gmap string SubscriptionEntry) k :
  filter (fun kv => live config now kv.2 = true) m !! k
  = opt_filter (live config now) (m !! k).
Proof.
  rewrite map_lookup_filter.
  destruct (m !! k) as [e|] eqn:E; simpl; [|done].
  destruct (live config now e) eqn:L.
  - rewrite option_guard_True; done.
  - rewrite option_guard_False; simpl; congruence.
Qed.

Lemma check_entry k r l :
  let '(d, l') := check config (r_unix r) (r_now r) (r_key r) l in
  entries l' !! k = (estep k r (entries l !! k)).2
  /\ (String.eqb (r_key r) k && is_allow d) = (estep k r (entries l !! k)).1.
Proof.
  unfold check, estep, own. rewrite config_enabled. simpl.
  destruct (String.eqb_spec (r_key r) k) as [->|Hne]; rewrite !lookup_retain.
  - set (entry := default _ _).
    destruct (opt_filter _ (blocked_until entry)) as [u|]; simpl.
    + by rewrite lookup_insert_eq.
    + destruct (_ <? duration_since _ _); simpl;
        destruct (max_requests config <? _); simpl; by rewrite lookup_insert_eq.
  - set (entry := default _ _).
    destruct (opt_filter _ (blocked_until entry)) as [u|]; simpl;
      [|destruct (_ <? duration_since _ _); simpl;
        destruct (max_requests config <? _); simpl];
      by rewrite lookup_insert_ne, lookup_retain by done.
Qed.

(** Requests of [k] allowed at a time in [a, b]. *)
Definition counted (k : string) (a b : Z) (rd : request * LimitDecision) : bool :=
  String.eqb (r_key rd.1) k && is_allow rd.2
  && (a <=? r_now rd.1) && (r_now rd.1 <=? b).
Definition allowed_in (k : string) (a b : Z)
    (ds : list (request * LimitDecision)) : Z :=
  Z.of_nat (length (List.filter (counted k a b) ds)).

(** The same count, computed on the entry of [k] alone. *)
Fixpoint tally (k : string) (a b : Z) (reqs : list request)
    (e : option SubscriptionEntry) : Z :=
  match reqs with
  | [] => 0
  | r :: rest =>
      (if (estep k r e).1 && (a <=? r_now r) && (r_now r <=? b) then 1 else 0)
      + tally k a b rest (estep k r e).2
  end.

Lemma allowed_in_tally k a b reqs : forall l,
  allowed_in k a b (serve config reqs l).1 = tally k a b reqs (entries l !! k).
Proof.
  induction reqs as [|r reqs IH]; intros l; [done|]. simpl.
  pose proof (check_entry k r l) as Hc.
  destruct (check config (r_unix r) (r_now r) (r_key r) l) as [d l'].
  destruct Hc as [He Hd]. specialize (IH l').
  destruct (serve config reqs l') as [ds l'']. simpl in *.
  rewrite <- He, <- IH, <- Hd. unfold allowed_in. simpl.
  unfold counted at 1. simpl. destruct (_ && _ && _ && _); simpl; lia.
Qed.

Definition later (r s : request) : Prop := r_now r <= r_now s.

Lemma tally_after k a b reqs : forall e,
  Forall (fun r => b < r_now r) reqs -> tally k a b reqs e = 0.
Proof.
  induction reqs as [|r reqs IH]; intros e Hf; [done|]. inversion Hf; subst.
  simpl. replace (r_now r <=? b) with false by (symmetry; breflect; lia).
  rewrite andb_false_r, IH by done. lia.
Qed.

(** What is left of the current window's allowance. *)
Definition rem (e : option SubscriptionEntry) : Z :=
  match e with
  | Some e => Z.max 0 (max_requests config - requests e)
  | None => 0
  end.
Definition wf (e : option SubscriptionEntry) : Prop :=
  match e with Some e => 0 <= requests e <= u32_max | None => True end.

Lemma own_kept now e :
  0 <= requests e <= u32_max ->
  live config now e = true -> duration_since now (window_start e) <= window config ->
  let '(ok, e') := own now (Some e) in
  0 <= requests e' <= u32_max /\ window_start e' = window_start e
  /\ (if ok then 1 else 0) + rem (Some e') <= rem (Some e).
Proof.
  intros Hr Hl Hw. unfold own. simpl. rewrite Hl. simpl.
  destruct (opt_filter _ (blocked_until e)) as [u|]; [simpl; lia|].
  replace (window config <? duration_since now (window_start e)) with false
    by (symmetry; breflect; lia).
  assert (Hs : requests e <= sat_add_u32 (requests e) 1 <= u32_max /\
    (requests e < u32_max -> sat_add_u32 (requests e) 1 = requests e + 1))
    by (unfold sat_add_u32; lia).
  destruct (max_requests config <? sat_add_u32 (requests e) 1) eqn:E;
    simpl; breflect; repeat split; lia.
Qed.

Lemma own_fresh now e :
  wf e ->
  (match e with
   | Some e => live config now e = true ->
       window config < duration_since now (window_start e)
   | None => True end) ->
  let '(ok, e') := own now e in
  wf (Some e') /\
  (if ok then window_start e' = now /\ 1 + rem (Some e') <= max_requests config
   else rem (Some e') <= rem e).
Proof.
  intros Hwf He. unfold own.
  assert (Hd : sat_add_u32 0 1 = 1) by reflexivity.
  assert (H0 : forall w, (if window config <? w then mkEntry 0 now None
                          else mkEntry 0 now None) = mkEntry 0 now None)
    by (intros w; by destruct (_ <? w)).
  destruct e as [e|]; simpl in *; [destruct (live config now e) eqn:L; simpl|].
  - destruct (opt_filter _ (blocked_until e)) as [u|]; [simpl; lia|].
    replace (window config <? _) with true by (symmetry; breflect; auto).
    cbn [requests window_start]. rewrite Hd.
    destruct (max_requests config <? 1) eqn:E; simpl; breflect; unfold u32_max; lia.
  - rewrite H0. cbn [requests window_start]. rewrite Hd.
    destruct (max_requests config <? 1) eqn:E; simpl; breflect; unfold u32_max; lia.
  - rewrite H0. cbn [requests window_start]. rewrite Hd.
    destruct (max_requests config <? 1) eqn:E; simpl; breflect; unfold u32_max; lia.
Qed.

(** Either the entry survives in its window, or the request opens a new one. *)
Lemma own_split now e :
  wf e ->
  let '(ok, e') := own now e in
  wf (Some e') /\
  ((exists e0, e = Some e0 /\ window_start e' = window_start e0
      /\ (if ok then 1 else 0) + rem (Some e') <= rem e)
   \/ (ok = true /\ window_start e' = now /\ 1 + rem (Some e') <= max_requests config)
   \/ (ok = false /\ rem (Some e') <= rem e)).
Proof.
  intros Hwf.
  destruct e as [e|]; [destruct (live config now e) eqn:L;
    [destruct (Z.leb_spec (duration_since now (window_start e)) (window config))|]|].
  - pose proof (own_kept now e Hwf L ltac:(lia)) as H1.
    destruct (own now (Some e)) as [ok e']. destruct H1 as (H1 & H2 & H3).
    split; [done|]. left. eauto.
  - pose proof (own_fresh now (Some e) Hwf ltac:(intros _; assumption)) as H1.
    destruct (own now (Some e)) as [[] e']; intuition.
  - pose proof (own_fresh now (Some e) Hwf ltac:(simpl; congruence)) as H1.
    destruct (own now (Some e)) as [[] e']; intuition.
  - pose proof (own_fresh now None Hwf I) as H1.
    destruct (own now None) as [[] e']; intuition.
Qed.

Lemma estep_wf k r e : wf e -> wf (estep k r e).2.
Proof.
  intros Hwf. unfold estep. destruct (String.eqb (r_key r) k).
  - pose proof (own_split (r_now r) e Hwf) as H.
    destruct (own (r_now r) e) as [ok e']. apply H.
  - destruct e as [e|]; simpl; [|done]. by destruct (live _ _ _).
Qed.

Lemma rem_nonneg e : 0 <= rem e.
Proof. destruct e; simpl; lia. Qed.

Lemma rem_filter now e : rem (opt_filter (live config now) e) <= rem e.
Proof. destruct e as [e|]; simpl; [|lia]. destruct (live _ _ _); simpl; lia. Qed.

(** Inside the window of the current entry only its remainder is granted. *)
Lemma tally_window k a b reqs : forall e,
  wf (Some e) -> StronglySorted later reqs ->
  Forall (fun r => window_start e <= r_now r) reqs ->
  b <= window_start e + window config ->
  tally k a b reqs (Some e) <= rem (Some e).
Proof.
  induction reqs as [|r reqs IH]; intros e Hwf Hs Hf Hb; [apply rem_nonneg|].
  apply StronglySorted_inv in Hs as [Hs Hr]. apply Forall_cons in Hf as [Hf1 Hf].
  destruct (Z.ltb_spec b (r_now r)) as [Hlt|Hle].
  { rewrite tally_after; [apply rem_nonneg|]. constructor; [done|].
    eapply Forall_impl; [exact Hr|]. unfold later. simpl; intros; lia. }
  assert (Hd : duration_since (r_now r) (window_start e) <= window config)
    by (unfold duration_since; lia).
  assert (Hl : live config (r_now r) e = true)
    by (unfold live; breflect; lia).
  simpl. unfold estep. destruct (String.eqb (r_key r) k).
  - pose proof (own_kept (r_now r) e Hwf Hl Hd) as H1.
    destruct (own (r_now r) (Some e)) as [ok e']. destruct H1 as (H1 & H4 & H5).
    assert (tally k a b reqs (Some e') <= rem (Some e')).
    { apply IH; try done; rewrite H4; done. }
    cbn [fst snd]. destruct (ok && _ && _) eqn:E; [|destruct ok; simpl in *; lia].
    destruct ok; [simpl in *; lia|done].
  - simpl. rewrite Hl. specialize (IH e Hwf Hs ltac:(done) Hb). simpl in IH. lia.
Qed.

Lemma tally_interval k a b reqs : forall e,
  wf e -> StronglySorted later reqs -> Forall (fun r => a <= r_now r) reqs ->
  b <= a + window config ->
  tally k a b reqs e <= rem e + max_requests config.
Proof.
  induction reqs as [|r reqs IH]; intros e Hwf Hs Hf Hb;
    [pose proof (rem_nonneg e); simpl; lia|].
  apply StronglySorted_inv in Hs as [Hs Hr]. apply Forall_cons in Hf as [Hf1 Hf].
  pose proof (estep_wf k r e Hwf) as Hwf'. simpl.
  pose proof (IH _ Hwf' Hs ltac:(done) Hb) as IHb. revert Hwf' IHb.
  unfold estep. destruct (String.eqb (r_key r) k); simpl.
  - pose proof (own_split (r_now r) e Hwf) as H1.
    destruct (own (r_now r) e) as [ok e'] eqn:Eo. simpl. intros Hwf' IHb.
    destruct H1 as [_ [(e0 & -> & _ & H1)|[(-> & H1 & H4)|(-> & H1)]]].
    + destruct ok; simpl in *; [destruct (_ && _)|]; lia.
    + assert (tally k a b reqs (Some e') <= rem (Some e')).
      { apply tally_window; try done; rewrite H1; [done|lia]. }
      pose proof (rem_nonneg e). destruct (true && _ && _); lia.
    + simpl in *. lia.
  - intros _ IHb. pose proof (rem_filter (r_now r) e). lia.
Qed.

Lemma tally_bound k a b reqs : forall e,
  wf e -> StronglySorted later reqs -> b <= a + window config ->
  tally k a b reqs e <= 2 * max_requests config.
Proof.
  induction reqs as [|r reqs IH]; intros e Hwf Hs Hb; [simpl; lia|].
  destruct (Z.ltb_spec (r_now r) a) as [Hlt|Hge].
  - apply StronglySorted_inv in Hs as [Hs _]. simpl.
    replace (a <=? r_now r) with false by (symmetry; breflect; lia).
    rewrite andb_false_r. simpl.
    specialize (IH _ (estep_wf k r e Hwf) Hs Hb). lia.
  - assert (rem e <= max_requests config) by (destruct e as [e|]; simpl in *; lia).
    pose proof (tally_interval k a b (r :: reqs) e Hwf Hs) as H1.
    apply StronglySorted_inv in Hs as [Hs Hr]. simpl in H1 |- *.
    enough (Forall (fun r0 => a <= r_now r0) (r :: reqs)) by (specialize (H1 ltac:(done) Hb); lia).
    constructor; [done|]. eapply Forall_impl; [exact Hr|]. unfold later. simpl; intros; lia.
Qed.

End OneConfig.



Definition decided (allow : bool) (ds : list (request * LimitDecision)) : Z :=
  Z.of_nat (length (List.filter (fun rd => Bool.eqb (is_allow rd.2) allow) ds)).

Lemma check_counters config unix now k l :
  let '(d, l') := check config unix now k l in
  allowed_total l' = (if is_allow d then wrap_u64 (allowed_total l + 1) else allowed_total l)
  /\ blocked_total l' = (if is_allow d then blocked_total l else wrap_u64 (blocked_total l + 1)).
Proof.
  unfold check. destruct (negb _); [done|].
  destruct (opt_filter _ _); [done|]. destruct (max_requests config <? _); done.
Qed.

Lemma wrap_u64_add a n : wrap_u64 (wrap_u64 a + n) = wrap_u64 (a + n).
Proof. unfold wrap_u64. apply Zplus_mod_idemp_l. Qed.

Lemma serve_counters config reqs : forall l,
  let '(ds, l') := serve config reqs l in
  wrap_u64 (allowed_total l') = wrap_u64 (allowed_total l + decided true ds)
  /\ wrap_u64 (blocked_total l') = wrap_u64 (blocked_total l + decided false ds).
Proof.
  induction reqs as [|r reqs IH]; intros l; simpl.
  - unfold decided; simpl. rewrite !Z.add_0_r. done.
  - pose proof (check_counters config (r_unix r) (r_now r) (r_key r) l) as Hc.
    destruct (check config (r_unix r) (r_now r) (r_key r) l) as [d l1].
    specialize (IH l1). destruct (serve config reqs l1) as [ds l2]. simpl in *.
    destruct Hc as [Ha Hb], IH as [IHa IHb]. rewrite IHa, IHb, Ha, Hb.
    unfold decided. simpl. destruct (is_allow d); simpl; rewrite ?wrap_u64_add;
      split; f_equal; lia.
Qed.

End SubscriptionFacts.
