(* ===== verification/Ha.v ===== *)
(** * Leader election between master instances (src/master/src/ha.rs and the
    lease queries of src/master/src/db/repo.rs)

    The lease row and the instance roster are tables with explicit state
    passing; the database clock is an argument.  The election loop of each
    instance is a state machine: its renewal query runs at the database at one
    moment and its reply reaches the instance at a later one. *)

From S2P Require Import Prelude.

(** ** The lease table *)

Record Lease := mkLease {
  holder : Uuid;
  acquired_at : Z;
  renewed_at : Z;
  expires_at : Z }.

Inductive DbError := IntegerOutOfRange | Unreachable.

(** The upsert of [ha_try_acquire]: it returns whether this holder owns the
    lease afterwards.  [$2::int] fails outside 32 bits. *)
Definition ha_try_acquire (now : Z) (me : Uuid) (ttl_secs : Z)
    (row : option Lease) : result bool DbError * option Lease :=
  if i32_max <? ttl_secs then (Err IntegerOutOfRange, row) else
  let expires := now + secs ttl_secs in
  match row with
  | None => (Ok true, Some (mkLease me now now expires))
  | Some l =>
      if (holder l =? me) || (expires_at l <? now)
      then (Ok true,
            Some (mkLease me (if holder l =? me then acquired_at l else now)
                    now expires))
      else (Ok false, row)
  end.

Definition ha_leader (now : Z) (row : option Lease) : option (Uuid * Z) :=
  match row with
  | Some l => if now <? expires_at l then Some (holder l, expires_at l) else None
  | None => None
  end.

(** ** The instance roster *)

Record Instance := mkInstance {
  hostname : string;
  version : string;
  started_at : Z;
  last_seen : Z }.

Definition ha_heartbeat (now : Z) (id : Uuid) (host ver : string)
    (roster : gmap Uuid Instance) : gmap Uuid Instance :=
  match roster !! id with
  | None => <[id := mkInstance host ver now now]> roster
  | Some i => <[id := mkInstance host ver (started_at i) now]> roster
  end.

Definition ha_prune_instances (now older_than_secs : Z)
    (roster : gmap Uuid Instance) : gmap Uuid Instance :=
  filter (fun kv => (last_seen kv.2 <? now - secs (Z.max older_than_secs 60)) = false)
    roster.

(** ** The election loop *)

(** The two durations [run] derives from its [ttl] argument, in seconds. *)
Definition ttl_secs_of (ttl : Z) : Z := Z.max (as_secs ttl) 3.
Definition renew_secs_of (ttl : Z) : Z := Z.max (ttl_secs_of ttl / 3) 1.

(** One instance: its leader flag, the renewal reply in flight, and the
    database times of the renewal in flight and of the one the flag reflects. *)
Record Node := mkNode {
  is_leader : bool;
  reply : option (result bool DbError);
  asked : Z;
  confirmed : Z;
  ticks : Z }.

Definition boot : Node := mkNode false None 0 0 0.

Record Cluster := mkCluster {
  clock : Z;
  row : option Lease;
  roster : gmap Uuid Instance;
  nodes : gmap Uuid Node }.

Definition set_leader (value : bool) (n : Node) : Node :=
  mkNode value (reply n) (asked n) (confirmed n) (ticks n).

(** The renewal of instance [i] runs at the database. *)
Definition renew (ttl_secs : Z) (i : Uuid) (n : Node) (c : Cluster) : Cluster :=
  let '(r, row') := ha_try_acquire (clock c) i ttl_secs (row c) in
  mkCluster (clock c) row' (roster c)
    (<[i := mkNode (is_leader n) (Some r) (clock c) (confirmed n) (ticks n)]> (nodes c)).

(** The renewal of instance [i] does not reach the database. *)
Definition renew_lost (i : Uuid) (n : Node) (c : Cluster) : Cluster :=
  mkCluster (clock c) (row c) (roster c)
    (<[i := mkNode (is_leader n) (Some (Err Unreachable)) (clock c)
              (confirmed n) (ticks n)]> (nodes c)).

(** The rest of the loop body once the reply is in: the flag is set (an error
    steps down), the heartbeat is written and every tenth tick of a leader
    prunes the roster.  [beat] says whether the heartbeat and the prune get
    through; their errors are only logged. *)
Definition settle (ttl_secs : Z) (beat : bool) (host ver : string) (i : Uuid)
    (n : Node) (r : result bool DbError) (c : Cluster) : Cluster :=
  let held := match r with Ok held => held | Err _ => false end in
  let n := mkNode held None (asked n) (asked n) (wrap_u64 (ticks n + 1)) in
  let roster1 := if beat then ha_heartbeat (clock c) i host ver (roster c)
                 else roster c in
  let roster2 := if beat && held && (ticks n mod 10 =? 0)
                 then ha_prune_instances (clock c) (ttl_secs * 6) roster1
                 else roster1 in
  mkCluster (clock c) (row c) roster2 (<[i := n]> (nodes c)).

Inductive step (ttl_secs : Z) : Cluster -> Cluster -> Prop :=
| step_time c d :
    0 <= d ->
    step ttl_secs c (mkCluster (clock c + d) (row c) (roster c) (nodes c))
| step_renew c i n :
    nodes c !! i = Some n -> reply n = None ->
    step ttl_secs c (renew ttl_secs i n c)
| step_lost c i n :
    nodes c !! i = Some n -> reply n = None ->
    step ttl_secs c (renew_lost i n c)
| step_settle c i n r beat host ver :
    nodes c !! i = Some n -> reply n = Some r ->
    step ttl_secs c (settle ttl_secs beat host ver i n r c).

Definition initial (c : Cluster) : Prop :=
  0 <= clock c /\ row c = None /\ forall i n, nodes c !! i = Some n -> n = boot.

(** A leader acts on a renewal that is not older than the lease it obtained. *)
Definition timely (ttl_secs : Z) (c : Cluster) : Prop :=
  forall i n, nodes c !! i = Some n -> is_leader n = true ->
    clock c <= confirmed n + secs ttl_secs.

Inductive reachable (ttl_secs : Z) : Cluster -> Prop :=
| reach_init c : initial c -> reachable ttl_secs c
| reach_step c c' : reachable ttl_secs c -> step ttl_secs c c' -> reachable ttl_secs c'.

(** Executions in which every state is timely. *)
Inductive reachable_timely (ttl_secs : Z) : Cluster -> Prop :=
| timely_init c : initial c -> reachable_timely ttl_secs c
| timely_step c c' :
    reachable_timely ttl_secs c -> step ttl_secs c c' -> timely ttl_secs c' ->
    reachable_timely ttl_secs c'.

(** ** Properties *)

Section Safety.
Context (ttl_secs : Z).

(** The lease row backs a renewal made at time [at_] by instance [i]. *)
Definition backs (c : Cluster) (i : Uuid) (at_ : Z) : Prop :=
  exists l, row c = Some l /\ holder l = i /\ at_ + secs ttl_secs <= expires_at l.

Definition node_inv (c : Cluster) (i : Uuid) (n : Node) : Prop :=
  asked n <= clock c /\ confirmed n <= clock c /\
  (is_leader n = true -> backs c i (confirmed n)) /\
  (reply n = Some (Ok true) -> clock c <= asked n + secs ttl_secs ->
     backs c i (asked n)).

Definition inv (c : Cluster) : Prop :=
  forall i n, nodes c !! i = Some n -> node_inv c i n.

(** Another instance's acquisition cannot displace a lease that still runs. *)
Lemma acquire_keeps now j row r row' i at_ :
  ha_try_acquire now j ttl_secs row = (r, row') ->
  at_ <= now <= at_ + secs ttl_secs ->
  (exists l, row = Some l /\ holder l = i /\ at_ + secs ttl_secs <= expires_at l) ->
  exists l, row' = Some l /\ holder l = i /\ at_ + secs ttl_secs <= expires_at l.
Proof.
  intros Ha Hnow (l & -> & Hh & He). unfold ha_try_acquire in Ha.
  destruct (i32_max <? ttl_secs); [simplify_eq; eauto|].
  destruct (Z.eqb_spec (holder l) j) as [Hj|Hj]; simpl in Ha; simplify_eq.
  - eexists. split; [done|]. simpl. split; [done|]. lia.
  - destruct (Z.ltb_spec (expires_at l) now); [lia|]. simplify_eq. eauto.
Qed.

Lemma acquire_grants now j row row' :
  ha_try_acquire now j ttl_secs row = (Ok true, row') ->
  exists l, row' = Some l /\ holder l = j /\ now + secs ttl_secs <= expires_at l.
Proof.
  unfold ha_try_acquire. destruct (i32_max <? ttl_secs); [done|].
  destruct row as [l|]; [destruct (_ || _)|]; intros; simplify_eq;
    eexists; repeat split; simpl; lia.
Qed.

Lemma inv_step c c' :
  inv c -> step ttl_secs c c' -> timely ttl_secs c' -> inv c'.
Proof.
  intros Hinv Hstep Ht. destruct Hstep as [c d Hd|c j n Hn Hr|c j n Hn Hr|c j n r beat host ver Hn Hr].
  - intros i m Hm. destruct (Hinv i m Hm) as (Ha & Hc & Hl & Hp).
    repeat split; simpl; try lia; [done|].
    intros Hrep Hle. apply Hp; [done|lia].
  - unfold renew in *.
    destruct (ha_try_acquire (clock c) j ttl_secs (row c)) as [r row'] eqn:E.
    assert (Hkeep : forall i at_, at_ <= clock c <= at_ + secs ttl_secs ->
              backs c i at_ -> exists l, row' = Some l /\ holder l = i /\
              at_ + secs ttl_secs <= expires_at l)
      by (intros; eapply acquire_keeps; eauto).
    intros i m Hm. simpl in Hm. rewrite lookup_insert in Hm. case_decide; simplify_eq.
    + destruct (Hinv i n Hn) as (Ha & Hc & Hl & Hp).
      repeat split; simpl; try lia.
      * intros Hlead. apply Hkeep; [|by apply Hl]. split; [done|].
        specialize (Ht i _ (lookup_insert_eq _ _ _) Hlead). simpl in Ht. lia.
      * intros Hok _. injection Hok as ->. by eapply acquire_grants.
    + destruct (Hinv i m Hm) as (Ha & Hc & Hl & Hp).
      repeat split; simpl; try lia.
      * intros Hlead. apply Hkeep; [|by apply Hl]. split; [done|].
        assert (Hm' : nodes (mkCluster (clock c) row' (roster c)
          (<[j:=mkNode (is_leader n) (Some r) (clock c) (confirmed n) (ticks n)]> (nodes c)))
          !! i = Some m) by (simpl; by rewrite lookup_insert_ne).
        specialize (Ht i m Hm' Hlead). simpl in Ht. lia.
      * intros Hok Hle. apply Hkeep; [lia|]. by apply Hp.
  - intros i m Hm. simpl in Hm. rewrite lookup_insert in Hm. case_decide; simplify_eq.
    + destruct (Hinv i n Hn) as (Ha & Hc & Hl & Hp). repeat split; simpl; try lia; done.
    + by apply Hinv.
  - intros i m Hm. pose proof (Ht i m Hm) as Htm. simpl in Hm, Htm.
    rewrite lookup_insert in Hm. case_decide; simplify_eq.
    + destruct (Hinv i n Hn) as (Ha & Hc & Hl & Hp).
      repeat split; simpl in *; try lia; [|done].
      intros Hlead. destruct r as [[]|]; try done.
      apply Hp; [done|]. by apply Htm.
    + by apply Hinv.
Qed.

Lemma inv_reachable c : reachable_timely ttl_secs c -> inv c.
Proof.
  induction 1 as [c (Hclk & _ & Hb)|c c' Hr IH Hs Ht].
  - intros i n Hn. rewrite (Hb i n Hn). repeat split; simpl; try lia; done.
  - by eapply inv_step.
Qed.

End Safety.

(** C7: leader election is mutually exclusive as long as every leader acts on
    a renewal younger than the lease: two instances that both hold the leader
    flag are the same instance. *)
Theorem ha_mutual_exclusion (ttl_secs : Z) (c : Cluster) (i j : Uuid) (n m : Node) :
  reachable_timely ttl_secs c ->
  nodes c !! i = Some n -> is_leader n = true ->
  nodes c !! j = Some m -> is_leader m = true ->
  i = j.
Proof.
  intros Hr Hn Hln Hm Hlm.
  pose proof (inv_reachable ttl_secs c Hr) as Hinv.
  destruct (Hinv i n Hn) as (_ & _ & Hi & _), (Hinv j m Hm) as (_ & _ & Hj & _).
  destruct (Hi Hln) as (l & Hl & <- & _), (Hj Hlm) as (l' & Hl' & <- & _).
  congruence.
Qed.

(** A run of two instances, used to exercise the machine. *)
Definition two : Cluster := mkCluster 0 None ∅ (<[1 := boot]> (<[2 := boot]> ∅)).
Definition two_renewed : Cluster := renew 15 1 boot two.
Definition leader_one : Node := mkNode true None 0 0 1.
Definition two_led : Cluster :=
  settle 15 false "" "" 1 (mkNode false (Some (Ok true)) 0 0 0) (Ok true) two_renewed.

Lemma two_initial : initial two.
Proof.
  split; [done|]. split; [done|]. intros i n. unfold two; simpl.
  rewrite !lookup_insert. repeat case_decide; intros; simplify_eq; done.
Qed.

Lemma two_led_steps : step 15 two two_renewed /\ step 15 two_renewed two_led.
Proof. split; [by apply step_renew|by apply step_settle]. Qed.

Lemma two_led_timely : reachable_timely 15 two_led.
Proof.
  destruct two_led_steps as [H1 H2].
  eapply timely_step; [eapply timely_step; [apply timely_init, two_initial|exact H1|]|exact H2|];
    intros i n Hn Hl; unfold two_led, two_renewed, two in *; simpl in *;
    rewrite ?lookup_insert in Hn; repeat case_decide; simplify_eq; simpl; try done;
    vm_compute; discriminate.
Qed.

Lemma ha_mutual_exclusion_witness :
  reachable_timely 15 two_led /\ (1 : Uuid) = 1.
Proof.
  split; [apply two_led_timely|].
  apply (ha_mutual_exclusion 15 two_led 1 1 leader_one leader_one);
    [apply two_led_timely|reflexivity..].
Defined.

(** Without that timing assumption the flags can overlap.  A leader whose
    renewal neither succeeds nor fails before the lease runs out keeps its
    flag, and a second instance that takes the expired lease leads as well. *)
Theorem ha_stalled_renewal_overlap :
  exists c n m, reachable 15 c /\
    nodes c !! 1 = Some n /\ is_leader n = true /\
    nodes c !! 2 = Some m /\ is_leader m = true.
Proof.
  pose (c3 := mkCluster (clock two_led + secs 16) (row two_led) (roster two_led) (nodes two_led)).
  pose (c4 := renew 15 2 boot c3).
  pose (c5 := settle 15 false "" "" 2 (mkNode false (Some (Ok true)) (secs 16) 0 0) (Ok true) c4).
  destruct two_led_steps as [H1 H2].
  exists c5, leader_one, (mkNode true None (secs 16) (secs 16) 1).
  split; [|repeat split; reflexivity].
  eapply (reach_step _ c4); [|by apply step_settle].
  eapply (reach_step _ c3); [|by apply step_renew].
  eapply (reach_step _ two_led); [|apply step_time; done].
  eapply reach_step; [|exact H2]. eapply reach_step; [|exact H1].
  apply reach_init, two_initial.
Qed.

(** Who may take the lease: exactly the holder itself, anyone when there is no
    row, and anyone once the lease has expired; a refused attempt changes
    nothing and a granted one is what [ha_leader] then reports. *)
Theorem ha_try_acquire_spec (now : Z) (me : Uuid) (ttl_secs : Z) (row : option Lease) :
  0 < ttl_secs <= i32_max ->
  let free := match row with
              | None => True
              | Some l => holder l = me \/ expires_at l < now
              end in
  match ha_try_acquire now me ttl_secs row with
  | (Ok true, row') => free /\ ha_leader now row' = Some (me, now + secs ttl_secs)
  | (Ok false, row') => ~ free /\ row' = row
  | (Err _, _) => False
  end.
Proof.
  intros Httl free. subst free. unfold ha_try_acquire, ha_leader.
  replace (i32_max <? ttl_secs) with false by (symmetry; breflect; lia).
  assert (Hlt : (now <? now + secs ttl_secs) = true) by (unfold secs; breflect; lia).
  destruct row as [l|]; simpl; [|by rewrite Hlt].
  destruct (Z.eqb_spec (holder l) me); simpl; [rewrite Hlt; auto|].
  destruct (Z.ltb_spec (expires_at l) now); simpl; [rewrite Hlt; auto|].
  split; [lia|done].
Qed.
