(* ===== verification/Settings.v ===== *)
(** * Runtime settings (the settings handlers of src/master/src/api/mod.rs, the
    app_settings queries of src/master/src/db/repo.rs)

    The table maps keys to text.  The URL parser and the JSON printer and parser
    are parameters; a failed query is an argument. *)

From S2P Require Import Prelude Strings Json Models Db Api RateLimit.

Abbreviation Settings := (gmap string string) (only parsing).

(** ** The table *)

Definition get_setting (s : Settings) (key : string) : option string := s !! key.

(** A read that fails counts as a missing row. *)
Definition setting_i64 (row : result (option string) db_error) (fallback : Z) : Z :=
  match row with
  | Ok (Some v) => default fallback (parse_i64 (trim v))
  | _ => fallback
  end.

Definition set_setting (s : Settings) (key value : string) : Settings := <[key := value]> s.

(** ** Defaults *)

Definition DEFAULT_RECONCILE_SECS : Z := 30.
Definition DEFAULT_AUDIT_RETENTION : Z := 200.
Definition DEFAULT_RUNTIME_LOG_LIMIT : Z := 200.
Definition DEFAULT_TRAFFIC_HISTORY_DAYS : Z := 180.
Definition DEFAULT_INBOUND_CORE : string := "singbox".
Definition DEFAULT_SUBSCRIPTION_GUARD_MAX_REQUESTS : Z := 120.
Definition DEFAULT_SUBSCRIPTION_GUARD_WINDOW_SECS : Z := 60.
Definition DEFAULT_SUBSCRIPTION_GUARD_BLOCK_SECS : Z := 300.

(** The closure [int] of the two readers. *)
Definition int (s : Settings) (key : string) (fallback : Z) : Z :=
  default fallback (match s !! key with Some v => parse_i64 (trim v) | None => None end).

Definition parse_bool (v : string) : option bool :=
  if String.eqb v "true" then Some true else if String.eqb v "false" then Some false else None.

Definition subscription_guard_config_from_map (s : Settings) : Subscription.SubscriptionLimitConfig :=
  Subscription.mkConfig
    (default true (match s !! "subscription_guard_enabled" with Some v => parse_bool (trim v) | None => None end))
    (clamp 10 10000 (int s "subscription_guard_max_requests" DEFAULT_SUBSCRIPTION_GUARD_MAX_REQUESTS))
    (secs (clamp 10 3600 (int s "subscription_guard_window_secs" DEFAULT_SUBSCRIPTION_GUARD_WINDOW_SECS)))
    (secs (clamp 10 86400 (int s "subscription_guard_block_secs" DEFAULT_SUBSCRIPTION_GUARD_BLOCK_SECS))).

Definition subscription_guard_config (rows : result Settings db_error) : Subscription.SubscriptionLimitConfig :=
  match rows with
  | Ok s => subscription_guard_config_from_map s
  | Err _ => Subscription.default_config
  end.

Definition default_profile : json :=
  obj [("xhttp_mode", JString "packet-up"); ("fingerprint", JString "chrome")].
Definition default_client_profiles : json :=
  obj [("happ-android", default_profile); ("happ-desktop", default_profile);
       ("karing", default_profile); ("generic", default_profile)].

(** ** Normalisation and validation *)

(** What [url::Url] exposes of an address. *)
Record UrlParts := mkUrlParts {
  scheme : string;
  host_str : option string;
  url_username : string;
  url_password : option string;
  url_query : option string;
  url_fragment : option string;
  url_path : string }.

Section Url.
Context (url_parse : string -> option UrlParts).

Definition normalize_subscription_base_url (value : string) : result string api_error :=
  let value := trim value in
  if is_empty value then Ok "" else
  match url_parse value with
  | None => Err (BadRequest "subscription fallback URL is invalid")
  | Some u =>
      if negb (String.eqb (scheme u) "https") || negb (is_some (host_str u))
         || negb (is_empty (url_username u)) || is_some (url_password u)
         || is_some (url_query u) || is_some (url_fragment u) || negb (one_of [""; "/"] (url_path u))
      then Err (BadRequest "subscription fallback URL must be an HTTPS origin without a path")
      else Ok (trim_end_matches "/" value)
  end.
End Url.

Definition profile_names : list string := ["happ-android"; "happ-desktop"; "karing"; "generic"].

Definition validate_client_profile (object : json) (name : string) : result unit api_error :=
  match opt_filter is_object (get name object) with
  | None => Err (BadRequest ("missing client profile '" +:+ name +:+ "'"))
  | Some profile =>
      let? _ := ok_when (one_of ["auto"; "packet-up"; "stream-up"; "stream-one"]
                           (default "auto" (get_str "xhttp_mode" profile)))
                  ("invalid xhttp mode for '" +:+ name +:+ "'") in
      ok_when (one_of ["chrome"; "firefox"; "safari"; "ios"; "android"; "edge"; "360"; "qq"; "random"; "randomized"]
                 (default "qq" (get_str "fingerprint" profile)))
        ("invalid fingerprint for '" +:+ name +:+ "'")
  end.

Definition validate_client_profiles (value : json) : result unit api_error :=
  bail (BadRequest "subscription_client_profiles must be an object") when negb (is_object value) in
  let? _ := try_map (validate_client_profile value) profile_names in
  Ok tt.

(** ** What the panel reads *)

Module SettingsView.
Record SettingsView := mk {
  reconcile_secs : Z;
  auto_push_enabled : bool;
  audit_retention : Z;
  runtime_log_limit : Z;
  traffic_history_days : Z;
  default_inbound_core : string;
  default_subscription_title : string;
  default_subscription_description : string;
  default_subscription_group : string;
  subscription_traffic_policy : string;
  profile_update_interval_hours : Z;
  subscription_fallback_base_url : string;
  subscription_client_profiles : json;
  subscription_support_url : string;
  subscription_guard_enabled : bool;
  subscription_guard_max_requests : Z;
  subscription_guard_window_secs : Z;
  subscription_guard_block_secs : Z;
  anomaly_enabled : bool;
  anomaly_factor_pct : Z;
  anomaly_min_mib : Z;
  anomaly_baseline_hours : Z;
  anomaly_min_history_hours : Z;
  device_limit_enforce : bool;
  preflight_gate : string;
  cdn_rotate_enabled : bool;
  cdn_rotate_margin_pct : Z;
  self_update_enabled : bool;
  (** Read from elsewhere: the limiter, the abuse log, the key cell. *)
  guard_stats : Subscription.SubscriptionLimitStats;
  recent_blocks : Z;
  secret_backend : string;
  secret_encryption_enabled : bool }.
End SettingsView.

Record Surroundings := mkSurroundings {
  limiter_stats : Subscription.SubscriptionLimitStats;
  abuse_recent : Z;
  active_backend : string;
  key_loaded : bool }.

Section Json.
Context (of_text : string -> option json).

(** [get_settings] on the rows read. *)
Definition settings_view (env : Surroundings) (s : Settings) : SettingsView.SettingsView :=
  let text key := default "" (s !! key) in
  let guard := subscription_guard_config_from_map s in
  SettingsView.mk
    (int s "reconcile_secs" DEFAULT_RECONCILE_SECS)
    (negb (int s "auto_push_enabled" 1 =? 0))
    (int s "audit_retention" DEFAULT_AUDIT_RETENTION)
    (int s "runtime_log_limit" DEFAULT_RUNTIME_LOG_LIMIT)
    (clamp 7 3650 (int s "traffic_history_days" DEFAULT_TRAFFIC_HISTORY_DAYS))
    (default DEFAULT_INBOUND_CORE (s !! "default_inbound_core"))
    (text "default_subscription_title")
    (text "default_subscription_description")
    (text "default_subscription_group")
    (default "auto" (opt_filter (one_of ["auto"; "always"; "never"]) (s !! "subscription_traffic_policy")))
    (clamp 1 168 (int s "profile_update_interval_hours" 1))
    (text "subscription_fallback_base_url")
    (default default_client_profiles
       (match s !! "subscription_client_profiles" with Some v => of_text v | None => None end))
    (text "subscription_support_url")
    (Subscription.enabled guard)
    (Subscription.max_requests guard)
    (as_secs (Subscription.window guard))
    (as_secs (Subscription.block guard))
    (negb (int s "anomaly_enabled" 1 =? 0))
    (clamp 150 100000 (int s "anomaly_factor_pct" 500))
    (Z.max 0 (int s "anomaly_min_mib" 5120))
    (clamp 6 720 (int s "anomaly_baseline_hours" 72))
    (clamp 1 240 (int s "anomaly_min_history_hours" 6))
    (negb (int s "device_limit_enforce" 0 =? 0))
    (default "warn" (opt_filter (one_of ["off"; "warn"; "block"]) (trim <$> s !! "preflight_gate")))
    (negb (int s "cdn_rotate_enabled" 0 =? 0))
    (clamp 1 90 (int s "cdn_rotate_margin_pct" 30))
    (negb (int s "self_update_enabled" 0 =? 0))
    (limiter_stats env) (abuse_recent env) (active_backend env) (key_loaded env).

Definition get_settings (env : Surroundings) (rows : result Settings db_error)
    : result SettingsView.SettingsView api_error :=
  let? s := lift_db rows in Ok (settings_view env s).
End Json.

(** ** What the panel writes *)

Module UpdateSettings.
Record UpdateSettings := mk {
  reconcile_secs : option Z;
  auto_push_enabled : option bool;
  audit_retention : option Z;
  runtime_log_limit : option Z;
  traffic_history_days : option Z;
  default_inbound_core : option string;
  default_subscription_title : option string;
  default_subscription_description : option string;
  default_subscription_group : option string;
  subscription_traffic_policy : option string;
  profile_update_interval_hours : option Z;
  subscription_fallback_base_url : option string;
  subscription_client_profiles : option json;
  subscription_support_url : option string;
  subscription_guard_enabled : option bool;
  subscription_guard_max_requests : option Z;
  subscription_guard_window_secs : option Z;
  subscription_guard_block_secs : option Z;
  anomaly_enabled : option bool;
  anomaly_factor_pct : option Z;
  anomaly_min_mib : option Z;
  anomaly_baseline_hours : option Z;
  anomaly_min_history_hours : option Z;
  device_limit_enforce : option bool;
  preflight_gate : option string;
  cdn_rotate_enabled : option bool;
  cdn_rotate_margin_pct : option Z;
  self_update_enabled : option bool }.
End UpdateSettings.

(** The blocks in order.  Each write is its own statement: an error in a later
    block returns without undoing the earlier ones.  [fault] tells which writes
    the database refuses. *)
Fixpoint run_blocks (fault : string -> bool) (l : list (string * option (result string api_error)))
    (s : Settings) : result unit api_error * Settings :=
  match l with
  | [] => (Ok tt, s)
  | (_, None) :: rest => run_blocks fault rest s
  | (_, Some (Err e)) :: _ => (Err e, s)
  | (key, Some (Ok v)) :: rest =>
      if fault key then (Err (Internal key), s) else run_blocks fault rest (set_setting s key v)
  end.

Definition stored (o : option (result string api_error)) : option string :=
  match o with Some (Ok v) => Some v | _ => None end.

Definition written (l : list (string * option (result string api_error))) (key : string) : option string :=
  match list_find (fun b => b.1 = key) l with
  | Some (_, (_, o)) => stored o
  | None => None
  end.

Lemma run_blocks_lookup fault l : forall s s' u,
  NoDup l.*1 -> run_blocks fault l s = (Ok u, s') ->
  forall key, s' !! key = opt_or (written l key) (s !! key).
Proof.
  induction l as [|[k o] l IH]; intros s s' u Hnd Hr key; simpl in Hr; [by injection Hr as _ <-|].
  apply NoDup_cons in Hnd as [Hni Hnd].
  assert (Hk : k = key -> written l key = None).
  { intros ->. unfold written. destruct (list_find _ l) as [[i [k' o']]|] eqn:E; [|done].
    apply list_find_Some in E as (Hi & Hk & _). simpl in Hk. subst k'. destruct Hni.
    apply list_elem_of_fmap. exists (key, o'). split; [done|]. by eapply list_elem_of_lookup_2. }
  assert (Hw : written ((k, o) :: l) key =
               if decide (k = key) then stored o else written l key).
  { unfold written. simpl. destruct (decide (k = key)); [done|].
    by destruct (list_find _ l) as [[? [? ?]]|]. }
  rewrite Hw. destruct o as [[v|e]|]; [|done|].
  - destruct (fault k); [done|]. rewrite (IH _ _ _ Hnd Hr). unfold set_setting.
    destruct (decide (k = key)) as [->|Hne]; [by rewrite Hk, lookup_insert_eq|by rewrite lookup_insert_ne].
  - rewrite (IH _ _ _ Hnd Hr). destruct (decide (k = key)) as [->|Hne]; [by rewrite Hk|done].
Qed.

Lemma run_blocks_accepted fault l : forall s s' u key o,
  run_blocks fault l s = (Ok u, s') -> In (key, Some o) l -> exists v, o = Ok v.
Proof.
  induction l as [|[k [[v|e]|]] l IH]; intros s s' u key o Hr Hin; simpl in Hr; try done.
  - destruct (fault k); [done|]. destruct Hin as [[= _ <-]|Hin]; eauto.
  - destruct Hin as [[=]|Hin]; eauto.
Qed.

Lemma run_blocks_keys fault l : forall s key,
  ~ In key l.*1 -> (run_blocks fault l s).2 !! key = s !! key.
Proof.
  induction l as [|[k [[v|e]|]] l IH]; intros s key Hn; simpl in *; try done.
  - destruct (fault k); [done|]. rewrite IH by tauto. apply lookup_insert_ne. tauto.
  - apply IH. tauto.
Qed.

Section Update.
Context (url_parse : string -> option UrlParts).
Context (to_text : json -> option string) (of_text : string -> option json).

Definition flag01 (b : bool) : string := if b then "1" else "0".
Definition bool_text (b : bool) : string := if b then "true" else "false".

Definition clamped (lo hi v : Z) : result string api_error := Ok (show (clamp lo hi v)).

(** One [if let Some(v) = input.field] block: the key it writes and, when the
    field is given, the text it stores or the error it returns with. *)
Definition block {A} (key : string) (f : A -> result string api_error) (field : option A)
    : string * option (result string api_error) := (key, f <$> field).

Definition check_core (v : string) : result string api_error :=
  let? _ := ok_when (one_of ["singbox"; "xray"] v) "core must be singbox or xray" in Ok v.
Definition check_title (v : string) : result string api_error :=
  let? _ := (if is_empty (trim v) then Ok tt else validate_subscription_title (Some (trim v))) in
  Ok (trim v).
Definition check_description (v : string) : result string api_error :=
  let? _ := ok_when (char_count (trim v) <=? 200)
              "default_subscription_description must be at most 200 characters" in
  Ok (trim v).
Definition check_group (v : string) : result string api_error :=
  let? _ := validate_subscription_group (if is_empty (trim v) then None else Some (trim v)) in
  Ok (trim v).
Definition check_policy (v : string) : result string api_error :=
  let? _ := validate_traffic_policy v false in Ok v.
Definition check_profiles (v : json) : result string api_error :=
  let? _ := validate_client_profiles v in
  match to_text v with Some t => Ok t | None => Err (BadRequest "invalid client profiles") end.
Definition check_support_url (v : string) : result string api_error :=
  let v := trim v in
  let? _ := ok_when (is_empty v || starts_with "https://" v || starts_with "tg://" v)
              "subscription_support_url must use https:// or tg://" in
  Ok v.
Definition check_gate (v : string) : result string api_error :=
  let? _ := ok_when (one_of ["off"; "warn"; "block"] (trim v)) "preflight_gate must be off, warn or block" in
  Ok (trim v).

Definition blocks (i : UpdateSettings.UpdateSettings) : list (string * option (result string api_error)) :=
  let flag b := Ok (flag01 b) in
  [ block "reconcile_secs" (clamped 5 86400) (UpdateSettings.reconcile_secs i);
    block "auto_push_enabled" flag (UpdateSettings.auto_push_enabled i);
    block "audit_retention" (clamped 10 5000) (UpdateSettings.audit_retention i);
    block "runtime_log_limit" (clamped 10 5000) (UpdateSettings.runtime_log_limit i);
    block "traffic_history_days" (clamped 7 3650) (UpdateSettings.traffic_history_days i);
    block "default_inbound_core" check_core (UpdateSettings.default_inbound_core i);
    block "default_subscription_title" check_title (UpdateSettings.default_subscription_title i);
    block "default_subscription_description" check_description
      (UpdateSettings.default_subscription_description i);
    block "default_subscription_group" check_group (UpdateSettings.default_subscription_group i);
    block "subscription_traffic_policy" check_policy (UpdateSettings.subscription_traffic_policy i);
    block "profile_update_interval_hours" (clamped 1 168) (UpdateSettings.profile_update_interval_hours i);
    block "subscription_fallback_base_url" (normalize_subscription_base_url url_parse)
      (UpdateSettings.subscription_fallback_base_url i);
    block "subscription_client_profiles" check_profiles (UpdateSettings.subscription_client_profiles i);
    block "subscription_support_url" check_support_url (UpdateSettings.subscription_support_url i);
    block "subscription_guard_enabled" (fun b => Ok (bool_text b)) (UpdateSettings.subscription_guard_enabled i);
    block "subscription_guard_max_requests" (clamped 10 10000)
      (UpdateSettings.subscription_guard_max_requests i);
    block "subscription_guard_window_secs" (clamped 10 3600) (UpdateSettings.subscription_guard_window_secs i);
    block "subscription_guard_block_secs" (clamped 10 86400) (UpdateSettings.subscription_guard_block_secs i);
    block "anomaly_enabled" flag (UpdateSettings.anomaly_enabled i);
    block "anomaly_factor_pct" (clamped 150 100000) (UpdateSettings.anomaly_factor_pct i);
    block "anomaly_min_mib" (clamped 0 10485760) (UpdateSettings.anomaly_min_mib i);
    block "anomaly_baseline_hours" (clamped 6 720) (UpdateSettings.anomaly_baseline_hours i);
    block "anomaly_min_history_hours" (clamped 1 240) (UpdateSettings.anomaly_min_history_hours i);
    block "device_limit_enforce" flag (UpdateSettings.device_limit_enforce i);
    block "preflight_gate" check_gate (UpdateSettings.preflight_gate i);
    block "cdn_rotate_enabled" flag (UpdateSettings.cdn_rotate_enabled i);
    block "cdn_rotate_margin_pct" (clamped 1 90) (UpdateSettings.cdn_rotate_margin_pct i);
    block "self_update_enabled" flag (UpdateSettings.self_update_enabled i) ].

(** The response re-reads the rows, with [reread] telling whether that works.
    The last component is whether the change reached the audit log. *)
Definition update_settings (fault : string -> bool) (reread : option db_error) (env : Surroundings)
    (input : UpdateSettings.UpdateSettings) (s : Settings)
    : result SettingsView.SettingsView api_error * Settings * bool :=
  match run_blocks fault (blocks input) s with
  | (Err e, s') => (Err e, s', false)
  | (Ok _, s') =>
      (get_settings of_text env (match reread with Some e => Err e | None => Ok s' end), s', true)
  end.

(** ** Properties *)

(** What one block does to the reading of its field. *)
Section Field.
Context (s s' : Settings) (key : string).

Lemma int_field lo hi d (field : option Z) :
  s' !! key = opt_or (stored (clamped lo hi <$> field)) (s !! key) ->
  i64_min <= lo <= hi -> hi <= i64_max ->
  int s' key d = from_option (clamp lo hi) (int s key d) field.
Proof.
  unfold int. intros -> Hlo Hhi. destruct field as [v|]; [|done]. simpl.
  rewrite parse_trim_show; [done|]. unfold clamp. lia.
Qed.

Lemma flag_field d (field : option bool) :
  s' !! key = opt_or (stored ((fun b => Ok (flag01 b)) <$> field)) (s !! key) ->
  negb (int s' key d =? 0) = from_option (fun b => b) (negb (int s key d =? 0)) field.
Proof. unfold int. intros ->. by destruct field as [[]|]. Qed.

End Field.

(** The settings a request asks for, over those already in force. *)
Definition overlay (i : UpdateSettings.UpdateSettings) (w : SettingsView.SettingsView)
    : SettingsView.SettingsView :=
  let id b := b in
  let number lo hi (field : option Z) (old : Z) := from_option (clamp lo hi) old field in
  let flag (field : option bool) (old : bool) := from_option id old field in
  SettingsView.mk
    (number 5 86400 (UpdateSettings.reconcile_secs i) (SettingsView.reconcile_secs w))
    (flag (UpdateSettings.auto_push_enabled i) (SettingsView.auto_push_enabled w))
    (number 10 5000 (UpdateSettings.audit_retention i) (SettingsView.audit_retention w))
    (number 10 5000 (UpdateSettings.runtime_log_limit i) (SettingsView.runtime_log_limit w))
    (number 7 3650 (UpdateSettings.traffic_history_days i) (SettingsView.traffic_history_days w))
    (default (SettingsView.default_inbound_core w) (UpdateSettings.default_inbound_core i))
    (from_option trim (SettingsView.default_subscription_title w) (UpdateSettings.default_subscription_title i))
    (from_option trim (SettingsView.default_subscription_description w)
       (UpdateSettings.default_subscription_description i))
    (from_option trim (SettingsView.default_subscription_group w) (UpdateSettings.default_subscription_group i))
    (default (SettingsView.subscription_traffic_policy w) (UpdateSettings.subscription_traffic_policy i))
    (number 1 168 (UpdateSettings.profile_update_interval_hours i)
       (SettingsView.profile_update_interval_hours w))
    (from_option (fun v => match normalize_subscription_base_url url_parse v with Ok t => t | Err _ => "" end)
       (SettingsView.subscription_fallback_base_url w) (UpdateSettings.subscription_fallback_base_url i))
    (default (SettingsView.subscription_client_profiles w) (UpdateSettings.subscription_client_profiles i))
    (from_option trim (SettingsView.subscription_support_url w) (UpdateSettings.subscription_support_url i))
    (flag (UpdateSettings.subscription_guard_enabled i) (SettingsView.subscription_guard_enabled w))
    (number 10 10000 (UpdateSettings.subscription_guard_max_requests i)
       (SettingsView.subscription_guard_max_requests w))
    (number 10 3600 (UpdateSettings.subscription_guard_window_secs i)
       (SettingsView.subscription_guard_window_secs w))
    (number 10 86400 (UpdateSettings.subscription_guard_block_secs i)
       (SettingsView.subscription_guard_block_secs w))
    (flag (UpdateSettings.anomaly_enabled i) (SettingsView.anomaly_enabled w))
    (number 150 100000 (UpdateSettings.anomaly_factor_pct i) (SettingsView.anomaly_factor_pct w))
    (number 0 10485760 (UpdateSettings.anomaly_min_mib i) (SettingsView.anomaly_min_mib w))
    (number 6 720 (UpdateSettings.anomaly_baseline_hours i) (SettingsView.anomaly_baseline_hours w))
    (number 1 240 (UpdateSettings.anomaly_min_history_hours i) (SettingsView.anomaly_min_history_hours w))
    (flag (UpdateSettings.device_limit_enforce i) (SettingsView.device_limit_enforce w))
    (from_option trim (SettingsView.preflight_gate w) (UpdateSettings.preflight_gate i))
    (flag (UpdateSettings.cdn_rotate_enabled i) (SettingsView.cdn_rotate_enabled w))
    (number 1 90 (UpdateSettings.cdn_rotate_margin_pct i) (SettingsView.cdn_rotate_margin_pct w))
    (flag (UpdateSettings.self_update_enabled i) (SettingsView.self_update_enabled w))
    (SettingsView.guard_stats w) (SettingsView.recent_blocks w)
    (SettingsView.secret_backend w) (SettingsView.secret_encryption_enabled w).

Lemma clamp_clamp lo hi v : lo <= hi -> clamp lo hi (clamp lo hi v) = clamp lo hi v.
Proof. unfold clamp. lia. Qed.

Lemma bounded_field (s s' : Settings) key lo hi d (field : option Z) :
  s' !! key = opt_or (stored (clamped lo hi <$> field)) (s !! key) ->
  i64_min <= lo <= hi -> hi <= i64_max ->
  clamp lo hi (int s' key d) = from_option (clamp lo hi) (clamp lo hi (int s key d)) field.
Proof.
  intros Hl Hlo Hhi. rewrite (int_field s s' key lo hi d field Hl Hlo Hhi).
  destruct field as [v|]; [|done]. apply clamp_clamp. lia.
Qed.

Lemma as_secs_secs n : as_secs (secs n) = n.
Proof. unfold as_secs, secs. apply Z.div_mul. lia. Qed.

Lemma blocks_nodup i : NoDup (blocks i).*1.
Proof. apply (bool_decide_unpack _). by vm_compute. Qed.

(** Any reading of a row. *)
Lemma reading_field {A B} fault i (s s' : Settings) u key (f : A -> result string api_error) (g : A -> B)
    (read : option string -> B) (field : option A) :
  s' !! key = opt_or (stored (f <$> field)) (s !! key) ->
  run_blocks fault (blocks i) s = (Ok u, s') -> In (block key f field) (blocks i) ->
  (forall v t, field = Some v -> f v = Ok t -> read (Some t) = g v) ->
  read (s' !! key) = from_option g (read (s !! key)) field.
Proof.
  intros -> Hr Hin Hg. destruct field as [v|]; [|done].
  destruct (run_blocks_accepted _ _ _ _ _ _ _ Hr Hin) as [t Ht]. simpl. rewrite Ht. simpl. by apply Hg.
Qed.

(** What the checks store. *)
Ltac check_tac := intros v t; repeat (case_match; try done); intros; by simplify_eq.
Lemma check_core_ok v t : check_core v = Ok t -> t = v.
Proof. unfold check_core, ok_when. revert v t. check_tac. Qed.
Lemma check_title_ok v t : check_title v = Ok t -> t = trim v.
Proof. unfold check_title. revert v t. check_tac. Qed.
Lemma check_description_ok v t : check_description v = Ok t -> t = trim v.
Proof. unfold check_description. revert v t. check_tac. Qed.
Lemma check_group_ok v t : check_group v = Ok t -> t = trim v.
Proof. unfold check_group. revert v t. check_tac. Qed.
Lemma check_policy_ok v t : check_policy v = Ok t -> t = v /\ one_of ["auto"; "always"; "never"] v = true.
Proof.
  unfold check_policy, validate_traffic_policy, ok_when. rewrite orb_false_r.
  destruct (one_of _ v) eqn:E; [|done]. by intros [= <-].
Qed.
Lemma check_support_url_ok v t : check_support_url v = Ok t -> t = trim v.
Proof. unfold check_support_url, ok_when. revert v t. check_tac. Qed.
Lemma check_gate_ok v t :
  check_gate v = Ok t -> t = trim v /\ one_of ["off"; "warn"; "block"] (trim v) = true /\ trim (trim v) = trim v.
Proof.
  unfold check_gate, ok_when. destruct (one_of _ (trim v)) eqn:E; [|done]. intros [= <-].
  split; [done|]. split; [done|]. unfold one_of in E. simpl in E. rewrite !orb_true_iff, !String.eqb_eq in E.
  by destruct E as [->|[->|[->|E]]].
Qed.
Lemma check_profiles_ok v t : check_profiles v = Ok t -> to_text v = Some t.
Proof. unfold check_profiles. repeat (case_match; try done). intros; by simplify_eq. Qed.

(** The steps for a field read as a number, a flag or a text. *)
Ltac number_field Hl :=
  (apply bounded_field || apply int_field); [exact (Hl _)|split; done|done].
Ltac flag_of Hl := apply flag_field; exact (Hl _).
Ltac reading Hl Hr r :=
  eapply (reading_field _ _ _ _ _ _ _ _ r); [exact (Hl _)|exact Hr|simpl; tauto|].

Lemma run_blocks_view fault env input s s' u :
  (forall v t, UpdateSettings.subscription_client_profiles input = Some v -> to_text v = Some t ->
     of_text t = Some v) ->
  run_blocks fault (blocks input) s = (Ok u, s') ->
  settings_view of_text env s' = overlay input (settings_view of_text env s).
Proof.
  intros Hj Hr.
  pose proof (run_blocks_lookup fault _ s s' u (blocks_nodup input) Hr) as Hl.
  unfold overlay, settings_view, subscription_guard_config_from_map.
  cbn [Subscription.enabled Subscription.max_requests Subscription.window Subscription.block].
  rewrite !as_secs_secs. f_equal.
  all: try number_field Hl.
  all: try flag_of Hl.
  - reading Hl Hr (fun o => default DEFAULT_INBOUND_CORE o). intros v t _. apply check_core_ok.
  - reading Hl Hr (fun o => default "" o). intros v t _. apply check_title_ok.
  - reading Hl Hr (fun o => default "" o). intros v t _. apply check_description_ok.
  - reading Hl Hr (fun o => default "" o). intros v t _. apply check_group_ok.
  - reading Hl Hr (fun o => default "auto" (opt_filter (one_of ["auto"; "always"; "never"]) o)).
    intros v t _ [-> Hp]%check_policy_ok. cbn [opt_filter]. by rewrite Hp.
  - reading Hl Hr (fun o => default "" o). intros v t _ Ht. by rewrite Ht.
  - reading Hl Hr (fun o => default default_client_profiles (match o with Some v => of_text v | None => None end)).
    intros v t Hv Ht%check_profiles_ok. by rewrite (Hj v t Hv Ht).
  - reading Hl Hr (fun o => default "" o). intros v t _. apply check_support_url_ok.
  - reading Hl Hr (fun o => default true (match o with Some v => parse_bool (trim v) | None => None end)).
    by intros [] t _ [= <-].
  - rewrite (int_field s s' "anomaly_min_mib" 0 10485760 _ _ (Hl _)); [|split; done|done].
    destruct (UpdateSettings.anomaly_min_mib input) as [v|]; [|done]. simpl. unfold clamp. lia.
  - reading Hl Hr (fun o => default "warn" (opt_filter (one_of ["off"; "warn"; "block"]) (trim <$> o))).
    intros v t _ (-> & Hp & Ht)%check_gate_ok. cbn [fmap option_fmap option_map opt_filter]. by rewrite Ht, Hp.
Qed.

End Update.

(** Settings round trip.  When a request is accepted, the panel shows exactly
    the values asked for, clamped to their ranges, over the values in force
    before, the table holds what is shown, the change is audited, and no row of
    another key is touched. *)
Theorem settings_roundtrip (url_parse : string -> option UrlParts) (to_text : json -> option string)
    (of_text : string -> option json) (fault : string -> bool) (env : Surroundings)
    (input : UpdateSettings.UpdateSettings) (s s' : Settings) (view : SettingsView.SettingsView) (audited : bool) :
  (forall v t, UpdateSettings.subscription_client_profiles input = Some v -> to_text v = Some t ->
     of_text t = Some v) ->
  update_settings url_parse to_text of_text fault None env input s = (Ok view, s', audited) ->
  view = overlay url_parse input (settings_view of_text env s) /\
  get_settings of_text env (Ok s') = Ok view /\ audited = true /\
  forall key, ~ In key (blocks url_parse to_text input).*1 -> s' !! key = s !! key.
Proof.
  intros Hj. unfold update_settings.
  destruct (run_blocks fault (blocks url_parse to_text input) s) as [[[]|e] s1] eqn:Er; [|done].
  cbn [get_settings lift_db lift]. intros [= <- <- <-].
  split; [by eapply run_blocks_view|]. split; [done|]. split; [done|]. intros key Hk.
  pose proof (run_blocks_keys fault _ s key Hk) as Hl. by rewrite Er in Hl.
Qed.

(** A refused settings request is neither atomic nor audited.  The fields
    before the first refused one are already in force when the error returns, the
    ones after it are not, and no audit record is written. *)
Theorem settings_refusal_keeps_prefix (url_parse : string -> option UrlParts) (to_text : json -> option string)
    (of_text : string -> option json) (reread : option db_error) (env : Surroundings)
    (input : UpdateSettings.UpdateSettings) (s : Settings) (e : api_error)
    (pre post : list (string * option (result string api_error))) (key : string) :
  blocks url_parse to_text input = pre ++ (key, Some (Err e)) :: post ->
  Forall (fun b => forall x, b.2 <> Some (Err x)) pre ->
  let '(answer, s', audited) := update_settings url_parse to_text of_text (fun _ => false) reread env input s in
  answer = Err e /\ audited = false /\ s' = (run_blocks (fun _ => false) pre s).2.
Proof.
  intros Hb Hpre. unfold update_settings. rewrite Hb. clear Hb. revert s.
  induction Hpre as [|[k [[v|x]|]] pre Hx _ IH]; intros s; simpl in *; [done|apply IH|by destruct (Hx x)|apply IH].
Qed.

(** ** Witnesses *)

Definition no_env : Surroundings := mkSurroundings (Subscription.mkStats 0 0 0 None) 0 "none" false.

(** A request that turns the automatic push off and names a core. *)
Definition push_off (core : option string) : UpdateSettings.UpdateSettings :=
  UpdateSettings.mk (Some 1) (Some false) None None None core None None None None None None None None None None
    None None None None None None None None None None None None.

Definition no_url (_ : string) : option UrlParts := None.
Definition no_text (_ : json) : option string := None.
Definition no_json (_ : string) : option json := None.
Definition before : Settings := {["x" := "y"]}.
Definition after (core : string) : Settings :=
  (run_blocks (fun _ => false) (blocks no_url no_text (push_off (Some core))) before).2.

Definition update_to (core : string) : result SettingsView.SettingsView api_error * Settings * bool :=
  update_settings no_url no_text no_json (fun _ => false) None no_env (push_off (Some core)) before.

Lemma settings_roundtrip_witness :
  let view := settings_view no_json no_env (after "xray") in
  update_to "xray" = (Ok view, after "xray", true) /\
  SettingsView.reconcile_secs view = 5 /\ SettingsView.auto_push_enabled view = false /\
  SettingsView.default_inbound_core view = "xray" /\ after "xray" !! "x" = Some "y".
Proof.
  intros view. assert (E : update_to "xray" = (Ok view, after "xray", true)) by reflexivity.
  destruct (settings_roundtrip no_url no_text no_json (fun _ => false) no_env (push_off (Some "xray")) before
    (after "xray") view true (fun v t H => ltac:(discriminate H)) E) as (Hv & _ & _ & Hk).
  split; [exact E|]. rewrite Hv. split; [reflexivity|]. split; [reflexivity|]. split; [reflexivity|].
  rewrite (Hk "x"); [reflexivity|]. cbn. intuition discriminate.
Defined.

Lemma settings_refusal_keeps_prefix_witness :
  (update_to "v2ray").1.1 = Err (BadRequest "core must be singbox or xray") /\
  (update_to "v2ray").2 = false /\ (update_to "v2ray").1.2 !! "auto_push_enabled" = Some "0".
Proof.
  pose proof (settings_refusal_keeps_prefix no_url no_text no_json None no_env
    (push_off (Some "v2ray")) before (BadRequest "core must be singbox or xray")
    (take 5 (blocks no_url no_text (push_off (Some "v2ray"))))
    (drop 6 (blocks no_url no_text (push_off (Some "v2ray")))) "default_inbound_core" eq_refl) as H.
  fold (update_to "v2ray") in H. destruct (update_to "v2ray") as [[answer s'] audited].
  destruct H as (-> & -> & ->); [repeat constructor; intros x; done|].
  split; [reflexivity|]. split; [reflexivity|]. vm_compute. reflexivity.
Defined.
