(* ===== verification/LogBuf.v ===== *)
(** * The log ring buffer (src/master/src/logbuf.rs) and the panel's log query
    (system_logs of src/master/src/api/mod.rs)

    The ring holds the oldest record first.  A tracing event carries its target,
    level, the ids of the spans it runs in from the root, and its fields as the
    visitor sees them; [FDebug] holds the [Debug] rendering of a value. *)

From S2P Require Import Prelude Strings Json Models Db Api Settings.

Definition CAPACITY : nat := 500.
(** [env!("CARGO_CRATE_NAME")] of the master binary. *)
Definition CRATE_NAME : string := "honey_master".

Record LogRecord := mkRecord {
  ts : Z;
  level : string;
  log_code : option string;
  target : string;
  message : string;
  fields : string }.

(** ** Searching *)

Definition matches_filter (record : LogRecord) (lvl code query : option string) : bool :=
  if is_some_and lvl (fun v => negb (String.eqb (level record) v)) then false
  else if is_some_and code (fun v => negb (bool_decide (log_code record = Some v))) then false
  else match query with
       | None => true
       | Some v =>
           let v := to_ascii_lowercase v in
           contains v (to_ascii_lowercase
             (level record +:+ " " +:+ default "" (log_code record) +:+ " " +:+ target record
              +:+ " " +:+ message record))
           || contains v (to_ascii_lowercase (fields record))
       end.

Definition search (limit : nat) (lvl code query : option string) (ring : list LogRecord) : list LogRecord :=
  take (limit `min` CAPACITY) (List.filter (fun r => matches_filter r lvl code query) (List.rev ring)).

Definition push (record : LogRecord) (ring : list LogRecord) : list LogRecord :=
  (if decide (length ring = CAPACITY) then tail ring else ring) ++ [record].

(** ** Capturing events *)

Inductive FieldValue :=
| FStr (s : string)
| FDebug (rendered : string).

Record Collector := mkCollector {
  c_message : string;
  c_code : option string;
  c_extra : list string }.
Definition empty_collector : Collector := mkCollector "" None [].

Definition record_str (name value : string) (c : Collector) : Collector :=
  if String.eqb name "message" then mkCollector value (c_code c) (c_extra c)
  else if String.eqb name "code" then mkCollector (c_message c) (Some value) (c_extra c)
  else mkCollector (c_message c) (c_code c) (c_extra c ++ [name +:+ "=" +:+ value]).

Definition quote : ascii := Ascii.ascii_of_nat 34.

Definition record_debug (name value : string) (c : Collector) : Collector :=
  if String.eqb name "message" then mkCollector value (c_code c) (c_extra c)
  else if String.eqb name "code" then mkCollector (c_message c) (Some (trim_matches quote value)) (c_extra c)
  else mkCollector (c_message c) (c_code c) (c_extra c ++ [name +:+ "=" +:+ value]).

Definition visit (c : Collector) (f : string * FieldValue) : Collector :=
  match f.2 with FStr s => record_str f.1 s c | FDebug s => record_debug f.1 s c end.

Definition collect_fields (fs : list (string * FieldValue)) : Collector := fold_left visit fs empty_collector.

(** The fields attached to each live span. *)
Abbreviation Spans := (gmap Z (list string)) (only parsing).

Definition on_new_span (id : Z) (attributes : list (string * FieldValue)) (spans : Spans) : Spans :=
  <[id := c_extra (collect_fields attributes)]> spans.

Record Event := mkEvent {
  e_ts : Z;
  e_target : string;
  e_level : string;
  e_scope : list Z;
  e_fields : list (string * FieldValue) }.

Definition captured (e : Event) : bool := starts_with CRATE_NAME (e_target e).

Definition record_of (spans : Spans) (e : Event) : LogRecord :=
  let visitor := collect_fields (e_fields e) in
  let scoped := List.concat (omap (fun id => spans !! id) (e_scope e)) in
  mkRecord (e_ts e) (to_ascii_lowercase (e_level e)) (c_code visitor) (e_target e) (c_message visitor)
    (join " " (scoped ++ c_extra visitor)).

Definition on_event (spans : Spans) (e : Event) (ring : list LogRecord) : list LogRecord :=
  if captured e then push (record_of spans e) ring else ring.

(** What the subscriber reports, in order. *)
Inductive signal :=
| NewSpan (id : Z) (attributes : list (string * FieldValue))
| Emit (e : Event).

Record LogState := mkLog { spans : Spans; ring : list LogRecord }.
Definition empty_log : LogState := mkLog ∅ [].

Definition observe (st : LogState) (x : signal) : LogState :=
  match x with
  | NewSpan id attributes => mkLog (on_new_span id attributes (spans st)) (ring st)
  | Emit e => mkLog (spans st) (on_event (spans st) e (ring st))
  end.
Definition observe_all (st : LogState) (xs : list signal) : LogState := fold_left observe xs st.

(** ** The panel's query *)

Record LogQuery := mkQuery {
  q_limit : option nat;
  q_level : option string;
  q_code : option string;
  q_query : option string }.

Definition is_log_code (value : string) : bool :=
  match chars (trim value) with
  | "M" :: rest => (length rest =? 4)%nat && forallb (fun ch => all_bytes is_digit ch) rest
  | _ => false
  end.

Definition validate_log_query (q : LogQuery) : result unit api_error :=
  bail (BadRequest "unsupported log level")
    when is_some_and (q_level q) (fun v => negb (one_of ["error"; "warn"; "info"; "debug"; "trace"] v)) in
  bail (BadRequest "invalid log code filter") when is_some_and (q_code q) (fun v => negb (is_log_code v)) in
  bail (BadRequest "log search is too long") when is_some_and (q_query q) (fun v => 128 <? len (trim v)) in
  Ok tt.

Definition nonblank (o : option string) : option string :=
  opt_filter (fun v => negb (is_empty v)) (trim <$> o).

Definition system_logs (row : result (option string) db_error) (q : LogQuery) (r : list LogRecord)
    : result (list LogRecord) api_error :=
  let? _ := validate_log_query q in
  let fallback := setting_i64 row DEFAULT_RUNTIME_LOG_LIMIT in
  let limit := default (Z.to_nat (clamp 10 5000 fallback)) (q_limit q) in
  Ok (search limit (q_level q) (nonblank (q_code q)) (nonblank (q_query q)) r).

(** ** The abstract log

    Every record captured so far, oldest first; a query looks at the newest
    [CAPACITY] of them. *)

Fixpoint history (sp : Spans) (xs : list signal) : list LogRecord :=
  match xs with
  | [] => []
  | NewSpan id attributes :: rest => history (on_new_span id attributes sp) rest
  | Emit e :: rest => (if captured e then [record_of sp e] else []) ++ history sp rest
  end.

Definition history_search (limit : nat) (lvl code query : option string) (log : list LogRecord) : list LogRecord :=
  take (limit `min` CAPACITY)
    (List.filter (fun r => matches_filter r lvl code query) (take CAPACITY (List.rev log))).

(** The simulation relation: the ring is the end of the log. *)
Definition keep (log : list LogRecord) : list LogRecord := drop (length log - CAPACITY) log.

Lemma push_keep r log : push r (keep log) = keep (log ++ [r]).
Proof.
  unfold push, keep. rewrite length_drop, length_app. cbn [length].
  case_decide as Hd; unfold CAPACITY in *.
  - assert (Ht : forall l : list LogRecord, tail l = drop 1 l) by (by intros []). rewrite Ht, drop_drop, drop_app_le by lia. do 2 f_equal. lia.
  - rewrite drop_app_le by lia. do 2 f_equal. lia.
Qed.

Lemma observe_keep xs : forall st log,
  ring st = keep log ->
  ring (observe_all st xs) = keep (log ++ history (spans st) xs).
Proof.
  induction xs as [|[id attributes|e] xs IH]; intros st log Hr; simpl.
  - by rewrite app_nil_r.
  - by rewrite (IH _ log).
  - unfold on_event. destruct (captured e); simpl.
    + rewrite (IH _ (log ++ [record_of (spans st) e])); [by rewrite <- app_assoc|].
      simpl. by rewrite Hr, push_keep.
    + by rewrite (IH _ log).
Qed.

Lemma rev_keep log : List.rev (keep log) = take CAPACITY (List.rev log).
Proof. unfold keep. by rewrite <- firstn_rev. Qed.

(** The ring buffer refines the full log.  Whatever the master logs, a search
    of the ring answers what a search of the newest 500 captured records of the
    complete log answers, newest first and filtered before the limit, and the
    ring never holds more than 500. *)
Theorem ring_refines_history (xs : list signal) (limit : nat) (lvl code query : option string) :
  search limit lvl code query (ring (observe_all empty_log xs))
    = history_search limit lvl code query (history ∅ xs) /\
  (length (ring (observe_all empty_log xs)) <= CAPACITY)%nat.
Proof.
  rewrite (observe_keep xs empty_log []) by done. simpl. split.
  - unfold search, history_search. by rewrite rev_keep.
  - unfold keep. rewrite length_drop. lia.
Qed.

(** ** Correlated records *)

Lemma contains_app a n b : contains n (a +:+ n +:+ b) = true.
Proof.
  induction a as [|c a IH]; [|simpl; by rewrite IH, orb_true_r].
  change ("" +:+ n +:+ b) with (n +:+ b).
  pose proof (starts_with_app n b) as Hs. destruct (n +:+ b); cbn [contains]; by rewrite Hs.
Qed.

Lemma join_in sep l f : In f l -> exists a b, join sep l = a +:+ f +:+ b.
Proof.
  induction l as [|x [|y l] IH]; [done| |].
  - intros [<-|[]]. exists "", "". by rewrite append_nil_r.
  - change (join sep (x :: y :: l)) with (x +:+ sep +:+ join sep (y :: l)). intros [<-|Hin].
    + by exists "", (sep +:+ join sep (y :: l)).
    + destruct (IH Hin) as (a & b & ->). exists (x +:+ sep +:+ a), b. by rewrite !append_assoc.
Qed.

Lemma lowercase_app a b : to_ascii_lowercase (a +:+ b) = to_ascii_lowercase a +:+ to_ascii_lowercase b.
Proof. unfold to_ascii_lowercase. induction a as [|c a IH]; simpl; [done|by rewrite IH]. Qed.

Lemma field_searchable r fs f :
  fields r = join " " fs -> In f fs -> matches_filter r None None (Some f) = true.
Proof.
  intros Hf Hin. unfold matches_filter. simpl. rewrite Hf.
  destruct (join_in " " fs f Hin) as (a & b & ->). by rewrite !lowercase_app, contains_app, orb_true_r.
Qed.

Lemma visit_extra name value fs : forall c,
  name <> "message" -> name <> "code" ->
  In (name +:+ "=" +:+ value) (c_extra c) \/ In (name, FStr value) fs ->
  In (name +:+ "=" +:+ value) (c_extra (fold_left visit fs c)).
Proof.
  induction fs as [|[n v] fs IH]; intros c Hm Hc Hin; cbn [fold_left]; [by destruct Hin|].
  apply IH; [done..|].
  assert (Hk : In (name +:+ "=" +:+ value) (c_extra c) -> In (name +:+ "=" +:+ value) (c_extra (visit c (n, v)))).
  { intros H. unfold visit, record_str, record_debug. cbn [fst snd].
    destruct v, (String.eqb n "message"), (String.eqb n "code"); cbn [c_extra]; auto using in_or_app. }
  destruct Hin as [Hin|[[= -> ->]|Hin]]; [auto| |auto].
  left. unfold visit, record_str. apply String.eqb_neq in Hm, Hc. cbn [fst snd]. rewrite Hm, Hc. cbn [c_extra].
  apply in_app_iff. right. by left.
Qed.

Lemma observe_app st xs ys : observe_all st (xs ++ ys) = observe_all (observe_all st xs) ys.
Proof. apply fold_left_app. Qed.

(** Correlated records are found.  A record emitted inside a span that carries
    a field, such as the request id of an HTTP request, is returned by a full
    search for that field as long as fewer than 500 records were captured after
    it. *)
Theorem correlated_event_found (earlier later : list signal) (e : Event) (id : Z)
    (attributes : list (string * FieldValue)) (name value : string) (limit : nat) :
  let st := observe_all empty_log earlier in
  captured e = true -> In id (e_scope e) ->
  spans st !! id = Some (c_extra (collect_fields attributes)) ->
  In (name, FStr value) attributes -> name <> "message" -> name <> "code" ->
  (length (history (spans st) later) < CAPACITY)%nat -> (CAPACITY <= limit)%nat ->
  In (record_of (spans st) e)
    (search limit None None (Some (name +:+ "=" +:+ value))
       (ring (observe_all empty_log (earlier ++ Emit e :: later)))).
Proof.
  intros st Hc Hid Hsp Hin Hm Hcode Hlater Hlim.
  assert (Hmatch : matches_filter (record_of (spans st) e) None None (Some (name +:+ "=" +:+ value)) = true).
  { eapply field_searchable; [done|]. apply in_app_iff. left. apply in_concat.
    exists (c_extra (collect_fields attributes)). split; [|apply visit_extra; auto].
    apply list_elem_of_In, list_elem_of_omap. exists id. split; [by apply list_elem_of_In|done]. }
  assert (Hr : ring st = keep (history ∅ earlier)) by (unfold st; by rewrite (observe_keep earlier empty_log [])).
  rewrite observe_app. fold st. rewrite (observe_keep _ st _ Hr). unfold search. rewrite rev_keep.
  cbn [history]. rewrite Hc, Nat.min_r by done.
  rewrite take_ge.
  - apply List.filter_In. split; [|done]. rewrite !rev_app_distr, <- !app_assoc, take_app_ge.
    + apply in_app_iff. right. rewrite length_rev.
      destruct (CAPACITY - length (history (spans st) later))%nat eqn:E; [lia|]. by left.
    + rewrite length_rev. lia.
  - etrans; [apply filter_length_le|]. rewrite length_take. lia.
Qed.

Lemma correlated_event_found_witness :
  let attributes := [("request_id", FStr "abc")] in
  let e := mkEvent 5 "honey_master::registry" "WARN" [1] [("code", FStr "M0406"); ("message", FDebug "push failed")] in
  In (mkRecord 5 "warn" (Some "M0406") "honey_master::registry" "push failed" "request_id=abc")
    (search 500 None None (Some "request_id=abc") (ring (observe_all empty_log [NewSpan 1 attributes; Emit e]))).
Proof.
  exact (correlated_event_found [NewSpan 1 [("request_id", FStr "abc")]] []
    (mkEvent 5 "honey_master::registry" "WARN" [1] [("code", FStr "M0406"); ("message", FDebug "push failed")])
    1 [("request_id", FStr "abc")] "request_id" "abc" 500 eq_refl (or_introl eq_refl) eq_refl (or_introl eq_refl)
    ltac:(discriminate) ltac:(discriminate) ltac:(vm_compute; lia) ltac:(vm_compute; lia)).
Defined.
