(* ===== verification/Geo.v ===== *)
(** * IP to location lookup (src/master/src/geo.rs)

    Addresses are 32-bit numbers.  The file the operator names is an argument:
    its text, or a failure to read it.  The width of a range wraps as [u32]
    subtraction does in a release build. *)

From S2P Require Import Prelude Strings Ip.

Record Range := mkRange {
  start : Z;
  end_ : Z;
  r_code : string }.

Definition local (a b : Z * Z * Z * Z) : Range :=
  let ip '(x, y, z, w) := ipv4_of_octets x y z w in mkRange (ip a) (ip b) "local".

Definition builtin : list Range :=
  [ local (0, 0, 0, 0) (0, 255, 255, 255);
    local (10, 0, 0, 0) (10, 255, 255, 255);
    local (100, 64, 0, 0) (100, 127, 255, 255);
    local (127, 0, 0, 0) (127, 255, 255, 255);
    local (169, 254, 0, 0) (169, 254, 255, 255);
    local (172, 16, 0, 0) (172, 31, 255, 255);
    local (192, 0, 0, 0) (192, 0, 0, 255);
    local (192, 0, 2, 0) (192, 0, 2, 255);
    local (192, 168, 0, 0) (192, 168, 255, 255);
    local (198, 18, 0, 0) (198, 19, 255, 255);
    local (198, 51, 100, 0) (198, 51, 100, 255);
    local (203, 0, 113, 0) (203, 0, 113, 255);
    local (224, 0, 0, 0) (239, 255, 255, 255);
    local (240, 0, 0, 0) (255, 255, 255, 255) ].

Definition quote_mark : ascii := Ascii.ascii_of_nat 34.

Definition parse_line (line : string) : option Range :=
  let line := trim line in
  if is_empty line || starts_with "#" line then None else
  match split "," line with
  | a :: b :: c :: _ =>
      let! first := parse_ipv4 (trim a) in
      let! last := parse_ipv4 (trim b) in
      let code := trim_matches quote_mark (trim c) in
      if is_empty code || (8 <? len code) then None
      else Some (mkRange first last (to_ascii_uppercase code))
  | _ => None
  end.

Definition width (r : Range) : Z := wrap_u32 (end_ r - start r).

(** By start, then the narrower first. *)
Definition range_le (a b : Range) : bool :=
  (start a <? start b) || ((start a =? start b) && (width a <=? width b)).

(** The country ranges of the file the environment names, when it can be read. *)
Definition country_table (path : option string) (read : string -> option string) : list Range :=
  match path with
  | None => []
  | Some p =>
      let p := trim p in
      if is_empty p then [] else
      match read p with Some body => omap parse_line (lines body) | None => [] end
  end.

(** The process-wide cell: the table and the number of country ranges. *)
Definition init (path : option string) (read : string -> option string) (cell : option (list Range * nat))
    : option (list Range * nat) :=
  match cell with
  | Some _ => cell
  | None =>
      let countries := country_table path read in
      Some (sort_by range_le (builtin ++ countries), length countries)
  end.

Definition country_ranges (cell : option (list Range * nat)) : nat :=
  match cell with Some (_, n) => n | None => 0%nat end.

(** The loop of [lookup]: the ranges are sorted by start, so that the first one
    past the address ends it. *)
Fixpoint scan (key : Z) (table : list Range) (best : option Range) : option Range :=
  match table with
  | [] => best
  | r :: rest =>
      if key <? start r then best
      else
        let better := match best with None => true | Some b => width r <? width b end in
        scan key rest (if (key <=? end_ r) && better then Some r else best)
  end.

(** [to_ipv4_mapped]: ::ffff:a.b.c.d. *)
Definition to_ipv4_mapped (bits : Z) : option Z :=
  if Z.shiftr bits 32 =? 65535 then Some (bits mod 2 ^ 32) else None.

Definition lookup_key (table : list Range) (key : Z) : string :=
  match scan key table None with Some r => r_code r | None => "unknown" end.

Definition lookup (cell : option (list Range * nat)) (ip : IpAddr) : string :=
  match (match ip with V4 v => Some v | V6 v => to_ipv4_mapped v end) with
  | None => "unknown"
  | Some key =>
      match cell with
      | None => "unknown"
      | Some (table, _) => lookup_key table key
      end
  end.

Definition lookup_str (cell : option (list Range * nat)) (addr : string) : string :=
  let host := match rsplit_once ":" addr with Some (h, _) => h | None => addr end in
  match parse_ip (trim host) with
  | Some ip => lookup cell ip
  | None => match parse_ip (trim addr) with Some ip => lookup cell ip | None => "unknown" end
  end.

(** ** Properties *)

Definition covers (key : Z) (r : Range) : Prop := start r <= key <= end_ r.

(** What the loop holds: the narrowest covering range seen. *)
Lemma scan_spec key table : forall best,
  StronglySorted (fun a b => start a <= start b) table ->
  match scan key table best with
  | Some r =>
      (best = Some r \/ (In r table /\ covers key r)) /\
      (forall x, In x table -> covers key x -> width r <= width x) /\
      (forall b, best = Some b -> width r <= width b)
  | None => best = None /\ forall x, In x table -> ~ covers key x
  end.
Proof.
  induction table as [|r rest IH]; intros best Hs; simpl.
  - destruct best as [b|]; [|done]. split; [by left|]. split; [done|]. by intros ? [= <-].
  - inversion_clear Hs as [|? ? Hrest Hle]. rewrite List.Forall_forall in Hle.
    destruct (key <? start r) eqn:Ek; breflect.
    + assert (Hno : forall x, r = x \/ In x rest -> ~ covers key x).
      { unfold covers. intros x [<-|Hx] Hc; [lia|]. specialize (Hle x Hx). lia. }
      destruct best as [b|]; [|done]. split; [by left|]. split; [|by intros ? [= <-]].
      intros x Hx Hc. by destruct (Hno x Hx).
    + set (better := match best with None => true | Some b => width r <? width b end).
      specialize (IH (if (key <=? end_ r) && better then Some r else best) Hrest).
      destruct (scan key rest _) as [w|]; destruct ((key <=? end_ r) && better) eqn:Ec; breflect.
      * destruct Ec as [Hend Hb]. destruct IH as (Hw & Hmin & Hbest). specialize (Hbest r eq_refl).
        split; [|split].
        -- destruct Hw as [[= <-]|[Hin Hc]]; right; [split; [by left|unfold covers; lia]|tauto].
        -- intros x [<-|Hx] Hc; auto.
        -- intros b ->. unfold better in Hb. breflect. lia.
      * destruct IH as (Hw & Hmin & Hbest). split; [tauto|]. split; [|done].
        intros x [<-|Hx] Hc; [|auto]. unfold covers in Hc. destruct Ec as [Hend|Hb]; [lia|].
        unfold better in Hb. destruct best as [b|]; [|done]. breflect. specialize (Hbest b eq_refl). lia.
      * by destruct IH.
      * destruct IH as [-> Hno]. split; [done|]. intros x [<-|Hx]; [|auto]. unfold covers.
        destruct Ec as [Hend|Hb]; [lia|done].
Qed.

Lemma range_bounds path read r :
  In r (builtin ++ country_table path read) -> 0 <= start r <= u32_max /\ 0 <= end_ r <= u32_max.
Proof.
  intros [Hb|Hc]%in_app_or.
  - revert r Hb. apply List.Forall_forall. repeat constructor; done.
  - unfold country_table in Hc. destruct path as [p|]; [|done]. destruct (is_empty (trim p)); [done|].
    destruct (read (trim p)) as [body|]; [|done].
    apply list_elem_of_In, list_elem_of_omap in Hc as (line & _ & Hl). unfold parse_line in Hl.
    destruct (_ || _); [done|]. destruct (split "," (trim line)) as [|a [|b [|c rest]]]; try done.
    destruct (parse_ipv4 (trim a)) as [x|] eqn:Ea; [|done]. destruct (parse_ipv4 (trim b)) as [y|] eqn:Eb; [|done].
    destruct (_ || _); [done|]. injection Hl as <-. apply parse_ipv4_range in Ea, Eb. done.
Qed.

Lemma covering_width key r :
  0 <= start r <= u32_max -> 0 <= end_ r <= u32_max -> covers key r -> width r = end_ r - start r.
Proof. unfold covers, width, wrap_u32, u32_max. intros. apply Z.mod_small. lia. Qed.

Lemma init_sorted countries :
  StronglySorted (fun a b => start a <= start b) (sort_by range_le (builtin ++ countries)).
Proof.
  apply sort_by_coarse; [lia|..]; unfold range_le; intros x y H; breflect; lia.
Qed.

(** The narrowest range wins.  Whatever the operator's file holds, inverted
    lines included, an address resolves to the code of a range that covers it and
    is no wider than any other covering range of the built-in and loaded tables,
    and to unknown exactly when none covers it. *)
Theorem lookup_narrowest (path : option string) (read : string -> option string) (key : Z) :
  let ranges := builtin ++ country_table path read in
  let answer := lookup (init path read None) (V4 key) in
  (exists r, In r ranges /\ covers key r /\ answer = r_code r /\
     forall x, In x ranges -> covers key x -> end_ r - start r <= end_ x - start x) \/
  (answer = "unknown" /\ forall x, In x ranges -> ~ covers key x).
Proof.
  intros ranges answer. unfold answer, init, lookup, lookup_key. fold ranges.
  pose proof (scan_spec key _ None (init_sorted (country_table path read))) as Hs. fold ranges in Hs.
  destruct (scan key (sort_by range_le ranges) None) as [r|].
  - left. exists r. destruct Hs as ([[=]|[Hin Hc]] & Hmin & _). rewrite sort_by_in in Hin.
    split; [done|]. split; [done|]. split; [done|]. intros x Hx Hcx.
    specialize (Hmin x (proj2 (sort_by_in _ _ _) Hx) Hcx).
    destruct (range_bounds path read r Hin), (range_bounds path read x Hx).
    by rewrite (covering_width key r), (covering_width key x) in Hmin.
  - right. destruct Hs as [_ Hno]. split; [done|]. intros x Hx. apply Hno. by apply sort_by_in.
Qed.

(** Textual v4-mapped addresses lose their location.  The documented lookup
    resolves a v4-mapped IPv6 address, and for the same address in its textual
    form the port is cut off at the last colon of the address itself, which
    leaves another address. *)
Theorem mapped_text_unknown :
  let cell := init None (fun _ => None) None in
  parse_ip "::ffff:10.0.0.1" = Some (V6 281470849515521) /\
  lookup cell (V6 281470849515521) = "local" /\
  lookup_str cell "10.0.0.1" = "local" /\ lookup_str cell "10.0.0.1:443" = "local" /\
  lookup_str cell "::ffff:10.0.0.1" = "unknown".
Proof. vm_compute. repeat split. Qed.
