(* ===== verification/Update.v ===== *)
(** * Self-update (src/master/src/update.rs and the update handlers of
    src/master/src/api/mod.rs)

    The network is a function from addresses to bodies, SHA-256 a function to its
    32 bytes, and the platform the two constants of [std::env::consts].  A file
    operation that fails is an argument. *)

From S2P Require Import Prelude Strings Json Models Db Api Settings.

(** ** Versions *)

Record Version := mkVersion { major : Z; minor : Z; patch_ : Z; pre : bool }.

Definition parse_version (value : string) : Version :=
  let raw := trim_start_matches "v" (trim value) in
  let '(core, p) := match split_once "-" raw with Some (core, _) => (core, true) | None => (raw, false) end in
  let parts := (fun s => default 0 (parse_unsigned u64_max (trim s))) <$> split "." core in
  mkVersion (nth 0 parts 0) (nth 1 parts 0) (nth 2 parts 0) p.

(** Lexicographic comparison of the triples. *)
Definition compare_triple (a b : Version) : comparison :=
  match major a ?= major b with
  | Eq => match minor a ?= minor b with Eq => patch_ a ?= patch_ b | c => c end
  | c => c
  end.

Definition is_newer (current latest : string) : bool :=
  let a := parse_version current in
  let b := parse_version latest in
  match compare_triple b a with
  | Gt => true
  | Lt => false
  | Eq => pre a && negb (pre b)
  end.

(** ** Releases *)

Record ReleaseAsset := mkAsset { asset_name : string; asset_url : string }.
Record Release := mkRelease {
  tag : string;
  notes : string;
  published_at : option string;
  assets : list ReleaseAsset }.

Definition is_checksum_asset (name : string) : bool :=
  let name := to_ascii_lowercase name in contains "sha256" name || contains "checksum" name.

Definition pick_asset (os arch : string) (l : list ReleaseAsset) : option ReleaseAsset :=
  let for_arch aliases :=
    List.find (fun a =>
      let name := to_ascii_lowercase (asset_name a) in
      negb (is_checksum_asset name) && contains os name && existsb (fun alias => contains alias name) aliases) l in
  if String.eqb arch "x86_64" then for_arch ["x86_64"; "amd64"; "x64"]
  else if String.eqb arch "aarch64" then for_arch ["aarch64"; "arm64"]
  else List.find (fun a => contains arch (asset_name a)) l.

(** A line without a word ends the search: the code leaves the function there. *)
Fixpoint expected_in (asset : string) (ls : list string) : option string :=
  match ls with
  | [] => None
  | line :: rest =>
      match split_whitespace line with
      | [] => None
      | hash :: more =>
          let file := trim_start_matches "*" (default "" (head more)) in
          if ends_with asset file && (len hash =? 64) then Some (to_ascii_lowercase hash)
          else expected_in asset rest
      end
  end.
Definition expected_hash (checksums asset : string) : option string := expected_in asset (lines checksums).

Definition DEFAULT_REPO : string := "akiko99x/honey".
Definition repo (configured : option string) : string :=
  default DEFAULT_REPO (opt_filter (fun v => negb (is_empty v)) (trim <$> configured)).

Definition text_or_empty (k : string) (j : json) : string := default "" (get_str k j).

Definition read_asset (a : json) : option ReleaseAsset :=
  let! name := get_str "name" a in
  let! url := get_str "browser_download_url" a in
  Some (mkAsset name url).

Definition read_release (body : json) : Release :=
  mkRelease (text_or_empty "tag_name" body) (take_chars 4000 (text_or_empty "body" body))
    (get_str "published_at" body)
    (match get "assets" body with
     | Some a => match as_array a with Some items => omap read_asset items | None => [] end
     | None => []
     end).

Inductive update_error :=
| Unreachable
| AlreadyCurrent (current latest : string)
| NoAsset (release : string)
| NoChecksums (release : string)
| NoEntry (asset : string)
| Mismatch (asset expected actual : string)
| Filesystem.

(** The running binary and what is staged beside it. *)
Record Disk := mkDisk { running : string; staged : option string }.
(** How the file operations go; a failed write leaves something behind. *)
Record DiskFaults := mkFaults {
  exe_found : bool;
  write : result unit (option string);
  chmod_ok : bool;
  rename_ok : bool }.

Section Network.
Context (current_version os arch : string) (configured_repo : option string).
Context (fetch_json : string -> option json) (fetch : string -> option string).
Context (sha256 : string -> list Z).

Definition latest_release : result Release update_error :=
  match fetch_json ("https://api.github.com/repos/" +:+ repo configured_repo +:+ "/releases/latest") with
  | Some body => Ok (read_release body)
  | None => Err Unreachable
  end.

Record UpdateStatus := mkStatus {
  current : string;
  latest : option string;
  newer : bool;
  status_notes : string;
  asset : option string;
  status_published_at : option string;
  status_repo : string }.

Definition check : result UpdateStatus update_error :=
  let? r := latest_release in
  Ok (mkStatus current_version (Some (tag r)) (is_newer current_version (tag r)) (notes r)
        (asset_name <$> pick_asset os arch (assets r)) (published_at r) (repo configured_repo)).

Definition ok_or {A E} (o : option A) (e : E) : result A E :=
  match o with Some a => Ok a | None => Err e end.

(** The download and its verification: the release and the bytes to install. *)
Definition verified_download : result (Release * string) update_error :=
  let? r := latest_release in
  bail (AlreadyCurrent current_version (tag r)) when negb (is_newer current_version (tag r)) in
  let? a := ok_or (pick_asset os arch (assets r)) (NoAsset (tag r)) in
  let? sums := ok_or (List.find (fun x => is_checksum_asset (asset_name x)) (assets r)) (NoChecksums (tag r)) in
  let? body := ok_or (fetch (asset_url sums)) Unreachable in
  let? expected := ok_or (expected_hash body (asset_name a)) (NoEntry (asset_name a)) in
  let? bytes := ok_or (fetch (asset_url a)) Unreachable in
  let actual := hex (sha256 bytes) in
  bail (Mismatch (asset_name a) expected actual) when negb (String.eqb actual expected) in
  Ok (r, bytes).

(** The bytes are written beside the running binary and renamed over it. *)
Definition apply (io : DiskFaults) (d : Disk) : result string update_error * Disk :=
  match verified_download with
  | Err e => (Err e, d)
  | Ok (r, bytes) =>
      if negb (exe_found io) then (Err Filesystem, d) else
      match write io with
      | Err leftover => (Err Filesystem, mkDisk (running d) leftover)
      | Ok _ =>
          if negb (chmod_ok io && rename_ok io) then (Err Filesystem, mkDisk (running d) (Some bytes))
          else (Ok (tag r), mkDisk bytes None)
      end
  end.

(** The handler, behind the runtime setting; the last component is whether the
    update is audited and the restart requested. *)
Definition update_apply (row : result (option string) db_error) (io : DiskFaults) (d : Disk)
    : result string api_error * Disk * bool :=
  if setting_i64 row 0 =? 0
  then (Err (Forbidden "self-update is disabled; enable it in runtime settings first"), d, false)
  else match apply io d with
       | (Ok version, d') => (Ok version, d', true)
       | (Err _, d') => (Err (BadRequest "self-update failed"), d', false)
       end.

(** [schedule_restart] leaves the process when the supervisor is declared. *)
Definition restarts (auto_restart : option string) : bool := bool_decide (auto_restart = Some "1").
End Network.

(** ** Properties *)

Lemma compare_triple_refl a : compare_triple a a = Eq.
Proof. unfold compare_triple. by rewrite !Z.compare_refl. Qed.

(** The order [is_newer] decides, on parsed versions. *)
Definition newer_than (a b : Version) : Prop :=
  major a < major b \/ (major a = major b /\ (minor a < minor b \/ (minor a = minor b /\
    (patch_ a < patch_ b \/ (patch_ a = patch_ b /\ pre a = true /\ pre b = false))))).

Lemma is_newer_spec c l : is_newer c l = true <-> newer_than (parse_version c) (parse_version l).
Proof.
  unfold is_newer, compare_triple, newer_than. set (a := parse_version c). set (b := parse_version l).
  destruct (Z.compare_spec (major b) (major a)); [|split; [done|lia]|split; [lia|done]].
  destruct (Z.compare_spec (minor b) (minor a)); [|split; [done|lia]|split; [lia|done]].
  destruct (Z.compare_spec (patch_ b) (patch_ a)); [|split; [done|lia]|split; [lia|done]].
  rewrite andb_true_iff, negb_true_iff. split; [|intuition lia]. intros [Hp Hq]. repeat (right; split; [lia|]). done.
Qed.

(** Version comparison is a strict order.  No version is newer than itself or
    than one newer than it, and newness is transitive, so that a chain of
    self-updates never revisits a version; equal triples differ only by their
    pre-release mark. *)
Theorem is_newer_strict_order (u v w : string) :
  is_newer u u = false /\
  ~ (is_newer u v = true /\ is_newer v u = true) /\
  (is_newer u v && is_newer v w = true -> is_newer u w = true) /\
  (is_newer u v = false -> is_newer v u = false ->
     compare_triple (parse_version u) (parse_version v) = Eq /\ pre (parse_version u) = pre (parse_version v)).
Proof.
  rewrite andb_true_iff, <- !not_true_iff_false, !is_newer_spec.
  set (a := parse_version u). set (b := parse_version v). set (c := parse_version w). unfold newer_than.
  split; [|split; [|split]].
  - intuition (lia || congruence).
  - intuition (lia || congruence).
  - destruct (pre a), (pre b), (pre c); intuition (lia || congruence).
  - intros Hab Hba. assert (He : major a = major b /\ minor a = minor b /\ patch_ a = patch_ b) by lia.
    destruct He as (H1 & H2 & H3). unfold compare_triple. rewrite H1, H2, H3, !Z.compare_refl.
    split; [done|]. destruct (pre a) eqn:Ea, (pre b) eqn:Eb; try done; [destruct Hab|destruct Hba];
      right; (split; [lia|]); right; (split; [lia|]); right; (split; [lia|done]).
Qed.

(** Only verified bytes are installed.  The running binary changes only when
    self-update is enabled, the release is strictly newer, and the bytes
    downloaded for this platform have the SHA-256 the release publishes for them;
    then exactly those bytes run next and the update is audited.  In every other
    case the running binary stays as it is, and nothing is audited or restarted. *)
Theorem update_installs_verified (current_version os arch : string) (configured : option string)
    (fetch_json : string -> option json) (fetch : string -> option string) (sha256 : string -> list Z)
    (row : result (option string) db_error) (io : DiskFaults) (d : Disk) :
  match update_apply current_version os arch configured fetch_json fetch sha256 row io d with
  | (Ok version, d', audited) =>
      audited = true /\ setting_i64 row 0 <> 0 /\
      exists release a sums body,
        latest_release configured fetch_json = Ok release /\ version = tag release /\
        is_newer current_version (tag release) = true /\
        pick_asset os arch (assets release) = Some a /\ fetch (asset_url a) = Some (running d') /\
        In sums (assets release) /\ is_checksum_asset (asset_name sums) = true /\
        fetch (asset_url sums) = Some body /\
        expected_hash body (asset_name a) = Some (hex (sha256 (running d'))) /\ staged d' = None
  | (Err _, d', audited) => audited = false /\ running d' = running d
  end.
Proof.
  unfold update_apply. destruct (setting_i64 row 0 =? 0) eqn:Es; [done|]. breflect. unfold apply, verified_download.
  destruct (latest_release configured fetch_json) as [r|e] eqn:Er; [|done].
  destruct (is_newer current_version (tag r)) eqn:En; [|done]. cbn [negb].
  destruct (pick_asset os arch (assets r)) as [a|] eqn:Ea; [|done]. cbn [ok_or].
  destruct (List.find _ (assets r)) as [sums|] eqn:Ec; [|done]. cbn [ok_or].
  destruct (fetch (asset_url sums)) as [body|] eqn:Eb; [|done]. cbn [ok_or].
  destruct (expected_hash body (asset_name a)) as [expected|] eqn:Ex; [|done]. cbn [ok_or].
  destruct (fetch (asset_url a)) as [bytes|] eqn:Ey; [|done]. cbn [ok_or].
  destruct (String.eqb_spec (hex (sha256 bytes)) expected) as [<-|]; [|done]. cbn [negb].
  destruct (exe_found io); [|done]. cbn [negb]. destruct (write io) as [[]|left_]; [|done].
  destruct (chmod_ok io && rename_ok io); [|done]. cbn [negb]. split; [done|]. split; [done|].
  apply List.find_some in Ec as [Hin Hc]. exists r, a, sums, body. cbn [running staged]. repeat split; done.
Qed.

(** A blank line hides the checksums after it.  The listing is searched line
    by line, but the first line without a word ends the search, so that an entry
    below it is not found and the update is refused. *)
Theorem blank_line_hides_checksums (asset : string) (before after : list string) (blank : string) :
  split_whitespace blank = [] ->
  Forall (fun line => expected_in asset [line] = None) before ->
  expected_in asset (before ++ blank :: after) = None.
Proof.
  intros Hb. induction 1 as [|line ls Hl _ IH]; simpl in *; [by rewrite Hb|].
  destruct (split_whitespace line) as [|hash more]; [done|]. destruct (_ && _); done.
Qed.

Lemma blank_line_hides_checksums_witness :
  expected_in "m" ["# sums"; " "; "aaaaaaaaaaaaaaaaaaaaaaaaaaaaaaaaaaaaaaaaaaaaaaaaaaaaaaaaaaaaaaaa  m"] = None /\
  is_some (expected_in "m" ["aaaaaaaaaaaaaaaaaaaaaaaaaaaaaaaaaaaaaaaaaaaaaaaaaaaaaaaaaaaaaaaa  m"]) = true.
Proof.
  split; [|vm_compute; reflexivity].
  apply (blank_line_hides_checksums "m" ["# sums"]
    ["aaaaaaaaaaaaaaaaaaaaaaaaaaaaaaaaaaaaaaaaaaaaaaaaaaaaaaaaaaaaaaaa  m"] " "); [vm_compute; reflexivity|].
  constructor; [vm_compute; reflexivity|constructor].
Defined.

(** An update that goes through. *)
Definition sample_release : json :=
  obj [("tag_name", JString "v0.2.0");
       ("assets", JArray
          [obj [("name", JString "SHA256SUMS"); ("browser_download_url", JString "s")];
           obj [("name", JString "honey-linux-x86_64"); ("browser_download_url", JString "b")]])].

Example update_goes_through :
  update_apply "0.1.5" "linux" "x86_64" None (fun _ => Some sample_release)
    (fun url => if String.eqb url "s"
                then Some "00000000000000000000000000000000000000000000000000000000000000ab  honey-linux-x86_64"
                else Some "new binary")
    (fun _ => replicate 31 0 ++ [171]) (Ok (Some "1")) (mkFaults true (Ok tt) true true) (mkDisk "old" None)
  = (Ok "v0.2.0", mkDisk "new binary" None, true).
Proof. vm_compute. reflexivity. Qed.
