(* ===== verification/Access.v ===== *)
(** * The group access model (node groups, spec access and subscription
    endpoints of src/master/src/db/repo.rs)

    A node with no group is open to every user; a grouped node is open to the
    users that share one of its groups. *)

From S2P Require Import Prelude Json Models Db.

Definition member (e : Uuid * Uuid) (s : gset (Uuid * Uuid)) : bool := bool_decide (e ∈ s).

(** [NOT EXISTS (SELECT 1 FROM node_group_members m WHERE m.node_id = n)]. *)
Definition ungrouped (node_id : Uuid) (db : Db) : bool :=
  forallb (fun m => negb (m.1 =? node_id)) (elements (node_group_members db)).

(** [EXISTS (SELECT 1 FROM node_group_members m JOIN user_group_access a ...)]. *)
Definition shares_group (user_id node_id : Uuid) (db : Db) : bool :=
  existsb (fun m => (m.1 =? node_id) && member (user_id, m.2) (user_group_access db))
    (elements (node_group_members db)).

Definition can_reach (user_id node_id : Uuid) (db : Db) : bool :=
  ungrouped node_id db || shares_group user_id node_id db.

(** [DELETE ... WHERE node_id = $1] then one INSERT per group, in one
    transaction; an unknown node or group aborts it. *)
Definition set_node_groups (node_id : Uuid) (group_ids : list Uuid) (db : Db)
    : result Db db_error :=
  bail ForeignKeyViolation
    when negb (forallb (fun gid => is_some (nodes db !! node_id) && is_some (node_groups db !! gid))
                 group_ids) in
  Ok (with_members (fun s =>
        list_to_set ((fun gid => (node_id, gid)) <$> group_ids)
        ∪ filter (fun e => e.1 <> node_id) s) db).

Definition set_user_groups (user_id : Uuid) (group_ids : list Uuid) (db : Db)
    : result Db db_error :=
  bail ForeignKeyViolation
    when negb (forallb (fun gid => is_some (users db !! user_id) && is_some (node_groups db !! gid))
                 group_ids) in
  Ok (with_access (fun s =>
        list_to_set ((fun gid => (user_id, gid)) <$> group_ids)
        ∪ filter (fun e => e.1 <> user_id) s) db).

Section Queries.
(** The database's text collation, the decryption of stored secrets and the
    textual form of a uuid. *)
Context (collate : string -> string -> bool).
Context (decrypt : string -> option string).
Context (uuid_str : Uuid -> string).

(** [decrypt_user]: both stored credentials, or the whole read fails. *)
Definition decrypt_user (u : User.User) : result User.User db_error :=
  match decrypt (User.uuid u), decrypt (User.password u) with
  | Some uuid, Some password => Ok (User.with_credentials uuid password u)
  | _, _ => Err DecryptFailed
  end.

Definition decrypt_users (us : list User.User) : result (list User.User) db_error :=
  try_map decrypt_user us.

Definition by_username (a b : User.User) : bool := collate (User.username a) (User.username b).

Definition users_with_node_access (node_id : Uuid) (db : Db)
    : result (list User.User) db_error :=
  decrypt_users
    (sort_by by_username
       (List.filter (fun u => can_reach (User.id u) node_id db) (rows (users db)))).

Definition user_node_ids (user_id : Uuid) (db : Db) : list Uuid :=
  Node.id <$> List.filter (fun n => can_reach user_id (Node.id n) db) (rows (nodes db)).

(** A non-empty fallback host. *)
Definition has_fallback (i : Inbound.Inbound) : bool :=
  is_some_and (Inbound.fallback_host i) (fun h => negb (String.eqb h "")).

Definition is_blocked (i : Inbound.Inbound) : bool :=
  match Inbound.reachable i with Some false => true | _ => false end.

Definition endpoint_of (i : Inbound.Inbound) (n : Node.Node) (host : option string)
    : SubscriptionEndpoint.SubscriptionEndpoint :=
  SubscriptionEndpoint.mk (Inbound.id i) (Node.name n) (Node.address n) (Inbound.tag i)
    (Inbound.kind i) (Inbound.core i) (Inbound.listen_port i) (Inbound.flow i)
    (Inbound.tls_enabled i) (Inbound.server_name i) (Inbound.reality i)
    (Inbound.reality_public_key i) (Inbound.reality_short_ids i) (Inbound.network i)
    (Inbound.transport_path i) host (Inbound.transport_service_name i)
    (Inbound.transport_mode i) (Inbound.utls_fingerprint i) (Inbound.ech i)
    (Inbound.extra i) (Node.extra_addresses n).

(** The CASE on [transport_host]: a blocked endpoint is fronted by its
    fallback host. *)
Definition served_host (i : Inbound.Inbound) : option string :=
  if is_blocked i && has_fallback i then Inbound.fallback_host i
  else Inbound.transport_host i.

(** The join of an inbound with its node. *)
Definition joined (db : Db) : list (Inbound.Inbound * Node.Node) :=
  flat_map (fun i => match nodes db !! Inbound.node_id i with
                     | Some n => [(i, n)]
                     | None => []
                     end) (rows (inbounds db)).

Definition endpoint_visible (user_id : Uuid) (db : Db) (p : Inbound.Inbound * Node.Node) : bool :=
  let '(i, n) := p in
  Inbound.enabled i && Node.enabled n && negb (Node.maintenance n)
  && (negb (is_blocked i) || has_fallback i)
  && can_reach user_id (Node.id n) db.

Definition by_node_port (a b : Inbound.Inbound * Node.Node) : bool :=
  let '(i, n) := a in let '(j, m) := b in
  if collate (Node.name n) (Node.name m) && collate (Node.name m) (Node.name n)
  then Inbound.listen_port i <=? Inbound.listen_port j
  else collate (Node.name n) (Node.name m).

Definition subscription_endpoints (user_id : Uuid) (db : Db)
    : list SubscriptionEndpoint.SubscriptionEndpoint :=
  (fun p => endpoint_of p.1 p.2 (served_host p.1))
    <$> sort_by by_node_port (List.filter (endpoint_visible user_id db) (joined db)).

(** The multihop exit, for the operator's chain. *)
Definition endpoint_for_inbound (inbound_id : Uuid) (db : Db)
    : option SubscriptionEndpoint.SubscriptionEndpoint :=
  match inbounds db !! inbound_id with
  | None => None
  | Some i =>
      match nodes db !! Inbound.node_id i with
      | None => None
      | Some n =>
          if Inbound.enabled i && Node.enabled n && negb (Node.maintenance n)
          then Some (endpoint_of i n (Inbound.transport_host i)) else None
      end
  end.

(** (label, uuid, password) of every enabled entry that exits through an
    inbound. *)
Definition chain_user (i : Inbound.Inbound)
    : result (string * string * option string) db_error :=
  let? password :=
    match Inbound.chain_password i with
    | None => Ok None
    | Some p => match decrypt p with Some p => Ok (Some p) | None => Err DecryptFailed end
    end in
  Ok (("chain-" +:+ Inbound.tag i +:+ "-" +:+ uuid_str (Inbound.id i))%string,
      default "" (Inbound.chain_uuid i), password).

Definition chain_users_for_exit (exit_id : Uuid) (db : Db)
    : result (list (string * string * option string)) db_error :=
  try_map chain_user
    (List.filter (fun i =>
       match Inbound.upstream_inbound_id i with Some up => up =? exit_id | None => false end
       && Inbound.enabled i && is_some (Inbound.chain_uuid i)) (rows (inbounds db))).

End Queries.

(** ** Properties *)

(** Primary keys and the key column agree. *)
Definition keyed (db : Db) : Prop :=
  (forall k u, users db !! k = Some u -> User.id u = k) /\
  (forall k n, nodes db !! k = Some n -> Node.id n = k).

Lemma ungrouped_spec n db :
  ungrouped n db = true <-> forall g, (n, g) ∉ node_group_members db.
Proof.
  unfold ungrouped. rewrite forallb_forall. split.
  - intros H g Hg. specialize (H (n, g)). rewrite <- list_elem_of_In, elem_of_elements in H.
    specialize (H Hg). breflect. done.
  - intros H [n' g] Hin. rewrite <- list_elem_of_In, elem_of_elements in Hin. breflect.
    simpl. intros ->. by apply (H g).
Qed.

Lemma shares_group_spec u n db :
  shares_group u n db = true <->
  exists g, (n, g) ∈ node_group_members db /\ (u, g) ∈ user_group_access db.
Proof.
  unfold shares_group, member. rewrite existsb_exists. split.
  - intros ([n' g] & Hin & H). rewrite <- list_elem_of_In, elem_of_elements in Hin.
    simpl in H. apply andb_true_iff in H as [H1 H2]. breflect. subst.
    apply bool_decide_eq_true in H2. eauto.
  - intros (g & H1 & H2). exists (n, g).
    rewrite <- list_elem_of_In, elem_of_elements. split; [done|]. simpl.
    rewrite Z.eqb_refl. by apply bool_decide_eq_true.
Qed.

(** The relational reading of the access rule. *)
Lemma can_reach_spec u n db :
  can_reach u n db = true <->
  (forall g, (n, g) ∉ node_group_members db) \/
  (exists g, (n, g) ∈ node_group_members db /\ (u, g) ∈ user_group_access db).
Proof. unfold can_reach. rewrite orb_true_iff, ungrouped_spec, shares_group_spec. done. Qed.

Section AccessFacts.
Context (collate : string -> string -> bool) (decrypt : string -> option string).

Lemma decrypt_user_id u u' : decrypt_user decrypt u = Ok u' -> User.id u' = User.id u.
Proof.
  unfold decrypt_user. destruct (decrypt (User.uuid u)), (decrypt (User.password u));
    intros; simplify_eq; done.
Qed.

(** Who the access query of a node returns. *)
Lemma users_with_node_access_ids n db us uid :
  keyed db -> users_with_node_access collate decrypt n db = Ok us ->
  (exists u', In u' us /\ User.id u' = uid) <->
  is_Some (users db !! uid) /\ can_reach uid n db = true.
Proof.
  intros [Hk _] Hq. unfold users_with_node_access, decrypt_users in Hq. split.
  - intros (u' & Hin & <-).
    destruct (try_map_in _ _ _ _ Hq Hin) as (u & Hu & Hd).
    apply sort_by_in, List.filter_In in Hu as [Hrow Hr].
    apply in_rows in Hrow as [k Hlk]. rewrite (decrypt_user_id _ _ Hd).
    rewrite (Hk k u Hlk) in *. rewrite Hlk. eauto.
  - intros [[u Hu] Hr]. pose proof (Hk uid u Hu) as Hid.
    destruct (try_map_in_inv _ _ _ u Hq) as (u' & Hin & Hd).
    { apply sort_by_in, List.filter_In. rewrite Hid. split; [|done]. apply in_rows; eauto. }
    exists u'. split; [done|]. by rewrite (decrypt_user_id _ _ Hd).
Qed.

Lemma user_node_ids_spec uid n db :
  keyed db -> In n (user_node_ids uid db) <->
  is_Some (nodes db !! n) /\ can_reach uid n db = true.
Proof.
  intros [_ Hk]. unfold user_node_ids. rewrite <- list_elem_of_In, list_elem_of_fmap. split.
  - intros (m & -> & Hm). apply list_elem_of_In, List.filter_In in Hm as [Hrow Hr].
    apply in_rows in Hrow as [k Hlk]. rewrite (Hk k m Hlk) in *. rewrite Hlk. eauto.
  - intros [[m Hm] Hr]. exists m. pose proof (Hk n m Hm) as Hid. split; [done|].
    apply list_elem_of_In, List.filter_In. rewrite Hid. split; [|done]. apply in_rows; eauto.
Qed.
End AccessFacts.

(** The two access queries are duals.  A node's spec carries a user exactly
    when that node is among the nodes pushed for the user, so a change to a user
    reaches every node that serves it and no other. *)
Theorem access_duality (collate : string -> string -> bool)
    (decrypt : string -> option string) (db : Db) (uid n : Uuid) (us : list User.User) :
  keyed db ->
  is_Some (users db !! uid) -> is_Some (nodes db !! n) ->
  users_with_node_access collate decrypt n db = Ok us ->
  (exists u, In u us /\ User.id u = uid) <-> In n (user_node_ids uid db).
Proof.
  intros Hk Hu Hn Hq.
  rewrite (users_with_node_access_ids collate decrypt n db us uid Hk Hq).
  rewrite (user_node_ids_spec uid n db Hk). tauto.
Qed.

(** A database with one grouped and one open node, for the examples. *)
Definition grouped_db : Db :=
  let node id name := Node.mk id name "10.0.0.1" "honey-agent" 8443 "serve" [] [] true false
    None None None None None None None None None None 0 0 0 in
  let user id name := User.mk id name None None None "inherit" [] "uuid" "password" true 0 0
    None 0 None "none" None None None 0 0 in
  mkDb (<[1 := node 1 "a"]> (<[2 := node 2 "b"]> ∅)) ∅
    (<[7 := user 7 "alice"]> (<[8 := user 8 "bob"]> ∅))
    (<[5 := mkGroup "vip" false ""]> ∅) {[(1, 5)]} {[(7, 5)]} ∅ ∅.

Lemma grouped_db_keyed : keyed grouped_db.
Proof.
  split; intros k v; unfold grouped_db; simpl; rewrite !lookup_insert;
    repeat case_decide; intros; simplify_eq; done.
Qed.

Lemma access_duality_witness :
  (exists u, In u (default [] (match users_with_node_access String.leb Some 1 grouped_db with
                               | Ok us => Some us | Err _ => None end)) /\ User.id u = 7)
  <-> In 1 (user_node_ids 7 grouped_db).
Proof.
  eapply (access_duality String.leb Some grouped_db 7 1).
  - apply grouped_db_keyed.
  - eexists; reflexivity.
  - eexists; reflexivity.
  - vm_compute; reflexivity.
Defined.

(** Setting a user's groups takes effect exactly: afterwards the user
    reaches the open nodes and the nodes of the given groups, and no other
    user's access changes. *)
Theorem set_user_groups_exact (uid : Uuid) (gids : list Uuid) (db db' : Db) :
  set_user_groups uid gids db = Ok db' ->
  forall n,
    (can_reach uid n db' = true <->
       (forall g, (n, g) ∉ node_group_members db) \/
       (exists g, In g gids /\ (n, g) ∈ node_group_members db)) /\
    (forall other, other <> uid -> can_reach other n db' = can_reach other n db).
Proof.
  unfold set_user_groups. destruct (negb _); [done|]. intros; simplify_eq.
  assert (Hacc : forall v g,
    (v, g) ∈ (list_to_set ((fun gid => (uid, gid)) <$> gids)
              ∪ filter (fun e => e.1 <> uid) (user_group_access db) : gset (Uuid * Uuid))
    <-> (v = uid /\ In g gids) \/ (v <> uid /\ (v, g) ∈ user_group_access db)).
  { intros v g. rewrite elem_of_union, elem_of_list_to_set, list_elem_of_fmap, elem_of_filter.
    setoid_rewrite list_elem_of_In. simpl. split.
    - intros [(g' & Heq & Hin)|[Hne Hin]]; [simplify_eq; auto|auto].
    - intros [[-> Hin]|[Hne Hin]]; eauto. }
  split.
  - rewrite can_reach_spec. simpl. setoid_rewrite Hacc. naive_solver.
  - intros other Hne. apply eq_true_iff_eq. rewrite !can_reach_spec. simpl.
    setoid_rewrite Hacc. naive_solver.
Qed.

Lemma set_user_groups_exact_witness :
  can_reach 8 1 (with_access (fun s =>
     list_to_set ((fun gid => (8, gid)) <$> [5]) ∪ filter (fun e => e.1 <> 8) s) grouped_db) = true
  <-> (forall g, (1, g) ∉ node_group_members grouped_db) \/
      (exists g, In g [5] /\ (1, g) ∈ node_group_members grouped_db).
Proof.
  apply (fun H => proj1 (set_user_groups_exact 8 [5] grouped_db _ H 1)).
  vm_compute. reflexivity.
Defined.

(** A subscription never points at an endpoint that does not serve its
    user.  Each endpoint comes from an enabled inbound of an enabled node out of
    maintenance, the user is in that node's access list, and an inbound reported
    blocked is handed out only with its non-empty fallback host. *)
Theorem subscription_endpoints_served (collate : string -> string -> bool)
    (decrypt : string -> option string) (db : Db) (uid : Uuid)
    (ep : SubscriptionEndpoint.SubscriptionEndpoint) :
  keyed db -> is_Some (users db !! uid) ->
  In ep (subscription_endpoints collate uid db) ->
  exists i n,
    (exists k, inbounds db !! k = Some i) /\ nodes db !! Inbound.node_id i = Some n /\
    SubscriptionEndpoint.inbound_id ep = Inbound.id i /\
    Inbound.enabled i = true /\ Node.enabled n = true /\ Node.maintenance n = false /\
    (Inbound.reachable i = Some false ->
       exists host, host <> "" /\ Inbound.fallback_host i = Some host /\
                    SubscriptionEndpoint.transport_host ep = Some host) /\
    (forall us, users_with_node_access collate decrypt (Inbound.node_id i) db = Ok us ->
       exists u, In u us /\ User.id u = uid).
Proof.
  intros Hk Hu Hin. unfold subscription_endpoints in Hin.
  apply list_elem_of_In, list_elem_of_fmap in Hin as ([i n] & -> & Hin).
  apply list_elem_of_In, sort_by_in, List.filter_In in Hin as [Hj Hv].
  unfold joined in Hj. apply in_flat_map in Hj as (i' & Hrow & Hn).
  destruct (nodes db !! Inbound.node_id i') as [n'|] eqn:En; [|done].
  destruct Hn as [Heq|[]]. injection Heq as -> ->.
  simpl in Hv. rewrite !andb_true_iff, negb_true_iff in Hv.
  destruct Hv as [[[[Hei Hen] Hm] Hb] Hr].
  pose proof (proj2 Hk _ _ En) as Hid. rewrite Hid in Hr.
  exists i, n. split; [by apply in_rows|]. repeat split; try done.
  - intros Hblk. unfold is_blocked in Hb. rewrite Hblk in Hb. simpl in Hb.
    pose proof Hb as Hf. unfold has_fallback in Hb.
    destruct (Inbound.fallback_host i) as [host|] eqn:Eh; [|done]. simpl in Hb. breflect.
    exists host. split; [done|]. split; [done|].
    simpl. unfold served_host, is_blocked. rewrite Hblk, Hf. simpl. by rewrite Eh.
  - intros us Hq. apply (users_with_node_access_ids collate decrypt _ db us uid Hk Hq). auto.
Qed.

Definition sample_inbound (id node : Uuid) (reachable : option bool)
    (fallback : option string) : Inbound.Inbound :=
  Inbound.mk id node "in" [] "vless" "singbox" "::" 443 "" true (Some "sni") None None
    false None None [] None None "tcp" None None None None false None None None
    empty_object true reachable None None fallback [] [] 0 0 "60s" None None None 0 0.
Definition blocked_db : Db :=
  with_inbounds (fun _ => <[9 := sample_inbound 9 1 (Some false) (Some "cdn.example")]> ∅)
    grouped_db.

Lemma subscription_endpoints_served_witness :
  exists i n,
    (exists k, inbounds blocked_db !! k = Some i) /\
    nodes blocked_db !! Inbound.node_id i = Some n /\ Inbound.enabled i = true.
Proof.
  destruct (subscription_endpoints_served String.leb Some blocked_db 7
    (endpoint_of (sample_inbound 9 1 (Some false) (Some "cdn.example"))
       (Node.mk 1 "a" "10.0.0.1" "honey-agent" 8443 "serve" [] [] true false
          None None None None None None None None None None 0 0 0) (Some "cdn.example")))
    as (i & n & H1 & H2 & _ & H3 & _).
  - apply grouped_db_keyed.
  - eexists; reflexivity.
  - vm_compute. auto.
  - exists i, n. auto.
Defined.

(** Deleting a node group opens the nodes it alone restricted: a node
    whose only group is removed is afterwards reachable by every user. *)
Theorem group_deletion_opens_nodes (g n : Uuid) (db db' : Db) :
  delete_node_group g db = (true, db') ->
  (forall g', (n, g') ∈ node_group_members db -> g' = g) ->
  forall uid, can_reach uid n db' = true.
Proof.
  unfold delete_node_group. destruct (node_groups db !! g) as [gr|]; [|done].
  destruct (is_default gr); [done|]. intros Heq Honly uid. simplify_eq.
  apply can_reach_spec. left. intros g' Hin. simpl in Hin.
  apply elem_of_filter in Hin as [Hne Hin]. simpl in Hne. by apply Hne, Honly.
Qed.

Lemma group_deletion_opens_nodes_witness :
  can_reach 8 1 grouped_db = false /\
  can_reach 8 1 (delete_node_group 5 grouped_db).2 = true.
Proof.
  split; [vm_compute; reflexivity|].
  apply (group_deletion_opens_nodes 5 1 grouped_db).
  - vm_compute. reflexivity.
  - intros g' Hin. simpl in Hin. apply elem_of_singleton in Hin. congruence.
Defined.
