(* ===== verification/Wg.v ===== *)
(** * WireGuard address pools, AmneziaWG parameters and client files
    (src/master/src/wg.rs and the peer queries of src/master/src/db/repo.rs)

    Addresses are 32-bit numbers.  Curve25519, base64 and the random source are
    parameters. *)

From S2P Require Import Prelude Strings Json Models Db.

Inductive wg_error :=
| BadCidr
| BadCidrAddress
| BadCidrPrefix
| PrefixOutOfRange
| PoolTooSmall
| PoolExhausted
| BadKey
| KeyLength
| RngFailed
| WgDb (e : db_error).

(** ** Keys *)

Section Keys.
(** Standard base64, and the public key of a 32-byte secret. *)
Context (b64_encode : list Z -> string) (b64_decode : string -> option (list Z)).
Context (x25519_public : list Z -> list Z).

Record Keypair := mkKeypair { private_key : string; public_key : string }.

(** [generate] on the 32 bytes the random source returned, if it did. *)
Definition generate (seed : option (list Z)) : result Keypair wg_error :=
  match seed with
  | None => Err RngFailed
  | Some s => Ok (mkKeypair (b64_encode s) (b64_encode (x25519_public s)))
  end.

Definition public_from_private (private_b64 : string) : result string wg_error :=
  match b64_decode (trim private_b64) with
  | None => Err BadKey
  | Some bytes =>
      if (length bytes =? 32)%nat then Ok (b64_encode (x25519_public bytes))
      else Err KeyLength
  end.
End Keys.

(** ** Pools *)

Definition parse_cidr (cidr : string) : result (Z * Z) wg_error :=
  match split_once "/" cidr with
  | None => Err BadCidr
  | Some (addr, prefix) =>
      match parse_ipv4 (trim addr) with
      | None => Err BadCidrAddress
      | Some ip =>
          match parse_unsigned u8_max (trim prefix) with
          | None => Err BadCidrPrefix
          | Some prefix =>
              if 32 <? prefix then Err PrefixOutOfRange else Ok (ip, prefix)
          end
      end
  end.

(** [u32::MAX << n]: the shift amount is taken modulo the width, as release
    builds do. *)
Definition shl_max (n : Z) : Z := wrap_u32 (Z.shiftl u32_max (n mod 32)).
Definition not_u32 (a : Z) : Z := u32_max - a.

Definition server_address (cidr : string) : result Z wg_error :=
  let? bp := parse_cidr cidr in
  let '(base, prefix) := bp in
  let mask := if prefix =? 0 then 0 else shl_max (32 - prefix) in
  let net := Z.land base mask in
  Ok (wrap_u32 (net + 1)).

(** The [for host in lo..hi] loop. *)
Fixpoint first_free (fuel : nat) (host : Z) (taken : list Z) : option Z :=
  match fuel with
  | O => None
  | S fuel =>
      if existsb (Z.eqb host) taken then first_free fuel (host + 1) taken
      else Some host
  end.

Definition allocate_ip (cidr : string) (taken : list Z) : result Z wg_error :=
  let? bp := parse_cidr cidr in
  let '(base, prefix) := bp in
  bail PoolTooSmall when 31 <=? prefix in
  let mask := shl_max (32 - prefix) in
  let net := Z.land base mask in
  let broadcast := Z.lor net (not_u32 mask) in
  let lo := wrap_u32 (net + 2) in
  match first_free (Z.to_nat (broadcast - lo)) lo taken with
  | Some host => Ok host
  | None => Err PoolExhausted
  end.

(** ** AmneziaWG parameters *)

Record AmneziaParams := mkAmnezia {
  jc : Z; jmin : Z; jmax : Z; s1 : Z; s2 : Z; h1 : Z; h2 : Z; h3 : Z; h4 : Z }.

Definition le32 (buf : list Z) (i : nat) : Z :=
  nth i buf 0 + nth (i + 1) buf 0 * 2 ^ 8 + nth (i + 2) buf 0 * 2 ^ 16
  + nth (i + 3) buf 0 * 2 ^ 24.

Definition header (buf : list Z) (i : nat) : Z := 5 + le32 buf i mod 2147483632.

(** [AmneziaParams::generate] on the 16 bytes of the random source. *)
Definition amnezia_generate (buf : option (list Z)) : result AmneziaParams wg_error :=
  match buf with
  | None => Err RngFailed
  | Some buf =>
      Ok (mkAmnezia 4 40 70 0 0 (header buf 0) (header buf 4) (header buf 8) (header buf 12))
  end.

Definition amnezia_lines (a : AmneziaParams) : string :=
  "Jc = " +:+ show (jc a) +:+ nl +:+ "Jmin = " +:+ show (jmin a) +:+ nl
  +:+ "Jmax = " +:+ show (jmax a) +:+ nl +:+ "S1 = " +:+ show (s1 a) +:+ nl
  +:+ "S2 = " +:+ show (s2 a) +:+ nl +:+ "H1 = " +:+ show (h1 a) +:+ nl
  +:+ "H2 = " +:+ show (h2 a) +:+ nl +:+ "H3 = " +:+ show (h3 a) +:+ nl
  +:+ "H4 = " +:+ show (h4 a) +:+ nl.

Record ClientConfig := mkClientConfig {
  client_private : string;
  client_address : string;
  cc_dns : string;
  cc_mtu : Z;
  server_public : string;
  endpoint : string;
  cc_amnezia : option AmneziaParams }.

Definition client_config (c : ClientConfig) : string :=
  "[Interface]" +:+ nl
  +:+ "PrivateKey = " +:+ client_private c +:+ nl
  +:+ "Address = " +:+ client_address c +:+ "/32" +:+ nl
  +:+ (if is_empty (cc_dns c) then "" else "DNS = " +:+ cc_dns c +:+ nl)
  +:+ (if 0 <? cc_mtu c then "MTU = " +:+ show (cc_mtu c) +:+ nl else "")
  +:+ (match cc_amnezia c with Some a => amnezia_lines a | None => "" end)
  +:+ nl +:+ "[Peer]" +:+ nl
  +:+ "PublicKey = " +:+ server_public c +:+ nl
  +:+ "Endpoint = " +:+ endpoint c +:+ nl
  +:+ "AllowedIPs = 0.0.0.0/0, ::/0" +:+ nl
  +:+ "PersistentKeepalive = 25" +:+ nl.

(** ** Peers *)

Section Peers.
Context (encrypt : string -> option string) (decrypt : string -> option string).

Definition decrypt_wg_peer (p : WgPeer.WgPeer) : result WgPeer.WgPeer wg_error :=
  match decrypt (WgPeer.private_key p) with
  | None => Err (WgDb DecryptFailed)
  | Some k => Ok (WgPeer.mk (WgPeer.id p) (WgPeer.interface_id p) (WgPeer.user_id p) k
                    (WgPeer.public_key p) (WgPeer.address p) (WgPeer.created_at p))
  end.

Definition on_interface (iface : Uuid) (p : WgPeer.WgPeer) : bool :=
  WgPeer.interface_id p =? iface.
Definition peer_of (iface user : Uuid) (p : WgPeer.WgPeer) : bool :=
  on_interface iface p && (WgPeer.user_id p =? user).

Definition wg_peers_for_interface (iface : Uuid) (peers : list WgPeer.WgPeer)
    : result (list WgPeer.WgPeer) wg_error :=
  try_map decrypt_wg_peer (List.filter (on_interface iface) peers).

(** The INSERT with the table's two unique constraints, (interface, user) and
    (interface, address). *)
Definition insert_peer (p : WgPeer.WgPeer) (peers : list WgPeer.WgPeer)
    : result (list WgPeer.WgPeer) wg_error :=
  if existsb (fun q => on_interface (WgPeer.interface_id p) q
                && ((WgPeer.user_id q =? WgPeer.user_id p)
                    || String.eqb (WgPeer.address q) (WgPeer.address p))) peers
  then Err (WgDb UniqueViolation)
  else Ok (peers ++ [p]).

Definition taken_ips (iface : Uuid) (peers : list WgPeer.WgPeer) : list Z :=
  omap (fun p => parse_ipv4 (WgPeer.address p)) (List.filter (on_interface iface) peers).

(** [ensure_wg_peer]; [id], [now] and the key pair are what the database and
    the random source supply. *)
Definition ensure_wg_peer (id now : Z) (kp : result Keypair wg_error)
    (iface : WgInterface.WgInterface) (user_id : Uuid) (peers : list WgPeer.WgPeer)
    : result (WgPeer.WgPeer * list WgPeer.WgPeer) wg_error :=
  let iid := WgInterface.id iface in
  match List.find (peer_of iid user_id) peers with
  | Some existing => let? p := decrypt_wg_peer existing in Ok (p, peers)
  | None =>
      let? ip := allocate_ip (WgInterface.address_cidr iface) (taken_ips iid peers) in
      let? kp := kp in
      match encrypt (private_key kp) with
      | None => Err (WgDb DecryptFailed)
      | Some private_enc =>
          let p := WgPeer.mk id iid user_id private_enc (public_key kp) (show_ipv4 ip) now in
          let? peers' := insert_peer p peers in
          let? p := decrypt_wg_peer p in
          Ok (p, peers')
      end
  end.
End Peers.

(** ** Properties *)

Lemma first_free_some fuel : forall lo taken h,
  first_free fuel lo taken = Some h ->
  lo <= h < lo + Z.of_nat fuel /\ ~ In h taken /\
  (forall x, lo <= x < h -> In x taken).
Proof.
  induction fuel as [|fuel IH]; intros lo taken h; simpl; [done|].
  destruct (existsb (Z.eqb lo) taken) eqn:E.
  - intros H. apply IH in H as (H1 & H2 & H3). repeat split; try lia; [done|].
    intros x Hx. destruct (Z.eq_dec x lo) as [->|]; [|apply H3; lia].
    apply existsb_exists in E as (y & Hy & He). breflect. by subst.
  - intros; simplify_eq. repeat split; try lia.
    intros Hin. apply not_true_iff_false in E. apply E, existsb_exists.
    exists h. split; [done|]. by apply Z.eqb_eq.
Qed.

Lemma first_free_none fuel : forall lo taken,
  first_free fuel lo taken = None ->
  forall x, lo <= x < lo + Z.of_nat fuel -> In x taken.
Proof.
  induction fuel as [|fuel IH]; intros lo taken; simpl; [intros _ x Hx; lia|].
  destruct (existsb (Z.eqb lo) taken) eqn:E; [|done].
  intros H x Hx. destruct (Z.eq_dec x lo) as [->|]; [|eapply IH; [done|lia]].
  apply existsb_exists in E as (y & Hy & He). breflect. by subst.
Qed.

Lemma parse_cidr_bounds cidr base prefix :
  parse_cidr cidr = Ok (base, prefix) -> 0 <= base <= u32_max /\ 0 <= prefix <= 32.
Proof.
  unfold parse_cidr. destruct (split_once "/" cidr) as [[a p]|]; [|done].
  destruct (parse_ipv4 (trim a)) as [ip|] eqn:Ei; [|done].
  destruct (parse_unsigned u8_max (trim p)) as [n|] eqn:En; [|done].
  destruct (Z.ltb_spec 32 n); [done|]. intros; simplify_eq. split.
  - unfold parse_ipv4 in Ei.
    assert (Ho : forall s v, parse_octet s = Some v -> 0 <= v <= 255).
    { intros s v. unfold parse_octet. destruct (_ || _); [done|]. destruct (_ && _); [done|].
      destruct (digits_value 0 s) as [w|] eqn:Ed; [|done].
      apply digits_value_nonneg in Ed; [|done].
      destruct (Z.leb_spec w 255); intros; simplify_eq. lia. }
    destruct (split "." (trim a)) as [|x1 [|x2 [|x3 [|x4 [|]]]]]; try done.
    destruct (parse_octet x1) eqn:E1; [|done]. destruct (parse_octet x2) eqn:E2; [|done].
    destruct (parse_octet x3) eqn:E3; [|done]. destruct (parse_octet x4) eqn:E4; [|done].
    apply Ho in E1, E2, E3, E4. simplify_eq. unfold ipv4_of_octets, u32_max.
    change (2 ^ 24) with 16777216. change (2 ^ 16) with 65536. change (2 ^ 8) with 256. lia.
  - split; [|done]. unfold parse_unsigned in En.
    destruct (is_empty _); [done|].
    destruct (digits_value 0 _) as [w|] eqn:Ed; [|done].
    apply digits_value_nonneg in Ed; [|done].
    destruct (w <=? u8_max); intros; simplify_eq. lia.
Qed.

Lemma land_high_mask base k :
  0 <= k <= 32 -> 0 <= base < 2 ^ 32 ->
  Z.land base (2 ^ 32 - 2 ^ k) = base / 2 ^ k * 2 ^ k.
Proof.
  intros Hk Hb.
  replace (2 ^ 32 - 2 ^ k) with (Z.shiftl (Z.ones (32 - k)) k).
  2:{ rewrite Z.shiftl_mul_pow2, Z.ones_equiv by lia.
      replace (2 ^ 32) with (2 ^ (32 - k) * 2 ^ k) by (rewrite <- Z.pow_add_r by lia; f_equal; lia).
      lia. }
  rewrite <- Z.shiftr_div_pow2, <- Z.shiftl_mul_pow2 by lia.
  apply Z.bits_inj'. intros n Hn.
  rewrite Z.land_spec, !Z.shiftl_spec by done.
  destruct (Z.ltb_spec n k) as [Hlt|Hge].
  - rewrite !(Z.testbit_neg_r _ (n - k)) by lia. apply andb_false_r.
  - rewrite Z.shiftr_spec by lia. replace (n - k + k) with n by lia.
    destruct (Z.ltb_spec n 32).
    + rewrite Z.ones_spec_low by lia. apply andb_true_r.
    + rewrite Z.ones_spec_high by lia. rewrite andb_false_r. symmetry.
      rewrite <- (Z.mod_small base (2 ^ 32)) by lia. by apply Z.mod_pow2_bits_high.
Qed.

Lemma lor_low_ones q k :
  0 <= k -> Z.lor (q * 2 ^ k) (2 ^ k - 1) = q * 2 ^ k + (2 ^ k - 1).
Proof.
  intros Hk. replace (2 ^ k - 1) with (Z.ones k) by (rewrite Z.ones_equiv; lia).
  assert (Hd : Z.land (q * 2 ^ k) (Z.ones k) = 0)
    by (rewrite Z.land_ones by done; apply Z.mod_mul; lia).
  rewrite (Z.add_nocarry_lxor _ _ Hd). symmetry. by apply Z.lxor_lor.
Qed.

Lemma shl_max_mask k : 0 <= k < 32 -> shl_max k = 2 ^ 32 - 2 ^ k.
Proof.
  intros Hk. unfold shl_max, wrap_u32. rewrite (Z.mod_small k 32) by lia.
  rewrite Z.shiftl_mul_pow2 by lia.
  assert (Hp : 2 ^ k <= 2 ^ 32) by (apply Z.pow_le_mono_r; lia).
  assert (H0 : 0 < 2 ^ k) by (apply Z.pow_pos_nonneg; lia).
  replace (u32_max * 2 ^ k) with (2 ^ 32 - 2 ^ k + (2 ^ k - 1) * 2 ^ 32)
    by (change u32_max with (2 ^ 32 - 1); lia).
  rewrite Z.mod_add by lia. apply Z.mod_small. lia.
Qed.

(** The pool of a parsed CIDR: network address and size. *)
Definition pool_net (base prefix : Z) : Z := base / 2 ^ (32 - prefix) * 2 ^ (32 - prefix).
Definition pool_size (prefix : Z) : Z := 2 ^ (32 - prefix).

Lemma pool_net_bounds base prefix :
  0 <= base <= u32_max -> 1 <= prefix <= 30 ->
  0 <= pool_net base prefix <= base /\
  pool_net base prefix + pool_size prefix <= 2 ^ 32 /\ 4 <= pool_size prefix.
Proof.
  intros Hb Hp. unfold pool_net, pool_size, u32_max in *.
  set (s := 2 ^ (32 - prefix)).
  assert (Hs : 4 <= s) by (change 4 with (2 ^ 2); apply Z.pow_le_mono_r; lia).
  assert (Hm : 2 ^ 32 = 2 ^ prefix * s)
    by (subst s; rewrite <- Z.pow_add_r by lia; f_equal; lia).
  pose proof (Z.mul_div_le base s ltac:(lia)).
  assert (0 <= base / s) by (apply Z.div_pos; lia).
  assert (base / s < 2 ^ prefix) by (apply Z.div_lt_upper_bound; lia).
  repeat split; nia.
Qed.

Lemma allocate_ip_unfold cidr base prefix taken :
  parse_cidr cidr = Ok (base, prefix) -> 1 <= prefix <= 30 ->
  allocate_ip cidr taken =
    match first_free (Z.to_nat (pool_size prefix - 3)) (pool_net base prefix + 2) taken with
    | Some host => Ok host
    | None => Err PoolExhausted
    end.
Proof.
  intros Hc Hp. destruct (parse_cidr_bounds _ _ _ Hc) as [Hb _].
  destruct (pool_net_bounds base prefix Hb Hp) as (H1 & H2 & H3).
  unfold allocate_ip. rewrite Hc.
  replace (31 <=? prefix) with false by (symmetry; breflect; lia).
  rewrite shl_max_mask by lia.
  rewrite land_high_mask by (unfold u32_max in *; lia). fold (pool_net base prefix).
  unfold not_u32. replace (u32_max - (2 ^ 32 - 2 ^ (32 - prefix)))
    with (2 ^ (32 - prefix) - 1) by (change u32_max with (2 ^ 32 - 1); lia).
  unfold pool_net at 1. rewrite lor_low_ones by lia. fold (pool_net base prefix).
  fold (pool_size prefix).
  replace (wrap_u32 (pool_net base prefix + 2)) with (pool_net base prefix + 2)
    by (unfold wrap_u32; symmetry; apply Z.mod_small; lia).
  replace (pool_net base prefix + (pool_size prefix - 1) - (pool_net base prefix + 2))
    with (pool_size prefix - 3) by lia.
  done.
Qed.

(** Address allocation is exact.  In a pool of /1 to /30 the allocator
    returns the lowest free host strictly between the server's address and the
    broadcast address, and reports exhaustion exactly when every such host is
    taken. *)
Theorem allocate_ip_lowest_free (cidr : string) (base prefix : Z) (taken : list Z) :
  parse_cidr cidr = Ok (base, prefix) -> 1 <= prefix <= 30 ->
  let net := pool_net base prefix in
  let host x := net + 2 <= x < net + pool_size prefix - 1 in
  match allocate_ip cidr taken with
  | Ok h => host h /\ ~ In h taken /\ (forall x, host x -> x < h -> In x taken)
  | Err e => e = PoolExhausted /\ forall x, host x -> In x taken
  end.
Proof.
  intros Hc Hp net host. destruct (parse_cidr_bounds _ _ _ Hc) as [Hb _].
  destruct (pool_net_bounds base prefix Hb Hp) as (H1 & H2 & H3).
  rewrite (allocate_ip_unfold cidr base prefix taken Hc Hp). fold net.
  destruct (first_free _ _ taken) as [h|] eqn:E.
  - apply first_free_some in E as (Hh & Hn & Hl).
    subst host. repeat split; try lia; [done|]. intros x Hx Hlt. apply Hl. lia.
  - split; [done|]. intros x Hx. unfold host in Hx. eapply first_free_none; [exact E|]. lia.
Qed.

Lemma allocate_ip_lowest_free_witness :
  let net := pool_net 168230912 30 in
  let host x := net + 2 <= x < net + pool_size 30 - 1 in
  match allocate_ip "10.7.0.0/30" [] with
  | Ok h => host h /\ ~ In h [] /\ (forall x, host x -> x < h -> In x [])
  | Err e => e = PoolExhausted /\ forall x, host x -> In x []
  end.
Proof.
  apply (allocate_ip_lowest_free "10.7.0.0/30" 168230912 30 []).
  - vm_compute. reflexivity.
  - split; vm_compute; discriminate.
Defined.

(** A /0 pool cannot be used: the shift amount of a /0 pool
    wraps around, the mask covers a single address, and every allocation from
    the default network fails although the server address is computed. *)
Theorem allocate_ip_prefix_zero (taken : list Z) :
  server_address "0.0.0.0/0" = Ok 1 /\
  allocate_ip "0.0.0.0/0" taken = Err PoolExhausted.
Proof. split; reflexivity. Qed.

(** ** Peer table *)

(** One peer per user and per address on each interface. *)
Definition peers_unique (peers : list WgPeer.WgPeer) : Prop :=
  forall i j p q, peers !! i = Some p -> peers !! j = Some q ->
    WgPeer.interface_id p = WgPeer.interface_id q ->
    WgPeer.user_id p = WgPeer.user_id q \/ WgPeer.address p = WgPeer.address q -> i = j.

Lemma taken_ips_in iface peers p ip :
  In p peers -> WgPeer.interface_id p = iface ->
  parse_ipv4 (WgPeer.address p) = Some ip -> In ip (taken_ips iface peers).
Proof.
  intros Hin Hi Hp. unfold taken_ips. rewrite <- list_elem_of_In, list_elem_of_omap.
  exists p. split; [|done]. apply list_elem_of_In, List.filter_In. split; [done|].
  by apply Z.eqb_eq.
Qed.

Lemma insert_peer_ok p peers :
  ~ In (WgPeer.user_id p) (map WgPeer.user_id
      (List.filter (on_interface (WgPeer.interface_id p)) peers)) ->
  (forall q, In q peers -> WgPeer.interface_id q = WgPeer.interface_id p ->
     WgPeer.address q <> WgPeer.address p) ->
  insert_peer p peers = Ok (peers ++ [p]).
Proof.
  intros Hu Ha. unfold insert_peer.
  destruct (existsb _ peers) eqn:E; [|done]. exfalso.
  apply existsb_exists in E as (q & Hq & H). apply andb_true_iff in H as [Hi H].
  apply orb_true_iff in H as [H|H].
  - apply Hu, in_map_iff. exists q. breflect. split; [done|]. by apply List.filter_In.
  - apply Z.eqb_eq in Hi. apply String.eqb_eq in H. by apply (Ha q).
Qed.

Lemma peers_unique_snoc p peers :
  peers_unique peers ->
  (forall q, In q peers -> WgPeer.interface_id q = WgPeer.interface_id p ->
     WgPeer.user_id q <> WgPeer.user_id p /\ WgPeer.address q <> WgPeer.address p) ->
  peers_unique (peers ++ [p]).
Proof.
  intros Hu Hn.
  assert (Hold : forall i q, (peers ++ [p]) !! i = Some q ->
    (i < length peers)%nat /\ peers !! i = Some q \/ i = length peers /\ q = p).
  { intros i q H. apply lookup_app_Some in H as [H|[Hlen H]].
    - left. split; [by eapply lookup_lt_Some|done].
    - right. apply list_lookup_singleton_Some in H as [H ->]. split; [lia|done]. }
  intros i j a b Ha Hb Hi Hk.
  destruct (Hold i a Ha) as [[_ Ha']|[-> ->]], (Hold j b Hb) as [[_ Hb']|[-> ->]]; [| | |done].
  - by eapply Hu.
  - exfalso. destruct (Hn a) as [H1 H2]; [by apply list_elem_of_In, list_elem_of_lookup; eauto|done|].
    destruct Hk; congruence.
  - exfalso. destruct (Hn b) as [H1 H2]; [by apply list_elem_of_In, list_elem_of_lookup; eauto|done|].
    destruct Hk; congruence.
Qed.

(** Peer provisioning keeps the table well formed.  In a pool of /1 to /30
    [ensure_wg_peer] never trips the table's unique constraints, keeps one peer
    per user and per address, and leaves the user with a peer on the
    interface whose address is a pool host. *)
Theorem ensure_wg_peer_unique (encrypt decrypt : string -> option string)
    (id now : Z) (kp : result Keypair wg_error) (iface : WgInterface.WgInterface)
    (user : Uuid) (peers : list WgPeer.WgPeer) (base prefix : Z) :
  parse_cidr (WgInterface.address_cidr iface) = Ok (base, prefix) -> 1 <= prefix <= 30 ->
  peers_unique peers ->
  (forall e, kp = Err e -> e = RngFailed) ->
  match ensure_wg_peer encrypt decrypt id now kp iface user peers with
  | Ok (p, peers') =>
      peers_unique peers' /\ WgPeer.user_id p = user /\
      WgPeer.interface_id p = WgInterface.id iface /\
      (exists q, In q peers' /\ WgPeer.address q = WgPeer.address p) /\
      (peers' <> peers -> exists h, WgPeer.address p = show_ipv4 h /\
         pool_net base prefix + 2 <= h < pool_net base prefix + pool_size prefix - 1)
  | Err e => e <> WgDb UniqueViolation
  end.
Proof.
  intros Hc Hp Hu Hkp. unfold ensure_wg_peer.
  destruct (List.find (peer_of (WgInterface.id iface) user) peers) as [ex|] eqn:Ef.
  { apply find_some in Ef as [Hin Hex]. unfold peer_of, on_interface in Hex. breflect.
    destruct Hex as [Hi Huser]. unfold decrypt_wg_peer. destruct (decrypt _); [|done]. simpl.
    split; [done|]. split; [done|]. split; [done|]. split; [eauto|done]. }
  destruct (parse_cidr_bounds _ _ _ Hc) as [Hb _].
  destruct (pool_net_bounds base prefix Hb Hp) as (H1 & H2 & H3).
  rewrite (allocate_ip_unfold _ base prefix _ Hc Hp).
  destruct (first_free _ _ _) as [h|] eqn:E; [|done].
  apply first_free_some in E as (Hh & Hn & _).
  destruct kp as [kp|e]; [|rewrite (Hkp e eq_refl); done].
  destruct (encrypt (private_key kp)) as [enc|]; [|done].
  set (p := WgPeer.mk _ _ _ _ _ _ _).
  assert (Hnew : forall q, In q peers -> WgPeer.interface_id q = WgInterface.id iface ->
     WgPeer.user_id q <> user /\ WgPeer.address q <> show_ipv4 h).
  { intros q Hq Hi. split.
    - intros Hus. pose proof (find_none _ _ Ef q Hq) as Hf.
      unfold peer_of, on_interface in Hf. rewrite Hi, Hus, !Z.eqb_refl in Hf. done.
    - intros Ha. apply Hn. eapply (taken_ips_in _ _ q); [done..|].
      rewrite Ha. apply ipv4_roundtrip. unfold u32_max. lia. }
  rewrite insert_peer_ok; subst p; simpl.
  2:{ intros Hin. apply in_map_iff in Hin as (q & Hus & Hq).
      apply List.filter_In in Hq as [Hq Hi]. apply Z.eqb_eq in Hi.
      by destruct (Hnew q Hq Hi). }
  2:{ intros q Hq Hi. by apply Hnew. }
  unfold decrypt_wg_peer. simpl. destruct (decrypt enc); [|done]. simpl.
  split; [by apply peers_unique_snoc|]. split; [done|]. split; [done|]. split.
  - eexists. split; [apply in_or_app; right; by left|]. done.
  - intros _. exists h. split; [done|]. lia.
Qed.

Definition sample_iface : WgInterface.WgInterface :=
  WgInterface.mk 1 1 "wg0" 51820 "priv" "pub" "10.7.0.0/24" "1.1.1.1" 1420 false
    empty_object None true 0 0.

Definition sample_peers : list WgPeer.WgPeer := [WgPeer.mk 2 1 7 "x" "X" "10.7.0.2" 0].
Definition sample_new_peer : WgPeer.WgPeer := WgPeer.mk 3 1 8 "k" "K" "10.7.0.3" 0.

Lemma sample_ensure :
  ensure_wg_peer Some Some 3 0 (Ok (mkKeypair "k" "K")) sample_iface 8 sample_peers
  = Ok (sample_new_peer, sample_peers ++ [sample_new_peer]).
Proof. vm_compute. reflexivity. Qed.

Lemma ensure_wg_peer_unique_witness : peers_unique (sample_peers ++ [sample_new_peer]).
Proof.
  pose proof (ensure_wg_peer_unique Some Some 3 0 (Ok (mkKeypair "k" "K")) sample_iface 8
    sample_peers 168230912 24) as H.
  rewrite sample_ensure in H. apply H; clear H.
  - vm_compute. reflexivity.
  - split; vm_compute; discriminate.
  - intros i j p q Hi Hj _ _.
    apply list_lookup_singleton_Some in Hi as [-> _], Hj as [-> _]. reflexivity.
  - intros e He. discriminate.
Defined.

(** The magic headers of generated AmneziaWG parameters avoid WireGuard's
    message types, but nothing keeps them apart: some random bytes give
    parameters whose headers coincide. *)
Theorem amnezia_headers_bounds_and_collision :
  (forall buf a, Forall (fun b => 0 <= b < 256) buf -> amnezia_generate (Some buf) = Ok a ->
     Forall (fun h => 5 <= h <= 2147483636) [h1 a; h2 a; h3 a; h4 a]) /\
  (exists buf a, length buf = 16%nat /\ amnezia_generate (Some buf) = Ok a /\ h1 a = h2 a).
Proof.
  split.
  - intros buf a _ H. injection H as <-. simpl.
    assert (Hb : forall i, 5 <= header buf i <= 2147483636).
    { intros i. unfold header. pose proof (Z.mod_pos_bound (le32 buf i) 2147483632 eq_refl). lia. }
    repeat constructor; apply Hb.
  - exists (List.repeat 0 16). eexists. repeat split.
Qed.
