(* ===== verification/Subscription.v ===== *)
(** * Client configuration documents (src/master/src/subscription.rs)

    Endpoint expansion and the sing-box document, built as a JSON value; links,
    Clash documents and headers are in Documents.v. *)

From S2P Require Import Prelude Strings Json Models.
Import Models.SubscriptionEndpoint.

Abbreviation Endpoint := SubscriptionEndpoint.SubscriptionEndpoint (only parsing).
Abbreviation Profile := RoutingProfile.RoutingProfile (only parsing).

Inductive render_error :=
| UnsupportedProtocol
| UnsupportedTransport
| UnknownTransport
| MethodRequired
| TlsRequired
| RealityKeyRequired
| BadUrl
| BadUsername
| BadPassword
| JsonFailed.

(** ** Labels *)

Definition non_empty_trimmed (s : option string) : option string :=
  opt_filter (fun v => negb (is_empty v)) (trim <$> s).

Definition happ_value (e : Endpoint) (key : string) : option string :=
  non_empty_trimmed
    (match get "happ" (extra e) with Some h => get_str key h | None => None end).

(** The regional indicator of an upper-case letter, U+1F1E6 + (byte - 'A'). *)
Definition regional_indicator (c : ascii) : string :=
  bytes_of [240; 159; 135; 166 + (code c - 65)].

Fixpoint string_of_bytes_map (f : ascii -> string) (s : string) : string :=
  match s with "" => "" | String c s' => f c +:+ string_of_bytes_map f s' end.

Definition country_flag (code : string) : option string :=
  let code := map_bytes upper (trim code) in
  if negb (len code =? 2) || negb (all_bytes (fun c => is_upper c || is_lower c) code)
  then None
  else Some (string_of_bytes_map regional_indicator code).

Definition client_label_with_fallback (e : Endpoint) (fallback : string) : string :=
  let name := default fallback (happ_value e "name") in
  match match happ_value e "country_code" with
        | Some c => country_flag c
        | None => None
        end with
  | Some flag => flag +:+ " " +:+ name
  | None => name
  end.

Definition client_label_from_endpoint (e : Endpoint) : string :=
  client_label_with_fallback e (node_name e +:+ "-" +:+ tag e).

Definition client_label (u : User.User) (e : Endpoint) : string :=
  client_label_with_fallback e
    (User.username u +:+ " @ " +:+ node_name e +:+ " / " +:+ tag e).

(** ** Hosts *)

Definition cdn_networks : list string := ["ws"; "http"; "h2"; "httpupgrade"; "xhttp"].

Definition connect_host (e : Endpoint) : string :=
  match transport_host e with
  | Some host =>
      if negb (is_empty host) && one_of cdn_networks (network e) then host else address e
  | None => address e
  end.

Definition display_host (address : string) : string :=
  if contains ":" address && negb (starts_with "[" address)
  then "[" +:+ address +:+ "]" else address.

(** ** Address expansion *)

Definition with_alt (addr tag' : string) (extra' : json) (e : Endpoint) : Endpoint :=
  mk (inbound_id e) (node_name e) addr tag' (kind e) (core e) (listen_port e) (flow e)
    (tls_enabled e) (server_name e) (reality e) (reality_public_key e)
    (reality_short_ids e) (network e) (transport_path e) (transport_host e)
    (transport_service_name e) (transport_mode e) (utls_fingerprint e) (ech e)
    extra' (extra_addresses e).

(** [extra.happ.name], when it is a string, gets the alternative's number. *)
Definition rename_happ (i : Z) (extra : json) : json :=
  match get "happ" extra with
  | Some (JObject happ) =>
      match field_get "name" happ with
      | Some (JString base) =>
          jset "happ" (jset "name" (JString (base +:+ " · alt " +:+ show i)) (JObject happ)) extra
      | _ => extra
      end
  | _ => extra
  end.

Fixpoint alternates (i : Z) (addrs : list string) (e : Endpoint) : list Endpoint :=
  match addrs with
  | [] => []
  | addr :: rest =>
      with_alt addr (tag e +:+ "-alt" +:+ show i) (rename_happ i (extra e)) e
      :: alternates (i + 1) rest e
  end.

Definition fronted (e : Endpoint) : bool :=
  is_some_and (transport_host e) (fun h => negb (is_empty h)).

Definition expand_one (e : Endpoint) : list Endpoint :=
  if fronted e || match extra_addresses e with [] => true | _ => false end
  then [e]
  else e :: alternates 1 (extra_addresses e) e.

Definition expand_endpoints (es : list Endpoint) : list Endpoint := flat_map expand_one es.

(** ** sing-box *)

Definition ss_plugin (e : Endpoint) : option (string * string) :=
  match non_empty_trimmed (get_str "plugin" (extra e)) with
  | None => None
  | Some name => Some (name, trim (default "" (get_str "plugin_opts" (extra e))))
  end.

Definition hop_ports (e : Endpoint) : option string :=
  opt_filter (fun s => negb (is_empty s)) (get_str "hop_ports" (extra e)).

Definition set_opt (k : string) (f : string -> json) (o : option string) (j : json) : json :=
  match o with Some s => jset k (f s) j | None => j end.

Definition singbox_transport (e : Endpoint) : result (option json) render_error :=
  let n := network e in
  if one_of [""; "tcp"] n then Ok None
  else if String.eqb n "ws" then
    Ok (Some (set_opt "headers" (fun host => obj [("Host", JString host)]) (transport_host e)
               (set_opt "path" JString (transport_path e) (obj [("type", JString "ws")]))))
  else if String.eqb n "grpc" then
    Ok (Some (obj [("type", JString "grpc");
                   ("service_name", JString (default "" (transport_service_name e)))]))
  else if one_of ["http"; "h2"] n then
    Ok (Some (set_opt "host" (fun host => jstrs [host]) (transport_host e)
               (set_opt "path" JString (transport_path e) (obj [("type", JString "http")]))))
  else if String.eqb n "httpupgrade" then
    Ok (Some (set_opt "host" JString (transport_host e)
               (set_opt "path" JString (transport_path e) (obj [("type", JString "httpupgrade")]))))
  else if String.eqb n "quic" then Ok (Some (obj [("type", JString "quic")]))
  else if one_of ["xhttp"; "mkcp"] n then Err UnsupportedTransport
  else Err UnknownTransport.

(** [replace('-', ":")] on a single byte. *)
Definition replace_byte (a b : ascii) : string -> string :=
  map_bytes (fun c => if Ascii.eqb c a then b else c).

Definition outbound_base (uuid username password : string) (e : Endpoint)
    : result json render_error :=
  let head type_ := [("type", JString type_); ("tag", JString (client_label_from_endpoint e));
                     ("server", JString (connect_host e)); ("server_port", jint (listen_port e))] in
  let k := kind e in
  if String.eqb k "vless" then
    Ok (obj (head "vless" ++ [("uuid", JString uuid); ("flow", JString (flow e))]))
  else if String.eqb k "vmess" then
    Ok (obj (head "vmess" ++ [("uuid", JString uuid); ("security", JString "auto")]))
  else if String.eqb k "hysteria2" then
    Ok (obj (head "hysteria2" ++ [("password", JString (username +:+ ":" +:+ password))]))
  else if String.eqb k "trojan" then
    Ok (obj (head "trojan" ++ [("password", JString password)]))
  else if String.eqb k "tuic" then
    Ok (obj (head "tuic" ++ [("uuid", JString uuid); ("password", JString password);
                             ("congestion_control", JString "bbr")]))
  else if String.eqb k "shadowsocks" then
    match get_str "method" (extra e) with
    | None => Err MethodRequired
    | Some method =>
        let ss := obj (head "shadowsocks" ++ [("method", JString method); ("password", JString password)]) in
        Ok (match ss_plugin e with
            | Some (name, opts) => jset "plugin_opts" (JString opts) (jset "plugin" (JString name) ss)
            | None => ss
            end)
    end
  else Err UnsupportedProtocol.

Definition outbound_tls (e : Endpoint) : json :=
  let tls := obj [("enabled", JBool true);
                  ("server_name", JString (default (address e) (server_name e)))] in
  let tls := if reality e
    then jset "reality" (obj [("enabled", JBool true);
                              ("public_key", jopt_str (reality_public_key e));
                              ("short_id", jopt_str (head (reality_short_ids e)))]) tls
    else tls in
  let fingerprint :=
    opt_or (opt_filter (fun v => negb (is_empty v)) (utls_fingerprint e))
      (if reality e then Some "qq" else None) in
  let tls := match fingerprint with
    | Some fp => jset "utls" (obj [("enabled", JBool true); ("fingerprint", JString fp)]) tls
    | None => tls
    end in
  if ech e then jset "ech" (obj [("enabled", JBool true)]) tls else tls.

Definition singbox_outbound (uuid username password : string) (e : Endpoint)
    : result json render_error :=
  let? outbound := outbound_base uuid username password e in
  let outbound :=
    if String.eqb (kind e) "hysteria2" then
      match hop_ports e with
      | Some ports => jset "server_ports" (jstrs [replace_byte "-" ":" ports]) outbound
      | None => outbound
      end
    else outbound in
  let outbound := if tls_enabled e then jset "tls" (outbound_tls e) outbound else outbound in
  let? transport := singbox_transport e in
  Ok (match transport with Some t => jset "transport" t outbound | None => outbound end).

Definition parse_app_rule (rule : json) : option (string * string) :=
  let! geosite := get_str "geosite" rule in
  let geosite := trim geosite in
  let! action := get_str "action" rule in
  if is_empty geosite || negb (one_of ["direct"; "proxy"; "block"] action)
  then None else Some (geosite, action).

Definition parse_app_rules (value : json) : list (string * string) :=
  match as_array value with
  | Some arr => omap parse_app_rule arr
  | None => []
  end.

Definition singbox_rule_set (tag geo detour : string) : json :=
  let repo := if String.eqb geo "geoip" then "sing-geoip" else "sing-geosite" in
  obj [("type", JString "remote"); ("tag", JString tag); ("format", JString "binary");
       ("url", JString ("https://raw.githubusercontent.com/SagerNet/" +:+ repo
                        +:+ "/rule-set/" +:+ tag +:+ ".srs"));
       ("download_detour", JString detour)].

(** The accumulator of [singbox_rules]: rules, rule sets, need_block. *)
Record rule_acc := mkAcc { ra_rules : list json; ra_sets : list json; ra_block : bool }.

Definition push_rule (rule : json) (a : rule_acc) : rule_acc :=
  mkAcc (ra_rules a ++ [rule]) (ra_sets a) (ra_block a).
Definition set_block (a : rule_acc) : rule_acc := mkAcc (ra_rules a) (ra_sets a) true.
Definition push_set (set : json) (a : rule_acc) : rule_acc :=
  mkAcc (ra_rules a) (ra_sets a ++ [set]) (ra_block a).

Definition rule_to (field : string) (v : json) (outbound : string) : json :=
  obj [(field, v); ("outbound", JString outbound)].

(** A geo rule set and the rule that uses it. *)
Definition geo_rule (detour geo code outbound : string) (a : rule_acc) : rule_acc :=
  let tag := geo +:+ "-" +:+ code in
  push_rule (rule_to "rule_set" (JString tag) outbound) (push_set (singbox_rule_set tag geo detour) a).

Definition apply_if {A} (b : bool) (f : A -> A) (a : A) : A := if b then f a else a.

Definition block_category (detour code : string) (a : rule_acc) : rule_acc :=
  set_block (geo_rule detour "geosite" code "block" a).

Definition app_outbound (has_proxy : bool) (action : string) : string :=
  if String.eqb action "block" then "block"
  else if String.eqb action "proxy" then (if has_proxy then "proxy" else "direct")
  else "direct".

Definition app_rule (has_proxy : bool) (detour : string) (a : rule_acc)
    (rule : string * string) : rule_acc :=
  let a := geo_rule detour "geosite" rule.1 (app_outbound has_proxy rule.2) a in
  if String.eqb rule.2 "block" then set_block a else a.

Definition nonempty {A} (l : list A) : bool := match l with [] => false | _ => true end.

Definition singbox_rules (profile : option Profile) (has_proxy : bool) : rule_acc :=
  let detour := if has_proxy then "proxy" else "direct" in
  match profile with
  | None => mkAcc [rule_to "ip_is_private" (JBool true) "direct"] [] false
  | Some p =>
      let a := mkAcc [] [] false in
      let a := apply_if (RoutingProfile.block_ads p) (block_category detour "category-ads-all") a in
      let a := apply_if (RoutingProfile.block_adult p) (block_category detour "category-porn") a in
      let a := apply_if (RoutingProfile.block_gambling p) (block_category detour "category-gambling") a in
      let a := apply_if (nonempty (RoutingProfile.blocked_domains p))
        (fun a => set_block (push_rule (rule_to "domain_suffix" (jstrs (RoutingProfile.blocked_domains p)) "block") a)) a in
      let a := apply_if (RoutingProfile.direct_private p)
        (push_rule (rule_to "ip_is_private" (JBool true) "direct")) a in
      let a := apply_if (nonempty (RoutingProfile.direct_domains p))
        (push_rule (rule_to "domain_suffix" (jstrs (RoutingProfile.direct_domains p)) "direct")) a in
      let a := fold_left (fun a code => geo_rule detour "geosite" code "direct" a)
        (RoutingProfile.direct_geosite p) a in
      let a := fold_left (fun a code => geo_rule detour "geoip" code "direct" a)
        (RoutingProfile.direct_geoip p) a in
      let a := apply_if (has_proxy && nonempty (RoutingProfile.proxy_domains p))
        (push_rule (rule_to "domain_suffix" (jstrs (RoutingProfile.proxy_domains p)) "proxy")) a in
      fold_left (app_rule has_proxy detour) (parse_app_rules (RoutingProfile.app_rules p)) a
  end.

Definition dns_block (p : Profile) (has_proxy : bool) : option json :=
  let doh := trim (RoutingProfile.dns_doh p) in
  if is_empty doh then None else
  let detour := if has_proxy then "proxy" else "direct" in
  let servers :=
    [obj [("tag", JString "remote"); ("address", JString doh); ("detour", JString detour);
          ("address_resolver", JString "local")];
     obj [("tag", JString "local"); ("address", JString "local"); ("detour", JString "direct")]] in
  let dns := obj [("final", JString "remote")] in
  let '(servers, dns) :=
    if RoutingProfile.dns_fakeip p then
      (servers ++ [obj [("tag", JString "fakeip"); ("address", JString "fakeip")]],
       jset "independent_cache" (JBool true)
         (jset "fakeip" (obj [("enabled", JBool true); ("inet4_range", JString "198.18.0.0/15");
                              ("inet6_range", JString "fc00::/18")])
           (jset "rules" (JArray [obj [("query_type", jstrs ["A"; "AAAA"]);
                                       ("server", JString "fakeip")]]) dns)))
    else (servers, dns) in
  Some (jset "servers" (JArray servers) dns).

Definition ok {A E} (r : result A E) : option A :=
  match r with Ok a => Some a | Err _ => None end.

Definition proxies_of (u : User.User) (es : list Endpoint) : list json :=
  omap (fun e => ok (singbox_outbound (User.uuid u) (User.username u) (User.password u) e)) es.

Definition tags_of (proxies : list json) : list string := omap (get_str "tag") proxies.

Definition proxy_groups (tags : list string) : list json :=
  [obj [("type", JString "urltest"); ("tag", JString "auto"); ("outbounds", jstrs tags);
        ("url", JString "https://www.gstatic.com/generate_204"); ("interval", JString "5m")];
   obj [("type", JString "selector"); ("tag", JString "proxy");
        ("outbounds", jstrs ("auto" :: tags)); ("default", JString "auto")]].

Definition direct_outbound : json := obj [("type", JString "direct"); ("tag", JString "direct")].
Definition block_outbound : json := obj [("type", JString "block"); ("tag", JString "block")].

Definition tun_inbound : json :=
  obj [("type", JString "tun"); ("tag", JString "tun-in"); ("address", jstrs ["172.19.0.1/30"]);
       ("auto_route", JBool true); ("strict_route", JBool true); ("stack", JString "mixed");
       ("sniff", JBool true)].

(** The parts [singbox_config] assembles: outbounds, rules, rule sets, the
    final outbound and the dns block. *)
Record singbox_parts := mkParts {
  sp_outbounds : list json;
  sp_rules : list json;
  sp_rule_sets : list json;
  sp_final : string;
  sp_dns : option json }.

Definition singbox_assemble (u : User.User) (es : list Endpoint)
    (profile : option Profile) : singbox_parts :=
  let proxies := proxies_of u es in
  let tags := tags_of proxies in
  let has_proxy := nonempty tags in
  let outbounds := (if has_proxy then proxy_groups tags else []) ++ proxies ++ [direct_outbound] in
  let final_proxy := map_or profile true RoutingProfile.final_proxy in
  let final_tag := if has_proxy && final_proxy then "proxy" else "direct" in
  let acc := singbox_rules profile has_proxy in
  let dns := match profile with Some p => dns_block p has_proxy | None => None end in
  let plain := is_some_and profile RoutingProfile.dns_block_plain in
  let need_block := ra_block acc || plain in
  let rules := if plain then rule_to "port" (jint 53) "block" :: ra_rules acc else ra_rules acc in
  mkParts (outbounds ++ if need_block then [block_outbound] else [])
    rules (ra_sets acc) final_tag dns.

Definition singbox_config (u : User.User) (es : list Endpoint) (tun : bool)
    (profile : option Profile) : json :=
  let p := singbox_assemble u es profile in
  let route := obj [("rules", JArray (sp_rules p)); ("final", JString (sp_final p))] in
  let route := if nonempty (sp_rule_sets p) then jset "rule_set" (JArray (sp_rule_sets p)) route
               else route in
  let route := if tun then jset "auto_detect_interface" (JBool true) route else route in
  let config := obj [("log", obj [("level", JString "info")]);
                     ("outbounds", JArray (sp_outbounds p)); ("route", route)] in
  let config := match sp_dns p with Some dns => jset "dns" dns config | None => config end in
  if tun then jset "inbounds" (JArray [tun_inbound]) config else config.

(** ** References of a sing-box document *)

Definition array_field (k : string) (j : json) : list json :=
  match get k j with Some (JArray l) => l | _ => [] end.

Definition declared_tags (config : json) : list string :=
  tags_of (array_field "outbounds" config).

(** Members and default of a group outbound. *)
Definition group_refs (o : json) : list string :=
  omap as_str (array_field "outbounds" o)
  ++ match get_str "default" o with Some d => [d] | None => [] end.

(** Every outbound tag the document refers to: group members and defaults,
    rule targets, the final outbound, rule-set downloads and DNS detours. *)
Definition referenced_tags (config : json) : list string :=
  let route := default JNull (get "route" config) in
  let dns := default JNull (get "dns" config) in
  flat_map group_refs (array_field "outbounds" config)
  ++ omap (get_str "outbound") (array_field "rules" route)
  ++ match get_str "final" route with Some t => [t] | None => [] end
  ++ omap (get_str "download_detour") (array_field "rule_set" route)
  ++ omap (get_str "detour") (array_field "servers" dns).

Definition target_ok (has_proxy block : bool) (t : string) : Prop :=
  t = "direct" \/ (t = "proxy" /\ has_proxy = true) \/ (t = "block" /\ block = true).

Definition acc_ok (has_proxy : bool) (a : rule_acc) : Prop :=
  Forall (fun r => exists t, get_str "outbound" r = Some t /\ target_ok has_proxy (ra_block a) t)
    (ra_rules a) /\
  Forall (fun s => get_str "download_detour" s = Some (if has_proxy then "proxy" else "direct"))
    (ra_sets a).

Lemma target_ok_block has_proxy b t : target_ok has_proxy b t -> target_ok has_proxy true t.
Proof. unfold target_ok. intuition. Qed.

Lemma rule_to_outbound field v t :
  get_str "outbound" (rule_to field v t) = Some t.
Proof.
  unfold rule_to, obj, get_str, get. cbn [fold_left fst snd].
  by rewrite field_get_insert, String.eqb_refl.
Qed.

Lemma rule_set_detour tag geo detour :
  get_str "download_detour" (singbox_rule_set tag geo detour) = Some detour.
Proof. reflexivity. Qed.

Lemma acc_ok_push has_proxy a field v t :
  acc_ok has_proxy a -> target_ok has_proxy (ra_block a) t ->
  acc_ok has_proxy (push_rule (rule_to field v t) a).
Proof.
  intros [Hr Hs] Ht. split; [|done]. simpl. apply Forall_app_2; [done|].
  constructor; [|done]. exists t. split; [by apply rule_to_outbound|done].
Qed.

Lemma acc_ok_set_block has_proxy a : acc_ok has_proxy a -> acc_ok has_proxy (set_block a).
Proof.
  intros [Hr Hs]. split; [|done]. simpl. eapply Forall_impl; [exact Hr|].
  simpl. intros r (t & H1 & H2). exists t. split; [done|]. by eapply target_ok_block.
Qed.

Lemma acc_ok_push_set has_proxy a tag geo :
  acc_ok has_proxy a ->
  acc_ok has_proxy (push_set (singbox_rule_set tag geo (if has_proxy then "proxy" else "direct")) a).
Proof.
  intros [Hr Hs]. split; [done|]. simpl. apply Forall_app_2; [done|].
  constructor; [apply rule_set_detour|done].
Qed.

Lemma acc_ok_geo has_proxy a geo code t :
  acc_ok has_proxy a -> target_ok has_proxy (ra_block a) t ->
  acc_ok has_proxy (geo_rule (if has_proxy then "proxy" else "direct") geo code t a).
Proof.
  intros Ha Ht. unfold geo_rule. apply acc_ok_push; [|done]. by apply acc_ok_push_set.
Qed.

(** A blocking rule together with the block outbound it needs. *)
Lemma acc_ok_geo_block has_proxy a geo code :
  acc_ok has_proxy a ->
  acc_ok has_proxy (set_block (geo_rule (if has_proxy then "proxy" else "direct") geo code "block" a)).
Proof.
  intros Ha. apply acc_ok_set_block in Ha. apply (acc_ok_geo has_proxy _ geo code "block") in Ha; [done|].
  right; right; done.
Qed.

Lemma acc_ok_fold {A} has_proxy (f : rule_acc -> A -> rule_acc) l :
  (forall a x, acc_ok has_proxy a -> acc_ok has_proxy (f a x)) ->
  forall a, acc_ok has_proxy a -> acc_ok has_proxy (fold_left f l a).
Proof. intros Hf. induction l; simpl; auto. Qed.

Lemma acc_ok_if has_proxy b f a :
  acc_ok has_proxy a -> (b = true -> acc_ok has_proxy (f a)) ->
  acc_ok has_proxy (apply_if b f a).
Proof. destruct b; simpl; auto. Qed.

Lemma acc_ok_app has_proxy a rule :
  acc_ok has_proxy a ->
  acc_ok has_proxy (app_rule has_proxy (if has_proxy then "proxy" else "direct") a rule).
Proof.
  intros Ha. unfold app_rule, app_outbound.
  destruct (String.eqb rule.2 "block"); [by apply acc_ok_geo_block|].
  apply acc_ok_geo; [done|]. unfold target_ok.
  destruct (String.eqb rule.2 "proxy"), has_proxy; auto.
Qed.

#[local] Hint Resolve acc_ok_if acc_ok_geo_block acc_ok_fold acc_ok_app acc_ok_set_block : honey.

Lemma singbox_rules_ok profile has_proxy : acc_ok has_proxy (singbox_rules profile has_proxy).
Proof.
  assert (Hd : forall b, target_ok has_proxy b "direct") by (intros; by left).
  destruct profile as [p|]; simpl.
  - apply acc_ok_fold; [intros; by apply acc_ok_app|].
    apply acc_ok_if; [|intros Hb; apply acc_ok_push].
    3:{ apply andb_true_iff in Hb as [Hp _]. unfold target_ok. auto. }
    all: apply acc_ok_fold; [intros; by apply acc_ok_geo|].
    all: apply acc_ok_fold; [intros; by apply acc_ok_geo|].
    all: apply acc_ok_if; [|intros _; apply acc_ok_push; [|done]].
    all: apply acc_ok_if; [|intros _; apply acc_ok_push; [|done]].
    all: apply acc_ok_if; [|intros _; apply (acc_ok_push has_proxy (set_block _));
           [apply acc_ok_set_block|right; right; done]].
    all: unfold block_category; repeat (apply acc_ok_if; [|intros _; apply acc_ok_geo_block]).
    all: by split; constructor.
  - split; [|constructor]. constructor; [|constructor]. exists "direct". split; [done|by left].
Qed.

(** A rendered proxy names itself and is not a group. *)
Lemma singbox_outbound_shape uuid username password e o :
  singbox_outbound uuid username password e = Ok o ->
  get_str "tag" o = Some (client_label_from_endpoint e) /\ group_refs o = [].
Proof.
  unfold singbox_outbound. destruct (outbound_base uuid username password e) as [b|] eqn:Eb; [|done].
  assert (Hb : exists f, b = JObject f /\ field_get "tag" f = Some (JString (client_label_from_endpoint e))
            /\ field_get "outbounds" f = None /\ field_get "default" f = None).
  { unfold outbound_base in Eb.
    repeat match type of Eb with
    | (if ?c then _ else _) = _ => destruct c
    end; try (injection Eb as <-; eexists; repeat split; reflexivity); [|done].
    destruct (get_str "method" (extra e)); [|done].
    destruct (ss_plugin e) as [[]|]; injection Eb as <-; eexists; repeat split; reflexivity. }
  destruct Hb as (f & -> & Ht & Ho & Hd). clear Eb.
  destruct (singbox_transport e) as [t|]; [|done].
  intros Heq. injection Heq as <-.
  unfold group_refs, array_field, get_str, get.
  destruct (String.eqb (kind e) "hysteria2"); [destruct (hop_ports e)|];
    destruct (tls_enabled e); destruct t as [t|]; simpl;
    rewrite ?field_get_insert; simpl; rewrite ?Ht, ?Ho, ?Hd; done.
Qed.

Lemma singbox_config_fields u es tun profile :
  let p := singbox_assemble u es profile in
  let cfg := singbox_config u es tun profile in
  let route := default JNull (get "route" cfg) in
  array_field "outbounds" cfg = sp_outbounds p /\
  array_field "rules" route = sp_rules p /\
  get_str "final" route = Some (sp_final p) /\
  array_field "rule_set" route = sp_rule_sets p /\
  get "dns" cfg = sp_dns p.
Proof.
  unfold singbox_config. generalize (singbox_assemble u es profile) as p. intros p.
  destruct (sp_rule_sets p) as [|s sets] eqn:Es; destruct (sp_dns p) as [d|]; destruct tun;
    simpl; rewrite ?Es; repeat split; reflexivity.
Qed.

Lemma in_tags_of t l : In t (tags_of l) <-> exists o, In o l /\ get_str "tag" o = Some t.
Proof.
  unfold tags_of. rewrite <- list_elem_of_In, list_elem_of_omap.
  split; intros (o & H1 & H2); exists o; rewrite list_elem_of_In in *; done.
Qed.

Lemma tags_of_app l l' : tags_of (l ++ l') = tags_of l ++ tags_of l'.
Proof. apply omap_app. Qed.

Lemma as_str_jstrs (l : list string) : omap as_str (JString <$> l) = l.
Proof. induction l as [|s l IH]; [done|exact (f_equal (cons s) IH)]. Qed.

Lemma proxy_groups_refs tags o x :
  In o (proxy_groups tags) -> In x (group_refs o) -> x = "auto" \/ In x tags.
Proof.
  intros [<-|[<-|[]]] Hx.
  - change (In x (omap as_str (JString <$> tags) ++ [])) in Hx.
    rewrite as_str_jstrs, app_nil_r in Hx. auto.
  - change (In x (("auto" :: omap as_str (JString <$> tags)) ++ ["auto"])) in Hx.
    rewrite as_str_jstrs, in_app_iff in Hx. simpl in Hx. intuition.
Qed.

Lemma dns_detours p has_proxy t :
  In t (omap (get_str "detour")
          (array_field "servers" (default JNull (dns_block p has_proxy)))) ->
  t = "direct" \/ (t = "proxy" /\ has_proxy = true).
Proof.
  unfold dns_block. destruct (is_empty _); [done|].
  destruct (RoutingProfile.dns_fakeip p), has_proxy; simpl; intuition.
Qed.

Lemma proxies_no_refs u es o : In o (proxies_of u es) -> group_refs o = [].
Proof.
  unfold proxies_of. rewrite <- list_elem_of_In, list_elem_of_omap.
  intros (e & _ & Ho). unfold ok in Ho.
  destruct (singbox_outbound _ _ _ e) as [o'|] eqn:E; simplify_eq.
  by apply singbox_outbound_shape in E as [_ ?].
Qed.

Lemma group_refs_declared u es blocked o t :
  let tags := tags_of (proxies_of u es) in
  let outs := ((if nonempty tags then proxy_groups tags else []) ++ proxies_of u es ++ [direct_outbound])
              ++ (if blocked : bool then [block_outbound] else []) in
  In o outs -> In t (group_refs o) -> In t (tags_of outs).
Proof.
  intros tags outs Hio Hot. subst outs. rewrite !in_app_iff in Hio.
  destruct Hio as [[Hio|[Hio|Hio]]|Hio].
  - destruct (nonempty tags); [|done].
    destruct (proxy_groups_refs tags o t Hio Hot) as [->|Ht].
    + apply in_tags_of. eexists. split; [rewrite !in_app_iff; left; left; by left|done].
    + rewrite !tags_of_app, !in_app_iff. auto.
  - by rewrite (proxies_no_refs u es o Hio) in Hot.
  - by destruct Hio as [<-|[]].
  - destruct blocked; [|done]. by destruct Hio as [<-|[]].
Qed.

(** C36: a generated sing-box document is closed.  Whatever the endpoints and
    the routing profile, every outbound tag the document refers to (group
    members and defaults, rule targets, the final outbound, rule-set download
    detours, DNS detours) is declared among its outbounds. *)
Theorem singbox_config_closed (u : User.User) (es : list Endpoint) (tun : bool)
    (profile : option Profile) (t : string) :
  In t (referenced_tags (singbox_config u es tun profile)) ->
  In t (declared_tags (singbox_config u es tun profile)).
Proof.
  destruct (singbox_config_fields u es tun profile) as (Ho & Hr & Hf & Hs & Hd).
  unfold referenced_tags, declared_tags. rewrite Ho, Hr, Hf, Hs, Hd.
  unfold singbox_assemble. cbn [sp_outbounds sp_rules sp_rule_sets sp_final sp_dns].
  set (proxies := proxies_of u es). set (tags := tags_of proxies).
  pose proof (singbox_rules_ok profile (nonempty tags)) as [Hrules Hsets].
  set (acc := singbox_rules profile (nonempty tags)) in *.
  set (plain := is_some_and profile RoutingProfile.dns_block_plain).
  set (outs := ((if nonempty tags then proxy_groups tags else []) ++ proxies ++ [direct_outbound])
               ++ (if ra_block acc || plain then [block_outbound] else [])).
  assert (Htarget : forall t', target_ok (nonempty tags) (ra_block acc || plain) t' ->
                     In t' (tags_of outs)).
  { intros t' Ht. apply in_tags_of. subst outs.
    destruct Ht as [->|[[-> Hp]|[-> Hb]]].
    - exists direct_outbound. split; [|done]. rewrite !in_app_iff. simpl. auto.
    - rewrite Hp. eexists. split; [rewrite !in_app_iff; left; left; simpl; right; by left|done].
    - rewrite Hb. exists block_outbound. split; [|done]. rewrite !in_app_iff. simpl. auto. }
  rewrite !in_app_iff. intros [Hin|[Hin|[Hin|[Hin|Hin]]]].
  - apply in_flat_map in Hin as (o & Hio & Hot). by apply (group_refs_declared u es _ o t).
  - apply Htarget. apply list_elem_of_In, list_elem_of_omap in Hin as (r & Hr' & Ht).
    destruct plain; [apply elem_of_cons in Hr' as [->|Hr']|].
    + rewrite rule_to_outbound in Ht. simplify_eq. right; right. rewrite orb_true_r. done.
    + rewrite Forall_forall in Hrules. destruct (Hrules r Hr') as (t' & H1 & H2).
      rewrite orb_true_r. rewrite H1 in Ht. simplify_eq. by eapply target_ok_block.
    + rewrite Forall_forall in Hrules. destruct (Hrules r Hr') as (t' & H1 & H2).
      rewrite orb_false_r. rewrite H1 in Ht. by simplify_eq.
  - apply Htarget. destruct Hin as [<-|[]].
    destruct (nonempty tags); simpl; [destruct (map_or _ _ _)|]; unfold target_ok; auto.
  - apply Htarget. apply list_elem_of_In, list_elem_of_omap in Hin as (s & Hs' & Ht).
    rewrite Forall_forall in Hsets. rewrite (Hsets s Hs') in Ht. simplify_eq.
    destruct (nonempty tags); unfold target_ok; auto.
  - apply Htarget. destruct profile as [p|]; [|done].
    apply dns_detours in Hin as [->|[-> Hp]]; unfold target_ok; auto.
Qed.

Definition sample_user : User.User :=
  User.mk 7 "alice" None None None "inherit" [] "uuid" "password" true 0 0 None 0 None
    "none" None None None 0 0.
Definition sample_endpoint : Endpoint :=
  mk 9 "node" "203.0.113.7" "in" "vless" "singbox" 443 "" true (Some "sni.example") false None []
    "tcp" None None None None None false empty_object [].

Lemma singbox_config_closed_witness :
  In "proxy" (declared_tags (singbox_config sample_user [sample_endpoint] true None)).
Proof.
  apply (singbox_config_closed sample_user [sample_endpoint] true None "proxy").
  vm_compute. auto 10.
Defined.
