(* ===== verification/Documents.v ===== *)
(** * Share links, Clash documents and subscription headers
    (src/master/src/subscription.rs)

    The URL library, base64, form encoding, Unicode upper-casing and the JSON
    printers are parameters of the section. *)

From S2P Require Import Prelude Strings Json Models Db Access Subscription.
Import Models.SubscriptionEndpoint.

(** What the code uses of the url crate. *)
Record UrlOps := mkUrlOps {
  Url : Type;
  url_parse : string -> option Url;
  set_username : string -> Url -> option Url;
  set_password : option string -> Url -> option Url;
  set_path : string -> Url -> Url;
  append_pair : string -> string -> Url -> Url;
  set_fragment : string -> Url -> Url;
  url_string : Url -> string }.

Record EndpointLink := mkLink {
  l_inbound_id : Uuid;
  l_node : string;
  l_tag : string;
  l_protocol : string;
  l_core : string;
  l_address : string;
  l_port : Z;
  l_uri : option string;
  l_error : option string }.

Section Rendering.
Context (ops : UrlOps).
Context (b64 : string -> string) (b64url : string -> string).
Context (form_encode : string -> string).
Context (to_uppercase : string -> string).
Context (json_compact : json -> option string) (json_pretty : json -> option string).

(** ** Share links *)

Definition label (u : User.User) (e : Endpoint) : string :=
  let title := client_label u e in
  match happ_value e "description" with
  | Some d => title +:+ "?serverDescription=" +:+ b64 d
  | None => title
  end.

Definition set_label (u : User.User) (e : Endpoint) (url : Url ops) : Url ops :=
  set_fragment ops (label u e) url.

Definition credential_url (scheme username : string) (password : option string)
    (e : Endpoint) : result (Url ops) render_error :=
  let host := display_host (connect_host e) in
  match url_parse ops (scheme +:+ "://" +:+ host +:+ ":" +:+ show (listen_port e)) with
  | None => Err BadUrl
  | Some url =>
      match set_username ops username url with
      | None => Err BadUsername
      | Some url =>
          match set_password ops password url with
          | None => Err BadPassword
          | Some url => Ok url
          end
      end
  end.

Definition append_opt (k : string) (o : option string) (url : Url ops) : Url ops :=
  match o with Some v => append_pair ops k v url | None => url end.

Definition append_security (e : Endpoint) (url : Url ops) : result (Url ops) render_error :=
  if reality e then
    match opt_filter (fun k => negb (is_empty k)) (reality_public_key e) with
    | None => Err RealityKeyRequired
    | Some pbk =>
        Ok (append_opt "sid" (head (reality_short_ids e))
             (append_opt "sni" (server_name e)
               (append_pair ops "pbk" pbk (append_pair ops "security" "reality" url))))
    end
  else if tls_enabled e then
    Ok (append_opt "sni" (server_name e) (append_pair ops "security" "tls" url))
  else Ok (append_pair ops "security" "none" url).

Definition network_or_tcp (e : Endpoint) : string :=
  if is_empty (network e) then "tcp" else network e.

Definition append_transport (e : Endpoint) (url : Url ops) : Url ops :=
  let network := network_or_tcp e in
  let url := append_pair ops "type" network url in
  let url :=
    if one_of ["ws"; "httpupgrade"; "http"; "h2"] network then
      append_opt "host" (transport_host e) (append_opt "path" (transport_path e) url)
    else if String.eqb network "grpc" then
      append_opt "serviceName" (transport_service_name e) url
    else if String.eqb network "xhttp" then
      append_opt "mode" (transport_mode e)
        (append_opt "host" (transport_host e) (append_opt "path" (transport_path e) url))
    else url in
  if tls_enabled e || reality e then
    append_pair ops "fp"
      (default "qq" (opt_filter (fun f => negb (is_empty f)) (utls_fingerprint e))) url
  else url.

Definition vless_uri (u : User.User) (e : Endpoint) : result string render_error :=
  let? url := credential_url "vless" (User.uuid u) None e in
  let url := append_pair ops "encryption" "none" url in
  let url := if is_empty (flow e) then url else append_pair ops "flow" (flow e) url in
  let? url := append_security e url in
  Ok (url_string ops (set_label u e (append_transport e url))).

Definition hysteria_auth (u : User.User) : string :=
  User.username u +:+ ":" +:+ User.password u.

Definition hysteria2_uri (u : User.User) (e : Endpoint) : result string render_error :=
  bail TlsRequired when negb (tls_enabled e) in
  let? url := credential_url "hysteria2" (hysteria_auth u) None e in
  let url := append_opt "mport" (hop_ports e)
               (append_opt "sni" (server_name e) (set_path ops "/" url)) in
  Ok (url_string ops (set_label u e url)).

Definition password_uri (scheme : string) (u : User.User) (e : Endpoint)
    : result string render_error :=
  let? url := credential_url scheme (User.password u) None e in
  let? url := append_security e url in
  Ok (url_string ops (set_label u e (append_transport e url))).

Definition tuic_uri (u : User.User) (e : Endpoint) : result string render_error :=
  let? url := credential_url "tuic" (User.uuid u) (Some (User.password u)) e in
  let? url := append_security e url in
  Ok (url_string ops (set_label u e (append_pair ops "congestion_control" "bbr" url))).

Definition vmess_uri (u : User.User) (e : Endpoint) : result string render_error :=
  let security := if tls_enabled e then "tls" else "" in
  let network := network_or_tcp e in
  let '(path, host) :=
    if String.eqb network "grpc" then (default "" (transport_service_name e), "")
    else (default "" (transport_path e), default "" (transport_host e)) in
  let document := obj
    [("v", JString "2"); ("ps", JString (label u e)); ("add", JString (connect_host e));
     ("port", JString (show (listen_port e))); ("id", JString (User.uuid u));
     ("aid", JString "0"); ("scy", JString "auto"); ("net", JString network);
     ("type", JString "none"); ("host", JString host); ("path", JString path);
     ("tls", JString security); ("sni", JString (default "" (server_name e)))] in
  match json_compact document with
  | None => Err JsonFailed
  | Some text => Ok ("vmess://" +:+ b64 text)
  end.

Definition shadowsocks_uri (u : User.User) (e : Endpoint) : result string render_error :=
  match get_str "method" (extra e) with
  | None => Err MethodRequired
  | Some method =>
      let credential := b64url (method +:+ ":" +:+ User.password u) in
      let host := display_host (connect_host e) in
      let fragment := form_encode (label u e) in
      let query :=
        match ss_plugin e with
        | Some (name, opts) =>
            let spec := if is_empty opts then name else name +:+ ";" +:+ opts in
            "?plugin=" +:+ form_encode spec
        | None => ""
        end in
      Ok ("ss://" +:+ credential +:+ "@" +:+ host +:+ ":" +:+ show (listen_port e)
          +:+ query +:+ "#" +:+ fragment)
  end.

Definition endpoint_uri (u : User.User) (e : Endpoint) : result string render_error :=
  let k := kind e in
  if String.eqb k "vless" then vless_uri u e
  else if String.eqb k "hysteria2" then hysteria2_uri u e
  else if String.eqb k "trojan" then password_uri "trojan" u e
  else if String.eqb k "tuic" then tuic_uri u e
  else if String.eqb k "vmess" then vmess_uri u e
  else if String.eqb k "shadowsocks" then shadowsocks_uri u e
  else Err UnsupportedProtocol.

Definition link (e : Endpoint) (uri error : option string) : EndpointLink :=
  mkLink (inbound_id e) (node_name e) (client_label_from_endpoint e) (kind e) (core e)
    (address e) (listen_port e) uri error.

Definition endpoint_links (u : User.User) (es : list Endpoint) : list EndpointLink :=
  (fun e => match endpoint_uri u e with
            | Ok uri => link e (Some uri) None
            | Err _ => link e None (Some "unsupported or invalid endpoint configuration")
            end) <$> es.

Definition v2ray_document (u : User.User) (es : list Endpoint) : string :=
  b64 (join (String (ascii_of_N 10) "") (omap l_uri (endpoint_links u es))).

(** ** Clash *)

Definition clash_tls (e : Endpoint) (p : json) : json :=
  let p := jset "tls" (JBool true) p in
  let p := set_opt "servername" JString (server_name e) p in
  match (if reality e then reality_public_key e else None) with
  | None => p
  | Some pbk =>
      let ro := set_opt "short-id" JString (head (reality_short_ids e))
                  (obj [("public-key", JString pbk)]) in
      jset "client-fingerprint" (JString (default "qq" (utls_fingerprint e)))
        (jset "reality-opts" ro p)
  end.

Definition if_tls (e : Endpoint) (p : json) : json :=
  if tls_enabled e then clash_tls e p else p.

Definition clash_transport (e : Endpoint) (p : json) : json :=
  let network := network_or_tcp e in
  if one_of ["ws"; "httpupgrade"] network then
    let ws := set_opt "headers" (fun host => obj [("Host", JString host)]) (transport_host e)
                (obj [("path", JString (default "" (transport_path e)))]) in
    jset "ws-opts" ws (jset "network" (JString "ws") p)
  else if String.eqb network "grpc" then
    jset "grpc-opts" (obj [("grpc-service-name", JString (default "" (transport_service_name e)))])
      (jset "network" (JString "grpc") p)
  else p.

Definition clash_proxy (u : User.User) (e : Endpoint) : result (string * json) render_error :=
  let name := client_label u e in
  bail UnsupportedTransport
    when one_of ["vless"; "vmess"; "trojan"] (kind e)
         && negb (one_of ["tcp"; "ws"; "httpupgrade"; "grpc"] (network_or_tcp e)) in
  let p := obj [("name", JString name); ("server", JString (connect_host e));
                ("port", jint (listen_port e))] in
  let k := kind e in
  let? p :=
    if String.eqb k "vless" then
      let p := jset "uuid" (JString (User.uuid u)) (jset "type" (JString "vless") p) in
      let p := if is_empty (flow e) then p else jset "flow" (JString (flow e)) p in
      Ok (clash_transport e (if_tls e p))
    else if String.eqb k "vmess" then
      Ok (clash_transport e (if_tls e
        (jset "cipher" (JString "auto") (jset "alterId" (jint 0)
          (jset "uuid" (JString (User.uuid u)) (jset "type" (JString "vmess") p))))))
    else if String.eqb k "trojan" then
      Ok (clash_transport e (set_opt "sni" JString (server_name e)
        (jset "password" (JString (User.password u)) (jset "type" (JString "trojan") p))))
    else if String.eqb k "hysteria2" then
      Ok (set_opt "sni" JString (server_name e)
        (jset "password" (JString (hysteria_auth u)) (jset "type" (JString "hysteria2") p)))
    else if String.eqb k "shadowsocks" then
      match get_str "method" (extra e) with
      | None => Err MethodRequired
      | Some method =>
          Ok (jset "password" (JString (User.password u))
            (jset "cipher" (JString method) (jset "type" (JString "ss") p)))
      end
    else Err UnsupportedProtocol in
  Ok (name, p).

Definition clash_proxies (u : User.User) (es : list Endpoint) : list (string * json) :=
  omap (fun e => ok (clash_proxy u e)) es.

Definition clash_group_name (u : User.User) : string :=
  default "Proxy" (opt_filter (fun v => negb (is_empty (trim v))) (User.subscription_group u)).
Definition clash_auto_name (u : User.User) : string :=
  if String.eqb (clash_group_name u) "Auto" then "Auto latency" else "Auto".

Definition clash_groups (u : User.User) (names : list string) : list json :=
  match names with
  | [] => []
  | _ =>
      [obj [("name", JString (clash_group_name u)); ("type", JString "select");
            ("proxies", jstrs (clash_auto_name u :: names))];
       obj [("name", JString (clash_auto_name u)); ("type", JString "url-test");
            ("proxies", jstrs names); ("url", JString "https://www.gstatic.com/generate_204");
            ("interval", jint 300)]]
  end.

Definition clash_target (u : User.User) (names : list string) (profile : option Profile) : string :=
  if nonempty names && map_or profile true RoutingProfile.final_proxy
  then clash_group_name u else "DIRECT".

(** A rule line as its comma-separated parts. *)
Definition rule_line (parts : list string) : json := JString (join "," parts).

Definition clash_rule_parts (target : string) (profile : option Profile) : list (list string) :=
  (match profile with
   | Some p =>
       (if RoutingProfile.block_ads p then [["GEOSITE"; "category-ads-all"; "REJECT"]] else [])
       ++ (if RoutingProfile.block_adult p then [["GEOSITE"; "category-porn"; "REJECT"]] else [])
       ++ (if RoutingProfile.block_gambling p then [["GEOSITE"; "category-gambling"; "REJECT"]] else [])
       ++ ((fun d => ["DOMAIN-SUFFIX"; d; "REJECT"]) <$> RoutingProfile.blocked_domains p)
       ++ (if RoutingProfile.direct_private p then [["GEOIP"; "PRIVATE"; "DIRECT"; "no-resolve"]] else [])
       ++ ((fun d => ["DOMAIN-SUFFIX"; d; "DIRECT"]) <$> RoutingProfile.direct_domains p)
       ++ ((fun c => ["GEOSITE"; c; "DIRECT"]) <$> RoutingProfile.direct_geosite p)
       ++ ((fun c => ["GEOIP"; to_uppercase c; "DIRECT"]) <$> RoutingProfile.direct_geoip p)
       ++ ((fun d => ["DOMAIN-SUFFIX"; d; target]) <$> RoutingProfile.proxy_domains p)
       ++ ((fun r : string * string =>
              ["GEOSITE"; r.1;
               if String.eqb r.2 "block" then "REJECT"
               else if String.eqb r.2 "proxy" then target else "DIRECT"])
            <$> parse_app_rules (RoutingProfile.app_rules p))
   | None => [["GEOIP"; "LAN"; "DIRECT"; "no-resolve"]; ["GEOIP"; "PRIVATE"; "DIRECT"; "no-resolve"]]
   end) ++ [["MATCH"; target]].

Definition clash_document (u : User.User) (es : list Endpoint) (profile : option Profile) : json :=
  let pairs := clash_proxies u es in
  let names := fst <$> pairs in
  let target := clash_target u names profile in
  obj [("mixed-port", jint 7890); ("mode", JString "rule");
       ("proxies", JArray (snd <$> pairs)); ("proxy-groups", JArray (clash_groups u names));
       ("rules", JArray (rule_line <$> clash_rule_parts target profile))].

Definition clash_config (u : User.User) (es : list Endpoint) (profile : option Profile) : string :=
  default "" (json_pretty (clash_document u es profile)).

(** ** Headers *)

(** Timestamps are microseconds; [timestamp()] floors to seconds. *)
Definition userinfo_header (u : User.User) : string :=
  let total := Z.max (User.traffic_limit_bytes u) 0 in
  let used := Z.max (User.used_traffic_bytes u) 0 in
  let expire := match User.expires_at u with Some at_ => at_ / 1000000 | None => 0 end in
  "upload=0; download=" +:+ show used +:+ "; total=" +:+ show total
  +:+ "; expire=" +:+ show expire.

Definition profile_title (u : User.User) : string :=
  default (User.username u)
    (opt_filter (fun t => negb (is_empty (trim t))) (User.subscription_title u)).

Definition profile_title_header (u : User.User) : string :=
  "base64:" +:+ b64 (take_chars 25 (profile_title u)).
End Rendering.

(** [value as f64]: round to nearest, ties to even, with 53 bits. *)
Definition f64_of_i64 (v : Z) : Z :=
  let a := Z.abs v in
  let e := Z.log2 a - 52 in
  if e <=? 0 then v else
  let q := a / 2 ^ e in
  let r := a mod 2 ^ e in
  let up := (2 ^ (e - 1) <? r) || ((r =? 2 ^ (e - 1)) && Z.odd q) in
  Z.sgn v * ((if up then q + 1 else q) * 2 ^ e).

Definition human_units : list string := ["B"; "GB"; "TB"; "PB"; "EB"].

(** The division loop on [n = num / 1024^index], exact in binary. *)
Fixpoint unit_index (fuel : nat) (num den : Z) (index : nat) : nat * Z :=
  match fuel with
  | O => (index, den)
  | S fuel =>
      if (1024 * den <=? num) && (Z.of_nat index <? 4)
      then unit_index fuel num (den * 1024) (S index)
      else (index, den)
  end.

(** [{:.1}]: the exact quotient rounded to one decimal, ties to even. *)
Definition one_decimal (num den : Z) : string :=
  let q := 10 * num / den in
  let r := (10 * num) mod den in
  let t := if (den <? 2 * r) || ((2 * r =? den) && Z.odd q) then q + 1 else q in
  show (t / 10) +:+ "." +:+ show (t mod 10).

Definition human_bytes (value : Z) : string :=
  let n := f64_of_i64 value in
  let '(index, den) := unit_index 5 n 1 0 in
  let unit_ := nth index human_units "" in
  if (index =? 0)%nat then show n +:+ " " +:+ unit_
  else one_decimal n den +:+ " " +:+ unit_.

(** [str::replace]: leftmost, non-overlapping occurrences. *)
Fixpoint replace_fuel (fuel : nat) (from to_ s : string) : string :=
  match fuel with
  | O => s
  | S fuel =>
      match strip_prefix from s with
      | Some rest => to_ +:+ replace_fuel fuel from to_ rest
      | None =>
          match s with
          | "" => ""
          | String c s' => String c (replace_fuel fuel from to_ s')
          end
      end
  end.
Definition replace (from to_ s : string) : string :=
  replace_fuel (S (String.length s)) from to_ s.

(** [num_days], on microseconds, clipped at zero. *)
Definition days_between (later earlier : Z) : Z := Z.max ((later - earlier) ÷ 86400000000) 0.

Definition infinity_sign : string := bytes_of [226; 136; 158].

Definition announce_values (now : Z) (u : User.User) : list (string * string) :=
  let elapsed := show (days_between now (User.created_at u)) in
  let left := match User.expires_at u with
              | Some at_ => show (days_between at_ now)
              | None => infinity_sign
              end in
  let spent := human_bytes (Z.max (User.used_traffic_bytes u) 0) in
  [("{USERNAME}", User.username u); ("{{USERNAME}}", User.username u);
   ("{DAYS_ELAPSED}", elapsed); ("{days_elapsed}", elapsed); ("{DAYS ELAPSED}", elapsed);
   ("{{DAYS_ELAPSED}}", elapsed);
   ("{TRAFFIC_SPENT}", spent); ("{traffic_spent}", spent); ("{TRAFFIC SPENT}", spent);
   ("{{TRAFFIC_SPENT}}", spent);
   ("{DAYS_LEFT}", left); ("{days_left}", left); ("{DAYS LEFT}", left); ("{{DAYS_LEFT}}", left)].

Definition announce_text (now : Z) (u : User.User) (template : string) : string :=
  take_chars 200
    (fold_left (fun text kv => replace kv.1 kv.2 text) (announce_values now u) template).

Definition announce_header (b64 : string -> string) (now : Z) (u : User.User) : option string :=
  let! template := opt_filter (fun v => negb (is_empty (trim v))) (User.subscription_description u) in
  let text := announce_text now u template in
  if is_empty (trim text) then None else Some ("base64:" +:+ b64 text).

(** ** Properties *)

(** The same endpoint on another origin address. *)
Definition with_address (a : string) (e : Endpoint) : Endpoint :=
  with_alt a (tag e) (extra e) e.

(** Fronted by a CDN: a CDN-capable transport carrying a host. *)
Definition cdn_fronted (e : Endpoint) : bool :=
  fronted e && one_of cdn_networks (network e).

Lemma connect_host_fronted e :
  cdn_fronted e = true -> exists h, transport_host e = Some h /\ connect_host e = h.
Proof.
  unfold cdn_fronted, fronted, connect_host, is_some_and.
  destruct (transport_host e) as [h|]; [|done]. intros H. rewrite H. eauto.
Qed.

Lemma connect_host_with_address a e :
  cdn_fronted e = true -> connect_host (with_address a e) = connect_host e.
Proof.
  unfold cdn_fronted, fronted, connect_host, is_some_and, with_address. simpl.
  destruct (transport_host e) as [h|]; [|done]. intros ->. done.
Qed.

Lemma singbox_transport_with_address a e :
  singbox_transport (with_address a e) = singbox_transport e.
Proof. done. Qed.

Lemma outbound_tls_with_address a e :
  is_some (server_name e) = true -> outbound_tls (with_address a e) = outbound_tls e.
Proof. unfold outbound_tls. simpl. by destruct (server_name e). Qed.

Lemma outbound_base_with_address uuid name pw a e :
  cdn_fronted e = true ->
  outbound_base uuid name pw (with_address a e) = outbound_base uuid name pw e.
Proof.
  intros H. unfold outbound_base. rewrite connect_host_with_address by done.
  reflexivity.
Qed.

Lemma outbound_base_object uuid name pw e b :
  outbound_base uuid name pw e = Ok b -> exists f, b = JObject f.
Proof.
  unfold outbound_base. intros Eb.
  repeat match type of Eb with
  | (if ?c then _ else _) = _ => destruct c
  end; try (injection Eb as <-; eexists; reflexivity); [|done].
  destruct (get_str "method" (extra e)); [|done].
  destruct (ss_plugin e) as [[]|]; injection Eb as <-; eexists; reflexivity.
Qed.

Lemma singbox_outbound_tls uuid name pw e out :
  singbox_outbound uuid name pw e = Ok out -> tls_enabled e = true ->
  get "tls" out = Some (outbound_tls e).
Proof.
  unfold singbox_outbound. destruct (outbound_base uuid name pw e) as [b|] eqn:Eb; [|done].
  apply outbound_base_object in Eb as [f ->].
  destruct (singbox_transport e) as [t|]; [|done]. intros Heq Ht. rewrite Ht in Heq.
  injection Heq as <-.
  unfold get. destruct (String.eqb (kind e) "hysteria2"); [destruct (hop_ports e)|];
    destruct t; simpl; rewrite ?field_get_insert; done.
Qed.

Lemma outbound_tls_server_name_default e :
  server_name e = None -> get_str "server_name" (outbound_tls e) = Some (address e).
Proof.
  intros H. unfold outbound_tls, get_str, get. rewrite H.
  destruct (reality e), (opt_or _ _), (ech e); reflexivity.
Qed.

Section HidingLemmas.
Context (ops : UrlOps) (b64 b64url form_encode : string -> string).
Context (json_compact : json -> option string).

Lemma credential_url_with_address scheme name pw a e :
  cdn_fronted e = true ->
  credential_url ops scheme name pw (with_address a e) = credential_url ops scheme name pw e.
Proof. intros H. unfold credential_url. by rewrite connect_host_with_address. Qed.

Lemma endpoint_uri_with_address u a e :
  cdn_fronted e = true ->
  endpoint_uri ops b64 b64url form_encode json_compact u (with_address a e)
  = endpoint_uri ops b64 b64url form_encode json_compact u e.
Proof.
  intros H. unfold endpoint_uri, vless_uri, hysteria2_uri, password_uri, tuic_uri,
    vmess_uri, shadowsocks_uri.
  rewrite !credential_url_with_address, !connect_host_with_address by done. reflexivity.
Qed.

Lemma clash_proxy_with_address u a e :
  cdn_fronted e = true -> clash_proxy u (with_address a e) = clash_proxy u e.
Proof. intros H. unfold clash_proxy. by rewrite connect_host_with_address. Qed.
End HidingLemmas.

(** The origin address of a CDN-fronted endpoint stays out of what clients
    receive: its share link and its Clash proxy do not depend on the address,
    and neither does its sing-box outbound when a TLS server name is set (or
    TLS is off). *)
Theorem cdn_hides_origin (ops : UrlOps) (b64 b64url form_encode : string -> string)
    (json_compact : json -> option string) (u : User.User) (e : Endpoint) (a : string) :
  cdn_fronted e = true ->
  endpoint_uri ops b64 b64url form_encode json_compact u (with_address a e)
    = endpoint_uri ops b64 b64url form_encode json_compact u e /\
  clash_proxy u (with_address a e) = clash_proxy u e /\
  (is_some (server_name e) || negb (tls_enabled e) = true ->
   singbox_outbound (User.uuid u) (User.username u) (User.password u) (with_address a e)
   = singbox_outbound (User.uuid u) (User.username u) (User.password u) e).
Proof.
  intros H. split; [by apply endpoint_uri_with_address|].
  split; [by apply clash_proxy_with_address|]. intros Hs. unfold singbox_outbound.
  rewrite outbound_base_with_address, singbox_transport_with_address by done.
  change (tls_enabled (with_address a e)) with (tls_enabled e).
  destruct (tls_enabled e); [|done].
  rewrite outbound_tls_with_address by (destruct (server_name e); done). done.
Qed.

(** The exception is real.  A CDN-fronted endpoint with TLS and no server
    name hands its origin address to sing-box clients as the TLS server name. *)
Theorem cdn_origin_leaks_as_sni (uuid name pw : string) (e : Endpoint) (out : json) :
  cdn_fronted e = true -> tls_enabled e = true -> server_name e = None ->
  singbox_outbound uuid name pw e = Ok out ->
  exists tls, get "tls" out = Some tls /\ get_str "server_name" tls = Some (address e).
Proof.
  intros _ Ht Hs H. exists (outbound_tls e). split.
  - eapply singbox_outbound_tls; eauto.
  - apply outbound_tls_server_name_default. done.
Qed.

Lemma subscription_endpoints_in collate uid db k i n :
  inbounds db !! k = Some i -> nodes db !! Inbound.node_id i = Some n ->
  endpoint_visible uid db (i, n) = true ->
  In (endpoint_of i n (served_host i)) (subscription_endpoints collate uid db).
Proof.
  intros Hi Hn Hv. unfold subscription_endpoints.
  apply list_elem_of_In, list_elem_of_fmap. exists (i, n). split; [done|].
  apply list_elem_of_In, sort_by_in, List.filter_In. split; [|done].
  unfold joined. apply in_flat_map. exists i. split; [apply in_rows; eauto|].
  rewrite Hn. by left.
Qed.

(** Failover to the fallback host works only on CDN-capable transports.  An
    inbound reported blocked, with a fallback host, is still handed to every
    user that reaches its node; on a transport that is not ws, http, h2,
    httpupgrade or xhttp the clients are sent to the node's own, blocked,
    address instead of the fallback host. *)
Theorem blocked_direct_keeps_origin (collate : string -> string -> bool)
    (uid k : Uuid) (db : Db) (i : Inbound.Inbound) (n : Node.Node) :
  inbounds db !! k = Some i -> nodes db !! Inbound.node_id i = Some n ->
  Inbound.reachable i = Some false -> endpoint_visible uid db (i, n) = true ->
  exists e, In e (subscription_endpoints collate uid db) /\
    inbound_id e = Inbound.id i /\ transport_host e = Inbound.fallback_host i /\
    (one_of cdn_networks (Inbound.network i) = true -> Some (connect_host e) = Inbound.fallback_host i) /\
    (one_of cdn_networks (Inbound.network i) = false -> connect_host e = Node.address n).
Proof.
  intros Hi Hn Hb Hv. exists (endpoint_of i n (served_host i)).
  pose proof Hv as Hf. unfold endpoint_visible, is_blocked in Hf. rewrite Hb in Hf.
  simpl in Hf. rewrite !andb_true_iff in Hf. destruct Hf as [[_ Hf] _].
  assert (Hh : served_host i = Inbound.fallback_host i).
  { unfold served_host, is_blocked. by rewrite Hb, Hf. }
  split; [by eapply subscription_endpoints_in|]. split; [done|]. split; [done|].
  unfold connect_host, has_fallback in *. simpl. rewrite Hh.
  destruct (Inbound.fallback_host i) as [h|]; [|done]. simpl in Hf.
  split; intros ->; [|by rewrite andb_false_r].
  unfold is_empty. by rewrite Hf.
Qed.

Lemma blocked_direct_keeps_origin_witness :
  exists e, In e (subscription_endpoints String.leb 7 blocked_db) /\ connect_host e = "10.0.0.1".
Proof.
  destruct (blocked_direct_keeps_origin String.leb 7 9 blocked_db
    (sample_inbound 9 1 (Some false) (Some "cdn.example"))
    (Node.mk 1 "a" "10.0.0.1" "honey-agent" 8443 "serve" [] [] true false
          None None None None None None None None None None 0 0 0))
    as (e & Hin & _ & _ & _ & Hd); try (vm_compute; reflexivity).
  exists e. split; [exact Hin|]. apply Hd. vm_compute. reflexivity.
Defined.

(** An endpoint that is not fronted is offered on every address of its
    node, in order; an endpoint with a transport host is offered once. *)
Theorem expand_covers_addresses (e : Endpoint) :
  (fronted e = false ->
   connect_host <$> expand_endpoints [e] = address e :: extra_addresses e) /\
  (fronted e = true -> expand_endpoints [e] = [e]).
Proof.
  unfold expand_endpoints. simpl. rewrite app_nil_r. unfold expand_one.
  split; intros Hf; rewrite Hf; simpl; [|done].
  assert (Hc : forall a t x, connect_host (with_alt a t x e) = a).
  { intros a t x. unfold connect_host, with_alt, fronted, is_some_and in *. simpl.
    destruct (transport_host e) as [h|]; [by rewrite Hf|done]. }
  assert (Hself : connect_host e = address e).
  { unfold connect_host, fronted, is_some_and in *.
    destruct (transport_host e) as [h|]; [by rewrite Hf|done]. }
  assert (Halt : forall l k, connect_host <$> alternates k l e = l).
  { induction l as [|x l IH]; intros k; simpl; [done|].
    change (connect_host (with_alt x (tag e +:+ "-alt" +:+ show k) (rename_happ k (extra e)) e)
            :: (connect_host <$> alternates (k + 1) l e) = x :: l).
    by rewrite Hc, IH. }
  destruct (extra_addresses e) as [|x l]; simpl; [by rewrite Hself|].
  exact (f_equal2 cons Hself (Halt (x :: l) 1)).
Qed.

Lemma expand_covers_addresses_witness :
  fronted sample_endpoint = false /\
  connect_host <$> expand_endpoints [sample_endpoint] = ["203.0.113.7"].
Proof.
  split; [reflexivity|]. exact (proj1 (expand_covers_addresses sample_endpoint) eq_refl).
Defined.

Definition fronted_endpoint (sni : option string) : Endpoint :=
  mk 9 "node" "203.0.113.7" "in" "vless" "singbox" 443 "" true sni false None []
    "ws" (Some "/p") (Some "cdn.example") None None None false empty_object [].

(** A URL as the text written so far. *)
Definition text_url : UrlOps :=
  mkUrlOps string Some (fun n u => Some (u +:+ "#user=" +:+ n))
    (fun p u => Some (u +:+ "#pass=" +:+ default "" p)) (fun p u => u +:+ p)
    (fun k v u => u +:+ "&" +:+ k +:+ "=" +:+ v) (fun f u => u +:+ "#" +:+ f) (fun u => u).

Lemma cdn_hides_origin_witness :
  clash_proxy sample_user (with_address "198.51.100.1" (fronted_endpoint (Some "sni.example")))
  = clash_proxy sample_user (fronted_endpoint (Some "sni.example")) /\
  singbox_outbound "uuid" "alice" "password" (with_address "198.51.100.1" (fronted_endpoint (Some "sni.example")))
  = singbox_outbound "uuid" "alice" "password" (fronted_endpoint (Some "sni.example")).
Proof.
  destruct (cdn_hides_origin text_url (fun s => s) (fun s => s) (fun s => s) (fun _ => Some "")
    sample_user (fronted_endpoint (Some "sni.example"))
    "198.51.100.1" eq_refl) as (_ & Hc & Hs).
  split; [exact Hc|exact (Hs eq_refl)].
Defined.

Lemma cdn_origin_leaks_as_sni_witness :
  exists out tls,
    singbox_outbound "u" "alice" "p" (fronted_endpoint None) = Ok out /\
    get "tls" out = Some tls /\ get_str "server_name" tls = Some "203.0.113.7".
Proof.
  eexists. destruct (cdn_origin_leaks_as_sni "u" "alice" "p" (fronted_endpoint None) _
    eq_refl eq_refl eq_refl eq_refl) as (tls & H1 & H2).
  exists tls. split; [reflexivity|]. split; [exact H1|exact H2].
Defined.

(** The policy a rule line names: its last part before [no-resolve]. *)
Definition rule_policy (parts : list string) : string :=
  match parts with
  | [_; t] => t
  | _ :: _ :: t :: _ => t
  | _ => ""
  end.

Lemma clash_rule_policies upper_ target profile parts :
  In parts (clash_rule_parts upper_ target profile) ->
  In (rule_policy parts) ["REJECT"; "DIRECT"; target].
Proof.
  unfold clash_rule_parts. intros H. apply in_app_iff in H as [H|[<-|[]]]; [|simpl; auto].
  destruct profile as [p|]; [|destruct H as [<-|[<-|[]]]; simpl; auto].
  repeat (apply in_app_iff in H as [H|H]).
  all: try (apply list_elem_of_In, list_elem_of_fmap in H as (x & -> & _)).
  all: repeat match type of H with
       | In _ (if ?b then _ else _) => destruct b
       | In _ [_] => destruct H as [<-|[]]
       | In _ [] => destruct H
       end.
  all: simpl; auto.
  destruct (String.eqb x.2 "block"), (String.eqb x.2 "proxy"); auto.
Qed.

(** A Clash proxy carries the name it is listed under. *)
Lemma clash_tls_name e f :
  exists f', clash_tls e (JObject f) = JObject f' /\ field_get "name" f' = field_get "name" f.
Proof.
  unfold clash_tls. destruct (server_name e), (if reality e then reality_public_key e else None);
    simpl; eexists; (split; [reflexivity|]); by rewrite ?field_get_insert.
Qed.

Lemma clash_transport_name e f :
  exists f', clash_transport e (JObject f) = JObject f' /\ field_get "name" f' = field_get "name" f.
Proof.
  unfold clash_transport. destruct (one_of _ _); [|destruct (String.eqb _ _)]; simpl;
    eexists; (split; [reflexivity|]); by rewrite ?field_get_insert.
Qed.

Lemma clash_tls_transport_name e f :
  exists f', clash_transport e (if_tls e (JObject f)) = JObject f'
    /\ field_get "name" f' = field_get "name" f.
Proof.
  assert (Ht : exists f1, if_tls e (JObject f) = JObject f1 /\ field_get "name" f1 = field_get "name" f).
  { unfold if_tls. destruct (tls_enabled e); [apply clash_tls_name|eauto]. }
  destruct Ht as (f1 & -> & <-). apply clash_transport_name.
Qed.

Definition fields_of (j : json) : list (string * json) :=
  match j with JObject f => f | _ => [] end.

Ltac clash_named_by lemma p :=
  let f' := fresh in let Hr := fresh in let Hf := fresh in
  destruct lemma as (f' & Hr & Hf);
  change (JObject (fields_of p)) with p in Hr; rewrite Hr;
  unfold get_str, get; rewrite Hf; reflexivity.

Ltac clash_named :=
  match goal with
  | |- get_str _ (clash_transport ?e (if_tls ?e ?p)) = _ =>
      clash_named_by (clash_tls_transport_name e (fields_of p)) p
  | |- get_str _ (clash_transport ?e ?p) = _ =>
      clash_named_by (clash_transport_name e (fields_of p)) p
  end.

Lemma clash_proxy_name u e name p : clash_proxy u e = Ok (name, p) -> get_str "name" p = Some name.
Proof.
  unfold clash_proxy.
  destruct (_ && _); [done|]. intros H.
  repeat match type of H with
  | context [if String.eqb (kind e) ?k then _ else _] => destruct (String.eqb (kind e) k)
  end; try done.
  - injection H as <- <-. destruct (is_empty (flow e)).
    all: clash_named.
  - injection H as <- <-. clash_named.
  - injection H as <- <-. destruct (server_name e); clash_named.
  - injection H as <- <-. by destruct (server_name e).
  - destruct (get_str "method" (extra e)); [|done]. by injection H as <- <-.
Qed.

(** A Clash document is closed.  Every rule sends traffic to REJECT, to
    DIRECT or to a declared proxy group, and every member of a proxy group is a
    declared group or a rendered proxy. *)
Theorem clash_config_closed (upper_ : string -> string) (u : User.User) (es : list Endpoint)
    (profile : option Profile) :
  let pairs := clash_proxies u es in
  let names := fst <$> pairs in
  let groups := clash_groups u names in
  let group_names := omap (get_str "name") groups in
  (forall parts, In parts (clash_rule_parts upper_ (clash_target u names profile) profile) ->
     In (rule_policy parts) ("REJECT" :: "DIRECT" :: group_names)) /\
  (forall g m, In g groups -> In (JString m) (array_field "proxies" g) ->
     In m (group_names ++ names)) /\
  (forall name p, In (name, p) pairs -> get_str "name" p = Some name).
Proof.
  intros pairs names groups group_names.
  assert (Hg : names <> [] -> group_names = [clash_group_name u; clash_auto_name u]).
  { unfold group_names, groups. by destruct names. }
  split; [|split].
  - intros parts H. apply clash_rule_policies in H.
    destruct H as [<-|[<-|[<-|[]]]]; [by left|by right; left|].
    unfold clash_target. destruct names as [|n l] eqn:En; [by right; left|].
    destruct (map_or profile true RoutingProfile.final_proxy); [|by right; left].
    right; right. rewrite Hg by done. by left.
  - intros g m H Hm. unfold groups in H. destruct names as [|n l] eqn:En; [done|].
    rewrite Hg by done. destruct H as [<-|[<-|[]]].
    + change (In (JString m) (JString <$> (clash_auto_name u :: n :: l))) in Hm.
      apply list_elem_of_In, list_elem_of_fmap in Hm as (x & Hx & Hm). injection Hx as ->.
      apply list_elem_of_In in Hm. destruct Hm as [<-|Hm]; [right; by left|by right; right].
    + change (In (JString m) (JString <$> (n :: l))) in Hm.
      apply list_elem_of_In, list_elem_of_fmap in Hm as (x & Hx & Hm). injection Hx as ->.
      apply list_elem_of_In in Hm. by right; right.
  - intros name p H. unfold pairs, clash_proxies in H.
    apply list_elem_of_In, list_elem_of_omap in H as (e & _ & He).
    destruct (clash_proxy u e) as [q|] eqn:Eq; [|done]. injection He as ->.
    by apply clash_proxy_name in Eq.
Qed.
