(* ===== verification/SubPage.v ===== *)
(** * The subscription page (src/master/src/subscription_page.rs)

    The HTML template and the rendering of dates and ids are parameters.  Byte
    counts are shown through [f64] as in Documents. *)

From S2P Require Import Prelude Strings Json Models Db Api Subscription Documents.

(** The double quote, which a literal cannot hold. *)
Definition dquote : ascii := Ascii.ascii_of_nat 34.
Definition dq : string := String dquote "".

(** ** Escaping *)

(** [str::replace] with one byte. *)
Fixpoint replace_byte (c : ascii) (by_ s : string) : string :=
  match s with
  | "" => ""
  | String d s' => (if Ascii.eqb c d then by_ else String d "") +:+ replace_byte c by_ s'
  end.

Definition escape (value : string) : string :=
  replace_byte "'" "&#39;"
    (replace_byte dquote "&quot;"
      (replace_byte ">" "&gt;"
        (replace_byte "<" "&lt;"
          (replace_byte "&" "&amp;" value)))).

Definition UNITS : list string := ["B"; "KB"; "MB"; "GB"; "TB"].

Definition bytes (value : Z) : string :=
  let n := f64_of_i64 (Z.max value 0) in
  let '(index, den) := unit_index 5 n 1 0 in
  if (index =? 0)%nat then show n +:+ " " +:+ nth index UNITS ""
  else one_decimal n den +:+ " " +:+ nth index UNITS "".

Example bytes_shown :
  bytes <$> [-5; 0; 1023; 1024; 1536; 1073741824; 9223372036854775807]
  = ["0 B"; "0 B"; "1023 B"; "1.0 KB"; "1.5 KB"; "1.0 GB"; "8388608.0 TB"].
Proof. vm_compute. reflexivity. Qed.

(** ** The rows *)

Definition attr (name value : string) : string := name +:+ "=" +:+ dq +:+ value +:+ dq.

Definition metric (label value : string) (code : bool) : string :=
  let tag := if code then "code" else "b" in
  "<div " +:+ attr "class" "metric" +:+ "><small " +:+ attr "data-i18n" (escape label) +:+ ">" +:+ escape label
  +:+ "</small><" +:+ tag +:+ " " +:+ attr "title" (escape value) +:+ ">" +:+ escape value
  +:+ "</" +:+ tag +:+ "></div>".

Section Page.
Context (uuid_str : Uuid -> string) (date : Z -> string) (TEMPLATE : string).

Definition endpoint (token : Uuid) (link : EndpointLink) : string :=
  let title := l_node link +:+ " / " +:+ l_tag link in
  match l_uri link with
  | Some uri =>
      "<article " +:+ attr "class" "endpoint" +:+ "><div " +:+ attr "class" "protocol" +:+ ">"
      +:+ escape (l_protocol link) +:+ "</div><div " +:+ attr "class" "endpoint-main" +:+ "><b>"
      +:+ escape title +:+ "</b><small>" +:+ escape (l_address link) +:+ ":" +:+ show (l_port link)
      +:+ " · " +:+ escape (l_core link) +:+ "</small></div><div " +:+ attr "class" "endpoint-actions"
      +:+ "><button " +:+ attr "data-copy" (escape uri) +:+ " " +:+ attr "data-i18n" "copy"
      +:+ ">copy</button><a "
      +:+ attr "href" ("/sub/" +:+ uuid_str token +:+ "/qr/" +:+ uuid_str (l_inbound_id link))
      +:+ " " +:+ attr "target" "_blank" +:+ " " +:+ attr "rel" "noopener" +:+ " " +:+ attr "data-i18n" "qr"
      +:+ ">qr</a></div></article>"
  | None =>
      "<article " +:+ attr "class" "endpoint error" +:+ "><div " +:+ attr "class" "protocol" +:+ ">"
      +:+ escape (l_protocol link) +:+ "</div><div " +:+ attr "class" "endpoint-main" +:+ "><b>"
      +:+ escape title +:+ "</b><small>" +:+ escape (default "link unavailable" (l_error link))
      +:+ "</small></div></article>"
  end.

(** ** The page *)

Definition traffic_percent (u : User.User) : Z :=
  let total := Z.max (User.traffic_limit_bytes u) 0 in
  let used := Z.max (User.used_traffic_bytes u) 0 in
  if total =? 0 then 0 else clamp 0 100 (sat_i64 (used * 100) / total).

Definition empty_rows : string :=
  "<div " +:+ attr "class" "empty" +:+ " " +:+ attr "data-i18n" "No accessible endpoints are available yet."
  +:+ ">No accessible endpoints are available yet.</div>".

Definition metrics (u : User.User) (links : list EndpointLink) : string :=
  join "" [metric "subscription id" (uuid_str (User.id u)) true;
           metric "started" (date (User.created_at u)) false;
           metric "expires" (default "never" (date <$> User.expires_at u)) false;
           metric "access" (show (Z.of_nat (length links)) +:+ " endpoints") false].

Definition endpoint_rows (token : Uuid) (links : list EndpointLink) : string :=
  match links with [] => empty_rows | _ => join "" (endpoint token <$> links) end.

(** The placeholders in the order they are filled in, with their values. *)
Definition placeholders (now : Z) (u : User.User) (token : Uuid) (links : list EndpointLink)
    (fallback_base_url : option string) (update_interval_hours : Z) : list (string * string) :=
  let status := default "active" (User.suppressed_reason now u) in
  let total := Z.max (User.traffic_limit_bytes u) 0 in
  let used := Z.max (User.used_traffic_bytes u) 0 in
  let remaining := if total =? 0 then "no traffic limit"
                   else bytes (sat_sub_i64 total used) +:+ " remaining" in
  let traffic_text := if total =? 0 then bytes used +:+ " / unlimited" else bytes used +:+ " / " +:+ bytes total in
  let base := "/sub/" +:+ uuid_str token in
  [ ("SUBSCRIPTION_BASE_URL", escape (default "" fallback_base_url));
    ("UPDATE_INTERVAL_HOURS", show (clamp 1 168 update_interval_hours));
    ("TITLE", escape (profile_title u));
    ("USERNAME", escape (profile_title u));
    ("STATUS_CLASS", if String.eqb status "active" then "on" else "off");
    ("STATUS", escape status);
    ("METRICS", metrics u links);
    ("TRAFFIC_TEXT", escape traffic_text);
    ("TRAFFIC_PERCENT", show (traffic_percent u));
    ("TRAFFIC_USED", escape (bytes used));
    ("TRAFFIC_REMAINING", escape remaining);
    ("QR_URL", base +:+ "/qr");
    ("V2RAY_URL", base +:+ "/v2ray");
    ("SINGBOX_URL", base +:+ "/sing-box");
    ("SINGBOX_TUN_URL", base +:+ "/sing-box-tun");
    ("CLASH_URL", base +:+ "/clash");
    ("LINKS_URL", base +:+ "/links");
    ("ENDPOINT_COUNT", show (Z.of_nat (length links)));
    ("ENDPOINTS", endpoint_rows token links) ].

Definition fill (page : string) (p : string * string) : string := replace ("{{" +:+ p.1 +:+ "}}") p.2 page.

Definition render (now : Z) (u : User.User) (token : Uuid) (links : list EndpointLink)
    (fallback_base_url : option string) (update_interval_hours : Z) : string :=
  fold_left fill (placeholders now u token links fallback_base_url update_interval_hours) TEMPLATE.
End Page.

(** ** Responses *)

Definition html_response (body : string) : Z * list (string * string) * string :=
  (200,
   [("content-type", "text/html; charset=utf-8"); ("cache-control", "no-store");
    ("content-security-policy",
     "default-src 'self'; script-src 'self'; style-src 'self'; font-src 'self'; img-src 'self' data:; connect-src 'self'; frame-ancestors 'none'; base-uri 'none'; form-action 'none'")],
   body).

Definition text_asset (content_type body cache : string) : Z * list (string * string) * string :=
  (200, [("content-type", content_type); ("cache-control", cache)], body).

(** ** Properties *)

(** The five entities, and a reference decoder of them. *)
Definition entities : list (string * ascii) :=
  [("&amp;", "&"%char); ("&lt;", "<"%char); ("&gt;", ">"%char); ("&quot;", dquote); ("&#39;", "'"%char)].

Fixpoint entity_of (l : list (string * ascii)) (s : string) : option (ascii * string) :=
  match l with
  | [] => None
  | (e, c) :: l' => match strip_prefix e s with Some rest => Some (c, rest) | None => entity_of l' s end
  end.

Fixpoint unescape_fuel (fuel : nat) (s : string) : string :=
  match fuel, s with
  | S fuel, String c s' =>
      match entity_of entities s with
      | Some (d, rest) => String d (unescape_fuel fuel rest)
      | None => String c (unescape_fuel fuel s')
      end
  | _, _ => ""
  end.
(** Every step consumes a byte. *)
Definition unescape (s : string) : string := unescape_fuel (String.length s) s.

Lemma replace_byte_app c t a b : replace_byte c t (a +:+ b) = replace_byte c t a +:+ replace_byte c t b.
Proof. induction a as [|d a IH]; simpl; [done|]. by rewrite IH, append_assoc. Qed.

Lemma escape_cons c s : escape (String c s) = escape (String c "") +:+ escape s.
Proof. unfold escape. change (String c s) with (String c "" +:+ s). by rewrite !replace_byte_app. Qed.

(** The bytes that mean something to an HTML parser outside an entity. *)
Definition is_markup (c : ascii) : bool :=
  Ascii.eqb c "<" || Ascii.eqb c ">" || Ascii.eqb c dquote || Ascii.eqb c "'".

(** A byte escapes to itself or to its entity. *)
Lemma escape_byte c :
  (escape (String c "") = String c "" /\ is_markup c = false /\ c <> "&"%char) \/
  (exists e, In (e, c) entities /\ escape (String c "") = e).
Proof.
  destruct c as [[] [] [] [] [] [] [] []]; try (left; split; [reflexivity|split; [reflexivity|discriminate]]);
    right; eexists; (split; [|reflexivity]); simpl; tauto.
Qed.

Lemma entity_of_app e c rest : In (e, c) entities -> entity_of entities (e +:+ rest) = Some (c, rest).
Proof. intros H. simpl in H. repeat (destruct H as [[= <- <-]|H]; [reflexivity|]). done. Qed.

Lemma entity_of_other c rest : c <> "&"%char -> entity_of entities (String c rest) = None.
Proof.
  intros Hc. assert (H : Ascii.eqb "&" c = false) by (by apply Ascii.eqb_neq, not_eq_sym).
  unfold entities. cbn [entity_of strip_prefix]. by rewrite H.
Qed.

Lemma unescape_escape_fuel s : forall fuel,
  (String.length (escape s) <= fuel)%nat -> unescape_fuel fuel (escape s) = s.
Proof.
  induction s as [|c s IH]; intros fuel Hf; [by destruct fuel|].
  rewrite escape_cons in *. rewrite string_length_app in Hf.
  destruct (escape_byte c) as [(He & _ & Hc)|(e & Hin & He)]; rewrite He in *.
  - destruct fuel as [|fuel]; [simpl in Hf; lia|].
    change (String c "" +:+ escape s) with (String c (escape s)). cbn [unescape_fuel].
    rewrite entity_of_other by done. f_equal. apply IH. simpl in Hf. lia.
  - pose proof (entity_of_app e c (escape s) Hin) as Ha.
    assert (Hl : (1 <= String.length e)%nat) by (simpl in Hin; intuition (simplify_eq; simpl; lia)).
    destruct fuel as [|fuel]; [lia|]. destruct e as [|d e]; [simpl in Hl; lia|].
    change (String d e +:+ escape s) with (String d (e +:+ escape s)) in *. cbn [unescape_fuel].
    rewrite Ha. f_equal. apply IH. simpl in Hf. lia.
Qed.

Lemma escape_no_markup s : any_byte is_markup (escape s) = false.
Proof.
  assert (Happ : forall a b, any_byte is_markup (a +:+ b) = any_byte is_markup a || any_byte is_markup b).
  { induction a as [|d a IH]; simpl; intros b; [done|]. by rewrite IH, orb_assoc. }
  induction s as [|c s IH]; [done|]. rewrite escape_cons, Happ, IH, orb_false_r.
  destruct (escape_byte c) as [(-> & Hm & _)|(e & Hin & ->)]; [simpl; by rewrite Hm|].
  simpl in Hin. repeat (destruct Hin as [[= <- _]|Hin]; [reflexivity|]). done.
Qed.

(** Escaping round trips and is inert.  What the page shows for a text decodes
    to exactly that text, and the escaped form holds no angle bracket or quote that
    could open a tag or end an attribute. *)
Theorem escape_roundtrip (s : string) :
  unescape (escape s) = s /\ any_byte is_markup (escape s) = false.
Proof. split; [by apply unescape_escape_fuel|apply escape_no_markup]. Qed.

(** The markup bytes of a text, in order. *)
Fixpoint skeleton (s : string) : string :=
  match s with
  | "" => ""
  | String c s' => if is_markup c then String c (skeleton s') else skeleton s'
  end.

Lemma skeleton_app a b : skeleton (a +:+ b) = skeleton a +:+ skeleton b.
Proof. induction a as [|c a IH]; simpl; [done|]. destruct (is_markup c); simpl; by rewrite IH. Qed.

Lemma skeleton_none s : any_byte is_markup s = false -> skeleton s = "".
Proof.
  induction s as [|c s IH]; simpl; [done|]. intros [Hc Hs]%orb_false_iff. rewrite Hc. auto.
Qed.

Lemma skeleton_escape s : skeleton (escape s) = "".
Proof. apply skeleton_none, escape_no_markup. Qed.

Lemma skeleton_show n : skeleton (show n) = "".
Proof.
  apply skeleton_none.
  assert (Hd : forall s, all_bytes is_digit s = true -> any_byte is_markup s = false).
  { induction s as [|c s IH]; simpl; [done|]. intros [Hc Hs]%andb_true_iff. rewrite IH by done.
    revert Hc. by destruct c as [[] [] [] [] [] [] [] []]. }
  unfold show. destruct n as [|p|p]; [done|apply Hd, (pretty_N_digits (N.pos p))|].
  change (pretty (Z.neg p)) with (String "-" (pretty (N.pos p))). simpl. apply Hd, (pretty_N_digits (N.pos p)).
Qed.

(** Nothing a node, an inbound or an error message says can change the markup
    of an endpoint row.  Rows with a link all have one skeleton of tags and
    attribute quotes, rows without one another, whatever the texts are. *)
Theorem endpoint_markup_fixed (uuid_str : Uuid -> string) (token token' : Uuid) (link link' : EndpointLink) :
  (forall u, any_byte is_markup (uuid_str u) = false) ->
  is_some (l_uri link) = is_some (l_uri link') ->
  skeleton (endpoint uuid_str token link) = skeleton (endpoint uuid_str token' link').
Proof.
  intros Hu Hs.
  assert (Hid : forall u, skeleton (uuid_str u) = "") by (intros u; by apply skeleton_none).
  unfold endpoint, attr. destruct (l_uri link), (l_uri link'); [|discriminate Hs|discriminate Hs|];
    cbv zeta; rewrite !skeleton_app, !skeleton_escape, ?skeleton_show, ?Hid; reflexivity.
Qed.

Lemma replace_absent p v s : contains p s = false -> replace p v s = s.
Proof.
  assert (H : forall fuel s, (String.length s < fuel)%nat -> contains p s = false -> replace_fuel fuel p v s = s).
  { clear s. induction fuel as [|fuel IH]; intros s Hf Hc; [lia|]. cbn [replace_fuel].
    destruct (strip_prefix p s) as [r|] eqn:Es.
    { apply strip_prefix_starts in Es. destruct s; cbn [contains] in Hc; by rewrite Es in Hc. }
    destruct s as [|c s]; [done|]. cbn [contains] in Hc. apply orb_false_iff in Hc as [_ Hc].
    rewrite IH; [done|simpl in Hf; lia|done]. }
  apply H. lia.
Qed.

(** A display name can be a placeholder.  The placeholders are filled in one
    after the other over the whole page, so that a name spelled like a later
    placeholder is replaced in turn: the title of this user becomes the list of
    endpoints instead of the name. *)
Theorem name_expands_as_placeholder (uuid_str : Uuid -> string) (date : Z -> string) (now : Z) (u : User.User)
    (token : Uuid) (links : list EndpointLink) (fallback : option string) (hours : Z) :
  User.username u = "{{ENDPOINTS}}" -> User.subscription_title u = None ->
  render uuid_str date "<title>{{TITLE}}</title>" now u token links fallback hours
  = "<title>" +:+ endpoint_rows uuid_str token links +:+ "</title>".
Proof.
  intros Hn Ht. unfold render, placeholders, profile_title. rewrite Hn, Ht.
  cbv zeta. cbn [fold_left]. unfold fill. cbn [fst snd].
  change (escape (default "{{ENDPOINTS}}" (opt_filter _ None))) with "{{ENDPOINTS}}".
  rewrite (replace_absent ("{{" +:+ "SUBSCRIPTION_BASE_URL" +:+ "}}")) by reflexivity.
  rewrite (replace_absent ("{{" +:+ "UPDATE_INTERVAL_HOURS" +:+ "}}")) by reflexivity.
  change (replace _ "{{ENDPOINTS}}" "<title>{{TITLE}}</title>") with "<title>{{ENDPOINTS}}</title>".
  repeat (rewrite replace_absent by reflexivity). reflexivity.
Qed.

(** ** Witnesses *)

Definition plain_id (_ : Uuid) : string := "id".

Lemma endpoint_markup_fixed_witness :
  skeleton (endpoint plain_id 1 (mkLink 2 "n" "t" "vless" "xray" "h" 443 (Some "u") None))
  = skeleton (endpoint plain_id 1 (mkLink 2 "<script>" "t" "vless" "xray" "h" 443 (Some "</a>'") None)).
Proof. apply endpoint_markup_fixed; [intros u; reflexivity|reflexivity]. Defined.

Definition placeholder_user : User.User :=
  User.mk 7 "{{ENDPOINTS}}" None None None "inherit" [] "uuid" "password" true 100 0
    None 0 None "none" None None None 0 0.

Lemma name_expands_as_placeholder_witness :
  render plain_id show "<title>{{TITLE}}</title>" 0 placeholder_user 1 [] None 1
  = "<title>" +:+ empty_rows +:+ "</title>".
Proof. apply (name_expands_as_placeholder plain_id show 0 placeholder_user 1 [] None 1); reflexivity. Defined.
