(* ===== verification/Spec.v ===== *)
(** * Node specs: what a node is told to run (src/master/src/spec.rs)

    [build_node_spec] assembles the agent's desired state from the rows of the
    database; [summarize] and [preview] compare it with what was applied last.
    The protobuf messages (src/proto/honey/v1/agent.proto) are records; their
    wire encoding with its hash, and serde's derived JSON codecs, are
    parameters. *)

From S2P Require Import Prelude Strings Json Models Db Access Wg Subscription.

Module Pb.
Record InboundUser := mkUser {
  name : string; uuid : string; password : string; flow : string; quota_bytes : Z }.
Record Reality := mkReality {
  r_private_key : string; short_ids : list string; handshake_server : string; handshake_port : Z }.
Record Tls := mkTls {
  tls_enabled : bool; server_name : string; cert_path : string; key_path : string;
  reality : option Reality; ech : bool; utls_fingerprint : string;
  shadowtls_handshake_server : string; shadowtls_handshake_port : Z }.
Record Transport := mkTransport {
  t_network : string; path : string; host : string; service_name : string; mode : string }.
Record Inbound := mkInbound {
  core : string; tag : string; type_ : string; listen : string; listen_port : Z;
  users : list InboundUser; tls : option Tls; extra_json : string;
  transport : option Transport; up_mbps : Z; down_mbps : Z; upstream_outbound_json : string }.
Record WireguardPeer := mkPeer { peer_public_key : string; allowed_ip : string }.
Record WireguardInterface := mkWg {
  w_name : string; w_listen_port : Z; w_private_key : string; w_address : string; w_mtu : Z;
  w_amnezia : bool; amnezia_params_json : string; peers : list WireguardPeer }.
Record NodeService := mkService {
  s_kind : string; s_name : string; s_listen_port : Z; s_secret : string; config_json : string }.
Record NodeSpec := mkSpec {
  log_level : string; clash_listen : string; clash_secret : string;
  inbounds : list Inbound; wireguard : list WireguardInterface; services : list NodeService }.
End Pb.

Inductive spec_error :=
| SpecDb (e : db_error)
| SpecWg (e : wg_error)
| SpecRender (e : render_error)
| InvalidListenPort
| InvalidHandshakePort
| SpecJson.

(** The tables a spec is assembled from. *)
Record Plane := mkPlane {
  tables : Db;
  wg_interfaces : list WgInterface.WgInterface;
  wg_peers : list WgPeer.WgPeer;
  node_services : list NodeService.NodeService }.

(** ** Reading the rows *)

Definition with_secrets (reality_key chain_pw : option string) (i : Inbound.Inbound)
    : Inbound.Inbound :=
  Inbound.mk (Inbound.id i) (Inbound.node_id i) (Inbound.tag i) (Inbound.labels i)
    (Inbound.kind i) (Inbound.core i) (Inbound.listen i) (Inbound.listen_port i)
    (Inbound.flow i) (Inbound.tls_enabled i) (Inbound.server_name i)
    (Inbound.cert_path i) (Inbound.key_path i) (Inbound.reality i) reality_key
    (Inbound.reality_public_key i) (Inbound.reality_short_ids i)
    (Inbound.reality_handshake_server i) (Inbound.reality_handshake_port i)
    (Inbound.network i) (Inbound.transport_path i) (Inbound.transport_host i)
    (Inbound.transport_service_name i) (Inbound.transport_mode i) (Inbound.ech i)
    (Inbound.utls_fingerprint i) (Inbound.shadowtls_handshake_server i)
    (Inbound.shadowtls_handshake_port i) (Inbound.extra i) (Inbound.enabled i)
    (Inbound.reachable i) (Inbound.reach_checked_at i) (Inbound.reach_error i)
    (Inbound.fallback_host i) (Inbound.sni_pool i) (Inbound.cdn_pool i)
    (Inbound.up_mbps i) (Inbound.down_mbps i) (Inbound.udp_idle_timeout i)
    (Inbound.upstream_inbound_id i) (Inbound.chain_uuid i) chain_pw
    (Inbound.created_at i) (Inbound.updated_at i).

Definition with_wg_key (key : string) (w : WgInterface.WgInterface) : WgInterface.WgInterface :=
  WgInterface.mk (WgInterface.id w) (WgInterface.node_id w) (WgInterface.name w)
    (WgInterface.listen_port w) key (WgInterface.public_key w) (WgInterface.address_cidr w)
    (WgInterface.dns w) (WgInterface.mtu w) (WgInterface.amnezia w)
    (WgInterface.amnezia_params w) (WgInterface.endpoint_host w) (WgInterface.enabled w)
    (WgInterface.created_at w) (WgInterface.updated_at w).

Definition with_secret (secret : option string) (s : NodeService.NodeService)
    : NodeService.NodeService :=
  NodeService.mk (NodeService.id s) (NodeService.node_id s) (NodeService.kind s)
    (NodeService.name s) (NodeService.listen_port s) secret (NodeService.config s)
    (NodeService.enabled s) (NodeService.created_at s) (NodeService.updated_at s).

Section Build.
Context (collate : string -> string -> bool).
Context (encrypt decrypt : string -> option string).
Context (uuid_str : Uuid -> string).
Context (to_string : json -> option string).
(** The id, the time and the key pair a new peer of a user on an interface
    gets. *)
Context (mint : Uuid -> Uuid -> Uuid * Z * result Keypair wg_error).
Context (now : Z).

Definition decrypt_opt (o : option string) : result (option string) db_error :=
  match o with
  | None => Ok None
  | Some s => match decrypt s with Some p => Ok (Some p) | None => Err DecryptFailed end
  end.

Definition decrypt_inbound (i : Inbound.Inbound) : result Inbound.Inbound db_error :=
  let? key := decrypt_opt (Inbound.reality_private_key i) in
  let? pw := decrypt_opt (Inbound.chain_password i) in
  Ok (with_secrets key pw i).

Definition enabled_node_inbounds (node_id : Uuid) (db : Db)
    : result (list Inbound.Inbound) db_error :=
  try_map decrypt_inbound
    (sort_by (fun a b => Inbound.listen_port a <=? Inbound.listen_port b)
      (List.filter (fun i => (Inbound.node_id i =? node_id) && Inbound.enabled i)
        (rows (inbounds db)))).

Definition decrypt_wg_interface (w : WgInterface.WgInterface)
    : result WgInterface.WgInterface db_error :=
  match decrypt (WgInterface.private_key w) with
  | Some key => Ok (with_wg_key key w)
  | None => Err DecryptFailed
  end.

Definition enabled_wg_interfaces (node_id : Uuid) (pl : Plane)
    : result (list WgInterface.WgInterface) db_error :=
  try_map decrypt_wg_interface
    (sort_by (fun a b => WgInterface.created_at a <=? WgInterface.created_at b)
      (List.filter (fun w => (WgInterface.node_id w =? node_id) && WgInterface.enabled w)
        (wg_interfaces pl))).

Definition decrypt_service (s : NodeService.NodeService)
    : result NodeService.NodeService db_error :=
  let? secret := decrypt_opt (NodeService.secret s) in
  Ok (with_secret secret s).

Definition enabled_node_services (node_id : Uuid) (pl : Plane)
    : result (list NodeService.NodeService) db_error :=
  try_map decrypt_service
    (sort_by (fun a b => NodeService.created_at a <=? NodeService.created_at b)
      (List.filter (fun s => (NodeService.node_id s =? node_id) && NodeService.enabled s)
        (node_services pl))).

(** ** One inbound *)

(** [u32::try_from(port).ok().filter(1..=65535)]. *)
Definition valid_port (p : Z) : option Z :=
  if (1 <=? p) && (p <=? 65535) then Some p else None.

Definition inbound_flow (ib : Inbound.Inbound) : string :=
  if String.eqb (Inbound.kind ib) "vless" then Inbound.flow ib else "".

Definition served_user (ib : Inbound.Inbound) (u : User.User) : Pb.InboundUser :=
  Pb.mkUser (User.username u) (User.uuid u) (User.password u) (inbound_flow ib)
    (if 0 <? User.traffic_limit_bytes u
     then Z.max (User.traffic_limit_bytes u - User.used_traffic_bytes u) 0 else 0).

Definition chained_user (ib : Inbound.Inbound) (c : string * string * option string)
    : Pb.InboundUser :=
  Pb.mkUser c.1.1 c.1.2 (default "" c.2) (inbound_flow ib) 0.

Definition build_chain_outbound (entry : Inbound.Inbound) (exit_id : Uuid) (db : Db)
    : result string spec_error :=
  if String.eqb (Inbound.core entry) "xray" then Ok "" else
  match Inbound.chain_uuid entry, Inbound.chain_password entry with
  | Some uuid, Some password =>
      match endpoint_for_inbound exit_id db with
      | None => Ok ""
      | Some exit_ =>
          let chain_username :=
            "chain-" +:+ Inbound.tag entry +:+ "-" +:+ uuid_str (Inbound.id entry) in
          let? outbound := lift SpecRender (singbox_outbound uuid chain_username password exit_) in
          match to_string (jset "tag" (JString ("chain-" +:+ Inbound.tag entry)) outbound) with
          | Some s => Ok s
          | None => Err SpecJson
          end
      end
  | _, _ => Ok ""
  end.

Definition build_reality (ib : Inbound.Inbound) : result (option Pb.Reality) spec_error :=
  if Inbound.reality ib then
    let? port :=
      match Inbound.reality_handshake_port ib with
      | Some port => match valid_port port with
                     | Some port => Ok port
                     | None => Err InvalidHandshakePort
                     end
      | None => Ok 443
      end in
    Ok (Some (Pb.mkReality (default "" (Inbound.reality_private_key ib))
          (Inbound.reality_short_ids ib) (default "" (Inbound.reality_handshake_server ib)) port))
  else Ok None.

Definition build_tls (ib : Inbound.Inbound) : result (option Pb.Tls) spec_error :=
  if Inbound.tls_enabled ib || is_some (Inbound.shadowtls_handshake_server ib) then
    let? reality := build_reality ib in
    Ok (Some (Pb.mkTls (Inbound.tls_enabled ib) (default "" (Inbound.server_name ib))
          (default "" (Inbound.cert_path ib)) (default "" (Inbound.key_path ib)) reality
          (Inbound.ech ib) (default "" (Inbound.utls_fingerprint ib))
          (default "" (Inbound.shadowtls_handshake_server ib))
          (default 0 (opt_filter (fun p => 0 <=? p) (Inbound.shadowtls_handshake_port ib)))))
  else Ok None.

Definition build_extra (ib : Inbound.Inbound) : result string spec_error :=
  let extra_value := match Inbound.extra ib with JNull => empty_object | v => v end in
  let extra_value :=
    if String.eqb (Inbound.kind ib) "hysteria2" then
      jset "udpIdleTimeout"
        (JString (if is_empty (trim (Inbound.udp_idle_timeout ib)) then "60s"
                  else Inbound.udp_idle_timeout ib)) extra_value
    else extra_value in
  match extra_value with
  | JNull => Ok ""
  | JObject [] => Ok ""
  | v => match to_string v with Some s => Ok s | None => Err SpecJson end
  end.

Definition build_transport (ib : Inbound.Inbound) : option Pb.Transport :=
  if negb (String.eqb (Inbound.network ib) "tcp") then
    Some (Pb.mkTransport (Inbound.network ib) (default "" (Inbound.transport_path ib))
      (default "" (Inbound.transport_host ib)) (default "" (Inbound.transport_service_name ib))
      (default "" (Inbound.transport_mode ib)))
  else None.

Definition build_inbound (db : Db) (node_users : list User.User) (ib : Inbound.Inbound)
    : result Pb.Inbound spec_error :=
  let? listen_port :=
    match valid_port (Inbound.listen_port ib) with
    | Some p => Ok p
    | None => Err InvalidListenPort
    end in
  let served := served_user ib <$> List.filter (User.is_active now) node_users in
  let? chained := lift SpecDb (chain_users_for_exit decrypt uuid_str (Inbound.id ib) db) in
  let users := served ++ (chained_user ib <$> chained) in
  let? upstream :=
    match Inbound.upstream_inbound_id ib with
    | Some exit_id => build_chain_outbound ib exit_id db
    | None => Ok ""
    end in
  let? tls := build_tls ib in
  let? extra_json := build_extra ib in
  Ok (Pb.mkInbound (Inbound.core ib) (Inbound.tag ib) (Inbound.kind ib) (Inbound.listen ib)
        listen_port users tls extra_json (build_transport ib) (Z.max (Inbound.up_mbps ib) 0)
        (Z.max (Inbound.down_mbps ib) 0) upstream).

(** ** WireGuard interfaces and services *)

(** Provision the missing peers one query after the other; what was inserted
    before a failure stays. *)
Fixpoint ensure_peers (iface : WgInterface.WgInterface) (have : list Uuid)
    (us : list User.User) (peers : list WgPeer.WgPeer)
    : result unit wg_error * list WgPeer.WgPeer :=
  match us with
  | [] => (Ok tt, peers)
  | u :: rest =>
      if existsb (Z.eqb (User.id u)) have then ensure_peers iface have rest peers
      else
        let '(id, at_, kp) := mint (WgInterface.id iface) (User.id u) in
        match ensure_wg_peer encrypt decrypt id at_ kp iface (User.id u) peers with
        | Ok (_, peers') => ensure_peers iface have rest peers'
        | Err e => (Err e, peers)
        end
  end.

Definition build_wg (active : list User.User) (iface : WgInterface.WgInterface)
    (peers : list WgPeer.WgPeer) : result Pb.WireguardInterface spec_error * list WgPeer.WgPeer :=
  let iid := WgInterface.id iface in
  match wg_peers_for_interface decrypt iid peers with
  | Err e => (Err (SpecWg e), peers)
  | Ok existing =>
      let '(r, peers') := ensure_peers iface (WgPeer.user_id <$> existing) active peers in
      let spec :=
        let? _ := lift SpecWg r in
        let? all := lift SpecWg (wg_peers_for_interface decrypt iid peers') in
        let kept := List.filter (fun p => existsb (Z.eqb (WgPeer.user_id p)) (User.id <$> active)) all in
        let wire := (fun p => Pb.mkPeer (WgPeer.public_key p) (WgPeer.address p +:+ "/32")) <$> kept in
        let? params :=
          if WgInterface.amnezia iface then
            match to_string (WgInterface.amnezia_params iface) with
            | Some s => Ok s
            | None => Err SpecJson
            end
          else Ok "" in
        let? cidr := lift SpecWg (parse_cidr (WgInterface.address_cidr iface)) in
        let? server := lift SpecWg (server_address (WgInterface.address_cidr iface)) in
        let port := WgInterface.listen_port iface in
        let mtu := WgInterface.mtu iface in
        Ok (Pb.mkWg (WgInterface.name iface) (if 0 <=? port then port else 0)
              (WgInterface.private_key iface) (show_ipv4 server +:+ "/" +:+ show cidr.2)
              (if 0 <=? mtu then mtu else 1420) (WgInterface.amnezia iface) params wire) in
      (spec, peers')
  end.

Fixpoint build_wgs (active : list User.User) (ifaces : list WgInterface.WgInterface)
    (peers : list WgPeer.WgPeer)
    : result (list Pb.WireguardInterface) spec_error * list WgPeer.WgPeer :=
  match ifaces with
  | [] => (Ok [], peers)
  | iface :: rest =>
      match build_wg active iface peers with
      | (Err e, peers') => (Err e, peers')
      | (Ok w, peers') =>
          match build_wgs active rest peers' with
          | (Err e, peers'') => (Err e, peers'')
          | (Ok ws, peers'') => (Ok (w :: ws), peers'')
          end
      end
  end.

Definition build_service (s : NodeService.NodeService) : Pb.NodeService :=
  Pb.mkService (NodeService.kind s) (NodeService.name s)
    (let p := NodeService.listen_port s in if 0 <=? p then p else 0)
    (default "" (NodeService.secret s)) (default "{}" (to_string (NodeService.config s))).

Definition build_node_spec (node_id : Uuid) (pl : Plane)
    : result Pb.NodeSpec spec_error * list WgPeer.WgPeer :=
  let head :=
    let? inbound_rows := lift SpecDb (enabled_node_inbounds node_id (tables pl)) in
    let? node_users := lift SpecDb (users_with_node_access collate decrypt node_id (tables pl)) in
    let? inbounds := try_map (build_inbound (tables pl) node_users) inbound_rows in
    let? ifaces := lift SpecDb (enabled_wg_interfaces node_id pl) in
    Ok (node_users, inbounds, ifaces) in
  match head with
  | Err e => (Err e, wg_peers pl)
  | Ok (node_users, inbounds, ifaces) =>
      match build_wgs (List.filter (User.is_active now) node_users) ifaces (wg_peers pl) with
      | (Err e, peers) => (Err e, peers)
      | (Ok wireguard, peers) =>
          (let? services := lift SpecDb (enabled_node_services node_id pl) in
           Ok (Pb.mkSpec "info" "127.0.0.1:9090" "" inbounds wireguard (build_service <$> services)),
           peers)
      end
  end.
End Build.

(** ** Summaries and previews *)

Record InboundSummary := mkSummary {
  tag : string; core : string; protocol : string; listen : string; port : Z;
  network : string; security : string; user_count : Z }.
#[export] Instance summary_eq_dec : EqDecision InboundSummary.
Proof. solve_decision. Defined.

Record SpecSummary := mkSpecSummary { version : Z; s_inbounds : list InboundSummary }.

Definition summarize_inbound (i : Pb.Inbound) : InboundSummary :=
  let security :=
    if is_some (match Pb.tls i with Some t => Pb.reality t | None => None end) then "reality"
    else if is_some_and (Pb.tls i) Pb.tls_enabled then "tls" else "none" in
  mkSummary (Pb.tag i) (if is_empty (Pb.core i) then "singbox" else Pb.core i) (Pb.type_ i)
    (Pb.listen i) (Pb.listen_port i)
    (default "tcp" (opt_filter (fun n => negb (is_empty n)) (Pb.t_network <$> Pb.transport i)))
    security (Z.of_nat (length (Pb.users i))).

Definition summarize (spec : Pb.NodeSpec) : SpecSummary :=
  mkSpecSummary 1
    (sort_by (fun a b => String.leb (tag a) (tag b)) (summarize_inbound <$> Pb.inbounds spec)).

Record ConfigPreview := mkPreview {
  desired_hash : string;
  applied_hash : option string;
  changed : bool;
  baseline_available : bool;
  added : list InboundSummary;
  removed : list InboundSummary;
  modified : list InboundSummary;
  restart_cores : list string }.

(** Collecting into a [BTreeMap] keyed by tag: a later entry wins. *)
Definition by_tag (l : list InboundSummary) : gmap string InboundSummary :=
  fold_left (fun m i => <[tag i := i]> m) l ∅.
(** Iteration in key order. *)
Definition in_order (m : gmap string InboundSummary) : list InboundSummary :=
  snd <$> sort_by (fun a b => String.leb a.1 b.1) (map_to_list m).

Section Preview.
Context (spec_hash : Pb.NodeSpec -> string).
Context (from_value : json -> option SpecSummary).

Definition is_new (old : gmap string InboundSummary) (i : InboundSummary) : bool :=
  negb (is_some (old !! tag i)).
Definition is_modified (old : gmap string InboundSummary) (i : InboundSummary) : bool :=
  match old !! tag i with Some prior => negb (bool_decide (prior = i)) | None => false end.

(** The cores a new or modified inbound restarts. *)
Definition restarts (old : gmap string InboundSummary) (i : InboundSummary) : gset string :=
  match old !! tag i with
  | None => {[core i]}
  | Some prior => if bool_decide (prior = i) then ∅ else {[core prior; core i]}
  end.

Definition core_list (s : gset string) : list string := sort_by String.leb (elements s).

Definition preview (spec : Pb.NodeSpec) (applied_hash : option string)
    (applied_summary : option json) : ConfigPreview :=
  let desired_hash := spec_hash spec in
  let desired := summarize spec in
  let previous := match applied_summary with Some v => from_value v | None => None end in
  let stale := negb (bool_decide (applied_hash = Some desired_hash)) in
  let old := match previous with Some p => by_tag (s_inbounds p) | None => ∅ end in
  let new := by_tag (s_inbounds desired) in
  let '(added, removed, modified, restart_cores) :=
    match previous with
    | Some _ =>
        let gone := List.filter (fun i => negb (is_some (new !! tag i))) (in_order old) in
        (List.filter (is_new old) (in_order new), gone,
         List.filter (is_modified old) (in_order new),
         ⋃ (restarts old <$> in_order new) ∪ list_to_set (core <$> gone))
    | None =>
        if stale then (s_inbounds desired, [], [], list_to_set (core <$> s_inbounds desired))
        else ([], [], [], ∅)
    end in
  mkPreview desired_hash applied_hash stale (is_some previous) added removed modified
    (core_list restart_cores).
End Preview.

(** ** Properties *)

Section BuildFacts.
Context (collate : string -> string -> bool).
Context (encrypt decrypt : string -> option string).
Context (uuid_str : Uuid -> string).
Context (to_string : json -> option string).
Context (mint : Uuid -> Uuid -> Uuid * Z * result Keypair wg_error).
Context (now : Z).

#[local] Abbreviation build := (build_node_spec collate encrypt decrypt uuid_str to_string mint now).
#[local] Abbreviation build_in := (build_inbound decrypt uuid_str to_string now).

Lemma build_node_spec_inv node_id pl spec peers :
  build node_id pl = (Ok spec, peers) ->
  exists rows_ us ifaces,
    enabled_node_inbounds decrypt node_id (tables pl) = Ok rows_ /\
    users_with_node_access collate decrypt node_id (tables pl) = Ok us /\
    try_map (build_in (tables pl) us) rows_ = Ok (Pb.inbounds spec) /\
    enabled_wg_interfaces decrypt node_id pl = Ok ifaces /\
    build_wgs encrypt decrypt to_string mint (List.filter (User.is_active now) us) ifaces (wg_peers pl)
      = (Ok (Pb.wireguard spec), peers).
Proof.
  unfold build_node_spec.
  destruct (enabled_node_inbounds decrypt node_id (tables pl)) as [rows_|]; [|done].
  destruct (users_with_node_access collate decrypt node_id (tables pl)) as [us|]; [|done].
  simpl. destruct (try_map _ rows_) as [ibs|] eqn:Eb; [|done].
  destruct (enabled_wg_interfaces decrypt node_id pl) as [ifaces|]; [|done]. simpl.
  destruct (build_wgs _ _ _ _ _ ifaces _) as [[ws|] peers'] eqn:Ew; [|done].
  destruct (enabled_node_services decrypt node_id pl) as [svcs|]; [|done]. simpl.
  intros H. injection H as <- <-. exists rows_, us, ifaces. auto.
Qed.

Lemma build_inbound_inv db us ib pb :
  build_in db us ib = Ok pb ->
  1 <= Pb.listen_port pb <= 65535 /\ Pb.tag pb = Inbound.tag ib /\
  Pb.listen_port pb = Inbound.listen_port ib /\
  exists chained, chain_users_for_exit decrypt uuid_str (Inbound.id ib) db = Ok chained /\
    Pb.users pb = (served_user ib <$> List.filter (User.is_active now) us)
                  ++ (chained_user ib <$> chained).
Proof.
  unfold build_inbound, valid_port.
  destruct ((1 <=? _) && _) eqn:Ep; [|done]. breflect.
  destruct (chain_users_for_exit _ _ _ _) as [ch|]; [|done]. simpl.
  destruct (match Inbound.upstream_inbound_id ib with Some _ => _ | None => _ end); [|done].
  destruct (build_tls ib); [|done]. destruct (build_extra to_string ib); [|done].
  intros H. injection H as <-. simpl. split; [lia|]. split; [done|]. split; [done|]. eauto.
Qed.

Lemma decrypt_inbound_ids i i' :
  decrypt_inbound decrypt i = Ok i' ->
  Inbound.id i' = Inbound.id i /\ Inbound.tag i' = Inbound.tag i /\
  Inbound.chain_uuid i' = Inbound.chain_uuid i.
Proof.
  unfold decrypt_inbound. destruct (decrypt_opt _ _); [|done].
  destruct (decrypt_opt _ _); [|done]. intros H. by injection H as <-.
Qed.

Lemma enabled_node_inbounds_in node_id db rows_ ib :
  enabled_node_inbounds decrypt node_id db = Ok rows_ -> In ib rows_ ->
  exists k row, inbounds db !! k = Some row /\ Inbound.node_id row = node_id /\
    Inbound.enabled row = true /\ decrypt_inbound decrypt row = Ok ib.
Proof.
  intros H Hin. destruct (try_map_in _ _ _ _ H Hin) as (row & Hr & Hd).
  apply sort_by_in, List.filter_In in Hr as [Hr Hf]. apply in_rows in Hr as [k Hk].
  breflect. destruct Hf. eauto 10.
Qed.

Lemma enabled_node_inbounds_all node_id db rows_ k row :
  enabled_node_inbounds decrypt node_id db = Ok rows_ ->
  inbounds db !! k = Some row -> Inbound.node_id row = node_id -> Inbound.enabled row = true ->
  exists ib, In ib rows_ /\ decrypt_inbound decrypt row = Ok ib.
Proof.
  intros H Hk Hn He. apply (try_map_in_inv _ _ _ row H).
  apply sort_by_in, List.filter_In. split; [apply in_rows; eauto|].
  rewrite He, andb_true_r. by apply Z.eqb_eq.
Qed.

Lemma users_with_node_access_in node_id db us u :
  users_with_node_access collate decrypt node_id db = Ok us ->
  In u us <-> exists row, In row (rows (users db)) /\ can_reach (User.id row) node_id db = true /\
                          decrypt_user decrypt row = Ok u.
Proof.
  intros H. split.
  - intros Hin. destruct (try_map_in _ _ _ _ H Hin) as (row & Hr & Hd).
    apply sort_by_in, List.filter_In in Hr as [Hr Hc]. eauto.
  - intros (row & Hr & Hc & Hd).
    destruct (try_map_in_inv _ _ _ row H) as (u' & Hin & Hd').
    + apply sort_by_in, List.filter_In. auto.
    + congruence.
Qed.
End BuildFacts.

(** C1: a node is told to serve exactly the users entitled to it.  In a built
    spec every inbound comes from an enabled inbound of the node and its users
    are the rows that can reach the node and are active (enabled, unexpired and
    under quota), plus the chain users of the entries that exit through it. *)
Theorem spec_serves_exactly_active (collate : string -> string -> bool)
    (encrypt decrypt : string -> option string) (uuid_str : Uuid -> string)
    (to_string : json -> option string)
    (mint : Uuid -> Uuid -> Uuid * Z * result Keypair wg_error) (now : Z)
    (node_id : Uuid) (pl : Plane) (spec : Pb.NodeSpec) (peers : list WgPeer.WgPeer) :
  build_node_spec collate encrypt decrypt uuid_str to_string mint now node_id pl = (Ok spec, peers) ->
  forall pb, In pb (Pb.inbounds spec) ->
  exists k row ib chained,
    inbounds (tables pl) !! k = Some row /\ Inbound.node_id row = node_id /\
    Inbound.enabled row = true /\ decrypt_inbound decrypt row = Ok ib /\
    Pb.tag pb = Inbound.tag row /\ 1 <= Pb.listen_port pb <= 65535 /\
    chain_users_for_exit decrypt uuid_str (Inbound.id row) (tables pl) = Ok chained /\
    forall pu, In pu (Pb.users pb) <->
      (exists u_row u, In u_row (rows (users (tables pl))) /\
         can_reach (User.id u_row) node_id (tables pl) = true /\
         decrypt_user decrypt u_row = Ok u /\ User.is_active now u = true /\
         pu = served_user ib u)
      \/ exists c, In c chained /\ pu = chained_user ib c.
Proof.
  intros H pb Hpb. apply build_node_spec_inv in H as (rows_ & us & ifaces & Hr & Hu & Hb & _).
  destruct (try_map_in _ _ _ _ Hb Hpb) as (ib & Hib & Hbi).
  destruct (enabled_node_inbounds_in _ _ _ _ _ Hr Hib) as (k & row & Hk & Hn & He & Hd).
  apply build_inbound_inv in Hbi as (Hp & Ht & _ & chained & Hc & Hus).
  destruct (decrypt_inbound_ids _ _ _ Hd) as (Hid & Htag & _).
  exists k, row, ib, chained. rewrite <- Hid, <- Htag. repeat (split; [done|]).
  intros pu. rewrite Hus, in_app_iff, <- !list_elem_of_In, !list_elem_of_fmap.
  setoid_rewrite list_elem_of_In. setoid_rewrite List.filter_In.
  setoid_rewrite (users_with_node_access_in _ _ _ _ _ _ Hu). split.
  - intros [(u & -> & (u_row & Hi & Hc' & Hd') & Ha)|(c & -> & Hc')]; [left|right]; eauto 10.
  - intros [(u_row & u & Hi & Hc' & Hd' & Ha & ->)|(c & Hc' & ->)]; [left|right]; eauto 10.
Qed.

Definition sample_plane : Plane :=
  mkPlane (with_users (fun _ => <[7 := User.mk 7 "alice" None None None "inherit" [] "u7" "p7" true
                                        100 40 None 0 None "none" None None None 0 0]> ∅)
             (with_inbounds (fun _ => <[9 := sample_inbound 9 1 None None]> ∅) grouped_db))
    [] [] [].
Definition sample_build : result Pb.NodeSpec spec_error * list WgPeer.WgPeer :=
  build_node_spec String.leb Some Some (fun _ => "id") (fun _ => Some "{}")
    (fun _ _ => (1, 0, Err RngFailed)) 0 1 sample_plane.

Lemma sample_build_ok : exists spec pb,
  sample_build = (Ok spec, []) /\ Pb.inbounds spec = [pb] /\
  Pb.users pb = [Pb.mkUser "alice" "u7" "p7" "" 60].
Proof. do 2 eexists. vm_compute. repeat split; reflexivity. Qed.

Lemma spec_serves_exactly_active_witness : exists spec pb,
  sample_build = (Ok spec, []) /\ In pb (Pb.inbounds spec) /\ 1 <= Pb.listen_port pb <= 65535.
Proof.
  destruct sample_build_ok as (spec & pb & H & Hin & _). exists spec, pb.
  assert (Hpb : In pb (Pb.inbounds spec)) by (rewrite Hin; left; reflexivity).
  split; [exact H|]. split; [exact Hpb|].
  destruct (spec_serves_exactly_active String.leb Some Some (fun _ => "id") (fun _ => Some "{}")
    (fun _ _ => (1, 0, Err RngFailed)) 0 1 sample_plane spec [] H pb Hpb)
    as (k & row & ib & ch & _ & _ & _ & _ & _ & Hp & _).
  exact Hp.
Defined.

(** The agent's local cutoff is armed for exactly the limited users.  For an
    active user the pushed quota is 0, which the agent reads as unlimited, only
    when the user has no limit; otherwise it is what remains of it. *)
Theorem served_quota (now : Z) (ib : Inbound.Inbound) (u : User.User) :
  User.is_active now u = true -> 0 <= User.used_traffic_bytes u ->
  let q := Pb.quota_bytes (served_user ib u) in
  (q = 0 <-> User.traffic_limit_bytes u <= 0) /\
  (0 < User.traffic_limit_bytes u ->
     0 < q <= User.traffic_limit_bytes u /\ q + User.used_traffic_bytes u = User.traffic_limit_bytes u).
Proof.
  unfold User.is_active, User.suppressed_reason, served_user. simpl.
  destruct (User.enabled u); [|done].
  destruct (is_some_and _ _); [done|]. simpl.
  destruct (0 <? User.traffic_limit_bytes u) eqn:E; simpl; breflect; [|intros; split; lia].
  destruct (User.traffic_limit_bytes u <=? User.used_traffic_bytes u) eqn:E2; simpl; [done|].
  breflect. intros _ Hn. lia.
Qed.

Lemma served_quota_witness :
  Pb.quota_bytes (served_user (sample_inbound 9 1 None None)
    (User.mk 7 "alice" None None None "inherit" [] "u7" "p7" true 100 40 None 0 None "none"
       None None None 0 0)) + 40 = 100.
Proof.
  refine (proj2 (proj2 (served_quota 0 (sample_inbound 9 1 None None)
    (User.mk 7 "alice" None None None "inherit" [] "u7" "p7" true 100 40 None 0 None "none"
       None None None 0 0) _ _) _)); vm_compute; [reflexivity|discriminate|reflexivity].
Defined.

(** Multihop hops authenticate.  When an enabled entry inbound exits through
    an inbound of another node and carries chain credentials, the exit node's
    spec lists, on that inbound, the very name, uuid and password that the
    entry's chain outbound is built with. *)
Theorem chain_credentials_match (collate : string -> string -> bool)
    (encrypt decrypt : string -> option string) (uuid_str : Uuid -> string)
    (to_string : json -> option string)
    (mint : Uuid -> Uuid -> Uuid * Z * result Keypair wg_error) (now : Z)
    (exit_node : Uuid) (pl : Plane) (spec : Pb.NodeSpec) (peers : list WgPeer.WgPeer)
    (kx ke : Uuid) (exit_ entry entry' : Inbound.Inbound) (uuid password : string) :
  build_node_spec collate encrypt decrypt uuid_str to_string mint now exit_node pl = (Ok spec, peers) ->
  inbounds (tables pl) !! kx = Some exit_ -> Inbound.node_id exit_ = exit_node ->
  Inbound.enabled exit_ = true ->
  inbounds (tables pl) !! ke = Some entry -> Inbound.enabled entry = true ->
  Inbound.upstream_inbound_id entry = Some (Inbound.id exit_) ->
  decrypt_inbound decrypt entry = Ok entry' ->
  Inbound.chain_uuid entry' = Some uuid -> Inbound.chain_password entry' = Some password ->
  exists pb pu, In pb (Pb.inbounds spec) /\ Pb.tag pb = Inbound.tag exit_ /\ In pu (Pb.users pb) /\
    Pb.uuid pu = uuid /\ Pb.password pu = password /\ Pb.quota_bytes pu = 0 /\
    forall out, endpoint_for_inbound (Inbound.id exit_) (tables pl) = Some out ->
      String.eqb (Inbound.core entry') "xray" = false ->
      build_chain_outbound uuid_str to_string entry' (Inbound.id exit_) (tables pl)
      = let? o := lift SpecRender (singbox_outbound (Pb.uuid pu) (Pb.name pu) (Pb.password pu) out) in
        match to_string (jset "tag" (JString ("chain-" +:+ Inbound.tag entry)) o) with
        | Some s => Ok s
        | None => Err SpecJson
        end.
Proof.
  intros H Hx Hxn Hxe He Hee Hup Hd Hu Hp.
  apply build_node_spec_inv in H as (rows_ & us & ifaces & Hr & _ & Hb & _).
  destruct (enabled_node_inbounds_all _ _ _ _ _ _ Hr Hx Hxn Hxe) as (ib & Hib & Hdx).
  destruct (try_map_in_inv _ _ _ _ Hb Hib) as (pb & Hpb & Hbi).
  apply build_inbound_inv in Hbi as (_ & Ht & _ & chained & Hc & Hus).
  apply decrypt_inbound_ids in Hdx as (Hid & Htag & _).
  rewrite Hid in Hc. pose proof Hd as Hd0. apply decrypt_inbound_ids in Hd0 as (Hide & Htage & Hcu).
  destruct (try_map_in_inv _ _ _ entry Hc) as (c & Hcin & Hce).
  { apply List.filter_In. split; [apply in_rows; eauto|].
    rewrite Hup, Hee, Z.eqb_refl, <- Hcu, Hu. done. }
  assert (c = ("chain-" +:+ Inbound.tag entry +:+ "-" +:+ uuid_str (Inbound.id entry), uuid, Some password)) as ->.
  { unfold decrypt_inbound in Hd. destruct (decrypt_opt _ (Inbound.reality_private_key _)); [|done].
    unfold decrypt_opt in Hd. unfold chain_user in Hce. rewrite <- Hcu, Hu in Hce.
    destruct (Inbound.chain_password entry) as [enc|]; [|by injection Hd as <-].
    destruct (decrypt enc); [|done]. injection Hd as <-. simpl in Hp. injection Hp as ->.
    by injection Hce as <-. }
  exists pb, (chained_user ib ("chain-" +:+ Inbound.tag entry +:+ "-" +:+ uuid_str (Inbound.id entry), uuid, Some password)).
  split; [done|]. split; [congruence|]. split.
  { rewrite Hus. apply in_or_app. right. by apply list_elem_of_In, list_elem_of_fmap_2, list_elem_of_In. }
  repeat (split; [done|]). intros out Hout Hxr. unfold build_chain_outbound.
  rewrite Hxr, Hu, Hp, Hout, Htage, Hide. done.
Qed.

(** Entry 10 on node 2 exits through inbound 9 of node 1. *)
Definition chain_entry : Inbound.Inbound :=
  Inbound.mk 10 2 "entry" [] "vless" "singbox" "::" 8443 "" true (Some "sni") None None
    false None None [] None None "tcp" None None None None false None None None
    empty_object true None None None None [] [] 0 0 "60s" (Some 9) (Some "cu") (Some "cp") 0 0.
Definition chain_plane : Plane :=
  mkPlane (with_inbounds (fun m => <[10 := chain_entry]> m) (tables sample_plane)) [] [] [].

Lemma chain_build_ok : exists spec,
  build_node_spec String.leb Some Some (fun _ => "id") (fun _ => Some "{}")
    (fun _ _ => (1, 0, Err RngFailed)) 0 1 chain_plane = (Ok spec, []).
Proof. eexists. vm_compute. reflexivity. Qed.

Lemma chain_credentials_match_witness : exists spec pb pu,
  In pb (Pb.inbounds spec) /\ In pu (Pb.users pb) /\ Pb.uuid pu = "cu" /\ Pb.password pu = "cp".
Proof.
  destruct chain_build_ok as [spec H].
  destruct (chain_credentials_match String.leb Some Some (fun _ => "id") (fun _ => Some "{}")
    (fun _ _ => (1, 0, Err RngFailed)) 0 1 chain_plane spec [] 9 10
    (sample_inbound 9 1 None None) chain_entry chain_entry "cu" "cp" H)
    as (pb & pu & H1 & _ & H2 & H3 & H4 & _); try (vm_compute; reflexivity).
  exists spec, pb, pu. auto.
Defined.

(** ** WireGuard provisioning *)

Section Provisioning.
Context (encrypt decrypt : string -> option string).
Context (to_string : json -> option string).
Context (mint : Uuid -> Uuid -> Uuid * Z * result Keypair wg_error).

Lemma ensure_wg_peer_post id now kp iface user peers p peers' :
  ensure_wg_peer encrypt decrypt id now kp iface user peers = Ok (p, peers') ->
  (exists new, peers' = peers ++ new) /\
  exists q, In q peers' /\ WgPeer.interface_id q = WgInterface.id iface /\ WgPeer.user_id q = user.
Proof.
  unfold ensure_wg_peer. destruct (List.find _ peers) as [ex|] eqn:Ef.
  - apply find_some in Ef as [Hin Hex]. unfold peer_of, on_interface in Hex. breflect.
    destruct (decrypt_wg_peer decrypt ex); [|done]. intros H. injection H as <- <-.
    split; [exists []; by rewrite app_nil_r|]. destruct Hex. eauto.
  - destruct (allocate_ip _ _); [|done]. destruct kp; [|done]. destruct (encrypt _); [|done].
    unfold insert_peer. destruct (existsb _ peers); [done|].
    destruct (decrypt_wg_peer decrypt _); [|done]. intros H. injection H as <- <-.
    split; [eauto|]. eexists. split; [apply in_or_app; right; by left|]. done.
Qed.

Lemma ensure_peers_post iface have us : forall peers peers',
  ensure_peers encrypt decrypt mint iface have us peers = (Ok tt, peers') ->
  (forall q, In q peers -> In q peers') /\
  forall u, In u us -> ~ In (User.id u) have ->
    exists q, In q peers' /\ WgPeer.interface_id q = WgInterface.id iface /\ WgPeer.user_id q = User.id u.
Proof.
  induction us as [|u us IH]; simpl; intros peers peers' H.
  { injection H as <-. split; [done|]. intros u []. }
  destruct (existsb (Z.eqb (User.id u)) have) eqn:Ex.
  - destruct (IH _ _ H) as [H1 H2]. split; [done|]. intros v [<-|Hv] Hn; [|auto].
    apply existsb_exists in Ex as (x & Hx & Heq). breflect. subst x. done.
  - destruct (mint _ _) as [[id at_] kp].
    destruct (ensure_wg_peer _ _ _ _ _ _ _ _) as [[p peers1]|] eqn:Ee; [|done].
    destruct (IH _ _ H) as [H1 H2].
    apply ensure_wg_peer_post in Ee as ((new & ->) & q & Hq & Hi & Hu).
    split; [intros x Hx; apply H1, in_or_app; by left|].
    intros v [<-|Hv] Hn; [eauto 10|auto].
Qed.

Lemma wg_peers_for_interface_in iface peers all p :
  wg_peers_for_interface decrypt iface peers = Ok all -> In p all ->
  exists q, In q peers /\ WgPeer.interface_id q = iface /\ WgPeer.user_id p = WgPeer.user_id q /\
    WgPeer.public_key p = WgPeer.public_key q /\ WgPeer.address p = WgPeer.address q.
Proof.
  intros H Hp. destruct (try_map_in _ _ _ _ H Hp) as (q & Hq & Hd).
  apply List.filter_In in Hq as [Hq Hi]. unfold on_interface in Hi. breflect.
  unfold decrypt_wg_peer in Hd. destruct (decrypt _); [|done]. injection Hd as <-. eauto 10.
Qed.

Lemma wg_peers_for_interface_all iface peers all q :
  wg_peers_for_interface decrypt iface peers = Ok all -> In q peers -> WgPeer.interface_id q = iface ->
  exists p, In p all /\ WgPeer.user_id p = WgPeer.user_id q /\
    WgPeer.public_key p = WgPeer.public_key q /\ WgPeer.address p = WgPeer.address q.
Proof.
  intros H Hq Hi. destruct (try_map_in_inv _ _ _ q H) as (p & Hp & Hd).
  - apply List.filter_In. split; [done|]. unfold on_interface. by apply Z.eqb_eq.
  - unfold decrypt_wg_peer in Hd. destruct (decrypt _); [|done]. injection Hd as <-. eauto 10.
Qed.
End Provisioning.

(** WireGuard peers follow entitlement.  A built interface carries, as /32
    peers, exactly the peers of the active users with access, each of them
    provisioned on the way; peers of suspended users stay in the database and
    out of the spec, and no stored peer is lost. *)
Theorem wireguard_peers_exact (encrypt decrypt : string -> option string)
    (to_string : json -> option string)
    (mint : Uuid -> Uuid -> Uuid * Z * result Keypair wg_error)
    (active : list User.User) (iface : WgInterface.WgInterface)
    (peers peers' : list WgPeer.WgPeer) (w : Pb.WireguardInterface) :
  build_wg encrypt decrypt to_string mint active iface peers = (Ok w, peers') ->
  (forall q, In q peers -> In q peers') /\
  (forall u, In u active -> exists q, In q peers' /\
     WgPeer.interface_id q = WgInterface.id iface /\ WgPeer.user_id q = User.id u /\
     In (Pb.mkPeer (WgPeer.public_key q) (WgPeer.address q +:+ "/32")) (Pb.peers w)) /\
  (forall wp, In wp (Pb.peers w) -> exists q u, In q peers' /\ In u active /\
     WgPeer.interface_id q = WgInterface.id iface /\ WgPeer.user_id q = User.id u /\
     wp = Pb.mkPeer (WgPeer.public_key q) (WgPeer.address q +:+ "/32")).
Proof.
  unfold build_wg. destruct (wg_peers_for_interface decrypt _ peers) as [existing|] eqn:E0; [|done].
  destruct (ensure_peers _ _ _ _ _ _ _) as [[[]|] peers1] eqn:E1; [|done].
  simpl. destruct (wg_peers_for_interface decrypt _ peers1) as [all|] eqn:E2; [|done]. simpl.
  destruct (if WgInterface.amnezia iface then _ else _); [|done].
  destruct (parse_cidr _); [|done]. simpl. destruct (server_address _); [|done].
  intros H. injection H as <- <-. simpl.
  apply ensure_peers_post in E1 as [Hkeep Hnew].
  assert (Hact : forall p u, In u active -> WgPeer.user_id p = User.id u ->
            existsb (Z.eqb (WgPeer.user_id p)) (User.id <$> active) = true).
  { intros p u Hu Hp. apply existsb_exists. exists (User.id u). split; [|by apply Z.eqb_eq].
    by apply list_elem_of_In, list_elem_of_fmap_2, list_elem_of_In. }
  split; [done|]. split.
  - intros u Hu.
    assert (Hq : exists q, In q peers1 /\ WgPeer.interface_id q = WgInterface.id iface
                           /\ WgPeer.user_id q = User.id u).
    { destruct (in_dec Z.eq_dec (User.id u) (WgPeer.user_id <$> existing)) as [Hin|Hn].
      - apply list_elem_of_In, list_elem_of_fmap in Hin as (p & Hpu & Hp). apply list_elem_of_In in Hp.
        destruct (wg_peers_for_interface_in _ _ _ _ _ E0 Hp) as (q & Hq & Hi & Hu' & _).
        exists q. split; [auto|]. split; [done|congruence].
      - by apply Hnew. }
    destruct Hq as (q & Hq & Hi & Hqu). exists q. repeat (split; [done|]).
    destruct (wg_peers_for_interface_all _ _ _ _ _ E2 Hq Hi) as (p & Hp & Hpu & Hk & Ha).
    apply list_elem_of_In, list_elem_of_fmap. exists p. rewrite Hk, Ha. split; [done|].
    apply list_elem_of_In, List.filter_In. split; [done|]. apply (Hact p u Hu). congruence.
  - intros wp Hwp. apply list_elem_of_In, list_elem_of_fmap in Hwp as (p & -> & Hp).
    apply list_elem_of_In, List.filter_In in Hp as [Hp Ha].
    apply existsb_exists in Ha as (x & Hx & Heq). apply Z.eqb_eq in Heq.
    apply list_elem_of_In, list_elem_of_fmap in Hx as (u & -> & Hu). apply list_elem_of_In in Hu.
    destruct (wg_peers_for_interface_in _ _ _ _ _ E2 Hp) as (q & Hq & Hi & Hu' & Hk & Had).
    exists q, u. rewrite Hk, Had. split; [done|]. split; [done|]. split; [done|]. split; [congruence|done].
Qed.

Lemma sample_wg : exists w,
  build_wg Some Some (fun _ => Some "{}") (fun _ _ => (3, 0, Ok (mkKeypair "k" "K")))
    [User.mk 8 "bob" None None None "inherit" [] "u" "p" true 0 0 None 0 None "none" None None None 0 0]
    sample_iface sample_peers = (Ok w, sample_peers ++ [sample_new_peer]).
Proof. eexists. vm_compute. reflexivity. Qed.

Lemma wireguard_peers_exact_witness : exists w : Pb.WireguardInterface,
  exists q, In (Pb.mkPeer (WgPeer.public_key q) (WgPeer.address q +:+ "/32")) (Pb.peers w) /\
            WgPeer.user_id q = 8.
Proof.
  destruct sample_wg as [w H]. exists w.
  destruct (wireguard_peers_exact _ _ _ _ _ _ _ _ _ H) as (_ & Hu & _).
  destruct (Hu _ (or_introl eq_refl)) as (q & _ & _ & H1 & H2). exists q. auto.
Defined.

(** ** Previews *)

Lemma by_tag_app l i : by_tag (l ++ [i]) = <[tag i := i]> (by_tag l).
Proof. unfold by_tag. by rewrite fold_left_app. Qed.

Lemma by_tag_in l t i : by_tag l !! t = Some i -> In i l /\ tag i = t.
Proof.
  induction l as [|j l IH] using rev_ind; [done|]. rewrite by_tag_app.
  intros H. apply lookup_insert_Some in H as [[<- <-]|[_ H]].
  - split; [apply in_or_app; right; by left|done].
  - destruct (IH H). split; [apply in_or_app; by left|done].
Qed.

Lemma by_tag_lookup l i : NoDup (tag <$> l) -> In i l -> by_tag l !! tag i = Some i.
Proof.
  induction l as [|j l IH] using rev_ind; [done|]. rewrite by_tag_app, fmap_app.
  intros Hnd Hin. apply NoDup_app in Hnd as (Hl & Hd & _).
  apply in_app_or in Hin as [Hin|[->|[]]]; [|apply lookup_insert_eq].
  rewrite lookup_insert_ne; [auto|]. intros Heq.
  apply (Hd (tag i)); [|rewrite <- Heq; by apply list_elem_of_here].
  by apply list_elem_of_fmap_2, list_elem_of_In.
Qed.

Lemma by_tag_none l t : by_tag l !! t = None <-> forall j, In j l -> tag j <> t.
Proof.
  induction l as [|j l IH] using rev_ind; [split; [intros _ j []|done]|].
  rewrite by_tag_app, lookup_insert_None, IH. setoid_rewrite in_app_iff. split.
  - intros [H1 H2] k [Hk|[<-|[]]]; auto.
  - intros H. split; [auto|]. apply H. right; by left.
Qed.

Lemma in_order_in m i : In i (in_order m) <-> exists t, m !! t = Some i.
Proof.
  unfold in_order. rewrite <- list_elem_of_In, list_elem_of_fmap. split.
  - intros ([t j] & -> & H). apply list_elem_of_In, sort_by_in, list_elem_of_In in H.
    exists t. by apply elem_of_map_to_list.
  - intros [t H]. exists (t, i). split; [done|].
    apply list_elem_of_In, sort_by_in, list_elem_of_In. by apply elem_of_map_to_list.
Qed.

Lemma in_order_by_tag l i : NoDup (tag <$> l) -> In i (in_order (by_tag l)) <-> In i l.
Proof.
  intros Hnd. rewrite in_order_in. split.
  - intros [t H]. exact (proj1 (by_tag_in _ _ _ H)).
  - intros H. exists (tag i). by apply by_tag_lookup.
Qed.

Lemma core_list_in c s : In c (core_list s) <-> c ∈ s.
Proof. unfold core_list. rewrite sort_by_in, <- list_elem_of_In. apply elem_of_elements. Qed.

Lemma elem_of_cores c l : c ∈ (list_to_set (core <$> l) : gset string) <-> exists i, In i l /\ core i = c.
Proof.
  rewrite elem_of_list_to_set, list_elem_of_fmap. setoid_rewrite list_elem_of_In.
  split; intros (i & ? & ?); eauto.
Qed.

Lemma same_tag_eq l i j :
  NoDup (tag <$> l) -> In i l -> In j l -> tag i = tag j -> i = j.
Proof.
  intros Hnd Hi Hj Ht. apply (by_tag_lookup l) in Hi, Hj; try done. congruence.
Qed.

Lemma elem_of_restarts old new c :
  c ∈ ⋃ (restarts old <$> new) <->
  exists i, In i new /\ old !! tag i <> Some i /\
    (core i = c \/ exists j, old !! tag i = Some j /\ core j = c).
Proof.
  rewrite elem_of_union_list. setoid_rewrite list_elem_of_fmap. setoid_rewrite list_elem_of_In. split.
  - intros (X & (i & -> & Hi) & Hc). exists i. split; [done|]. unfold restarts in Hc.
    destruct (old !! tag i) as [j|]; [|split; [done|left; set_solver]].
    case_bool_decide; [set_solver|]. split; [congruence|].
    apply elem_of_union in Hc as [Hc|Hc]; [right; exists j|left]; set_solver.
  - intros (i & Hi & Hne & Hc). exists (restarts old i). split; [eauto|]. unfold restarts.
    destruct (old !! tag i) as [j|].
    + rewrite bool_decide_eq_false_2 by congruence. destruct Hc as [<-|(k & Hk & <-)]; [set_solver|].
      injection Hk as ->. set_solver.
    + destruct Hc as [<-|(k & Hk & _)]; [set_solver|done].
Qed.

(** A preview against a recorded baseline is the exact difference.  With
    tags unique on both sides, the added, removed and modified inbounds are
    those whose tag is new, gone or kept with another summary, and a core is
    announced for restart exactly when some inbound of it differs between the
    two summaries. *)
Theorem preview_diff_exact (spec_hash : Pb.NodeSpec -> string)
    (from_value : json -> option SpecSummary) (spec : Pb.NodeSpec)
    (applied_hash : option string) (v : json) (prev : SpecSummary) :
  from_value v = Some prev -> NoDup (tag <$> s_inbounds prev) ->
  NoDup (tag <$> s_inbounds (summarize spec)) ->
  let old := s_inbounds prev in
  let new := s_inbounds (summarize spec) in
  let p := preview spec_hash from_value spec applied_hash (Some v) in
  (forall i, In i (added p) <-> In i new /\ forall j, In j old -> tag j <> tag i) /\
  (forall i, In i (removed p) <-> In i old /\ forall j, In j new -> tag j <> tag i) /\
  (forall i, In i (modified p) <-> In i new /\ exists j, In j old /\ tag j = tag i /\ j <> i) /\
  (forall c, In c (restart_cores p) <->
     exists i, core i = c /\ ((In i old /\ ~ In i new) \/ (In i new /\ ~ In i old))).
Proof.
  intros Hv. unfold preview. rewrite Hv.
  generalize (s_inbounds (summarize spec)) as new, (s_inbounds prev) as old.
  intros new old Ho Hn. cbn [added removed modified restart_cores].
  assert (Hgone : forall i, In i (List.filter (fun i => negb (is_some (by_tag new !! tag i))) (in_order (by_tag old)))
      <-> In i old /\ forall j, In j new -> tag j <> tag i).
  { intros i. by rewrite List.filter_In, in_order_by_tag, <- by_tag_none, negb_is_some. }
  split; [|split; [exact Hgone|split]].
  - intros i. unfold is_new. by rewrite List.filter_In, in_order_by_tag, <- by_tag_none, negb_is_some.
  - intros i. rewrite List.filter_In, in_order_by_tag by done. unfold is_modified. split.
    + intros [Hi Hm]. split; [done|]. destruct (by_tag old !! tag i) as [j|] eqn:E; [|done].
      apply by_tag_in in E as [Hj Ht]. case_bool_decide; [done|]. eauto.
    + intros [Hi (j & Hj & Ht & Hne)]. split; [done|].
      rewrite <- Ht, by_tag_lookup by done. by rewrite bool_decide_eq_false_2.
  - intros c. rewrite core_list_in, elem_of_union, elem_of_restarts, elem_of_cores.
    setoid_rewrite Hgone. setoid_rewrite (in_order_by_tag new _ Hn). split.
    + intros [(i & Hi & Hne & [Hc|(j & Hj & Hc)])|(i & [Hi Hg] & Hc)].
      * exists i. split; [done|]. right. split; [done|]. intros Hold. by apply Hne, by_tag_lookup.
      * exists j. split; [done|]. left. apply by_tag_in in Hj as [Hj Ht]. split; [done|].
        intros Hnj. pose proof (same_tag_eq new i j Hn Hi Hnj (eq_sym Ht)) as <-.
        by apply Hne, by_tag_lookup.
      * exists i. split; [done|]. left. split; [done|]. intros Hni. by apply (Hg i Hni).
    + intros (i & Hc & [[Hi Hni]|[Hi Hni]]).
      * destruct (by_tag new !! tag i) as [j|] eqn:E; [left|right].
        -- apply by_tag_in in E as [Hj Ht]. exists j. split; [done|].
           rewrite Ht, by_tag_lookup by done. split; [congruence|]. right. eauto.
        -- exists i. split; [split; [done|]|done]. by apply by_tag_none.
      * left. exists i. split; [done|]. split; [|by left].
        intros E. by apply by_tag_in in E as [? _].
Qed.

Definition xray_443 : InboundSummary := mkSummary "old" "xray" "vless" "::" 443 "tcp" "none" 0.
Definition sample_spec : Pb.NodeSpec :=
  Pb.mkSpec "info" "127.0.0.1:9090" ""
    [Pb.mkInbound "singbox" "new" "vless" "::" 443 [] None "" None 0 0 ""] [] [].

Lemma preview_diff_exact_witness :
  In "xray" (restart_cores (preview (fun _ => "h") (fun _ => Some (mkSpecSummary 1 [xray_443]))
               sample_spec None (Some JNull))).
Proof.
  apply (preview_diff_exact (fun _ => "h") (fun _ => Some (mkSpecSummary 1 [xray_443]))
    sample_spec None JNull (mkSpecSummary 1 [xray_443])).
  - reflexivity.
  - simpl. apply NoDup_singleton.
  - vm_compute. apply NoDup_singleton.
  - exists xray_443. split; [reflexivity|]. left. split; [left; reflexivity|].
    vm_compute. intros [H|[]]. discriminate.
Defined.

(** Right after a push is recorded the preview is empty: with the pushed
    spec's hash and summary as the applied ones, nothing is added, removed or
    modified and no core restarts.  The codec of the stored summary is only
    assumed to read back what it wrote. *)
Theorem preview_after_push (spec_hash : Pb.NodeSpec -> string)
    (to_value : SpecSummary -> json) (from_value : json -> option SpecSummary)
    (spec : Pb.NodeSpec) :
  from_value (to_value (summarize spec)) = Some (summarize spec) ->
  NoDup (tag <$> s_inbounds (summarize spec)) ->
  preview spec_hash from_value spec (Some (spec_hash spec)) (Some (to_value (summarize spec)))
  = mkPreview (spec_hash spec) (Some (spec_hash spec)) false true [] [] [] [].
Proof.
  intros Hrt. unfold preview. rewrite Hrt.
  generalize (s_inbounds (summarize spec)) as l. intros l Hnd.
  rewrite bool_decide_eq_true_2 by done. cbn [is_some negb].
  assert (Hm : forall i, In i (in_order (by_tag l)) -> by_tag l !! tag i = Some i).
  { intros i Hi. apply by_tag_lookup, in_order_by_tag; done. }
  rewrite !list_nil_filter.
  2-4: intros i Hi; unfold is_modified, is_new; rewrite (Hm i Hi); [..|by rewrite bool_decide_eq_true_2 || done].
  f_equal. apply list_nil_in. intros c Hc. apply core_list_in, elem_of_union in Hc as [Hc|Hc].
  - apply elem_of_restarts in Hc as (i & Hi & Hne & _). by apply Hne, Hm.
  - apply elem_of_cores in Hc as (i & [] & _).
Qed.

Lemma preview_after_push_witness :
  preview (fun _ => "h") (fun v => if is_object v then Some (summarize sample_spec) else None)
    sample_spec (Some "h") (Some empty_object) = mkPreview "h" (Some "h") false true [] [] [] [].
Proof.
  apply (preview_after_push (fun _ => "h") (fun _ => empty_object)
    (fun v => if is_object v then Some (summarize sample_spec) else None)).
  - reflexivity.
  - vm_compute. apply NoDup_singleton.
Defined.
