(* ===== verification/Reach.v ===== *)
(** * Reachability (src/master/src/reach.rs, the reachability handlers and the
    rollout gate of src/master/src/api/mod.rs, the reachability queries of
    src/master/src/db/repo.rs)

    The network is a parameter: name resolution, TCP connects with their latency
    and UDP exchanges.  Times are microseconds.  Every UPDATE of an inbound also
    stamps [updated_at], as the trigger of the migrations does. *)

From S2P Require Import Prelude Strings Json Models Db Api Settings Access Spec.

Definition QUIC_MIN_INITIAL_SIZE : nat := 1200.
Definition QUIC_RESERVED_VERSION : list Z := [10; 10; 10; 10].

Definition is_quic (kind : string) : bool := one_of ["hysteria2"; "tuic"] kind.

(** The probe; [id] is the 16 bytes of a fresh UUID. *)
Definition quic_probe_packet (id : list Z) : list Z :=
  let head := [192] ++ QUIC_RESERVED_VERSION ++ [8] ++ take 8 id ++ [8] ++ drop 8 id in
  head ++ replicate (QUIC_MIN_INITIAL_SIZE - length head) 0.

Definition is_quic_version_negotiation (packet : list Z) : bool :=
  (5 <=? Z.of_nat (length packet)) && negb (Z.land (nth 0 packet 0) 128 =? 0)
  && bool_decide (take 4 (drop 1 packet) = [0; 0; 0; 0]).

(** ** Probes *)

(** What the sockets answer. *)
Record Net := mkNet {
  addr : Type;
  lookup_host : string -> Z -> option (list addr);
  (** The reply within the timeout, when binding, connecting and sending work. *)
  udp_exchange : addr -> list Z -> option (list Z);
  (** The milliseconds a connect took, when it succeeds within the timeout. *)
  tcp_connect : string -> Z -> option Z }.

Section Probes.
Context (net : Net) (probe_id : list Z).

Definition quic_open_addr (a : addr net) : bool :=
  is_some_and (udp_exchange net a (quic_probe_packet probe_id))
    (fun response => is_quic_version_negotiation (take 2048 response)).

Definition quic_open (host : string) (port : Z) : bool :=
  is_some_and (lookup_host net host port) (existsb quic_open_addr).

Definition tcp_open (host : string) (port : Z) : bool := is_some (tcp_connect net host port).

Definition tcp_latency (host : string) (port : Z) : option Z :=
  (fun ms => Z.min ms u32_max) <$> tcp_connect net host port.

Definition u16_of (port : Z) : option Z := if (0 <=? port) && (port <=? u16_max) then Some port else None.

Definition probe (host : string) (port : Z) (kind : string) : bool :=
  if is_quic kind then quic_open host port else tcp_open host port.
End Probes.

(** ** Choosing a fronting host *)

(** [min_by_key]: the first of the smallest. *)
Fixpoint min_latency (l : list (string * Z)) : option (string * Z) :=
  match l with
  | [] => None
  | x :: rest =>
      match min_latency rest with
      | Some y => if x.2 <=? y.2 then Some x else Some y
      | None => Some x
      end
  end.

Definition reachable_hosts (measured : list (string * option Z)) : list (string * Z) :=
  omap (fun m => (fun l => (m.1, l)) <$> m.2) measured.

Definition latency_of (measured : list (string * option Z)) (host : string) : option Z :=
  match List.find (fun m => String.eqb m.1 host) measured with Some m => m.2 | None => None end.

Definition sat_mul_u32 (a b : Z) : Z := Z.min (a * b) u32_max.
Definition sat_sub_u32 (a b : Z) : Z := Z.max (a - b) 0.

Definition pick_best_cdn (measured : list (string * option Z)) (current : option string) (margin_pct : Z)
    : option string :=
  let! best := min_latency (reachable_hosts measured) in
  match (match current with Some c => latency_of measured c | None => None end) with
  | None => if bool_decide (Some best.1 = current) then None else Some best.1
  | Some cur =>
      if String.eqb best.1 (default "" current) then None
      else if best.2 <=? sat_mul_u32 cur (sat_sub_u32 100 margin_pct) / 100 then Some best.1 else None
  end.

(** ** The inbounds table *)

(** The row with these columns replaced. *)
Definition retouch (now : Z) (server_name transport_host : option string) (reachable : option bool)
    (checked : option Z) (error : option string) (i : Inbound.Inbound) : Inbound.Inbound :=
  Inbound.mk (Inbound.id i) (Inbound.node_id i) (Inbound.tag i) (Inbound.labels i)
    (Inbound.kind i) (Inbound.core i) (Inbound.listen i) (Inbound.listen_port i)
    (Inbound.flow i) (Inbound.tls_enabled i) server_name
    (Inbound.cert_path i) (Inbound.key_path i) (Inbound.reality i) (Inbound.reality_private_key i)
    (Inbound.reality_public_key i) (Inbound.reality_short_ids i)
    (Inbound.reality_handshake_server i) (Inbound.reality_handshake_port i)
    (Inbound.network i) (Inbound.transport_path i) transport_host
    (Inbound.transport_service_name i) (Inbound.transport_mode i) (Inbound.ech i)
    (Inbound.utls_fingerprint i) (Inbound.shadowtls_handshake_server i)
    (Inbound.shadowtls_handshake_port i) (Inbound.extra i) (Inbound.enabled i)
    reachable checked error
    (Inbound.fallback_host i) (Inbound.sni_pool i) (Inbound.cdn_pool i)
    (Inbound.up_mbps i) (Inbound.down_mbps i) (Inbound.udp_idle_timeout i)
    (Inbound.upstream_inbound_id i) (Inbound.chain_uuid i) (Inbound.chain_password i)
    (Inbound.created_at i) now.

Definition with_verdict (now : Z) (reachable : option bool) (error : option string) (i : Inbound.Inbound) :=
  retouch now (Inbound.server_name i) (Inbound.transport_host i) reachable (Some now) error i.
Definition with_sni (now : Z) (sni : string) (i : Inbound.Inbound) :=
  retouch now (Some sni) (Inbound.transport_host i) None (Some now) None i.
Definition with_transport_host (now : Z) (host : string) (i : Inbound.Inbound) :=
  retouch now (Inbound.server_name i) (Some host) (Inbound.reachable i) (Inbound.reach_checked_at i)
    (Inbound.reach_error i) i.

Definition on_inbound (id : Uuid) (f : Inbound.Inbound -> Inbound.Inbound) (db : Db) : Db :=
  with_inbounds (alter f id) db.

Definition set_inbound_reachability (now : Z) (id : Uuid) (reachable : option bool) (error : option string)
    (db : Db) : bool * Db :=
  (is_some (inbounds db !! id), on_inbound id (with_verdict now reachable error) db).

Definition inbounds_for_reach (db : Db) : list (Uuid * string * Z * string) :=
  (fun p => (Inbound.id p.1, Node.address p.2, Inbound.listen_port p.1, Inbound.kind p.1))
    <$> List.filter (fun p => Inbound.enabled p.1 && Node.enabled p.2) (joined db).

Definition inbounds_with_cdn_pool (db : Db) : list (Uuid * Uuid * option string * list string) :=
  (fun i => (Inbound.id i, Inbound.node_id i, Inbound.transport_host i, Inbound.cdn_pool i))
    <$> List.filter (fun i => Inbound.enabled i && negb (bool_decide (Inbound.cdn_pool i = []))) (rows (inbounds db)).

Definition set_inbound_transport_host (now : Z) (id : Uuid) (host : string) (db : Db)
    : result Uuid db_error * Db :=
  match inbounds db !! id with
  | None => (Err RowNotFound, db)
  | Some i => (Ok (Inbound.node_id i), on_inbound id (with_transport_host now host) db)
  end.

(** The first pool value that is not blank and not the current one. *)
Definition next_sni (i : Inbound.Inbound) : option string :=
  head (List.filter (fun s => negb (is_empty (trim s)) && negb (bool_decide (Some s = Inbound.server_name i)))
          (Inbound.sni_pool i)).

Definition rotate_inbound_sni (now : Z) (id : Uuid) (db : Db) : option (Uuid * string) * Db :=
  match inbounds db !! id with
  | None => (None, db)
  | Some i =>
      match next_sni i with
      | None => (None, db)
      | Some sni => (Some (Inbound.node_id i, sni), on_inbound id (with_sni now sni) db)
      end
  end.

(** ** Vantage reports *)

Record ReachabilityReport := mkReport {
  rr_inbound : Uuid;
  rr_source : string;
  rr_reachable : bool;
  rr_latency_ms : option Z;
  rr_error : option string;
  rr_created_at : Z }.

Record World := mkWorld { db : Db; reports : list ReachabilityReport }.
Definition with_db (f : Db -> Db) (w : World) : World := mkWorld (f (db w)) (reports w).

Definition half_hour : Z := 30 * 60 * 1000000.

(** The reports on an inbound within the window, in insertion order. *)
Definition recent_reports (now : Z) (id : Uuid) (l : list ReachabilityReport) : list ReachabilityReport :=
  List.filter (fun r => (rr_inbound r =? id) && (now - half_hour <? rr_created_at r)) l.

(** The newest of a list; the later insertion of two equally new ones. *)
Definition newer_report (best : option ReachabilityReport) (r : ReachabilityReport) : option ReachabilityReport :=
  match best with
  | Some b => if rr_created_at b <=? rr_created_at r then Some r else best
  | None => Some r
  end.
Definition newest (l : list ReachabilityReport) : option ReachabilityReport := fold_left newer_report l None.

(** DISTINCT ON (source) ... ORDER BY source, created_at DESC. *)
Definition latest_from (source : string) (l : list ReachabilityReport) : option ReachabilityReport :=
  newest (List.filter (fun r => String.eqb (rr_source r) source) l).

Definition consensus (now : Z) (id : Uuid) (l : list ReachabilityReport) : option bool :=
  match recent_reports now id l with
  | [] => None
  | recent => Some (forallb (fun r => is_some_and (latest_from (rr_source r) recent) rr_reachable) recent)
  end.

Definition record_reachability_report (now : Z) (id : Uuid) (source : string) (reachable : bool)
    (latency_ms : option Z) (error : option string) (w : World) : option (option bool) * World :=
  if negb (is_some (inbounds (db w) !! id)) then (None, w) else
  let l := reports w ++ [mkReport id source reachable latency_ms error now] in
  let verdict := consensus now id l in
  let err := if bool_decide (verdict = Some false) then Some "blocked from a vantage checker" else None in
  (Some verdict, mkWorld (set_inbound_reachability now id verdict err (db w)).2 l).

Definition has_recent_vantage_report (now : Z) (id : Uuid) (w : World) : bool :=
  negb (bool_decide (recent_reports now id (reports w) = [])).

Definition recent_reachability_reports (id : Uuid) (limit : nat) (w : World) : list ReachabilityReport :=
  take limit (sort_by (fun a b => rr_created_at b <=? rr_created_at a)
    (List.filter (fun r => rr_inbound r =? id) (reports w))).

(** The handlers: their answer, the world, the nodes pushed and the actions
    audited. *)
Record Effects := mkEffects { pushed : list Uuid; audited : list string }.

Definition report_reachability (now : Z) (id : Uuid) (source : option string) (reachable : bool)
    (latency_ms : option Z) (error : option string) (w : World)
    : result unit api_error * World * Effects :=
  let source := default "vantage" ((fun s => bounded_auth_text s 64 "vantage") <$> source) in
  match record_reachability_report now id source reachable latency_ms error w with
  | (None, w1) => (Err (NotFound "inbound not found"), w1, mkEffects [] [])
  | (Some verdict, w1) =>
      if bool_decide (verdict = Some false) then
        match rotate_inbound_sni now id (db w1) with
        | (Some (node_id, _), db2) =>
            (Ok tt, mkWorld db2 (reports w1), mkEffects [node_id] ["rotate_sni"; "report_reachability"])
        | (None, _) => (Ok tt, w1, mkEffects [] ["report_reachability"])
        end
      else (Ok tt, w1, mkEffects [] ["report_reachability"])
  end.

Definition rotate_sni (now : Z) (id : Uuid) (w : World) : result string api_error * World * Effects :=
  match rotate_inbound_sni now id (db w) with
  | (Some (node_id, sni), db') => (Ok sni, mkWorld db' (reports w), mkEffects [node_id] ["rotate_sni"])
  | (None, _) => (Err (BadRequest "no alternate SNI in the pool to rotate to"), w, mkEffects [] [])
  end.

Definition list_reachability (id : Uuid) (w : World) : list ReachabilityReport :=
  recent_reachability_reports id 30 w.

(** ** The monitor *)

Section Monitor.
Context (net : Net) (probe_id : list Z) (decrypt : string -> option string).

(** One probe and its verdict; a port outside [u16] is not probed. *)
Definition check_one (now : Z) (id : Uuid) (host : string) (port : Z) (kind : string) (db : Db)
    : option bool * Db :=
  match u16_of port with
  | None => (None, db)
  | Some port =>
      let ok := probe net probe_id host port kind in
      let error := if ok then None
                   else if is_quic kind then Some "quic version negotiation failed"
                   else Some "tcp connect failed" in
      (Some ok, (set_inbound_reachability now id (Some ok) error db).2)
  end.

Definition probe_inbound (now : Z) (id : Uuid) (db : Db) : result Inbound.Inbound api_error * Db :=
  match inbounds db !! id with
  | None => (Err (NotFound "inbound not found"), db)
  | Some i =>
      match decrypt_inbound decrypt i with
      | Err e => (Err (ApiDb e), db)
      | Ok _ =>
          match nodes db !! Inbound.node_id i with
          | None => (Err (NotFound "node not found"), db)
          | Some n =>
              let db' := (check_one now id (Node.address n) (Inbound.listen_port i) (Inbound.kind i) db).2 in
              match inbounds db' !! id with
              | Some i' => (lift_db (decrypt_inbound decrypt i'), db')
              | None => (Err (NotFound "inbound not found"), db')
              end
          end
      end
  end.

(** One inbound of the rotation, and whether its node is pushed. *)
Definition rotate_one (now margin : Z) (db : Db) (row : Uuid * Uuid * option string * list string)
    : option Uuid * Db :=
  let '(id, node_id, current, cdn_pool) := row in
  let measured := (fun host => (host, tcp_latency net host 443))
                    <$> List.filter (fun h => negb (is_empty (trim h))) cdn_pool in
  match pick_best_cdn measured current margin with
  | None => (None, db)
  | Some best =>
      match set_inbound_transport_host now id best db with
      | (Ok _, db') => (Some node_id, db')
      | (Err _, db') => (None, db')
      end
  end.

Definition cdn_rotate (now : Z) (enabled margin : result (option string) db_error) (db : Db) : list Uuid * Db :=
  if setting_i64 enabled 0 =? 0 then ([], db) else
  let m := clamp 1 90 (setting_i64 margin 30) in
  fold_left (fun acc row =>
      let '(pushed, d) := rotate_one now m acc.2 row in
      (acc.1 ++ match pushed with Some n => [n] | None => [] end, d))
    (inbounds_with_cdn_pool db) ([], db).

(** One pass over the targets: an inbound the fleet reported on is left alone. *)
Definition sweep (now : Z) (w : World) (target : Uuid * string * Z * string) : World :=
  let '(id, host, port, kind) := target in
  if has_recent_vantage_report now id w then w
  else with_db (fun d => (check_one now id host port kind d).2) w.

(** A tick of the loop; only the leader acts.  [clock] is the time an inbound's
    turn comes, [later] the time of the rotation. *)
Definition monitor_tick (leader : bool) (clock : Uuid -> Z) (later : Z)
    (enabled margin : result (option string) db_error) (w : World) : World :=
  if negb leader then w else
  let w1 := fold_left (fun w t => sweep (clock t.1.1.1) w t) (inbounds_for_reach (db w)) w in
  with_db (fun d => (cdn_rotate later enabled margin d).2) w1.

(** ** The rollout gate *)

Record PreflightTarget := mkTarget {
  pt_kind : string;
  pt_label : string;
  pt_target : string;
  pt_reachable : option bool;
  pt_detail : string }.

Definition at_port (host : string) (port : Z) : string := host +:+ ":" +:+ show port.

Definition control_target (n : Node.Node) : PreflightTarget :=
  let target := at_port (Node.address n) (Node.grpc_port n) in
  if String.eqb (Node.transport n) "dial"
  then mkTarget "control" "agent (dial mode)" target None "dial-mode node connects out; nothing to probe"
  else
    let ok := (fun port => tcp_open net (Node.address n) port) <$> u16_of (Node.grpc_port n) in
    mkTarget "control" "agent gRPC" target ok
      (match ok with Some true => "port open" | Some false => "tcp connect failed" | None => "invalid port" end).

Definition data_target (n : Node.Node) (i : Inbound.Inbound) : PreflightTarget :=
  let ok := (fun port => probe net probe_id (Node.address n) port (Inbound.kind i)) <$> u16_of (Inbound.listen_port i) in
  mkTarget "data" (Inbound.tag i +:+ " (" +:+ Inbound.kind i +:+ ")")
    (at_port (Node.address n) (Inbound.listen_port i)) ok
    (match ok with
     | Some true => if is_quic (Inbound.kind i) then "QUIC version negotiation succeeded" else "TCP port open"
     | Some false => if is_quic (Inbound.kind i) then "QUIC version negotiation failed" else "TCP connect failed"
     | None => "invalid port"
     end).

Definition preflight (n : Node.Node) (db : Db) : result (list PreflightTarget) db_error :=
  let? rows_ := enabled_node_inbounds decrypt (Node.id n) db in
  Ok (control_target n :: (data_target n <$> rows_)).

Definition failures (targets : list PreflightTarget) : list PreflightTarget :=
  List.filter (fun t => bool_decide (pt_reachable t = Some false)) targets.

Definition preflight_gate (row : result (option string) db_error) : string :=
  match row with
  | Ok (Some v) => if one_of ["off"; "warn"; "block"] (trim v) then trim v else "warn"
  | _ => "warn"
  end.

(** The part of [push_node] before it touches the node. *)
Definition rollout_gate (row : result (option string) db_error) (id : Uuid) (db : Db)
    : result Node.Node api_error :=
  match nodes db !! id with
  | None => Err (NotFound "node not found")
  | Some n =>
      let gate := preflight_gate row in
      if String.eqb gate "off" then Ok n else
      let? targets := lift_db (preflight n db) in
      let failed := failures targets in
      let summary := join ", " ((fun t => pt_label t +:+ " (" +:+ pt_target t +:+ ")") <$> failed) in
      if negb (bool_decide (length failed = 0%nat)) && String.eqb gate "block"
      then Err (BadRequest ("preflight gate blocked the rollout — unreachable: " +:+ summary +:+
                  ". Fix the endpoint or set the preflight gate to warn/off."))
      else Ok n
  end.

Definition node_preflight (row : result (option string) db_error) (id : Uuid) (db : Db)
    : result (bool * string * list PreflightTarget) api_error :=
  match nodes db !! id with
  | None => Err (NotFound "node not found")
  | Some n =>
      let? targets := lift_db (preflight n db) in
      Ok (bool_decide (length (failures targets) = 0%nat), preflight_gate row, targets)
  end.
End Monitor.

(** ** Properties *)

(** *** The probe packet *)

(** The probe is a well-formed QUIC Initial.  For the sixteen bytes of any
    connection id it has the minimum datagram size, every element is a byte, the
    long-header bits and the reserved version are set, and both connection ids
    read back; it is not itself a version negotiation. *)
Theorem quic_probe_well_formed (id : list Z) :
  length id = 16%nat -> Forall (fun b => 0 <= b < 256) id ->
  let packet := quic_probe_packet id in
  length packet = QUIC_MIN_INITIAL_SIZE /\ Forall (fun b => 0 <= b < 256) packet /\
  Z.land (nth 0 packet 0) 192 = 192 /\ take 4 (drop 1 packet) = QUIC_RESERVED_VERSION /\
  take 8 (drop 6 packet) ++ take 8 (drop 15 packet) = id /\
  is_quic_version_negotiation packet = false.
Proof.
  intros Hl Hb packet.
  do 16 (destruct id as [|? id]; [discriminate Hl|]). destruct id; [|discriminate Hl]. clear Hl.
  assert (Hp : packet = ([192; 10; 10; 10; 10; 8; z; z0; z1; z2; z3; z4; z5; z6; 8; z7; z8; z9; z10; z11; z12; z13; z14]
                          ++ replicate 1177 0)) by reflexivity.
  rewrite Hp. split; [reflexivity|]. split; [|repeat split].
  apply Forall_app. split; [|by apply Forall_replicate].
  rewrite !Forall_cons in Hb. destruct_and! Hb. repeat (constructor; [lia|]). constructor.
Qed.

Lemma quic_probe_well_formed_witness :
  length (quic_probe_packet (replicate 16 7)) = 1200%nat.
Proof.
  refine (proj1 (quic_probe_well_formed (replicate 16 7) eq_refl _)). apply Forall_replicate. lia.
Defined.

(** *** Choosing a fronting host *)

Lemma min_latency_in l x : min_latency l = Some x -> In x l /\ forall y, In y l -> x.2 <= y.2.
Proof.
  revert x. induction l as [|y l IH]; intros x; [done|]. simpl.
  destruct (min_latency l) as [z|] eqn:E.
  - destruct (IH z eq_refl) as [Hz Hmin]. destruct (y.2 <=? z.2) eqn:Ele; breflect; intros [= <-].
    + split; [by left|]. intros w [<-|Hw]; [lia|]. specialize (Hmin w Hw). lia.
    + split; [by right|]. intros w [<-|Hw]; [lia|auto].
  - intros [= <-]. split; [by left|]. intros w [<-|Hw]; [lia|].
    destruct l as [|w' l]; [done|]. simpl in E. by destruct (min_latency l) as [?|]; [destruct (_ <=? _)|].
Qed.

Lemma reachable_hosts_in measured h l : In (h, l) (reachable_hosts measured) <-> In (h, Some l) measured.
Proof.
  unfold reachable_hosts. rewrite <- !list_elem_of_In, list_elem_of_omap. split.
  - intros ([h' [l'|]] & Hin & Heq); [|done]. by injection Heq as -> ->.
  - intros Hin. exists (h, Some l). done.
Qed.

(** The fronting host is switched only for a real gain, and never back and
    forth.  A host chosen is a measured reachable one of least latency other than
    the current, and when the current host answers too, the gain is at least the
    margin; choosing again on the same measurements keeps it. *)
Theorem cdn_pick_stable (measured : list (string * option Z)) (current : option string) (margin : Z) :
  match pick_best_cdn measured current margin with
  | Some h =>
      Some h <> current /\
      (exists l, In (h, Some l) measured /\ (forall h' l', In (h', Some l') measured -> l <= l') /\
         forall c cur, current = Some c -> latency_of measured c = Some cur -> 0 <= margin <= 100 ->
           l * 100 <= cur * (100 - margin)) /\
      pick_best_cdn measured (Some h) margin = None
  | None => True
  end.
Proof.
  destruct (pick_best_cdn measured current margin) as [h|] eqn:E; [|done]. unfold pick_best_cdn in *.
  destruct (min_latency (reachable_hosts measured)) as [[b l]|] eqn:Em; [|done]. cbn [fst snd] in *.
  destruct (min_latency_in _ _ Em) as [Hin Hmin]. apply reachable_hosts_in in Hin.
  assert (Hb : b = h /\ Some h <> current /\
    forall cur, (match current with Some c => latency_of measured c | None => None end) = Some cur ->
      l <= sat_mul_u32 cur (sat_sub_u32 100 margin) / 100).
  { destruct (match current with Some c => latency_of measured c | None => None end) as [cur|] eqn:Ec.
    - destruct (String.eqb_spec b (default "" current)) as [|Hne]; [done|].
      destruct (l <=? _) eqn:El; [|done]. injection E as <-. breflect. split; [done|]. split.
      + destruct current; [|done]. simpl in Hne. congruence.
      + by intros ? [= <-].
    - case_bool_decide; [done|]. by injection E as <-. }
  destruct Hb as (-> & Hne & Hgain). split; [done|]. split; [|].
  - exists l. split; [done|]. split.
    + intros h' l' Hl'. by apply (Hmin (h', l')), reachable_hosts_in.
    + intros c cur -> Hc Hm. specialize (Hgain cur Hc). unfold sat_mul_u32, sat_sub_u32 in Hgain.
      rewrite Z.max_l in Hgain by lia.
      assert (Hd : l <= cur * (100 - margin) / 100).
      { etrans; [exact Hgain|]. apply Z.div_le_mono; lia. }
      pose proof (Z.mul_div_le (cur * (100 - margin)) 100). lia.
  - rewrite bool_decide_eq_true_2 by done. destruct (latency_of measured h); [|done].
    simpl. by rewrite String.eqb_refl.
Qed.

(** *** The fleet's verdict *)

(** Rows are stored under their id. *)
Definition rows_keyed (d : Db) : Prop := forall k i, inbounds d !! k = Some i -> Inbound.id i = k.

(** What a tick may not change about an inbound reported blocked. *)
Definition blocked_at (id : Uuid) (t0 : Z) (w : World) : Prop :=
  rows_keyed (db w) /\
  (exists i, inbounds (db w) !! id = Some i /\ Inbound.reachable i = Some false) /\
  exists r, In r (reports w) /\ rr_inbound r = id /\ rr_created_at r = t0.

Lemma on_inbound_lookup k f d id :
  inbounds (on_inbound k f d) !! id = if decide (k = id) then f <$> inbounds d !! id else inbounds d !! id.
Proof. unfold on_inbound. simpl. case_decide; subst; [apply lookup_alter_eq|by apply lookup_alter_ne]. Qed.

Lemma on_inbound_keyed k f d :
  (forall i, Inbound.id (f i) = Inbound.id i) -> rows_keyed d -> rows_keyed (on_inbound k f d).
Proof.
  intros Hf Hk id i. rewrite on_inbound_lookup. case_decide; [|apply Hk].
  destruct (inbounds d !! id) as [j|] eqn:E; [|done]. intros [= <-]. rewrite Hf. by apply Hk.
Qed.

Lemma recent_vantage now id t0 w :
  blocked_at id t0 w -> now < t0 + half_hour -> has_recent_vantage_report now id w = true.
Proof.
  intros (_ & _ & r & Hr & Hid & Ht) Hnow. unfold has_recent_vantage_report. apply negb_true_iff, bool_decide_eq_false.
  intros He. assert (Hin : In r (recent_reports now id (reports w))); [|by rewrite He in Hin].
  apply List.filter_In. split; [done|]. apply andb_true_iff. rewrite Z.eqb_eq, Z.ltb_lt. lia.
Qed.

Lemma sweep_blocked net probe_id now id t0 w target :
  blocked_at id t0 w -> (target.1.1.1 = id -> now < t0 + half_hour) ->
  blocked_at id t0 (sweep net probe_id now w target).
Proof.
  intros Hb Hnow. destruct target as [[[tid host] port] kind]. cbn [fst] in Hnow. unfold sweep.
  destruct (has_recent_vantage_report now tid w) eqn:Eh; [done|].
  assert (Hne : tid <> id).
  { intros ->. by rewrite (recent_vantage now id t0 w Hb (Hnow eq_refl)) in Eh. }
  destruct Hb as (Hk & (i & Hi & Hr) & Hrep). unfold check_one. destruct (u16_of port); [|split; [done|split; [eauto|done]]].
  split; [|split; [|done]].
  - by apply on_inbound_keyed.
  - exists i. split; [|done]. simpl. by rewrite lookup_alter_ne.
Qed.

Lemma rotate_one_blocked net now margin id t0 reps d row :
  blocked_at id t0 (mkWorld d reps) -> blocked_at id t0 (mkWorld (rotate_one net now margin d row).2 reps).
Proof.
  destruct row as [[[rid node_id] current] pool]. unfold rotate_one.
  destruct (pick_best_cdn _ _ _) as [best|]; [|done]. unfold set_inbound_transport_host.
  destruct (inbounds d !! rid); [|done]. intros (Hk & (j & Hi & Hr) & Hrep). cbn [snd].
  split; [|split; [|done]].
  - by apply on_inbound_keyed.
  - simpl in *. destruct (decide (rid = id)) as [->|Hne].
    + exists (with_transport_host now best j). by rewrite lookup_alter_eq, Hi.
    + exists j. by rewrite lookup_alter_ne.
Qed.

Lemma cdn_rotate_blocked net now enabled margin id t0 w :
  blocked_at id t0 w -> blocked_at id t0 (with_db (fun d => (cdn_rotate net now enabled margin d).2) w).
Proof.
  destruct w as [d reps]. intros Hb. unfold with_db, cdn_rotate. cbn [db reports].
  destruct (_ =? 0); [done|].
  set (f := fun (acc : list Uuid * Db) row =>
    let '(pushed, d') := rotate_one net now (clamp 1 90 (setting_i64 margin 30)) acc.2 row in
    (acc.1 ++ match pushed with Some n => [n] | None => [] end, d')).
  assert (H : forall l acc, blocked_at id t0 (mkWorld acc.2 reps) -> blocked_at id t0 (mkWorld (fold_left f l acc).2 reps)).
  { induction l as [|row l IH]; intros acc Ha; simpl; [done|]. apply IH.
    pose proof (rotate_one_blocked net now (clamp 1 90 (setting_i64 margin 30)) id t0 reps acc.2 row Ha) as Hn.
    unfold f. by destruct (rotate_one _ _ _ _ _) as [p d']. }
  apply H. done.
Qed.

Lemma newest_in l r : newest l = Some r -> In r l.
Proof.
  unfold newest.
  assert (H : forall l b, fold_left newer_report l b = Some r -> b = Some r \/ In r l).
  { clear l. induction l as [|x l IH]; intros b Hf; simpl in *; [by left|].
    destruct (IH _ Hf) as [Hx|Hx]; [|tauto]. unfold newer_report in Hx.
    destruct b as [b|]; [destruct (_ <=? _)|]; naive_solver. }
  intros Hf. by destruct (H _ _ Hf).
Qed.

(** The report just inserted is the latest of its source. *)
Lemma newest_last l r : Forall (fun x => rr_created_at x <= rr_created_at r) l -> newest (l ++ [r]) = Some r.
Proof.
  intros Hl. unfold newest. rewrite fold_left_app. simpl. fold (newest l).
  destruct (newest l) as [b|] eqn:E; [|done]. simpl. apply newest_in in E. rewrite List.Forall_forall in Hl.
  specialize (Hl b E). apply Z.leb_le in Hl. by rewrite Hl.
Qed.

Lemma filter_snoc {A} (p : A -> bool) l x : p x = true -> List.filter p (l ++ [x]) = List.filter p l ++ [x].
Proof. intros Hp. rewrite List.filter_app. simpl. by rewrite Hp. Qed.

(** One source whose latest word is a block decides. *)
Lemma consensus_false now id l r :
  In r (recent_reports now id l) -> latest_from (rr_source r) (recent_reports now id l) = Some r ->
  rr_reachable r = false -> consensus now id l = Some false.
Proof.
  intros Hin Hl Hr. unfold consensus. set (recent := recent_reports now id l) in *.
  assert (Hf : forallb (fun x => is_some_and (latest_from (rr_source x) recent) rr_reachable) recent = false).
  { apply not_true_iff_false. rewrite forallb_forall. intros H. specialize (H r Hin). rewrite Hl in H. simpl in H.
    by rewrite Hr in H. }
  destruct recent as [|x xs]; [done|by rewrite Hf].
Qed.

Lemma recent_snoc now id l r :
  rr_inbound r = id -> now - half_hour < rr_created_at r ->
  recent_reports now id (l ++ [r]) = recent_reports now id l ++ [r].
Proof.
  intros Hid Ht. apply filter_snoc. apply andb_true_iff. rewrite Z.eqb_eq, Z.ltb_lt. done.
Qed.

Lemma latest_snoc now id l r :
  Forall (fun x => rr_created_at x <= rr_created_at r) l ->
  latest_from (rr_source r) (recent_reports now id l ++ [r]) = Some r.
Proof.
  intros Hl. unfold latest_from. rewrite filter_snoc by (apply String.eqb_refl). apply newest_last.
  rewrite List.Forall_forall in *. intros x Hx. apply List.filter_In in Hx as [Hx _].
  apply List.filter_In in Hx as [Hx _]. by apply Hl.
Qed.

Lemma consensus_blocked now id source lat err l :
  Forall (fun x => rr_created_at x <= now) l ->
  consensus now id (l ++ [mkReport id source false lat err now]) = Some false.
Proof.
  intros Hl. set (r := mkReport id source false lat err now).
  assert (Hr : recent_reports now id (l ++ [r]) = recent_reports now id l ++ [r])
    by (apply recent_snoc; [done|simpl; unfold half_hour; lia]).
  apply (consensus_false now id _ r); rewrite ?Hr; [apply in_app_iff; right; by left|by apply latest_snoc|done].
Qed.

(** A block is still the latest word of its source after a report of another. *)
Lemma consensus_stale now id r x l :
  Forall (fun y => rr_created_at y <= rr_created_at r) l -> rr_inbound r = id -> rr_inbound x = id ->
  rr_reachable r = false -> now - half_hour < rr_created_at r -> now - half_hour < rr_created_at x ->
  rr_source x <> rr_source r -> consensus now id ((l ++ [r]) ++ [x]) = Some false.
Proof.
  intros Hl Hid Hix Hb Ht Htx Hs.
  assert (Hr : recent_reports now id ((l ++ [r]) ++ [x]) = (recent_reports now id l ++ [r]) ++ [x])
    by (rewrite !recent_snoc; done).
  apply (consensus_false now id _ r); rewrite ?Hr; [rewrite !in_app_iff; left; right; by left| |done].
  rewrite <- (latest_snoc now id l r Hl). unfold latest_from. rewrite (List.filter_app _ _ [x]). simpl.
  apply String.eqb_neq in Hs. by rewrite Hs, app_nil_r.
Qed.

Record Tick := mkTick {
  t_net : Net;
  t_probe_id : list Z;
  t_leader : bool;
  t_clock : Uuid -> Z;
  t_later : Z;
  t_enabled : result (option string) db_error;
  t_margin : result (option string) db_error }.

Definition run_tick (w : World) (t : Tick) : World :=
  monitor_tick (t_net t) (t_probe_id t) (t_leader t) (t_clock t) (t_later t) (t_enabled t) (t_margin t) w.

Lemma run_tick_blocked id t0 w t :
  blocked_at id t0 w -> t_clock t id < t0 + half_hour -> blocked_at id t0 (run_tick w t).
Proof.
  intros Hb Ht. unfold run_tick, monitor_tick. destruct (t_leader t); [|done]. cbn [negb].
  apply cdn_rotate_blocked. generalize (inbounds_for_reach (db w)). intros l. revert w Hb.
  induction l as [|x l IH]; intros w Hb; simpl; [done|]. apply IH, sweep_blocked; [done|]. by intros <-.
Qed.

Lemma blocked_endpoint collate uid d id i ep :
  rows_keyed d -> inbounds d !! id = Some i -> Inbound.reachable i = Some false ->
  In ep (subscription_endpoints collate uid d) -> SubscriptionEndpoint.inbound_id ep = id ->
  exists host, host <> "" /\ Inbound.fallback_host i = Some host /\ SubscriptionEndpoint.transport_host ep = Some host.
Proof.
  intros Hk Hi Hr Hin Hid. unfold subscription_endpoints in Hin.
  apply list_elem_of_In, list_elem_of_fmap in Hin as ([j n] & -> & Hin).
  apply list_elem_of_In, sort_by_in, List.filter_In in Hin as [Hj Hv].
  unfold joined in Hj. apply in_flat_map in Hj as (j' & Hrow & Hn).
  destruct (nodes d !! Inbound.node_id j') as [n'|]; [|done]. destruct Hn as [Heq|[]]. injection Heq as -> ->.
  apply in_rows in Hrow as [k Hrow]. simpl in Hid. rewrite (Hk k j Hrow) in Hid. subst k.
  rewrite Hi in Hrow. injection Hrow as <-.
  simpl in Hv. rewrite !andb_true_iff in Hv. destruct Hv as [[_ Hb] _].
  unfold is_blocked in Hb. rewrite Hr in Hb. simpl in Hb. pose proof Hb as Hf. unfold has_fallback in Hb.
  destruct (Inbound.fallback_host i) as [host|] eqn:Eh; [|done]. simpl in Hb. breflect.
  exists host. split; [done|]. split; [done|]. simpl. unfold served_host, is_blocked. rewrite Hr, Hf. simpl. by rewrite Eh.
Qed.

(** A block the fleet reports stands.  Once a vantage point reports an inbound
    without an alternate SNI blocked, no sequence of monitor ticks of the next
    thirty minutes, whatever the master's own probes and latency measurements say,
    turns it reachable again, and no subscription hands it out other than behind
    its fallback host. *)
Theorem fleet_block_stands (w : World) (id : Uuid) (i : Inbound.Inbound) (t0 : Z) (source : option string)
    (latency : option Z) (error : option string) (ticks : list Tick) :
  rows_keyed (db w) -> inbounds (db w) !! id = Some i -> next_sni i = None ->
  Forall (fun r => rr_created_at r <= t0) (reports w) ->
  Forall (fun t => t_clock t id < t0 + half_hour) ticks ->
  let w1 := (report_reachability t0 id source false latency error w).1.2 in
  let w2 := fold_left run_tick ticks w1 in
  exists row, inbounds (db w2) !! id = Some row /\ Inbound.reachable row = Some false /\
    forall collate uid ep,
      In ep (subscription_endpoints collate uid (db w2)) -> SubscriptionEndpoint.inbound_id ep = id ->
      exists host, host <> "" /\ Inbound.fallback_host row = Some host /\
                   SubscriptionEndpoint.transport_host ep = Some host.
Proof.
  intros Hk Hi Hsni Hold Hticks w1 w2.
  assert (Hb1 : blocked_at id t0 w1).
  { unfold w1, report_reachability, record_reachability_report. rewrite Hi. cbn [is_some negb].
    rewrite consensus_blocked by done. rewrite !bool_decide_eq_true_2 by done. cbn [db reports].
    assert (Hr : forall d, inbounds d !! id = Some (with_verdict t0 (Some false) (Some "blocked from a vantage checker") i) ->
                 rotate_inbound_sni t0 id d = (None, d)).
    { intros d Hd. unfold rotate_inbound_sni. rewrite Hd. change (next_sni (with_verdict _ _ _ i)) with (next_sni i).
      by rewrite Hsni. }
    assert (Hl : inbounds (on_inbound id (with_verdict t0 (Some false) (Some "blocked from a vantage checker")) (db w)) !! id
                 = Some (with_verdict t0 (Some false) (Some "blocked from a vantage checker") i)).
    { rewrite on_inbound_lookup, decide_True by done. by rewrite Hi. }
    unfold set_inbound_reachability. cbn [snd]. rewrite (Hr _ Hl). cbn [fst snd].
    split; [by apply on_inbound_keyed|]. split; [by eexists|].
    eexists. split; [apply in_app_iff; right; by left|done]. }
  assert (Hb2 : blocked_at id t0 w2).
  { unfold w2. clearbody w1. clear w2. revert w1 Hb1.
    induction Hticks as [|t ticks Ht _ IH]; intros w1 Hb1; simpl; [done|]. apply IH. by apply run_tick_blocked. }
  destruct Hb2 as (Hk2 & (row & Hrow & Hblk) & _). exists row. split; [done|]. split; [done|].
  intros collate uid ep Hin Hid. by eapply blocked_endpoint.
Qed.

(** *** Rotating the SNI *)

Lemma next_sni_first i a b rest :
  Inbound.sni_pool i = a :: b :: rest -> trim a <> "" -> trim b <> "" -> a <> b ->
  (Inbound.server_name i = Some a -> next_sni i = Some b) /\ (Inbound.server_name i = Some b -> next_sni i = Some a).
Proof.
  intros Hp Ha Hb Hab. unfold next_sni. rewrite Hp. simpl.
  assert (Hna : is_empty (trim a) = false) by (by apply String.eqb_neq).
  assert (Hnb : is_empty (trim b) = false) by (by apply String.eqb_neq).
  rewrite Hna, Hnb. split; intros ->; simpl.
  - rewrite bool_decide_eq_true_2 by done. rewrite bool_decide_eq_false_2 by congruence. done.
  - rewrite bool_decide_eq_false_2 by congruence. done.
Qed.

(** A report that leaves the consensus blocked rotates. *)
Lemma report_rotates now id source reachable lat err w i sni :
  inbounds (db w) !! id = Some i -> next_sni i = Some sni ->
  let l := reports w ++ [mkReport id (bounded_auth_text source 64 "vantage") reachable lat err now] in
  consensus now id l = Some false ->
  exists w' i', report_reachability now id (Some source) reachable lat err w
      = (Ok tt, w', mkEffects [Inbound.node_id i] ["rotate_sni"; "report_reachability"]) /\
    reports w' = l /\ inbounds (db w') !! id = Some i' /\ Inbound.server_name i' = Some sni /\
    Inbound.sni_pool i' = Inbound.sni_pool i /\ Inbound.node_id i' = Inbound.node_id i.
Proof.
  intros Hi Hsni l Hc. unfold report_reachability, record_reachability_report. rewrite Hi.
  cbn [is_some negb]. change (default "vantage" _) with (bounded_auth_text source 64 "vantage"). fold l. rewrite Hc.
  rewrite !bool_decide_eq_true_2 by done. cbn [db reports].
  set (v := with_verdict now (Some false) (Some "blocked from a vantage checker")).
  set (d := (set_inbound_reachability _ _ _ _ _).2).
  assert (Hd : inbounds d !! id = Some (v i)).
  { unfold d, set_inbound_reachability. cbn [snd]. rewrite on_inbound_lookup, decide_True by done. by rewrite Hi. }
  assert (Hr : rotate_inbound_sni now id d = (Some (Inbound.node_id i, sni), on_inbound id (with_sni now sni) d)).
  { unfold rotate_inbound_sni. rewrite Hd. change (next_sni (v i)) with (next_sni i). by rewrite Hsni. }
  rewrite Hr. eexists _, (with_sni now sni (v i)). split; [done|]. split; [done|]. split; [|done].
  cbn [db]. rewrite on_inbound_lookup, decide_True by done. by rewrite Hd.
Qed.

(** A stale block undoes the rotation.  A block reported by one vantage point
    moves the inbound to the other SNI of its pool; a report from another vantage
    point, within half an hour, that the inbound is reachable there moves it back
    to the blocked one, because the rotation looks at the consensus, in which the
    old block still counts, and not at the change of it. *)
Theorem stale_block_rotates_back (w : World) (id : Uuid) (i : Inbound.Inbound) (a b : string) (rest : list string)
    (s1 s2 : string) (t0 t1 : Z) :
  inbounds (db w) !! id = Some i -> Inbound.server_name i = Some a -> Inbound.sni_pool i = a :: b :: rest ->
  trim a <> "" -> trim b <> "" -> a <> b ->
  bounded_auth_text s1 64 "vantage" <> bounded_auth_text s2 64 "vantage" ->
  Forall (fun r => rr_created_at r <= t0) (reports w) -> t0 <= t1 < t0 + half_hour ->
  let '(_, w1, e1) := report_reachability t0 id (Some s1) false None None w in
  let '(_, w2, e2) := report_reachability t1 id (Some s2) true None None w1 in
  (Inbound.server_name <$> inbounds (db w1) !! id) = Some (Some b) /\
  (Inbound.server_name <$> inbounds (db w2) !! id) = Some (Some a) /\
  pushed e1 = [Inbound.node_id i] /\ pushed e2 = [Inbound.node_id i].
Proof.
  intros Hi Hn Hp Ha Hb Hab Hs Hold Ht.
  destruct (next_sni_first i a b rest Hp Ha Hb Hab) as [H1 _].
  destruct (report_rotates t0 id s1 false None None w i b Hi (H1 Hn)) as (w1 & i1 & -> & Hl & Hi1 & Hn1 & Hp1 & Hd1).
  { by apply consensus_blocked. }
  rewrite Hp in Hp1. destruct (next_sni_first i1 a b rest Hp1 Ha Hb Hab) as [_ H2].
  destruct (report_rotates t1 id s2 true None None w1 i1 a Hi1 (H2 Hn1)) as (w2 & i2 & -> & _ & Hi2 & Hn2 & _ & _).
  { rewrite Hl. apply consensus_stale; simpl; try done; unfold half_hour in *; lia. }
  rewrite Hi1, Hi2, <- Hd1. simpl. by rewrite Hn1, Hn2.
Qed.

(** SNI rotation never gets past the second value of the pool.  However often
    an inbound on the first value of its pool is rotated, it alternates between
    the first two. *)
Theorem sni_rotation_alternates (d : Db) (id : Uuid) (i : Inbound.Inbound) (a b : string) (rest : list string)
    (times : list Z) :
  inbounds d !! id = Some i -> Inbound.server_name i = Some a -> Inbound.sni_pool i = a :: b :: rest ->
  trim a <> "" -> trim b <> "" -> a <> b ->
  let d' := fold_left (fun d now => (rotate_inbound_sni now id d).2) times d in
  (Inbound.server_name <$> inbounds d' !! id)
  = Some (Some (if Nat.even (length times) then a else b)).
Proof.
  intros Hi Hn Hp Ha Hb Hab.
  assert (H : forall ts d i x y, inbounds d !! id = Some i -> Inbound.server_name i = Some x ->
    Inbound.sni_pool i = a :: b :: rest -> (x = a /\ y = b) \/ (x = b /\ y = a) ->
    (Inbound.server_name <$> inbounds (fold_left (fun d now => (rotate_inbound_sni now id d).2) ts d) !! id)
    = Some (Some (if Nat.even (length ts) then x else y))).
  { clear d i times Hi Hn Hp. induction ts as [|now ts IH]; intros d i x y Hi Hn Hp Hxy; cbn [fold_left length].
    - rewrite Hi. simpl. by rewrite Hn.
    - destruct (next_sni_first i a b rest Hp Ha Hb Hab) as [H1 H2].
      assert (Hs : next_sni i = Some y) by (destruct Hxy as [[-> ->]|[-> ->]]; auto).
      assert (Hr : inbounds (rotate_inbound_sni now id d).2 !! id = Some (with_sni now y i)).
      { unfold rotate_inbound_sni. rewrite Hi, Hs. cbn [snd]. rewrite on_inbound_lookup, decide_True by done. by rewrite Hi. }
      rewrite (IH _ _ y x Hr); [|done|done|tauto].
      rewrite Nat.even_succ, <- Nat.negb_even. by destruct (Nat.even (length ts)). }
  apply (H times d i a b); [done..|by left].
Qed.

(** *** The rollout gate *)

(** A blocking gate waits for ports only a rollout opens.  In block mode a
    push goes through exactly when every port of the node that can be probed
    already answers, the ports of inbounds that have never been rolled out
    included; in the other modes probes never stop a push. *)
Theorem rollout_gate_exact (net : Net) (probe_id : list Z) (decrypt : string -> option string)
    (row : result (option string) db_error) (id : Uuid) (n : Node.Node) (d : Db) (rows_ : list Inbound.Inbound) :
  nodes d !! id = Some n -> enabled_node_inbounds decrypt (Node.id n) d = Ok rows_ ->
  is_ok (rollout_gate net probe_id decrypt row id d) = true <->
  (preflight_gate row = "block" ->
     (Node.transport n <> "dial" -> forall port, u16_of (Node.grpc_port n) = Some port ->
        tcp_open net (Node.address n) port = true) /\
     forall i port, In i rows_ -> u16_of (Inbound.listen_port i) = Some port ->
        probe net probe_id (Node.address n) port (Inbound.kind i) = true).
Proof.
  intros Hn Hrows. unfold rollout_gate, preflight. rewrite Hn, Hrows. cbn [lift_db lift].
  set (targets := control_target net n :: (data_target net probe_id n <$> rows_)).
  assert (Hopen : failures targets = [] <->
    (Node.transport n <> "dial" -> forall port, u16_of (Node.grpc_port n) = Some port ->
        tcp_open net (Node.address n) port = true) /\
    forall i port, In i rows_ -> u16_of (Inbound.listen_port i) = Some port ->
        probe net probe_id (Node.address n) port (Inbound.kind i) = true).
  { unfold failures. rewrite list_filter_nil. unfold targets. split.
    - intros H. split.
      + intros Hd port Hp. specialize (H _ (or_introl eq_refl)). unfold control_target in H.
        apply String.eqb_neq in Hd. rewrite Hd, Hp in H. simpl in H. by destruct (tcp_open net (Node.address n) port).
      + intros i port Hi Hp. specialize (H _ (or_intror (in_map (data_target net probe_id n) _ _ Hi))).
        unfold data_target in H. rewrite Hp in H. simpl in H.
        by destruct (probe net probe_id (Node.address n) port (Inbound.kind i)).
    - intros [Hc Hd] t [<-|Ht].
      + unfold control_target. destruct (String.eqb_spec (Node.transport n) "dial") as [|Hne]; [done|].
        destruct (u16_of (Node.grpc_port n)) as [port|] eqn:Ep; [|done]. simpl. by rewrite (Hc Hne port eq_refl).
      + apply in_map_iff in Ht as (i & <- & Hi). unfold data_target.
        destruct (u16_of (Inbound.listen_port i)) as [port|] eqn:Ep; [|done]. simpl. by rewrite (Hd i port Hi Ep). }
  rewrite <- Hopen. destruct (String.eqb_spec (preflight_gate row) "off") as [Hoff|Hoff]; [rewrite Hoff; simpl; naive_solver|].
  destruct (String.eqb_spec (preflight_gate row) "block") as [Hb|Hb]; [|rewrite andb_false_r; simpl; naive_solver].
  destruct (failures targets); simpl; naive_solver.
Qed.

(** ** Witnesses *)

Definition pool_inbound (pool : list string) : Inbound.Inbound :=
  Inbound.mk 9 1 "in" [] "vless" "singbox" "::" 443 "" true (Some "a") None None
    false None None [] None None "tcp" None None None None false None None None
    empty_object true None None None (Some "cdn") pool [] 0 0 "60s" None None None 0 0.
Definition pool_world (pool : list string) : World :=
  mkWorld (with_inbounds (fun _ => {[9 := pool_inbound pool]}) grouped_db) [].
(** A network where every connect succeeds. *)
Definition open_net : Net := mkNet unit (fun _ _ => Some [tt]) (fun _ _ => Some [128; 0; 0; 0; 0]) (fun _ _ => Some 1).
Definition shut_net : Net := mkNet unit (fun _ _ => None) (fun _ _ => None) (fun _ _ => None).

Lemma pool_world_keyed pool : rows_keyed (db (pool_world pool)).
Proof. intros k i. simpl. intros [<- <-]%lookup_singleton_Some. done. Qed.

Lemma fleet_block_stands_witness :
  let t := mkTick open_net [] true (fun _ => 200) 200 (Ok (Some "1")) (Ok None) in
  let w2 := run_tick (report_reachability 100 9 (Some "msk") false None None (pool_world ["a"])).1.2 t in
  exists row, inbounds (db w2) !! 9 = Some row /\ Inbound.reachable row = Some false.
Proof.
  destruct (fleet_block_stands (pool_world ["a"]) 9 (pool_inbound ["a"]) 100 (Some "msk") None None
    [mkTick open_net [] true (fun _ => 200) 200 (Ok (Some "1")) (Ok None)]) as (row & H1 & H2 & _).
  - apply pool_world_keyed.
  - reflexivity.
  - vm_compute. reflexivity.
  - constructor.
  - constructor; [vm_compute; reflexivity|constructor].
  - exists row. split; [exact H1|exact H2].
Defined.

Lemma stale_block_rotates_back_witness :
  let w1 := (report_reachability 100 9 (Some "msk") false None None (pool_world ["a"; "b"])).1.2 in
  let w2 := (report_reachability 200 9 (Some "spb") true None None w1).1.2 in
  (Inbound.server_name <$> inbounds (db w1) !! 9) = Some (Some "b") /\
  (Inbound.server_name <$> inbounds (db w2) !! 9) = Some (Some "a").
Proof.
  pose proof (stale_block_rotates_back (pool_world ["a"; "b"]) 9 (pool_inbound ["a"; "b"]) "a" "b" [] "msk" "spb" 100 200
    eq_refl eq_refl eq_refl ltac:(vm_compute; discriminate) ltac:(vm_compute; discriminate) ltac:(discriminate)
    ltac:(vm_compute; discriminate) ltac:(constructor) ltac:(unfold half_hour; lia)) as H.
  destruct (report_reachability 100 9 (Some "msk") false None None (pool_world ["a"; "b"])) as [[r1 w1] e1]. simpl.
  destruct (report_reachability 200 9 (Some "spb") true None None w1) as [[r2 w2] e2]. simpl.
  destruct H as (H1 & H2 & _). split; [exact H1|exact H2].
Defined.

Lemma sni_rotation_alternates_witness :
  let d' := fold_left (fun d now => (rotate_inbound_sni now 9 d).2) [1; 2; 3; 4] (db (pool_world ["a"; "b"; "c"])) in
  (Inbound.server_name <$> inbounds d' !! 9) = Some (Some "a").
Proof.
  apply (sni_rotation_alternates (db (pool_world ["a"; "b"; "c"])) 9 (pool_inbound ["a"; "b"; "c"]) "a" "b" ["c"] [1; 2; 3; 4]
    eq_refl eq_refl eq_refl); [vm_compute; discriminate|vm_compute; discriminate|discriminate].
Defined.

Definition fresh_node : Node.Node :=
  Node.mk 1 "a" "10.0.0.1" "honey-agent" 8443 "serve" [] [] true false
    None None None None None None None None None None 0 0 0.

Lemma rollout_gate_exact_witness :
  is_ok (rollout_gate shut_net [] Some (Ok (Some "block")) 1 (db (pool_world []))) = false /\
  is_ok (rollout_gate open_net [] Some (Ok (Some "block")) 1 (db (pool_world []))) = true.
Proof.
  split; [vm_compute; reflexivity|].
  apply (rollout_gate_exact open_net [] Some (Ok (Some "block")) 1 fresh_node (db (pool_world [])) [pool_inbound []]
           eq_refl eq_refl).
  intros _. split; [reflexivity|]. intros i port [<-|[]] _. reflexivity.
Defined.
