(* ===== verification/Enroll.v ===== *)
(** * Node enrollment and the certificate inventory (the enrollment handlers of
    src/master/src/api/mod.rs, the token and certificate queries of
    src/master/src/db/repo.rs)

    Token digests, the certificate authority and the database's upper-casing
    are parameters; the audit rows the handlers write are recorded as notes (their
    chaining is in AuditLog.v). *)

From S2P Require Import Prelude Strings Json Models Db.

Record EnrollmentToken := mkToken {
  et_id : Uuid;
  et_node_id : Uuid;
  et_hash : string;
  et_created_by : option Uuid;
  et_expires_at : Z;
  et_claimed_at : option Z;
  et_revoked_at : option Z }.

Record NodeCertificate := mkCert {
  nc_id : Uuid;
  nc_node_id : Uuid;
  nc_serial : string;
  nc_fingerprint : string;
  nc_subject : string;
  nc_not_before : Z;
  nc_not_after : Z;
  nc_issued_at : Z;
  nc_revoked_at : option Z }.

(** What the authority returns for a request it signs. *)
Record Issued := mkIssued {
  serial_number : string;
  fingerprint_sha256 : string;
  subject : string;
  not_before : Z;
  not_after : Z }.

(** What a handler reports to the audit log: actor, action, object, its id. *)
Record AuditNote := mkNote {
  note_actor : option string;
  note_action : string;
  note_object : string;
  note_object_id : Uuid }.

Record EnrollDb := mkEnrollDb {
  enroll_nodes : gmap Uuid Node.Node;
  tokens : list EnrollmentToken;
  certificates : list NodeCertificate;
  audits : list AuditNote }.

Definition audit (n : AuditNote) (db : EnrollDb) : EnrollDb :=
  mkEnrollDb (enroll_nodes db) (tokens db) (certificates db) (audits db ++ [n]).

Inductive enroll_error :=
| EnrollBadRequest
| EnrollNotFound
| IssueFailed
| EnrollDbError (e : db_error).

Definition minutes (n : Z) : Z := n * 60 * 1000000.

(** The INSERT with the unique token hash. *)
Definition create_enrollment_token (id node_id : Uuid) (hash : string) (created_by : option Uuid)
    (expires_at : Z) (db : EnrollDb) : result EnrollDb db_error :=
  if existsb (fun t => String.eqb (et_hash t) hash) (tokens db) then Err UniqueViolation
  else Ok (mkEnrollDb (enroll_nodes db)
             (tokens db ++ [mkToken id node_id hash created_by expires_at None None]) (certificates db) (audits db)).

Definition claimable (now : Z) (hash : string) (t : EnrollmentToken) : bool :=
  String.eqb (et_hash t) hash && negb (is_some (et_claimed_at t)) && negb (is_some (et_revoked_at t))
  && (now <? et_expires_at t).

Definition claim (now : Z) (t : EnrollmentToken) : EnrollmentToken :=
  mkToken (et_id t) (et_node_id t) (et_hash t) (et_created_by t) (et_expires_at t) (Some now) (et_revoked_at t).

(** One UPDATE ... RETURNING node_id. *)
Definition claim_enrollment_token (now : Z) (hash : string) (db : EnrollDb) : option Uuid * EnrollDb :=
  (et_node_id <$> List.find (claimable now hash) (tokens db),
   mkEnrollDb (enroll_nodes db)
     ((fun t => if claimable now hash t then claim now t else t) <$> tokens db) (certificates db) (audits db)).

Definition revocable (id : Uuid) (t : EnrollmentToken) : bool :=
  (et_id t =? id) && negb (is_some (et_claimed_at t)) && negb (is_some (et_revoked_at t)).

Definition revoke_enrollment_token (now : Z) (id : Uuid) (db : EnrollDb) : bool * EnrollDb :=
  (existsb (revocable id) (tokens db),
   mkEnrollDb (enroll_nodes db)
     ((fun t => if revocable id t
                then mkToken (et_id t) (et_node_id t) (et_hash t) (et_created_by t) (et_expires_at t)
                       (et_claimed_at t) (Some now)
                else t) <$> tokens db) (certificates db) (audits db)).

Definition add_node_certificate (now : Z) (id node_id : Uuid) (i : Issued) (db : EnrollDb)
    : result EnrollDb db_error :=
  if existsb (fun c => String.eqb (nc_serial c) (serial_number i)
                       || String.eqb (nc_fingerprint c) (fingerprint_sha256 i)) (certificates db)
  then Err UniqueViolation
  else if negb (not_before i <? not_after i) then Err CheckViolation
  else Ok (mkEnrollDb (enroll_nodes db) (tokens db)
             (certificates db ++ [mkCert id node_id (serial_number i) (fingerprint_sha256 i) (subject i)
                                    (not_before i) (not_after i) now None]) (audits db)).

Definition with_tls_name (name : string) (now : Z) (n : Node.Node) : Node.Node :=
  Node.mk (Node.id n) (Node.name n) (Node.address n) name (Node.grpc_port n)
    (Node.transport n) (Node.extra_addresses n) (Node.labels n) (Node.enabled n)
    (Node.maintenance n) (Node.last_seen n) (Node.agent_version n) (Node.singbox_version n)
    (Node.desired_spec_hash n) (Node.applied_spec_hash n) (Node.applied_spec_summary n)
    (Node.applied_at n) (Node.last_push_at n) (Node.last_push_status n) (Node.last_push_message n)
    (Node.monthly_cost_cents n) (Node.created_at n) now.

Definition set_node_tls_name (now : Z) (id : Uuid) (name : string) (db : EnrollDb) : EnrollDb :=
  mkEnrollDb (alter (with_tls_name name now) id (enroll_nodes db)) (tokens db) (certificates db) (audits db).

Definition revoked (now : Z) (c : NodeCertificate) : NodeCertificate :=
  mkCert (nc_id c) (nc_node_id c) (nc_serial c) (nc_fingerprint c) (nc_subject c) (nc_not_before c)
    (nc_not_after c) (nc_issued_at c) (Some now).

Definition revoke_node_certificate (now : Z) (id : Uuid) (certs : list NodeCertificate)
    : option Uuid * list NodeCertificate :=
  let hit c := (nc_id c =? id) && negb (is_some (nc_revoked_at c)) in
  (nc_node_id <$> List.find hit certs, (fun c => if hit c then revoked now c else c) <$> certs).

Section Enrollment.
Context (token_hash : string -> string).
Context (uuid_str : Uuid -> string).
Context (db_upper : string -> string).
Context (issue : Uuid -> string -> option Issued).

Definition active_cert (now : Z) (fingerprint : string) (c : NodeCertificate) : bool :=
  String.eqb (db_upper (nc_fingerprint c)) (db_upper fingerprint) && negb (is_some (nc_revoked_at c))
  && (nc_not_before c <=? now) && (now <? nc_not_after c).

(** (the node has an inventory, the certificate is active in it). *)
Definition authorize_node_certificate (now : Z) (node_id : Uuid) (fingerprint : string)
    (certs : list NodeCertificate) : bool * bool :=
  let own := List.filter (fun c => nc_node_id c =? node_id) certs in
  (match own with [] => false | _ => true end, existsb (active_cert now fingerprint) own).

(** [Registry::authorize_certificate]. *)
Definition authorize_certificate (now : Z) (node_id : Uuid) (fingerprint : string)
    (certs : list NodeCertificate) : bool :=
  let '(has_inventory, active) := authorize_node_certificate now node_id fingerprint certs in
  negb (has_inventory && negb active).

Definition create_enrollment (now : Z) (id node_id : Uuid) (token : string) (admin : option Uuid)
    (actor : option string) (expires_in_minutes : Z) (db : EnrollDb) : result EnrollDb enroll_error :=
  if negb ((5 <=? expires_in_minutes) && (expires_in_minutes <=? 1440)) then Err EnrollBadRequest
  else match enroll_nodes db !! node_id with
       | None => Err EnrollNotFound
       | Some _ =>
           match create_enrollment_token id node_id (token_hash token) admin
                   (now + minutes expires_in_minutes) db with
           | Ok db' => Ok (audit (mkNote actor "create" "enrollment" id) db')
           | Err e => Err (EnrollDbError e)
           end
       end.

(** The claim handler: the certificate it hands out, and the state after it,
    which a failure past the claim does not undo. *)
Definition claim_enrollment (now : Z) (cert_id : Uuid) (token csr : string) (db : EnrollDb)
    : result (Uuid * Issued) enroll_error * EnrollDb :=
  if (len token <? 32) || (128 <? len token) then (Err EnrollNotFound, db) else
  match claim_enrollment_token now (token_hash token) db with
  | (None, db) => (Err EnrollNotFound, db)
  | (Some node_id, db) =>
      match enroll_nodes db !! node_id with
      | None => (Err EnrollNotFound, db)
      | Some _ =>
          match issue node_id csr with
          | None => (Err IssueFailed, db)
          | Some issued =>
              match add_node_certificate now cert_id node_id issued db with
              | Err e => (Err (EnrollDbError e), db)
              | Ok db =>
                  (Ok (node_id, issued),
                   audit (mkNote (Some "node-enrollment") "claim" "node_certificate" node_id)
                     (set_node_tls_name now node_id ("node-" +:+ uuid_str node_id +:+ ".honey") db))
              end
          end
      end
  end.

Definition revoke_enrollment (now : Z) (id : Uuid) (actor : option string) (db : EnrollDb)
    : result EnrollDb enroll_error :=
  let '(hit, db) := revoke_enrollment_token now id db in
  if hit then Ok (audit (mkNote actor "revoke" "enrollment" id) db) else Err EnrollNotFound.

(** Revoking also drops the node's live channel. *)
Definition revoke_certificate (now : Z) (id : Uuid) (actor : option string) (conns : gset Uuid)
    (db : EnrollDb) : result (gset Uuid * EnrollDb) enroll_error :=
  let '(hit, certs) := revoke_node_certificate now id (certificates db) in
  match hit with
  | None => Err EnrollNotFound
  | Some node_id =>
      Ok (conns ∖ {[node_id]},
          audit (mkNote actor "revoke" "node_certificate" id)
            (mkEnrollDb (enroll_nodes db) (tokens db) certs (audits db)))
  end.

(** The requests that touch the enrollment tables. *)
Inductive enroll_op :=
| CreateOp (now : Z) (id node_id : Uuid) (token : string) (admin : option Uuid)
    (actor : option string) (minutes_ : Z)
| ClaimOp (now : Z) (cert_id : Uuid) (token csr : string)
| RevokeOp (now : Z) (id : Uuid) (actor : option string)
| RevokeCertOp (now : Z) (id : Uuid) (actor : option string).

Definition enroll_step (db : EnrollDb) (o : enroll_op) : EnrollDb :=
  match o with
  | CreateOp now id node_id token admin actor m =>
      match create_enrollment now id node_id token admin actor m db with Ok db' => db' | Err _ => db end
  | ClaimOp now cert_id token csr => (claim_enrollment now cert_id token csr db).2
  | RevokeOp now id actor =>
      match revoke_enrollment now id actor db with Ok db' => db' | Err _ => db end
  | RevokeCertOp now id actor =>
      match revoke_certificate now id actor ∅ db with Ok (_, db') => db' | Err _ => db end
  end.

Definition enroll_run (db : EnrollDb) (ops : list enroll_op) : EnrollDb := fold_left enroll_step ops db.

(** ** Properties *)

(** No row of this token can be claimed any more. *)
Definition spent (hash : string) (db : EnrollDb) : Prop :=
  (exists t, In t (tokens db) /\ et_hash t = hash) /\
  forall t, In t (tokens db) -> et_hash t = hash -> is_some (et_claimed_at t) || is_some (et_revoked_at t) = true.

Lemma spent_map hash f db nodes_ certs notes :
  (forall t, et_hash (f t) = et_hash t) ->
  (forall t, is_some (et_claimed_at t) || is_some (et_revoked_at t) = true ->
     is_some (et_claimed_at (f t)) || is_some (et_revoked_at (f t)) = true) ->
  spent hash db -> spent hash (mkEnrollDb nodes_ (f <$> tokens db) certs notes).
Proof.
  intros Hh Hf [(t & Ht & Hth) Hs]. split.
  - exists (f t). split; [by apply list_elem_of_In, list_elem_of_fmap_2, list_elem_of_In|by rewrite Hh].
  - simpl. intros u Hu Hhu. apply list_elem_of_In, list_elem_of_fmap in Hu as (v & -> & Hv).
    apply list_elem_of_In in Hv. apply Hf, Hs; [done|]. by rewrite <- (Hh v).
Qed.

Lemma claim_token_tokens now hash h db :
  spent hash db -> spent hash (claim_enrollment_token now h db).2.
Proof.
  unfold claim_enrollment_token. simpl. apply spent_map.
  - intros t. by destruct (claimable now h t).
  - intros t Ht. by destruct (claimable now h t).
Qed.

Lemma claim_enrollment_tokens now cert_id token csr db :
  tokens (claim_enrollment now cert_id token csr db).2 = tokens db \/
  tokens (claim_enrollment now cert_id token csr db).2
  = tokens (claim_enrollment_token now (token_hash token) db).2.
Proof.
  unfold claim_enrollment. destruct ((len token <? 32) || (128 <? len token)); [by left|]. right.
  destruct (claim_enrollment_token now (token_hash token) db) as [[n|] db1]; [|done].
  destruct (enroll_nodes db1 !! n); [|done]. destruct (issue n csr) as [i|]; [|done].
  unfold add_node_certificate. destruct (existsb _ _); [done|]. by destruct (negb _).
Qed.

Lemma spent_tokens hash db db' : tokens db' = tokens db -> spent hash db -> spent hash db'.
Proof. unfold spent. by intros ->. Qed.

Lemma spent_step hash db o : spent hash db -> spent hash (enroll_step db o).
Proof.
  intros Hs. destruct o as [now id node_id token admin actor m|now cert_id token csr|now id actor|now id actor];
    simpl.
  - unfold create_enrollment. destruct (negb _); [done|]. destruct (enroll_nodes db !! node_id); [|done].
    unfold create_enrollment_token. destruct (existsb _ (tokens db)) eqn:Ex; [done|].
    destruct Hs as [(t & Ht & Hth) Hs]. split.
    + exists t. split; [apply in_or_app; by left|done].
    + simpl. intros u Hu Hhu. apply in_app_or in Hu as [Hu|[<-|[]]]; [auto|]. simpl in Hhu.
      exfalso. apply not_true_iff_false in Ex. apply Ex, existsb_exists. exists t.
      split; [done|]. apply String.eqb_eq. congruence.
  - destruct (claim_enrollment_tokens now cert_id token csr db) as [H|H].
    + by eapply spent_tokens.
    + eapply spent_tokens; [exact H|]. by apply claim_token_tokens.
  - unfold revoke_enrollment, revoke_enrollment_token. destruct (existsb _ _); [|done].
    apply spent_map; [| |done]; intros t; [by destruct (revocable id t)|].
    intros Ht. destruct (revocable id t); simpl; [by rewrite orb_true_r|done].
  - unfold revoke_certificate. destruct (revoke_node_certificate now id (certificates db)) as [[n|] cs]; [|done].
    by eapply spent_tokens.
Qed.

Lemma spent_run hash ops : forall db, spent hash db -> spent hash (enroll_run db ops).
Proof.
  induction ops as [|o ops IH]; intros db Hs; [done|]. simpl. by apply IH, spent_step.
Qed.

Lemma spent_refuses now hash db : spent hash db -> (claim_enrollment_token now hash db).1 = None.
Proof.
  intros [_ Hs]. unfold claim_enrollment_token. simpl.
  destruct (List.find (claimable now hash) (tokens db)) as [t|] eqn:Ef; [|done].
  apply find_some in Ef as [Hin Hc]. unfold claimable in Hc. breflect.
  destruct Hc as [[[Hh H1] H2] _]. specialize (Hs t Hin Hh). by rewrite H1, H2 in Hs.
Qed.

Lemma claimed_spent now hash db n :
  (claim_enrollment_token now hash db).1 = Some n ->
  (forall t t', In t (tokens db) -> In t' (tokens db) -> et_hash t = et_hash t' -> t = t') ->
  spent hash (claim_enrollment_token now hash db).2.
Proof.
  unfold claim_enrollment_token. simpl. intros H Hu.
  destruct (List.find (claimable now hash) (tokens db)) as [t|] eqn:Ef; [|done].
  apply find_some in Ef as [Hin Hc]. pose proof Hc as Hh. unfold claimable in Hh. breflect.
  destruct Hh as [[[Hh _] _] _]. split.
  - exists (claim now t). split; [|done]. apply list_elem_of_In, list_elem_of_fmap.
    exists t. rewrite Hc. split; [done|by apply list_elem_of_In].
  - intros u Hin' Hhu. apply list_elem_of_In, list_elem_of_fmap in Hin' as (v & -> & Hv).
    apply list_elem_of_In in Hv.
    assert (v = t) as ->.
    { apply Hu; [done..|]. destruct (claimable now hash v); simpl in Hhu; congruence. }
    by rewrite Hc.
Qed.

(** The node is enrolled and every row of this fingerprint is revoked. *)
Definition burned (node_id : Uuid) (fingerprint : string) (certs : list NodeCertificate) : Prop :=
  (exists c, In c certs /\ nc_node_id c = node_id) /\
  forall c, In c certs -> nc_node_id c = node_id ->
    db_upper (nc_fingerprint c) = db_upper fingerprint -> is_some (nc_revoked_at c) = true.

Lemma authorize_refused now node_id fingerprint certs :
  authorize_certificate now node_id fingerprint certs = false <->
  (exists c, In c certs /\ nc_node_id c = node_id) /\
  forall c, In c certs -> nc_node_id c = node_id -> active_cert now fingerprint c = false.
Proof.
  unfold authorize_certificate, authorize_node_certificate.
  set (own := List.filter (fun c => nc_node_id c =? node_id) certs).
  assert (Hown : forall c, In c own <-> In c certs /\ nc_node_id c = node_id).
  { intros c. unfold own. by rewrite List.filter_In, Z.eqb_eq. }
  rewrite negb_false_iff, andb_true_iff, negb_true_iff. split.
  - intros [Hne Hx]. split.
    + destruct own as [|c l]; [done|]. exists c. apply Hown. by left.
    + intros c Hc Hn. apply not_true_iff_false. intros Ha. apply not_true_iff_false in Hx.
      apply Hx, existsb_exists. exists c. split; [by apply Hown|done].
  - intros [(c & Hc & Hn) Hall]. split.
    + assert (Hin : In c own) by (by apply Hown). by destruct own.
    + apply not_true_iff_false. intros (x & Hx & Ha)%existsb_exists. apply Hown in Hx as [Hx Hxn].
      by rewrite (Hall x Hx Hxn) in Ha.
Qed.

Lemma burned_refused now node_id fingerprint certs :
  burned node_id fingerprint certs -> authorize_certificate now node_id fingerprint certs = false.
Proof.
  intros [He Hb]. apply authorize_refused. split; [done|]. intros c Hc Hn. apply not_true_iff_false.
  intros Ha. unfold active_cert in Ha. breflect. destruct Ha as [[[Hf Hr] _] _].
  by rewrite (Hb c Hc Hn Hf) in Hr.
Qed.

Lemma burned_revoke now id node_id fingerprint certs :
  burned node_id fingerprint certs -> burned node_id fingerprint (revoke_node_certificate now id certs).2.
Proof.
  intros [(c & Hc & Hn) Hb]. unfold revoke_node_certificate. simpl. split.
  - eexists. split; [by apply list_elem_of_In, list_elem_of_fmap_2, list_elem_of_In|].
    by destruct (_ && _).
  - intros x Hx. apply list_elem_of_In, list_elem_of_fmap in Hx as (y & -> & Hy).
    apply list_elem_of_In in Hy. destruct (_ && _); simpl; [done|]. by apply Hb.
Qed.

Lemma burned_step node_id fingerprint db o :
  (forall n csr i, issue n csr = Some i -> db_upper (fingerprint_sha256 i) <> db_upper fingerprint) ->
  burned node_id fingerprint (certificates db) ->
  burned node_id fingerprint (certificates (enroll_step db o)).
Proof.
  intros Hfresh Hb.
  destruct o as [now id n token admin actor m|now cert_id token csr|now id actor|now id actor]; simpl.
  - unfold create_enrollment. destruct (negb _); [done|]. destruct (enroll_nodes db !! n); [|done].
    unfold create_enrollment_token. by destruct (existsb _ _).
  - unfold claim_enrollment. destruct (_ || _); [done|]. unfold claim_enrollment_token.
    destruct (et_node_id <$> _) as [n|]; [|done]. simpl. destruct (enroll_nodes db !! n); [|done].
    destruct (issue n csr) as [i|] eqn:Ei; [|done]. unfold add_node_certificate.
    destruct (existsb _ _); [done|]. destruct (negb _); [done|]. simpl. destruct Hb as [(c & Hc & Hn) Hb].
    split; [exists c; split; [apply in_or_app; by left|done]|].
    intros x Hx Hxn Hf. apply in_app_or in Hx as [Hx|[<-|[]]]; [auto|]. simpl in Hf.
    by destruct (Hfresh _ _ _ Ei).
  - unfold revoke_enrollment, revoke_enrollment_token. by destruct (existsb _ _).
  - unfold revoke_certificate. pose proof (burned_revoke now id _ _ _ Hb) as H.
    by destruct (revoke_node_certificate now id (certificates db)) as [[n|] cs].
Qed.

Lemma burned_run node_id fingerprint ops :
  (forall n csr i, issue n csr = Some i -> db_upper (fingerprint_sha256 i) <> db_upper fingerprint) ->
  forall db, burned node_id fingerprint (certificates db) ->
  burned node_id fingerprint (certificates (enroll_run db ops)).
Proof.
  intros Hf. induction ops as [|o ops IH]; intros db Hb; [done|]. simpl. by apply IH, burned_step.
Qed.
End Enrollment.

(** C11: an enrollment token is good for one certificate.  Once a claim with a
    token has gone through, every later claim with it fails and leaves the
    certificates as they are, whatever tokens are minted, claimed or revoked in
    between. *)
Theorem enrollment_single_use (token_hash : string -> string) (uuid_str : Uuid -> string)
    (issue : Uuid -> string -> option Issued) (now now' : Z) (cert_id cert_id' : Uuid)
    (token csr csr' : string) (db db1 : EnrollDb) (r : Uuid * Issued) (ops : list enroll_op) :
  (forall t t', In t (tokens db) -> In t' (tokens db) -> et_hash t = et_hash t' -> t = t') ->
  claim_enrollment token_hash uuid_str issue now cert_id token csr db = (Ok r, db1) ->
  let db2 := enroll_run token_hash uuid_str issue db1 ops in
  exists db3,
    claim_enrollment token_hash uuid_str issue now' cert_id' token csr' db2 = (Err EnrollNotFound, db3) /\
    certificates db3 = certificates db2.
Proof.
  intros Hu Hc db2.
  assert (Hs : spent (token_hash token) db1).
  { unfold claim_enrollment in Hc. destruct ((len token <? 32) || (128 <? len token)); [done|].
    destruct (claim_enrollment_token now (token_hash token) db) as [[n|] dbc] eqn:Et; [|done].
    assert (Hsp : spent (token_hash token) dbc).
    { pose proof (claimed_spent now (token_hash token) db n) as H. rewrite Et in H. by apply H. }
    destruct (enroll_nodes dbc !! n); [|done]. destruct (issue n csr) as [i|]; [|done].
    unfold add_node_certificate in Hc. destruct (existsb _ _); [done|]. destruct (negb _); [done|].
    injection Hc as _ <-. by eapply spent_tokens. }
  apply (spent_run token_hash uuid_str issue _ ops) in Hs. fold db2 in Hs.
  unfold claim_enrollment. destruct ((len token <? 32) || (128 <? len token)); [eauto|].
  pose proof (spent_refuses now' _ _ Hs) as Hn.
  destruct (claim_enrollment_token now' (token_hash token) db2) as [o dbx] eqn:Et. simpl in Hn. subst o.
  exists dbx. split; [done|]. unfold claim_enrollment_token in Et. by injection Et as _ <-.
Qed.

Definition sample_token : EnrollmentToken :=
  mkToken 1 7 "0123456789abcdef0123456789abcdef" None 100 None None.
Definition sample_node7 : Node.Node :=
  Node.mk 7 "n" "10.0.0.1" "" 50051 "serve" [] [] true false None None None None None None None
    None None None 0 0 0.
Definition sample_enroll : EnrollDb := mkEnrollDb {[7 := sample_node7]} [sample_token] [] [].
Definition sample_issue (_ : Uuid) (_ : string) : option Issued := Some (mkIssued "s" "AB" "cn" 0 1000).

Lemma sample_claim : exists db1,
  claim_enrollment (fun s => s) (fun _ => "7") sample_issue 5 3 "0123456789abcdef0123456789abcdef" "csr"
    sample_enroll = (Ok (7, mkIssued "s" "AB" "cn" 0 1000), db1).
Proof. eexists. vm_compute. reflexivity. Qed.

Lemma enrollment_single_use_witness : exists db1 db3,
  claim_enrollment (fun s => s) (fun _ => "7") sample_issue 6 4 "0123456789abcdef0123456789abcdef" "csr2"
    db1 = (Err EnrollNotFound, db3).
Proof.
  destruct sample_claim as [db1 H]. exists db1.
  destruct (enrollment_single_use (fun s => s) (fun _ => "7") sample_issue 5 6 3 4
    "0123456789abcdef0123456789abcdef" "csr" "csr2" sample_enroll db1
    (7, mkIssued "s" "AB" "cn" 0 1000) []) as (db3 & H3 & _).
  - intros t t' [<-|[]] [<-|[]] _. reflexivity.
  - exact H.
  - exists db3. exact H3.
Defined.

(** A revoked certificate is locked out.  Revoking it drops its node's live
    channel, and from then on the certificate never authorizes that node again,
    whatever else is enrolled or revoked, as long as the authority does not sign
    another certificate with the same fingerprint. *)
Theorem revoked_certificate_locked_out (token_hash : string -> string) (uuid_str : Uuid -> string)
    (db_upper : string -> string) (issue : Uuid -> string -> option Issued) (now later : Z) (c : NodeCertificate)
    (actor : option string) (conns conns' : gset Uuid) (db db' : EnrollDb) (ops : list enroll_op) :
  In c (certificates db) ->
  (forall x, In x (certificates db) -> nc_id x = nc_id c -> x = c) ->
  (forall x, In x (certificates db) -> db_upper (nc_fingerprint x) = db_upper (nc_fingerprint c) -> x = c) ->
  (forall n csr i, issue n csr = Some i -> db_upper (fingerprint_sha256 i) <> db_upper (nc_fingerprint c)) ->
  revoke_certificate now (nc_id c) actor conns db = Ok (conns', db') ->
  ~ (nc_node_id c ∈ conns') /\
  authorize_certificate db_upper later (nc_node_id c) (nc_fingerprint c)
    (certificates (enroll_run token_hash uuid_str issue db' ops)) = false.
Proof.
  intros Hc Hid Hfp Hfresh. unfold revoke_certificate, revoke_node_certificate.
  set (hit := fun x => (nc_id x =? nc_id c) && negb (is_some (nc_revoked_at x))).
  set (mark := fun x => if hit x then revoked now x else x).
  destruct (List.find hit (certificates db)) as [x|] eqn:Ef; [|done].
  apply find_some in Ef as [Hx Hhit]. pose proof Hhit as Hh. unfold hit in Hh. breflect.
  destruct Hh as [Hxid _]. rewrite (Hid x Hx Hxid) in Hhit. rewrite (Hid x Hx Hxid). clear x Hx Hxid.
  intros H. injection H as <- <-. split; [set_solver|].
  apply burned_refused, (burned_run token_hash uuid_str db_upper issue); [exact Hfresh|]. simpl. split.
  - exists (mark c). split; [by apply list_elem_of_In, list_elem_of_fmap_2, list_elem_of_In|].
    unfold mark. by rewrite Hhit.
  - intros y Hy _ Hf. apply list_elem_of_In, list_elem_of_fmap in Hy as (z & -> & Hz).
    apply list_elem_of_In in Hz. assert (z = c) as ->.
    { apply Hfp; [done|]. rewrite <- Hf. by destruct (_ && _). }
    change (is_some (nc_revoked_at (mark c)) = true). unfold mark. by rewrite Hhit.
Qed.

Definition sample_cert : NodeCertificate := mkCert 3 7 "s" "AB" "cn" 0 1000 5 None.
Definition sample_enrolled : EnrollDb := mkEnrollDb {[7 := sample_node7]} [sample_token] [sample_cert] [].

Lemma revoked_certificate_locked_out_witness :
  authorize_certificate (fun s => s) 10 7 "AB" [sample_cert] = true /\
  exists db', revoke_certificate 5 3 None {[7]} sample_enrolled = Ok (∅, db') /\
    authorize_certificate (fun s => s) 10 7 "AB" (certificates db') = false.
Proof.
  split; [reflexivity|]. eexists. split; [vm_compute; reflexivity|].
  refine (proj2 (revoked_certificate_locked_out (fun s => s) (fun _ => "7") (fun s => s)
    (fun _ _ => Some (mkIssued "t" "CD" "cn" 0 1000)) 5 10 sample_cert None {[7]} ∅ sample_enrolled _ []
    _ _ _ _ _)).
  - left. reflexivity.
  - intros x [<-|[]] _. reflexivity.
  - intros x [<-|[]] _. reflexivity.
  - intros n csr i H. injection H as <-. discriminate.
  - vm_compute. reflexivity.
Defined.
