(* ===== verification/Push.v ===== *)
(** * Pushing specs to nodes (src/master/src/registry.rs,
    src/master/src/reconcile.rs and the push queries of src/master/src/db/repo.rs)

    Agents are the environment: what an agent runs changes only when it applies
    a spec, and an Apply call has an outcome the environment picks.  A push is
    also split into the points where other tasks can interleave. *)

From S2P Require Import Prelude Strings Json Models Db Access Wg Subscription Spec Enroll.

(** How an Apply call ends: the agent's answer, its refusal, or a broken
    channel, in which case the spec may or may not have been applied. *)
Inductive apply_result :=
| AgentOk (message : string)
| AgentRejected
| RpcFailure (applied : bool).

Inductive push_error :=
| PushSpec (e : spec_error)
| NotConnected
| NodeNotFound
| ApplyFailed
| DialFailed
| CertificateRefused
| NodeIdMismatch.

Inductive PushOutcome := Unchanged | Pushed | Deferred.

(** A row of node_push_events. *)
Record PushEvent := mkPush {
  pe_node_id : Uuid;
  pe_desired_hash : string;
  pe_source : string;
  pe_status : string;
  pe_message : option string;
  pe_applied_hash : option string;
  pe_actor : option Uuid;
  pe_finished_at : option Z }.

(** A TLS stream: its number, and the certificates the other side showed. *)
Record Stream := mkStream { st_id : nat; st_peer : option (list string) }.

(** A channel to an agent: the stream it runs over, and the fingerprint of the
    certificate shown on it. *)
Record AgentClient := mkClient { inner : Stream; peer_fingerprint_sha256 : string }.

Record World := mkWorld {
  plane : Plane;
  push_events : gmap Z PushEvent;
  conns : gmap Uuid AgentClient;
  deferred_pushes : gmap Uuid Z;
  certs : list NodeCertificate;
  running : gmap Uuid Pb.NodeSpec }.

Definition on_nodes (f : gmap Uuid Node.Node -> gmap Uuid Node.Node) (w : World) : World :=
  mkWorld (mkPlane (with_nodes f (tables (plane w))) (wg_interfaces (plane w)) (wg_peers (plane w))
             (node_services (plane w))) (push_events w) (conns w) (deferred_pushes w) (certs w) (running w).
Definition on_events f (w : World) : World :=
  mkWorld (plane w) (f (push_events w)) (conns w) (deferred_pushes w) (certs w) (running w).
Definition on_conns f (w : World) : World :=
  mkWorld (plane w) (push_events w) (f (conns w)) (deferred_pushes w) (certs w) (running w).
Definition on_deferred f (w : World) : World :=
  mkWorld (plane w) (push_events w) (conns w) (f (deferred_pushes w)) (certs w) (running w).
Definition on_running f (w : World) : World :=
  mkWorld (plane w) (push_events w) (conns w) (deferred_pushes w) (certs w) (f (running w)).
Definition with_peers (peers : list WgPeer.WgPeer) (w : World) : World :=
  mkWorld (mkPlane (tables (plane w)) (wg_interfaces (plane w)) peers (node_services (plane w)))
    (push_events w) (conns w) (deferred_pushes w) (certs w) (running w).

(** ** The push columns of a node *)

Definition started (now : Z) (hash : string) (n : Node.Node) : Node.Node :=
  Node.mk (Node.id n) (Node.name n) (Node.address n) (Node.tls_server_name n) (Node.grpc_port n)
    (Node.transport n) (Node.extra_addresses n) (Node.labels n) (Node.enabled n)
    (Node.maintenance n) (Node.last_seen n) (Node.agent_version n) (Node.singbox_version n)
    (Some hash) (Node.applied_spec_hash n) (Node.applied_spec_summary n) (Node.applied_at n)
    (Some now) (Some "started") None (Node.monthly_cost_cents n) (Node.created_at n) now.

Definition finished (now : Z) (applied : option string) (status : string) (message : option string)
    (summary : option json) (n : Node.Node) : Node.Node :=
  Node.mk (Node.id n) (Node.name n) (Node.address n) (Node.tls_server_name n) (Node.grpc_port n)
    (Node.transport n) (Node.extra_addresses n) (Node.labels n) (Node.enabled n)
    (Node.maintenance n) (Node.last_seen n) (Node.agent_version n) (Node.singbox_version n)
    (Node.desired_spec_hash n) (opt_or applied (Node.applied_spec_hash n))
    (if is_some applied then summary else Node.applied_spec_summary n)
    (if is_some applied then Some now else Node.applied_at n)
    (Some now) (Some status) message (Node.monthly_cost_cents n) (Node.created_at n) now.

Definition seen (now : Z) (n : Node.Node) : Node.Node :=
  Node.mk (Node.id n) (Node.name n) (Node.address n) (Node.tls_server_name n) (Node.grpc_port n)
    (Node.transport n) (Node.extra_addresses n) (Node.labels n) (Node.enabled n)
    (Node.maintenance n) (Some now) (Node.agent_version n) (Node.singbox_version n)
    (Node.desired_spec_hash n) (Node.applied_spec_hash n) (Node.applied_spec_summary n)
    (Node.applied_at n) (Node.last_push_at n) (Node.last_push_status n) (Node.last_push_message n)
    (Node.monthly_cost_cents n) (Node.created_at n) now.

Definition touched (now : Z) (agent_version singbox_version : string) (n : Node.Node) : Node.Node :=
  Node.mk (Node.id n) (Node.name n) (Node.address n) (Node.tls_server_name n) (Node.grpc_port n)
    (Node.transport n) (Node.extra_addresses n) (Node.labels n) (Node.enabled n)
    (Node.maintenance n) (Some now) (Some agent_version) (Some singbox_version)
    (Node.desired_spec_hash n) (Node.applied_spec_hash n) (Node.applied_spec_summary n)
    (Node.applied_at n) (Node.last_push_at n) (Node.last_push_status n) (Node.last_push_message n)
    (Node.monthly_cost_cents n) (Node.created_at n) now.

(** One transaction; [event] is the sequence's value. *)
Definition start_node_push (now event : Z) (node_id : Uuid) (hash source : string)
    (actor : option Uuid) (w : World) : World :=
  on_nodes (alter (started now hash) node_id)
    (on_events <[event := mkPush node_id hash source "started" None None actor None]> w).

Definition finish_node_push (now event : Z) (node_id : Uuid) (hash status : string)
    (message : option string) (summary : option json) (w : World) : World :=
  let applied := if String.eqb status "applied" || String.eqb status "unchanged"
                 then Some hash else None in
  on_nodes (alter (finished now applied status message summary) node_id)
    (on_events (alter (fun e => mkPush (pe_node_id e) (pe_desired_hash e) (pe_source e) status message
                                  applied (pe_actor e) (Some now)) event) w).

Definition mark_node_seen (now : Z) (node_id : Uuid) (w : World) : World :=
  on_nodes (alter (seen now) node_id) w.

Definition touch_node (now : Z) (node_id : Uuid) (agent_version singbox_version : string) (w : World) : World :=
  on_nodes (alter (touched now agent_version singbox_version) node_id) w.

Definition list_nodes (w : World) : list Node.Node :=
  sort_by (fun a b => Node.created_at a <=? Node.created_at b) (rows (nodes (tables (plane w)))).

(** ** The registry *)

Definition register (node_id : Uuid) (client : AgentClient) : World -> World := on_conns <[node_id := client]>.
Definition remove (node_id : Uuid) : World -> World := on_conns (delete node_id).
Definition client_of (node_id : Uuid) (w : World) : option AgentClient := conns w !! node_id.
Definition is_connected (node_id : Uuid) (w : World) : bool := is_some (client_of node_id w).
Definition connected_ids (w : World) : gset Uuid := dom (conns w).

Definition take_due_push (node_id : Uuid) (now : Z) (pending : gmap Uuid Z) : bool * gmap Uuid Z :=
  match pending !! node_id with
  | Some deadline => if deadline <=? now then (true, delete node_id pending) else (false, pending)
  | None => (false, pending)
  end.

(** [defer_push] up to the spawned task. *)
Definition defer_push (node_id : Uuid) (now delay : Z) : World -> World :=
  on_deferred <[node_id := now + delay]>.

(** What the agent ends up running. *)
Definition agent_effect (node_id : Uuid) (spec : Pb.NodeSpec) (r : apply_result) (w : World) : World :=
  match r with
  | AgentOk _ | RpcFailure true => on_running <[node_id := spec]> w
  | _ => w
  end.

Definition apply (node_id : Uuid) (spec : Pb.NodeSpec) (r : apply_result) (w : World)
    : result string push_error * World :=
  if is_connected node_id w then
    let w := agent_effect node_id spec r w in
    match r with
    | AgentOk message => (Ok message, w)
    | AgentRejected => (Err ApplyFailed, w)
    | RpcFailure _ => (Err ApplyFailed, remove node_id w)
    end
  else (Err NotConnected, w).

Definition public_message : string := "push failed; inspect correlated master and agent logs".

Section Registry.
Context (collate : string -> string -> bool).
Context (encrypt decrypt : string -> option string).
Context (uuid_str : Uuid -> string).
Context (to_string : json -> option string).
Context (mint : Uuid -> Uuid -> Uuid * Z * result Keypair wg_error).
Context (spec_hash : Pb.NodeSpec -> string).
Context (to_value : SpecSummary -> json).
Context (db_upper : string -> string).

Definition build (now : Z) (node_id : Uuid) (w : World) : result Pb.NodeSpec push_error * World :=
  let '(r, peers) := build_node_spec collate encrypt decrypt uuid_str to_string mint now node_id (plane w) in
  (lift PushSpec r, with_peers peers w).

Definition push_with_context (now event : Z) (r : apply_result) (node_id : Uuid) (source : string)
    (actor : option Uuid) (w : World) : result string push_error * World :=
  let w := on_deferred (delete node_id) w in
  match build now node_id w with
  | (Err e, w) => (Err e, w)
  | (Ok spec, w) =>
      let hash := spec_hash spec in
      let summary := to_value (summarize spec) in
      let w := start_node_push now event node_id hash source actor w in
      match apply node_id spec r w with
      | (Ok message, w) =>
          (Ok message, finish_node_push now event node_id hash "applied" (Some message) (Some summary) w)
      | (Err e, w) =>
          (Err e, finish_node_push now event node_id hash "failed" (Some public_message) None w)
      end
  end.

Definition auto_push (auto_push_enabled : Z) (now event : Z) (r : apply_result) (node_id : Uuid)
    (w : World) : result (option string) push_error * World :=
  if auto_push_enabled =? 0 then (Ok None, w)
  else match push_with_context now event r node_id "automatic" None w with
       | (Ok m, w) => (Ok (Some m), w)
       | (Err e, w) => (Err e, w)
       end.

Definition push (now event : Z) (r : apply_result) (node_id : Uuid) (w : World)
    : result string push_error * World :=
  push_with_context now event r node_id "manual" None w.

(** The task [defer_push] spawns, once it wakes up. *)
Definition deferred_task (auto_push_enabled : Z) (now event : Z) (r : apply_result) (node_id : Uuid)
    (w : World) : World :=
  let '(due, pending) := take_due_push node_id now (deferred_pushes w) in
  let w := on_deferred (fun _ => pending) w in
  if due && is_connected node_id w then (auto_push auto_push_enabled now event r node_id w).2 else w.

(** [dry_run]; the agent's answer is [Some message], [None] is a failed call. *)
Definition dry_run (now : Z) (answer : option string) (node_id : Uuid) (w : World)
    : result string push_error * World :=
  match build now node_id w with
  | (Err e, w) => (Err e, w)
  | (Ok _, w) =>
      if negb (is_connected node_id w) then (Err NotConnected, w)
      else match answer with
           | Some message => (Ok message, w)
           | None => (Err ApplyFailed, remove node_id w)
           end
  end.

Definition reconcile_push (now event : Z) (r : apply_result) (node_id : Uuid) (w : World)
    : result PushOutcome push_error * World :=
  if is_some (deferred_pushes w !! node_id) then (Ok Deferred, w) else
  match build now node_id w with
  | (Err e, w) => (Err e, w)
  | (Ok spec, w) =>
      match nodes (tables (plane w)) !! node_id with
      | None => (Err NodeNotFound, w)
      | Some node =>
          if bool_decide (Node.applied_spec_hash node = Some (spec_hash spec)) then (Ok Unchanged, w)
          else match push_with_context now event r node_id "reconcile" None w with
               | (Ok _, w) => (Ok Pushed, w)
               | (Err e, w) => (Err e, w)
               end
      end
  end.

(** [heartbeat]: a failed ping evicts the channel. *)
Definition heartbeat (now : Z) (ping_ok : bool) (node_id : Uuid) (w : World) : bool * World :=
  if negb (is_connected node_id w) then (false, w)
  else if ping_ok then (true, mark_node_seen now node_id w)
  else (false, remove node_id w).

(** How dialling a node goes: the channel it opens, then the answer to whoru
    on it (id, agent version, core version). *)
Record DialEnv := mkDial {
  de_client : option AgentClient;
  de_whoru : option (string * string * string) }.

Definition connect_serve (now : Z) (env : DialEnv) (node : Node.Node) (w : World)
    : result unit push_error * World :=
  match de_client env with
  | None => (Err DialFailed, w)
  | Some client =>
      if negb (authorize_certificate db_upper now (Node.id node) (peer_fingerprint_sha256 client) (certs w))
      then (Err CertificateRefused, w)
      else match de_whoru env with
           | None => (Err DialFailed, w)
           | Some (id, agent_version, singbox_version) =>
               if negb (String.eqb id (uuid_str (Node.id node))) then (Err NodeIdMismatch, w)
               else (Ok tt, register (Node.id node) client
                              (touch_node now (Node.id node) agent_version singbox_version w))
           end
  end.

(** What the environment answers to one node's part of a tick. *)
Record TickEnv := mkTick { te_dial : DialEnv; te_ping_ok : bool; te_event : Z; te_apply : apply_result }.

(** The body of [tick] on one node. *)
Definition tick_node (auto_push_enabled : Z) (now : Z) (env : TickEnv) (node : Node.Node) (w : World)
    : World :=
  if negb (Node.enabled node) then w else
  let id := Node.id node in
  let w := if negb (String.eqb (Node.transport node) "dial") && negb (is_connected id w)
           then (connect_serve now (te_dial env) node w).2 else w in
  if negb (is_connected id w) then w else
  match heartbeat now (te_ping_ok env) id w with
  | (false, w) => w
  | (true, w) =>
      if auto_push_enabled =? 0 then w else (reconcile_push now (te_event env) (te_apply env) id w).2
  end.

Definition tick (auto_push_enabled : Z) (now : Z) (env : Uuid -> TickEnv) (w : World) : World :=
  fold_left (fun w n => tick_node auto_push_enabled now (env (Node.id n)) n w) (list_nodes w) w.

(** ** A push, one await at a time

    Between two of its queries or calls a push holds no lock on its node, so
    other tasks run in between. *)
Inductive phase :=
| Queued
| Built (spec : Pb.NodeSpec)
| Started (spec : Pb.NodeSpec)
| Answered (spec : Pb.NodeSpec) (r : result string push_error)
| Done (r : result string push_error).

Definition push_phase (now event : Z) (r : apply_result) (node_id : Uuid) (source : string)
    (actor : option Uuid) (p : phase) (w : World) : phase * World :=
  match p with
  | Queued =>
      match build now node_id (on_deferred (delete node_id) w) with
      | (Err e, w) => (Done (Err e), w)
      | (Ok spec, w) => (Built spec, w)
      end
  | Built spec => (Started spec, start_node_push now event node_id (spec_hash spec) source actor w)
  | Started spec => let '(a, w) := apply node_id spec r w in (Answered spec a, w)
  | Answered spec (Ok message) =>
      (Done (Ok message), finish_node_push now event node_id (spec_hash spec) "applied" (Some message)
                            (Some (to_value (summarize spec))) w)
  | Answered spec (Err e) =>
      (Done (Err e), finish_node_push now event node_id (spec_hash spec) "failed" (Some public_message) None w)
  | Done a => (Done a, w)
  end.

Fixpoint push_phases (n : nat) (now event : Z) (r : apply_result) (node_id : Uuid) (source : string)
    (actor : option Uuid) (p : phase) (w : World) : phase * World :=
  match n with
  | O => (p, w)
  | S n => let '(p, w) := push_phase now event r node_id source actor p w in
           push_phases n now event r node_id source actor p w
  end.
End Registry.

(** ** Rebuilding a spec *)

Section Rebuild.
Context (collate : string -> string -> bool).
Context (encrypt decrypt : string -> option string).
Context (uuid_str : Uuid -> string).
Context (to_string : json -> option string).
Context (mint : Uuid -> Uuid -> Uuid * Z * result Keypair wg_error).

Lemma ensure_peers_noop iface have us peers :
  (forall u, In u us -> In (User.id u) have) ->
  ensure_peers encrypt decrypt mint iface have us peers = (Ok tt, peers).
Proof.
  induction us as [|u us IH]; simpl; intros H; [done|].
  assert (existsb (Z.eqb (User.id u)) have = true) as ->.
  { apply existsb_exists. exists (User.id u). split; [auto|apply Z.eqb_refl]. }
  auto.
Qed.

Lemma ensure_peers_grow iface have us : forall peers peers',
  ensure_peers encrypt decrypt mint iface have us peers = (Ok tt, peers') ->
  exists new, peers' = peers ++ new /\ forall p, In p new -> WgPeer.interface_id p = WgInterface.id iface.
Proof.
  induction us as [|u us IH]; simpl; intros peers peers' H.
  { injection H as <-. exists []. rewrite app_nil_r. by split. }
  destruct (existsb _ have); [by apply IH|]. destruct (mint _ _) as [[id at_] kp].
  destruct (ensure_wg_peer _ _ _ _ _ _ _ _) as [[p peers1]|] eqn:Ee; [|done].
  destruct (IH _ _ H) as (new & -> & Hnew). revert Ee. unfold ensure_wg_peer.
  destruct (List.find _ peers) as [ex|].
  - destruct (decrypt_wg_peer decrypt ex); [|done]. intros E. injection E as <- <-. eauto.
  - destruct (allocate_ip _ _); [|done]. destruct kp; [|done]. destruct (encrypt _); [|done].
    unfold insert_peer. destruct (existsb _ peers); [done|].
    destruct (decrypt_wg_peer decrypt _); [|done]. intros E. injection E as <- <-.
    rewrite <- app_assoc. eexists. split; [done|]. intros q Hq.
    apply in_app_or in Hq as [[<-|[]]|Hq]; [done|auto].
Qed.

Lemma filter_other_interface iface peers new :
  (forall p, In p new -> WgPeer.interface_id p <> iface) ->
  List.filter (on_interface iface) (peers ++ new) = List.filter (on_interface iface) peers.
Proof.
  intros H. rewrite List.filter_app.
  replace (List.filter (on_interface iface) new) with (@nil WgPeer.WgPeer); [by rewrite app_nil_r|].
  symmetry. apply list_nil_in. intros p Hp. apply List.filter_In in Hp as [Hp Hi].
  unfold on_interface in Hi. apply Z.eqb_eq in Hi. by apply (H p).
Qed.

Lemma build_wg_grow active iface peers w peers' :
  build_wg encrypt decrypt to_string mint active iface peers = (Ok w, peers') ->
  exists new, peers' = peers ++ new /\ forall p, In p new -> WgPeer.interface_id p = WgInterface.id iface.
Proof.
  unfold build_wg. destruct (wg_peers_for_interface decrypt _ peers) as [existing|]; [|done].
  destruct (ensure_peers _ _ _ _ _ _ _) as [[[]|] peers1] eqn:E1; [|done].
  intros H. injection H as _ <-. by eapply ensure_peers_grow.
Qed.

(** A built interface is rebuilt the same from any table with its rows. *)
Lemma build_wg_settled active iface peers w peers' q :
  build_wg encrypt decrypt to_string mint active iface peers = (Ok w, peers') ->
  List.filter (on_interface (WgInterface.id iface)) q
  = List.filter (on_interface (WgInterface.id iface)) peers' ->
  build_wg encrypt decrypt to_string mint active iface q = (Ok w, q).
Proof.
  unfold build_wg. intros H Hq.
  assert (Hw : wg_peers_for_interface decrypt (WgInterface.id iface) q
             = wg_peers_for_interface decrypt (WgInterface.id iface) peers').
  { unfold wg_peers_for_interface. by rewrite Hq. }
  rewrite Hw. destruct (wg_peers_for_interface decrypt _ peers) as [existing|] eqn:E0; [|done].
  destruct (ensure_peers _ _ _ _ _ _ peers) as [[[]|] peers1] eqn:E1; [|done].
  injection H as Hs ->. simpl in Hs.
  destruct (wg_peers_for_interface decrypt _ peers') as [all|] eqn:E2; [|done].
  rewrite ensure_peers_noop; [cbv zeta beta iota; rewrite Hw; f_equal; exact Hs|]. intros u Hu.
  apply ensure_peers_post in E1 as [Hkeep Hnew].
  assert (exists x, In x peers' /\ WgPeer.interface_id x = WgInterface.id iface
                    /\ WgPeer.user_id x = User.id u) as (x & Hx & Hi & Hxu).
  { destruct (in_dec Z.eq_dec (User.id u) (WgPeer.user_id <$> existing)) as [Hin|Hn]; [|auto].
    apply list_elem_of_In, list_elem_of_fmap in Hin as (p & Hpu & Hp). apply list_elem_of_In in Hp.
    destruct (wg_peers_for_interface_in _ _ _ _ _ E0 Hp) as (x & Hx & Hi & Hu' & _).
    exists x. split; [auto|]. split; [done|congruence]. }
  destruct (wg_peers_for_interface_all _ _ _ _ _ E2 Hx Hi) as (p & Hp & Hpu & _).
  rewrite <- Hxu, <- Hpu. by apply list_elem_of_In, list_elem_of_fmap_2, list_elem_of_In.
Qed.

Lemma build_wgs_grow active ifaces : forall peers ws peers',
  build_wgs encrypt decrypt to_string mint active ifaces peers = (Ok ws, peers') ->
  exists new, peers' = peers ++ new /\
    forall p, In p new -> In (WgPeer.interface_id p) (WgInterface.id <$> ifaces).
Proof.
  induction ifaces as [|i ifaces IH]; simpl; intros peers ws peers' H.
  { injection H as _ <-. exists []. rewrite app_nil_r. by split. }
  destruct (build_wg _ _ _ _ _ i peers) as [[w|] peers1] eqn:E; [|done].
  destruct (build_wgs _ _ _ _ _ ifaces peers1) as [[ws'|] peers2] eqn:E2; [|done].
  injection H as _ <-. destruct (IH _ _ _ E2) as (new2 & -> & H2).
  destruct (build_wg_grow _ _ _ _ _ E) as (new1 & -> & H1). rewrite <- app_assoc.
  eexists. split; [done|]. intros p Hp. apply in_app_or in Hp as [Hp|Hp]; [left; symmetry; auto|right; auto].
Qed.

Lemma build_wgs_settled active ifaces q : forall peers ws peers',
  NoDup (WgInterface.id <$> ifaces) ->
  build_wgs encrypt decrypt to_string mint active ifaces peers = (Ok ws, peers') ->
  (forall i, In i ifaces -> List.filter (on_interface (WgInterface.id i)) q
                            = List.filter (on_interface (WgInterface.id i)) peers') ->
  build_wgs encrypt decrypt to_string mint active ifaces q = (Ok ws, q).
Proof.
  induction ifaces as [|i ifaces IH]; simpl; intros peers ws peers' Hnd H Hq.
  { by injection H as <- _. }
  apply NoDup_cons in Hnd as [Hni Hnd].
  destruct (build_wg _ _ _ _ _ i peers) as [[w|] peers1] eqn:E; [|done].
  destruct (build_wgs _ _ _ _ _ ifaces peers1) as [[ws'|] peers2] eqn:E2; [|done].
  injection H as <- <-.
  rewrite (build_wg_settled _ _ _ _ _ q E).
  - rewrite (IH _ _ _ Hnd E2); [done|]. intros j Hj. apply Hq. by right.
  - rewrite (Hq i (or_introl eq_refl)). destruct (build_wgs_grow _ _ _ _ _ E2) as (new & -> & Hnew).
    apply filter_other_interface. intros p Hp Heq. apply Hni, list_elem_of_In. rewrite <- Heq. auto.
Qed.

Lemma interface_ids_nodup node_id pl ifaces :
  NoDup (WgInterface.id <$> wg_interfaces pl) -> enabled_wg_interfaces decrypt node_id pl = Ok ifaces ->
  NoDup (WgInterface.id <$> ifaces).
Proof.
  unfold enabled_wg_interfaces. intros Hnd H.
  assert (Hids : WgInterface.id <$> ifaces = WgInterface.id <$>
    sort_by (fun a b => WgInterface.created_at a <=? WgInterface.created_at b)
      (List.filter (fun w => (WgInterface.node_id w =? node_id) && WgInterface.enabled w)
        (wg_interfaces pl))).
  { apply try_map_inv in H. induction H as [|x y l l' Hxy _ IH]; [done|]. rewrite !fmap_cons, IH.
    unfold decrypt_wg_interface in Hxy. destruct (decrypt _); [|done]. by injection Hxy as <-. }
  rewrite Hids, sort_by_perm. clear -Hnd. revert Hnd.
  induction (wg_interfaces pl) as [|w l IH]; simpl; [done|]. rewrite NoDup_cons. intros [Hn Hnd].
  destruct (_ && _); simpl; [|auto]. apply NoDup_cons. split; [|auto].
  intros Hin. apply Hn. apply list_elem_of_fmap in Hin as (x & Hx & Hin).
  apply list_elem_of_In, List.filter_In in Hin as [Hin _]. apply list_elem_of_fmap.
  exists x. split; [done|]. by apply list_elem_of_In.
Qed.

(** What an outbound to a node depends on. *)
Definition node_view (n : Node.Node) :=
  (Node.name n, Node.address n, Node.extra_addresses n, Node.enabled n, Node.maintenance n).

Lemma endpoint_for_inbound_view id db m :
  (forall k, node_view <$> m !! k = node_view <$> nodes db !! k) ->
  endpoint_for_inbound id (with_nodes (fun _ => m) db) = endpoint_for_inbound id db.
Proof.
  intros Hm. unfold endpoint_for_inbound. simpl. destruct (inbounds db !! id) as [i|]; [|done].
  specialize (Hm (Inbound.node_id i)). destruct (m !! Inbound.node_id i) as [a|], (nodes db !! Inbound.node_id i) as [b|];
    try done. simpl in Hm. unfold node_view in Hm. injection Hm as Hn Ha Hx He Hmm.
  unfold endpoint_of. by rewrite Hn, Ha, Hx, He, Hmm.
Qed.

Lemma try_map_ext {A B E} (f g : A -> result B E) l :
  (forall x, f x = g x) -> try_map f l = try_map g l.
Proof. intros H. induction l as [|x l IH]; simpl; [done|]. by rewrite H, IH. Qed.

Lemma build_inbound_view now us ib db m :
  (forall k, node_view <$> m !! k = node_view <$> nodes db !! k) ->
  build_inbound decrypt uuid_str to_string now (with_nodes (fun _ => m) db) us ib
  = build_inbound decrypt uuid_str to_string now db us ib.
Proof.
  intros Hm. unfold build_inbound, build_chain_outbound.
  destruct (Inbound.upstream_inbound_id ib) as [up|]; [|done].
  by rewrite (endpoint_for_inbound_view up db m Hm).
Qed.

Lemma build_node_spec_rebuild now node_id pl spec peers m :
  NoDup (WgInterface.id <$> wg_interfaces pl) ->
  (forall k, node_view <$> m !! k = node_view <$> nodes (tables pl) !! k) ->
  build_node_spec collate encrypt decrypt uuid_str to_string mint now node_id pl = (Ok spec, peers) ->
  build_node_spec collate encrypt decrypt uuid_str to_string mint now node_id
    (mkPlane (with_nodes (fun _ => m) (tables pl)) (wg_interfaces pl) peers (node_services pl))
  = (Ok spec, peers).
Proof.
  intros Hnd Hm. unfold build_node_spec. cbn [tables wg_peers].
  change (enabled_node_inbounds decrypt node_id (with_nodes (fun _ => m) (tables pl)))
    with (enabled_node_inbounds decrypt node_id (tables pl)).
  change (users_with_node_access collate decrypt node_id (with_nodes (fun _ => m) (tables pl)))
    with (users_with_node_access collate decrypt node_id (tables pl)).
  destruct (enabled_node_inbounds decrypt node_id (tables pl)) as [rows_|]; [|done].
  destruct (users_with_node_access collate decrypt node_id (tables pl)) as [us|]; [|done]. cbn [lift].
  rewrite (try_map_ext _ _ rows_ (fun ib => build_inbound_view now us ib (tables pl) m Hm)).
  destruct (try_map _ rows_) as [ibs|]; [|done].
  change (enabled_wg_interfaces decrypt node_id (mkPlane _ _ _ _)) with (enabled_wg_interfaces decrypt node_id pl).
  destruct (enabled_wg_interfaces decrypt node_id pl) as [ifaces|] eqn:Ei; [|done]. cbn [lift].
  destruct (build_wgs _ _ _ _ _ ifaces (wg_peers pl)) as [[ws|] peers'] eqn:Ew; [|done].
  intros H. assert (peers' = peers) as -> by (by injection H).
  rewrite (build_wgs_settled _ _ peers _ _ _ (interface_ids_nodup _ _ _ Hnd Ei) Ew); [|done]. exact H.
Qed.

(** A spec depends on the clock only through who is active. *)
Lemma build_node_spec_time t t' node_id pl :
  (forall row, In row (rows (users (tables pl))) -> can_reach (User.id row) node_id (tables pl) = true ->
     User.is_active t' row = User.is_active t row) ->
  build_node_spec collate encrypt decrypt uuid_str to_string mint t' node_id pl
  = build_node_spec collate encrypt decrypt uuid_str to_string mint t node_id pl.
Proof.
  intros Ha. unfold build_node_spec.
  destruct (enabled_node_inbounds decrypt node_id (tables pl)) as [rows_|]; [|done]. cbn [lift].
  destruct (users_with_node_access collate decrypt node_id (tables pl)) as [us|] eqn:Eu; [|done]. cbn [lift].
  assert (Hf : List.filter (User.is_active t') us = List.filter (User.is_active t) us).
  { apply List.filter_ext_in. intros u Hu. apply (users_with_node_access_in _ _ _ _ _ _ Eu) in Hu as (row & Hr & Hc & Hd).
    assert (Hs : forall x, User.is_active x u = User.is_active x row); [|by rewrite !Hs, Ha].
    intros x. unfold decrypt_user in Hd. destruct (decrypt _); [|done]. destruct (decrypt _); [|done]. by injection Hd as <-. }
  rewrite (try_map_ext (build_inbound decrypt uuid_str to_string t' (tables pl) us) (build_inbound decrypt uuid_str to_string t (tables pl) us));
    [|intros ib; unfold build_inbound; by rewrite Hf].
  destruct (try_map _ rows_); [|done]. destruct (enabled_wg_interfaces decrypt node_id pl); [|done]. cbn [lift]. by rewrite Hf.
Qed.
End Rebuild.

(** ** Properties *)

(** The hash the master recorded is the hash of what the agent runs. *)
Definition in_sync (spec_hash : Pb.NodeSpec -> string) (node_id : Uuid) (w : World) : Prop :=
  forall n h, nodes (tables (plane w)) !! node_id = Some n -> Node.applied_spec_hash n = Some h ->
    exists s, running w !! node_id = Some s /\ spec_hash s = h.

Section Reconcile.
Context (collate : string -> string -> bool).
Context (encrypt decrypt : string -> option string).
Context (uuid_str : Uuid -> string).
Context (to_string : json -> option string).
Context (mint : Uuid -> Uuid -> Uuid * Z * result Keypair wg_error).
Context (spec_hash : Pb.NodeSpec -> string).
Context (to_value : SpecSummary -> json).

#[local] Abbreviation build := (build collate encrypt decrypt uuid_str to_string mint).
#[local] Abbreviation reconcile := (reconcile_push collate encrypt decrypt uuid_str to_string mint spec_hash to_value).
#[local] Abbreviation push_ctx := (push_with_context collate encrypt decrypt uuid_str to_string mint spec_hash to_value).

Lemma build_inv now node_id w spec w1 :
  build now node_id w = (Ok spec, w1) -> exists peers,
    build_node_spec collate encrypt decrypt uuid_str to_string mint now node_id (plane w) = (Ok spec, peers) /\
    w1 = with_peers peers w.
Proof.
  unfold Push.build. destruct (build_node_spec _ _ _ _ _ _ _ _ _) as [[s|] peers]; [|done].
  simpl. intros H. injection H as <- <-. eauto.
Qed.

(** Building again in the world a build leaves, or after the push columns of
    nodes changed, gives the same spec. *)
Lemma rebuild now node_id w spec peers w' m :
  NoDup (WgInterface.id <$> wg_interfaces (plane w)) ->
  build_node_spec collate encrypt decrypt uuid_str to_string mint now node_id (plane w) = (Ok spec, peers) ->
  (forall k, node_view <$> m !! k = node_view <$> nodes (tables (plane w)) !! k) ->
  plane w' = mkPlane (with_nodes (fun _ => m) (tables (plane w))) (wg_interfaces (plane w)) peers
               (node_services (plane w)) ->
  build now node_id w' = (Ok spec, with_peers peers w').
Proof.
  intros Hnd Hb Hm Hp. unfold Push.build. rewrite Hp.
  by rewrite (build_node_spec_rebuild collate encrypt decrypt uuid_str to_string mint now node_id (plane w) spec
    peers m Hnd Hm Hb).
Qed.

(** A push the agent accepts, step by step. *)
Lemma push_accepted now event message node_id source actor w spec w1 :
  build now node_id (on_deferred (delete node_id) w) = (Ok spec, w1) -> is_connected node_id w = true ->
  push_ctx now event (AgentOk message) node_id source actor w =
  (Ok message,
   finish_node_push now event node_id (spec_hash spec) "applied" (Some message)
     (Some (to_value (summarize spec)))
     (on_running <[node_id := spec]> (start_node_push now event node_id (spec_hash spec) source actor w1))).
Proof.
  intros Hb Hc. unfold push_with_context. rewrite Hb.
  destruct (build_inv _ _ _ _ _ Hb) as (peers & _ & ->). unfold Push.apply.
  change (is_connected node_id (start_node_push _ _ _ _ _ _ _)) with (is_connected node_id w).
  by rewrite Hc.
Qed.

(** What a push that answers has done. *)
Lemma pushed_inv now event r node_id source actor w message w' :
  push_ctx now event r node_id source actor w = (Ok message, w') ->
  exists spec peers,
    build_node_spec collate encrypt decrypt uuid_str to_string mint now node_id (plane w) = (Ok spec, peers)
    /\ running w' = <[node_id := spec]> (running w) /\ users (tables (plane w')) = users (tables (plane w))
    /\ forall n, nodes (tables (plane w')) !! node_id = Some n -> Node.applied_spec_hash n = Some (spec_hash spec).
Proof.
  unfold push_with_context. destruct (Push.build _ _ _ _ _ _ _ _ _) as [[spec|] w1] eqn:E; [|done].
  destruct (build_inv _ _ _ _ _ E) as (peers & Hb & ->). intros H. exists spec, peers. split; [exact Hb|].
  unfold apply in H. destruct (is_connected node_id _); [|done]. destruct r; [|done|done]. injection H as _ <-. cbn. repeat split.
  intros n. rewrite !lookup_alter_eq. destruct (nodes _ !! node_id); [|done]. by intros [= <-].
Qed.

Lemma view_alter2 now hash applied status message summary node_id (ns : gmap Uuid Node.Node) k :
  node_view <$> alter (finished now applied status message summary) node_id
                  (alter (started now hash) node_id ns) !! k
  = node_view <$> ns !! k.
Proof.
  destruct (decide (k = node_id)) as [->|Hk].
  - rewrite !lookup_alter_eq. by destruct (ns !! node_id).
  - by rewrite !lookup_alter_ne by done.
Qed.

Lemma reconcile_unchanged now event r node_id w w1 spec node :
  deferred_pushes w !! node_id = None -> build now node_id w = (Ok spec, w1) ->
  nodes (tables (plane w)) !! node_id = Some node -> Node.applied_spec_hash node = Some (spec_hash spec) ->
  reconcile now event r node_id w = (Ok Unchanged, w1).
Proof.
  intros Hd Hb Hn Ha. unfold reconcile_push. rewrite Hd, Hb.
  destruct (build_inv _ _ _ _ _ Hb) as (peers & _ & ->).
  change (nodes (tables (plane (with_peers peers w)))) with (nodes (tables (plane w))). cbn [is_some].
  rewrite Hn. by rewrite bool_decide_eq_true_2.
Qed.

(** The world a reconcile that pushes leaves behind. *)
Definition pushed_world now event message node_id spec peers (w : World) : World :=
  finish_node_push now event node_id (spec_hash spec) "applied" (Some message)
    (Some (to_value (summarize spec)))
    (on_running <[node_id := spec]> (start_node_push now event node_id (spec_hash spec) "reconcile" None
       (with_peers peers (on_deferred (delete node_id) w)))).

Lemma reconcile_pushed now event message node_id w spec peers node :
  NoDup (WgInterface.id <$> wg_interfaces (plane w)) ->
  deferred_pushes w !! node_id = None -> is_connected node_id w = true ->
  build_node_spec collate encrypt decrypt uuid_str to_string mint now node_id (plane w) = (Ok spec, peers) ->
  nodes (tables (plane w)) !! node_id = Some node -> Node.applied_spec_hash node <> Some (spec_hash spec) ->
  reconcile now event (AgentOk message) node_id w
  = (Ok Pushed, pushed_world now event message node_id spec peers w).
Proof.
  intros Hnd Hd Hc Hbs Hn Ha. unfold reconcile_push, Push.build. rewrite Hd, Hbs. cbn [is_some lift].
  change (nodes (tables (plane (with_peers peers w)))) with (nodes (tables (plane w))).
  rewrite Hn, bool_decide_eq_false_2 by done.
  rewrite (push_accepted now event message node_id "reconcile" None (with_peers peers w) spec
    (with_peers peers (on_deferred (delete node_id) (with_peers peers w)))); [done| |exact Hc].
  apply (rebuild now node_id w spec peers _ (nodes (tables (plane w)))); [done..|].
  simpl. by destruct (tables (plane w)).
Qed.

Lemma pushed_world_node now event message node_id spec peers w node :
  nodes (tables (plane w)) !! node_id = Some node ->
  exists node', nodes (tables (plane (pushed_world now event message node_id spec peers w))) !! node_id
                = Some node' /\ Node.applied_spec_hash node' = Some (spec_hash spec).
Proof.
  intros Hn. eexists. split; [|shelve]. unfold pushed_world, finish_node_push, start_node_push.
  simpl. rewrite !lookup_alter_eq, Hn. reflexivity. Unshelve. done.
Qed.

Lemma pushed_world_rebuild now event message node_id spec peers w :
  NoDup (WgInterface.id <$> wg_interfaces (plane w)) ->
  build_node_spec collate encrypt decrypt uuid_str to_string mint now node_id (plane w) = (Ok spec, peers) ->
  build now node_id (pushed_world now event message node_id spec peers w)
  = (Ok spec, with_peers peers (pushed_world now event message node_id spec peers w)).
Proof.
  intros Hnd Hb. eapply rebuild; [exact Hnd|exact Hb| |reflexivity]. intros k. apply view_alter2.
Qed.
End Reconcile.

(** Nobody with access to the node changes between active and inactive from one time
    to the other. *)
Definition same_activity (node_id : Uuid) (t t' : Z) (w : World) : Prop :=
  forall row, In row (rows (users (tables (plane w)))) -> can_reach (User.id row) node_id (tables (plane w)) = true ->
    User.is_active t' row = User.is_active t row.

Lemma build_later collate encrypt decrypt uuid_str to_string mint t t' node_id w :
  same_activity node_id t t' w ->
  build collate encrypt decrypt uuid_str to_string mint t' node_id w = build collate encrypt decrypt uuid_str to_string mint t node_id w.
Proof. intros H. unfold build. by rewrite (build_node_spec_time _ _ _ _ _ _ t t' node_id (plane w) H). Qed.

(** C8: The reconcile loop converges.  On a connected node with no push pending, whose
    spec can be built and whose recorded hash matches what the agent runs (interface ids
    being unique, as the table keeps them), a reconcile the agent accepts leaves the
    agent on a spec that hashes like the desired one and keeps the record in step with
    it.  From then on, at any time at which the same users with access to the node are
    active, a reconcile reports the node unchanged and changes nothing, whatever the
    agent would answer. *)
Theorem reconcile_converges (collate : string -> string -> bool) (encrypt decrypt : string -> option string)
    (uuid_str : Uuid -> string) (to_string : json -> option string)
    (mint : Uuid -> Uuid -> Uuid * Z * result Keypair wg_error)
    (spec_hash : Pb.NodeSpec -> string) (to_value : SpecSummary -> json)
    (now event : Z) (message : string) (node_id : Uuid) (w w1 : World) (spec : Pb.NodeSpec)
    (node : Node.Node) :
  NoDup (WgInterface.id <$> wg_interfaces (plane w)) ->
  nodes (tables (plane w)) !! node_id = Some node ->
  is_connected node_id w = true -> deferred_pushes w !! node_id = None ->
  in_sync spec_hash node_id w ->
  build collate encrypt decrypt uuid_str to_string mint now node_id w = (Ok spec, w1) ->
  let reconcile := reconcile_push collate encrypt decrypt uuid_str to_string mint spec_hash to_value in
  let w' := (reconcile now event (AgentOk message) node_id w).2 in
  ((reconcile now event (AgentOk message) node_id w).1 = Ok Pushed \/
   (reconcile now event (AgentOk message) node_id w).1 = Ok Unchanged) /\
  in_sync spec_hash node_id w' /\
  (exists s, running w' !! node_id = Some s /\ spec_hash s = spec_hash spec) /\
  (forall now' event' r, same_activity node_id now now' w -> reconcile now' event' r node_id w' = (Ok Unchanged, w')).
Proof.
  intros Hnd Hn Hc Hd Hs Hb reconcile. destruct (build_inv _ _ _ _ _ _ _ _ _ _ _ Hb) as (peers & Hbs & ->).
  destruct (decide (Node.applied_spec_hash node = Some (spec_hash spec))) as [Ha|Ha]; subst reconcile; cbv zeta.
  - erewrite (reconcile_unchanged _ _ _ _ _ _ _ _ now event _ node_id w) by done. cbn [fst snd].
    split; [by right|]. split; [exact Hs|]. split; [exact (Hs _ _ Hn Ha)|].
    intros now' event' r Hact. apply (reconcile_unchanged _ _ _ _ _ _ _ _ now' event' r node_id _ (with_peers peers w) spec node); try done.
    rewrite (build_later _ _ _ _ _ _ now) by exact Hact.
    rewrite (rebuild _ _ _ _ _ _ now node_id w spec peers _ (nodes (tables (plane w)))); [done..|].
    simpl. by destruct (tables (plane w)).
  - rewrite (reconcile_pushed _ _ _ _ _ _ _ _ _ _ _ _ _ _ _ _ Hnd Hd Hc Hbs Hn Ha). cbn [fst snd].
    destruct (pushed_world_node spec_hash to_value now event message node_id spec peers w node Hn) as (n' & Hn' & Ha').
    assert (Hr : running (pushed_world spec_hash to_value now event message node_id spec peers w) !! node_id
                 = Some spec) by apply lookup_insert_eq.
    split; [by left|]. split; [|split; [eauto|]].
    + intros n h Hlk Hh. rewrite Hn' in Hlk. injection Hlk as <-. exists spec. split; [exact Hr|congruence].
    + intros now' event' r Hact. eapply reconcile_unchanged; [apply lookup_delete_eq| |exact Hn'|exact Ha'].
      rewrite (build_later _ _ _ _ _ _ now) by exact Hact. by rewrite pushed_world_rebuild.
Qed.

(** One node, one user, connected and never pushed. *)
Definition sample_world : World := mkWorld sample_plane ∅ {[1 := mkClient (mkStream 0 None) "f1"]} ∅ [] ∅.
Definition sample_mint (_ _ : Uuid) : Uuid * Z * result Keypair wg_error := (1, 0, Err RngFailed).
#[local] Abbreviation sample_built :=
  (build String.leb Some Some (fun _ => "id") (fun _ => Some "{}") sample_mint 0 1).

(** A digest that tells specs apart by the users they serve. *)
Definition sample_hash (s : Pb.NodeSpec) : string :=
  String.concat "," (flat_map (fun i => Pb.name <$> Pb.users i) (Pb.inbounds s)).

Lemma sample_built_ok : exists spec w1, sample_built sample_world = (Ok spec, w1).
Proof. do 2 eexists. vm_compute. reflexivity. Qed.

Lemma sample_node_1 : exists node, nodes (tables (plane sample_world)) !! 1 = Some node /\
  Node.applied_spec_hash node = None.
Proof. eexists. split; vm_compute; reflexivity. Qed.

Lemma reconcile_converges_witness : exists spec w',
  (exists s, running w' !! 1 = Some s /\ sample_hash s = sample_hash spec)
  /\ reconcile_push String.leb Some Some (fun _ => "id") (fun _ => Some "{}") sample_mint sample_hash (fun _ => JNull) 3600 2 AgentRejected 1 w'
     = (Ok Unchanged, w').
Proof.
  destruct sample_built_ok as (spec & w1 & Hb). destruct sample_node_1 as (node & Hn & Ha). exists spec.
  destruct (reconcile_converges String.leb Some Some (fun _ => "id") (fun _ => Some "{}")
    sample_mint sample_hash (fun _ => JNull) 0 1 "ok" 1 sample_world w1 spec node) as (_ & _ & Hr & Hl).
  - apply NoDup_nil_2.
  - exact Hn.
  - vm_compute. reflexivity.
  - vm_compute. reflexivity.
  - intros n h Hlk Hh. rewrite Hn in Hlk. injection Hlk as <-. rewrite Ha in Hh. discriminate.
  - exact Hb.
  - eexists. split; [exact Hr|]. apply Hl. intros row Hrow _. apply in_rows in Hrow as (k & Hk). cbn in Hk.
    apply lookup_singleton_Some in Hk as [_ <-]. reflexivity.
Defined.

(** Run without interruption, the phases of a push are
    [push_with_context]: four of them finish it with the same result and the
    same world. *)
Theorem push_phases_compose (collate : string -> string -> bool) (encrypt decrypt : string -> option string)
    (uuid_str : Uuid -> string) (to_string : json -> option string)
    (mint : Uuid -> Uuid -> Uuid * Z * result Keypair wg_error)
    (spec_hash : Pb.NodeSpec -> string) (to_value : SpecSummary -> json)
    (now event : Z) (r : apply_result) (node_id : Uuid) (source : string) (actor : option Uuid) (w : World) :
  push_phases collate encrypt decrypt uuid_str to_string mint spec_hash to_value 4 now event r node_id source
    actor Queued w
  = (let '(a, w') := push_with_context collate encrypt decrypt uuid_str to_string mint spec_hash to_value
                       now event r node_id source actor w in (Done a, w')).
Proof.
  unfold push_with_context, push_phases, push_phase at 1.
  destruct (build _ _ _ _ _ _ _ _ _) as [[spec|e] w1]; [|done]. cbn [push_phase].
  by destruct (apply _ _ _ _) as [[m|e] w2].
Qed.

Section Race.
Context (spec_hash : Pb.NodeSpec -> string).
#[local] Abbreviation phases n ev :=
  (push_phases String.leb Some Some (fun _ => "id") (fun _ => Some "{}") sample_mint spec_hash
     (fun _ => JNull) n 0 ev (AgentOk "ok") 1 "manual" None).

(** An operator disables the user while push A is in flight; push B, built
    after the edit, reaches the agent before A does and is recorded last. *)
Definition disable_alice (w : World) : World :=
  mkWorld (mkPlane (with_users (alter (fun u => User.mk (User.id u) (User.username u) None None None "inherit" []
                                          (User.uuid u) (User.password u) false 100 40 None 0 None "none" None None
                                          None 0 0) 7) (tables (plane w)))
             (wg_interfaces (plane w)) (wg_peers (plane w)) (node_services (plane w)))
    (push_events w) (conns w) (deferred_pushes w) (certs w) (running w).

Definition race : phase * phase * World :=
  let '(a, w) := phases 1%nat 1 Queued sample_world in
  let '(b, w) := phases 3%nat 2 Queued (disable_alice w) in
  let '(a, w) := phases 3%nat 1 a w in
  let '(b, w) := phases 1%nat 2 b w in
  (a, b, w).
End Race.

Definition serves (name : string) (s : Pb.NodeSpec) : bool :=
  existsb (fun i => existsb (fun u => String.eqb (Pb.name u) name) (Pb.users i)) (Pb.inbounds s).

(** C37: Pushes to one node are not serialized.  There are two overlapping pushes that
    both succeed and leave the agent serving a user who was disabled before the second
    was built, while the recorded hash is the desired one: at any later time, and
    whatever the agent would answer, a reconcile reports the node unchanged and leaves
    everything as it is, the stale spec included. *)
Theorem push_race_stale (spec_hash : Pb.NodeSpec -> string) :
  exists w stale desired,
    race spec_hash = (Done (Ok "ok"), Done (Ok "ok"), w) /\
    running w !! 1 = Some stale /\ serves "alice" stale = true /\
    (forall now, build String.leb Some Some (fun _ => "id") (fun _ => Some "{}") sample_mint now 1 w = (Ok desired, w)) /\
    serves "alice" desired = false /\
    forall now event r,
      reconcile_push String.leb Some Some (fun _ => "id") (fun _ => Some "{}") sample_mint
        spec_hash (fun _ => JNull) now event r 1 w = (Ok Unchanged, w).
Proof.
  do 3 eexists. split; [vm_compute; reflexivity|]. split; [vm_compute; reflexivity|].
  split; [vm_compute; reflexivity|]. split; [intros now; vm_compute; reflexivity|].
  split; [vm_compute; reflexivity|]. intros now event r.
  eapply reconcile_unchanged; vm_compute; reflexivity.
Qed.
