(* ===== verification/Inbounds.v ===== *)
(** * Inbounds: validation, creation, update and multihop chains
    (the inbound handlers and validators of src/master/src/api/mod.rs, the
    inbound queries of src/master/src/db/repo.rs)

    The insert and update carry the constraints of src/master/migrations; the
    ids, credentials and times a query generates are arguments. *)

From S2P Require Import Prelude Strings Json Models Db Api Access Subscription Spec.

(** ** Field checks *)

Definition is_valid_network (n : string) : bool :=
  one_of ["tcp"; "ws"; "grpc"; "http"; "h2"; "httpupgrade"; "xhttp"; "quic"; "mkcp"] n.
Definition is_valid_transport_mode (m : string) : bool :=
  one_of ["auto"; "packet-up"; "stream-up"; "stream-one"] m.
Definition is_valid_utls_fingerprint (f : string) : bool :=
  one_of ["chrome"; "firefox"; "safari"; "ios"; "android"; "edge"; "360"; "qq"; "random"; "randomized"] f.
Definition valid_reality_key (v : string) : bool :=
  (len v =? 43) && all_bytes (fun c => is_alphanumeric c || (code c =? 45) || (code c =? 95)) v.
Definition valid_short_id (v : string) : bool :=
  (2 <=? len v) && (len v <=? 16) && (len v mod 2 =? 0) && all_bytes is_hexdigit v.

Definition validate_vless_flow (kind network : string) (tls_enabled : bool) (flow : string)
    : result unit api_error :=
  let flow := trim flow in
  if is_empty flow then Ok tt
  else if negb (String.eqb kind "vless") then Err (BadRequest "flow is only supported for vless inbounds")
  else if negb (String.eqb flow "xtls-rprx-vision")
  then Err (BadRequest "unsupported VLESS flow; use xtls-rprx-vision or leave it empty")
  else ok_when (String.eqb network "tcp" && tls_enabled)
         "xtls-rprx-vision requires VLESS over TCP with TLS or REALITY".

Definition acme_email (extra : json) : option string :=
  opt_filter (fun s => negb (is_empty (trim s)))
    (match opt_or (match get "acme" extra with Some a => get "email" a | None => None end)
             (get "acme_email" extra) with
     | Some v => as_str v
     | None => None
     end).

Definition is_boolean (v : json) : bool := match v with JBool _ => true | _ => false end.

Definition acme_enabled (extra : json) : bool :=
  is_some_and (get "acme" extra)
    (fun v => negb (is_null v) && negb (match v with JBool false => true | _ => false end)).

Definition flag (k : string) (v : json) : bool :=
  default false (match get k v with Some x => as_bool x | None => None end).

Definition validate_acme_for_core (core : string) (extra : json) : result unit api_error :=
  match opt_filter (fun v => negb (is_null v) && negb (is_boolean v)) (get "acme" extra) with
  | None => Ok tt
  | Some acme =>
      if negb (is_some (acme_email extra)) then Err (BadRequest "acme requires an email (extra.acme.email)")
      else if String.eqb core "singbox" then Ok tt
      else if negb (String.eqb core "xray")
      then Err (BadRequest "acme is supported only by sing-box or xray")
      else if negb (is_object acme) then Err (BadRequest "xray acme settings must be an object")
      else if flag "disable_http_challenge" acme then Err (BadRequest "xray acme supports HTTP-01 only")
      else if is_some (get "dns01_challenge" acme)
      then Err (BadRequest "xray acme does not support DNS-01")
      else ok_when (map_or (get "alternative_http_port" acme) true
                      (fun p => match as_u64 p with Some n => n =? 9080 | None => false end))
             "xray acme alternative_http_port must be 9080"
  end.

(** One text field of [extra.happ] with its length limit. *)
Definition validate_happ_text (happ : json) (key : string) (max : Z) : result unit api_error :=
  match get key happ with
  | None => Ok tt
  | Some value =>
      match as_str value with
      | None => Err (BadRequest ("extra.happ." +:+ key +:+ " must be text"))
      | Some s => ok_when (char_count (trim s) <=? max)
                    ("extra.happ." +:+ key +:+ " must not exceed " +:+ show max +:+ " characters")
      end
  end.

Definition validate_happ (extra : json) : result unit api_error :=
  match get "happ" extra with
  | None => Ok tt
  | Some happ =>
      if negb (is_object happ) then Err (BadRequest "extra.happ must be an object") else
      let? _ := validate_happ_text happ "name" 80 in
      let? _ := validate_happ_text happ "description" 30 in
      match get "country_code" happ with
      | None => Ok tt
      | Some c =>
          match as_str c with
          | None => Err (BadRequest "extra.happ.country_code must be text")
          | Some s => ok_when (is_empty s || ((len s =? 2) && all_bytes (fun c => is_upper c || is_lower c) s))
                        "extra.happ.country_code must be a two-letter ISO code"
          end
      end
  end.

Definition validate_acme_ports (extra : json) : result unit api_error :=
  match get "acme" extra with
  | Some (JObject f) =>
      let acme := JObject f in
      let? _ :=
        match get "alternative_http_port" acme with
        | None => Ok tt
        | Some p =>
            match as_u64 p with
            | None => Err (BadRequest "extra.acme.alternative_http_port must be a port")
            | Some n => ok_when (port_ok n)
                          "extra.acme.alternative_http_port must be between 1 and 65535"
            end
        end in
      ok_when (negb (flag "disable_http_challenge" acme && flag "disable_tls_alpn_challenge" acme
                     && negb (is_some (get "dns01_challenge" acme))))
        "ACME cannot disable both HTTP-01 and TLS-ALPN-01 without DNS-01"
  | _ => Ok tt
  end.

Definition validate_inbound_basics (tag kind core : string) (port : Z) (extra : json)
    : result unit api_error :=
  bail (BadRequest "inbound tag and kind must not be empty")
    when is_empty (trim tag) || is_empty (trim kind) in
  bail (BadRequest "core must be singbox or xray") when negb (one_of ["singbox"; "xray"] core) in
  bail (BadRequest "listen_port must be between 1 and 65535") when negb (port_ok port) in
  bail (BadRequest "extra must be a JSON object") when negb (is_object extra) in
  let? _ := validate_happ extra in
  validate_acme_ports extra.

Definition core_kinds (core : string) : list string :=
  if String.eqb core "singbox"
  then ["vless"; "hysteria2"; "vmess"; "trojan"; "shadowsocks"; "tuic"; "anytls"; "shadowtls"]
  else if String.eqb core "xray" then ["vless"; "vmess"; "trojan"; "shadowsocks"] else [].

Definition core_networks (core : string) : list string :=
  if String.eqb core "singbox" then ["tcp"; "ws"; "grpc"; "http"; "h2"; "httpupgrade"; "quic"]
  else if String.eqb core "xray"
  then ["tcp"; "ws"; "grpc"; "http"; "h2"; "httpupgrade"; "xhttp"; "quic"; "mkcp"] else [].

(** [is_none_or(str::is_empty)]. *)
Definition blank (o : option string) : bool := map_or o true is_empty.

Definition validate_effective_security (kind core : string) (tls_enabled : bool)
    (server_name cert_path key_path : option string) (reality : bool)
    (reality_private_key reality_public_key : option string) (reality_short_ids : list string)
    (reality_handshake_server : option string) (network : string) (acme : bool)
    : result unit api_error :=
  bail (BadRequest ("protocol '" +:+ kind +:+ "' is not supported by core '" +:+ core +:+ "'"))
    when negb (one_of (core_kinds core) kind) in
  bail (BadRequest ("transport '" +:+ network +:+ "' is not supported by core '" +:+ core +:+ "'"))
    when negb (one_of (core_networks core) network) in
  bail (BadRequest "hysteria2 requires tls_enabled=true")
    when String.eqb kind "hysteria2" && negb tls_enabled in
  bail (BadRequest "hysteria2 does not support reality")
    when String.eqb kind "hysteria2" && reality in
  bail (BadRequest "tls requires both cert_path and key_path (or enable acme)")
    when tls_enabled && negb reality && negb acme && (blank cert_path || blank key_path) in
  if negb reality then Ok tt else
  bail (BadRequest "reality is supported only with vless") when negb (String.eqb kind "vless") in
  bail (BadRequest "reality requires server_name") when blank server_name in
  bail (BadRequest "reality requires reality_handshake_server") when blank reality_handshake_server in
  bail (BadRequest "reality_private_key must be an unpadded base64url X25519 key")
    when negb (is_some_and reality_private_key valid_reality_key) in
  bail (BadRequest "reality_public_key must be an unpadded base64url X25519 key")
    when negb (is_some_and reality_public_key valid_reality_key) in
  bail (BadRequest "reality_short_ids must contain even-length hexadecimal IDs (2-16 chars)")
    when negb (nonempty reality_short_ids) || negb (forallb valid_short_id reality_short_ids) in
  ok_when (negb (String.eqb core "xray") || one_of ["tcp"; "xhttp"; "grpc"] network)
    "xray reality supports only tcp, xhttp, or grpc transport".

(** ** Whole inputs *)

Definition duration_byte (c : ascii) : bool :=
  is_digit c || existsb (Ascii.eqb c) ["s"; "m"; "h"; "d"; "."]%char.

Definition validate_inbound (i : NewInbound.NewInbound) : result unit api_error :=
  let reality := NewInbound.reality i in
  let tls := NewInbound.tls_enabled i in
  let extra := NewInbound.extra i in
  let? _ := validate_inbound_basics (NewInbound.tag i) (NewInbound.kind i) (NewInbound.core i)
              (NewInbound.listen_port i) extra in
  bail (BadRequest "reality requires tls_enabled=true") when reality && negb tls in
  bail (BadRequest "reality_private_key is required")
    when reality && is_empty (default "" (NewInbound.reality_private_key i)) in
  bail (BadRequest "reality_public_key is required")
    when reality && is_empty (default "" (NewInbound.reality_public_key i)) in
  let acme := acme_enabled extra in
  let? _ :=
    if acme then
      bail (BadRequest "acme and reality are mutually exclusive") when reality in
      bail (BadRequest "acme requires tls_enabled=true") when negb tls in
      bail (BadRequest "acme requires a server_name (the domain to certify)")
        when is_empty (trim (default "" (NewInbound.server_name i))) in
      bail (BadRequest "acme requires an email (extra.acme.email)")
        when negb (is_some (acme_email extra)) in
      validate_acme_for_core (NewInbound.core i) extra
    else Ok tt in
  let? _ := validate_effective_security (NewInbound.kind i) (NewInbound.core i) tls
              (NewInbound.server_name i) (NewInbound.cert_path i) (NewInbound.key_path i) reality
              (NewInbound.reality_private_key i) (NewInbound.reality_public_key i)
              (NewInbound.reality_short_ids i) (NewInbound.reality_handshake_server i)
              (NewInbound.network i) acme in
  bail (BadRequest "network must be one of tcp/ws/grpc/http/h2/httpupgrade/xhttp/quic/mkcp")
    when negb (is_valid_network (NewInbound.network i)) in
  bail (BadRequest "transport_mode must be one of auto/packet-up/stream-up/stream-one")
    when is_some_and (NewInbound.transport_mode i) (fun m => negb (is_valid_transport_mode m)) in
  bail (BadRequest "utls_fingerprint must be one of chrome/firefox/safari/ios/android/edge/360/qq/random/randomized")
    when is_some_and (NewInbound.utls_fingerprint i) (fun f => negb (is_valid_utls_fingerprint f)) in
  let? _ := validate_vless_flow (NewInbound.kind i) (NewInbound.network i) tls (NewInbound.flow i) in
  bail (BadRequest "shadowtls_handshake_port must be between 1 and 65535")
    when is_some_and (NewInbound.shadowtls_handshake_port i) (fun p => negb (port_ok p)) in
  bail (BadRequest "shadowtls requires a handshake server")
    when String.eqb (NewInbound.kind i) "shadowtls"
         && is_empty (default "" (NewInbound.shadowtls_handshake_server i)) in
  bail (BadRequest "udp_idle_timeout must not be empty")
    when is_empty (trim (NewInbound.udp_idle_timeout i)) in
  ok_when ((len (NewInbound.udp_idle_timeout i) <=? 32)
           && all_bytes duration_byte (NewInbound.udp_idle_timeout i))
    "udp_idle_timeout must be a duration such as 60s or 5m".

Definition patch_is {T} (p : Patch T) (f : T -> bool) : bool :=
  match p with Value v => f v | _ => false end.

Definition validate_update_inbound (i : UpdateInbound.UpdateInbound) : result unit api_error :=
  bail (BadRequest "inbound tag and kind must not be empty")
    when is_some_and (UpdateInbound.tag i) (fun v => is_empty (trim v))
         || is_some_and (UpdateInbound.kind i) (fun v => is_empty (trim v)) in
  bail (BadRequest "core must be singbox or xray")
    when is_some_and (UpdateInbound.core i) (fun v => negb (one_of ["singbox"; "xray"] v)) in
  bail (BadRequest "udp_idle_timeout must not be empty")
    when is_some_and (UpdateInbound.udp_idle_timeout i) (fun v => is_empty (trim v)) in
  bail (BadRequest "listen_port must be between 1 and 65535")
    when is_some_and (UpdateInbound.listen_port i) (fun v => negb (port_ok v)) in
  bail (BadRequest "extra must be a JSON object")
    when is_some_and (UpdateInbound.extra i) (fun v => negb (is_object v)) in
  bail (BadRequest "reality_handshake_port must be between 1 and 65535")
    when patch_is (UpdateInbound.reality_handshake_port i) (fun v => negb (port_ok v)) in
  bail (BadRequest "unsupported network transport")
    when is_some_and (UpdateInbound.network i) (fun n => negb (is_valid_network n)) in
  bail (BadRequest "transport_mode must be one of auto/packet-up/stream-up/stream-one")
    when patch_is (UpdateInbound.transport_mode i) (fun m => negb (is_valid_transport_mode m)) in
  bail (BadRequest "utls_fingerprint must be one of chrome/firefox/safari/ios/android/edge/360/qq/random/randomized")
    when patch_is (UpdateInbound.utls_fingerprint i) (fun f => negb (is_valid_utls_fingerprint f)) in
  bail (BadRequest "unsupported VLESS flow; use xtls-rprx-vision or leave it empty")
    when is_some_and (UpdateInbound.flow i)
           (fun f => negb (is_empty (trim f)) && negb (String.eqb f "xtls-rprx-vision")) in
  ok_when (negb (patch_is (UpdateInbound.shadowtls_handshake_port i) (fun p => negb (port_ok p))))
    "shadowtls_handshake_port must be between 1 and 65535".

Definition validate_effective_update (current : Inbound.Inbound) (i : UpdateInbound.UpdateInbound)
    : result unit api_error :=
  let kind := coalesce (UpdateInbound.kind i) (Inbound.kind current) in
  let core := coalesce (UpdateInbound.core i) (Inbound.core current) in
  let tls := coalesce (UpdateInbound.tls_enabled i) (Inbound.tls_enabled current) in
  let network := coalesce (UpdateInbound.network i) (Inbound.network current) in
  let extra := coalesce (UpdateInbound.extra i) (Inbound.extra current) in
  let? _ := validate_vless_flow kind network tls (coalesce (UpdateInbound.flow i) (Inbound.flow current)) in
  let? _ := validate_effective_security kind core tls
              (effective (UpdateInbound.server_name i) (Inbound.server_name current))
              (effective (UpdateInbound.cert_path i) (Inbound.cert_path current))
              (effective (UpdateInbound.key_path i) (Inbound.key_path current))
              (coalesce (UpdateInbound.reality i) (Inbound.reality current))
              (effective (UpdateInbound.reality_private_key i) (Inbound.reality_private_key current))
              (effective (UpdateInbound.reality_public_key i) (Inbound.reality_public_key current))
              (coalesce (UpdateInbound.reality_short_ids i) (Inbound.reality_short_ids current))
              (effective (UpdateInbound.reality_handshake_server i) (Inbound.reality_handshake_server current))
              network (acme_enabled extra) in
  validate_acme_for_core core extra.

(** ** Queries *)

Section Queries.
Context (encrypt decrypt : string -> option string).

Definition get_inbound (id : Uuid) (db : Db) : result (option Inbound.Inbound) db_error :=
  match inbounds db !! id with
  | None => Ok None
  | Some i => let? i' := decrypt_inbound decrypt i in Ok (Some i')
  end.

Definition encrypt_opt (o : option string) : result (option string) db_error :=
  match o with
  | None => Ok None
  | Some s => match encrypt s with Some e => Ok (Some e) | None => Err DecryptFailed end
  end.

(** A fresh credential, from the two uuids generated for it. *)
Definition chain_credential (upstream : option Uuid) (fresh : string * string)
    : result (option string * option string) db_error :=
  if is_some upstream then
    let? password := encrypt_opt (Some fresh.2) in Ok (Some fresh.1, password)
  else Ok (None, None).

(** The table's constraints on a row that is to replace or join it. *)
Definition row_violation (db : Db) (i : Inbound.Inbound) : option db_error :=
  let others := List.filter (fun j => negb (Inbound.id j =? Inbound.id i)
                               && (Inbound.node_id j =? Inbound.node_id i)) (rows (inbounds db)) in
  if negb (port_ok (Inbound.listen_port i)) || (Inbound.reality i && negb (Inbound.tls_enabled i))
     || negb (one_of ["singbox"; "xray"] (Inbound.core i)) || negb (is_valid_network (Inbound.network i))
     || negb (map_or (Inbound.shadowtls_handshake_port i) true port_ok)
  then Some CheckViolation
  else if negb (is_some (nodes db !! Inbound.node_id i))
          || negb (map_or (Inbound.upstream_inbound_id i) true
                     (fun u => is_some (inbounds db !! u) || (u =? Inbound.id i)))
  then Some ForeignKeyViolation
  else if existsb (fun j => String.eqb (Inbound.tag j) (Inbound.tag i)
                            || (Inbound.listen_port j =? Inbound.listen_port i)) others
  then Some UniqueViolation
  else None.

Definition write_inbound (db : Db) (i : Inbound.Inbound) : result Db db_error :=
  match row_violation db i with
  | Some e => Err e
  | None => Ok (with_inbounds <[Inbound.id i := i]> db)
  end.

(** INSERT or UPDATE, RETURNING the row; when the row's secrets do not decrypt, the
    answer is an error but the row is written. *)
Definition write_returning (db : Db) (i : Inbound.Inbound) : result Inbound.Inbound db_error * Db :=
  match write_inbound db i with
  | Err e => (Err e, db)
  | Ok db' => (decrypt_inbound decrypt i, db')
  end.

Definition timeout_or_default (t : string) : string := if is_empty (trim t) then "60s" else t.

(** The row an INSERT writes; [key] is the encrypted REALITY key. *)
Definition inserted_row (id now : Z) (key : option string) (cred : option string * option string)
    (n : NewInbound.NewInbound) : Inbound.Inbound :=
  Inbound.mk id (NewInbound.node_id n) (NewInbound.tag n) [] (NewInbound.kind n)
    (NewInbound.core n) "::" (NewInbound.listen_port n) (NewInbound.flow n)
    (NewInbound.tls_enabled n) (NewInbound.server_name n) (NewInbound.cert_path n)
    (NewInbound.key_path n) (NewInbound.reality n) key (NewInbound.reality_public_key n)
    (NewInbound.reality_short_ids n) (NewInbound.reality_handshake_server n)
    (NewInbound.reality_handshake_port n) (NewInbound.network n) (NewInbound.transport_path n)
    (NewInbound.transport_host n) (NewInbound.transport_service_name n)
    (NewInbound.transport_mode n) (NewInbound.ech n) (NewInbound.utls_fingerprint n)
    (NewInbound.shadowtls_handshake_server n) (NewInbound.shadowtls_handshake_port n)
    (NewInbound.extra n) true None None None (NewInbound.fallback_host n)
    (NewInbound.sni_pool n) (NewInbound.cdn_pool n) (Z.max (NewInbound.up_mbps n) 0)
    (Z.max (NewInbound.down_mbps n) 0) (timeout_or_default (NewInbound.udp_idle_timeout n))
    (NewInbound.upstream_inbound_id n) cred.1 cred.2 now now.

Definition create_inbound_row (id now : Z) (fresh : string * string) (n : NewInbound.NewInbound)
    (db : Db) : result Inbound.Inbound db_error * Db :=
  match (let? key := encrypt_opt (NewInbound.reality_private_key n) in
         let? cred := chain_credential (NewInbound.upstream_inbound_id n) fresh in
         Ok (inserted_row id now key cred n)) with
  | Err e => (Err e, db)
  | Ok row => if is_some (inbounds db !! id) then (Err UniqueViolation, db) else write_returning db row
  end.

(** The row an UPDATE writes; [key] is the patched, encrypted REALITY key and
    [cred] the credential of a patched upstream. *)
Definition updated_row (now : Z) (key : Patch string) (cred : option string * option string)
    (u : UpdateInbound.UpdateInbound) (i : Inbound.Inbound) : Inbound.Inbound :=
  let up_set := match UpdateInbound.upstream_inbound_id u with Missing => false | _ => true end in
  Inbound.mk (Inbound.id i) (Inbound.node_id i) (coalesce (UpdateInbound.tag u) (Inbound.tag i))
    (Inbound.labels i) (coalesce (UpdateInbound.kind u) (Inbound.kind i))
    (coalesce (UpdateInbound.core u) (Inbound.core i)) (Inbound.listen i)
    (coalesce (UpdateInbound.listen_port u) (Inbound.listen_port i))
    (coalesce (UpdateInbound.flow u) (Inbound.flow i))
    (coalesce (UpdateInbound.tls_enabled u) (Inbound.tls_enabled i))
    (effective (UpdateInbound.server_name u) (Inbound.server_name i))
    (effective (UpdateInbound.cert_path u) (Inbound.cert_path i))
    (effective (UpdateInbound.key_path u) (Inbound.key_path i))
    (coalesce (UpdateInbound.reality u) (Inbound.reality i))
    (effective key (Inbound.reality_private_key i))
    (effective (UpdateInbound.reality_public_key u) (Inbound.reality_public_key i))
    (coalesce (UpdateInbound.reality_short_ids u) (Inbound.reality_short_ids i))
    (effective (UpdateInbound.reality_handshake_server u) (Inbound.reality_handshake_server i))
    (effective (UpdateInbound.reality_handshake_port u) (Inbound.reality_handshake_port i))
    (coalesce (UpdateInbound.network u) (Inbound.network i))
    (effective (UpdateInbound.transport_path u) (Inbound.transport_path i))
    (effective (UpdateInbound.transport_host u) (Inbound.transport_host i))
    (effective (UpdateInbound.transport_service_name u) (Inbound.transport_service_name i))
    (effective (UpdateInbound.transport_mode u) (Inbound.transport_mode i))
    (coalesce (UpdateInbound.ech u) (Inbound.ech i))
    (effective (UpdateInbound.utls_fingerprint u) (Inbound.utls_fingerprint i))
    (effective (UpdateInbound.shadowtls_handshake_server u) (Inbound.shadowtls_handshake_server i))
    (effective (UpdateInbound.shadowtls_handshake_port u) (Inbound.shadowtls_handshake_port i))
    (coalesce (UpdateInbound.extra u) (Inbound.extra i))
    (coalesce (UpdateInbound.enabled u) (Inbound.enabled i)) (Inbound.reachable i)
    (Inbound.reach_checked_at i) (Inbound.reach_error i)
    (effective (UpdateInbound.fallback_host u) (Inbound.fallback_host i))
    (coalesce (UpdateInbound.sni_pool u) (Inbound.sni_pool i))
    (coalesce (UpdateInbound.cdn_pool u) (Inbound.cdn_pool i))
    (coalesce ((fun v => Z.max v 0) <$> UpdateInbound.up_mbps u) (Inbound.up_mbps i))
    (coalesce ((fun v => Z.max v 0) <$> UpdateInbound.down_mbps u) (Inbound.down_mbps i))
    (coalesce (timeout_or_default <$> UpdateInbound.udp_idle_timeout u) (Inbound.udp_idle_timeout i))
    (effective (UpdateInbound.upstream_inbound_id u) (Inbound.upstream_inbound_id i))
    (if up_set then cred.1 else Inbound.chain_uuid i)
    (if up_set then cred.2 else Inbound.chain_password i) (Inbound.created_at i) now.

Definition encrypt_patch (p : Patch string) : result (Patch string) db_error :=
  match p with
  | Value v => match encrypt v with Some e => Ok (Value e) | None => Err DecryptFailed end
  | p => Ok p
  end.

Definition update_inbound_row (id now : Z) (fresh : string * string)
    (u : UpdateInbound.UpdateInbound) (db : Db) : result (option Inbound.Inbound) db_error * Db :=
  match (let? key := encrypt_patch (UpdateInbound.reality_private_key u) in
         let? cred := chain_credential (effective (UpdateInbound.upstream_inbound_id u) None) fresh in
         Ok (key, cred)) with
  | Err e => (Err e, db)
  | Ok (key, cred) =>
      match inbounds db !! id with
      | None => (Ok None, db)
      | Some i =>
          match write_returning db (updated_row now key cred u i) with
          | (Ok shown, db') => (Ok (Some shown), db')
          | (Err e, db') => (Err e, db')
          end
      end
  end.

(** ** Multihop targets *)

Definition CHAINABLE : list string := ["vless"; "vmess"; "trojan"; "hysteria2"; "tuic"; "shadowsocks"].

(** The loop over the chain: the hop it stops at. *)
Fixpoint walk_chain (fuel : nat) (self_id : Uuid) (hop : option Uuid) (db : Db)
    : result (option Uuid) api_error :=
  match fuel with
  | O => Ok hop
  | S fuel =>
      match hop with
      | None => Ok None
      | Some next =>
          if next =? self_id then Err (BadRequest "that chain leads back here (cycle)") else
          let? found := lift_db (get_inbound next db) in
          match found with
          | Some ib => walk_chain fuel self_id (Inbound.upstream_inbound_id ib) db
          | None => Ok hop
          end
      end
  end.

Definition validate_upstream (upstream_id self_id : option Uuid) (entry_core : string) (db : Db)
    : result unit api_error :=
  match upstream_id with
  | None => Ok tt
  | Some upstream =>
      bail (BadRequest "multihop entry must run on sing-box (the chain outbound is sing-box)")
        when String.eqb entry_core "xray" in
      bail (BadRequest "an inbound cannot chain to itself")
        when is_some_and self_id (fun s => s =? upstream) in
      let? found := lift_db (get_inbound upstream db) in
      match found with
      | None => Err (BadRequest "upstream inbound not found")
      | Some exit_ =>
          bail (BadRequest "multihop exit must run on sing-box")
            when negb (String.eqb (Inbound.core exit_) "singbox") in
          bail (BadRequest ("protocol '" +:+ Inbound.kind exit_ +:+ "' cannot be a multihop exit"))
            when negb (one_of CHAINABLE (Inbound.kind exit_)) in
          match self_id with
          | None => Ok tt
          | Some self =>
              let? hop := walk_chain 8 self (Inbound.upstream_inbound_id exit_) db in
              ok_when (negb (is_some hop)) "multihop chain is too deep (max 8 hops)"
          end
      end
  end.

(** ** Handlers (pushes, versions and audit entries aside) *)

Definition create_inbound (id now : Z) (fresh : string * string) (n : NewInbound.NewInbound) (db : Db)
    : result Inbound.Inbound api_error * Db :=
  match (let? _ := validate_inbound n in
         validate_upstream (NewInbound.upstream_inbound_id n) None (NewInbound.core n) db) with
  | Err e => (Err e, db)
  | Ok _ => let (r, db') := create_inbound_row id now fresh n db in (lift_db r, db')
  end.

(** The checks before the row is written. *)
Definition check_update (id : Uuid) (u : UpdateInbound.UpdateInbound) (db : Db) : result unit api_error :=
  let? _ := validate_update_inbound u in
  let? found := lift_db (get_inbound id db) in
  match found with
  | None => Err (NotFound "inbound not found")
  | Some current =>
      let? _ := validate_effective_update current u in
      match UpdateInbound.upstream_inbound_id u with
      | Value upstream =>
          validate_upstream (Some upstream) (Some id)
            (coalesce (UpdateInbound.core u) (Inbound.core current)) db
      | _ => Ok tt
      end
  end.

Definition update_inbound (id now : Z) (fresh : string * string) (u : UpdateInbound.UpdateInbound)
    (db : Db) : result Inbound.Inbound api_error * Db :=
  match check_update id u db with
  | Err e => (Err e, db)
  | Ok _ =>
      let (r, db') := update_inbound_row id now fresh u db in
      ((let? o := lift_db r in match o with Some i => Ok i | None => Err (NotFound "inbound not found") end), db')
  end.
End Queries.

(** ** Chains stay finite *)

Definition upstream_of (db : Db) (k : Uuid) : option Uuid :=
  match inbounds db !! k with Some i => Inbound.upstream_inbound_id i | None => None end.

(** The chain from an inbound reaches an exit. *)
Inductive ends (db : Db) : Uuid -> Prop :=
| ends_here k : upstream_of db k = None -> ends db k
| ends_next k u : upstream_of db k = Some u -> ends db u -> ends db k.

(** It does so without passing through [self]. *)
Inductive ends_avoiding (db : Db) (self : Uuid) : Uuid -> Prop :=
| avoid_here k : k <> self -> upstream_of db k = None -> ends_avoiding db self k
| avoid_next k u : k <> self -> upstream_of db k = Some u -> ends_avoiding db self u ->
    ends_avoiding db self k.

Definition acyclic (db : Db) : Prop := forall k, ends db k.

(** Rows sit under their id and refer to rows that exist. *)
Definition chain_inv (db : Db) : Prop :=
  (forall k i, inbounds db !! k = Some i -> Inbound.id i = k) /\
  (forall k u, upstream_of db k = Some u -> is_Some (inbounds db !! u)) /\
  acyclic db.

Lemma ends_shrink db db' :
  (forall k, upstream_of db' k = upstream_of db k \/ upstream_of db' k = None) ->
  acyclic db -> acyclic db'.
Proof.
  intros H Ha k. specialize (Ha k). induction Ha as [k Hk|k u Hk _ IH].
  - apply ends_here. destruct (H k); congruence.
  - destruct (H k) as [Hs|Hs]; [|by apply ends_here]. apply (ends_next _ _ u); [congruence|done].
Qed.

Lemma ends_avoiding_kept db db' self k :
  (forall j, j <> self -> upstream_of db' j = upstream_of db j) ->
  ends_avoiding db self k -> ends db' k.
Proof.
  intros H. induction 1 as [k Hne Hk|k u Hne Hk _ IH].
  - apply ends_here. by rewrite H.
  - apply (ends_next _ _ u); [by rewrite H|done].
Qed.

(** Pointing one inbound at a chain that avoids it keeps chains finite. *)
Lemma acyclic_redirect db db' self :
  (forall j, j <> self -> upstream_of db' j = upstream_of db j) ->
  (forall u, upstream_of db' self = Some u -> ends_avoiding db self u) ->
  acyclic db -> acyclic db'.
Proof.
  intros Hkeep Hself Ha.
  assert (Hs : ends db' self).
  { destruct (upstream_of db' self) as [u|] eqn:E; [|by apply ends_here].
    apply (ends_next _ _ u); [done|]. by eapply ends_avoiding_kept; eauto. }
  intros k. specialize (Ha k). induction Ha as [k Hk|k u Hk _ IH].
  - destruct (Z.eq_dec k self) as [->|Hne]; [done|]. apply ends_here. by rewrite Hkeep.
  - destruct (Z.eq_dec k self) as [->|Hne]; [done|]. apply (ends_next _ _ u); [by rewrite Hkeep|done].
Qed.

Section Chains.
Context (encrypt decrypt : string -> option string).

Lemma get_inbound_some id db i :
  get_inbound decrypt id db = Ok (Some i) ->
  exists row, inbounds db !! id = Some row /\ decrypt_inbound decrypt row = Ok i /\
    upstream_of db id = Inbound.upstream_inbound_id i.
Proof.
  unfold get_inbound, upstream_of. destruct (inbounds db !! id) as [row|]; [|done].
  destruct (decrypt_inbound decrypt row) as [i'|] eqn:Ed; [|done]. intros H. injection H as <-.
  exists row. split; [done|]. split; [done|]. unfold decrypt_inbound in Ed.
  destruct (decrypt_opt _ _); [|done]. destruct (decrypt_opt _ _); [|done]. by injection Ed as <-.
Qed.

Lemma walk_chain_avoids fuel self db : forall hop,
  walk_chain decrypt fuel self hop db = Ok None -> forall h, hop = Some h -> ends_avoiding db self h.
Proof.
  induction fuel as [|fuel IH]; simpl; intros hop H h ->; [done|].
  destruct (Z.eqb_spec h self) as [|Hne]; [done|].
  unfold lift_db, lift in H. destruct (get_inbound decrypt h db) as [[ib|]|] eqn:Eg; try done.
  apply get_inbound_some in Eg as (row & _ & _ & Hu).
  destruct (Inbound.upstream_inbound_id ib) as [u|] eqn:E.
  - apply (avoid_next _ _ _ u); [done..|]. by apply (IH _ H).
  - by apply avoid_here.
Qed.

Lemma validate_upstream_self up self core db :
  validate_upstream decrypt (Some up) (Some self) core db = Ok tt ->
  is_Some (inbounds db !! up) /\ ends_avoiding db self up.
Proof.
  unfold validate_upstream. destruct (String.eqb core "xray"); [done|]. cbn [is_some_and].
  destruct (Z.eqb_spec self up) as [|Hne]; [done|].
  unfold lift_db, lift. destruct (get_inbound decrypt up db) as [[ex|]|] eqn:Eg; try done.
  apply get_inbound_some in Eg as (row & Hrow & _ & Hu).
  destruct (negb _); [done|]. destruct (negb _); [done|].
  destruct (walk_chain _ _ _ _ _) as [[h|]|] eqn:Ew; try done. intros _.
  split; [eauto|]. destruct (Inbound.upstream_inbound_id ex) as [u|] eqn:E.
  - apply (avoid_next _ _ _ u); [done..|]. by eapply walk_chain_avoids.
  - by apply avoid_here.
Qed.

Lemma validate_upstream_new up core db :
  validate_upstream decrypt (Some up) None core db = Ok tt -> is_Some (inbounds db !! up).
Proof.
  unfold validate_upstream. destruct (String.eqb core "xray"); [done|]. simpl.
  unfold lift_db, lift. destruct (get_inbound decrypt up db) as [[ex|]|] eqn:Eg; try done.
  apply get_inbound_some in Eg as (row & Hrow & _). eauto.
Qed.

Lemma write_inbound_ok db i db' :
  write_inbound db i = Ok db' ->
  db' = with_inbounds <[Inbound.id i := i]> db /\ row_violation db i = None.
Proof. unfold write_inbound. destruct (row_violation db i); [done|]. intros H. by injection H as <-. Qed.

Lemma upstream_of_insert db i k :
  upstream_of (with_inbounds <[Inbound.id i := i]> db) k
  = if k =? Inbound.id i then Inbound.upstream_inbound_id i else upstream_of db k.
Proof.
  unfold upstream_of. simpl. destruct (Z.eqb_spec k (Inbound.id i)) as [->|Hne].
  - by rewrite lookup_insert_eq.
  - by rewrite lookup_insert_ne.
Qed.

(** A row written under its id keeps the invariant when its chain avoids it. *)
Lemma chain_inv_write db i :
  chain_inv db ->
  (forall u, Inbound.upstream_inbound_id i = Some u ->
     is_Some (inbounds db !! u) /\ ends_avoiding db (Inbound.id i) u) ->
  chain_inv (with_inbounds <[Inbound.id i := i]> db).
Proof.
  intros (Hk & Hfk & Ha) Hu. split; [|split].
  - intros k j. simpl. intros H. apply lookup_insert_Some in H as [[<- <-]|[_ H]]; eauto.
  - intros k u H. rewrite upstream_of_insert in H. simpl.
    apply lookup_insert_is_Some'. right.
    destruct (k =? Inbound.id i); [by destruct (Hu u H)|by eapply Hfk].
  - apply (acyclic_redirect db _ (Inbound.id i)); [..|done].
    + intros j Hj. rewrite upstream_of_insert. by apply Z.eqb_neq in Hj as ->.
    + intros u H. rewrite upstream_of_insert, Z.eqb_refl in H. by apply Hu.
Qed.
End Chains.

Lemma fresh_avoided db id u :
  chain_inv db -> inbounds db !! id = None -> is_Some (inbounds db !! u) -> ends_avoiding db id u.
Proof.
  intros (_ & Hfk & Ha) Hid Hu. pose proof (Ha u) as He.
  assert (Hne : forall k, is_Some (inbounds db !! k) -> k <> id).
  { intros k [i Hi] ->. congruence. }
  induction He as [k Hk|k v Hk _ IH].
  - apply avoid_here; auto.
  - apply (avoid_next _ _ _ v); [auto|done|]. apply IH. by eapply Hfk.
Qed.

Lemma lookup_unchained (m : gmap Uuid Inbound.Inbound) gone k :
  (unchain gone <$> m) !! k = unchain gone <$> m !! k.
Proof. apply lookup_fmap. Qed.

(** Removing rows, and the references to them, only shortens chains. *)
Lemma chain_inv_remove (db db' : Db) (gone : gmap Uuid Inbound.Inbound) :
  chain_inv db ->
  (forall k, inbounds db' !! k = if is_some (gone !! k) then None else unchain gone <$> inbounds db !! k) ->
  chain_inv db'.
Proof.
  intros (Hk & Hfk & Ha) H.
  assert (Hup : forall k, upstream_of db' k =
    if is_some (gone !! k) then None
    else opt_filter (fun u => negb (is_some (gone !! u))) (upstream_of db k)).
  { intros k. unfold upstream_of. rewrite H. destruct (is_some (gone !! k)); [done|].
    by destruct (inbounds db !! k). }
  split; [|split].
  - intros k i Hi. rewrite H in Hi. destruct (is_some _); [done|].
    destruct (inbounds db !! k) as [j|] eqn:Ej; [|done]. injection Hi as <-. simpl. eauto.
  - intros k u Hu. rewrite Hup in Hu. destruct (is_some (gone !! k)); [done|].
    destruct (upstream_of db k) as [v|] eqn:Ev; [|done]. simpl in Hu.
    destruct (is_some (gone !! v)) eqn:Eg; [done|]. injection Hu as <-.
    rewrite H, Eg. destruct (Hfk k v Ev) as [j ->]. eauto.
  - eapply ends_shrink; [|exact Ha]. intros k. rewrite Hup.
    destruct (is_some (gone !! k)); [by right|].
    destruct (upstream_of db k) as [v|]; [|by left]. simpl.
    destruct (is_some (gone !! v)); [by right|by left].
Qed.

Lemma chain_inv_delete_inbound id db : chain_inv db -> chain_inv (delete_inbound id db).2.
Proof.
  intros Hinv. unfold delete_inbound. destruct (inbounds db !! id) as [i|] eqn:Ei; [|done]. simpl.
  apply (chain_inv_remove db _ {[id := i]} Hinv). intros k. simpl. rewrite lookup_fmap.
  destruct (Z.eq_dec k id) as [->|Hne].
  - by rewrite lookup_delete_eq, lookup_singleton_eq.
  - by rewrite lookup_delete_ne, lookup_singleton_ne.
Qed.

Lemma chain_inv_delete_node id db : chain_inv db -> chain_inv (delete_node id db).2.
Proof.
  intros Hinv. unfold delete_node. destruct (nodes db !! id); [|done]. simpl.
  apply (chain_inv_remove db _ (filter (fun ki => (Inbound.node_id ki.2 =? id) = true) (inbounds db)) Hinv).
  intros k. simpl. rewrite lookup_fmap, !map_lookup_filter.
  destruct (inbounds db !! k) as [i|]; [|done]. simpl. unfold guard.
  destruct (Inbound.node_id i =? id); simpl; done.
Qed.

(** What changes the inbounds table; a request may fail and still have written. *)
Inductive inbound_step (encrypt decrypt : string -> option string) : Db -> Db -> Prop :=
| step_create id now fresh n db r db' :
    create_inbound encrypt decrypt id now fresh n db = (r, db') ->
    inbound_step encrypt decrypt db db'
| step_update id now fresh u db r db' :
    update_inbound encrypt decrypt id now fresh u db = (r, db') ->
    inbound_step encrypt decrypt db db'
| step_delete id db : inbound_step encrypt decrypt db (delete_inbound id db).2
| step_delete_node id db : inbound_step encrypt decrypt db (delete_node id db).2.

Lemma write_returning_cases decrypt db i r db' : write_returning decrypt db i = (r, db') ->
  db' = db /\ is_ok r = false \/ db' = with_inbounds <[Inbound.id i := i]> db /\ r = decrypt_inbound decrypt i.
Proof.
  unfold write_returning. destruct (write_inbound db i) as [db1|] eqn:E; [|intros [= <- <-]; by left].
  apply write_inbound_ok in E as [-> _]. intros [= <- <-]. by right.
Qed.

(** A creation writes nothing and fails, or writes the new row. *)
Lemma create_inbound_cases encrypt decrypt id now fresh n db r db' :
  create_inbound encrypt decrypt id now fresh n db = (r, db') ->
  db' = db /\ is_ok r = false \/
  validate_inbound n = Ok tt /\ inbounds db !! id = None /\
  (forall u, NewInbound.upstream_inbound_id n = Some u -> is_Some (inbounds db !! u)) /\
  exists key cred, db' = with_inbounds <[id := inserted_row id now key cred n]> db.
Proof.
  unfold create_inbound. destruct (validate_inbound n) as [[]|]; [|intros [= <- <-]; by left].
  destruct (validate_upstream _ _ _ _ _) as [[]|] eqn:Eu; [|intros [= <- <-]; by left]. unfold create_inbound_row.
  destruct (encrypt_opt _ _) as [key|]; [|intros [= <- <-]; by left].
  destruct (chain_credential _ _ _) as [cred|]; [|intros [= <- <-]; by left].
  destruct (inbounds db !! id) eqn:En; [intros [= <- <-]; by left|]. cbn [is_some].
  destruct (write_returning _ _ _) as [r1 db1] eqn:Ew. intros [= <- <-].
  apply write_returning_cases in Ew as [[-> Hr]|[-> _]]; [left; by destruct r1|right].
  split_and!; [done|done| |by exists key, cred]. intros u Hu. rewrite Hu in Eu. by eapply validate_upstream_new.
Qed.

(** So does an update. *)
Lemma update_inbound_row_cases encrypt decrypt id now fresh u db r db' :
  update_inbound_row encrypt decrypt id now fresh u db = (r, db') ->
  db' = db /\ (forall i, r <> Ok (Some i)) \/
  exists row key cred, inbounds db !! id = Some row /\
    db' = with_inbounds <[Inbound.id row := updated_row now key cred u row]> db.
Proof.
  unfold update_inbound_row. destruct (encrypt_patch _ _) as [key|]; [|intros [= <- <-]; by left].
  destruct (chain_credential _ _ _) as [cred|]; [|intros [= <- <-]; by left].
  destruct (inbounds db !! id) as [row|]; [|intros [= <- <-]; by left].
  destruct (write_returning _ _ _) as [r1 db1] eqn:Ew. intros H.
  apply write_returning_cases in Ew as [[-> Hr]|[-> _]].
  - left. destruct r1; [done|]. by injection H as <- <-.
  - right. exists row, key, cred. split; [done|]. by destruct r1; injection H as _ <-.
Qed.

Lemma update_inbound_cases encrypt decrypt id now fresh u db r db' :
  update_inbound encrypt decrypt id now fresh u db = (r, db') ->
  db' = db \/
  exists row key cred, inbounds db !! id = Some row /\
    db' = with_inbounds <[Inbound.id row := updated_row now key cred u row]> db /\
    (forall up, UpdateInbound.upstream_inbound_id u = Value up ->
       is_Some (inbounds db !! up) /\ ends_avoiding db id up).
Proof.
  unfold update_inbound. destruct (check_update decrypt id u db) as [[]|] eqn:Ec; [|intros [= _ <-]; by left].
  destruct (update_inbound_row _ _ _ _ _ _ _) as [r1 db1] eqn:Er. intros [= _ <-].
  apply update_inbound_row_cases in Er as [[-> _]|(row & key & cred & Hrow & ->)]; [by left|]. right.
  exists row, key, cred. split; [done|]. split; [done|]. revert Ec. unfold check_update, lift_db, lift.
  destruct (validate_update_inbound u); [|done]. destruct (get_inbound decrypt id db) as [[cur|]|]; [|done..].
  destruct (validate_effective_update cur u); [|done]. intros Eu up Hup. rewrite Hup in Eu. by eapply validate_upstream_self.
Qed.

Lemma chain_inv_step encrypt decrypt db db' :
  inbound_step encrypt decrypt db db' -> chain_inv db -> chain_inv db'.
Proof.
  intros [id now fresh n db0 r db1 H|id now fresh u db0 r db1 H|id db0|id db0] Hinv.
  - apply create_inbound_cases in H as [[-> _]|(_ & Hnew & Hup & key & cred & ->)]; [done|].
    apply (chain_inv_write _ (inserted_row id now key cred n)); [done|]. intros v Hv.
    split; [by apply Hup|]. apply fresh_avoided; auto.
  - apply update_inbound_cases in H as [->|(row & key & cred & Hrow & -> & Hval)]; [done|].
    pose proof (proj1 Hinv _ _ Hrow) as Hid. rewrite Hid.
    set (new := updated_row now key cred u row). assert (Hn : Inbound.id new = id) by done.
    rewrite <- Hn. destruct (UpdateInbound.upstream_inbound_id u) as [| |up] eqn:Eu.
    3:{ apply chain_inv_write; [done|]. intros v Hv. subst new. simpl in Hv. rewrite Eu in Hv.
        simpl in Hv. injection Hv as <-. rewrite Hn. by apply Hval. }
    all: assert (Hsh : forall k, upstream_of (with_inbounds <[Inbound.id new := new]> db0) k
              = upstream_of db0 k \/ upstream_of (with_inbounds <[Inbound.id new := new]> db0) k = None).
    1,3: intros k; rewrite upstream_of_insert; destruct (Z.eqb_spec k (Inbound.id new)) as [->|]; [|by left];
         subst new; simpl; rewrite Eu; simpl; unfold upstream_of; rewrite Hid, Hrow; auto.
    all: destruct Hinv as (Hk & Hfk & Ha); split; [|split; [|by eapply ends_shrink; eauto]].
    1,3: intros k j Hj; simpl in Hj; apply lookup_insert_Some in Hj as [[<- <-]|[_ Hj]]; eauto.
    all: intros k v Hv; simpl; apply lookup_insert_is_Some'; right; destruct (Hsh k); [|congruence];
         apply (Hfk k); congruence.
  - by apply chain_inv_delete_inbound.
  - by apply chain_inv_delete_node.
Qed.

(** C27: multihop chains never loop.  From a table whose chains are finite, any
    sequence of inbound creations, updates and deletions through the handlers, answered
    or failed, and of node deletions, leaves every chain finite: following upstreams from any
    inbound reaches an exit. *)
Theorem multihop_chains_finite (encrypt decrypt : string -> option string) (db db' : Db) :
  chain_inv db -> rtc (inbound_step encrypt decrypt) db db' -> forall k, ends db' k.
Proof.
  intros Hinv Hsteps. enough (chain_inv db') as (_ & _ & Ha) by apply Ha.
  induction Hsteps as [db|db db1 db2 Hs _ IH]; [done|]. apply IH. by eapply chain_inv_step.
Qed.

Definition reality_key : string := "AAAAAAAAAAAAAAAAAAAAAAAAAAAAAAAAAAAAAAAAAAA".
Definition new_reality (port : Z) (handshake : option Z) (upstream : option Uuid) : NewInbound.NewInbound :=
  NewInbound.mk 1 ("in-" +:+ show port) "vless" "singbox" port "" true (Some "www.example.com") None None
    true (Some reality_key) (Some reality_key) ["abcd"] (Some "www.example.com") handshake
    "tcp" None None None None false None None None empty_object None [] [] 0 0 "60s" upstream.
Definition node_db : Db := with_inbounds (fun _ => ∅) grouped_db.
Definition chained_db : Db :=
  (create_inbound Some Some 21 0 ("cu", "cp") (new_reality 444 None (Some 20))
     (create_inbound Some Some 20 0 ("cu", "cp") (new_reality 443 None None) node_db).2).2.

Lemma chained_db_steps : rtc (inbound_step Some Some) node_db chained_db.
Proof. do 2 (eapply rtc_l; [eapply step_create, surjective_pairing|]). apply rtc_refl. Qed.

Lemma node_db_inv : chain_inv node_db.
Proof.
  split; [by intros k i H|]. split; [by intros k u H|]. intros k. by apply ends_here.
Qed.

Lemma multihop_chains_finite_witness : upstream_of chained_db 21 = Some 20 /\ ends chained_db 21.
Proof.
  split; [vm_compute; reflexivity|].
  apply (multihop_chains_finite Some Some node_db chained_db node_db_inv chained_db_steps).
Defined.

(** ** What creation leaves unchecked *)

Lemma validate_inbound_reality_tls n :
  validate_inbound n = Ok tt -> NewInbound.reality n = true -> NewInbound.tls_enabled n = true.
Proof.
  unfold validate_inbound. destruct (validate_inbound_basics _ _ _ _ _); [|done].
  intros H Hr. rewrite Hr in H. simpl in H. by destruct (NewInbound.tls_enabled n).
Qed.

Lemma build_inbound_tls decrypt uuid_str to_string now db us ib pb :
  build_inbound decrypt uuid_str to_string now db us ib = Ok pb -> exists t, build_tls ib = Ok t.
Proof.
  unfold build_inbound. destruct (valid_port _); [|done].
  destruct (chain_users_for_exit _ _ _ _); [|done]. simpl.
  destruct (match Inbound.upstream_inbound_id ib with Some _ => _ | None => _ end); [|done].
  destruct (build_tls ib); [eauto|done].
Qed.

Lemma decrypt_inbound_fields decrypt i i' :
  decrypt_inbound decrypt i = Ok i' ->
  Inbound.reality i' = Inbound.reality i /\ Inbound.tls_enabled i' = Inbound.tls_enabled i /\
  Inbound.reality_handshake_port i' = Inbound.reality_handshake_port i.
Proof.
  unfold decrypt_inbound. destruct (decrypt_opt _ _); [|done].
  destruct (decrypt_opt _ _); [|done]. intros H. by injection H as <-.
Qed.

(** An unchecked handshake port takes a node's configuration down.  Creation,
    unlike update, accepts a REALITY inbound whose handshake port is out of range;
    once it is stored, no spec of its node can be built, so the node receives no
    further configuration. *)
Theorem bad_handshake_port_blocks_node (collate : string -> string -> bool)
    (encrypt decrypt : string -> option string) (uuid_str : Uuid -> string)
    (to_string : json -> option string)
    (mint : Uuid -> Uuid -> Uuid * Z * result Wg.Keypair Wg.wg_error)
    (id now later : Z) (fresh : string * string) (n : NewInbound.NewInbound) (port : Z)
    (db db' : Db) (i : Inbound.Inbound) (pl : Plane) :
  create_inbound encrypt decrypt id now fresh n db = (Ok i, db') ->
  NewInbound.reality n = true -> NewInbound.reality_handshake_port n = Some port ->
  port_ok port = false -> tables pl = db' ->
  forall spec peers,
    build_node_spec collate encrypt decrypt uuid_str to_string mint later (NewInbound.node_id n) pl
    <> (Ok spec, peers).
Proof.
  intros Hc Hr Hp Hbad Hpl spec peers Hb.
  apply create_inbound_cases in Hc as [[_ ?]|(Hv & _ & _ & key & cred & Hdb)]; [done|].
  set (row := inserted_row id now key cred n) in Hdb.
  apply build_node_spec_inv in Hb as (rows_ & us & ifaces & Hrows & _ & Hmap & _).
  rewrite Hpl in Hrows, Hmap.
  destruct (enabled_node_inbounds_all decrypt _ _ _ id row Hrows) as (ib & Hin & Hd); [|done..|].
  { rewrite Hdb. simpl. apply lookup_insert_eq. }
  destruct (try_map_in_inv _ _ _ _ Hmap Hin) as (pb & _ & Hpb).
  apply build_inbound_tls in Hpb as [t Ht].
  apply decrypt_inbound_fields in Hd as (H1 & H2 & H3).
  unfold build_tls, build_reality in Ht.
  rewrite H1, H2, H3 in Ht. subst row. simpl in Ht. rewrite Hr, Hp, (validate_inbound_reality_tls n Hv Hr) in Ht.
  simpl in Ht. unfold valid_port in Ht. unfold port_ok in Hbad. by rewrite Hbad in Ht.
Qed.

Lemma bad_port_accepted : exists i db',
  create_inbound Some Some 20 0 ("cu", "cp") (new_reality 443 (Some 0) None) node_db = (Ok i, db').
Proof. do 2 eexists. vm_compute. reflexivity. Qed.

Lemma bad_handshake_port_blocks_node_witness : exists i db',
  create_inbound Some Some 20 0 ("cu", "cp") (new_reality 443 (Some 0) None) node_db = (Ok i, db') /\
  forall spec peers,
    build_node_spec String.leb Some Some (fun _ => "id") (fun _ => Some "{}")
      (fun _ _ => (1, 0, Err Wg.RngFailed)) 0 1 (mkPlane db' [] [] []) <> (Ok spec, peers).
Proof.
  destruct bad_port_accepted as (i & db' & H). exists i, db'. split; [exact H|].
  apply (bad_handshake_port_blocks_node String.leb Some Some (fun _ => "id") (fun _ => Some "{}")
    (fun _ _ => (1, 0, Err Wg.RngFailed)) 20 0 0 ("cu", "cp") (new_reality 443 (Some 0) None) 0
    node_db db' i (mkPlane db' [] [] []) H); reflexivity.
Defined.
