(* ===== verification/Auth.v ===== *)
(** * Who may call what: identities, roles and the request middleware
    (src/master/src/auth.rs and the middleware of src/master/src/api/mod.rs)

    SHA-256 of a token and the CIDR library are parameters.  A query can fail;
    which ones do is an argument, since the middleware treats the failures
    differently. *)

From S2P Require Import Prelude Strings Json Ip Db.

(** ** Rows *)

Module Admin.
Record Admin := mk {
  id : Uuid;
  username : string;
  password_hash : string;
  role : string;
  enabled : bool;
  totp_enabled : bool;
  max_users : Z;
  user_traffic_ceiling_bytes : Z;
  traffic_limit_bytes : Z;
  commission_percent : Z;
  custom_role_id : option Uuid;
  last_login_at : option Z;
  created_at : Z;
  updated_at : Z }.
Definition with_last_login (now : Z) (a : Admin) : Admin :=
  mk (id a) (username a) (password_hash a) (role a) (enabled a) (totp_enabled a) (max_users a)
    (user_traffic_ceiling_bytes a) (traffic_limit_bytes a) (commission_percent a)
    (custom_role_id a) (Some now) (created_at a) now.
End Admin.

Record AdminSession := mkSession {
  ss_id : Uuid;
  ss_admin_id : Uuid;
  ss_token_hash : string;
  ss_expires_at : Z;
  ss_last_seen_at : Z;
  ss_user_agent : option string;
  ss_remote_addr : option string;
  ss_created_at : Z }.

Record ApiKey := mkKey {
  k_id : Uuid;
  k_name : string;
  k_hash : string;
  k_role : string;
  k_created_by : option Uuid;
  k_last_used_at : option Z;
  k_expires_at : option Z;
  k_revoked_at : option Z;
  k_created_at : Z }.

Record CustomRole := mkRole {
  cr_id : Uuid;
  cr_name : string;
  cr_permissions : json;
  cr_created_at : Z;
  cr_updated_at : Z }.

Record AdminIp := mkAdminIp { ip_id : Uuid; ip_cidr : string; ip_note : string; ip_created_at : Z }.

(** A row of admin_recovery_codes. *)
Record RecoveryCode := mkCode { rc_admin_id : Uuid; rc_hash : string; rc_used_at : option Z }.

Record AuthDb := mkAuthDb {
  admins : gmap Uuid Admin.Admin;
  admin_sessions : list AdminSession;
  api_keys : list ApiKey;
  custom_roles : gmap Uuid CustomRole;
  admin_ip_allowlist : list AdminIp;
  recovery_codes : list RecoveryCode;
  totp_secrets : gmap Uuid string }.

Definition empty_auth : AuthDb := mkAuthDb ∅ [] [] ∅ [] [] ∅.

Definition with_sessions f (db : AuthDb) : AuthDb :=
  mkAuthDb (admins db) (f (admin_sessions db)) (api_keys db) (custom_roles db)
    (admin_ip_allowlist db) (recovery_codes db) (totp_secrets db).
Definition with_keys f (db : AuthDb) : AuthDb :=
  mkAuthDb (admins db) (admin_sessions db) (f (api_keys db)) (custom_roles db)
    (admin_ip_allowlist db) (recovery_codes db) (totp_secrets db).
Definition with_admins f (db : AuthDb) : AuthDb :=
  mkAuthDb (f (admins db)) (admin_sessions db) (api_keys db) (custom_roles db)
    (admin_ip_allowlist db) (recovery_codes db) (totp_secrets db).
Definition with_codes f (db : AuthDb) : AuthDb :=
  mkAuthDb (admins db) (admin_sessions db) (api_keys db) (custom_roles db)
    (admin_ip_allowlist db) (f (recovery_codes db)) (totp_secrets db).

Definition with_roles f (db : AuthDb) : AuthDb :=
  mkAuthDb (admins db) (admin_sessions db) (api_keys db) (f (custom_roles db))
    (admin_ip_allowlist db) (recovery_codes db) (totp_secrets db).
Definition with_ips f (db : AuthDb) : AuthDb :=
  mkAuthDb (admins db) (admin_sessions db) (api_keys db) (custom_roles db)
    (f (admin_ip_allowlist db)) (recovery_codes db) (totp_secrets db).
Definition with_totp f (db : AuthDb) : AuthDb :=
  mkAuthDb (admins db) (admin_sessions db) (api_keys db) (custom_roles db)
    (admin_ip_allowlist db) (recovery_codes db) (f (totp_secrets db)).

(** ** Identities and roles *)

Record Identity := mkIdentity {
  admin_id : option Uuid;
  id_username : string;
  id_role : string;
  session_hash : option string;
  permissions : option (gmap string Z) }.

Definition legacy : Identity := mkIdentity None "legacy-api-token" "owner" None None.

Definition role_rank (role : string) : Z :=
  if String.eqb role "owner" then 3
  else if String.eqb role "admin" then 2
  else if String.eqb role "operator" then 1 else 0.

Definition permits (i : Identity) (required : string) : bool :=
  role_rank required <=? role_rank (id_role i).

Definition permits_domain (i : Identity) (domain : string) (need : Z) : bool :=
  if String.eqb domain "dashboard" then true
  else need <=? default 0 (match permissions i with Some p => p !! domain | None => None end).

Definition valid_role (role : string) : bool :=
  existsb (String.eqb role) ["owner"; "admin"; "operator"; "viewer"; "reseller"].

Definition is_reseller (i : Identity) : bool := String.eqb (id_role i) "reseller".

(** ** Requests *)

Inductive Method := GET | HEAD | OPTIONS | POST | PUT | PATCH | DELETE | OtherMethod.
#[export] Instance Method_eq_dec : EqDecision Method.
Proof. solve_decision. Defined.

Definition is_method (ms : list Method) (m : Method) : bool := bool_decide (m ∈ ms).
Definition safe_methods : list Method := [GET; HEAD; OPTIONS].

(** Lower-case header names with their values, in order. *)
Definition headers : Type := list (string * string).

(** [get(name)] then [to_str().ok()]: visible ASCII only. *)
Definition header (name : string) (hs : headers) : option string :=
  match List.find (fun h => String.eqb h.1 name) hs with
  | Some (_, v) => if all_bytes (fun c => between 32 126 c || (code c =? 9)) v then Some v else None
  | None => None
  end.

Definition cookie (hs : headers) (name : string) : option string :=
  let! value := header "cookie" hs in
  head (omap (fun part => let! kv := split_once "=" (trim part) in
                          if String.eqb kv.1 name then Some kv.2 else None)
         (split ";" value)).

Definition eq_ignore_ascii_case (a b : string) : bool :=
  String.eqb (to_ascii_lowercase a) (to_ascii_lowercase b).

Definition origin_matches_host (hs : headers) : bool :=
  match header "origin" hs with
  | None => true
  | Some origin =>
      match header "host" hs with
      | None => false
      | Some host =>
          is_some_and (opt_or (strip_prefix "https://" origin) (strip_prefix "http://" origin))
            (fun origin_host => eq_ignore_ascii_case origin_host host)
      end
  end.

Definition forwarded_remote (hs : headers) : option string :=
  opt_filter (fun v => negb (is_empty v))
    (match header "x-forwarded-for" hs with
     | Some v => trim <$> head (split "," v)
     | None => None
     end).

(** [as_bytes]. *)
Fixpoint bytes (s : string) : list Z :=
  match s with "" => [] | String c s' => code c :: bytes s' end.

Definition ct_eq (a b : list Z) : bool :=
  if negb (length a =? length b)%nat then false
  else fold_left (fun diff xy => Z.lor diff (Z.lxor xy.1 xy.2)) (zip a b) 0 =? 0.

(** ** The three policies *)

Definition starts_with_any (l : list string) (p : string) : bool :=
  existsb (fun pre => starts_with pre p) l.

Definition reseller_paths : list (string * list Method) :=
  [("/auth/me", [GET]); ("/auth/logout", [POST]); ("/auth/sessions", [GET]);
   ("/auth/sessions/revoke-others", [POST]); ("/auth/login-history", [GET]);
   ("/groups", [GET]); ("/labels", [GET]); ("/analytics/traffic", [GET]);
   ("/analytics/traffic.csv", [GET]); ("/reports/period", [GET]); ("/analytics/geo", [GET]);
   ("/live-connections", [GET]); ("/onboarding", [GET]); ("/saved-views", [GET; POST]);
   ("/users", [GET; POST])].

(** What follows "/users/:id/". *)
Definition reseller_user_methods (sub : string) : list Method :=
  match List.find (fun e => String.eqb e.1 sub)
          [("rotate", [POST]); ("reset-traffic", [POST]); ("rotate-sub", [POST]);
           ("subscription", [GET]); ("subscriptions", [GET; POST])] with
  | Some (_, ms) => ms
  | None =>
      if starts_with "subscriptions/" sub then [GET; DELETE]
      else if String.eqb sub "alias" then [PUT]
      else if String.eqb sub "groups" then [GET; PUT]
      else if String.eqb sub "labels" then [PUT] else []
  end.

Definition reseller_permits (m : Method) (path : string) : bool :=
  match List.find (fun e => String.eqb e.1 path) reseller_paths with
  | Some (_, ms) => is_method ms m
  | None =>
      if starts_with "/saved-views/" path then is_method [PATCH; DELETE] m
      else if starts_with "/auth/sessions/" path then is_method [DELETE] m
      else match strip_prefix "/users/" path with
           | Some rest =>
               match split_once "/" rest with
               | None => is_method [GET; PATCH; DELETE] m
               | Some (_, sub) => is_method (reseller_user_methods sub) m
               end
           | None => false
           end
  end.

Definition path_domain (path : string) : string :=
  let p := trim_start_matches "/" path in
  if starts_with_any ["nodes"; "certificates"; "enrollments"; "reality"; "wireguard"; "services"] p
  then "nodes"
  else if starts_with "inbounds" p then "inbounds"
  else if starts_with_any ["users"; "import"] p then "users"
  else if starts_with "groups" p then "groups"
  else if starts_with "routing-profiles" p then "routing"
  else if starts_with "domains" p then "domains"
  else if starts_with_any ["config"; "scheduled-ops"] p then "config"
  else if starts_with_any ["notify-channels"; "telegram"; "announcements"] p then "notifications"
  else if starts_with "audit" p then "audit"
  else if starts_with_any ["settings"; "branding"; "api-keys"; "admins"; "custom-roles"; "admin-ips"] p
  then "admin"
  else "dashboard".

Definition required_role (m : Method) (path : string) : string :=
  if starts_with "/notifications" path then "viewer"
  else if starts_with "/auth/sessions" path || String.eqb path "/auth/login-history" then "viewer"
  else if starts_with "/saved-views" path then "viewer"
  else if starts_with_any ["/admins"; "/settings"; "/api-keys"; "/branding"; "/update"; "/config";
                           "/custom-roles"] path then "owner"
  else if starts_with "/audit" path || contains "/enrollments" path then "admin"
  else if is_method safe_methods m || String.eqb path "/auth/logout" then "viewer"
  else if existsb (fun suf => ends_with suf path)
            ["/push"; "/rotate"; "/rotate-sub"; "/reset-traffic"; "/labels"] then "operator"
  else "admin".

Definition need_level (m : Method) : Z := if is_method safe_methods m then 1 else 2.

(** The authorization block at the end of [require_auth]. *)
Definition authorized (i : Identity) (m : Method) (path : string) : bool :=
  if is_reseller i then reseller_permits m path
  else if is_some (permissions i) then permits_domain i (path_domain path) (need_level m)
  else permits i (required_role m path).

(** ** Credentials *)

Definition five_minutes : Z := 300000000.

Definition key_live (now : Z) (k : ApiKey) : bool :=
  negb (is_some (k_revoked_at k)) && map_or (k_expires_at k) true (fun e => now <? e).

Definition touch_key (now : Z) (k : ApiKey) : ApiKey :=
  if map_or (k_last_used_at k) true (fun t => t <? now - five_minutes)
  then mkKey (k_id k) (k_name k) (k_hash k) (k_role k) (k_created_by k) (Some now)
         (k_expires_at k) (k_revoked_at k) (k_created_at k)
  else k.

Definition authenticate_api_key (now : Z) (hash : string) (db : AuthDb)
    : option ApiKey * AuthDb :=
  match List.find (fun k => String.eqb (k_hash k) hash && key_live now k) (api_keys db) with
  | None => (None, db)
  | Some k =>
      (Some (touch_key now k),
       with_keys (fmap (fun k' => if k_id k' =? k_id k then touch_key now k' else k')) db)
  end.

(** The columns of api_keys: unique id and hash, a scope among the ranks. *)
Definition store_key (k : ApiKey) (db : AuthDb) : result ApiKey db_error * AuthDb :=
  if existsb (fun k' => (k_id k' =? k_id k) || String.eqb (k_hash k') (k_hash k)) (api_keys db)
  then (Err UniqueViolation, db)
  else if negb (one_of ["owner"; "admin"; "operator"; "viewer"] (k_role k)) then (Err CheckViolation, db)
  else (Ok k, with_keys (fun l => l ++ [k]) db).

Definition create_api_key (token_hash : string -> string) (now : Z) (id : Uuid) (secret name role : string)
    (created_by : option Uuid) (expires_at : option Z) (db : AuthDb) : result (ApiKey * string) db_error * AuthDb :=
  let token := "hny_" +:+ secret in
  match store_key (mkKey id (trim name) (token_hash token) role created_by None expires_at None now) db with
  | (Ok key, db') => (Ok (key, token), db')
  | (Err e, db') => (Err e, db')
  end.

Definition revoke_api_key (now : Z) (id : Uuid) (db : AuthDb) : option ApiKey * AuthDb :=
  let revoke k := mkKey (k_id k) (k_name k) (k_hash k) (k_role k) (k_created_by k)
                    (k_last_used_at k) (k_expires_at k) (Some now) (k_created_at k) in
  let hit k := (k_id k =? id) && negb (is_some (k_revoked_at k)) in
  (revoke <$> List.find hit (api_keys db),
   with_keys (fmap (fun k => if hit k then revoke k else k)) db).

(** The join of a live session with its enabled admin. *)
Definition admin_of_session (now : Z) (hash : string) (db : AuthDb) : option Admin.Admin :=
  let! s := List.find (fun s => String.eqb (ss_token_hash s) hash && (now <? ss_expires_at s))
              (admin_sessions db) in
  let! a := admins db !! ss_admin_id s in
  if Admin.enabled a then Some a else None.

Definition touch_session (now : Z) (hash : string) (s : AdminSession) : AdminSession :=
  if String.eqb (ss_token_hash s) hash && (ss_last_seen_at s <? now - five_minutes)
  then mkSession (ss_id s) (ss_admin_id s) (ss_token_hash s) (ss_expires_at s) now
         (ss_user_agent s) (ss_remote_addr s) (ss_created_at s)
  else s.

Definition admin_for_session (now : Z) (hash : string) (db : AuthDb)
    : option Admin.Admin * AuthDb :=
  match admin_of_session now hash db with
  | Some a => (Some a, with_sessions (fmap (touch_session now hash)) db)
  | None => (None, db)
  end.

Definition create_admin_session (now : Z) (id admin : Uuid) (hash : string) (expires_at : Z)
    (user_agent remote_addr : option string) (db : AuthDb) : AuthDb :=
  with_admins (fun m => match m !! admin with
                        | Some a => <[admin := Admin.with_last_login now a]> m
                        | None => m
                        end)
    (with_sessions (fun l => l ++ [mkSession id admin hash expires_at now user_agent remote_addr now]) db).

Definition delete_admin_session (hash : string) (db : AuthDb) : AuthDb :=
  with_sessions (List.filter (fun s => negb (String.eqb (ss_token_hash s) hash))) db.

Definition delete_admin_sessions (admin : Uuid) (db : AuthDb) : AuthDb :=
  with_sessions (List.filter (fun s => negb (ss_admin_id s =? admin))) db.

Definition delete_other_admin_sessions (now : Z) (admin : Uuid) (current : string) (db : AuthDb)
    : AuthDb :=
  with_sessions (List.filter (fun s => negb ((ss_admin_id s =? admin)
      && negb (String.eqb (ss_token_hash s) current) && (now <? ss_expires_at s)))) db.

(** [from_value::<HashMap<String, i64>>(v).unwrap_or_default()]. *)
Definition permission_map (v : json) : gmap string Z :=
  match v with
  | JObject fields =>
      if forallb (fun kv => is_some (as_i64 kv.2)) fields
      then list_to_map (omap (fun kv => (fun n => (kv.1, n)) <$> as_i64 kv.2) fields)
      else ∅
  | _ => ∅
  end.

Definition custom_role_permissions (id : Uuid) (db : AuthDb) : option (gmap string Z) :=
  (fun r => permission_map (cr_permissions r)) <$> custom_roles db !! id.

(** ** The middleware *)

Record Faults := mkFaults {
  key_lookup_fails : bool;
  session_lookup_fails : bool;
  role_lookup_fails : bool;
  ip_lookup_fails : bool }.
Definition no_faults : Faults := mkFaults false false false false.

Inductive outcome :=
| Passed (i : Identity)
| Rejected (status : Z) (code : string).

Record AuthRequest := mkRequest {
  req_method : Method;
  req_path : string;
  req_headers : headers }.

Section Middleware.
Context (token_hash : string -> string).
Context (Net : Type) (parse_net : string -> option Net) (net_contains : Net -> IpAddr -> bool).
Context (api_token : option string).

Definition ip_allowed (db : AuthDb) (remote : option string) : bool :=
  match admin_ip_allowlist db with
  | [] => true
  | list_ =>
      match (match remote with Some r => parse_ip r | None => None end) with
      | None => false
      | Some ip => existsb (fun entry => is_some_and (parse_net (ip_cidr entry)) (fun net => net_contains net ip)) list_
      end
  end.

(** Who presents the request: [Err] is a failed lookup. *)
Definition identify (f : Faults) (now : Z) (hs : headers) (db : AuthDb)
    : result (option (Identity * bool)) unit * AuthDb :=
  match (match header "authorization" hs with
         | Some v => strip_prefix "Bearer " v
         | None => None
         end) with
  | Some token =>
      if is_some_and api_token (fun expected => ct_eq (bytes token) (bytes expected))
      then (Ok (Some (legacy, false)), db)
      else if negb (starts_with "hny_" token) then (Ok None, db)
      else if key_lookup_fails f then (Err tt, db)
      else
        match authenticate_api_key now (token_hash token) db with
        | (Some key, db') =>
            (Ok (Some (mkIdentity (k_created_by key) ("apikey:" +:+ k_name key) (k_role key) None None,
                       false)), db')
        | (None, db') => (Ok None, db')
        end
  | None =>
      match cookie hs "honey_session" with
      | None => (Ok None, db)
      | Some token =>
          let hash := token_hash token in
          if session_lookup_fails f then (Err tt, db)
          else
            match admin_for_session now hash db with
            | (Some admin, db') =>
                let perms := match Admin.custom_role_id admin with
                             | Some crid => if role_lookup_fails f then None
                                            else custom_role_permissions crid db'
                             | None => None
                             end in
                (Ok (Some (mkIdentity (Some (Admin.id admin)) (Admin.username admin)
                             (Admin.role admin) (Some hash) perms, true)), db')
            | (None, db') => (Ok None, db')
            end
      end
  end.

Definition cross_site (hs : headers) : bool :=
  match header "sec-fetch-site" hs with Some v => String.eqb v "cross-site" | None => false end.

Definition require_auth (f : Faults) (now : Z) (r : AuthRequest) (db : AuthDb) : outcome * AuthDb :=
  let hs := req_headers r in
  match identify f now hs db with
  | (Err _, db') => (Rejected 500 "M1202", db')
  | (Ok None, db') => (Rejected 401 "M1207", db')
  | (Ok (Some (identity, cookie_auth)), db') =>
      (if negb (ip_lookup_fails f || ip_allowed db' (forwarded_remote hs)) then Rejected 403 "M1210"
       else if cookie_auth && negb (is_method safe_methods (req_method r)) && cross_site hs
       then Rejected 403 "M1209"
       else if cookie_auth && negb (is_method safe_methods (req_method r))
               && negb (origin_matches_host hs)
       then Rejected 403 "M1209"
       else if authorized identity (req_method r) (req_path r) then Passed identity
       else Rejected 403 (if is_reseller identity then "M1211" else "M1210"), db')
  end.
End Middleware.

(** ** Properties *)

Lemma ct_fold_zero (l : list (Z * Z)) : forall d,
  fold_left (fun diff xy => Z.lor diff (Z.lxor xy.1 xy.2)) l d = 0 <->
  d = 0 /\ Forall (fun xy => xy.1 = xy.2) l.
Proof.
  induction l as [|[x y] l IH]; intros d; simpl.
  - split; [intros ->; by split|by intros []].
  - rewrite IH, Z.lor_eq_0_iff. split.
    + intros [[-> Hx] Hl]. split; [done|]. constructor; [|done]. by apply Z.lxor_eq.
    + intros [-> Hl]. inversion_clear Hl as [|? ? Hx Hl']. simpl in Hx. subst.
      split; [|done]. split; [done|]. apply Z.lxor_nilpotent.
Qed.

(** The constant-time comparison decides equality. *)
Lemma ct_eq_spec (a b : list Z) : ct_eq a b = true <-> a = b.
Proof.
  unfold ct_eq. destruct (length a =? length b)%nat eqn:El; simpl.
  - apply Nat.eqb_eq in El. rewrite Z.eqb_eq, ct_fold_zero. split.
    + intros [_ H]. revert b El H.
      induction a as [|x a IH]; intros [|y b]; simpl; intros El H; try done.
      inversion_clear H as [|? ? Hx Hl]. simpl in Hx. subst. f_equal. apply IH; [lia|done].
    + intros <-. split; [done|]. clear. induction a; simpl; constructor; auto.
  - split; [done|]. intros ->. by rewrite Nat.eqb_refl in El.
Qed.

Lemma code_inj c d : code c = code d -> c = d.
Proof.
  unfold code. intros H. apply N2Z.inj in H.
  by rewrite <- (ascii_N_embedding c), <- (ascii_N_embedding d), H.
Qed.

Lemma bytes_inj s t : bytes s = bytes t -> s = t.
Proof.
  revert t. induction s as [|c s IH]; intros [|d t]; simpl; intros H; try done.
  injection H as Hc Ht. f_equal; [by apply code_inj|auto].
Qed.

(** Two prefixes of the same string are comparable. *)
Lemma prefixes_comparable a b s :
  starts_with a s = true -> starts_with b s = true -> starts_with a b || starts_with b a = true.
Proof.
  unfold starts_with. revert b s. induction a as [|x a IH]; intros b s; [by destruct b|].
  destruct s as [|c s]; simpl; [done|]. destruct (ascii_dec x c) as [->|]; [|done].
  destruct b as [|y b]; simpl; [done|].
  destruct (ascii_dec y c) as [->|]; [|done]. intros Ha Hb.
  destruct (ascii_dec c c); [|done]. by apply (IH b s).
Qed.

Lemma starts_with_trans a b s : starts_with b s = true -> starts_with a b = true -> starts_with a s = true.
Proof.
  unfold starts_with. revert b s. induction a as [|x a IH]; intros b s; [by destruct s|].
  destruct b as [|y b]; simpl; [done|]. destruct s as [|c s]; simpl; [done|].
  destruct (ascii_dec y c) as [->|]; [|done]. destruct (ascii_dec x c) as [->|]; [|done]. apply IH.
Qed.

Lemma starts_with_any_in l p : starts_with_any l p = true <-> exists q, In q l /\ starts_with q p = true.
Proof. unfold starts_with_any. rewrite existsb_exists. done. Qed.

(** What a reseller's requests are confined to. *)
Definition reseller_area : list string :=
  ["/auth/"; "/groups"; "/labels"; "/analytics/"; "/reports/period"; "/live-connections";
   "/onboarding"; "/saved-views"; "/users"].
(** The rest of the protected API. *)
Definition operator_area : list string :=
  ["/nodes"; "/inbounds"; "/admins"; "/admin-ips"; "/api-keys"; "/custom-roles"; "/settings";
   "/branding"; "/update"; "/config"; "/audit"; "/enrollments"; "/certificates"; "/wireguard";
   "/services"; "/reality"; "/domains"; "/routing-profiles"; "/notify-channels"; "/telegram-chats";
   "/announcements"; "/scheduled-ops"; "/import"; "/issues"; "/metrics"; "/ha"; "/system";
   "/notifications"; "/auth/totp"].

Lemma areas_disjoint :
  forallb (fun a => forallb (fun b => negb (starts_with a b || starts_with b a))
                      (["/saved-views/"; "/auth/sessions/"; "/users/"])) operator_area = true /\
  forallb (fun a => forallb (fun e => negb (starts_with a e.1)) reseller_paths) operator_area = true.
Proof. split; vm_compute; reflexivity. Qed.

Lemma reseller_permits_inv m path :
  reseller_permits m path = true ->
  (exists ms, In (path, ms) reseller_paths /\ is_method ms m = true) \/
  exists p, In p ["/saved-views/"; "/auth/sessions/"; "/users/"] /\ starts_with p path = true.
Proof.
  unfold reseller_permits.
  destruct (List.find _ reseller_paths) as [[p ms]|] eqn:Ef.
  - apply find_some in Ef as [Hin Hp]. simpl in Hp. apply String.eqb_eq in Hp. subst. eauto.
  - destruct (starts_with "/saved-views/" path) eqn:E1; [right; eexists; split; [|exact E1]; simpl; auto|].
    destruct (starts_with "/auth/sessions/" path) eqn:E2; [right; eexists; split; [|exact E2]; simpl; auto|].
    destruct (strip_prefix "/users/" path) eqn:E3; [|done].
    right. eexists. split; [|by eapply strip_prefix_starts]. simpl; auto.
Qed.

(** A reseller is confined.  The middleware never admits an identity with the
    reseller role to the operator part of the API (nodes, inbounds, admins,
    settings, keys, audit and the rest of it), whatever the method and whatever
    custom permissions the account carries; outside users, saved views and its own
    sessions it only reads, but for signing out. *)
Theorem reseller_confined (token_hash : string -> string) (Net : Type)
    (parse_net : string -> option Net) (net_contains : Net -> IpAddr -> bool)
    (api_token : option string) (f : Faults) (now : Z) (r : AuthRequest) (db db' : AuthDb)
    (i : Identity) :
  require_auth token_hash Net parse_net net_contains api_token f now r db = (Passed i, db') ->
  is_reseller i = true ->
  starts_with_any operator_area (req_path r) = false /\
  (req_method r = GET \/ (req_method r = POST /\ req_path r = "/auth/logout") \/
   starts_with_any ["/users"; "/saved-views"; "/auth/sessions"] (req_path r) = true).
Proof.
  intros H Hr.
  assert (Hp : reseller_permits (req_method r) (req_path r) = true).
  { unfold require_auth in H. destruct (identify _ _ _ _ _ _) as [[[[i' c]|]|] db1]; try done.
    repeat match type of H with ((if ?b then _ else _), _) = _ => destruct b eqn:?; [done|] end.
    destruct (authorized i' (req_method r) (req_path r)) eqn:Ea; [|done]. injection H as <- _.
    unfold authorized in Ea. by rewrite Hr in Ea. }
  apply reseller_permits_inv in Hp. split.
  - destruct (starts_with_any operator_area (req_path r)) eqn:Ea; [|done]. exfalso.
    apply starts_with_any_in in Ea as (a & Ha & Hs).
    destruct areas_disjoint as [Hd1 Hd2]. rewrite forallb_forall in Hd1, Hd2.
    destruct Hp as [(ms & Hin & _)|(p & Hin & Hps)].
    + pose proof (proj1 (forallb_forall _ _) (Hd2 a Ha) _ Hin) as Hn. simpl in Hn. by rewrite Hs in Hn.
    + pose proof (proj1 (forallb_forall _ _) (Hd1 a Ha) _ Hin) as Hn.
      cbn beta in Hn. by rewrite (prefixes_comparable a p (req_path r) Hs Hps) in Hn.
  - destruct Hp as [(ms & Hin & Hm)|(p & Hin & Hps)].
    + unfold is_method in Hm. apply bool_decide_eq_true in Hm. revert Hm.
      repeat destruct Hin as [Hin|Hin]; try (injection Hin as <- <-); try done;
        intros Hm; try (right; right; reflexivity);
        apply list_elem_of_singleton in Hm; auto.
    + right; right. apply starts_with_any_in.
      destruct Hin as [<-|[<-|[<-|[]]]];
        [exists "/saved-views"|exists "/auth/sessions"|exists "/users"]; (split; [simpl; auto|]);
        eapply starts_with_trans; try exact Hps; reflexivity.
Qed.

Definition reseller_db : AuthDb :=
  mkAuthDb {[5 := Admin.mk 5 "shop" "" "reseller" true false 0 0 0 0 None None 0 0]}
    [mkSession 1 5 "tok" 100 0 None None 0] [] ∅ [] [] ∅.
Definition reseller_request : AuthRequest :=
  mkRequest GET "/users" [("cookie", "honey_session=tok")].

Lemma reseller_confined_witness :
  starts_with_any operator_area (req_path reseller_request) = false.
Proof.
  refine (proj1 (reseller_confined (fun s => s) unit (fun _ => None) (fun _ _ => false) None
    no_faults 0 reseller_request reseller_db reseller_db
    (mkIdentity (Some 5) "shop" "reseller" (Some "tok") None) _ _)).
  - vm_compute. reflexivity.
  - reflexivity.
Defined.

(** The bearer token of a request. *)
Definition bearer (hs : headers) : option string :=
  match header "authorization" hs with Some v => strip_prefix "Bearer " v | None => None end.

Definition by_legacy (api_token : option string) (r : AuthRequest) (i : Identity) : Prop :=
  i = legacy /\ exists t, api_token = Some t /\ bearer (req_headers r) = Some t.

Definition by_key (token_hash : string -> string) (now : Z) (db : AuthDb) (r : AuthRequest)
    (i : Identity) : Prop :=
  exists token k, bearer (req_headers r) = Some token /\ In k (api_keys db) /\
    k_hash k = token_hash token /\ key_live now k = true /\
    id_role i = k_role k /\ admin_id i = k_created_by k /\ permissions i = None.

(** A live session of an enabled admin, and a same-origin request where the
    method writes. *)
Definition by_session (token_hash : string -> string) (now : Z) (db : AuthDb) (r : AuthRequest)
    (i : Identity) : Prop :=
  exists token s a, cookie (req_headers r) "honey_session" = Some token /\
    In s (admin_sessions db) /\ ss_token_hash s = token_hash token /\ now < ss_expires_at s /\
    admins db !! ss_admin_id s = Some a /\ Admin.enabled a = true /\
    admin_id i = Some (Admin.id a) /\ id_role i = Admin.role a /\
    (is_method safe_methods (req_method r) = true \/
     (cross_site (req_headers r) = false /\ origin_matches_host (req_headers r) = true)).

Lemma authenticate_api_key_inv now hash db k db' :
  authenticate_api_key now hash db = (Some k, db') ->
  admin_ip_allowlist db' = admin_ip_allowlist db /\
  exists k0, In k0 (api_keys db) /\ k_hash k0 = hash /\ key_live now k0 = true /\ k = touch_key now k0.
Proof.
  unfold authenticate_api_key. destruct (List.find _ _) as [k0|] eqn:Ef; [|done].
  apply find_some in Ef as [Hin Hk]. breflect. destruct Hk as [Hk1 Hk2]. intros H. injection H as <- <-.
  split; [done|]. eauto.
Qed.

Lemma admin_for_session_inv now hash db a db' :
  admin_for_session now hash db = (Some a, db') ->
  admin_ip_allowlist db' = admin_ip_allowlist db /\
  exists s, In s (admin_sessions db) /\ ss_token_hash s = hash /\ now < ss_expires_at s /\
    admins db !! ss_admin_id s = Some a /\ Admin.enabled a = true.
Proof.
  unfold admin_for_session. destruct (admin_of_session now hash db) as [a0|] eqn:Ea; [|done].
  intros H. injection H as <- <-. split; [done|]. unfold admin_of_session in Ea.
  destruct (List.find _ _) as [s|] eqn:Ef; [|done]. apply find_some in Ef as [Hin Hs]. breflect.
  destruct (admins db !! ss_admin_id s) as [a|] eqn:Eadm; [|done].
  destruct (Admin.enabled a) eqn:Een; [|done]. injection Ea as ->. destruct Hs. eauto 10.
Qed.

(** C2: admission is justified.  A request passes the middleware only with the
    configured shared token, a live API key, or the live session of an enabled
    admin (writes under a session cookie being same-origin); the identity it
    runs under carries exactly the role of that credential, and that identity
    passes the policy in force; and when an address allowlist is set and could be
    read, the client's address is on it. *)
Theorem require_auth_sound (token_hash : string -> string) (Net : Type)
    (parse_net : string -> option Net) (net_contains : Net -> IpAddr -> bool)
    (api_token : option string) (f : Faults) (now : Z) (r : AuthRequest) (db db' : AuthDb)
    (i : Identity) :
  require_auth token_hash Net parse_net net_contains api_token f now r db = (Passed i, db') ->
  (by_legacy api_token r i \/ by_key token_hash now db r i \/ by_session token_hash now db r i) /\
  authorized i (req_method r) (req_path r) = true /\
  (ip_lookup_fails f = false ->
   ip_allowed Net parse_net net_contains db (forwarded_remote (req_headers r)) = true).
Proof.
  unfold require_auth, identify. fold (bearer (req_headers r)).
  destruct (bearer (req_headers r)) as [token|] eqn:Eb.
  - destruct (is_some_and api_token _) eqn:Et.
    + simpl. destruct (negb _) eqn:Ei; [done|].
      destruct (authorized legacy _ _) eqn:Ea; [|done]. intros H. injection H as <- <-.
      split; [left|split; [done|]].
      * destruct api_token as [t|]; [|done]. simpl in Et. apply ct_eq_spec, bytes_inj in Et as <-.
        split; [done|]. eauto.
      * intros Hf. rewrite Hf in Ei. by apply negb_false_iff in Ei.
    + destruct (negb (starts_with "hny_" token)); [done|].
      destruct (key_lookup_fails f); [done|].
      destruct (authenticate_api_key _ _ _) as [[k|] db1] eqn:Ek; [|done]. simpl.
      destruct (negb _) eqn:Ei; [done|].
      destruct (authorized _ _ _) eqn:Ea; [|done]. intros H. injection H as <- <-.
      apply authenticate_api_key_inv in Ek as (Hip & k0 & Hin & Hh & Hl & ->).
      split; [right; left|split; [done|]].
      * exists token, k0. unfold touch_key. by destruct (map_or (k_last_used_at k0) _ _).
      * intros Hf. rewrite Hf in Ei. apply negb_false_iff in Ei. unfold ip_allowed in *. by rewrite <- Hip.
  - destruct (cookie (req_headers r) "honey_session") as [token|] eqn:Ec; [|done].
    destruct (session_lookup_fails f); [done|].
    destruct (admin_for_session _ _ _) as [[a|] db1] eqn:Es; [|done].
    destruct (negb (ip_lookup_fails f || _)) eqn:Ei; [done|].
    destruct (true && negb (is_method safe_methods (req_method r)) && cross_site _) eqn:Ex; [done|].
    destruct (true && negb (is_method safe_methods (req_method r)) && negb _) eqn:Eo; [done|].
    destruct (authorized _ _ _) eqn:Ea; [|done]. intros H. injection H as <- <-.
    apply admin_for_session_inv in Es as (Hip & s & Hin & Hh & Hl & Had & Hen).
    split; [right; right|split; [done|]].
    + exists token, s, a. repeat (split; [done|]).
      destruct (is_method _ _); [by left|right]. simpl in Ex, Eo. split; [done|by apply negb_false_iff].
    + intros Hf. rewrite Hf in Ei. apply negb_false_iff in Ei. unfold ip_allowed in *. by rewrite <- Hip.
Qed.

Lemma require_auth_sound_witness :
  authorized (mkIdentity (Some 5) "shop" "reseller" (Some "tok") None) GET "/users" = true.
Proof.
  refine (proj1 (proj2 (require_auth_sound (fun s => s) unit (fun _ => None) (fun _ _ => false) None
    no_faults 0 reseller_request reseller_db reseller_db
    (mkIdentity (Some 5) "shop" "reseller" (Some "tok") None) _))).
  vm_compute. reflexivity.
Defined.

(** Custom roles reach the self-update.  Installing a release is reserved to
    owners by the role ladder, but its path belongs to the domain every custom
    role is granted: an admin with a custom role, be its matrix empty, passes the
    middleware on [POST /update/apply]. *)
Theorem custom_role_reaches_update (i : Identity) (p : gmap string Z) :
  is_reseller i = false -> permissions i = Some p ->
  authorized i POST "/update/apply" = true /\
  required_role POST "/update/apply" = "owner" /\
  (authorized (mkIdentity (admin_id i) (id_username i) (id_role i) (session_hash i) None)
     POST "/update/apply" = true <-> id_role i = "owner").
Proof.
  intros Hr Hp. unfold authorized. rewrite Hr, Hp.
  change (path_domain "/update/apply") with "dashboard". split; [done|]. split; [done|].
  unfold is_reseller in *. simpl. rewrite Hr. unfold permits.
  change (required_role POST "/update/apply") with "owner".
  change (role_rank "owner") with 3. simpl. unfold role_rank.
  destruct (String.eqb_spec (id_role i) "owner") as [->|Hne]; [done|].
  destruct (String.eqb (id_role i) "admin"), (String.eqb (id_role i) "operator");
    (split; [intros H; breflect; lia|done]).
Qed.

Lemma custom_role_reaches_update_witness :
  authorized (mkIdentity (Some 6) "auditor" "viewer" None (Some ∅)) POST "/update/apply" = true.
Proof.
  refine (proj1 (custom_role_reaches_update
    (mkIdentity (Some 6) "auditor" "viewer" None (Some ∅)) ∅ _ _)); reflexivity.
Defined.
