(* ===== verification/Login.v ===== *)
(** * Signing in (the [login] handler of src/master/src/api/mod.rs, the session
    and recovery-code queries of src/master/src/db/repo.rs)

    Argon2, TOTP, the token digest, secret decryption and the database's
    lower-casing are parameters; random bytes and clock readings are arguments. *)

From S2P Require Import Prelude Strings Json Ip Models Db Api RateLimit Auth.

Record LoginEvent := mkEvent {
  ev_admin_id : option Uuid;
  ev_username : string;
  ev_outcome : string;
  ev_remote_addr : option string;
  ev_user_agent : option string;
  ev_created_at : Z }.

(** What the handler reads and writes; the audit log keeps (actor, action,
    resource type). *)
Record LoginState := mkState {
  auth_db : AuthDb;
  limiter : gmap string Login.Entry;
  login_events : list LoginEvent;
  audit_log : list (option Uuid * string * string) }.

Record LoginInput := mkInput {
  in_username : string;
  in_password : string;
  in_totp_code : option string;
  in_recovery_code : option string }.

(** The limiter's monotonic readings and the wall clock, in microseconds. *)
Record Clock := mkClock { t_prune : Z; t_guard : Z; t_left : Z; t_failure : Z; utc : Z }.

Inductive login_outcome :=
| LoggedIn (a : Admin.Admin) (token : string) (expires_at : Z)
| RateLimited (retry_after : Z)
| BadCredentials
| IpDenied
| TotpRequired (recovery_available : bool)
| BadSecondFactor
| RngError.

Definition ninety_days : Z := 90 * 86400 * 1000000.
Definition twelve_hours : Z := 12 * 3600 * 1000000.

(** [record_admin_login_event]: the insert, and the two retention deletes. *)
Definition record_admin_login_event (now : Z) (e : LoginEvent) (st : LoginState) : LoginState :=
  mkState (with_sessions (List.filter (fun s => now <? ss_expires_at s)) (auth_db st)) (limiter st)
    (List.filter (fun e => negb (ev_created_at e <? now - ninety_days)) (login_events st ++ [e]))
    (audit_log st).

Definition record_login_event (now : Z) (admin_id : option Uuid) (username outcome : string)
    (remote_addr user_agent : option string) (st : LoginState) : LoginState :=
  record_admin_login_event now
    (mkEvent admin_id (bounded_auth_text username 96 "<empty>") outcome
       ((fun v => bounded_auth_text v 128 "unknown") <$> remote_addr)
       ((fun v => bounded_auth_text v 256 "unknown") <$> user_agent) now) st.

Definition is_ascii_whitespace (c : ascii) : bool :=
  existsb (Z.eqb (code c)) [9; 10; 12; 13; 32].

Fixpoint filter_bytes (p : ascii -> bool) (s : string) : string :=
  match s with
  | "" => ""
  | String c s' => if p c then String c (filter_bytes p s') else filter_bytes p s'
  end.

Definition normalize_recovery_code (value : string) : option string :=
  let normalized :=
    map_bytes upper (filter_bytes (fun c => negb (is_ascii_whitespace c) && negb (code c =? 45)) value) in
  if negb (len normalized =? 20) || negb (all_bytes is_hexdigit normalized) then None
  else Some normalized.

Definition count_unused_admin_recovery_codes (admin : Uuid) (db : AuthDb) : Z :=
  Z.of_nat (length (List.filter (fun c => (rc_admin_id c =? admin) && negb (is_some (rc_used_at c)))
    (recovery_codes db))).

Definition unused_code (admin : Uuid) (hash : string) (c : RecoveryCode) : bool :=
  (rc_admin_id c =? admin) && String.eqb (rc_hash c) hash && negb (is_some (rc_used_at c)).

(** One UPDATE; the hash is unique, so one row at most is affected. *)
Definition consume_admin_recovery_code (now : Z) (admin : Uuid) (hash : string) (db : AuthDb)
    : bool * AuthDb :=
  let n := length (List.filter (unused_code admin hash) (recovery_codes db)) in
  ((n =? 1)%nat,
   with_codes (fmap (fun c => if unused_code admin hash c
                              then mkCode (rc_admin_id c) (rc_hash c) (Some now) else c)) db).

Definition replace_admin_recovery_codes (admin : Uuid) (hashes : list string) (db : AuthDb) : AuthDb :=
  with_codes (fun l => List.filter (fun c => negb (rc_admin_id c =? admin)) l
                       ++ ((fun h => mkCode admin h None) <$> hashes)) db.

Definition on_db (f : AuthDb -> AuthDb) (st : LoginState) : LoginState :=
  mkState (f (auth_db st)) (limiter st) (login_events st) (audit_log st).
Definition on_limiter (f : gmap string Login.Entry -> gmap string Login.Entry) (st : LoginState)
    : LoginState :=
  mkState (auth_db st) (f (limiter st)) (login_events st) (audit_log st).
Definition record_audit_entry (actor : option Uuid) (action resource : string) (st : LoginState)
    : LoginState :=
  mkState (auth_db st) (limiter st) (login_events st) (audit_log st ++ [(actor, action, resource)]).

Section Handler.
Context (token_hash : string -> string).
Context (Net : Type) (parse_net : string -> option Net) (net_contains : Net -> IpAddr -> bool).
Context (verify_password : string -> string -> bool).
Context (verify_totp : string -> string -> bool).
Context (decrypt : string -> option string).
Context (db_lower : string -> string).

Definition get_admin_by_username (username : string) (db : AuthDb) : option Admin.Admin :=
  List.find (fun a => String.eqb (db_lower (Admin.username a)) (db_lower (trim username)))
    (rows (admins db)).

Definition verified_admin (input : LoginInput) (candidate : option Admin.Admin) : option Admin.Admin :=
  opt_filter (fun a => verify_password (in_password input) (Admin.password_hash a)) candidate.

(** The second factor: (TOTP accepted, recovery code accepted, state). *)
Definition second_factor (now : Z) (a : Admin.Admin) (totp_code recovery_code : string) (db : AuthDb)
    : bool * bool * AuthDb :=
  let secret := match totp_secrets db !! Admin.id a with Some enc => decrypt enc | None => None end in
  let totp_ok := map_or secret false (fun s => verify_totp s totp_code) in
  if negb totp_ok && negb (is_empty recovery_code) then
    match normalize_recovery_code recovery_code with
    | Some code =>
        let '(ok, db') := consume_admin_recovery_code now (Admin.id a) (token_hash code) db in
        (totp_ok, ok, db')
    | None => (totp_ok, false, db)
    end
  else (totp_ok, false, db).

Definition login (clk : Clock) (session_id : Uuid) (random_token : option string) (hs : headers)
    (input : LoginInput) (st : LoginState) : login_outcome * LoginState :=
  let now := utc clk in
  let remote := forwarded_remote hs in
  let user_agent := header "user-agent" hs in
  let limit_key := default "unknown" remote in
  let event admin_id username outcome := record_login_event now admin_id username outcome remote user_agent in
  let fail := on_limiter (Login.record_failure (t_failure clk) limit_key) in
  let '(locked, m) := Login.locked_for (t_prune clk) (t_guard clk) (t_left clk) limit_key (limiter st) in
  let st := on_limiter (fun _ => m) st in
  match locked with
  | Some retry_after => (RateLimited retry_after, event None (in_username input) "rate_limited" st)
  | None =>
      let candidate := opt_filter Admin.enabled (get_admin_by_username (in_username input) (auth_db st)) in
      match verified_admin input candidate with
      | None => (BadCredentials,
                 event (Admin.id <$> candidate) (in_username input) "bad_credentials" (fail st))
      | Some admin =>
          let id := Some (Admin.id admin) in
          if negb (ip_allowed Net parse_net net_contains (auth_db st) remote) then
            (IpDenied, event id (Admin.username admin) "ip_denied" (fail st))
          else
            let proceed (st : LoginState) :=
              let st := on_limiter (Login.record_success limit_key) st in
              match random_token with
              | None => (RngError, st)
              | Some token =>
                  let expires_at := now + twelve_hours in
                  let st := on_db (create_admin_session now session_id (Admin.id admin)
                                     (token_hash token) expires_at user_agent remote) st in
                  let st := event id (Admin.username admin) "success" st in
                  (LoggedIn admin token expires_at, record_audit_entry id "login" "session" st)
              end in
            if Admin.totp_enabled admin then
              let totp_code := trim (default "" (in_totp_code input)) in
              let recovery_code := trim (default "" (in_recovery_code input)) in
              if is_empty totp_code && is_empty recovery_code then
                (TotpRequired (0 <? count_unused_admin_recovery_codes (Admin.id admin) (auth_db st)), st)
              else
                let '(totp_ok, recovery_ok, db) := second_factor now admin totp_code recovery_code (auth_db st) in
                let st := on_db (fun _ => db) st in
                if negb totp_ok && negb recovery_ok then
                  (BadSecondFactor,
                   event id (Admin.username admin)
                     (if negb (is_empty recovery_code) then "bad_recovery_code" else "bad_totp") (fail st))
                else proceed st
            else proceed st
      end
  end.
End Handler.

(** ** Properties *)

Lemma filter_unused_consumed admin hash now (l : list RecoveryCode) :
  List.filter (unused_code admin hash)
    ((fun c => if unused_code admin hash c then mkCode (rc_admin_id c) (rc_hash c) (Some now) else c) <$> l)
  = [].
Proof.
  apply list_nil_filter. intros c Hc. apply list_elem_of_In, list_elem_of_fmap in Hc as (c0 & -> & _).
  destruct (unused_code admin hash c0) eqn:E; [|done].
  unfold unused_code. simpl. by rewrite andb_false_r.
Qed.

(** A code is burnt by its first use. *)
Lemma consume_once now now' admin hash db db' b :
  consume_admin_recovery_code now admin hash db = (b, db') ->
  (consume_admin_recovery_code now' admin hash db').1 = false.
Proof.
  unfold consume_admin_recovery_code. intros H. injection H as <- <-. simpl.
  by rewrite filter_unused_consumed.
Qed.

Lemma consume_codes now admin hash db1 db2 :
  recovery_codes db1 = recovery_codes db2 ->
  (consume_admin_recovery_code now admin hash db1).1 = (consume_admin_recovery_code now admin hash db2).1.
Proof. unfold consume_admin_recovery_code. simpl. by intros ->. Qed.

Lemma consume_true_in now admin hash db db' :
  consume_admin_recovery_code now admin hash db = (true, db') ->
  exists c, In c (recovery_codes db) /\ unused_code admin hash c = true.
Proof.
  unfold consume_admin_recovery_code. intros H. injection H as H _. apply Nat.eqb_eq in H.
  destruct (List.filter _ _) as [|c l] eqn:E; [done|]. exists c.
  apply List.filter_In. rewrite E. by left.
Qed.

Section LoginFacts.
Context (token_hash : string -> string).
Context (Net : Type) (parse_net : string -> option Net) (net_contains : Net -> IpAddr -> bool).
Context (verify_password : string -> string -> bool).
Context (verify_totp : string -> string -> bool).
Context (decrypt : string -> option string).
Context (db_lower : string -> string).

#[local] Abbreviation run_login :=
  (login token_hash Net parse_net net_contains verify_password verify_totp decrypt db_lower).

(** What the second factor of an admin amounts to. *)
Definition factor_ok (a : Admin.Admin) (input : LoginInput) (db db' : AuthDb) : Prop :=
  (exists enc s, totp_secrets db !! Admin.id a = Some enc /\ decrypt enc = Some s /\
     verify_totp s (trim (default "" (in_totp_code input))) = true) \/
  (exists code c, normalize_recovery_code (trim (default "" (in_recovery_code input))) = Some code /\
     In c (recovery_codes db) /\ unused_code (Admin.id a) (token_hash code) c = true /\
     forall t, (consume_admin_recovery_code t (Admin.id a) (token_hash code) db').1 = false).

Lemma second_factor_ok now a input db totp_ok recovery_ok db1 :
  second_factor token_hash verify_totp decrypt now a (trim (default "" (in_totp_code input)))
    (trim (default "" (in_recovery_code input))) db = (totp_ok, recovery_ok, db1) ->
  admins db1 = admins db /\ admin_sessions db1 = admin_sessions db /\
  (totp_ok || recovery_ok = true ->
   forall db', recovery_codes db' = recovery_codes db1 -> factor_ok a input db db').
Proof.
  unfold second_factor.
  set (secret := match totp_secrets db !! Admin.id a with Some enc => decrypt enc | None => None end).
  assert (Ht : map_or secret false (fun s => verify_totp s (trim (default "" (in_totp_code input)))) = true ->
               forall db', factor_ok a input db db').
  { subst secret. intros H db'. left. destruct (totp_secrets db !! Admin.id a) as [enc|]; [|done].
    destruct (decrypt enc) as [s|] eqn:Ed; [|done]. exists enc, s. eauto. }
  destruct (map_or secret false _) eqn:Em; cbn [negb andb].
  { intros H. injection H as <- <- <-. repeat split; auto. }
  destruct (is_empty (trim (default "" (in_recovery_code input)))); cbn [negb andb].
  { intros H. injection H as <- <- <-. repeat split; done. }
  destruct (normalize_recovery_code _) as [code|] eqn:En.
  2:{ intros H. injection H as <- <- <-. repeat split; done. }
  destruct (consume_admin_recovery_code now (Admin.id a) (token_hash code) db) as [ok db2] eqn:Ec.
  intros H. injection H as <- <- <-.
  assert (Hsame : admins db2 = admins db /\ admin_sessions db2 = admin_sessions db).
  { unfold consume_admin_recovery_code in Ec. apply (f_equal snd) in Ec. simpl in Ec. by subst db2. }
  destruct Hsame as [H1 H2]. split; [done|]. split; [done|]. simpl. intros -> db' Hdb'.
  right. destruct (consume_true_in _ _ _ _ _ Ec) as (c & Hc & Hu). exists code, c.
  repeat (split; [done|]). intros t.
  rewrite (consume_codes t _ _ db' db2 Hdb'). by eapply consume_once.
Qed.

Lemma get_admin_in username db a :
  get_admin_by_username db_lower username db = Some a -> exists k, admins db !! k = Some a.
Proof.
  unfold get_admin_by_username. intros H. apply find_some in H as [H _]. by apply in_rows in H.
Qed.
End LoginFacts.

(** C12: a session is only issued to a proven admin.  When [login] succeeds, the
    client's key was not locked out, the admin exists, is enabled and matched the
    password, the address passed the allowlist, and an admin with two-factor
    authentication presented a valid TOTP code or an unused recovery code, which
    can never be used again; the new session belongs to that admin, expires in
    twelve hours, and the client's failures are forgotten. *)
Theorem login_sound (token_hash : string -> string) (Net : Type)
    (parse_net : string -> option Net) (net_contains : Net -> IpAddr -> bool)
    (verify_password verify_totp : string -> string -> bool) (decrypt : string -> option string)
    (db_lower : string -> string) (clk : Clock) (session_id : Uuid) (random_token : option string)
    (hs : headers) (input : LoginInput) (st st' : LoginState) (a : Admin.Admin) (token : string)
    (expires_at : Z) :
  login token_hash Net parse_net net_contains verify_password verify_totp decrypt db_lower
    clk session_id random_token hs input st = (LoggedIn a token expires_at, st') ->
  let key := default "unknown" (forwarded_remote hs) in
  (Login.locked_for (t_prune clk) (t_guard clk) (t_left clk) key (limiter st)).1 = None /\
  (exists k, admins (auth_db st) !! k = Some a) /\ Admin.enabled a = true /\
  verify_password (in_password input) (Admin.password_hash a) = true /\
  ip_allowed Net parse_net net_contains (auth_db st) (forwarded_remote hs) = true /\
  (Admin.totp_enabled a = true ->
   factor_ok token_hash verify_totp decrypt a input (auth_db st) (auth_db st')) /\
  expires_at = utc clk + twelve_hours /\
  (exists s, In s (admin_sessions (auth_db st')) /\ ss_admin_id s = Admin.id a /\
     ss_token_hash s = token_hash token /\ ss_expires_at s = expires_at) /\
  limiter st' !! key = None.
Proof.
  unfold login. set (key := default "unknown" (forwarded_remote hs)).
  destruct (Login.locked_for _ _ _ key (limiter st)) as [locked m] eqn:El. simpl.
  destruct locked as [r|]; [done|].
  destruct (verified_admin _ _ _) as [a0|] eqn:Ev; [|done].
  destruct (ip_allowed _ _ _ _ _) eqn:Eip; [|done]. simpl.
  assert (Hcand : (exists k, admins (auth_db st) !! k = Some a0) /\ Admin.enabled a0 = true /\
                  verify_password (in_password input) (Admin.password_hash a0) = true).
  { unfold verified_admin in Ev.
    destruct (get_admin_by_username db_lower (in_username input) (auth_db st)) as [c|] eqn:Eg; [|done].
    simpl in Ev. destruct (Admin.enabled c) eqn:Ee; [|done]. simpl in Ev.
    destruct (verify_password _ _) eqn:Ep; [|done]. injection Ev as <-.
    apply get_admin_in in Eg. auto. }
  destruct Hcand as (Hk & He & Hp).
  assert (Hdone : forall db1, exists s,
    In s (List.filter (fun s => utc clk <? ss_expires_at s) (admin_sessions db1 ++
      [mkSession session_id (Admin.id a0) (token_hash token) (utc clk + twelve_hours) (utc clk)
         (header "user-agent" hs) (forwarded_remote hs) (utc clk)])) /\
    ss_admin_id s = Admin.id a0 /\ ss_token_hash s = token_hash token /\
    ss_expires_at s = utc clk + twelve_hours).
  { intros db1. eexists. split; [apply List.filter_In; split; [apply in_or_app; right; by left|]|done].
    apply Z.ltb_lt. simpl. unfold twelve_hours. lia. }
  destruct (Admin.totp_enabled a0) eqn:Et.
  - destruct (is_empty _ && is_empty _); [done|].
    destruct (second_factor _ _ _ _ _ _ _ _) as [[totp_ok recovery_ok] db1] eqn:Es.
    apply second_factor_ok in Es as (Ha & Hs & Hf).
    destruct (negb totp_ok && negb recovery_ok) eqn:En; [done|].
    destruct random_token as [tok|]; [|done]. intros H. injection H as <- <- <- <-.
    repeat (split; [done|]). split.
    { intros _. apply Hf; [|done]. destruct totp_ok, recovery_ok; done. }
    split; [done|]. split; [apply (Hdone db1)|]. simpl. apply lookup_delete_eq.
  - destruct random_token as [tok|]; [|done]. intros H. injection H as <- <- <- <-.
    repeat (split; [done|]). split; [by rewrite Et|].
    split; [done|]. split; [apply (Hdone (auth_db st))|]. simpl. apply lookup_delete_eq.
Qed.

Definition totp_admin : Admin.Admin :=
  Admin.mk 5 "root" "hunter22" "owner" true true 0 0 0 0 None None 0 0.
Definition sample_state : LoginState :=
  mkState (mkAuthDb {[5 := totp_admin]} [] [] ∅ []
             [mkCode 5 "0123456789ABCDEF0123" None] ∅) ∅ [] [].
Definition sample_login (code : string) (st : LoginState) : login_outcome * LoginState :=
  login (fun s => s) unit (fun _ => None) (fun _ _ => false) String.eqb (fun _ _ => false)
    Some to_ascii_lowercase (mkClock 0 0 0 0 1000) 1 (Some "token") []
    (mkInput "Root" "hunter22" None (Some code)) st.

Lemma sample_login_ok : exists st',
  sample_login "0123456789-abcdef0123" sample_state = (LoggedIn totp_admin "token" (1000 + twelve_hours), st').
Proof. eexists. vm_compute. reflexivity. Qed.

Lemma login_sound_witness : exists st',
  sample_login "0123456789-abcdef0123" sample_state = (LoggedIn totp_admin "token" (1000 + twelve_hours), st') /\
  limiter st' !! "unknown" = None /\
  exists s, In s (admin_sessions (auth_db st')) /\ ss_admin_id s = 5.
Proof.
  destruct sample_login_ok as [st' H]. exists st'. split; [exact H|].
  destruct (login_sound _ _ _ _ _ _ _ _ _ _ _ _ _ _ _ _ _ _ H)
    as (_ & _ & _ & _ & _ & _ & _ & (s & Hs & Ha & _) & Hl).
  split; [exact Hl|]. exists s. split; [exact Hs|exact Ha].
Defined.

(** A failed sign-in is counted and grants nothing.  When the password, the
    address or the second factor is refused, exactly one failure is charged to
    the client's key, no session is added, and the attempt is recorded in the
    login history. *)
Theorem login_failure_counted (token_hash : string -> string) (Net : Type)
    (parse_net : string -> option Net) (net_contains : Net -> IpAddr -> bool)
    (verify_password verify_totp : string -> string -> bool) (decrypt : string -> option string)
    (db_lower : string -> string) (clk : Clock) (session_id : Uuid) (random_token : option string)
    (hs : headers) (input : LoginInput) (st st' : LoginState) (o : login_outcome) :
  login token_hash Net parse_net net_contains verify_password verify_totp decrypt db_lower
    clk session_id random_token hs input st = (o, st') ->
  In o [BadCredentials; IpDenied; BadSecondFactor] ->
  let key := default "unknown" (forwarded_remote hs) in
  limiter st' = Login.record_failure (t_failure clk) key
    (Login.locked_for (t_prune clk) (t_guard clk) (t_left clk) key (limiter st)).2 /\
  (forall s, In s (admin_sessions (auth_db st')) -> In s (admin_sessions (auth_db st))) /\
  (exists e, In e (login_events st') /\ ev_created_at e = utc clk /\ ev_outcome e <> "success").
Proof.
  unfold login. set (key := default "unknown" (forwarded_remote hs)).
  destruct (Login.locked_for _ _ _ key (limiter st)) as [locked m] eqn:El. cbn [fst snd].
  assert (Hev : forall id name outcome ra ua st1, outcome <> "success" ->
    admin_sessions (auth_db st1) = admin_sessions (auth_db st) ->
    let st2 := record_login_event (utc clk) id name outcome ra ua
                 (on_limiter (Login.record_failure (t_failure clk) key) (on_limiter (fun _ => m) st1)) in
    limiter st2 = Login.record_failure (t_failure clk) key m /\
    (forall s, In s (admin_sessions (auth_db st2)) -> In s (admin_sessions (auth_db st))) /\
    (exists e, In e (login_events st2) /\ ev_created_at e = utc clk /\ ev_outcome e <> "success")).
  { intros id name outcome ra ua st1 Ho Hs st2. split; [done|]. split.
    - intros s Hin. apply List.filter_In in Hin as [Hin _]. simpl in Hin. by rewrite Hs in Hin.
    - eexists. split; [apply List.filter_In; split; [apply in_or_app; right; by left|]|done].
      simpl. unfold ninety_days. apply negb_true_iff, Z.ltb_ge. lia. }
  destruct locked as [r|]; [intros H; injection H as <- _; intros [|[|[|[]]]]; done|].
  destruct (verified_admin _ _ _) as [a0|].
  2:{ intros H _. injection H as <- <-. apply (Hev _ _ _ _ _ st); done. }
  destruct (ip_allowed _ _ _ _ _).
  2:{ intros H _. injection H as <- <-. apply (Hev _ _ _ _ _ st); done. }
  cbn [negb]. destruct (Admin.totp_enabled a0).
  2:{ destruct random_token; intros H; injection H as <- _; intros [|[|[|[]]]]; done. }
  destruct (is_empty _ && is_empty _); [intros H; injection H as <- _; intros [|[|[|[]]]]; done|].
  destruct (second_factor _ _ _ _ _ _ _ _) as [[totp_ok recovery_ok] db1] eqn:Es.
  apply second_factor_ok in Es as (_ & Hs & _).
  destruct (negb totp_ok && negb recovery_ok).
  - intros H _. injection H as <- <-. apply (Hev _ _ _ _ _ (on_db (fun _ => db1) st)); [|done].
    by destruct (negb _).
  - destruct random_token; intros H; injection H as <- _; intros [|[|[|[]]]]; done.
Qed.

Lemma sample_login_bad : exists st', sample_login "nope" sample_state = (BadSecondFactor, st').
Proof. eexists. vm_compute. reflexivity. Qed.

Lemma login_failure_counted_witness : exists st',
  sample_login "nope" sample_state = (BadSecondFactor, st') /\
  limiter st' = Login.record_failure 0 "unknown" (Login.locked_for 0 0 0 "unknown" ∅).2.
Proof.
  destruct sample_login_bad as [st' H]. exists st'. split; [exact H|].
  refine (proj1 (login_failure_counted _ _ _ _ _ _ _ _ _ _ _ _ _ _ _ _ H _)).
  right; right; left. reflexivity.
Defined.
