(* ===== verification/Labels.v ===== *)
(** * Labels and saved views (the label and saved-view handlers of
    src/master/src/api/mod.rs, their queries of src/master/src/db/repo.rs)

    The size of a printed definition is a parameter, as are the ids and times a
    query generates. *)

From S2P Require Import Prelude Strings Json Models Db Api RateLimit Auth.

(** ** Labels *)

Fixpoint label_bytes (first : bool) (s : string) : bool :=
  match s with
  | "" => true
  | String c rest =>
      (is_lower c || is_digit c
       || (negb first && existsb (Ascii.eqb c) ["."%char; "_"%char; ":"%char; "-"%char]))
      && label_bytes false rest
  end.

Definition valid_label (label : string) : bool :=
  negb (is_empty label) && (len label <=? 40) && label_bytes true label.

Definition normalize_label (raw : string) : result string api_error :=
  let label := to_ascii_lowercase (trim raw) in
  if valid_label label then Ok label
  else Err (BadRequest "labels must be 1-40 lowercase letters, digits, '.', '_', ':' or '-'").

Definition normalize_labels (labels : list string) : result (list string) api_error :=
  bail (BadRequest "at most 16 labels are allowed") when (16 <? length labels)%nat in
  let? normalized := try_map normalize_label labels in
  Ok (sort_dedup normalized).

Definition saved_view_admin (i : Identity) : result Uuid api_error :=
  match admin_id i with
  | Some id => Ok id
  | None => Err (Forbidden "personal saved views require a panel session")
  end.

(** ORDER BY under the database's collation, which is a parameter. *)
Section Listing.
Context (collate : string -> string -> bool).

(** SELECT DISTINCT unnest(labels) ... ORDER BY label. *)
Definition distinct_labels (label_columns : list (list string)) : list string :=
  sort_by collate (remove_dups (List.concat label_columns)).

(** [None] is the refusal of an unknown table. *)
Definition list_labels (resource : string) (db : Db) : option (list string) :=
  if String.eqb resource "nodes" then Some (distinct_labels (Node.labels <$> rows (nodes db)))
  else if String.eqb resource "inbounds" then Some (distinct_labels (Inbound.labels <$> rows (inbounds db)))
  else if String.eqb resource "users" then Some (distinct_labels (User.labels <$> rows (users db)))
  else None.

Definition list_user_labels_for_creator (admin : Uuid) (db : Db) : list string :=
  distinct_labels (User.labels <$>
    List.filter (fun u => bool_decide (User.created_by u = Some admin)) (rows (users db))).

Definition listed (resource : string) (db : Db) : result (list string) api_error :=
  match list_labels resource db with
  | Some l => Ok l
  | None => Err (Internal "unsupported label resource")
  end.

Definition list_labels_handler (i : Identity) (resource : string) (db : Db) : result (list string) api_error :=
  bail (BadRequest "unsupported label resource")
    when negb (one_of ["nodes"; "inbounds"; "users"; "issues"] resource) in
  if is_reseller i then
    bail (Forbidden "label resource is outside your scope") when negb (one_of ["users"; "issues"] resource) in
    let? admin := saved_view_admin i in
    Ok (list_user_labels_for_creator admin db)
  else
    let? labels :=
      (if String.eqb resource "issues" then
         let? n := listed "nodes" db in
         let? i := listed "inbounds" db in
         let? u := listed "users" db in
         Ok (n ++ i ++ u)
       else listed resource db) in
    Ok (sort_dedup labels).
End Listing.

(** ** Saved views *)

Record SavedView := mkView {
  sv_id : Uuid;
  sv_admin_id : Uuid;
  sv_name : string;
  sv_resource : string;
  sv_definition : json;
  sv_created_at : Z;
  sv_updated_at : Z }.

Definition resources : list string := ["nodes"; "inbounds"; "users"; "issues"].

Definition ensure_view_resource (i : Identity) (resource : string) : result unit api_error :=
  bail (BadRequest "unsupported saved-view resource") when negb (one_of resources resource) in
  bail (Forbidden "resellers may only save user views")
    when is_reseller i && negb (String.eqb resource "users") in
  Ok tt.

Definition view_fields : list string := ["search"; "labels"; "sort"; "columns"; "severity"; "kind"; "node"].

Definition view_sorts (resource : string) : list string :=
  if String.eqb resource "nodes" then ["name"; "status"; "last_seen"]
  else if String.eqb resource "inbounds" then ["tag"; "node"; "port"]
  else if String.eqb resource "users" then ["username"; "status"; "traffic"]
  else if String.eqb resource "issues" then ["severity"; "detected"; "entity"] else [].

Definition view_columns (resource : string) : list string :=
  if String.eqb resource "nodes"
  then ["name"; "address"; "status"; "labels"; "transport"; "version"; "last_seen"; "actions"]
  else if String.eqb resource "inbounds"
  then ["tag"; "node"; "protocol"; "labels"; "core"; "listen"; "security"; "status"; "reach"; "actions"]
  else if String.eqb resource "users"
  then ["username"; "uuid"; "status"; "labels"; "traffic"; "expires"; "actions"]
  else if String.eqb resource "issues"
  then ["severity"; "code"; "issue"; "type"; "entity"; "labels"; "node"; "detected"; "actions"] else [].

Definition string_in (l : list string) (v : json) : bool := is_some_and (as_str v) (one_of l).

Section Views.
(** The bytes [serde_json::to_vec] prints; lower() and the collation of the
    database. *)
Context (printed_size : json -> Z) (sql_lower : string -> string) (collate : string -> string -> bool).

Definition trim_search (d : json) : result json api_error :=
  match get "search" d with
  | None => Ok d
  | Some v =>
      match as_str v with
      | None => Err (BadRequest "saved-view search must be a string")
      | Some s =>
          bail (BadRequest "saved-view search is too long") when 200 <? len (trim s) in
          Ok (jset "search" (JString (trim s)) d)
      end
  end.

Definition label_text (v : json) : result string api_error :=
  match as_str v with Some s => Ok s | None => Err (BadRequest "saved-view labels must be strings") end.

Definition normalize_view_labels (d : json) : result json api_error :=
  match get "labels" d with
  | None => Ok d
  | Some v =>
      match as_array v with
      | None => Err (BadRequest "saved-view labels must be an array")
      | Some items =>
          let? values := try_map label_text items in
          let? labels := normalize_labels values in
          Ok (jset "labels" (jstrs labels) d)
      end
  end.

Definition check_columns (resource : string) (d : json) : result unit api_error :=
  match get "columns" d with
  | None => Ok tt
  | Some v =>
      match as_array v with
      | None => Err (BadRequest "saved-view columns must be an array")
      | Some selected =>
          ok_when (negb (bool_decide (length selected = 0%nat)) && forallb (string_in (view_columns resource)) selected)
            "unsupported or empty saved-view columns"
      end
  end.

Definition check_issue_filter (resource : string) (d : json) (key : string) : result unit api_error :=
  match get key d with
  | None => Ok tt
  | Some v =>
      ok_when (String.eqb resource "issues" && is_some_and (as_str v) (fun s => len s <=? 64))
        "issue-only saved-view filter is invalid"
  end.

Definition normalize_view_definition (resource : string) (definition : json) : result json api_error :=
  match definition with
  | JObject fields =>
      bail (BadRequest "saved-view definition has an unknown field")
        when existsb (fun f => negb (one_of view_fields f.1)) fields in
      let? d := trim_search definition in
      let? d := normalize_view_labels d in
      let? _ := (match get "sort" d with
                 | Some v => ok_when (string_in (view_sorts resource) v) "unsupported saved-view sort"
                 | None => Ok tt
                 end) in
      let? _ := check_columns resource d in
      let? _ := try_map (check_issue_filter resource d) ["severity"; "kind"; "node"] in
      let? _ := ok_when (printed_size d <=? 8192) "saved-view definition is too large" in
      Ok d
  | _ => Err (BadRequest "saved-view definition must be an object")
  end.

Definition valid_name (name : string) : result string api_error :=
  let name := trim name in
  bail (BadRequest "saved-view name must be 1-80 characters") when is_empty name || (80 <? len name) in
  Ok name.

(** *** The table: its rows by id, a name unique per admin and resource. *)

Definition view_le (a b : SavedView) : bool :=
  if String.eqb (sv_resource a) (sv_resource b)
  then collate (sql_lower (sv_name a)) (sql_lower (sv_name b))
  else collate (sv_resource a) (sv_resource b).

Definition list_saved_views (admin : Uuid) (views : gmap Uuid SavedView) : list SavedView :=
  sort_by view_le (List.filter (fun v => sv_admin_id v =? admin) (rows views)).

Definition same_view_name (v w : SavedView) : bool :=
  (sv_admin_id v =? sv_admin_id w) && String.eqb (sv_resource v) (sv_resource w)
  && String.eqb (sql_lower (sv_name v)) (sql_lower (sv_name w)).

Definition view_name_taken (v : SavedView) (views : gmap Uuid SavedView) : bool :=
  existsb (fun w => negb (sv_id w =? sv_id v) && same_view_name v w) (rows views).

(** Writing a row: its checks, the unique index, then the foreign key. *)
Definition store_view (admins : gset Uuid) (v : SavedView) (views : gmap Uuid SavedView)
    : result (SavedView * gmap Uuid SavedView) db_error :=
  bail CheckViolation
    when negb ((1 <=? char_count (sv_name v)) && (char_count (sv_name v) <=? 80)
               && one_of resources (sv_resource v) && is_object (sv_definition v)) in
  bail UniqueViolation when view_name_taken v views in
  bail ForeignKeyViolation when negb (bool_decide (sv_admin_id v ∈ admins)) in
  Ok (v, <[sv_id v := v]> views).

Definition create_saved_view_row (admins : gset Uuid) (now id admin : Z) (name resource : string)
    (definition : json) (views : gmap Uuid SavedView) : result (SavedView * gmap Uuid SavedView) db_error :=
  store_view admins (mkView id admin name resource definition now now) views.

Definition update_saved_view_row (admins : gset Uuid) (now id admin : Z) (name : option string)
    (definition : option json) (views : gmap Uuid SavedView)
    : result (option SavedView * gmap Uuid SavedView) db_error :=
  match views !! id with
  | Some v =>
      if sv_admin_id v =? admin then
        let? r := store_view admins
          (mkView id admin (default (sv_name v) name) (sv_resource v)
             (default (sv_definition v) definition) (sv_created_at v) now) views in
        Ok (Some r.1, r.2)
      else Ok (None, views)
  | None => Ok (None, views)
  end.

Definition delete_saved_view_row (id admin : Uuid) (views : gmap Uuid SavedView) : bool * gmap Uuid SavedView :=
  match views !! id with
  | Some v => if sv_admin_id v =? admin then (true, delete id views) else (false, views)
  | None => (false, views)
  end.

(** *** The handlers *)

Definition list_saved_views_handler (i : Identity) (views : gmap Uuid SavedView)
    : result (list SavedView) api_error :=
  let? admin := saved_view_admin i in
  Ok (list_saved_views admin views).

Definition create_saved_view (admins : gset Uuid) (now id : Z) (i : Identity) (name resource : string)
    (definition : json) (views : gmap Uuid SavedView) : result (SavedView * gmap Uuid SavedView) api_error :=
  let? admin := saved_view_admin i in
  let? _ := ensure_view_resource i resource in
  let? name := valid_name name in
  let? d := normalize_view_definition resource definition in
  lift_db (create_saved_view_row admins now id admin name resource d views).

Definition given {A B E} (f : A -> result B E) (o : option A) : result (option B) E :=
  match o with Some x => let? y := f x in Ok (Some y) | None => Ok None end.

Definition update_saved_view (admins : gset Uuid) (now : Z) (i : Identity) (id : Uuid) (name : option string)
    (definition : option json) (views : gmap Uuid SavedView) : result (SavedView * gmap Uuid SavedView) api_error :=
  let? admin := saved_view_admin i in
  match List.find (fun v => sv_id v =? id) (list_saved_views admin views) with
  | None => Err (NotFound "saved view not found")
  | Some current =>
      let? _ := ensure_view_resource i (sv_resource current) in
      let? name := given valid_name name in
      let? d := given (normalize_view_definition (sv_resource current)) definition in
      let? r := lift_db (update_saved_view_row admins now id admin name d views) in
      match r.1 with
      | Some v => Ok (v, r.2)
      | None => Err (NotFound "saved view not found")
      end
  end.

Definition delete_saved_view (i : Identity) (id : Uuid) (views : gmap Uuid SavedView)
    : result (gmap Uuid SavedView) api_error :=
  let? admin := saved_view_admin i in
  match delete_saved_view_row id admin views with
  | (true, views') => Ok views'
  | (false, _) => Err (NotFound "saved view not found")
  end.
End Views.

(** ** Properties *)

Lemma label_byte_plain c first :
  (is_lower c || is_digit c
   || (negb first && existsb (Ascii.eqb c) ["."%char; "_"%char; ":"%char; "-"%char])) = true ->
  plain_byte c = true /\ lower c = c.
Proof. destruct c as [[] [] [] [] [] [] [] []], first; vm_compute; done. Qed.

Lemma label_bytes_plain first s :
  label_bytes first s = true -> all_bytes plain_byte s = true /\ to_ascii_lowercase s = s.
Proof.
  revert first. induction s as [|c s IH]; intros first; [done|]. cbn [label_bytes].
  rewrite andb_true_iff. intros [Hc Hs]. destruct (label_byte_plain c first Hc) as [Hp Hl].
  destruct (IH _ Hs) as [Hps Hls]. unfold to_ascii_lowercase in *. cbn [all_bytes map_bytes].
  by rewrite Hp, Hps, Hl, Hls.
Qed.

Lemma normalize_label_valid l : valid_label l = true -> normalize_label l = Ok l.
Proof.
  intros H. unfold normalize_label. assert (Hb := H). apply andb_true_iff in Hb as [_ Hb].
  destruct (label_bytes_plain true l Hb) as [Hp Hl]. by rewrite (trim_plain l Hp), Hl, H.
Qed.

Lemma normalize_label_ok raw l :
  normalize_label raw = Ok l <-> valid_label l = true /\ l = to_ascii_lowercase (trim raw).
Proof.
  unfold normalize_label. destruct (valid_label _) eqn:E.
  - split; [by intros [= <-]|by intros [_ ->]].
  - split; [done|]. intros [H ->]. by rewrite E in H.
Qed.

Lemma try_map_id {A E} (f : A -> result A E) l : (forall x, In x l -> f x = Ok x) -> try_map f l = Ok l.
Proof.
  induction l as [|x l IH]; intros H; [done|]. cbn [try_map]. rewrite (H x) by by left.
  rewrite IH by (intros y Hy; apply H; by right). done.
Qed.

(** Accepted labels are in normal form: at most sixteen, each valid, strictly
    sorted, and nothing but the given ones trimmed and lowercased. *)
Definition labels_normal (ls : list string) : Prop :=
  (length ls <= 16)%nat /\ Forall (fun l => valid_label l = true) ls /\ StronglySorted string_lt ls.

Lemma labels_normal_fixed ls : labels_normal ls -> normalize_labels ls = Ok ls.
Proof.
  intros (Hn & Hv & Hs). unfold normalize_labels. rewrite (proj2 (Nat.ltb_ge _ _) Hn).
  rewrite try_map_id.
  - by rewrite sort_dedup_id.
  - intros x Hx. apply normalize_label_valid. by apply (proj1 (List.Forall_forall _ _) Hv).
Qed.

Lemma normalize_labels_normal raw ls : normalize_labels raw = Ok ls -> labels_normal ls.
Proof.
  unfold normalize_labels. destruct (Nat.ltb_spec 16 (length raw)) as [|Hn]; [done|].
  destruct (try_map normalize_label raw) as [ys|] eqn:E; [|done]. intros [= <-].
  split; [|split; [|apply sort_dedup_strict]].
  - assert (Hl := sort_dedup_length ys). apply try_map_inv, Forall2_length in E. lia.
  - apply List.Forall_forall. intros x Hx. rewrite sort_dedup_in in Hx.
    destruct (try_map_in _ _ _ _ E Hx) as (r & _ & Hr). by apply normalize_label_ok in Hr as [? _].
Qed.

(** [normalize_labels] accepts exactly the lists of at most sixteen labels
    each valid once trimmed and lowercased; what it returns is the set of them,
    strictly sorted, and normalizing it again changes nothing. *)
Theorem normalize_labels_exact raw :
  ((exists ls, normalize_labels raw = Ok ls) <->
   (length raw <= 16)%nat /\ Forall (fun r => valid_label (to_ascii_lowercase (trim r)) = true) raw) /\
  (forall ls, normalize_labels raw = Ok ls ->
     labels_normal ls /\
     (forall x, In x ls <-> exists r, In r raw /\ x = to_ascii_lowercase (trim r)) /\
     normalize_labels ls = Ok ls).
Proof.
  split; [split|].
  - intros [ls H]. unfold normalize_labels in H. destruct (Nat.ltb_spec 16 (length raw)); [done|].
    split; [done|]. destruct (try_map normalize_label raw) as [ys|] eqn:E; [|done].
    apply List.Forall_forall. intros r Hr. destruct (try_map_in_inv _ _ _ _ E Hr) as (y & _ & Hy).
    by apply normalize_label_ok in Hy as [Hv ->].
  - intros [Hn Hv]. unfold normalize_labels. rewrite (proj2 (Nat.ltb_ge _ _) Hn).
    destruct (try_map_total normalize_label raw) as [ys ->]; [|by eauto].
    intros r Hr. exists (to_ascii_lowercase (trim r)). apply normalize_label_ok. split; [|done].
    by apply (proj1 (List.Forall_forall _ _) Hv).
  - intros ls H. assert (Hnf := normalize_labels_normal _ _ H). split; [done|].
    split; [|by apply labels_normal_fixed]. unfold normalize_labels in H.
    destruct (16 <? length raw)%nat; [done|].
    destruct (try_map normalize_label raw) as [ys|] eqn:E; [|done]. simplify_eq. intros x.
    rewrite sort_dedup_in. split.
    + intros Hx. destruct (try_map_in _ _ _ _ E Hx) as (r & Hr & Hy). apply normalize_label_ok in Hy as [_ ->]. eauto.
    + intros (r & Hr & ->). destruct (try_map_in_inv _ _ _ _ E Hr) as (y & Hy & Hn).
      by apply normalize_label_ok in Hn as [_ ->].
Qed.

(** *** Saved views *)

Section ViewFacts.
Context (printed_size : json -> Z) (sql_lower : string -> string) (collate : string -> string -> bool).

(** A field, when there, satisfies [P]. *)
Definition field_ok (k : string) (P : json -> Prop) (d : json) : Prop :=
  match get k d with Some v => P v | None => True end.

Definition search_normal (v : json) : Prop := exists s, v = JString s /\ trim s = s /\ len s <= 200.
Definition view_labels_normal (v : json) : Prop := exists ls, v = jstrs ls /\ labels_normal ls.

(** The well-formed definitions of a view over [resource]. *)
Record view_normal (resource : string) (d : json) : Prop := mkViewNormal {
  vn_fields : exists fields, d = JObject fields /\ fields_sorted fields /\
    Forall (fun f => one_of view_fields f.1 = true) fields;
  vn_search : field_ok "search" search_normal d;
  vn_labels : field_ok "labels" view_labels_normal d;
  vn_sort : field_ok "sort" (fun v => string_in (view_sorts resource) v = true) d;
  vn_columns : check_columns resource d = Ok tt;
  vn_filters : Forall (fun k => check_issue_filter resource d k = Ok tt) ["severity"; "kind"; "node"];
  vn_size : printed_size d <= 8192 }.

Lemma known_fields fields :
  existsb (fun f : string * json => negb (one_of view_fields f.1)) fields = false <->
  Forall (fun f => one_of view_fields f.1 = true) fields.
Proof.
  rewrite <- not_true_iff_false, List.existsb_exists, List.Forall_forall. split.
  - intros H x Hx. destruct (one_of view_fields x.1) eqn:E; [done|]. destruct H. exists x. by rewrite E.
  - intros H (x & Hx & Hn). by rewrite (H x Hx) in Hn.
Qed.

(** Writing a known field keeps an object known and in order. *)
Lemma known_insert k v fields :
  one_of view_fields k = true -> fields_sorted fields ->
  Forall (fun f => one_of view_fields f.1 = true) fields ->
  fields_sorted (field_insert k v fields) /\
  Forall (fun f => one_of view_fields f.1 = true) (field_insert k v fields).
Proof.
  intros Hk Hs Hf. split; [by apply field_insert_sorted|]. apply List.Forall_forall. intros x Hx.
  destruct (proj1 (field_insert_keys k v fields x.1) (List.in_map fst _ _ Hx)) as [->|Hin]; [done|].
  apply List.in_map_iff in Hin as (y & <- & Hy). by apply (proj1 (List.Forall_forall _ _) Hf).
Qed.

Lemma label_texts ls : try_map label_text (JString <$> ls) = Ok ls.
Proof. induction ls as [|l ls IH]; [done|]. cbn [fmap list_fmap try_map]. by rewrite IH. Qed.

Lemma trim_search_normal fields d :
  fields_sorted fields -> Forall (fun f => one_of view_fields f.1 = true) fields ->
  trim_search (JObject fields) = Ok d ->
  (exists fields', d = JObject fields' /\ fields_sorted fields' /\
     Forall (fun f => one_of view_fields f.1 = true) fields') /\ field_ok "search" search_normal d.
Proof.
  intros Hs Hf. unfold trim_search, field_ok. destruct (get "search" _) as [v|] eqn:Eg.
  - destruct v as [| | |s| |]; try done. cbn [as_str]. destruct (Z.ltb_spec 200 (len (trim s))); [done|].
    intros [= <-]. split.
    + exists (field_insert "search" (JString (trim s)) fields). split; [done|]. by apply known_insert.
    + cbn [get]. rewrite field_get_insert. exists (trim s). by rewrite trim_trim.
  - intros [= <-]. rewrite Eg. eauto.
Qed.

Lemma normalize_view_labels_normal fields d :
  fields_sorted fields -> Forall (fun f => one_of view_fields f.1 = true) fields ->
  normalize_view_labels (JObject fields) = Ok d ->
  (exists fields', d = JObject fields' /\ fields_sorted fields' /\
     Forall (fun f => one_of view_fields f.1 = true) fields') /\
  field_ok "labels" view_labels_normal d /\ get "search" d = get "search" (JObject fields).
Proof.
  intros Hs Hf. unfold normalize_view_labels, field_ok. destruct (get "labels" _) as [v|] eqn:Eg.
  - destruct (as_array v) as [items|]; [|done]. destruct (try_map label_text items) as [values|]; [|done].
    destruct (normalize_labels values) as [ls|] eqn:El; [|done]. intros [= <-]. split; [|split].
    + exists (field_insert "labels" (jstrs ls) fields). split; [done|]. by apply known_insert.
    + cbn [get]. rewrite field_get_insert. exists ls. split; [done|]. by eapply normalize_labels_normal.
    + cbn [get]. by rewrite field_get_insert.
  - intros [= <-]. rewrite Eg. eauto 6.
Qed.

Lemma normalize_view_definition_normal resource fields d :
  fields_sorted fields -> normalize_view_definition printed_size resource (JObject fields) = Ok d ->
  view_normal resource d.
Proof.
  intros Hs. unfold normalize_view_definition.
  destruct (existsb _ fields) eqn:Ek; [done|]. apply known_fields in Ek.
  destruct (trim_search (JObject fields)) as [d1|] eqn:E1; [|done].
  destruct (trim_search_normal _ _ Hs Ek E1) as [(f1 & -> & Hs1 & Hk1) Hn1].
  destruct (normalize_view_labels (JObject f1)) as [d2|] eqn:E2; [|done].
  destruct (normalize_view_labels_normal _ _ Hs1 Hk1 E2) as [Hf2 [Hn2 Hg]].
  destruct (match get "sort" d2 with Some _ => _ | None => _ end) as [[]|] eqn:E3; [|done].
  destruct (check_columns resource d2) as [[]|] eqn:E4; [|done].
  destruct (try_map _ _) as [us|] eqn:E5; [|done]. unfold ok_when.
  destruct (Z.leb_spec (printed_size d2) 8192); [|done]. intros [= <-].
  split; try done.
  - unfold field_ok in *. by rewrite Hg.
  - unfold field_ok. destruct (get "sort" d2) as [v|]; [|done]. apply ok_when_ok in E3. done.
  - apply List.Forall_forall. intros k Hk. destruct (try_map_in_inv _ _ _ _ E5 Hk) as ([] & _ & ?). done.
Qed.

Lemma view_normal_fixed resource d :
  view_normal resource d -> normalize_view_definition printed_size resource d = Ok d.
Proof.
  intros [(fields & -> & Hs & Hk) Hsearch Hlabels Hsort Hcols Hfil Hsize].
  unfold normalize_view_definition. rewrite (proj2 (known_fields fields) Hk).
  assert (E1 : trim_search (JObject fields) = Ok (JObject fields)).
  { unfold field_ok, trim_search in *. destruct (get "search" _) as [v|] eqn:Eg; [|done].
    destruct Hsearch as (s & -> & Ht & Hl). cbn [as_str]. rewrite Ht, (proj2 (Z.ltb_ge _ _) Hl).
    cbn [jset]. by rewrite field_insert_same. }
  assert (E2 : normalize_view_labels (JObject fields) = Ok (JObject fields)).
  { unfold field_ok, normalize_view_labels in *. destruct (get "labels" _) as [v|] eqn:Eg; [|done].
    destruct Hlabels as (ls & -> & Hn). cbn [as_array jstrs]. rewrite label_texts, labels_normal_fixed by done.
    cbn [jset]. by rewrite field_insert_same. }
  rewrite E1, E2. unfold field_ok in Hsort. cbn [check_columns] in Hcols.
  assert (E3 : match get "sort" (JObject fields) with
               | Some v => ok_when (string_in (view_sorts resource) v) "unsupported saved-view sort"
               | None => Ok tt end = Ok tt).
  { destruct (get "sort" _); [|done]. by rewrite Hsort. }
  rewrite E3, Hcols. destruct (try_map_total (check_issue_filter resource (JObject fields)) ["severity"; "kind"; "node"])
    as [us ->].
  { intros k Hin. exists tt. by apply (proj1 (List.Forall_forall _ _) Hfil). }
  unfold ok_when. by rewrite (proj2 (Z.leb_le _ _) Hsize).
Qed.

(** *** The table *)

(** Every row is under its id with a well-formed definition, and no admin has
    two views of one name on one resource. *)
Definition views_ok (views : gmap Uuid SavedView) : Prop :=
  (forall k v, views !! k = Some v -> sv_id v = k /\ view_normal (sv_resource v) (sv_definition v)) /\
  (forall k v l w, views !! k = Some v -> views !! l = Some w -> same_view_name sql_lower v w = true -> k = l).

Inductive view_op :=
| CreateView (name resource : string) (definition : json)
| UpdateView (id : Uuid) (name : option string) (definition : option json)
| DeleteView (id : Uuid).

Definition apply_view_op (admins : gset Uuid) (now fresh : Z) (i : Identity) (op : view_op)
    (views : gmap Uuid SavedView) : result (gmap Uuid SavedView) api_error :=
  match op with
  | CreateView n r d =>
      let? x := create_saved_view printed_size sql_lower admins now fresh i n r d views in Ok x.2
  | UpdateView id n d =>
      let? x := update_saved_view printed_size sql_lower collate admins now i id n d views in Ok x.2
  | DeleteView id => delete_saved_view i id views
  end.

(** A decoded JSON object has its keys in order. *)
Definition decoded (d : json) : Prop := match d with JObject fields => fields_sorted fields | _ => True end.
Definition op_decoded (op : view_op) : Prop :=
  match op with
  | CreateView _ _ d | UpdateView _ _ (Some d) => decoded d
  | _ => True
  end.

Lemma normalize_decoded resource d d' :
  decoded d -> normalize_view_definition printed_size resource d = Ok d' -> view_normal resource d'.
Proof. destruct d; try done. apply normalize_view_definition_normal. Qed.

Lemma same_view_name_sym v w : same_view_name sql_lower v w = same_view_name sql_lower w v.
Proof.
  unfold same_view_name. by rewrite (Z.eqb_sym (sv_admin_id v)), (String.eqb_sym (sv_resource v)),
    (String.eqb_sym (sql_lower (sv_name v))).
Qed.

Lemma store_view_ok admins v views r :
  views_ok views -> view_normal (sv_resource v) (sv_definition v) ->
  store_view sql_lower admins v views = Ok r -> r = (v, <[sv_id v := v]> views) /\ views_ok r.2.
Proof.
  intros [Hrow Huniq] Hv. unfold store_view. destruct (negb _); [done|].
  destruct (view_name_taken _ _ _) eqn:Ht; [done|]. destruct (negb _); [done|]. intros [= <-]. split; [done|].
  assert (Hnew : forall l w, views !! l = Some w -> l <> sv_id v -> same_view_name sql_lower v w = false).
  { intros l w Hl Hne. destruct (same_view_name sql_lower v w) eqn:E; [|done].
    rewrite <- not_true_iff_false in Ht. destruct Ht. apply List.existsb_exists. exists w.
    split; [by apply in_rows; eauto|]. rewrite E, andb_true_r. destruct (Hrow _ _ Hl) as [-> _].
    by apply negb_true_iff, Z.eqb_neq. }
  split; cbn [snd].
  - intros k w. destruct (decide (k = sv_id v)) as [->|Hne].
    + rewrite lookup_insert_eq. by intros [= <-].
    + rewrite lookup_insert_ne by done. apply Hrow.
  - intros k x l y Hx Hy Hs. destruct (decide (k = sv_id v)) as [->|Hk], (decide (l = sv_id v)) as [->|Hl];
      rewrite ?lookup_insert_eq, ?lookup_insert_ne in Hx by done;
      rewrite ?lookup_insert_eq, ?lookup_insert_ne in Hy by done; simplify_eq; [done| | |by eauto].
    + by rewrite (Hnew _ _ Hy Hl) in Hs.
    + rewrite same_view_name_sym in Hs. by rewrite (Hnew _ _ Hx Hk) in Hs.
Qed.

Lemma list_saved_views_in admin views v :
  In v (list_saved_views sql_lower collate admin views) <-> In v (rows views) /\ sv_admin_id v = admin.
Proof. unfold list_saved_views. by rewrite sort_by_in, List.filter_In, Z.eqb_eq. Qed.

Lemma given_ok {A B E} (f : A -> result B E) o y :
  given f o = Ok y -> y = None \/ exists x z, o = Some x /\ y = Some z /\ f x = Ok z.
Proof. destruct o as [x|]; simpl; [|naive_solver]. destruct (f x) eqn:Ex; [|done]. intros [= <-]. eauto 8. Qed.

(** What an accepted operation writes: the acting admin's own row. *)
Lemma view_op_effect admins now fresh i op views views' :
  views_ok views -> op_decoded op -> apply_view_op admins now fresh i op views = Ok views' ->
  exists a, admin_id i = Some a /\
    ((exists v, sv_admin_id v = a /\ views' = <[sv_id v := v]> views /\ views_ok views' /\
        (sv_id v = fresh \/ exists w, views !! sv_id v = Some w /\ sv_admin_id w = a)) \/
     (exists id w, views !! id = Some w /\ sv_admin_id w = a /\ views' = delete id views)).
Proof.
  intros Hok Hd H. destruct (admin_id i) as [a|] eqn:Ea.
  2:{ destruct op; cbn [apply_view_op] in H; unfold create_saved_view, update_saved_view, delete_saved_view,
        saved_view_admin in H; by rewrite Ea in H. }
  exists a. split; [done|].
  destruct op as [n r d|id n d|id]; cbn [apply_view_op] in H;
    unfold create_saved_view, update_saved_view, delete_saved_view, saved_view_admin in H; rewrite Ea in H.
  - destruct (ensure_view_resource i r); [|done]. destruct (valid_name n) as [n'|]; [|done].
    destruct (normalize_view_definition _ _ _) as [d'|] eqn:En; [|done].
    unfold lift_db, create_saved_view_row in H.
    destruct (store_view _ _ _ _) as [x|] eqn:Es; [|done]. simplify_eq/=. left.
    apply store_view_ok in Es as [-> Hok']; [|done|by eapply normalize_decoded].
    eexists. split_and!; [|reflexivity|done|by left]. done.
  - destruct (List.find _ _) as [cur|] eqn:Ef; [|done].
    apply List.find_some in Ef as [Hin Hid]. apply Z.eqb_eq in Hid. subst id.
    apply list_saved_views_in in Hin as [Hrow Hcur]. apply in_rows in Hrow as [k Hk].
    destruct (proj1 Hok _ _ Hk) as [<- Hnf].
    destruct (ensure_view_resource i _); [|done]. destruct (given valid_name n) as [n'|]; [|done].
    destruct (given _ d) as [d'|] eqn:Eg; [|done]. unfold lift_db, update_saved_view_row in H.
    rewrite Hk, Hcur, Z.eqb_refl in H. destruct (store_view _ _ _ _) as [x|] eqn:Es; [|done].
    simplify_eq/=. left.
    apply store_view_ok in Es as [-> Hok']; [|done|].
    + eexists. split_and!; [|reflexivity|done|right; by eauto]. done.
    + cbn [sv_resource sv_definition]. apply given_ok in Eg as [->|(x0 & z & -> & -> & En)]; [done|].
      by eapply normalize_decoded.
  - unfold delete_saved_view_row in H. destruct (views !! id) as [w|] eqn:Ew; [|done].
    destruct (Z.eqb_spec (sv_admin_id w) a); [|done]. simplify_eq. right. by eauto.
Qed.
End ViewFacts.

(** Over any operation on saved views, the table stays well formed (each
    row under its own id with a normalized definition, no admin with two views
    of one name on one resource), every stored definition is a fixed point of
    [normalize_view_definition], and no row of another admin is added, changed
    or removed. *)
Theorem saved_views_confined printed_size sql_lower collate admins now fresh i op views views' :
  views_ok printed_size sql_lower views -> views !! fresh = None -> op_decoded op ->
  apply_view_op printed_size sql_lower collate admins now fresh i op views = Ok views' ->
  views_ok printed_size sql_lower views' /\
  (forall k v, views' !! k = Some v ->
     normalize_view_definition printed_size (sv_resource v) (sv_definition v) = Ok (sv_definition v)) /\
  exists a, admin_id i = Some a /\
    forall k v, sv_admin_id v <> a -> views' !! k = Some v <-> views !! k = Some v.
Proof.
  intros Hok Hfresh Hd H.
  enough (Hboth : views_ok printed_size sql_lower views' /\ exists a, admin_id i = Some a /\
    forall k v, sv_admin_id v <> a -> views' !! k = Some v <-> views !! k = Some v).
  { destruct Hboth as [Hok' Ha]. split; [done|]. split; [|done]. intros k v Hk.
    by apply view_normal_fixed, (proj1 Hok' k v). }
  destruct (view_op_effect _ _ _ _ _ _ _ _ _ _ Hok Hd H) as
    (a & Ha & [(v & Hv & -> & Hok' & Hw)|(id & w & Hw & Hwa & ->)]).
  - split; [done|]. exists a. split; [done|]. intros k u Hu. destruct (decide (k = sv_id v)) as [->|Hne].
    + rewrite lookup_insert_eq. split; [by intros [= ->]|]. intros Hl.
      destruct Hw as [Hw|(w & Hw & Hwa)]; [by rewrite Hw, Hfresh in Hl|]. congruence.
    + by rewrite lookup_insert_ne.
  - split.
    + destruct Hok as [Hrow Huniq]. split.
      * intros k v Hk. apply lookup_delete_Some in Hk as [_ Hk]. by apply Hrow.
      * intros k v l x Hk Hl. apply lookup_delete_Some in Hk as [_ Hk]. apply lookup_delete_Some in Hl as [_ Hl].
        by eapply Huniq.
    + exists a. split; [done|]. intros k u Hu. rewrite lookup_delete_Some. split; [by intros [_ ?]|].
      intros Hk. split; [|done]. intros ->. congruence.
Qed.

(** A view in which nothing is normalized away, over an empty table. *)
Definition owner_of (a : Uuid) : Identity := mkIdentity (Some a) "ada" "owner" None None.
Definition sample_view : view_op :=
  CreateView " Fleet " "nodes" (obj [("labels", jstrs ["EU"; "edge"; "eu "]); ("sort", JString "name")]).

Lemma saved_views_confined_witness :
  exists views',
    apply_view_op (fun _ => 100) to_ascii_lowercase String.leb {[7]} 0 1 (owner_of 7) sample_view ∅ = Ok views' /\
    sv_definition <$> views' !! 1 = Some (obj [("labels", jstrs ["edge"; "eu"]); ("sort", JString "name")]) /\
    views_ok (fun _ => 100) to_ascii_lowercase views'.
Proof.
  eexists. split; [reflexivity|]. split; [reflexivity|].
  refine (proj1 (saved_views_confined (fun _ => 100) to_ascii_lowercase String.leb {[7]} 0 1 (owner_of 7)
    sample_view ∅ _ _ _ _ _)); [|done| |reflexivity].
  - split; [intros ? ? H|intros ? ? ? ? H]; by rewrite lookup_empty in H.
  - cbn. repeat constructor.
Defined.
