(* ===== verification/AuditLog.v ===== *)
(** * The audit hash chain (audit_chain_hash of src/master/src/auth.rs,
    record_audit of src/master/src/db/repo.rs, verify_audit_chain of
    src/master/src/api/mod.rs)

    SHA-256 and the JSON printer are parameters; [stored] is what a details
    value reads back as from the database. *)

From S2P Require Import Prelude Strings Json Auth.

Record AuditEvent := mkAudit {
  a_id : Z;
  a_actor_admin_id : option Uuid;
  a_actor_name : option string;
  a_action : string;
  a_resource_type : string;
  a_resource_id : option string;
  a_remote_addr : option string;
  a_details : json;
  a_created_at : Z;
  a_entry_hash : option (list Z) }.

(** [i64::to_be_bytes]. *)
Definition be_byte (n : Z) (i : Z) : Z := (n mod 2 ^ 64 / 2 ^ (8 * i)) mod 256.
Definition to_be_bytes (n : Z) : list Z := be_byte n <$> [7; 6; 5; 4; 3; 2; 1; 0].

Section Chain.
Context (sha256 : list Z -> list Z).
Context (to_string : json -> string).
Context (stored : json -> json).

(** The bytes the hasher is fed. *)
Definition chain_message (prev : option (list Z)) (id : Z) (actor : option string)
    (action resource_type : string) (resource_id : option string) (details : string)
    (created_micros : Z) : list Z :=
  default [] prev ++ to_be_bytes id
  ++ mjoin ((fun field => bytes field ++ [0]) <$>
       [default "" actor; action; resource_type; default "" resource_id; details])
  ++ to_be_bytes created_micros.

Definition audit_chain_hash (prev : option (list Z)) (id : Z) (actor : option string)
    (action resource_type : string) (resource_id : option string) (details : string)
    (created_micros : Z) : list Z :=
  sha256 (chain_message prev id actor action resource_type resource_id details created_micros).

Definition row_hash (prev : option (list Z)) (e : AuditEvent) : list Z :=
  audit_chain_hash prev (a_id e) (a_actor_name e) (a_action e) (a_resource_type e)
    (a_resource_id e) (to_string (a_details e)) (a_created_at e).

(** The table in id order, oldest first; [id] and [now] are the sequence's
    value and the transaction's time. *)
Definition record_audit (id now : Z) (actor_admin_id : option Uuid) (actor_name : option string)
    (action resource_type : string) (resource_id remote_addr : option string) (details : json)
    (rows_ : list AuditEvent) : list AuditEvent :=
  let prev := match last rows_ with Some e => a_entry_hash e | None => None end in
  let hash := audit_chain_hash prev id actor_name action resource_type resource_id
                (to_string details) now in
  rows_ ++ [mkAudit id actor_admin_id actor_name action resource_type resource_id remote_addr
              (stored details) now (Some hash)].

(** The verification loop: entries checked, the first broken id. *)
Fixpoint verify_from (prev : option (list Z)) (checked : Z) (rows_ : list AuditEvent)
    : Z * option Z :=
  match rows_ with
  | [] => (checked, None)
  | e :: rest =>
      match a_entry_hash e with
      | None => verify_from None checked rest
      | Some stored_hash =>
          if bool_decide (row_hash prev e = stored_hash)
          then verify_from (Some stored_hash) (checked + 1) rest
          else (checked + 1, Some (a_id e))
      end
  end.

Definition verify_audit_chain (rows_ : list AuditEvent) : Z * option Z := verify_from None 0 rows_.

Definition intact (rows_ : list AuditEvent) : bool := negb (is_some (verify_audit_chain rows_).2).

(** ** Properties *)

Lemma verify_from_app rows1 rows2 : forall prev n,
  verify_from prev n (rows1 ++ rows2) =
  match verify_from prev n rows1 with
  | (n', None) => verify_from (match last rows1 with Some e => a_entry_hash e | None => prev end) n' rows2
  | broken => broken
  end.
Proof.
  induction rows1 as [|e rest IH]; intros prev n; simpl; [done|].
  assert (Hlast : forall h, a_entry_hash e = h ->
    match last (e :: rest) with Some e0 => a_entry_hash e0 | None => prev end
    = match last rest with Some e0 => a_entry_hash e0 | None => h end).
  { intros h Hh. rewrite last_cons. by destruct (last rest). }
  destruct (a_entry_hash e) as [h|] eqn:Eh.
  - case_bool_decide; [|done]. rewrite IH. by rewrite (Hlast _ eq_refl).
  - rewrite IH. by rewrite (Hlast _ eq_refl).
Qed.

Lemma verify_from_count rows_ : forall prev n,
  verify_from prev n rows_ = (n + (verify_from prev 0 rows_).1, (verify_from prev 0 rows_).2).
Proof.
  induction rows_ as [|e rest IH]; intros prev n; simpl; [f_equal; lia|].
  destruct (a_entry_hash e); [|apply IH].
  case_bool_decide; simpl; [|done]. rewrite (IH _ (n + 1)), (IH _ (0 + 1)). simpl. f_equal; lia.
Qed.
End Chain.

(** Recording keeps the chain verifiable.  If the log verifies and the
    details of the new entry print the same once stored, the log with the new
    entry verifies, one more entry being checked. *)
Theorem record_audit_intact (sha256 : list Z -> list Z) (to_string : json -> string)
    (stored : json -> json) (id now : Z) (actor_admin_id : option Uuid)
    (actor_name : option string) (action resource_type : string)
    (resource_id remote_addr : option string) (details : json) (rows_ : list AuditEvent) (n : Z) :
  to_string (stored details) = to_string details ->
  verify_audit_chain sha256 to_string rows_ = (n, None) ->
  verify_audit_chain sha256 to_string
    (record_audit sha256 to_string stored id now actor_admin_id actor_name action resource_type
       resource_id remote_addr details rows_) = (n + 1, None).
Proof.
  unfold verify_audit_chain, record_audit. intros Hs Hv. rewrite verify_from_app, Hv. simpl.
  rewrite bool_decide_eq_true_2; [done|]. unfold row_hash. simpl. by rewrite Hs.
Qed.

Lemma record_audit_intact_witness :
  verify_audit_chain (fun l => l) (fun _ => "{}")
    (record_audit (fun l => l) (fun _ => "{}") (fun j => j) 1 5 None (Some "root") "login" "session"
       None None empty_object []) = (1, None).
Proof.
  apply (record_audit_intact (fun l => l) (fun _ => "{}") (fun j => j) 1 5 None (Some "root")
    "login" "session" None None empty_object [] 0); reflexivity.
Defined.

(** The entry with another source address and another actor account. *)
Definition reattribute (remote : option string) (actor : option Uuid) (e : AuditEvent) : AuditEvent :=
  mkAudit (a_id e) actor (a_actor_name e) (a_action e) (a_resource_type e) (a_resource_id e)
    remote (a_details e) (a_created_at e) (a_entry_hash e).

(** What the chain does not see.  Dropping any number of the newest entries,
    or rewriting the source address and the acting account of every entry,
    leaves an intact log intact. *)
Theorem audit_blind_spots (sha256 : list Z -> list Z) (to_string : json -> string)
    (rows_ : list AuditEvent) :
  intact sha256 to_string rows_ = true ->
  (forall k, intact sha256 to_string (take k rows_) = true) /\
  (forall remote actor, intact sha256 to_string (reattribute remote actor <$> rows_) = true).
Proof.
  intros H. split.
  - intros k. unfold intact, verify_audit_chain in *. rewrite <- (take_drop k rows_), verify_from_app in H.
    by destruct (verify_from _ _ None 0 (take k rows_)) as [n [b|]].
  - intros remote actor. rewrite <- H. unfold intact, verify_audit_chain. do 2 f_equal.
    generalize (@None (list Z)), 0. clear H.
    induction rows_ as [|e rest IH]; intros prev n; [done|].
    change (reattribute remote actor <$> e :: rest) with
      (reattribute remote actor e :: (reattribute remote actor <$> rest)). simpl.
    destruct (a_entry_hash e) as [h|]; [|apply IH].
    change (row_hash sha256 to_string prev (reattribute remote actor e)) with (row_hash sha256 to_string prev e).
    case_bool_decide; [apply IH|done].
Qed.

Definition sample_log : list AuditEvent :=
  record_audit (fun l => l) (fun _ => "{}") (fun j => j) 2 6 None (Some "root") "delete" "node"
    (Some "n1") (Some "203.0.113.9") empty_object
    (record_audit (fun l => l) (fun _ => "{}") (fun j => j) 1 5 None (Some "root") "login" "session"
       None None empty_object []).

Lemma audit_blind_spots_witness : intact (fun l => l) (fun _ => "{}") (take 1 sample_log) = true.
Proof.
  refine (proj1 (audit_blind_spots (fun l => l) (fun _ => "{}") sample_log _) 1%nat).
  vm_compute. reflexivity.
Defined.

(** ** Tamper evidence *)

Definition in_i64 (n : Z) : Prop := i64_min <= n <= i64_max.

Lemma be_byte_testbit n i j :
  0 <= i -> 0 <= j < 8 -> Z.testbit (be_byte n i) j = Z.testbit (n mod 2 ^ 64) (8 * i + j).
Proof.
  intros Hi Hj. unfold be_byte. change 256 with (2 ^ 8).
  rewrite Z.mod_pow2_bits_low by lia. rewrite Z.div_pow2_bits by lia. f_equal. lia.
Qed.

Lemma to_be_bytes_inj n m : in_i64 n -> in_i64 m -> to_be_bytes n = to_be_bytes m -> n = m.
Proof.
  unfold in_i64, i64_min, i64_max. intros Hn Hm H.
  assert (Hb : forall i, 0 <= i < 8 -> be_byte n i = be_byte m i).
  { injection H as H7 H6 H5 H4 H3 H2 H1 H0. intros i Hi.
    assert (Hc : i = 0 \/ i = 1 \/ i = 2 \/ i = 3 \/ i = 4 \/ i = 5 \/ i = 6 \/ i = 7) by lia.
    by repeat destruct Hc as [->|Hc]; [..|rewrite Hc]. }
  assert (Hmod : n mod 2 ^ 64 = m mod 2 ^ 64).
  { apply Z.bits_inj'. intros k Hk. destruct (Z_lt_le_dec k 64) as [Hlt|Hge].
    - replace k with (8 * (k / 8) + k mod 8) by (symmetry; apply Z.div_mod; lia).
      assert (0 <= k / 8 < 8) by (split; [apply Z.div_pos; lia|apply Z.div_lt_upper_bound; lia]).
      pose proof (Z.mod_pos_bound k 8 ltac:(lia)).
      rewrite <- !be_byte_testbit by lia. by rewrite Hb.
    - by rewrite !Z.mod_pow2_bits_high by lia. }
  change (2 ^ 64) with 18446744073709551616 in Hmod.
  pose proof (Z.div_mod n 18446744073709551616 ltac:(lia)).
  pose proof (Z.div_mod m 18446744073709551616 ltac:(lia)).
  pose proof (Z.mod_pos_bound n 18446744073709551616 ltac:(lia)). nia.
Qed.

Lemma to_be_bytes_length n : length (to_be_bytes n) = 8%nat.
Proof. done. Qed.

(** No NUL byte, as the database's text type guarantees. *)
Definition nul_free (s : string) : Prop := Forall (fun b => b <> 0) (bytes s).

Lemma nul_split a b x y :
  nul_free a -> nul_free b -> (bytes a ++ [0]) ++ x = (bytes b ++ [0]) ++ y -> a = b /\ x = y.
Proof.
  rewrite <- !app_assoc. unfold nul_free. revert b.
  induction a as [|c a IH]; intros [|d b]; simpl; intros Ha Hb H.
  - by injection H as ->.
  - inversion_clear Hb. injection H as H _. congruence.
  - inversion_clear Ha. injection H as H _. congruence.
  - inversion_clear Ha. inversion_clear Hb. injection H as Hc Ht.
    apply code_inj in Hc as ->. destruct (IH b) as [-> ->]; done.
Qed.

Section TamperEvidence.
Context (sha256 : list Z -> list Z) (to_string : json -> string).

(** What a stored row satisfies by the types of its columns. *)
Definition row_ok (e : AuditEvent) : Prop :=
  in_i64 (a_id e) /\ in_i64 (a_created_at e) /\ nul_free (default "" (a_actor_name e)) /\
  nul_free (a_action e) /\ nul_free (a_resource_type e) /\ nul_free (default "" (a_resource_id e)) /\
  nul_free (to_string (a_details e)).

(** Agreement on everything the hash covers. *)
Definition same_record (e1 e2 : AuditEvent) : Prop :=
  a_id e1 = a_id e2 /\ default "" (a_actor_name e1) = default "" (a_actor_name e2) /\
  a_action e1 = a_action e2 /\ a_resource_type e1 = a_resource_type e2 /\
  default "" (a_resource_id e1) = default "" (a_resource_id e2) /\
  to_string (a_details e1) = to_string (a_details e2) /\ a_created_at e1 = a_created_at e2.

Definition row_message (prev : option (list Z)) (e : AuditEvent) : list Z :=
  chain_message prev (a_id e) (a_actor_name e) (a_action e) (a_resource_type e)
    (a_resource_id e) (to_string (a_details e)) (a_created_at e).

Lemma row_message_inj p1 p2 e1 e2 :
  length (default [] p1) = length (default [] p2) -> row_ok e1 -> row_ok e2 ->
  row_message p1 e1 = row_message p2 e2 -> default [] p1 = default [] p2 /\ same_record e1 e2.
Proof.
  intros Hlen (Hi1 & Hc1 & Ha1 & Hn1 & Ht1 & Hr1 & Hd1) (Hi2 & Hc2 & Ha2 & Hn2 & Ht2 & Hr2 & Hd2) H.
  unfold row_message, chain_message in H.
  apply app_inj_1 in H as [Hp H]; [|done]. split; [done|].
  apply app_inj_1 in H as [Hid H]; [|done]. apply to_be_bytes_inj in Hid; [|done..].
  simpl in H. rewrite app_nil_r in H. rewrite <- !(app_assoc (_ ++ [0])) in H.
  apply nul_split in H as [? H]; [|done..]. apply nul_split in H as [? H]; [|done..].
  apply nul_split in H as [? H]; [|done..]. apply nul_split in H as [? H]; [|done..].
  rewrite app_nil_r in H || idtac. apply nul_split in H as [? H]; [|done..].
  apply to_be_bytes_inj in H; [|done..]. repeat split; done.
Qed.

Definition last_hash (rows_ : list AuditEvent) : option (list Z) :=
  match last rows_ with Some e => a_entry_hash e | None => None end.

Lemma intact_snoc rows_ e :
  is_some (a_entry_hash e) = true -> intact sha256 to_string (rows_ ++ [e]) = true ->
  intact sha256 to_string rows_ = true /\
  a_entry_hash e = Some (sha256 (row_message (last_hash rows_) e)).
Proof.
  intros He H. unfold intact, verify_audit_chain in *. rewrite verify_from_app in H.
  destruct (verify_from _ _ None 0 rows_) as [n [b|]]; [done|]. split; [done|]. simpl in H.
  destruct (a_entry_hash e) as [h|] eqn:Eh; [|done]. fold (last_hash rows_) in H.
  case_bool_decide as Hh; [|done]. by rewrite <- Hh.
Qed.

Lemma last_hash_snoc rows_ e : last_hash (rows_ ++ [e]) = a_entry_hash e.
Proof. unfold last_hash. by rewrite last_snoc. Qed.

(** The messages a verification of the log hashes, entry by entry. *)
Fixpoint messages_from (prev : option (list Z)) (rows_ : list AuditEvent) : list (list Z) :=
  match rows_ with
  | [] => []
  | e :: rest => row_message prev e :: messages_from (a_entry_hash e) rest
  end.
Definition messages : list AuditEvent -> list (list Z) := messages_from None.

Lemma messages_snoc rows_ e : messages (rows_ ++ [e]) = messages rows_ ++ [row_message (last_hash rows_) e].
Proof.
  unfold messages, last_hash.
  assert (H : forall prev, messages_from prev (rows_ ++ [e])
    = messages_from prev rows_ ++ [row_message (match last rows_ with Some x => a_entry_hash x | None => prev end) e]); [|apply H].
  induction rows_ as [|x rest IH]; intros prev; [done|]. cbn [app messages_from]. rewrite IH, last_cons. by destruct (last rest).
Qed.

Lemma messages_length rows_ : length (messages rows_) = length rows_.
Proof. unfold messages. generalize (@None (list Z)). induction rows_; intros prev; simpl; [done|]. by rewrite IHrows_. Qed.

(** Two logs collide where their entries hash different messages to one digest. *)
Definition collide (log1 log2 : list AuditEvent) : Prop :=
  exists i m1 m2, messages log1 !! i = Some m1 /\ messages log2 !! i = Some m2 /\ m1 <> m2 /\ sha256 m1 = sha256 m2.

Lemma collide_snoc log1 log2 e1 e2 : collide log1 log2 -> collide (log1 ++ [e1]) (log2 ++ [e2]).
Proof.
  intros (i & m1 & m2 & H1 & H2 & Hne & Hs). exists i, m1, m2. rewrite !messages_snoc.
  split; [by apply lookup_app_l_Some|]. by split; [apply lookup_app_l_Some|].
Qed.

Lemma collide_last log1 log2 e1 e2 : length log1 = length log2 ->
  row_message (last_hash log1) e1 <> row_message (last_hash log2) e2 ->
  sha256 (row_message (last_hash log1) e1) = sha256 (row_message (last_hash log2) e2) -> collide (log1 ++ [e1]) (log2 ++ [e2]).
Proof.
  intros Hl Hne Hs. exists (length log1). do 2 eexists. rewrite !messages_snoc.
  split; [apply list_lookup_middle; by rewrite messages_length|]. split; [apply list_lookup_middle; by rewrite messages_length|]. done.
Qed.
End TamperEvidence.

(** C10: The chain is tamper evident.  Two fully hashed logs (of rows as the columns
    hold them: 64-bit numbers and texts without NUL) that verify, have as many
    entries and end in the same hash record the same events in every field the hash
    covers, unless at some position the two logs themselves hash different messages to
    the same SHA-256 digest, which is then a collision found by whoever made them.  So
    an entry cannot be altered, replaced or reordered under an unchanged chain head. *)
Theorem audit_tamper_evident (sha256 : list Z -> list Z) (to_string : json -> string)
    (log1 log2 : list AuditEvent) :
  (forall m, length (sha256 m) = 32%nat) ->
  Forall (row_ok to_string) log1 -> Forall (row_ok to_string) log2 ->
  Forall (fun e => is_some (a_entry_hash e) = true) log1 ->
  Forall (fun e => is_some (a_entry_hash e) = true) log2 ->
  intact sha256 to_string log1 = true -> intact sha256 to_string log2 = true ->
  length log1 = length log2 -> last_hash log1 = last_hash log2 ->
  Forall2 (same_record to_string) log1 log2
  \/ exists i m1 m2, messages to_string log1 !! i = Some m1 /\ messages to_string log2 !! i = Some m2
       /\ m1 <> m2 /\ sha256 m1 = sha256 m2.
Proof.
  intros Hlen. revert log2.
  induction log1 as [|e1 log1 IH] using rev_ind; intros log2 Hok1 Hok2 Hh1 Hh2 Hi1 Hi2 Hl Hlast.
  { destruct log2; [by left|done]. }
  destruct log2 as [|e2 log2 _] using rev_ind.
  { rewrite length_app in Hl. simpl in Hl. lia. }
  rewrite !length_app in Hl. simpl in Hl.
  apply Forall_app in Hok1 as [Hok1 He1], Hok2 as [Hok2 He2], Hh1 as [Hh1 Hx1], Hh2 as [Hh2 Hx2].
  inversion_clear He1 as [|? ? Hr1 _]. inversion_clear He2 as [|? ? Hr2 _].
  inversion_clear Hx1 as [|? ? Hs1 _]. inversion_clear Hx2 as [|? ? Hs2 _].
  apply intact_snoc in Hi1 as [Hi1 Hm1]; [|done]. apply intact_snoc in Hi2 as [Hi2 Hm2]; [|done].
  rewrite !last_hash_snoc, Hm1, Hm2 in Hlast. injection Hlast as Hsha.
  destruct (decide (row_message to_string (last_hash log1) e1 = row_message to_string (last_hash log2) e2))
    as [Heq|Hne]; [|right; apply collide_last; [lia|done|done]].
  assert (Hshape : forall l, Forall (fun e => is_some (a_entry_hash e) = true) l ->
            intact sha256 to_string l = true -> l <> [] -> exists h, last_hash l = Some h /\ length h = 32%nat).
  { intros l Hf Hi Hne. destruct l as [|e l _] using rev_ind; [done|].
    apply Forall_app in Hf as [_ Hf]. inversion_clear Hf as [|? ? Hs _].
    apply intact_snoc in Hi as [_ Hm]; [|done]. rewrite last_hash_snoc, Hm. eauto. }
  destruct log1 as [|x1 log1'], log2 as [|x2 log2']; try (simpl in Hl; lia).
  - left. apply row_message_inj in Heq as [_ Hsame]; [|done..]. by constructor.
  - destruct (Hshape _ Hh1 Hi1) as (h1 & El1 & Hn1); [done|].
    destruct (Hshape _ Hh2 Hi2) as (h2 & El2 & Hn2); [done|].
    rewrite El1, El2 in Heq. apply row_message_inj in Heq as [Hp Hsame]; [|simpl; congruence|done..].
    simpl in Hp. destruct (IH (x2 :: log2')) as [Hall|Hcoll]; try done; [simpl in *; lia|congruence| |right; by apply collide_snoc].
    left. apply Forall2_app; [done|]. by constructor.
Qed.

Definition first32 (m : list Z) : list Z := take 32 (m ++ replicate 32 0).
Definition short_log : list AuditEvent :=
  record_audit first32 (fun _ => "{}") (fun j => j) 1 5 None (Some "root") "login" "session"
    None None empty_object [].
Definition reattributed_log : list AuditEvent := reattribute (Some "10.0.0.1") (Some 9) <$> short_log.

Lemma first32_length m : length (first32 m) = 32%nat.
Proof. unfold first32. rewrite length_take, length_app, length_replicate. lia. Qed.

Lemma short_rows_ok :
  Forall (row_ok (fun _ => "{}")) short_log /\ Forall (row_ok (fun _ => "{}")) reattributed_log.
Proof.
  split; (constructor; [|constructor]); unfold row_ok, in_i64, i64_min, i64_max, nul_free; simpl;
    (split; [lia|]); (split; [lia|]); repeat split; repeat (constructor; [discriminate|]); constructor.
Qed.

Lemma audit_tamper_evident_witness : Forall2 (same_record (fun _ => "{}")) short_log reattributed_log.
Proof.
  destruct (audit_tamper_evident first32 (fun _ => "{}") short_log reattributed_log first32_length) as [H|(i & m1 & m2 & H1 & H2 & Hne & _)].
  1: exact (proj1 short_rows_ok).
  1: exact (proj2 short_rows_ok).
  1,2: constructor; [reflexivity|constructor].
  1-4: vm_compute; reflexivity.
  - exact H.
  - exfalso. apply Hne. change (messages (fun _ => "{}") reattributed_log) with (messages (fun _ => "{}") short_log) in H2. congruence.
Defined.
