(* ===== verification/Secrets.v ===== *)
(** * Secrets at rest (src/master/src/secret.rs, src/master/src/secret_source.rs
    and the key-rotation queries of src/master/src/db/repo.rs)

    XChaCha20-Poly1305 and base64 are interfaces with their laws; the random
    bytes of a call are an argument, [None] when the random source fails. *)

From S2P Require Import Prelude Strings Json.

(** ** Interfaces *)

(** An authenticated cipher: keyed by 32 bytes, a sealed text is longer than
    its plaintext by the tag. *)
Class Aead := {
  Cipher : Type;
  new_cipher : string -> Cipher;
  seal : Cipher -> string -> string -> option string;
  unseal : Cipher -> string -> string -> option string }.
Class AeadLaws `{Aead} := {
  unseal_seal : forall c nonce p ct, seal c nonce p = Some ct -> unseal c nonce ct = Some p;
  seal_length : forall c nonce p ct, seal c nonce p = Some ct ->
    String.length ct = (String.length p + 16)%nat }.

Class Base64 := {
  b64_encode : string -> string;
  b64_decode : string -> option string }.
Class Base64Laws `{Base64} := b64_decode_encode : forall s, b64_decode (b64_encode s) = Some s.

(** What the rest of the code relies on: a stored secret reads back. *)
Class SecretStore (encrypt decrypt : string -> option string) :=
  decrypt_encrypt : forall p s, utf8_valid p = true -> encrypt p = Some s -> decrypt s = Some p.

Definition PREFIX : string := "enc:v1:".
Definition NONCE_LEN : nat := 24.

Inductive secret_error :=
| NotBase64
| BadKeyLength (n : Z)
| AlreadyInitialised
| SecretRngFailed
| SealFailed
| KeyNotSet
| TooShort
| UnsealFailed
| NotUtf8.

(** ** secret.rs *)

Section Cipher.
Context `{Aead, Base64}.

(** The process-wide cell: unset, set without a key, set with one. *)
Definition CipherCell : Type := option (option Cipher).

Definition init (key_b64 : option string) (cell : CipherCell) : result unit secret_error * CipherCell :=
  let cipher :=
    match key_b64 with
    | Some raw =>
        if is_empty (trim raw) then Ok None
        else match b64_decode (trim raw) with
             | None => Err NotBase64
             | Some bytes =>
                 if len bytes =? 32 then Ok (Some (new_cipher bytes)) else Err (BadKeyLength (len bytes))
             end
    | None => Ok None
    end in
  match cipher with
  | Err e => (Err e, cell)
  | Ok c => match cell with
            | None => (Ok tt, Some c)
            | Some _ => (Err AlreadyInitialised, cell)
            end
  end.

Definition is_enabled (cell : CipherCell) : bool :=
  match cell with Some (Some _) => true | _ => false end.

Definition cipher (cell : CipherCell) : option Cipher := mjoin cell.

(** [PREFIX] and the base64 of nonce and ciphertext. *)
Definition wrap (c : Cipher) (nonce : option string) (plaintext : string) : result string secret_error :=
  match nonce with
  | None => Err SecretRngFailed
  | Some nonce =>
      match seal c nonce plaintext with
      | None => Err SealFailed
      | Some ciphertext => Ok (PREFIX +:+ b64_encode (nonce +:+ ciphertext))
      end
  end.

Definition unwrap (c : Cipher) (b64 : string) : result string secret_error :=
  match b64_decode b64 with
  | None => Err NotBase64
  | Some blob =>
      if (String.length blob <=? NONCE_LEN)%nat then Err TooShort
      else match unseal c (take_bytes NONCE_LEN blob) (drop_bytes NONCE_LEN blob) with
           | None => Err UnsealFailed
           | Some plaintext => if utf8_valid plaintext then Ok plaintext else Err NotUtf8
           end
  end.

Definition encrypt (cell : CipherCell) (nonce : option string) (plaintext : string)
    : result string secret_error :=
  match cipher cell with
  | None => Ok plaintext
  | Some c => wrap c nonce plaintext
  end.

Definition decrypt (cell : CipherCell) (stored : string) : result string secret_error :=
  match strip_prefix PREFIX stored with
  | None => Ok stored
  | Some b64 =>
      match cipher cell with
      | None => Err KeyNotSet
      | Some c => unwrap c b64
      end
  end.

Definition cipher_from_b64 (key_b64 : string) : result Cipher secret_error :=
  match b64_decode (trim key_b64) with
  | None => Err NotBase64
  | Some bytes => if len bytes =? 32 then Ok (new_cipher bytes) else Err (BadKeyLength (len bytes))
  end.

Definition rekey_value (old_key_b64 new_key_b64 : string) (nonce : option string) (stored : string)
    : result string secret_error :=
  let? plaintext :=
    match strip_prefix PREFIX stored with
    | Some b64 => let? c := cipher_from_b64 old_key_b64 in unwrap c b64
    | None => Ok stored
    end in
  let? c := cipher_from_b64 new_key_b64 in
  wrap c nonce plaintext.

Definition generate_key_b64 (random : option string) : result string secret_error :=
  match random with Some key => Ok (b64_encode key) | None => Err SecretRngFailed end.

(** ** Rotation

    The encrypted columns, each in the order its query returns the rows.  A
    row is rewritten by one statement of its own; the passes stop at the first
    error and keep what they have written. *)
Record UserSecrets := mkUserSecrets {
  us_uuid : string; us_password : string; us_token_enc : option string }.

Record SecretColumns := mkColumns {
  user_secrets : list (Uuid * UserSecrets);
  user_subscription_tokens : list (Uuid * option string);
  wg_private_keys : list ((string * Uuid) * string);
  service_secrets : list (Uuid * option string);
  reality_private_keys : list (Uuid * option string);
  chain_passwords : list (Uuid * option string);
  totp_secrets : list (Uuid * option string) }.

(** Rewrite a column: (rows rewritten or the error, the column after). *)
Fixpoint rewrite_column {K V} (f : K -> V -> option (result V secret_error)) (rows_ : list (K * V))
    : result Z secret_error * list (K * V) :=
  match rows_ with
  | [] => (Ok 0, [])
  | (k, v) :: rest =>
      match f k v with
      | None => let '(r, rest') := rewrite_column f rest in (r, (k, v) :: rest')
      | Some (Err e) => (Err e, (k, v) :: rest)
      | Some (Ok v') =>
          let '(r, rest') := rewrite_column f rest in
          (let? n := r in Ok (n + 1), (k, v') :: rest')
      end
  end.

Section Passes.
(** The value written for a stored one; [site] names the table, the column and
    the row, and so the random draw. *)
Context (renew : string * Uuid -> string -> result string secret_error).

Definition renew_user (id : Uuid) (u : UserSecrets) : option (result UserSecrets secret_error) :=
  Some (let? uuid := renew ("users.uuid", id) (us_uuid u) in
        let? password := renew ("users.password", id) (us_password u) in
        let? token_enc :=
          match us_token_enc u with
          | None => Ok None
          | Some t => let? t := renew ("users.subscription_token_enc", id) t in Ok (Some t)
          end in
        Ok (mkUserSecrets uuid password token_enc)).

Definition renew_opt (site : string) (id : Uuid) (v : option string)
    : option (result (option string) secret_error) :=
  match v with
  | None => None
  | Some v => Some (let? v := renew (site, id) v in Ok (Some v))
  end.

Definition renew_wg (k : string * Uuid) (v : string) : option (result string secret_error) :=
  Some (renew k v).

(** The passes both commands share, in order. *)
Definition renew_columns (db : SecretColumns) : result (Z * Z) secret_error * SecretColumns :=
  match rewrite_column renew_user (user_secrets db) with
  | (Err e, us) => (Err e, mkColumns us (user_subscription_tokens db) (wg_private_keys db)
                             (service_secrets db) (reality_private_keys db) (chain_passwords db)
                             (totp_secrets db))
  | (Ok users, us) =>
  match rewrite_column (renew_opt "user_subscriptions.token_enc") (user_subscription_tokens db) with
  | (Err e, ts) => (Err e, mkColumns us ts (wg_private_keys db) (service_secrets db)
                             (reality_private_keys db) (chain_passwords db) (totp_secrets db))
  | (Ok _, ts) =>
  match rewrite_column renew_wg (wg_private_keys db) with
  | (Err e, ws) => (Err e, mkColumns us ts ws (service_secrets db) (reality_private_keys db)
                             (chain_passwords db) (totp_secrets db))
  | (Ok _, ws) =>
  match rewrite_column (renew_opt "node_services.secret") (service_secrets db) with
  | (Err e, ss) => (Err e, mkColumns us ts ws ss (reality_private_keys db) (chain_passwords db)
                             (totp_secrets db))
  | (Ok _, ss) =>
  match rewrite_column (renew_opt "inbounds.reality_private_key") (reality_private_keys db) with
  | (Err e, rs) => (Err e, mkColumns us ts ws ss rs (chain_passwords db) (totp_secrets db))
  | (Ok inbounds, rs) =>
  match rewrite_column (renew_opt "inbounds.chain_password") (chain_passwords db) with
  | (Err e, cs) => (Err e, mkColumns us ts ws ss rs cs (totp_secrets db))
  | (Ok _, cs) => (Ok (users, inbounds), mkColumns us ts ws ss rs cs (totp_secrets db))
  end end end end end end.
End Passes.

Definition reencrypt_value (cell : CipherCell) (rng : string * Uuid -> option string)
    (site : string * Uuid) (stored : string) : result string secret_error :=
  let? p := decrypt cell stored in encrypt cell (rng site) p.

Definition reencrypt_secrets (cell : CipherCell) (rng : string * Uuid -> option string)
    : SecretColumns -> result (Z * Z) secret_error * SecretColumns :=
  renew_columns (reencrypt_value cell rng).

Definition rekey_secrets (old new : string) (rng : string * Uuid -> option string) (db : SecretColumns)
    : result (Z * Z * Z) secret_error * SecretColumns :=
  let renew site := rekey_value old new (rng site) in
  match renew_columns renew db with
  | (Err e, db) => (Err e, db)
  | (Ok counts, db) =>
      let '(r, ts) := rewrite_column (renew_opt renew "admins.totp_secret") (totp_secrets db) in
      (let? admins := r in Ok (counts, admins),
       mkColumns (user_secrets db) (user_subscription_tokens db) (wg_private_keys db)
         (service_secrets db) (reality_private_keys db) (chain_passwords db) ts)
  end.

(** The [rekey] command. *)
Inductive command_error := KeysMissing | SameKeys | RotationFailed (e : secret_error).

Definition rekey (old_key new_key : string) (rng : string * Uuid -> option string) (db : SecretColumns)
    : result (Z * Z * Z) command_error * SecretColumns :=
  if is_empty (trim old_key) || is_empty (trim new_key) then (Err KeysMissing, db)
  else if String.eqb (trim old_key) (trim new_key) then (Err SameKeys, db)
  else let '(r, db) := rekey_secrets old_key new_key rng db in
       (match r with Ok n => Ok n | Err e => Err (RotationFailed e) end, db).

Definition reencrypt (cell : CipherCell) (rng : string * Uuid -> option string) (db : SecretColumns)
    : result (Z * Z) command_error * SecretColumns :=
  if negb (is_enabled cell) then (Err KeysMissing, db)
  else let '(r, db) := reencrypt_secrets cell rng db in
       (match r with Ok n => Ok n | Err e => Err (RotationFailed e) end, db).
End Cipher.

(** ** secret_source.rs

    The process environment, files, the Vault server and shell commands are the
    environment: [None] is an unset variable or a failed access. *)
Record SourceEnv := mkSource {
  var : string -> option string;
  read_to_string : string -> option string;
  vault_get : string -> string -> option json;
  shell : string -> option (bool * string) }.

Inductive source_error :=
| FileUnreadable
| EnvRequired (name : string)
| VaultFailed
| VaultFieldMissing
| CommandFailed
| EmptyKey (backend : string).

Section Source.
Context (world : SourceEnv).

Definition env (name : string) : option string :=
  match var world name with
  | Some v => if is_empty (trim v) then None else Some (trim v)
  | None => None
  end.

Definition require_env (name : string) : result string source_error :=
  match env name with Some v => Ok v | None => Err (EnvRequired name) end.

Definition fetch_vault : result string source_error :=
  let? addr := require_env "HONEY_VAULT_ADDR" in
  let addr := trim_end_matches "/" addr in
  let? token := require_env "HONEY_VAULT_TOKEN" in
  let? path := require_env "HONEY_VAULT_PATH" in
  let mount := default "secret" (env "HONEY_VAULT_MOUNT") in
  let field := default "key" (env "HONEY_VAULT_FIELD") in
  let kv1 := match env "HONEY_VAULT_KV_VERSION" with Some v => String.eqb v "1" | None => false end in
  let path := trim_matches "/" path in
  let url := addr +:+ "/v1/" +:+ mount +:+ (if kv1 then "/" else "/data/") +:+ path in
  match vault_get world url token with
  | None => Err VaultFailed
  | Some body =>
      let data := default JNull (get "data" body) in
      let data := if kv1 then data else default JNull (get "data" data) in
      match get_str field data with
      | Some value => Ok (trim value)
      | None => Err VaultFieldMissing
      end
  end.

Definition run_command (cmd : string) : result string source_error :=
  match shell world cmd with
  | None => Err CommandFailed
  | Some (success, stdout) =>
      if negb success || negb (utf8_valid stdout) then Err CommandFailed
      else if is_empty (trim stdout) then Err CommandFailed else Ok (trim stdout)
  end.

(** The first configured backend, and the key it yields. *)
Definition resolve : result (option string * string) source_error :=
  let? found :=
    match env "HONEY_SECRET_KEY" with
    | Some v => Ok (Some v, "env")
    | None =>
        match env "HONEY_SECRET_KEY_FILE" with
        | Some path =>
            match read_to_string world path with
            | Some raw => Ok (Some (trim raw), "file")
            | None => Err FileUnreadable
            end
        | None =>
            if is_some (env "HONEY_VAULT_ADDR")
            then let? key := fetch_vault in Ok (Some key, "vault")
            else match env "HONEY_SECRET_KEY_COMMAND" with
                 | Some cmd => let? key := run_command cmd in Ok (Some key, "command")
                 | None => Ok (None, "none")
                 end
        end
    end in
  if is_some_and found.1 is_empty then Err (EmptyKey found.2) else Ok found.
End Source.

(** ** Properties *)

(** Every stored value with the place it is stored at. *)
Definition opt_values (site : string) (row : Uuid * option string) : list ((string * Uuid) * string) :=
  match row.2 with Some v => [((site, row.1), v)] | None => [] end.
Definition user_values (row : Uuid * UserSecrets) : list ((string * Uuid) * string) :=
  (("users.uuid", row.1), us_uuid row.2) :: (("users.password", row.1), us_password row.2)
  :: opt_values "users.subscription_token_enc" (row.1, us_token_enc row.2).

Definition shared_values (db : SecretColumns) : list ((string * Uuid) * string) :=
  flat_map user_values (user_secrets db)
  ++ flat_map (opt_values "user_subscriptions.token_enc") (user_subscription_tokens db)
  ++ wg_private_keys db
  ++ flat_map (opt_values "node_services.secret") (service_secrets db)
  ++ flat_map (opt_values "inbounds.reality_private_key") (reality_private_keys db)
  ++ flat_map (opt_values "inbounds.chain_password") (chain_passwords db).
Definition totp_values (db : SecretColumns) : list ((string * Uuid) * string) :=
  flat_map (opt_values "admins.totp_secret") (totp_secrets db).

Lemma Forall2_flat_map {A B} (f : A -> list B) (R : A -> A -> Prop) (S : B -> B -> Prop) l l' :
  (forall x y, R x y -> Forall2 S (f x) (f y)) -> Forall2 R l l' -> Forall2 S (flat_map f l) (flat_map f l').
Proof. intros H. induction 1; simpl; [constructor|]. apply Forall2_app; auto. Qed.

Section RotationFacts.
Context (renew : string * Uuid -> string -> result string secret_error).

(** The same place, holding what [renew] returned. *)
Definition renewed (x y : (string * Uuid) * string) : Prop := y.1 = x.1 /\ renew x.1 x.2 = Ok y.2.

Lemma rewrite_column_ok {K V} (f : K -> V -> option (result V secret_error)) rows_ : forall n rows',
  rewrite_column f rows_ = (Ok n, rows') ->
  Forall2 (fun x y => y.1 = x.1 /\ (f x.1 x.2 = None /\ y.2 = x.2 \/ f x.1 x.2 = Some (Ok y.2))) rows_ rows'.
Proof.
  induction rows_ as [|[k v] rest IH]; simpl; intros n rows' Hr; [by injection Hr as _ <-|].
  destruct (f k v) as [[v'|e]|] eqn:Ef; [|done|].
  - destruct (rewrite_column f rest) as [[m|] rest'] eqn:Er; [|done].
    injection Hr as _ <-. constructor; [split; [done|by right]|]. by eapply IH.
  - destruct (rewrite_column f rest) as [[m|] rest'] eqn:Er; [|done].
    injection Hr as _ <-. constructor; [split; [done|by left]|]. by eapply IH.
Qed.

Lemma rewrite_opt_ok site rows_ n rows' :
  rewrite_column (renew_opt renew site) rows_ = (Ok n, rows') ->
  Forall2 renewed (flat_map (opt_values site) rows_) (flat_map (opt_values site) rows').
Proof.
  intros Hr%rewrite_column_ok. revert Hr. apply Forall2_flat_map. intros [k v] [k' v'].
  simpl. intros [-> Hv]. unfold opt_values. simpl. destruct v as [v|]; simpl in Hv.
  - destruct Hv as [[Hv _]|Hv]; [done|]. destruct (renew (site, k) v) as [w|] eqn:Ew; [|done].
    injection Hv as <-. repeat constructor. done.
  - destruct Hv as [[_ ->]|Hv]; [constructor|done].
Qed.

Lemma rewrite_users_ok rows_ n rows' :
  rewrite_column (renew_user renew) rows_ = (Ok n, rows') ->
  Forall2 renewed (flat_map user_values rows_) (flat_map user_values rows').
Proof.
  intros Hr%rewrite_column_ok. revert Hr. apply Forall2_flat_map. intros [k u] [k' u'].
  simpl. intros [-> [[Hu _]|Hu]]; [done|]. unfold user_values, opt_values, renew_user in *. simpl.
  destruct (renew _ (us_uuid u)) as [a|] eqn:Ea; [|done].
  destruct (renew _ (us_password u)) as [b|] eqn:Eb; [|done].
  destruct (us_token_enc u) as [t|].
  - destruct (renew _ t) as [t'|] eqn:Et; [|done]. injection Hu as <-. simpl.
    repeat constructor; done.
  - injection Hu as <-. simpl. repeat constructor; done.
Qed.

Lemma renew_columns_ok db counts db' :
  renew_columns renew db = (Ok counts, db') ->
  Forall2 renewed (shared_values db) (shared_values db') /\ totp_secrets db' = totp_secrets db.
Proof.
  unfold renew_columns.
  destruct (rewrite_column (renew_user renew) _) as [[n1|] us] eqn:E1; [|done].
  destruct (rewrite_column _ (user_subscription_tokens db)) as [[n2|] ts] eqn:E2; [|done].
  destruct (rewrite_column _ (wg_private_keys db)) as [[n3|] ws] eqn:E3; [|done].
  destruct (rewrite_column _ (service_secrets db)) as [[n4|] ss] eqn:E4; [|done].
  destruct (rewrite_column _ (reality_private_keys db)) as [[n5|] rs] eqn:E5; [|done].
  destruct (rewrite_column _ (chain_passwords db)) as [[n6|] cs] eqn:E6; [|done].
  intros [= _ <-]. split; [|done]. unfold shared_values. simpl.
  repeat apply Forall2_app; eauto using rewrite_users_ok, rewrite_opt_ok.
  apply rewrite_column_ok in E3. eapply Forall2_impl; [exact E3|].
  intros x y [Hk [[Hw _]|Hw]]; [done|]. injection Hw as Hw. by split.
Qed.
End RotationFacts.

Section CipherFacts.
Context `{AeadLaws, Base64Laws}.

Lemma unwrap_wrap c nonce p s :
  String.length nonce = NONCE_LEN -> utf8_valid p = true -> wrap c (Some nonce) p = Ok s ->
  exists b64, strip_prefix PREFIX s = Some b64 /\ unwrap c b64 = Ok p.
Proof.
  intros Hn Hp. unfold wrap. destruct (seal c nonce p) as [ct|] eqn:Es; [|done].
  intros [= <-]. eexists. split; [apply strip_prefix_app|]. unfold unwrap. rewrite b64_decode_encode.
  pose proof (seal_length _ _ _ _ Es) as Hl. rewrite string_length_app, Hn.
  destruct (Nat.leb_spec (NONCE_LEN + String.length ct) NONCE_LEN); [lia|].
  rewrite <- Hn, take_bytes_app, drop_bytes_app, (unseal_seal _ _ _ _ Es). by rewrite Hp.
Qed.

Lemma decrypt_utf8 cell v p : utf8_valid v = true -> decrypt cell v = Ok p -> utf8_valid p = true.
Proof.
  unfold decrypt. destruct (strip_prefix PREFIX v); [|intros; congruence].
  destruct (cipher cell); [|done]. unfold unwrap. destruct (b64_decode _); [|done].
  destruct (_ <=? _)%nat; [done|]. destruct (unseal _ _ _) as [q|]; [|done].
  destruct (utf8_valid q) eqn:Eu; [|done]. congruence.
Qed.

(** A rewritten value reads under the new key as it did under the old one. *)
Lemma rekey_value_reads old new c1 c2 nonce v v' :
  cipher_from_b64 old = Ok c1 -> cipher_from_b64 new = Ok c2 ->
  (forall n, nonce = Some n -> String.length n = NONCE_LEN) -> utf8_valid v = true ->
  rekey_value old new nonce v = Ok v' ->
  exists p, decrypt (Some (Some c1)) v = Ok p /\ decrypt (Some (Some c2)) v' = Ok p.
Proof.
  intros Hc1 Hc2 Hn Hv. unfold rekey_value. rewrite Hc1, Hc2.
  set (m := match strip_prefix PREFIX v with Some b64 => unwrap c1 b64 | None => Ok v end).
  assert (Hm : decrypt (Some (Some c1)) v = m).
  { unfold decrypt, m. by destruct (strip_prefix PREFIX v). }
  rewrite Hm. destruct m as [p|] eqn:Em; [|done]. intros Hw. exists p. split; [done|].
  assert (Hp : utf8_valid p = true) by (by eapply decrypt_utf8).
  destruct nonce as [nonce|]; [|done].
  destruct (unwrap_wrap _ _ _ _ (Hn _ eq_refl) Hp Hw) as (b64 & Hs & Hu).
  unfold decrypt. by rewrite Hs.
Qed.
End CipherFacts.

(** A rewritten value is sealed under the new key. *)
Lemma rekey_value_wraps `{Aead, Base64} old new c2 nonce v v' :
  cipher_from_b64 new = Ok c2 -> rekey_value old new nonce v = Ok v' ->
  exists n p, nonce = Some n /\ wrap c2 (Some n) p = Ok v'.
Proof.
  intros Hc2. unfold rekey_value. rewrite Hc2.
  destruct (match strip_prefix PREFIX v with Some _ => _ | None => _ end) as [p|]; [|done].
  destruct nonce as [n|]; [|done]. eauto.
Qed.

(** What a rotation does to the first table, failed or not. *)
Lemma rekey_user_secrets `{Aead, Base64} old new rng db r db' :
  rekey_secrets old new rng db = (r, db') ->
  (rewrite_column (renew_user (fun site => rekey_value old new (rng site))) (user_secrets db)).2
  = user_secrets db'.
Proof.
  unfold rekey_secrets, renew_columns.
  destruct (rewrite_column _ (user_secrets db)) as [[n|] us]; [|by intros [= _ <-]].
  repeat (destruct (rewrite_column _ _) as [[?|] ?]; [|by intros [= _ <-]]).
  by intros [= _ <-].
Qed.

(** A secret reads back.  Whatever is encrypted under a configured key is
    decrypted to the same text; without a key, every text that does not look
    encrypted is. *)
Theorem secret_roundtrip `{AeadLaws, Base64Laws} (cell : CipherCell) (nonce : option string) (p s : string) :
  (forall n, nonce = Some n -> String.length n = NONCE_LEN) -> utf8_valid p = true ->
  (is_enabled cell = true \/ strip_prefix PREFIX p = None) ->
  encrypt cell nonce p = Ok s -> decrypt cell s = Ok p.
Proof.
  intros Hn Hp Hk. unfold encrypt, decrypt. destruct (cipher cell) as [c|] eqn:Ec.
  - destruct nonce as [nonce|]; [|done]. intros Hw.
    by destruct (unwrap_wrap _ _ _ _ (Hn _ eq_refl) Hp Hw) as (b64 & -> & Hu).
  - intros [= <-]. destruct Hk as [Hk| ->]; [|done]. by destruct cell as [[c|]|].
Qed.

(** C9: rotation loses nothing.  When the rotation succeeds, every stored secret
    (users, subscriptions, WireGuard keys, services, inbounds and the TOTP
    secrets of admins) is still in its place and reads under the new key as it
    did under the old one. *)
Theorem rekey_preserves_secrets `{AeadLaws, Base64Laws} (old new : string) (c1 c2 : Cipher)
    (rng : string * Uuid -> option string) (db db' : SecretColumns) (counts : Z * Z * Z) :
  cipher_from_b64 old = Ok c1 -> cipher_from_b64 new = Ok c2 ->
  (forall site n, rng site = Some n -> String.length n = NONCE_LEN) ->
  Forall (fun x => utf8_valid x.2 = true) (shared_values db ++ totp_values db) ->
  rekey_secrets old new rng db = (Ok counts, db') ->
  Forall2 (fun x y => y.1 = x.1 /\
             exists p, decrypt (Some (Some c1)) x.2 = Ok p /\ decrypt (Some (Some c2)) y.2 = Ok p)
    (shared_values db ++ totp_values db) (shared_values db' ++ totp_values db').
Proof.
  intros Hc1 Hc2 Hn Hv. unfold rekey_secrets.
  set (renew := fun site => rekey_value old new (rng site)).
  destruct (renew_columns renew db) as [[n|] dbs] eqn:E; [|done].
  destruct (rewrite_column _ (totp_secrets dbs)) as [[k|] ts] eqn:Et; [|done]. intros [= _ <-].
  apply renew_columns_ok in E as [Hs Ht]. rewrite Ht in Et. apply rewrite_opt_ok in Et.
  match goal with |- Forall2 _ _ (shared_values ?d ++ _) => set (dbt := d) end.
  assert (Hr : Forall2 (renewed renew) (shared_values db ++ totp_values db)
                 (shared_values dbt ++ totp_values dbt))
    by (apply Forall2_app; [exact Hs|exact Et]).
  induction Hr as [|x y l l' [Hk Hxy] _ IH]; [constructor|].
  apply Forall_cons in Hv as [Hx Hv]. constructor; [|by apply IH]. split; [done|].
  eapply rekey_value_reads; [exact Hc1|exact Hc2|apply Hn|exact Hx|exact Hxy].
Qed.

(** Re-encryption covers all columns but one.  When [reencrypt_secrets]
    succeeds under a key, every stored secret of users, subscriptions, WireGuard,
    services and inbounds carries the encryption prefix and reads as before; the
    TOTP secrets of admins are left as they are, plaintext included. *)
Theorem reencrypt_skips_totp `{AeadLaws, Base64Laws} (c : Cipher) (rng : string * Uuid -> option string)
    (db db' : SecretColumns) (counts : Z * Z) :
  (forall site n, rng site = Some n -> String.length n = NONCE_LEN) ->
  Forall (fun x => utf8_valid x.2 = true) (shared_values db) ->
  reencrypt_secrets (Some (Some c)) rng db = (Ok counts, db') ->
  Forall2 (fun x y => y.1 = x.1 /\ is_Some (strip_prefix PREFIX y.2) /\
             exists p, decrypt (Some (Some c)) x.2 = Ok p /\ decrypt (Some (Some c)) y.2 = Ok p)
    (shared_values db) (shared_values db') /\
  totp_secrets db' = totp_secrets db.
Proof.
  intros Hn Hv Hr. apply renew_columns_ok in Hr as [Hs Ht]. split; [|done].
  induction Hs as [|x y l l' [Hk Hxy] _ IH]; [constructor|].
  apply Forall_cons in Hv as [Hx Hv]. constructor; [|by apply IH]. split; [done|].
  unfold reencrypt_value in Hxy. destruct (decrypt (Some (Some c)) x.2) as [p|] eqn:Ed; [|done].
  assert (Hp : utf8_valid p = true) by (by eapply decrypt_utf8).
  unfold encrypt in Hxy. simpl in Hxy. destruct (rng x.1) as [nonce|] eqn:En; [|done].
  destruct (unwrap_wrap _ _ _ _ (Hn _ _ En) Hp Hxy) as (b64 & Hb & Hu).
  split; [by rewrite Hb|]. exists p. split; [done|]. unfold decrypt. by rewrite Hb.
Qed.

(** A rotation that was interrupted cannot be repeated.  Rows are rewritten
    one by one outside any transaction: once a failed run has rewritten the first
    user, every further run with the same keys fails too, since the old key does
    not open what the new key sealed. *)
Theorem rekey_not_resumable `{AeadLaws, Base64Laws} (old new : string) (c1 c2 : Cipher)
    (rng rng' : string * Uuid -> option string) (db db1 : SecretColumns) (e : secret_error)
    (id : Uuid) (u u1 : UserSecrets) (rest rest1 : list (Uuid * UserSecrets)) :
  cipher_from_b64 old = Ok c1 -> cipher_from_b64 new = Ok c2 ->
  (forall nonce p ct, seal c2 nonce p = Some ct -> unseal c1 nonce ct = None) ->
  (forall site n, rng site = Some n -> String.length n = NONCE_LEN) ->
  rekey_secrets old new rng db = (Err e, db1) ->
  user_secrets db = (id, u) :: rest -> user_secrets db1 = (id, u1) :: rest1 -> u1 <> u ->
  (rekey_secrets old new rng' db1).1 = Err UnsealFailed.
Proof.
  intros Hc1 Hc2 Hwrong Hn Hr Hu Hu1 Hne.
  assert (Hrow : renew_user (fun site => rekey_value old new (rng site)) id u = Some (Ok u1)).
  { apply rekey_user_secrets in Hr. rewrite Hu, Hu1 in Hr. cbn [rewrite_column] in Hr.
    destruct (renew_user _ id u) as [[v|]|] eqn:Ev; [|by injection Hr as ->|done].
    destruct (rewrite_column _ rest) as [r rest']. by injection Hr as ->. }
  assert (Huuid : rekey_value old new (rng ("users.uuid", id)) (us_uuid u) = Ok (us_uuid u1)).
  { unfold renew_user in Hrow. destruct (rekey_value _ _ _ (us_uuid u)) as [a|]; [|done].
    destruct (rekey_value _ _ _ (us_password u)) as [b|]; [|done].
    destruct (us_token_enc u) as [t|]; [destruct (rekey_value _ _ _ t); [|done]|];
      by injection Hrow as <-. }
  assert (Hfail : rekey_value old new (rng' ("users.uuid", id)) (us_uuid u1) = Err UnsealFailed).
  { destruct (rekey_value_wraps _ _ _ _ _ _ Hc2 Huuid) as (nonce & p & Hnonce & Hw).
    unfold rekey_value. rewrite Hc1. unfold wrap in Hw.
    destruct (seal c2 nonce p) as [ct|] eqn:Es; [|done]. injection Hw as <-.
    rewrite strip_prefix_app. unfold unwrap. rewrite b64_decode_encode.
    pose proof (seal_length _ _ _ _ Es) as Hl. apply Hn in Hnonce. rewrite string_length_app, Hnonce.
    destruct (Nat.leb_spec (NONCE_LEN + String.length ct) NONCE_LEN); [lia|].
    rewrite <- Hnonce, take_bytes_app, drop_bytes_app. by rewrite (Hwrong _ _ _ Es). }
  unfold rekey_secrets, renew_columns. rewrite Hu1. simpl. by rewrite Hfail.
Qed.

(** ** A cipher for the examples

    The tag is the first half of the key; base64 is the identity. *)
Definition toy_tag (key : string) : string := take_bytes 16 (key +:+ "0123456789abcdef").

#[local] Instance toy_aead : Aead := {|
  Cipher := string;
  new_cipher := fun key => key;
  seal := fun key nonce p => Some (toy_tag key +:+ p);
  unseal := fun key nonce ct => strip_prefix (toy_tag key) ct |}.
#[local] Instance toy_base64 : Base64 := {| b64_encode := fun s => s; b64_decode := Some |}.

Lemma take_bytes_length n : forall s, (n <= String.length s)%nat -> String.length (take_bytes n s) = n.
Proof. induction n as [|n IH]; intros [|c s] Hl; simpl in *; try lia. by rewrite IH by lia. Qed.

#[local] Instance toy_aead_laws : AeadLaws.
Proof.
  split.
  - intros c nonce p ct [= <-]. apply strip_prefix_app.
  - intros c nonce p ct [= <-]. rewrite string_length_app. unfold toy_tag. rewrite take_bytes_length; [lia|].
    rewrite string_length_app. simpl. lia.
Qed.
#[local] Instance toy_base64_laws : Base64Laws.
Proof. intros s. reflexivity. Qed.

Definition key_a : string := "aaaaaaaaaaaaaaaaaaaaaaaaaaaaaaaa".
Definition key_b : string := "bbbbbbbbbbbbbbbbbbbbbbbbbbbbbbbb".
Definition toy_nonce : string := "nnnnnnnnnnnnnnnnnnnnnnnn".

Definition toy_cell (key : string) : @CipherCell toy_aead := Some (Some key).
Definition cipher_a : @Cipher toy_aead := key_a.
Definition cipher_b : @Cipher toy_aead := key_b.

Lemma secret_roundtrip_witness :
  decrypt (toy_cell key_a) (PREFIX +:+ toy_nonce +:+ "aaaaaaaaaaaaaaaahunter2") = Ok "hunter2".
Proof.
  apply (secret_roundtrip (toy_cell key_a) (Some toy_nonce)).
  - intros n [= <-]. reflexivity.
  - reflexivity.
  - left. reflexivity.
  - reflexivity.
Defined.

Definition sample_columns : SecretColumns :=
  mkColumns [(1, mkUserSecrets "u1" "p1" (Some "t1")); (2, mkUserSecrets "u2" "p2" None)] [] [] []
    [(9, Some "k9")] [] [(4, Some "totp")].
Definition good_rng (_ : string * Uuid) : option string := Some toy_nonce.
Definition bad_rng (site : string * Uuid) : option string :=
  if site.2 =? 2 then None else Some toy_nonce.

Lemma sample_utf8 : forallb (fun x => utf8_valid x.2) (shared_values sample_columns ++ totp_values sample_columns) = true.
Proof. reflexivity. Qed.
Lemma good_rng_length site n : good_rng site = Some n -> String.length n = NONCE_LEN.
Proof. by intros [= <-]. Qed.
Lemma bad_rng_length site n : bad_rng site = Some n -> String.length n = NONCE_LEN.
Proof. unfold bad_rng. destruct (_ =? _); [done|]. by intros [= <-]. Qed.

Lemma rekey_preserves_secrets_witness : exists db',
  length (shared_values db' ++ totp_values db') = 7%nat /\
  Forall2 (fun x y => y.1 = x.1 /\
     exists p, decrypt (toy_cell key_a) x.2 = Ok p /\ decrypt (toy_cell key_b) y.2 = Ok p)
    (shared_values sample_columns ++ totp_values sample_columns) (shared_values db' ++ totp_values db').
Proof.
  eexists. split; cycle 1.
  - refine (rekey_preserves_secrets key_a key_b cipher_a cipher_b good_rng sample_columns _ (2, 1, 1) _ _ _ _ _).
    + reflexivity.
    + reflexivity.
    + exact good_rng_length.
    + apply List.Forall_forall, forallb_forall. exact sample_utf8.
    + reflexivity.
  - reflexivity.
Defined.

Lemma reencrypt_skips_totp_witness : exists db',
  totp_secrets db' = [(4, Some "totp")] /\ strip_prefix PREFIX "totp" = None.
Proof.
  eexists. split; [|reflexivity].
  refine (proj2 (reencrypt_skips_totp cipher_a good_rng sample_columns _ (2, 1) _ _ _)).
  - exact good_rng_length.
  - repeat constructor.
  - reflexivity.
Defined.

Lemma rekey_not_resumable_witness : exists db1,
  (rekey_secrets key_a key_b bad_rng sample_columns) = (Err SecretRngFailed, db1) /\
  (rekey_secrets key_a key_b good_rng db1).1 = Err UnsealFailed.
Proof.
  eexists. split; [reflexivity|].
  eapply (rekey_not_resumable key_a key_b cipher_a cipher_b bad_rng good_rng sample_columns _ SecretRngFailed 1).
  - reflexivity.
  - reflexivity.
  - intros nonce p ct [= <-]. reflexivity.
  - exact bad_rng_length.
  - reflexivity.
  - reflexivity.
  - reflexivity.
  - discriminate.
Defined.

(** The process's own cipher is a store in the sense the queries rely on. *)
Definition ok_value {A E} (r : result A E) : option A := match r with Ok a => Some a | Err _ => None end.

Lemma secret_store `{AeadLaws, Base64Laws} (c : Cipher) (nonce : option string) :
  (forall n, nonce = Some n -> String.length n = NONCE_LEN) ->
  SecretStore (fun p => ok_value (encrypt (Some (Some c)) nonce p))
    (fun s => ok_value (decrypt (Some (Some c)) s)).
Proof.
  intros Hn p s Hp. unfold encrypt, decrypt. change (cipher (Some (Some c))) with (Some c).
  cbv beta iota. destruct nonce as [n|]; [|done].
  destruct (wrap c (Some n) p) as [t|] eqn:Ew; [|done]. intros [= <-].
  destruct (unwrap_wrap _ _ _ _ (Hn _ eq_refl) Hp Ew) as (b64 & Hb & Hu).
  by rewrite Hb, Hu.
Qed.

(** ** Key sources *)

(** The key variables that are set, in order of precedence. *)
Definition configured (world : SourceEnv) : list string :=
  List.filter (fun name => is_some (env world name))
    ["HONEY_SECRET_KEY"; "HONEY_SECRET_KEY_FILE"; "HONEY_VAULT_ADDR"; "HONEY_SECRET_KEY_COMMAND"].

Definition backend_of (name : string) : string :=
  if String.eqb name "HONEY_SECRET_KEY" then "env"
  else if String.eqb name "HONEY_SECRET_KEY_FILE" then "file"
  else if String.eqb name "HONEY_VAULT_ADDR" then "vault" else "command".

(** A configured key source is never skipped.  With no source configured
    [resolve] reports no key; otherwise it answers with a non-empty key from the
    first configured source, or fails: a broken source is never replaced by a
    later one or by plaintext mode. *)
Theorem resolve_first_source (world : SourceEnv) (key : option string) (backend : string) :
  resolve world = Ok (key, backend) ->
  match configured world with
  | [] => key = None /\ backend = "none"
  | name :: _ => backend = backend_of name /\ exists k, key = Some k /\ is_empty k = false
  end.
Proof.
  unfold resolve, configured. cbn [List.filter].
  destruct (env world "HONEY_SECRET_KEY") as [v|]; cbn [is_some].
  { destruct (is_empty v) eqn:Ev; cbn; rewrite Ev; [done|]. intros [= <- <-]. eauto. }
  destruct (env world "HONEY_SECRET_KEY_FILE") as [path|]; cbn [is_some].
  { destruct (read_to_string world path) as [raw|]; [|done]. cbn.
    destruct (is_empty (trim raw)) eqn:Ev; [done|]. intros [= <- <-]. eauto. }
  destruct (env world "HONEY_VAULT_ADDR") as [addr|]; cbn [is_some].
  { destruct (fetch_vault world) as [k|]; [|done]. cbn.
    destruct (is_empty k) eqn:Ev; [done|]. intros [= <- <-]. eauto. }
  destruct (env world "HONEY_SECRET_KEY_COMMAND") as [cmd|]; cbn [is_some].
  { destruct (run_command world cmd) as [k|]; [|done]. cbn.
    destruct (is_empty k) eqn:Ev; [done|]. intros [= <- <-]. eauto. }
  cbn. intros [= <- <-]. auto.
Qed.

Definition file_world : SourceEnv :=
  mkSource (fun name => if String.eqb name "HONEY_SECRET_KEY_FILE" then Some "/run/key" else None)
    (fun _ => Some "secret") (fun _ _ => None) (fun _ => None).

Lemma resolve_first_source_witness : exists k, Some "secret" = Some k /\ is_empty k = false.
Proof.
  exact (proj2 (resolve_first_source file_world (Some "secret") "file" eq_refl)).
Defined.
