(* ===== verification/Services.v ===== *)
(** * Managed external services (the service handlers of
    src/master/src/api/mod.rs, their queries of src/master/src/db/repo.rs and the
    daemon configurations of src/agent/internal/svc/svc.go)

    An MTProto or NaiveProxy daemon beside the proxy core.  The random source,
    the cipher and the JSON printer are parameters. *)

From S2P Require Import Prelude Strings Json Models Db Api Handler Access Subscription Spec Secrets.

(** ** Validation *)

Definition SERVICE_KINDS : list string := ["mtproto"; "naive"].

Definition safe_byte (c : ascii) : bool :=
  is_alphanumeric c || Ascii.eqb c "." || Ascii.eqb c "-" || Ascii.eqb c "_".

Definition safe_config_value (value : string) (max : Z) : bool :=
  negb (is_empty value) && (len value <=? max) && all_bytes safe_byte value.

Definition config_text (config : json) (name : string) : string := default "" (get_str name config).

Definition blank_or (p : string -> bool) (v : string) : bool := is_empty v || p v.

Definition config_int (config : json) (name : string) : option Z :=
  match get name config with Some v => as_i64 v | None => None end.

Definition validate_service_config (kind : string) (config : json) : result unit api_error :=
  if String.eqb kind "mtproto" then
    let? _ := ok_when (blank_or (fun v => safe_config_value v 253) (config_text config "host"))
                "fake-TLS host must be a bare hostname (letters, digits, . - _)" in
    let? _ := ok_when (map_or (config_int config "concurrency") true (fun c => (0 <=? c) && (c <=? 1000000)))
                "concurrency out of range (0..1000000)" in
    let? _ := ok_when (map_or (config_int config "domain_fronting_port") true
                         (fun p => (p =? 0) || ((1 <=? p) && (p <=? 65535))))
                "domain_fronting_port out of range" in
    ok_when (blank_or (one_of ["prefer-ipv4"; "prefer-ipv6"; "only-ipv4"; "only-ipv6"]) (config_text config "prefer_ip"))
      "prefer_ip must be prefer-ipv4|prefer-ipv6|only-ipv4|only-ipv6"
  else if String.eqb kind "naive" then
    let? _ := ok_when (blank_or (fun v => safe_config_value v 64) (config_text config "username"))
                "username must be letters, digits, . - _" in
    ok_when (blank_or (fun v => safe_config_value v 253) (config_text config "domain"))
      "TLS domain must be a bare hostname"
  else Ok tt.

(** ** The generated secret *)

Definition host_bytes (s : string) : list Z := code <$> String.list_ascii_of_string s.

(** "ee", sixteen random bytes and the fake-TLS host; or sixteen random bytes. *)
Definition service_secret (raw : option (list Z)) (encrypt : string -> option string) (kind : string) (config : json)
    : result (option string) db_error :=
  let stored s := match encrypt s with Some e => Ok (Some e) | None => Err EncryptFailed end in
  if String.eqb kind "mtproto" then
    match raw with
    | None => Err EncryptFailed
    | Some raw =>
        let host := default "www.cloudflare.com" (get_str "host" config) in
        stored ("ee" +:+ hex raw +:+ hex (host_bytes host))
    end
  else if String.eqb kind "naive" then
    match raw with None => Err EncryptFailed | Some raw => stored (hex raw) end
  else Ok None.

(** ** Rows *)

Module NewNodeService.
Record NewNodeService := mk {
  node_id : Uuid;
  kind : string;
  name : string;
  listen_port : Z;
  config : json }.
End NewNodeService.

Module UpdateNodeService.
Record UpdateNodeService := mk {
  name : option string;
  listen_port : option Z;
  enabled : option bool;
  config : option json }.
End UpdateNodeService.

Definition with_services f (pl : Plane) : Plane :=
  mkPlane (tables pl) (wg_interfaces pl) (wg_peers pl) (f (node_services pl)).

(** UNIQUE (node_id, listen_port), against every row but [id]. *)
Definition port_taken (id node port : Z) (l : list NodeService.NodeService) : bool :=
  existsb (fun s => negb (NodeService.id s =? id) && (NodeService.node_id s =? node)
                    && (NodeService.listen_port s =? port)) l.

Section Services.
Context (encrypt : string -> option string) (decrypt : string -> option string) (uuid_str : Uuid -> string).

Definition create_node_service (raw : option (list Z)) (id now : Z) (input : NewNodeService.NewNodeService)
    (pl : Plane) : result NodeService.NodeService db_error * Plane :=
  match service_secret raw encrypt (NewNodeService.kind input) (NewNodeService.config input) with
  | Err e => (Err e, pl)
  | Ok secret =>
      let node := NewNodeService.node_id input in
      let s := NodeService.mk id node (NewNodeService.kind input) (trim (NewNodeService.name input))
                 (NewNodeService.listen_port input) secret (NewNodeService.config input) true now now in
      if port_taken id node (NewNodeService.listen_port input) (node_services pl) then (Err UniqueViolation, pl)
      else if negb (is_some (nodes (tables pl) !! node)) then (Err ForeignKeyViolation, pl)
      else (decrypt_service decrypt s, with_services (fun l => l ++ [s]) pl)
  end.

Definition list_node_services (node : Uuid) (pl : Plane) : result (list NodeService.NodeService) db_error :=
  try_map (decrypt_service decrypt)
    (sort_by (fun a b => NodeService.created_at a <=? NodeService.created_at b)
       (List.filter (fun s => NodeService.node_id s =? node) (node_services pl))).

Definition find_service (id : Uuid) (pl : Plane) : option NodeService.NodeService :=
  List.find (fun s => NodeService.id s =? id) (node_services pl).

Definition get_node_service (id : Uuid) (pl : Plane) : result (option NodeService.NodeService) db_error :=
  match find_service id pl with
  | Some s => let? s := decrypt_service decrypt s in Ok (Some s)
  | None => Ok None
  end.

Definition service_updated (now : Z) (input : UpdateNodeService.UpdateNodeService) (s : NodeService.NodeService)
    : NodeService.NodeService :=
  NodeService.mk (NodeService.id s) (NodeService.node_id s) (NodeService.kind s)
    (coalesce (UpdateNodeService.name input) (NodeService.name s))
    (coalesce (UpdateNodeService.listen_port input) (NodeService.listen_port s))
    (NodeService.secret s) (coalesce (UpdateNodeService.config input) (NodeService.config s))
    (coalesce (UpdateNodeService.enabled input) (NodeService.enabled s)) (NodeService.created_at s) now.

Definition update_node_service (now : Z) (id : Uuid) (input : UpdateNodeService.UpdateNodeService) (pl : Plane)
    : result (option NodeService.NodeService) db_error * Plane :=
  match find_service id pl with
  | None => (Ok None, pl)
  | Some s =>
      let s' := service_updated now input s in
      if port_taken id (NodeService.node_id s') (NodeService.listen_port s') (node_services pl)
      then (Err UniqueViolation, pl)
      else ((let? s := decrypt_service decrypt s' in Ok (Some s)),
            with_services (fun l => (fun t => if NodeService.id t =? id then s' else t) <$> l) pl)
  end.

Definition delete_node_service (id : Uuid) (pl : Plane) : result bool db_error * Plane :=
  (Ok (is_some (find_service id pl)),
   with_services (List.filter (fun s => negb (NodeService.id s =? id))) pl).

(** Enabled services on enabled nodes the user reaches, with the node's address. *)
Definition node_services_for_user (user : Uuid) (pl : Plane)
    : result (list (NodeService.NodeService * string)) db_error :=
  let visible s := NodeService.enabled s
    && is_some_and (nodes (tables pl) !! NodeService.node_id s) Node.enabled
    && can_reach user (NodeService.node_id s) (tables pl) in
  try_map (fun s => match nodes (tables pl) !! NodeService.node_id s with
                    | None => Err RowNotFound
                    | Some n => let? s := decrypt_service decrypt s in Ok (s, Node.address n)
                    end)
    (sort_by (fun a b => NodeService.created_at a <=? NodeService.created_at b)
       (List.filter visible (node_services pl))).

(** ** Handlers *)

#[local] Abbreviation M := (Handler.M Plane).

Definition list_services (node : Uuid) : M (list NodeService.NodeService) := read (list_node_services node).

Definition create_service (raw : option (list Z)) (id now : Z) (node : Uuid) (input : NewNodeService.NewNodeService)
    : M NodeService.NodeService :=
  let input := NewNodeService.mk node (NewNodeService.kind input) (NewNodeService.name input)
                 (NewNodeService.listen_port input) (NewNodeService.config input) in
  _ ← refuse (negb (one_of SERVICE_KINDS (NewNodeService.kind input))) (BadRequest "kind must be mtproto or naive");
  _ ← refuse (is_empty (trim (NewNodeService.name input))) (BadRequest "name is required");
  _ ← refuse (negb (port_ok (NewNodeService.listen_port input))) (BadRequest "listen_port out of range");
  _ ← lift_result (validate_service_config (NewNodeService.kind input) (NewNodeService.config input));
  n ← query (fun pl => nodes (tables pl) !! node);
  _ ← found n (NotFound "node not found");
  svc ← statement (create_node_service raw id now input);
  _ ← push_nodes [node];
  _ ← audit "create" "service" (NodeService.id svc)
         (obj [("node_id", JString (uuid_str node)); ("kind", JString (NodeService.kind svc))]);
  mret svc.

Definition update_service (now : Z) (id : Uuid) (input : UpdateNodeService.UpdateNodeService) : M NodeService.NodeService :=
  _ ← (match UpdateNodeService.config input with
       | Some config =>
           o ← read (get_node_service id);
           current ← found o (NotFound "service not found");
           lift_result (validate_service_config (NodeService.kind current) config)
       | None => mret tt
       end);
  _ ← refuse (is_some_and (UpdateNodeService.listen_port input) (fun p => negb (port_ok p)))
        (BadRequest "listen_port out of range");
  o ← statement (update_node_service now id input);
  svc ← found o (NotFound "service not found");
  _ ← push_nodes [NodeService.node_id svc];
  _ ← audit "update" "service" (NodeService.id svc) empty_object;
  mret svc.

Definition delete_service (id : Uuid) : M unit :=
  o ← read (get_node_service id);
  svc ← found o (NotFound "service not found");
  _ ← statement (delete_node_service id);
  _ ← push_nodes [NodeService.node_id svc];
  audit "delete" "service" id empty_object.
End Services.

(** ** Client links ([subscription_services]) *)

Definition service_link (s : NodeService.NodeService) (addr : string) : option string :=
  let secret := default "" (NodeService.secret s) in
  if String.eqb (NodeService.kind s) "mtproto" then
    Some ("tg://proxy?server=" +:+ addr +:+ "&port=" +:+ show (NodeService.listen_port s) +:+ "&secret=" +:+ secret)
  else if String.eqb (NodeService.kind s) "naive" then
    let user := default "user" (get_str "username" (NodeService.config s)) in
    let host := default addr (opt_filter (fun d => negb (is_empty d)) (get_str "domain" (NodeService.config s))) in
    Some ("naive+https://" +:+ user +:+ ":" +:+ secret +:+ "@" +:+ host +:+ ":" +:+ show (NodeService.listen_port s)
          +:+ "?padding=true#" +:+ NodeService.name s)
  else None.

Definition service_entry (sa : NodeService.NodeService * string) : option json :=
  link ← service_link sa.1 sa.2;
  Some (obj [("kind", JString (NodeService.kind sa.1)); ("name", JString (NodeService.name sa.1)); ("link", JString link)]).

(** ** The daemon's configuration (the agent's [applyNaive])

    The agent reads its config_json with encoding/json, which takes a key for a
    field when the two are equal under case folding; of several such keys the
    last one counts. *)

Definition fold_char (ch : string) : string :=
  if String.eqb ch (bytes_of [197; 191]) then "s"
  else if String.eqb ch (bytes_of [226; 132; 170]) then "k"
  else to_ascii_lowercase ch.

Definition equal_fold (key name : string) : bool :=
  bool_decide (fold_char <$> chars key = fold_char <$> chars name).

Definition go_string (name : string) (config : json) : string :=
  match config with
  | JObject fields =>
      fold_left (fun acc kv => if equal_fold kv.1 name then default acc (as_str kv.2) else acc) fields ""
  | _ => ""
  end.

Definition caddyfile (port : Z) (domain username secret : string) : string :=
  "{" +:+ nl +:+ "  order forward_proxy before reverse_proxy" +:+ nl +:+ "}" +:+ nl
  +:+ ":" +:+ show port +:+ ", " +:+ domain +:+ " {" +:+ nl +:+ "  tls internal" +:+ nl
  +:+ "  forward_proxy {" +:+ nl +:+ "    basic_auth " +:+ username +:+ " " +:+ secret +:+ nl
  +:+ "    hide_ip" +:+ nl +:+ "    hide_via" +:+ nl +:+ "    probe_resistance" +:+ nl
  +:+ "  }" +:+ nl +:+ "}" +:+ nl.

Definition naive_username (config : json) : string :=
  let u := go_string "username" config in if is_empty u then "user" else u.

Definition apply_naive (s : NodeService.NodeService) : string :=
  caddyfile (NodeService.listen_port s) (go_string "domain" (NodeService.config s))
    (naive_username (NodeService.config s)) (default "" (NodeService.secret s)).

(** ** Properties *)

Fixpoint count_byte (c : ascii) (s : string) : Z :=
  match s with "" => 0 | String d s => (if Ascii.eqb d c then 1 else 0) + count_byte c s end.

Lemma count_byte_app c a b : count_byte c (a +:+ b) = count_byte c a + count_byte c b.
Proof. induction a as [|d a IH]; simpl; [done|]. rewrite IH. lia. Qed.

Lemma count_byte_none (p : ascii -> bool) c s : p c = false -> all_bytes p s = true -> count_byte c s = 0.
Proof.
  intros Hc. induction s as [|d s IH]; [done|]. cbn [all_bytes count_byte]. rewrite andb_true_iff. intros [Hd Hs].
  destruct (Ascii.eqb_spec d c) as [->|]; [by rewrite Hc in Hd|]. by rewrite IH.
Qed.

(** A field name is spelled as the master reads it. *)
Definition spelled (name : string) (config : json) : Prop :=
  match config with JObject fields => Forall (fun kv => equal_fold kv.1 name = true -> kv.1 = name) fields | _ => True end.

(** One key per field, as a decoded object has. *)
Definition distinct_keys (config : json) : Prop :=
  match config with JObject fields => NoDup fields.*1 | _ => True end.

Lemma go_string_get name fields acc :
  equal_fold name name = true -> Forall (fun kv => equal_fold kv.1 name = true -> kv.1 = name) fields ->
  NoDup fields.*1 ->
  fold_left (fun acc kv => if equal_fold kv.1 name then default acc (as_str kv.2) else acc) fields acc
  = match field_get name fields with Some v => default acc (as_str v) | None => acc end.
Proof.
  intros Hn. revert acc. induction fields as [|[k v] fields IH]; intros acc Hs Hd; [done|].
  apply Forall_cons in Hs as [Hk Hs]. simpl in *. apply NoDup_cons in Hd as [Hni Hd].
  destruct (equal_fold k name) eqn:E.
  - rewrite (Hk eq_refl) in *. rewrite String.eqb_refl, IH by done.
    assert (Hg : field_get name fields = None); [|by rewrite Hg].
    clear -Hni. induction fields as [|[k v] fields IH]; [done|]. simpl in *. apply not_elem_of_cons in Hni as [Hne Hni].
    destruct (String.eqb_spec name k); [done|]. auto.
  - rewrite IH by done. destruct (String.eqb_spec name k) as [<-|]; [by rewrite Hn in E|done].
Qed.

Lemma go_string_spelled name config :
  equal_fold name name = true -> spelled name config -> distinct_keys config ->
  go_string name config = config_text config name.
Proof.
  intros Hn Hs Hd. unfold config_text, get_str, get. destruct config as [| | | | |fields]; try done.
  unfold go_string. rewrite go_string_get by done. destruct (field_get name fields) as [v|]; [|done].
  by destruct (as_str v).
Qed.

Lemma blank_or_safe max v : blank_or (fun v => safe_config_value v max) v = true -> all_bytes safe_byte v = true.
Proof.
  unfold blank_or, safe_config_value. destruct v as [|c v]; [done|]. cbn [is_empty negb orb andb].
  intros H. by apply andb_true_iff in H as [_ H].
Qed.

Lemma naive_values config :
  validate_service_config "naive" config = Ok tt ->
  all_bytes safe_byte (config_text config "username") = true /\ all_bytes safe_byte (config_text config "domain") = true.
Proof.
  unfold validate_service_config. simpl. intros H.
  destruct (ok_when _ "username must be letters, digits, . - _") as [[]|] eqn:E; [|done].
  apply ok_when_ok in E. apply ok_when_ok in H. split; by eapply blank_or_safe.
Qed.

Lemma show_safe port : all_bytes safe_byte (show port) = true.
Proof. apply show_bytes; [done|]. by intros [[] [] [] [] [] [] [] []]. Qed.

Lemma caddyfile_shape c port domain username secret :
  safe_byte c = false -> all_bytes safe_byte domain = true -> all_bytes safe_byte username = true ->
  all_bytes safe_byte secret = true -> count_byte c (caddyfile port domain username secret) = count_byte c (caddyfile 0 "" "" "").
Proof.
  intros Hc Hd Hu Hs. unfold caddyfile. rewrite !count_byte_app.
  rewrite (count_byte_none safe_byte c domain), (count_byte_none safe_byte c username),
    (count_byte_none safe_byte c secret), (count_byte_none safe_byte c (show port)),
    (count_byte_none safe_byte c (show 0)) by (done || apply show_safe). done.
Qed.

(** A stored service: a known kind with a validated configuration on a port,
    and, for NaiveProxy, a password in hexadecimal. *)
Definition service_ok (decrypt : string -> option string) (s : NodeService.NodeService) : Prop :=
  one_of SERVICE_KINDS (NodeService.kind s) = true /\
  validate_service_config (NodeService.kind s) (NodeService.config s) = Ok tt /\
  port_ok (NodeService.listen_port s) = true /\
  (NodeService.kind s = "naive" ->
   forall e p, NodeService.secret s = Some e -> decrypt e = Some p -> all_bytes safe_byte p = true).

Definition services_ok (decrypt : string -> option string) (pl : Plane) : Prop :=
  Forall (service_ok decrypt) (node_services pl).

Lemma hex_safe bs : Forall (fun b => 0 <= b < 256) bs -> all_bytes safe_byte (hex bs) = true.
Proof.
  assert (Hd : forall n, 0 <= n < 16 -> safe_byte (hex_digit n) = true).
  { intros n Hn. assert (Hin : In n (Z.of_nat <$> seq 0 16)).
    { apply List.in_map_iff. exists (Z.to_nat n). split; [lia|]. apply List.in_seq. lia. }
    assert (Hall : forallb (fun n => safe_byte (hex_digit n)) (Z.of_nat <$> seq 0 16) = true) by (vm_compute; done).
    by apply (proj1 (List.forallb_forall _ _) Hall). }
  assert (Happ : forall a b, all_bytes safe_byte (a +:+ b) = all_bytes safe_byte a && all_bytes safe_byte b).
  { induction a as [|c a IH]; intros b; simpl; [done|]. by rewrite IH, andb_assoc. }
  assert (Hb : forall b, 0 <= b < 256 -> all_bytes safe_byte (hex_byte b) = true).
  { intros b Hb. unfold hex_byte. cbn [all_bytes]. rewrite (Hd (b mod 16)), (Hd (b / 16)); [done| |by apply Z.mod_pos_bound].
    split; [apply Z.div_pos; lia|apply Z.div_lt_upper_bound; lia]. }
  induction 1 as [|b bs Hr _ IH]; [done|]. destruct bs as [|b' bs]; [by apply (Hb b)|].
  change (hex (b :: b' :: bs)) with (hex_byte b +:+ "" +:+ hex (b' :: bs)). by rewrite !Happ, IH, Hb.
Qed.

Lemma utf8_safe s : all_bytes safe_byte s = true -> utf8_valid s = true.
Proof.
  intros H. apply utf8_ascii. apply (all_bytes_impl safe_byte); [|done]. by intros [[] [] [] [] [] [] [] []].
Qed.

(** *** Every service on the table *)

Inductive service_op :=
| CreateService (raw : option (list Z)) (id now node : Z) (input : NewNodeService.NewNodeService)
| UpdateService (now id : Z) (input : UpdateNodeService.UpdateNodeService)
| DeleteService (id : Uuid).

Section Contained.
Context (encrypt decrypt : string -> option string) (uuid_str : Uuid -> string).
Context `{Hstore : !SecretStore encrypt decrypt}.

Definition run_service_op (op : service_op) (s : St Plane) : St Plane :=
  match op with
  | CreateService raw id now node input => (create_service encrypt decrypt uuid_str raw id now node input s).2
  | UpdateService now id input => (update_service decrypt now id input s).2
  | DeleteService id => (delete_service decrypt id s).2
  end.

(** The random source hands out bytes. *)
Definition bytes_drawn (op : service_op) : Prop :=
  match op with CreateService (Some raw) _ _ _ _ => Forall (fun b => 0 <= b < 256) raw | _ => True end.

Lemma secret_hex raw config e p :
  Forall (fun b => 0 <= b < 256) raw -> service_secret (Some raw) encrypt "naive" config = Ok (Some e) ->
  decrypt e = Some p -> all_bytes safe_byte p = true.
Proof.
  intros Hr. unfold service_secret. simpl. destruct (encrypt (hex raw)) as [x|] eqn:Ee; [|done]. intros [= <-].
  assert (Hs := hex_safe raw Hr). rewrite (decrypt_encrypt (hex raw) x); [|by apply utf8_safe|done]. by intros [= <-].
Qed.

Lemma create_keeps raw id now node input :
  match raw with Some raw => Forall (fun b => 0 <= b < 256) raw | None => True end ->
  hoare (services_ok decrypt) (create_service encrypt decrypt uuid_str raw id now node input)
    (fun _ => services_ok decrypt) (services_ok decrypt).
Proof.
  intros Hraw. unfold create_service. cbn [NewNodeService.kind NewNodeService.name NewNodeService.listen_port NewNodeService.config].
  apply hoare_refuse; [done|intros Hkind]. apply hoare_refuse; [done|intros _]. apply hoare_refuse; [done|intros Hport].
  apply hoare_lift; [done|intros [] Hcfg]. apply negb_false_iff in Hkind, Hport. reads ltac:(done).
  eapply (hoare_bind _ _ (fun _ => services_ok decrypt)); [|intros svc; apply hoare_end; [apply _|done]].
  apply hoare_statement. intros pl Hpl. unfold create_node_service.
  cbn [NewNodeService.kind NewNodeService.name NewNodeService.listen_port NewNodeService.config NewNodeService.node_id].
  destruct (service_secret _ _ _ _) as [sec|] eqn:Esec; [|done].
  destruct (port_taken _ _ _ _); [done|]. destruct (negb _); [done|].
  set (s := NodeService.mk _ _ _ _ _ _ _ _ _ _).
  assert (Hs : service_ok decrypt s).
  { split_and!; try done. subst s. cbn [NodeService.kind NodeService.secret]. intros Hk e p -> Hp. rewrite Hk in Esec.
    destruct raw as [raw|]; [|done]. by eapply secret_hex. }
  assert (Hall : services_ok decrypt (with_services (fun l => l ++ [s]) pl)).
  { unfold services_ok. cbn [node_services with_services]. apply Forall_app_2; [done|by constructor]. }
  by destruct (decrypt_service decrypt s).
Qed.

Lemma service_updated_ok now input s :
  service_ok decrypt s -> map_or (UpdateNodeService.listen_port input) true port_ok = true ->
  (forall c, UpdateNodeService.config input = Some c -> validate_service_config (NodeService.kind s) c = Ok tt) ->
  service_ok decrypt (service_updated now input s).
Proof.
  intros (Hk & Hv & Hp & Hs) Hport Hcfg. split_and!; try done; simpl.
  - destruct (UpdateNodeService.config input) as [c|]; [by apply Hcfg|done].
  - by destruct (UpdateNodeService.listen_port input).
Qed.

Lemma decrypt_service_kind s s' : decrypt_service decrypt s = Ok s' -> NodeService.kind s' = NodeService.kind s.
Proof. unfold decrypt_service. destruct (decrypt_opt _ _); [|done]. by intros [= <-]. Qed.

Lemma update_keeps now id input s :
  services_ok decrypt (store s) -> services_ok decrypt (store (update_service decrypt now id input s).2).
Proof.
  intros Hok. set (Q := fun pl => services_ok decrypt pl /\ forall c svc, UpdateNodeService.config input = Some c ->
    find_service id pl = Some svc -> validate_service_config (NodeService.kind svc) c = Ok tt).
  assert (H : hoare (services_ok decrypt) (update_service decrypt now id input) (fun _ => services_ok decrypt) (services_ok decrypt)).
  { unfold update_service. eapply (hoare_bind _ _ (fun _ => Q)).
    - destruct (UpdateNodeService.config input) as [c|] eqn:Ec.
      + intros st Hst. unfold mbind, M_bind, read, get_node_service. destruct (find_service id (store st)) as [svc|] eqn:Ef; [|done].
        simpl. destruct (decrypt_service decrypt svc) as [svc'|] eqn:Ed; [|done]. simpl.
        rewrite (decrypt_service_kind _ _ Ed). destruct (validate_service_config _ c) as [[]|] eqn:Ev; [|done].
        split; [done|]. intros c' svc0 [= <-] Hsvc. rewrite Ef in Hsvc. by injection Hsvc as <-.
      + intros st Hst. split; [done|]. intros c' ? Hc'. congruence.
    - intros []. apply hoare_refuse; [by intros ? []|intros Hport].
      eapply (hoare_bind _ _ (fun _ => services_ok decrypt)); [|intros o; apply hoare_end; [apply _|done]].
      apply hoare_statement. intros pl [Hpl Hc]. unfold update_node_service.
      destruct (find_service id pl) as [svc|] eqn:Ef; [|done]. destruct (port_taken _ _ _ _); [done|].
      assert (Hsvc : service_ok decrypt (service_updated now input svc)).
      { apply service_updated_ok.
        - apply List.find_some in Ef as [Hin _]. by apply (proj1 (List.Forall_forall _ _) Hpl).
        - unfold is_some_and in Hport. by destruct (UpdateNodeService.listen_port input); [apply negb_false_iff in Hport|].
        - intros c Ec. by apply (Hc c svc). }
      assert (Hall : services_ok decrypt (with_services (fun l => (fun t => if NodeService.id t =? id
        then service_updated now input svc else t) <$> l) pl)).
      { unfold services_ok. cbn [node_services with_services]. apply Forall_fmap. eapply Forall_impl; [exact Hpl|].
        intros t Ht. simpl. by destruct (NodeService.id t =? id). }
      by destruct (decrypt_service decrypt _). }
  specialize (H s Hok). by destruct (update_service decrypt now id input s) as [[]].
Qed.

Lemma delete_keeps id :
  hoare (services_ok decrypt) (delete_service decrypt id) (fun _ => services_ok decrypt) (services_ok decrypt).
Proof.
  unfold delete_service. reads ltac:(done). eapply (hoare_bind _ _ (fun _ => services_ok decrypt)); [|intros svc; apply hoare_end; [apply _|done]].
  apply hoare_statement. intros pl Hpl. unfold services_ok. cbn [node_services with_services].
  apply List.Forall_forall. intros x Hx. apply List.filter_In in Hx as [Hx _]. by apply (proj1 (List.Forall_forall _ _) Hpl).
Qed.

Lemma service_op_keeps op s :
  bytes_drawn op -> services_ok decrypt (store s) -> services_ok decrypt (store (run_service_op op s)).
Proof.
  intros Hb Hok. destruct op as [raw id now node input|now id input|id]; cbn [run_service_op].
  - assert (H := create_keeps raw id now node input). specialize (H ltac:(by destruct raw) s Hok).
    by destruct (create_service encrypt decrypt uuid_str raw id now node input s) as [[]].
  - by apply update_keeps.
  - assert (H := delete_keeps id s Hok). by destruct (delete_service decrypt id s) as [[]].
Qed.

(** However services are created, updated and deleted, the Caddyfile an
    agent writes for a NaiveProxy service of the spec has the lines and braces
    of the template: nothing an operator typed adds a directive, as long as the
    configuration spells its field names the way the master reads them. *)
Theorem naive_config_contained ops node svcs svc s :
  services_ok decrypt (store s) -> Forall bytes_drawn ops ->
  enabled_node_services decrypt node (store (fold_left (fun s op => run_service_op op s) ops s)) = Ok svcs ->
  In svc svcs -> NodeService.kind svc = "naive" ->
  spelled "domain" (NodeService.config svc) -> spelled "username" (NodeService.config svc) ->
  distinct_keys (NodeService.config svc) ->
  forall c, safe_byte c = false -> count_byte c (apply_naive svc) = count_byte c (caddyfile 0 "" "" "").
Proof.
  intros Hok Hb Hq Hin Hk Hd Hu Hdk c Hc.
  assert (Hall : services_ok decrypt (store (fold_left (fun s op => run_service_op op s) ops s))).
  { clear -Hok Hb Hstore. revert s Hok. induction Hb as [|op ops Hop _ IH]; intros s Hok; [done|].
    apply IH. by apply service_op_keeps. }
  unfold enabled_node_services in Hq. destruct (try_map_in _ _ _ _ Hq Hin) as (row & Hrow & Hdec).
  apply sort_by_in, List.filter_In in Hrow as [Hrow _].
  destruct (proj1 (List.Forall_forall _ _) Hall row Hrow) as (_ & Hv & _ & Hs).
  unfold decrypt_service in Hdec. destruct (decrypt_opt decrypt (NodeService.secret row)) as [sec|] eqn:Es; [|done].
  injection Hdec as <-. cbn [NodeService.kind NodeService.config with_secret] in *. rewrite Hk in Hv.
  destruct (naive_values _ Hv) as [Hus Hdo]. unfold apply_naive. cbn [NodeService.config NodeService.secret with_secret].
  apply caddyfile_shape; [done| | |].
  - by rewrite go_string_spelled.
  - unfold naive_username. rewrite go_string_spelled by done. by destruct (is_empty _).
  - unfold decrypt_opt in Es. destruct (NodeService.secret row) as [e|] eqn:Esec; [|by injection Es as <-].
    destruct (decrypt e) as [p|] eqn:Ep; [|done]. injection Es as <-. by apply (Hs Hk e p).
Qed.
End Contained.

(** The master validates the field [domain] by its exact name, the agent
    reads it under case folding: under the name [Domain] any text passes the
    validation and is written into the Caddyfile. *)
Theorem folded_field_escapes_validation text s :
  NodeService.config s = obj [("Domain", JString text)] ->
  validate_service_config "naive" (NodeService.config s) = Ok tt /\
  apply_naive s = caddyfile (NodeService.listen_port s) text "user" (default "" (NodeService.secret s)).
Proof. intros H. unfold apply_naive. rewrite H. split; reflexivity. Qed.

(** An MTProto secret carries the fake-TLS host it was created with; an
    update of the configuration, the host included, keeps the secret, so the
    client link stays that of the old host. *)
Theorem mtproto_host_update_ignored decrypt now id config s o svc pl pl' addr :
  find_service id pl = Some s -> NodeService.kind s = "mtproto" ->
  update_node_service decrypt now id (UpdateNodeService.mk None None None (Some config)) pl = (Ok o, pl') ->
  o = Some svc ->
  decrypt_opt decrypt (NodeService.secret s) = Ok (NodeService.secret svc) /\ NodeService.config svc = config /\
  service_link svc addr
  = service_link (with_secret (NodeService.secret svc) s) addr.
Proof.
  intros Hf Hk. unfold update_node_service. rewrite Hf. destruct (port_taken _ _ _ _); [done|].
  unfold decrypt_service. cbn [NodeService.secret service_updated].
  destruct (decrypt_opt decrypt (NodeService.secret s)) as [sec|]; [|done]. intros [= <- _] [= <-].
  split; [done|]. split; [done|]. unfold service_link. simpl. by rewrite Hk.
Qed.

(** ** Witnesses *)

Definition keep (p : string) : option string := Some p.
#[local] Instance keep_store : SecretStore keep keep.
Proof. intros p s _ H. by injection H as <-. Qed.

Definition edge : Node.Node :=
  Node.mk 1 "edge" "203.0.113.9" "edge" 50051 "serve" [] [] true false None None None None None None None None None None 0 0 0.
Definition edge_plane : Plane := mkPlane (mkDb {[1 := edge]} ∅ ∅ ∅ ∅ ∅ ∅ ∅) [] [] [].
Definition naive_input : NewNodeService.NewNodeService :=
  NewNodeService.mk 1 "naive" "n" 443 (obj [("domain", JString "cdn.example.org"); ("username", JString "ada")]).
Definition naive_ops : list service_op := [CreateService (Some [18; 52]) 5 0 1 naive_input].
Definition naive_row : NodeService.NodeService :=
  NodeService.mk 5 1 "naive" "n" 443 (Some "1234")
    (obj [("domain", JString "cdn.example.org"); ("username", JString "ada")]) true 0 0.

Lemma naive_config_contained_witness :
  enabled_node_services keep 1 (store (fold_left (fun s op => run_service_op keep keep show op s) naive_ops (mkSt edge_plane [])))
  = Ok [naive_row] /\
  count_byte "{" (apply_naive naive_row) = 3.
Proof.
  split; [reflexivity|].
  refine (naive_config_contained keep keep show naive_ops 1 [naive_row] naive_row (mkSt edge_plane []) _ _ _ _ _ _ _ _ "{"%char _).
  - constructor.
  - repeat constructor; lia.
  - reflexivity.
  - by left.
  - reflexivity.
  - repeat constructor; by intros.
  - repeat constructor; by intros.
  - apply (bool_decide_unpack (NoDup ["domain"; "username"])). vm_compute. exact I.
  - reflexivity.
Defined.

Definition folded_row (text : string) : NodeService.NodeService :=
  NodeService.mk 5 1 "naive" "n" 443 (Some "1234") (obj [("Domain", JString text)]) true 0 0.

Lemma folded_field_escapes_validation_witness :
  count_byte "{" (apply_naive (folded_row ("x {" +:+ nl +:+ "  respond pwned" +:+ nl +:+ "}" +:+ nl +:+ ":80"))) = 4.
Proof.
  rewrite (proj2 (folded_field_escapes_validation _ (folded_row _) eq_refl)). reflexivity.
Defined.

Definition mtproto_row : NodeService.NodeService :=
  NodeService.mk 6 1 "mtproto" "m" 443 (Some "ee00") (obj [("host", JString "a.example")]) true 0 0.
Definition mtproto_plane : Plane := mkPlane (tables edge_plane) [] [] [mtproto_row].

Lemma mtproto_host_update_ignored_witness :
  exists svc, NodeService.config svc = obj [("host", JString "b.example")] /\
    service_link svc "h" = Some "tg://proxy?server=h&port=443&secret=ee00".
Proof.
  destruct (update_node_service keep 9 6 (UpdateNodeService.mk None None None (Some (obj [("host", JString "b.example")]))) mtproto_plane)
    as [[[svc|]|] pl'] eqn:E; [|discriminate E|discriminate E].
  destruct (mtproto_host_update_ignored keep 9 6 _ mtproto_row (Some svc) svc mtproto_plane pl' "h" eq_refl eq_refl E eq_refl)
    as (Hs & Hc & Hl).
  exists svc. split; [done|]. rewrite Hl. injection Hs as <-. reflexivity.
Defined.
