(* ===== verification/Users.v ===== *)
(** * Subscribers (the user handlers of src/master/src/api/mod.rs and their
    queries of src/master/src/db/repo.rs)

    The rows of users with their subscription tokens, the named links, and the
    accounts and groups a reseller sells from.  Handlers run in a state and
    error monad over that store: a step that fails leaves what earlier
    statements committed, as the code does.  What a handler sends out is kept
    as a trace.  Ciphers, the token digest, the printing of uuids, lower() and
    the collation of the database are parameters; the ids, tokens and nonces a
    request draws come with the request. *)

From S2P Require Import Prelude Strings Json Models Db Api Handler Traffic RateLimit Access Auth Labels Secrets.

(** ** State *)

Record UserSubscription := mkSub {
  us_id : Uuid;
  us_user_id : Uuid;
  us_name : string;
  us_token_hash : string;
  us_token_enc : option string;
  us_created_at : Z }.

(** The two token columns of a row of users. *)
Record Token := mkToken {
  tk_hash : string;
  tk_enc : option string }.

Record UserDb := mkUserDb {
  tables : Db;
  tokens : gmap Uuid Token;
  named : gmap Uuid UserSubscription;
  sold_groups : gset (Uuid * Uuid);
  identities : AuthDb }.
Definition accounts (db : UserDb) : gmap Uuid Admin.Admin := admins (identities db).

Definition with_tables f (db : UserDb) : UserDb :=
  mkUserDb (f (tables db)) (tokens db) (named db) (sold_groups db) (identities db).
Definition with_tokens f (db : UserDb) : UserDb :=
  mkUserDb (tables db) (f (tokens db)) (named db) (sold_groups db) (identities db).
Definition with_named f (db : UserDb) : UserDb :=
  mkUserDb (tables db) (tokens db) (f (named db)) (sold_groups db) (identities db).
Definition with_identities f (db : UserDb) : UserDb :=
  mkUserDb (tables db) (tokens db) (named db) (sold_groups db) (f (identities db)).
Definition with_sold f (db : UserDb) : UserDb :=
  mkUserDb (tables db) (tokens db) (named db) (f (sold_groups db)) (identities db).

#[local] Abbreviation M := (Handler.M UserDb).
#[local] Abbreviation St := (Handler.St UserDb).

(** What a request draws: the time, the generated ids and secrets, and the
    encryption under its successive nonces. *)
Record Draws := mkDraws {
  now : Z;
  new_id : Uuid;
  new_uuid : Uuid;
  new_token : Uuid;
  random_secret : string;
  encrypt : nat -> string -> option string }.

Section Users.
Context (decrypt : string -> option string) (token_hash : string -> string) (uuid_str : Uuid -> string)
  (sql_lower : string -> string) (collate : string -> string -> bool).

(** *** The constraints of the table *)

Definition text_within (max : Z) (o : option string) : bool :=
  match o with Some s => (1 <=? char_count s) && (char_count s <=? max) | None => true end.

Definition user_row_checks (u : User.User) : bool :=
  (0 <=? User.traffic_limit_bytes u) && text_within 25 (User.subscription_title u)
  && text_within 200 (User.subscription_description u) && text_within 40 (User.subscription_group u)
  && one_of ["inherit"; "auto"; "always"; "never"] (User.subscription_traffic_policy u)
  && (length (User.labels u) <=? 16)%nat && one_of ["none"; "daily"; "weekly"] (User.quota_interval u).

Definition same_alias (u v : User.User) : bool :=
  match User.subscription_alias u, User.subscription_alias v with
  | Some a, Some b => String.eqb (sql_lower a) (sql_lower b)
  | _, _ => false
  end.

(** The unique indexes, against every row but [id]. *)
Definition user_taken (id : Uuid) (u : User.User) (hash : string) (db : UserDb) : bool :=
  existsb (fun kv => negb (kv.1 =? id) && (String.eqb (User.username kv.2) (User.username u) || same_alias u kv.2))
    (map_to_list (users (tables db)))
  || existsb (fun kt => negb (kt.1 =? id) && String.eqb (tk_hash kt.2) hash) (map_to_list (tokens db)).

Definition creator_known (u : User.User) (db : UserDb) : bool :=
  match User.created_by u with Some a => is_some (accounts db !! a) | None => true end.

(** Writing a row: CHECK, then the unique indexes, then the foreign key. *)
Definition write_user (id : Uuid) (u : User.User) (t : Token) (db : UserDb) : result UserDb db_error :=
  bail CheckViolation when negb (user_row_checks u) in
  bail UniqueViolation when user_taken id u (tk_hash t) db in
  bail ForeignKeyViolation when negb (creator_known u db) in
  Ok (with_tables (with_users (fun m => <[id := u]> m)) (with_tokens (fun m => <[id := t]> m) db)).

(** UPDATE users SET ... WHERE id = $1 RETURNING *. *)
Definition update_row (id : Uuid) (f : User.User -> User.User) (g : Token -> Token) (db : UserDb)
    : result (option User.User) db_error * UserDb :=
  match users (tables db) !! id, tokens db !! id with
  | Some u, Some t =>
      match write_user id (f u) (g t) db with
      | Ok db' => (Ok (Some (f u)), db')
      | Err e => (Err e, db)
      end
  | _, _ => (Ok None, db)
  end.

(** *** Reading *)

Definition decrypt_opt_user (o : option User.User) : result (option User.User) db_error :=
  match o with Some u => let? u := decrypt_user decrypt u in Ok (Some u) | None => Ok None end.

Definition get_user (id : Uuid) (db : UserDb) : result (option User.User) db_error :=
  decrypt_opt_user (users (tables db) !! id).

Definition list_users (db : UserDb) : result (list User.User) db_error :=
  decrypt_users decrypt (sort_by (by_username collate) (rows (users (tables db)))).

Definition owned_by (admin : Uuid) (u : User.User) : bool := bool_decide (User.created_by u = Some admin).

Definition list_users_for_creator (admin : Uuid) (db : UserDb) : result (list User.User) db_error :=
  decrypt_users decrypt (sort_by (by_username collate) (List.filter (owned_by admin) (rows (users (tables db))))).

Definition count_users_for_creator (admin : Uuid) (db : UserDb) : Z :=
  Z.of_nat (length (List.filter (owned_by admin) (rows (users (tables db))))).

(** SUM ... ::bigint. *)
Definition used_total (admin : Uuid) (db : UserDb) : Z :=
  foldr Z.add 0 (User.used_traffic_bytes <$> List.filter (owned_by admin) (rows (users (tables db)))).

Definition reseller_traffic_used (admin : Uuid) (db : UserDb) : result Z db_error :=
  let total := used_total admin db in
  bail NumericOutOfRange when negb ((i64_min <=? total) && (total <=? i64_max)) in
  Ok total.

Definition reseller_group_ids (admin : Uuid) (db : UserDb) : list Uuid :=
  snd <$> List.filter (fun e => e.1 =? admin) (elements (sold_groups db)).

(** The user a token digest belongs to. *)
Definition user_by_hash (hash : string) (db : UserDb) : option User.User :=
  let! kt := List.find (fun kt => String.eqb (tk_hash kt.2) hash) (map_to_list (tokens db)) in
  users (tables db) !! kt.1.

Definition named_by_hash (hash : string) (db : UserDb) : option UserSubscription :=
  List.find (fun s => String.eqb (us_token_hash s) hash) (rows (named db)).

Definition with_title (title : string) (u : User.User) : User.User :=
  User.mk (User.id u) (User.username u) (Some title) (User.subscription_description u)
    (User.subscription_group u) (User.subscription_traffic_policy u) (User.labels u) (User.uuid u)
    (User.password u) (User.enabled u) (User.traffic_limit_bytes u) (User.used_traffic_bytes u)
    (User.expires_at u) (User.device_limit u) (User.routing_profile_id u) (User.quota_interval u)
    (User.quota_reset_at u) (User.created_by u) (User.subscription_alias u) (User.created_at u)
    (User.updated_at u).

(** A revocable token first, then the permanent link by row id, then a named
    link, whose name becomes the title. *)
Definition get_user_by_subscription_token (token : Uuid) (db : UserDb) : result (option User.User) db_error :=
  let hash := token_hash (uuid_str token) in
  let? by_token := decrypt_opt_user (user_by_hash hash db) in
  match by_token with
  | Some u => Ok (Some u)
  | None =>
      let? by_id := get_user token db in
      match by_id with
      | Some u => Ok (Some u)
      | None =>
          match named_by_hash hash db with
          | None => Ok None
          | Some s =>
              let? u := get_user (us_user_id s) db in
              Ok (with_title (us_name s) <$> u)
          end
      end
  end.

Definition get_user_by_alias (alias : string) (db : UserDb) : result (option User.User) db_error :=
  decrypt_opt_user
    (List.find (fun u => is_some_and (User.subscription_alias u)
                  (fun a => String.eqb (sql_lower a) (sql_lower (trim alias)))) (rows (users (tables db)))).

Definition reveal_subscription_token (id : Uuid) (db : UserDb) : result (option (option string)) db_error :=
  match tokens db !! id with
  | None => Ok None
  | Some t =>
      match tk_enc t with
      | None => Ok (Some None)
      | Some enc => match decrypt enc with Some p => Ok (Some (Some p)) | None => Err DecryptFailed end
      end
  end.

(** *** Writing *)

(** UPDATE ... RETURNING *, decrypted once the row is written. *)
Definition update_returning (id : Uuid) (f : User.User -> User.User) : M (option User.User) :=
  o ← statement (update_row id f (fun t => t));
  lift_result (lift_db (decrypt_opt_user o)).

(** The columns an INSERT leaves to their defaults are written out. *)
Definition new_row (d : Draws) (input : NewUser.NewUser) (uuid password : string) (created_by : option Uuid)
    : User.User :=
  User.mk (new_id d) (NewUser.username input) (NewUser.subscription_title input)
    (NewUser.subscription_description input) (NewUser.subscription_group input)
    (NewUser.subscription_traffic_policy input) [] uuid password true (NewUser.traffic_limit_bytes input) 0
    (NewUser.expires_at input) (Z.max (NewUser.device_limit input) 0) None "none" None created_by None
    (now d) (now d).

Definition default_groups (db : Db) : list Uuid :=
  (List.filter (fun g => is_default g.2) (map_to_list (node_groups db))).*1.

Definition grant_defaults (id : Uuid) (db : Db) : Db :=
  with_access (fun s => list_to_set ((fun g => (id, g)) <$> default_groups db) ∪ s) db.

(** The transaction of [create_user]. *)
Definition insert_user (u : User.User) (t : Token) (grant_default_group : bool) (db : UserDb)
    : result User.User db_error * UserDb :=
  match (bail UniqueViolation when is_some (users (tables db) !! User.id u) in write_user (User.id u) u t db) with
  | Ok db' => (Ok u, if grant_default_group then with_tables (grant_defaults (User.id u)) db' else db')
  | Err e => (Err e, db)
  end.

Definition create_user_row (d : Draws) (input : NewUser.NewUser) (created_by : option Uuid)
    (grant_default_group : bool) : M (User.User * Uuid) :=
  uuid ← encrypted (encrypt d 0 (uuid_str (new_uuid d)));
  password ← encrypted (encrypt d 1 (NewUser.password input));
  token_enc ← encrypted (encrypt d 2 (uuid_str (new_token d)));
  row ← statement (insert_user (new_row d input uuid password created_by)
                     (mkToken (token_hash (uuid_str (new_token d))) (Some token_enc)) grant_default_group);
  user ← lift_result (lift_db (decrypt_user decrypt row));
  mret (user, new_token d).

Definition updated (t : Z) (input : UpdateUser.UpdateUser) (password : option string) (u : User.User) : User.User :=
  User.mk (User.id u) (coalesce (UpdateUser.username input) (User.username u))
    (effective (UpdateUser.subscription_title input) (User.subscription_title u))
    (effective (UpdateUser.subscription_description input) (User.subscription_description u))
    (effective (UpdateUser.subscription_group input) (User.subscription_group u))
    (coalesce (UpdateUser.subscription_traffic_policy input) (User.subscription_traffic_policy u))
    (User.labels u) (User.uuid u) (coalesce password (User.password u))
    (coalesce (UpdateUser.enabled input) (User.enabled u))
    (coalesce (UpdateUser.traffic_limit_bytes input) (User.traffic_limit_bytes u))
    (User.used_traffic_bytes u) (effective (UpdateUser.expires_at input) (User.expires_at u))
    (coalesce (Z.max 0 <$> UpdateUser.device_limit input) (User.device_limit u))
    (User.routing_profile_id u) (User.quota_interval u) (User.quota_reset_at u) (User.created_by u)
    (User.subscription_alias u) (User.created_at u) t.

Definition update_user_row (d : Draws) (id : Uuid) (input : UpdateUser.UpdateUser) : M (option User.User) :=
  password ← (match UpdateUser.password input with
              | Some p => s ← encrypted (encrypt d 0 p); mret (Some s)
              | None => mret None
              end);
  update_returning id (updated (now d) input password).

Definition relabelled (t : Z) (labels : list string) (u : User.User) : User.User :=
  User.mk (User.id u) (User.username u) (User.subscription_title u) (User.subscription_description u)
    (User.subscription_group u) (User.subscription_traffic_policy u) labels (User.uuid u) (User.password u)
    (User.enabled u) (User.traffic_limit_bytes u) (User.used_traffic_bytes u) (User.expires_at u)
    (User.device_limit u) (User.routing_profile_id u) (User.quota_interval u) (User.quota_reset_at u)
    (User.created_by u) (User.subscription_alias u) (User.created_at u) t.

Definition set_user_labels_row (d : Draws) (id : Uuid) (labels : list string) : M (option User.User) :=
  update_returning id (relabelled (now d) labels).

Definition stamped (t : Z) (u : User.User) : User.User := User.with_enabled (User.enabled u) t u.

Definition rotate_credentials (d : Draws) (id : Uuid) (password : option string) : M (option (Uuid * string)) :=
  let plaintext := default (random_secret d) password in
  stored ← encrypted (encrypt d 0 plaintext);
  uuid ← encrypted (encrypt d 1 (uuid_str (new_uuid d)));
  o ← statement (update_row id (fun u => User.with_credentials uuid stored (stamped (now d) u)) (fun t => t));
  mret ((fun _ => (new_uuid d, plaintext)) <$> o).

Definition rotate_subscription_token (d : Draws) (id : Uuid) : M (option Uuid) :=
  token_enc ← encrypted (encrypt d 0 (uuid_str (new_token d)));
  o ← statement (update_row id (stamped (now d))
                   (fun _ => mkToken (token_hash (uuid_str (new_token d))) (Some token_enc)));
  mret ((fun _ => new_token d) <$> o).

Definition aliased (t : Z) (alias : option string) (u : User.User) : User.User :=
  User.mk (User.id u) (User.username u) (User.subscription_title u) (User.subscription_description u)
    (User.subscription_group u) (User.subscription_traffic_policy u) (User.labels u) (User.uuid u)
    (User.password u) (User.enabled u) (User.traffic_limit_bytes u) (User.used_traffic_bytes u)
    (User.expires_at u) (User.device_limit u) (User.routing_profile_id u) (User.quota_interval u)
    (User.quota_reset_at u) (User.created_by u) alias (User.created_at u) t.

Definition set_user_alias (t : Z) (id : Uuid) (alias : option string) (db : UserDb) : result bool db_error * UserDb :=
  let (r, db') := update_row id (aliased t alias) (fun t => t) db in
  ((let? o := r in Ok (is_some o)), db').

Definition reset_user_traffic_row (t : Z) (id : Uuid) : M (option User.User) :=
  o ← statement (fun db => let (o, tb) := reset_user_traffic t id (tables db) in (Ok o, with_tables (fun _ => tb) db));
  lift_result (lift_db (decrypt_opt_user o)).

(** DELETE FROM users: the tokens are columns of the row, the named links and
    group grants cascade. *)
Definition delete_user_row (id : Uuid) (db : UserDb) : result bool db_error * UserDb :=
  match delete_user id (tables db) with
  | (true, tb) =>
      (Ok true, mkUserDb tb (delete id (tokens db)) (filter (fun kv => us_user_id kv.2 <> id) (named db))
                  (sold_groups db) (identities db))
  | (false, _) => (Ok false, db)
  end.

Definition set_groups_statement (id : Uuid) (groups : list Uuid) (db : UserDb) : result unit db_error * UserDb :=
  match set_user_groups id groups (tables db) with
  | Ok tb => (Ok tt, with_tables (fun _ => tb) db)
  | Err e => (Err e, db)
  end.

Definition set_reseller_groups (admin : Uuid) (groups : list Uuid) (db : UserDb) : result unit db_error * UserDb :=
  if forallb (fun g => is_some (accounts db !! admin) && is_some (node_groups (tables db) !! g)) groups
  then (Ok tt, with_sold (fun s => list_to_set ((fun g => (admin, g)) <$> groups) ∪ filter (fun e => e.1 <> admin) s) db)
  else (Err ForeignKeyViolation, db).

(** *** Named links *)

Definition insert_named (s : UserSubscription) (db : UserDb) : result UserSubscription db_error * UserDb :=
  match (bail UniqueViolation
           when is_some (named db !! us_id s)
                || existsb (fun r => String.eqb (us_token_hash r) (us_token_hash s)) (rows (named db)) in
         bail ForeignKeyViolation when negb (is_some (users (tables db) !! us_user_id s)) in
         Ok s) with
  | Ok s => (Ok s, with_named (fun m => <[us_id s := s]> m) db)
  | Err e => (Err e, db)
  end.

Definition create_user_subscription_row (d : Draws) (user : Uuid) (name : string) : M (UserSubscription * Uuid) :=
  token_enc ← encrypted (encrypt d 0 (uuid_str (new_token d)));
  row ← statement (insert_named (mkSub (new_id d) user (trim name) (token_hash (uuid_str (new_token d)))
                                   (Some token_enc) (now d)));
  mret (row, new_token d).

Definition list_user_subscriptions_rows (user : Uuid) (db : UserDb) : list UserSubscription :=
  sort_by (fun a b => us_created_at a <=? us_created_at b)
    (List.filter (fun s => us_user_id s =? user) (rows (named db))).

Definition delete_user_subscription_row (user id : Uuid) (db : UserDb) : result bool db_error * UserDb :=
  match named db !! id with
  | Some s => if us_user_id s =? user then (Ok true, with_named (delete id) db) else (Ok false, db)
  | None => (Ok false, db)
  end.

Definition reveal_user_subscription_row (user id : Uuid) (db : UserDb) : result (option (option string)) db_error :=
  match named db !! id with
  | Some s =>
      if us_user_id s =? user then
        match us_token_enc s with
        | None => Ok (Some None)
        | Some enc => match decrypt enc with Some p => Ok (Some (Some p)) | None => Err DecryptFailed end
        end
      else Ok None
  | None => Ok None
  end.

(** ** Handlers *)

Record UserView := mkUserView {
  uv_user : User.User;
  uv_active : bool;
  uv_suppressed_reason : option string }.

Definition user_view (t : Z) (u : User.User) : UserView :=
  let reason := User.suppressed_reason t u in
  mkUserView u (negb (is_some reason)) reason.

Definition user_missing : api_error := NotFound "user not found".

Definition owned_user (i : Identity) (id : Uuid) : M User.User :=
  o ← read (get_user id);
  user ← found o user_missing;
  _ ← refuse (is_reseller i && negb (bool_decide (User.created_by user = admin_id i)))
        (Forbidden "this user is outside your scope");
  mret user.

Definition get_user_handler (t : Z) (i : Identity) (id : Uuid) : M UserView :=
  u ← owned_user i id; mret (user_view t u).

Definition list_users_handler (t : Z) (i : Identity) : M (list UserView) :=
  us ← read (fun db => match admin_id i with
                       | Some a => if is_reseller i then list_users_for_creator a db else list_users db
                       | None => list_users db
                       end);
  mret (user_view t <$> us).

(** The allocation a reseller creates within. *)
Definition reseller_allocation (i : Identity) (input : NewUser.NewUser) : M (option (Uuid * list Uuid)) :=
  if is_reseller i then
    admin_id ← found (admin_id i) (Forbidden "reseller identity has no account");
    oa ← query (fun db => accounts db !! admin_id);
    admin ← found oa (Forbidden "reseller account not found");
    owned ← query (count_users_for_creator admin_id);
    _ ← refuse ((0 <? Admin.max_users admin) && (Admin.max_users admin <=? owned))
          (Forbidden ("user limit reached (" +:+ show owned +:+ " of " +:+ show (Admin.max_users admin) +:+ ")"));
    _ ← refuse ((0 <? Admin.user_traffic_ceiling_bytes admin)
                && ((NewUser.traffic_limit_bytes input <=? 0)
                    || (Admin.user_traffic_ceiling_bytes admin <? NewUser.traffic_limit_bytes input)))
          (Forbidden ("per-user traffic limit must be between 1 and "
                      +:+ show (Admin.user_traffic_ceiling_bytes admin) +:+ " bytes"));
    _ ← (if 0 <? Admin.traffic_limit_bytes admin then
           used ← read (reseller_traffic_used admin_id);
           refuse (Admin.traffic_limit_bytes admin <=? used)
             (Forbidden "your traffic budget is exhausted — ask an admin to raise it")
         else mret tt);
    groups ← query (reseller_group_ids admin_id);
    _ ← refuse (bool_decide (groups = []))
          (Forbidden "your account has no groups to sell yet — ask an admin");
    mret (Some (admin_id, groups))
  else mret None.

Record CreatedUser := mkCreated {
  cu_user : UserView;
  cu_subscription_token : Uuid;
  cu_subscription_path : string;
  cu_revocable_subscription_path : string }.

Definition sub_path (token : string) : string := "/sub/" +:+ token.

Definition create_user (d : Draws) (i : Identity) (input : NewUser.NewUser) : M CreatedUser :=
  _ ← lift_result (validate_user input);
  reseller_groups ← reseller_allocation i input;
  let created_by := match reseller_groups with Some (a, _) => Some a | None => admin_id i end in
  created ← create_user_row d input created_by (negb (is_some reseller_groups));
  let user := created.1 in let token := created.2 in
  _ ← (match reseller_groups with
       | Some (_, groups) => statement (set_groups_statement (User.id user) groups)
       | None => mret tt
       end);
  nodes ← query (fun db => user_node_ids (User.id user) (tables db));
  _ ← push_nodes nodes;
  _ ← emit (CaptureVersion "user" (User.id user));
  _ ← audit "create" "user" (User.id user) (obj [("username", JString (User.username user))]);
  mret (mkCreated (user_view (now d) user) token (sub_path (uuid_str (User.id user))) (sub_path (uuid_str token))).

Definition update_user (d : Draws) (i : Identity) (id : Uuid) (input : UpdateUser.UpdateUser) : M UserView :=
  _ ← lift_result (validate_update_user input);
  _ ← owned_user i id;
  nodes ← query (fun db => user_node_ids id (tables db));
  o ← update_user_row d id input;
  user ← found o user_missing;
  _ ← push_nodes nodes;
  _ ← emit (CaptureVersion "user" id);
  _ ← audit "update" "user" id (obj [("username", JString (User.username user))]);
  mret (user_view (now d) user).

Definition set_user_labels (d : Draws) (i : Identity) (id : Uuid) (labels : list string) : M UserView :=
  _ ← owned_user i id;
  labels ← lift_result (normalize_labels labels);
  o ← set_user_labels_row d id labels;
  user ← found o user_missing;
  _ ← audit "labels" "user" id (obj [("labels", jstrs labels)]);
  mret (user_view (now d) user).

Definition delete_user_handler (i : Identity) (id : Uuid) : M unit :=
  _ ← owned_user i id;
  nodes ← query (fun db => user_node_ids id (tables db));
  gone ← statement (delete_user_row id);
  _ ← refuse (negb gone) user_missing;
  _ ← push_nodes nodes;
  audit "delete" "user" id empty_object.

Definition rotate_user_credentials (d : Draws) (i : Identity) (id : Uuid) (password : option string)
    : M (Uuid * string) :=
  _ ← refuse (is_some_and password is_empty) (BadRequest "password must not be empty");
  _ ← owned_user i id;
  nodes ← query (fun db => user_node_ids id (tables db));
  o ← rotate_credentials d id password;
  creds ← found o user_missing;
  _ ← push_nodes nodes;
  _ ← audit "rotate_credentials" "user" id empty_object;
  mret creds.

Record RevealedSubscription := mkRevealed {
  rs_subscription_token : option string;
  rs_subscription_path : option string;
  rs_permanent_subscription_path : option string;
  rs_revocable_subscription_path : option string }.

Definition reveal_subscription (i : Identity) (id : Uuid) : M RevealedSubscription :=
  _ ← owned_user i id;
  o ← read (reveal_subscription_token id);
  token ← found o user_missing;
  let permanent := Some (sub_path (uuid_str id)) in
  mret (mkRevealed token permanent permanent (sub_path <$> token)).

Definition list_user_subscriptions (i : Identity) (id : Uuid) : M (list UserSubscription) :=
  _ ← owned_user i id;
  query (list_user_subscriptions_rows id).

Definition create_user_subscription (d : Draws) (i : Identity) (id : Uuid) (name : string)
    : M (UserSubscription * Uuid * string) :=
  _ ← owned_user i id;
  let name := trim name in
  _ ← refuse (is_empty name || (25 <? char_count name)) (BadRequest "name is required (max 25 chars)");
  created ← create_user_subscription_row d id name;
  let sub := created.1 in let token := created.2 in
  _ ← audit "create" "user_subscription" id (obj [("name", JString (us_name sub))]);
  mret (sub, token, sub_path (uuid_str token)).

Definition reveal_user_subscription (i : Identity) (id sid : Uuid) : M RevealedSubscription :=
  _ ← owned_user i id;
  o ← read (reveal_user_subscription_row id sid);
  token ← found o (NotFound "subscription not found");
  let path := sub_path <$> token in
  mret (mkRevealed token path None path).

Definition delete_user_subscription (i : Identity) (id sid : Uuid) : M unit :=
  _ ← owned_user i id;
  gone ← statement (delete_user_subscription_row id sid);
  _ ← refuse (negb gone) (NotFound "subscription not found");
  audit "delete" "user_subscription" id empty_object.

Definition rotate_subscription (d : Draws) (i : Identity) (id : Uuid) : M (Uuid * string) :=
  _ ← owned_user i id;
  o ← rotate_subscription_token d id;
  token ← found o user_missing;
  _ ← audit "rotate_subscription" "user" id empty_object;
  mret (token, sub_path (uuid_str token)).

Definition reset_user_traffic (t : Z) (i : Identity) (id : Uuid) : M UserView :=
  _ ← owned_user i id;
  nodes ← query (fun db => user_node_ids id (tables db));
  o ← reset_user_traffic_row t id;
  user ← found o user_missing;
  _ ← push_nodes nodes;
  _ ← audit "reset_traffic" "user" id empty_object;
  mret (user_view t user).

Definition get_user_groups (i : Identity) (id : Uuid) : M (list Uuid) :=
  _ ← owned_user i id;
  query (fun db => snd <$> List.filter (fun e => e.1 =? id) (elements (user_group_access (tables db)))).

Definition set_user_groups_handler (i : Identity) (id : Uuid) (groups : list Uuid) : M unit :=
  _ ← owned_user i id;
  _ ← (if is_reseller i then
         allowed ← query (reseller_group_ids (default 0 (admin_id i)));
         refuse (negb (forallb (fun g => bool_decide (g ∈ allowed)) groups))
           (Forbidden "one or more groups are outside your entitlement")
       else mret tt);
  before ← query (fun db => user_node_ids id (tables db));
  _ ← statement (set_groups_statement id groups);
  after ← query (fun db => user_node_ids id (tables db));
  _ ← push_nodes (before ++ after);
  audit "set_groups" "user" id (obj [("groups", jint (Z.of_nat (length groups)))]).

Definition valid_alias (a : string) : bool :=
  (3 <=? len a) && (len a <=? 40)
  && all_bytes (fun c => is_alphanumeric c || Ascii.eqb c "-" || Ascii.eqb c "_") a.

(** A blank alias clears it; a taken one is a conflict, any other fault of the
    statement is internal. *)
Definition set_alias (t : Z) (i : Identity) (id : Uuid) (alias : option string) : M UserView :=
  _ ← owned_user i id;
  let alias := opt_filter (fun a => negb (is_empty a)) (trim <$> alias) in
  _ ← refuse (is_some_and alias (fun a => negb (valid_alias a)))
        (BadRequest "alias must be 3-40 chars: letters, digits, - or _");
  updated ← (fun s => match set_user_alias t id alias (store s) with
                      | (Ok b, db) => (Ok b, mkSt db (trace s))
                      | (Err UniqueViolation, db) => (Err (Conflict "that alias is already taken"), mkSt db (trace s))
                      | (Err e, db) => (Err (Internal (ae_message (from_db_error e))), mkSt db (trace s))
                      end);
  _ ← refuse (negb updated) user_missing;
  _ ← audit "set_alias" "user" id empty_object;
  o ← read (get_user id);
  user ← found o user_missing;
  mret (user_view t user).
End Users.

#[global] Instance ro_owned decrypt i id : ReadOnly (owned_user decrypt i id).
Proof. unfold owned_user. apply _. Qed.
#[global] Instance ro_allocation i input : ReadOnly (reseller_allocation i input).
Proof. unfold reseller_allocation. apply _. Qed.

(** ** Operations as steps *)

Inductive UserOp :=
| OpCreate (input : NewUser.NewUser)
| OpUpdate (id : Uuid) (input : UpdateUser.UpdateUser)
| OpLabels (id : Uuid) (labels : list string)
| OpDelete (id : Uuid)
| OpCredentials (id : Uuid) (password : option string)
| OpRotateLink (id : Uuid)
| OpNewLink (id : Uuid) (name : string)
| OpDeleteLink (id sid : Uuid)
| OpResetTraffic (id : Uuid)
| OpGroups (id : Uuid) (groups : list Uuid)
| OpAlias (id : Uuid) (alias : option string).

Section Steps.
Context (decrypt : string -> option string) (token_hash : string -> string) (uuid_str : Uuid -> string)
  (sql_lower : string -> string).

Definition done_with {A} (m : M A) : M unit := m ≫= fun _ => mret tt.

Definition run_op (d : Draws) (i : Identity) (op : UserOp) : M unit :=
  match op with
  | OpCreate input => done_with (create_user decrypt token_hash uuid_str sql_lower d i input)
  | OpUpdate id input => done_with (update_user decrypt sql_lower d i id input)
  | OpLabels id labels => done_with (set_user_labels decrypt sql_lower d i id labels)
  | OpDelete id => delete_user_handler decrypt i id
  | OpCredentials id password => done_with (rotate_user_credentials decrypt uuid_str sql_lower d i id password)
  | OpRotateLink id => done_with (rotate_subscription decrypt token_hash uuid_str sql_lower d i id)
  | OpNewLink id name => done_with (create_user_subscription decrypt token_hash uuid_str d i id name)
  | OpDeleteLink id sid => delete_user_subscription decrypt i id sid
  | OpResetTraffic id => done_with (reset_user_traffic decrypt (now d) i id)
  | OpGroups id groups => set_user_groups_handler decrypt i id groups
  | OpAlias id alias => done_with (set_alias decrypt sql_lower (now d) i id alias)
  end.

Definition run_ops (i : Identity) (ops : list (Draws * UserOp)) (s : St) : St :=
  fold_left (fun s op => (run_op op.1 i op.2 s).2) ops s.

(** *** What stays of another operator's users *)

(** All the store holds about user [k]. *)
Definition same_user (k : Uuid) (db db' : UserDb) : Prop :=
  users (tables db') !! k = users (tables db) !! k /\
  tokens db' !! k = tokens db !! k /\
  (forall g, (k, g) ∈ user_group_access (tables db') <-> (k, g) ∈ user_group_access (tables db)) /\
  (forall sid s, us_user_id s = k -> named db' !! sid = Some s <-> named db !! sid = Some s) /\
  (forall c, counter_user c = k -> node_user_traffic (tables db') !! c = node_user_traffic (tables db) !! c).

(** User [k] is absent or was created by [a]. *)
Definition within (a k : Uuid) (db : UserDb) : Prop :=
  forall u, users (tables db) !! k = Some u -> User.created_by u = Some a.

(** Users of others are as they were, none is planted among them or taken over,
    and the tables a reseller does not manage are untouched. *)
Definition isolated (a : Uuid) (db db' : UserDb) : Prop :=
  (forall k, same_user k db db' \/ (within a k db /\ within a k db')) /\
  nodes (tables db') = nodes (tables db) /\ inbounds (tables db') = inbounds (tables db) /\
  node_groups (tables db') = node_groups (tables db) /\
  sold_groups db' = sold_groups db /\ identities db' = identities db.

Lemma isolated_refl a db : isolated a db db.
Proof. split_and!; try done. intros k. by left. Qed.

Lemma same_user_trans k db1 db2 db3 : same_user k db1 db2 -> same_user k db2 db3 -> same_user k db1 db3.
Proof.
  intros (Hu & Ht & Hg & Hn & Hc) (Hu' & Ht' & Hg' & Hn' & Hc'). split_and!; try congruence.
  - intros g. by rewrite Hg'.
  - intros sid s Hs. rewrite (Hn' _ _ Hs). by apply Hn.
  - intros c Hk. by rewrite Hc', Hc.
Qed.

Lemma isolated_trans a db1 db2 db3 : isolated a db1 db2 -> isolated a db2 db3 -> isolated a db1 db3.
Proof.
  intros (H12 & ? & ? & ? & ? & ?) (H23 & ? & ? & ? & ? & ?). split_and!; try congruence.
  intros k. destruct (H12 k) as [Hs|[Hw1 Hw2]], (H23 k) as [Hs'|[Hw2' Hw3]].
  - left. by eapply same_user_trans.
  - right. split; [|done]. intros u Hu. apply Hw2'. by rewrite (proj1 Hs).
  - right. split; [done|]. intros u Hu. apply Hw2. by rewrite <- (proj1 Hs').
  - by right.
Qed.

#[local] Instance isolated_preorder a : PreOrder (isolated a).
Proof. split; [intros db; apply isolated_refl|intros ???; apply isolated_trans]. Qed.

(** A change to user [id] alone, made while it is [a]'s. *)
Definition touches (a id : Uuid) (db db' : UserDb) : Prop :=
  within a id db /\ within a id db' /\ (forall k, k <> id -> same_user k db db') /\
  nodes (tables db') = nodes (tables db) /\ inbounds (tables db') = inbounds (tables db) /\
  node_groups (tables db') = node_groups (tables db) /\
  sold_groups db' = sold_groups db /\ identities db' = identities db.

Lemma touches_isolated a id db db' : touches a id db db' -> isolated a db db'.
Proof.
  intros (Hw & Hw' & Hk & ? & ? & ? & ? & ?). split_and!; try done. intros k.
  destruct (decide (k = id)) as [->|Hne]; [by right|left; by apply Hk].
Qed.

Lemma write_user_touches a id u t db db' :
  within a id db -> User.created_by u = Some a -> write_user sql_lower id u t db = Ok db' -> touches a id db db'.
Proof.
  intros Hw Hu. unfold write_user. destruct (negb _); [done|]. destruct (user_taken _ _ _ _ _); [done|].
  destruct (negb _); [done|]. intros [= <-]. split_and!; try done.
  - intros v. simpl. rewrite lookup_insert_eq. by intros [= <-].
  - intros k Hne. split_and!; simpl; rewrite ?lookup_insert_ne by done; done.
Qed.

Lemma update_row_touches a id f g db r db' :
  within a id db -> (forall u, User.created_by (f u) = User.created_by u) ->
  update_row sql_lower id f g db = (r, db') -> isolated a db db'.
Proof.
  intros Hw Hf. unfold update_row. destruct (users (tables db) !! id) as [u|] eqn:Eu; [|by intros [= _ <-]].
  destruct (tokens db !! id) as [t|]; [|by intros [= _ <-]].
  destruct (write_user _ _ _ _ _) as [db1|] eqn:Ew; intros [= _ <-]; [|done].
  eapply touches_isolated, write_user_touches; [done| |done]. rewrite Hf. by apply Hw.
Qed.

Lemma set_groups_touches a id gs db r db' :
  within a id db -> set_groups_statement id gs db = (r, db') -> isolated a db db'.
Proof.
  intros Hw. unfold set_groups_statement, set_user_groups. destruct (negb _); intros [= _ <-]; [done|].
  apply (touches_isolated a id). split_and!; try done. intros k Hne. split_and!; try done.
  intros g. simpl. rewrite elem_of_union, elem_of_list_to_set, list_elem_of_fmap, elem_of_filter. simpl. naive_solver.
Qed.

Lemma delete_row_touches a id db r db' :
  within a id db -> delete_user_row id db = (r, db') -> isolated a db db'.
Proof.
  intros Hw. unfold delete_user_row, delete_user. destruct (users (tables db) !! id) as [u|]; intros [= _ <-]; [|done].
  apply (touches_isolated a id). split_and!; try done.
  - intros v. simpl. by rewrite lookup_delete_eq.
  - intros k Hne. split_and!; simpl.
    + by rewrite lookup_delete_ne.
    + by rewrite lookup_delete_ne.
    + intros g. rewrite elem_of_filter. naive_solver.
    + intros sid s Hs. rewrite map_lookup_filter_Some. naive_solver.
    + intros c Hc. rewrite map_lookup_filter. destruct (node_user_traffic (tables db) !! c) as [x|]; [|done]. simpl.
      rewrite option_guard_True; [done|]. rewrite Hc. by apply Z.eqb_neq.
Qed.

Lemma reset_touches a t id db :
  within a id db -> isolated a db (with_tables (fun _ => (Traffic.reset_user_traffic t id (tables db)).2) db).
Proof.
  intros Hw. apply (touches_isolated a id). unfold Traffic.reset_user_traffic. cbn [users with_counters].
  assert (Hc : forall k c, k <> id -> counter_user c = k ->
    filter (fun kc => (counter_user kc.1 =? id) = false) (node_user_traffic (tables db)) !! c
    = node_user_traffic (tables db) !! c).
  { intros k c Hne Hk. rewrite map_lookup_filter. destruct (node_user_traffic (tables db) !! c) as [x|]; [|done].
    simpl. rewrite option_guard_True; [done|]. rewrite Hk. by apply Z.eqb_neq. }
  destruct (users (tables db) !! id) as [u|] eqn:Eu; split_and!; try done.
  - intros v. simpl. rewrite lookup_insert_eq. intros [= <-]. simpl. by apply Hw.
  - intros k Hne. split_and!; simpl; try done; [by rewrite lookup_insert_ne|]. intros c. by apply Hc.
  - intros k Hne. split_and!; simpl; try done. intros c. by apply Hc.
Qed.

Lemma named_insert_touches a s db r db' :
  within a (us_user_id s) db -> insert_named s db = (r, db') -> isolated a db db'.
Proof.
  intros Hw. unfold insert_named. destruct (named db !! us_id s) as [old|] eqn:Eo; [by intros [= _ <-]|].
  simpl. destruct (existsb _ _); [by intros [= _ <-]|]. destruct (negb _); intros [= _ <-]; [done|].
  apply (touches_isolated a (us_user_id s)). split_and!; try done. intros k Hne. split_and!; try done.
  intros sid s' Hs'. simpl. destruct (decide (sid = us_id s)) as [->|Hd].
  - rewrite lookup_insert_eq, Eo. split; [|done]. intros [= <-]. done.
  - by rewrite lookup_insert_ne.
Qed.

Lemma named_delete_touches a user id db r db' :
  within a user db -> delete_user_subscription_row user id db = (r, db') -> isolated a db db'.
Proof.
  intros Hw. unfold delete_user_subscription_row. destruct (named db !! id) as [s|] eqn:Es; [|by intros [= _ <-]].
  destruct (Z.eqb_spec (us_user_id s) user) as [<-|]; intros [= _ <-]; [|done].
  apply (touches_isolated a (us_user_id s)). split_and!; try done. intros k Hne. split_and!; try done.
  intros sid s' Hs'. simpl. rewrite lookup_delete_Some. split; [by intros [_ ?]|]. intros H. split; [|done].
  intros ->. congruence.
Qed.

Lemma insert_user_touches a u t dflt db r db' :
  User.created_by u = Some a -> insert_user sql_lower u t dflt db = (r, db') ->
  isolated a db db' /\ (forall u', r = Ok u' -> u' = u /\ within a (User.id u) db').
Proof.
  intros Hu. unfold insert_user. destruct (users (tables db) !! User.id u) as [old|] eqn:Eo; [by intros [= <- <-]|].
  cbn [is_some]. destruct (write_user _ _ _ _ _) as [db1|] eqn:Ew; intros [= <- <-]; [|done].
  apply (write_user_touches a) in Ew; [|by intros v; rewrite Eo|done].
  destruct Ew as (Hw & Hw' & Hk & ? & ? & ? & ? & ?).
  split; [|intros u' [= <-]; split; [done|by destruct dflt]].
  destruct dflt; apply (touches_isolated a (User.id u)); split_and!; try done.
  intros k Hne. apply (same_user_trans k db db1); [by apply Hk|]. split_and!; try done.
  intros g. simpl. rewrite elem_of_union, elem_of_list_to_set, list_elem_of_fmap. naive_solver.
Qed.

(** A statement that keeps [isolated] from where [a] stood. *)
Lemma hoare_isolated {A} a id db0 f :
  (forall db r db', within a id db -> f db = (r, db') -> isolated a db db') ->
  hoare (fun db => isolated a db0 db /\ within a id db) (@statement UserDb A f) (fun _ => isolated a db0) (isolated a db0).
Proof.
  intros H. apply hoare_statement. intros db [Hi Hw]. destruct (f db) as [r db'] eqn:E.
  specialize (H _ _ _ Hw E). destruct r; by etrans.
Qed.

(** Past [owned_user], a reseller acts on a user of its own. *)
Lemma hoare_owned {B} a i id db0 (k : User.User -> M B) Q :
  is_reseller i = true -> admin_id i = Some a ->
  (forall u, hoare (fun db => isolated a db0 db /\ within a id db) (k u) Q (isolated a db0)) ->
  hoare (isolated a db0) (owned_user decrypt i id ≫= k) Q (isolated a db0).
Proof.
  intros Hr Ha Hk. eapply (hoare_bind _ _ (fun _ db => isolated a db0 db /\ within a id db)); [|exact Hk].
  intros s Hs. unfold owned_user, mbind, M_bind, read, get_user, decrypt_opt_user.
  destruct (users (tables (store s)) !! id) as [u|] eqn:Eu; [|done]. simpl.
  unfold decrypt_user. destruct (decrypt (User.uuid u)), (decrypt (User.password u)); try done. simpl.
  rewrite Hr. unfold refuse. simpl. case_bool_decide as Hc; simpl; [|done]. split; [done|].
  intros v Hv. simplify_eq. by rewrite Hc, Ha.
Qed.

(** A write in the middle of a handler, the rest of which only reads. *)
Lemma hoare_write {A B} a id db0 (m : M A) (k : A -> M B) :
  hoare (fun db => isolated a db0 db /\ within a id db) m (fun _ => isolated a db0) (isolated a db0) ->
  (forall x, ReadOnly (k x)) ->
  hoare (fun db => isolated a db0 db /\ within a id db) (m ≫= k) (fun _ => isolated a db0) (isolated a db0).
Proof. intros Hm Hk. eapply hoare_bind; [exact Hm|]. intros x. by apply hoare_end. Qed.

Lemma hoare_update a id db0 f g :
  (forall u, User.created_by (f u) = User.created_by u) ->
  hoare (fun db => isolated a db0 db /\ within a id db) (statement (update_row sql_lower id f g))
    (fun _ => isolated a db0) (isolated a db0).
Proof. intros Hf. apply (hoare_isolated a id). intros db r db' Hw. by apply update_row_touches. Qed.

Lemma allocation_reseller a i input db0 :
  is_reseller i = true -> admin_id i = Some a ->
  hoare (isolated a db0) (reseller_allocation i input)
    (fun o db => isolated a db0 db /\ exists gs, o = Some (a, gs)) (isolated a db0).
Proof.
  intros Hr Ha. unfold reseller_allocation. rewrite Hr, Ha. apply hoare_found.
  reads ltac:(done). intros s Hs. cbn. eauto.
Qed.

Lemma hoare_done {A} (P E : UserDb -> Prop) (m : M A) :
  hoare P m (fun _ => E) E -> hoare P (done_with m) (fun _ => E) E.
Proof. intros H. eapply hoare_bind; [exact H|]. intros x. apply hoare_end; [apply _|done]. Qed.

(** The handlers that update a row of their own. *)
Lemma hoare_update_returning a id db0 f :
  (forall u, User.created_by (f u) = User.created_by u) ->
  hoare (fun db => isolated a db0 db /\ within a id db) (update_returning decrypt sql_lower id f)
    (fun _ => isolated a db0) (isolated a db0).
Proof. intros Hf. apply (hoare_write a id); [by apply hoare_update|apply _]. Qed.

Ltac isolate := first [apply hoare_owned; [done..|intros ?]
                      |apply hoare_read; [apply _|first [done|by intros ? []]|intros ?]].

Lemma update_user_isolated a i d id input db0 :
  is_reseller i = true -> admin_id i = Some a ->
  hoare (isolated a db0) (update_user decrypt sql_lower d i id input) (fun _ => isolated a db0) (isolated a db0).
Proof.
  intros Hr Ha. unfold update_user. do 3 isolate.
  apply (hoare_write a id); [|apply _]. unfold update_user_row.
  apply hoare_read; [destruct (UpdateUser.password input); apply _|by intros ? []|intros pw].
  by apply hoare_update_returning.
Qed.

Lemma create_user_row_isolated a d input dflt db0 :
  hoare (isolated a db0) (create_user_row decrypt token_hash uuid_str sql_lower d input (Some a) dflt)
    (fun x db => isolated a db0 db /\ within a (User.id x.1) db) (isolated a db0).
Proof.
  unfold create_user_row. do 3 isolate.
  eapply (hoare_bind _ _ (fun u db => isolated a db0 db /\ within a (User.id u) db)).
  - apply hoare_statement. intros db Hi. destruct (insert_user _ _ _ _ _) as [r db'] eqn:E.
    apply (insert_user_touches a) in E as [Hi' Hu]; [|done].
    destruct r as [u|]; [|by transitivity db]. destruct (Hu u eq_refl) as [-> Hw]. split; [by transitivity db|done].
  - intros u s [Hi Hw]. cbn. destruct (decrypt_user decrypt u) as [u'|] eqn:Ed; [|done].
    split; [done|]. cbn. by rewrite (decrypt_user_id _ _ _ Ed).
Qed.

Lemma create_user_isolated a i d input db0 :
  is_reseller i = true -> admin_id i = Some a ->
  hoare (isolated a db0) (create_user decrypt token_hash uuid_str sql_lower d i input)
    (fun _ => isolated a db0) (isolated a db0).
Proof.
  intros Hr Ha. unfold create_user. isolate.
  eapply hoare_bind; [by apply allocation_reseller|]. intros o. apply hoare_pure. intros [gs ->].
  eapply hoare_bind; [apply create_user_row_isolated|]. intros [u t]. cbn [fst snd].
  apply (hoare_write a (User.id u)); [|apply _].
  apply hoare_isolated. intros db r db' Hw. by apply set_groups_touches.
Qed.

Lemma reseller_step_isolated a i d op s :
  is_reseller i = true -> admin_id i = Some a -> isolated a (store s) (store (run_op d i op s).2).
Proof.
  intros Hr Ha.
  assert (H : hoare (isolated a (store s)) (run_op d i op) (fun _ => isolated a (store s)) (isolated a (store s))).
  { set (db0 := store s). clearbody db0.
    destruct op as [input|id input|id labels|id|id pw|id|id name|id sid|id|id gs|id al]; cbn [run_op];
      try apply hoare_done.
    - by apply create_user_isolated.
    - by apply update_user_isolated.
    - unfold set_user_labels. do 2 isolate. apply (hoare_write a id); [|apply _]. by apply hoare_update_returning.
    - unfold delete_user_handler. do 2 isolate.
      apply (hoare_write a id); [|apply _]. apply hoare_isolated. intros db r db' Hw. by apply delete_row_touches.
    - unfold rotate_user_credentials. do 3 isolate. apply (hoare_write a id); [|apply _].
      unfold rotate_credentials. do 2 isolate. apply (hoare_write a id); [by apply hoare_update|apply _].
    - unfold rotate_subscription. isolate. apply (hoare_write a id); [|apply _].
      unfold rotate_subscription_token. isolate. apply (hoare_write a id); [by apply hoare_update|apply _].
    - unfold create_user_subscription. do 2 isolate. apply (hoare_write a id); [|apply _].
      unfold create_user_subscription_row. isolate. apply (hoare_write a id); [|apply _].
      apply hoare_isolated. intros db r db' Hw. by apply named_insert_touches.
    - unfold delete_user_subscription. isolate. apply (hoare_write a id); [|apply _].
      apply hoare_isolated. intros db r db' Hw. by apply named_delete_touches.
    - unfold reset_user_traffic. do 2 isolate. apply (hoare_write a id); [|apply _].
      unfold reset_user_traffic_row. apply (hoare_write a id); [|apply _].
      apply hoare_isolated. intros db r db' Hw. assert (Ht := reset_touches a (now d) id db Hw).
      destruct (Traffic.reset_user_traffic _ _ _) as [o tb]. by intros [= _ <-].
    - unfold set_user_groups_handler. do 3 isolate. apply (hoare_write a id); [|apply _].
      apply hoare_isolated. intros db r db' Hw. by apply set_groups_touches.
    - unfold set_alias. do 2 isolate. apply (hoare_write a id); [|apply _].
      intros st [Hi Hw]. destruct (set_user_alias _ _ _ _ _) as [r db'] eqn:E.
      assert (isolated a (store st) db').
      { unfold set_user_alias in E. destruct (update_row _ _ _ _ _) as [r' db1] eqn:E'.
        injection E as _ <-. by eapply (update_row_touches a id _ _ _ _ _ Hw); [|exact E']. }
      destruct r as [|[]]; simpl; by transitivity (store st). }
  specialize (H s (isolated_refl _ _)). by destruct (run_op d i op s) as [[[]|] s'].
Qed.

(** C4: whatever sequence of user operations a reseller runs, and whether or
    not each is accepted, every user of another operator keeps its row, its
    token, its group grants, its named links and its counters; no row is added
    to or taken from another operator; nodes, inbounds, groups, allocations and
    accounts stay as they are. *)
Theorem reseller_isolation a i ops s :
  is_reseller i = true -> admin_id i = Some a -> isolated a (store s) (store (run_ops i ops s)).
Proof.
  intros Hr Ha. revert s. induction ops as [|[d op] ops IH]; intros s; [done|].
  change (run_ops i ((d, op) :: ops) s) with (run_ops i ops (run_op d i op s).2).
  etrans; [by apply (reseller_step_isolated a i d op)|apply IH].
Qed.
End Steps.

(** ** Creating a user *)

Section Creating.
Context (decrypt : string -> option string) (token_hash : string -> string) (uuid_str : Uuid -> string)
  (sql_lower : string -> string).

Definition creator (i : Identity) (alloc : option (Uuid * list Uuid)) : option Uuid :=
  match alloc with Some (a, _) => Some a | None => admin_id i end.

(** What an accepted creation went through. *)
Definition created (d : Draws) (i : Identity) (input : NewUser.NewUser) (c : CreatedUser) (s s' : St) : Prop :=
    exists alloc euuid epw etok u db1 s1,
      reseller_allocation i input s = (Ok alloc, s1) /\ store s1 = store s /\
      encrypt d 0 (uuid_str (new_uuid d)) = Some euuid /\
      encrypt d 1 (NewUser.password input) = Some epw /\
      encrypt d 2 (uuid_str (new_token d)) = Some etok /\
      insert_user sql_lower (new_row d input euuid epw (creator i alloc))
        (mkToken (token_hash (uuid_str (new_token d))) (Some etok)) (negb (is_some alloc)) (store s)
      = (Ok (new_row d input euuid epw (creator i alloc)), db1) /\
      decrypt_user decrypt (new_row d input euuid epw (creator i alloc)) = Ok u /\
      match alloc with
      | Some (_, groups) => set_groups_statement (User.id u) groups db1 = (Ok tt, store s')
      | None => store s' = db1
      end /\
      c = mkCreated (user_view (now d) u) (new_token d) (sub_path (uuid_str (User.id u)))
            (sub_path (uuid_str (new_token d))).

Lemma insert_user_ok u t dflt db r db' : insert_user sql_lower u t dflt db = (Ok r, db') -> r = u.
Proof.
  unfold insert_user. destruct (users (tables db) !! User.id u); [done|]. cbn [is_some].
  destruct (write_user _ _ _ _ _); [|done]. by intros [= <- _].
Qed.

Lemma create_user_ok d i input c s s' :
  create_user decrypt token_hash uuid_str sql_lower d i input s = (Ok c, s') -> created d i input c s s'.
Proof.
  intros H. unfold create_user in H. apply bind_ok in H as ([] & s0 & Hv & H).
  injection Hv as Hv ->. apply bind_ok in H as (alloc & s1 & Hal & H).
  assert (Hs1 := only_ok _ _ _ _ (ro_allocation _ _) Hal).
  apply bind_ok in H as ([u tok] & s2 & Hrow & H). unfold create_user_row in Hrow.
  apply bind_ok in Hrow as (euuid & ? & E0 & Hrow). apply encrypted_ok in E0 as [E0 ->].
  apply bind_ok in Hrow as (epw & ? & E1 & Hrow). apply encrypted_ok in E1 as [E1 ->].
  apply bind_ok in Hrow as (etok & ? & E2 & Hrow). apply encrypted_ok in E2 as [E2 ->].
  apply bind_ok in Hrow as (row & s3 & Hins & Hrow). apply statement_ok in Hins as [Hins _].
  apply bind_ok in Hrow as (u' & s4 & Hd & Hret). injection Hd as Hd ->. apply lift_db_ok in Hd.
  injection Hret as -> <- ->. assert (Hr := insert_user_ok _ _ _ _ _ _ Hins). subst row. rewrite Hs1 in Hins.
  apply bind_ok in H as (x & s5 & Hgr & H). cbn [fst snd] in *.
  exists alloc, euuid, epw, etok, u, (store s2), s1. split_and!; try done.
  - assert (Hs : store s' = store s5).
    { repeat (apply bind_ok in H as (? & ? & He & H); apply only_ok in He; [|apply _]). injection H as _ <-. cbn [store] in *. congruence. }
    rewrite Hs. destruct alloc as [[a gs]|]; [|by injection Hgr as _ ->].
    apply statement_ok in Hgr as [Hgr _]. by destruct x.
  - do 4 (apply bind_ok in H as (? & ? & _ & H)). by injection H as <- _.
Qed.

Lemma write_user_ok id u t db db' :
  write_user sql_lower id u t db = Ok db' ->
  user_taken sql_lower id u (tk_hash t) db = false /\
  db' = with_tables (with_users (fun m => <[id := u]> m)) (with_tokens (fun m => <[id := t]> m) db).
Proof.
  unfold write_user. destruct (negb _); [done|]. destruct (user_taken _ _ _ _ _); [done|].
  destruct (negb _); [done|]. by intros [= <-].
Qed.

(** The unique index on token digests. *)
Definition digests_unique (db : UserDb) : Prop :=
  forall k k' t t', tokens db !! k = Some t -> tokens db !! k' = Some t' -> tk_hash t = tk_hash t' -> k = k'.

Lemma not_taken_hash id u h db k t :
  user_taken sql_lower id u h db = false -> tokens db !! k = Some t -> tk_hash t = h -> k = id.
Proof.
  intros H Hk <-. apply orb_false_iff in H as [_ H]. destruct (decide (k = id)) as [|Hne]; [done|].
  rewrite <- not_true_iff_false in H. destruct H. apply List.existsb_exists. exists (k, t).
  split; [by apply list_elem_of_In, elem_of_map_to_list|]. simpl.
  by rewrite String.eqb_refl, (proj2 (Z.eqb_neq _ _) Hne).
Qed.

Lemma user_by_hash_found h k t db :
  tokens db !! k = Some t -> tk_hash t = h ->
  (forall k' t', tokens db !! k' = Some t' -> tk_hash t' = h -> k' = k) ->
  user_by_hash h db = users (tables db) !! k.
Proof.
  intros Hk Ht Huniq. unfold user_by_hash.
  destruct (List.find _ _) as [[k' t']|] eqn:Ef; simpl.
  - apply List.find_some in Ef as [Hin He]. apply String.eqb_eq in He.
    apply list_elem_of_In, elem_of_map_to_list in Hin. by rewrite (Huniq k' t').
  - apply (List.find_none _ _) with (x := (k, t)) in Ef; [|by apply list_elem_of_In, elem_of_map_to_list].
    simpl in Ef. by rewrite Ht, String.eqb_refl in Ef.
Qed.

Lemma user_by_hash_none h db :
  (forall k t, tokens db !! k = Some t -> tk_hash t <> h) -> user_by_hash h db = None.
Proof.
  intros H. unfold user_by_hash. destruct (List.find _ _) as [[k t]|] eqn:Ef; [|done].
  apply List.find_some in Ef as [Hin He]. apply String.eqb_eq in He.
  apply list_elem_of_In, elem_of_map_to_list in Hin. by destruct (H k t).
Qed.

(** The tables after an accepted creation. *)
Lemma created_store d i input c s s' :
  created d i input c s s' ->
  exists alloc row etok u,
    User.id row = new_id d /\ User.created_by row = creator i alloc /\
    User.traffic_limit_bytes row = NewUser.traffic_limit_bytes input /\
    (exists s1, reseller_allocation i input s = (Ok alloc, s1)) /\
    encrypt d 2 (uuid_str (new_token d)) = Some etok /\
    (exists euuid epw, encrypt d 0 (uuid_str (new_uuid d)) = Some euuid /\
       encrypt d 1 (NewUser.password input) = Some epw /\ User.uuid row = euuid /\ User.password row = epw) /\
    users (tables (store s)) !! new_id d = None /\
    users (tables (store s')) = <[new_id d := row]> (users (tables (store s))) /\
    tokens (store s') = <[new_id d := mkToken (token_hash (uuid_str (new_token d))) (Some etok)]> (tokens (store s)) /\
    user_taken sql_lower (new_id d) row (token_hash (uuid_str (new_token d))) (store s) = false /\
    named (store s') = named (store s) /\
    decrypt_user decrypt row = Ok u /\ User.id u = new_id d /\
    cu_user c = user_view (now d) u /\ cu_subscription_token c = new_token d /\
    match alloc with
    | Some (_, groups) => forall g, (new_id d, g) ∈ user_group_access (tables (store s')) <-> g ∈ groups
    | None => True
    end.
Proof.
  intros (alloc & euuid & epw & etok & u & db1 & s1 & Hal & _ & E0 & E1 & E2 & Hins & Hd & Hgr & ->).
  assert (Hid := decrypt_user_id _ _ _ Hd). simpl in Hid.
  unfold insert_user in Hins. simpl in Hins.
  destruct (users (tables (store s)) !! new_id d) as [old|] eqn:Eo; [done|]. cbn [is_some] in Hins.
  destruct (write_user _ _ _ _ _) as [db2|] eqn:Ew; [|done]. injection Hins as Hdb1.
  apply write_user_ok in Ew as [Ht ->].
  exists alloc, (new_row d input euuid epw (creator i alloc)), etok, u. split_and!; try done; [by eauto|by eauto 6| | | |].
  all: destruct alloc as [[a gs]|]; cbn [is_some negb] in *; subst db1;
    [unfold set_groups_statement, set_user_groups in Hgr; destruct (negb _); [done|]; injection Hgr as <-|rewrite ?Hgr];
    try done.
  intros g. simpl. rewrite elem_of_union, elem_of_list_to_set, list_elem_of_fmap, elem_of_filter, Hid. simpl. naive_solver.
Qed.

(** *** Links *)

Section Links.
(** The digest tells two uuids apart; uuids print as text. *)
Context (digest_inj : forall x y, token_hash (uuid_str x) = token_hash (uuid_str y) -> x = y)
  (uuid_text : forall x, utf8_valid (uuid_str x) = true).

(** No link digest is that of the row id [x]. *)
Definition not_a_token (x : Uuid) (db : UserDb) : Prop :=
  forall k t, tokens db !! k = Some t -> tk_hash t <> token_hash (uuid_str x).

Lemma token_resolves k t tok u u' db :
  tokens db !! k = Some t -> tk_hash t = token_hash (uuid_str tok) ->
  (forall k' t', tokens db !! k' = Some t' -> tk_hash t' = token_hash (uuid_str tok) -> k' = k) ->
  users (tables db) !! k = Some u -> decrypt_user decrypt u = Ok u' ->
  get_user_by_subscription_token decrypt token_hash uuid_str tok db = Ok (Some u').
Proof.
  intros Hk Ht Huniq Hu Hd. unfold get_user_by_subscription_token.
  by rewrite (user_by_hash_found _ k t) by done; rewrite Hu; simpl; rewrite Hd.
Qed.

Lemma permanent_resolves k u u' db :
  not_a_token k db -> users (tables db) !! k = Some u -> decrypt_user decrypt u = Ok u' ->
  get_user_by_subscription_token decrypt token_hash uuid_str k db = Ok (Some u').
Proof.
  intros Hn Hu Hd. unfold get_user_by_subscription_token. rewrite user_by_hash_none by done. simpl.
  unfold get_user. rewrite Hu. simpl. by rewrite Hd.
Qed.

(** C28: a created user can be used as returned: the answered credentials are
    the ones given, decrypted from what was stored; the answered token and the
    permanent link both resolve to that user, and revealing the link later
    gives back the same token. *)
Theorem created_links_work d i input c s s' :
  create_user decrypt token_hash uuid_str sql_lower d i input s = (Ok c, s') ->
  (forall n, SecretStore (encrypt d n) decrypt) -> utf8_valid (NewUser.password input) = true ->
  not_a_token (new_id d) (store s) -> new_id d <> new_token d ->
  let u := uv_user (cu_user c) in
  User.id u = new_id d /\ User.uuid u = uuid_str (new_uuid d) /\ User.password u = NewUser.password input /\
  get_user_by_subscription_token decrypt token_hash uuid_str (cu_subscription_token c) (store s') = Ok (Some u) /\
  get_user_by_subscription_token decrypt token_hash uuid_str (new_id d) (store s') = Ok (Some u) /\
  reveal_subscription_token decrypt (new_id d) (store s') = Ok (Some (Some (uuid_str (cu_subscription_token c)))).
Proof.
  intros H Hse Hpw Hnt Hne. apply create_user_ok, created_store in H as
    (alloc & row & etok & u & Hrid & _ & _ & _ & E2 & (euuid & epw & E0 & E1 & Eu & Ep) & Hnone & Hus & Htk & Hfree &
     _ & Hd & Hid & Hc & Htok & _).
  rewrite Hc, Htok. cbn [uv_user user_view]. assert (Hd' := Hd). unfold decrypt_user in Hd'.
  rewrite Eu, Ep, (decrypt_encrypt _ _ (uuid_text _) E0), (decrypt_encrypt _ _ Hpw E1) in Hd'. injection Hd' as Hu.
  split; [done|]. split; [by rewrite <- Hu|]. split; [by rewrite <- Hu|]. split_and!.
  - eapply (token_resolves (new_id d)); [by rewrite Htk, lookup_insert_eq|done| |by rewrite Hus, lookup_insert_eq|done].
    intros k' t' Hk Hh. destruct (decide (k' = new_id d)) as [|Hk']; [done|].
    rewrite Htk, lookup_insert_ne in Hk by done. by eapply not_taken_hash.
  - eapply permanent_resolves; [|by rewrite Hus, lookup_insert_eq|done].
    intros k t Hk Hh. rewrite Htk in Hk. destruct (decide (k = new_id d)) as [->|Hk'].
    + rewrite lookup_insert_eq in Hk. injection Hk as <-. simpl in Hh. by apply digest_inj in Hh.
    + rewrite lookup_insert_ne in Hk by done. by apply (Hnt k t).
  - unfold reveal_subscription_token. rewrite Htk, lookup_insert_eq. simpl.
    by rewrite (decrypt_encrypt _ _ (uuid_text _) E2).
Qed.

Lemma owned_user_ok i id u s s' :
  owned_user decrypt i id s = (Ok u, s') ->
  exists row, users (tables (store s)) !! id = Some row /\ decrypt_user decrypt row = Ok u /\ s' = s /\
    (is_reseller i = true -> User.created_by row = admin_id i).
Proof.
  unfold owned_user. intros H. apply bind_ok in H as (o & s1 & Hr & H). apply read_ok in Hr as [Hr ->].
  apply bind_ok in H as (u' & s2 & Hf & H). apply found_ok in Hf as [-> ->].
  apply bind_ok in H as ([] & s3 & Hn & H). apply refuse_ok in Hn as [Hn ->]. injection H as -> ->.
  unfold get_user, decrypt_opt_user in Hr. destruct (users (tables (store s')) !! id) as [row|] eqn:Er; [|done].
  destruct (decrypt_user decrypt row) as [u'|] eqn:Ed; [|done]. injection Hr as ->. exists row. split_and!; try done.
  intros Hre. rewrite Hre in Hn. simpl in Hn. apply negb_false_iff, bool_decide_eq_true in Hn. rewrite <- Hn.
  unfold decrypt_user in Ed. destruct (decrypt (User.uuid row)), (decrypt (User.password row)); try done.
  by injection Ed as <-.
Qed.

Lemma decrypt_stamped row u t :
  decrypt_user decrypt row = Ok u -> decrypt_user decrypt (stamped t row) = Ok (stamped t u).
Proof.
  unfold decrypt_user. simpl. destruct (decrypt (User.uuid row)), (decrypt (User.password row)); try done.
  by intros [= <-].
Qed.

(** Rotating the revocable link kills the old one and only that one: the
    old token resolves to nobody, the new token and the permanent link resolve
    to the same user. *)
Theorem rotation_revokes_link d i id old t0 r s s' :
  rotate_subscription decrypt token_hash uuid_str sql_lower d i id s = (Ok r, s') ->
  digests_unique (store s) -> tokens (store s) !! id = Some t0 -> tk_hash t0 = token_hash (uuid_str old) ->
  old <> new_token d -> users (tables (store s)) !! old = None ->
  named_by_hash (token_hash (uuid_str old)) (store s) = None ->
  not_a_token id (store s) -> id <> new_token d ->
  get_user_by_subscription_token decrypt token_hash uuid_str old (store s') = Ok None /\
  exists u, get_user_by_subscription_token decrypt token_hash uuid_str r.1 (store s') = Ok (Some u) /\
    get_user_by_subscription_token decrypt token_hash uuid_str id (store s') = Ok (Some u).
Proof.
  intros H Huniq Ht Hold Hne Hnu Hnn Hperm Hid. unfold rotate_subscription in H.
  apply bind_ok in H as (u & s1 & Ho & H). apply owned_user_ok in Ho as (row & Hrow & Hd & -> & _).
  apply bind_ok in H as (o & s2 & Hr & H). unfold rotate_subscription_token in Hr.
  apply bind_ok in Hr as (enc & s3 & He & Hr). apply encrypted_ok in He as [He ->].
  apply bind_ok in Hr as (o' & s4 & Hst & Hr). apply statement_ok in Hst as [Hst _]. injection Hr as <- ->.
  unfold update_row in Hst. rewrite Hrow, Ht in Hst.
  destruct (write_user _ _ _ _ _) as [db1|] eqn:Ew; [|done]. injection Hst as <- ->.
  apply write_user_ok in Ew as [Hfree Hs2].
  apply bind_ok in H as (tok & s5 & Hf & H). apply found_ok in Hf as [[= <-] ->].
  apply bind_ok in H as ([] & s6 & Ha & H). apply only_ok in Ha; [|apply _]. injection H as <- <-.
  cbn [fst]. rewrite Ha, Hs2. set (t := mkToken _ _). split.
  - unfold get_user_by_subscription_token. rewrite user_by_hash_none.
    + simpl. unfold get_user. cbn [tables with_tables with_users users].
      rewrite lookup_insert_ne by (intros ->; by rewrite Hrow in Hnu). cbn [tables with_tokens]. rewrite Hnu.
      cbn [decrypt_opt_user]. unfold named_by_hash in *. cbn [named with_tables with_tokens]. by rewrite Hnn.
    + intros k t' Hk Hh. simpl in Hk. destruct (decide (k = id)) as [->|Hk'].
      * rewrite lookup_insert_eq in Hk. injection Hk as <-. simpl in Hh. apply digest_inj in Hh. congruence.
      * rewrite lookup_insert_ne in Hk by done. apply Hk'. apply (Huniq k id t' t0); congruence.
  - exists (stamped (now d) u). split.
    + eapply (token_resolves id); simpl; [by rewrite lookup_insert_eq|done| |by rewrite lookup_insert_eq|by apply decrypt_stamped].
      intros k' t' Hk Hh. destruct (decide (k' = id)) as [|Hk']; [done|]. rewrite lookup_insert_ne in Hk by done.
      by eapply not_taken_hash.
    + eapply permanent_resolves; simpl; [|by rewrite lookup_insert_eq|by apply decrypt_stamped].
      intros k t' Hk Hh. simpl in Hk. destruct (decide (k = id)) as [->|Hk'].
      * rewrite lookup_insert_eq in Hk. injection Hk as <-. simpl in Hh. by apply digest_inj in Hh.
      * rewrite lookup_insert_ne in Hk by done. by apply (Hperm k t').
Qed.
End Links.
End Creating.

(** ** Allocations *)

Section Allocations.
Context (decrypt : string -> option string) (token_hash : string -> string) (uuid_str : Uuid -> string)
  (sql_lower : string -> string).

Lemma allocation_ok a i input alloc s s' :
  is_reseller i = true -> admin_id i = Some a -> reseller_allocation i input s = (Ok alloc, s') ->
  alloc = Some (a, reseller_group_ids a (store s)) /\ reseller_group_ids a (store s) <> [] /\
  exists admin, accounts (store s) !! a = Some admin /\
    (0 < Admin.max_users admin -> count_users_for_creator a (store s) < Admin.max_users admin) /\
    (0 < Admin.user_traffic_ceiling_bytes admin ->
       0 < NewUser.traffic_limit_bytes input <= Admin.user_traffic_ceiling_bytes admin) /\
    (0 < Admin.traffic_limit_bytes admin -> used_total a (store s) < Admin.traffic_limit_bytes admin).
Proof.
  intros Hr Ha H. unfold reseller_allocation in H. rewrite Hr, Ha in H.
  apply bind_ok in H as (a' & s1 & Hf & H). apply found_ok in Hf as [[= <-] ->].
  apply bind_ok in H as (oa & s1 & Hq & H). apply query_ok in Hq as [-> ->].
  apply bind_ok in H as (admin & s1 & Hf & H). apply found_ok in Hf as [Hadm ->].
  apply bind_ok in H as (owned & s1 & Hq & H). apply query_ok in Hq as [-> ->].
  apply bind_ok in H as (? & s1 & H1 & H). apply refuse_ok in H1 as [H1 ->].
  apply bind_ok in H as (? & s1 & H2 & H). apply refuse_ok in H2 as [H2 ->].
  apply bind_ok in H as (? & s1 & H3 & H).
  assert (Hb : (0 < Admin.traffic_limit_bytes admin -> used_total a (store s) < Admin.traffic_limit_bytes admin) /\ s1 = s).
  { destruct (Z.ltb_spec 0 (Admin.traffic_limit_bytes admin)) as [Hlt|Hge].
    - apply bind_ok in H3 as (used & s2 & Hu & H3). apply read_ok in Hu as [Hu ->].
      apply refuse_ok in H3 as [H3 ->]. split; [|done]. unfold reseller_traffic_used in Hu.
      destruct (negb _); [done|]. injection Hu as <-. apply Z.leb_gt in H3. done.
    - injection H3 as _ ->. split; [lia|done]. }
  destruct Hb as [Hb ->].
  apply bind_ok in H as (gs & s1 & Hq & H). apply query_ok in Hq as [-> ->].
  apply bind_ok in H as (? & s1 & H4 & H). apply refuse_ok in H4 as [H4 ->]. injection H as <- <-.
  apply bool_decide_eq_false in H4. split_and!; [done..|]. exists admin. split_and!; try done.
  - intros Hp. apply andb_false_iff in H1 as [H1|H1]; breflect; lia.
  - intros Hp. apply andb_false_iff in H2 as [H2|H2]; [breflect; lia|]. apply orb_false_iff in H2 as [? ?]; breflect; lia.
Qed.

(** A user a reseller creates is within its allocation: afterwards it owns
    at most [max_users] users, the new user's limit is positive and at most the
    per-user ceiling, the budget was not yet spent, and the user holds exactly
    the groups the reseller may sell. *)
Theorem reseller_creation_within_allocation a i admin d input c s s' :
  is_reseller i = true -> admin_id i = Some a -> accounts (store s) !! a = Some admin ->
  create_user decrypt token_hash uuid_str sql_lower d i input s = (Ok c, s') ->
  (0 < Admin.max_users admin -> count_users_for_creator a (store s') <= Admin.max_users admin) /\
  (exists row, users (tables (store s')) !! new_id d = Some row /\ User.created_by row = Some a /\
     (0 < Admin.user_traffic_ceiling_bytes admin ->
        0 < User.traffic_limit_bytes row <= Admin.user_traffic_ceiling_bytes admin)) /\
  (0 < Admin.traffic_limit_bytes admin -> used_total a (store s) < Admin.traffic_limit_bytes admin) /\
  (forall g, (new_id d, g) ∈ user_group_access (tables (store s')) <-> g ∈ reseller_group_ids a (store s)).
Proof.
  intros Hr Ha Hadm H. apply create_user_ok, created_store in H as
    (alloc & row & etok & u & Hrid & Hby & Hlim & [s1 Hal] & _ & _ & Hnone & Hus & _ & _ & _ & _ & _ & _ & _ & Hg).
  destruct (allocation_ok _ _ _ _ _ _ Hr Ha Hal) as (-> & _ & admin' & Hadm' & Hmax & Hceil & Hbud).
  rewrite Hadm in Hadm'. injection Hadm' as <-. split_and!; try done.
  - intros Hp. specialize (Hmax Hp). unfold count_users_for_creator in *. rewrite Hus.
    rewrite (Permutation_length (filter_perm _ _ _ (rows_insert _ _ _ Hnone))). simpl.
    unfold owned_by at 1. rewrite Hby. simpl. rewrite bool_decide_true by done. simpl. lia.
  - exists row. rewrite Hus, lookup_insert_eq, Hlim. split_and!; [done|done|]. exact Hceil.
Qed.

(** A PATCH of the traffic limit alone. *)
Definition limit_patch (limit : Z) : UpdateUser.UpdateUser :=
  UpdateUser.mk None None Missing Missing Missing None None (Some limit) Missing None.

(** The per-user ceiling a reseller creates under is not asked again: it
    can PATCH any of its users to any non-negative traffic limit, 0 (no limit)
    included, whatever its account's ceiling. *)
Theorem reseller_patch_ignores_ceiling a i d id row t u limit s :
  is_reseller i = true -> admin_id i = Some a ->
  users (tables (store s)) !! id = Some row -> tokens (store s) !! id = Some t ->
  User.created_by row = Some a -> decrypt_user decrypt row = Ok u ->
  user_row_checks row = true -> user_taken sql_lower id row (tk_hash t) (store s) = false ->
  creator_known row (store s) = true -> 0 <= limit ->
  exists v s' row', update_user decrypt sql_lower d i id (limit_patch limit) s = (Ok v, s') /\
    users (tables (store s')) !! id = Some row' /\ User.traffic_limit_bytes row' = limit.
Proof.
  intros Hr Ha Hrow Ht Hby Hd Hck Htk Hcr Hlim.
  set (row' := updated (now d) (limit_patch limit) None row).
  assert (Hck' : user_row_checks row' = true).
  { unfold user_row_checks in *. rewrite !andb_true_iff in *. destruct Hck as [[[[[[_ ?] ?] ?] ?] ?] ?].
    split_and!; try done. by apply Z.leb_le. }
  assert (Hw : write_user sql_lower id row' t (store s)
    = Ok (with_tables (with_users (fun m => <[id := row']> m)) (with_tokens (fun m => <[id := t]> m) (store s)))).
  { unfold write_user. rewrite Hck'. change (user_taken sql_lower id row' (tk_hash t) (store s))
      with (user_taken sql_lower id row (tk_hash t) (store s)). rewrite Htk.
    change (creator_known row' (store s)) with (creator_known row (store s)). by rewrite Hcr. }
  assert (Hd' : exists u', decrypt_user decrypt row' = Ok u').
  { unfold decrypt_user in *. change (User.uuid row') with (User.uuid row).
    change (User.password row') with (User.password row).
    destruct (decrypt (User.uuid row)), (decrypt (User.password row)); try done. by eauto. }
  destruct Hd' as [u' Hd'].
  assert (Ho : owned_user decrypt i id s = (Ok u, s)).
  { unfold owned_user, mbind, M_bind, read, get_user. rewrite Hrow. simpl. rewrite Hd. simpl. unfold refuse.
    replace (User.created_by u) with (Some a); [by rewrite Ha, bool_decide_true, andb_false_r|].
    unfold decrypt_user in Hd. destruct (decrypt (User.uuid row)), (decrypt (User.password row)); try done.
    by injection Hd as <-. }
  assert (Hv : validate_update_user (limit_patch limit) = Ok tt).
  { unfold validate_update_user. simpl. by rewrite (proj2 (Z.ltb_ge _ _) Hlim). }
  eexists _, _, row'. split; [|split; [|done]].
  - unfold update_user, mbind, M_bind, lift_result. rewrite Hv, Ho. unfold query, update_user_row. cbn [UpdateUser.password limit_patch].
    unfold mbind, M_bind, mret, M_ret, update_returning, mbind, M_bind, statement, update_row. rewrite Hrow, Ht.
    fold row'. rewrite Hw. cbn [lift_db lift decrypt_opt_user]. unfold lift_result. cbn [lift_db lift decrypt_opt_user].
    rewrite Hd'. reflexivity.
  - simpl. by rewrite lookup_insert_eq.
Qed.

(** A reseller's traffic budget counts the usage its users show now: the
    reset of a user's traffic, which the reseller may run, takes that usage out
    of the sum the budget is checked against. *)
Theorem reset_refunds_budget a i t id row v s s' :
  reset_user_traffic decrypt t i id s = (Ok v, s') ->
  users (tables (store s)) !! id = Some row -> User.created_by row = Some a ->
  used_total a (store s') = used_total a (store s) - User.used_traffic_bytes row.
Proof.
  intros H Hrow Hby. unfold reset_user_traffic in H.
  apply bind_ok in H as (u & s1 & Ho & H). apply owned_user_ok in Ho as (_ & _ & _ & -> & _).
  apply bind_ok in H as (nodes & s1 & Hq & H). apply query_ok in Hq as [-> ->].
  apply bind_ok in H as (o & s1 & Hst & H). unfold reset_user_traffic_row in Hst.
  apply bind_ok in Hst as (o' & s2 & Hst & Hd). apply statement_ok in Hst as [Hst _].
  injection Hd as _ ->.
  repeat (apply bind_ok in H as (? & ? & He & H); apply only_ok in He; [|apply _]). injection H as _ <-.
  replace (store _) with (store s1) by (cbn [store] in *; congruence).
  unfold Traffic.reset_user_traffic in Hst. cbn [users with_counters] in Hst. rewrite Hrow in Hst. injection Hst as _ <-.
  unfold used_total. simpl.
  rewrite <- (insert_delete_eq (users (tables (store s))) id).
  assert (Hins := rows_insert (delete id (users (tables (store s)))) id (User.with_used 0 t row) (lookup_delete_eq _ _)).
  rewrite (sum_perm _ _ (fmap_Permutation User.used_traffic_bytes _ _ (filter_perm (owned_by a) _ _ Hins))).
  rewrite (sum_perm _ _ (fmap_Permutation User.used_traffic_bytes _ _ (filter_perm (owned_by a) _ _ (rows_delete _ _ _ Hrow)))).
  cbn [List.filter]. assert (E : forall u, User.created_by u = Some a -> owned_by a u = true)
    by (intros w Hw; by apply bool_decide_true).
  rewrite !E by done. simpl. lia.
Qed.
End Allocations.

(** ** Witnesses *)

(** A master without an encryption key, which stores secrets as they are. *)
Definition plain (p : string) : option string := Some p.
Definition draws (t id uuid token : Z) : Draws := mkDraws t id uuid token "s3cret" (fun _ => plain).

Definition reseller : Identity := mkIdentity (Some 7) "rae" "reseller" None None.
Definition rae : Admin.Admin := Admin.mk 7 "rae" "" "reseller" true false 2 1000 5000 0 None None 0 0.
Definition ann : NewUser.NewUser := NewUser.mk "ann" "pw" None None None "inherit" 800 None 0.

Definition shop_tables : Db := mkDb ∅ ∅ ∅ {[3 := mkGroup "eu" false ""]} ∅ ∅ ∅ ∅.
Definition rae_only : AuthDb := with_admins (fun _ => {[7 := rae]}) empty_auth.
Definition shop : St := mkSt (mkUserDb shop_tables ∅ ∅ {[(7, 3)]} rae_only) [].
Definition opened : result CreatedUser api_error * St :=
  create_user plain id show to_ascii_lowercase (draws 10 21 22 23) reseller ann shop.

#[local] Instance plain_store n : SecretStore (encrypt (draws 10 21 22 23) n) plain.
Proof. intros p s _ H. by injection H as <-. Qed.

(** The state after the creation, and the user in it. *)
Definition stocked : St := opened.2.

Definition answered {A} (x : result A api_error * St) : bool := is_ok x.1.

Lemma answered_ok {A} (x : result A api_error * St) : answered x = true -> exists a, x = (Ok a, x.2).
Proof. destruct x as [[a|] s]; [by eauto|done]. Qed.

Lemma opened_ok : answered opened = true.
Proof. vm_compute. reflexivity. Qed.

Lemma shop_no_token x : not_a_token id show x (store shop).
Proof. intros k t H. cbn [store shop tokens] in H. by rewrite lookup_empty in H. Qed.

Lemma created_links_work_witness :
  exists u tok, User.password u = "pw" /\
    get_user_by_subscription_token plain id show tok (store stocked) = Ok (Some u) /\
    get_user_by_subscription_token plain id show 21 (store stocked) = Ok (Some u).
Proof.
  destruct (answered_ok _ opened_ok) as [c Hc]. exists (uv_user (cu_user c)), (cu_subscription_token c).
  destruct (created_links_work plain id show to_ascii_lowercase show_inj utf8_show (draws 10 21 22 23) reseller ann
    c shop stocked Hc plain_store eq_refl (shop_no_token 21)) as (_ & _ & Hp & Ht & Hi & _); done.
Defined.

Lemma reseller_creation_within_allocation_witness :
  exists c, opened = (Ok c, stocked) /\ count_users_for_creator 7 (store stocked) <= 2.
Proof.
  destruct (answered_ok _ opened_ok) as [c Hc]. exists c. split; [exact Hc|].
  apply (reseller_creation_within_allocation plain id show to_ascii_lowercase 7 reseller rae (draws 10 21 22 23) ann c
    shop stocked eq_refl eq_refl eq_refl Hc). done.
Defined.

Definition rotated : result (Uuid * string) api_error * St :=
  rotate_subscription plain id show to_ascii_lowercase (draws 20 0 0 33) reseller 21 stocked.

Lemma stocked_tokens k t : tokens (store stocked) !! k = Some t -> k = 21 /\ t = mkToken (show 23) (Some (show 23)).
Proof.
  change (tokens (store stocked)) with ({[21 := mkToken (show 23) (Some (show 23))]} : gmap Uuid Token).
  intros H. by apply lookup_singleton_Some in H as [<- <-].
Qed.

Lemma rotation_revokes_link_witness :
  exists r, rotated.1 = Ok r /\
    get_user_by_subscription_token plain id show 23 (store rotated.2) = Ok None.
Proof.
  assert (H : answered rotated = true) by (vm_compute; reflexivity). destruct (answered_ok _ H) as [r Hr].
  exists r. split; [by rewrite Hr|].
  refine (proj1 (rotation_revokes_link plain id show to_ascii_lowercase show_inj (draws 20 0 0 33) reseller 21 23
    (mkToken (show 23) (Some (show 23))) r stocked rotated.2 Hr _ _ _ _ _ _ _ _)); try done.
  - intros k k' t t' Hk Hk' _. apply stocked_tokens in Hk as [-> _]. by apply stocked_tokens in Hk' as [-> _].
  - intros k t Hk. apply stocked_tokens in Hk as [-> ->]. done.
Defined.

Definition ann_row : User.User :=
  User.mk 21 "ann" None None None "inherit" [] (show 22) "pw" true 800 600 None 0 None "none" None (Some 7) None 10 10.
Definition used_shop : St :=
  mkSt (mkUserDb (mkDb ∅ ∅ {[21 := ann_row]} {[3 := mkGroup "eu" false ""]} ∅ ∅ ∅ ∅)
          {[21 := mkToken (show 23) None]} ∅ {[(7, 3)]} rae_only) [].

Lemma reseller_patch_ignores_ceiling_witness :
  Admin.user_traffic_ceiling_bytes rae = 1000 /\
  exists v s' row', update_user plain to_ascii_lowercase (draws 20 0 0 33) reseller 21 (limit_patch 0) used_shop = (Ok v, s') /\
    users (tables (store s')) !! 21 = Some row' /\ User.traffic_limit_bytes row' = 0.
Proof.
  split; [reflexivity|].
  apply (reseller_patch_ignores_ceiling plain to_ascii_lowercase 7 reseller (draws 20 0 0 33) 21 ann_row
    (mkToken (show 23) None) ann_row 0 used_shop); reflexivity || done.
Defined.

Definition after_reset : result UserView api_error * St := reset_user_traffic plain 30 reseller 21 used_shop.

Lemma reset_refunds_budget_witness :
  used_total 7 (store used_shop) = 600 /\ used_total 7 (store after_reset.2) = 0.
Proof.
  split; [reflexivity|].
  assert (H : answered after_reset = true) by (vm_compute; reflexivity). destruct (answered_ok _ H) as [v Hv].
  exact (reset_refunds_budget plain 7 reseller 30 21 ann_row v used_shop after_reset.2 Hv eq_refl eq_refl).
Defined.

(** Beside a user of someone else's. *)
Definition other_row : User.User :=
  User.mk 40 "bob" None None None "inherit" [] (show 41) "pw" true 0 0 None 0 None "none" None (Some 8) None 10 10.
Definition two_shops : St :=
  mkSt (with_tokens (fun m => <[40 := mkToken (show 43) None]> m)
          (with_tables (with_users (fun m => <[40 := other_row]> m)) (store used_shop))) [].
Definition forays : list (Draws * UserOp) :=
  [(draws 50 0 0 0, OpDelete 40); (draws 51 0 0 53, OpRotateLink 40); (draws 52 0 0 0, OpDelete 21)].

Lemma reseller_isolation_witness :
  let s := run_ops plain id show to_ascii_lowercase reseller forays two_shops in
  isolated 7 (store two_shops) (store s) /\
  users (tables (store s)) !! 40 = Some other_row /\ users (tables (store s)) !! 21 = None.
Proof.
  split; [|split; reflexivity].
  exact (reseller_isolation plain id show to_ascii_lowercase 7 reseller forays two_shops eq_refl eq_refl).
Defined.
