(* ===== verification/Accounts.v ===== *)
(** * Operator accounts (the session, two-factor, allowlist, admin, role and key
    handlers of src/master/src/api/mod.rs, their queries in
    src/master/src/db/repo.rs)

    The store is the one user handlers run on.  Argon2, TOTP, QR rendering,
    encryption, the token digest, the CIDR library and the database's case
    folding and collation are parameters; random draws and clock readings are
    arguments. *)

From S2P Require Import Prelude Strings Json Ip Models Db Api Handler Traffic RateLimit Auth Login Users.

#[local] Abbreviation M := (Handler.M UserDb).
#[local] Abbreviation St := (Handler.St UserDb).

(** A statement on the identity tables. *)
Definition on_auth {A} (f : AuthDb -> result A db_error * AuthDb) (db : UserDb) : result A db_error * UserDb :=
  let (r, adb) := f (identities db) in (r, with_identities (fun _ => adb) db).
(** One that cannot violate a constraint. *)
Definition plainly {A} (f : AuthDb -> A * AuthDb) (adb : AuthDb) : result A db_error * AuthDb :=
  let (a, adb') := f adb in (Ok a, adb').

(** ** Rows *)

Definition alter_admin (id : Uuid) (f : Admin.Admin -> Admin.Admin) (adb : AuthDb) : AuthDb :=
  with_admins (alter f id) adb.

Definition with_totp_flag (b : bool) (t : Z) (a : Admin.Admin) : Admin.Admin :=
  Admin.mk (Admin.id a) (Admin.username a) (Admin.password_hash a) (Admin.role a) (Admin.enabled a) b
    (Admin.max_users a) (Admin.user_traffic_ceiling_bytes a) (Admin.traffic_limit_bytes a)
    (Admin.commission_percent a) (Admin.custom_role_id a) (Admin.last_login_at a) (Admin.created_at a) t.

Definition with_custom_role (r : option Uuid) (t : Z) (a : Admin.Admin) : Admin.Admin :=
  Admin.mk (Admin.id a) (Admin.username a) (Admin.password_hash a) (Admin.role a) (Admin.enabled a)
    (Admin.totp_enabled a) (Admin.max_users a) (Admin.user_traffic_ceiling_bytes a)
    (Admin.traffic_limit_bytes a) (Admin.commission_percent a) r (Admin.last_login_at a)
    (Admin.created_at a) t.

(** ** Queries *)

(** *** Two-factor *)

Definition set_admin_totp_secret (t : Z) (id : Uuid) (encrypted : string) (adb : AuthDb) : bool * AuthDb :=
  if is_some (admins adb !! id)
  then (true, with_totp (insert id encrypted) (alter_admin id (with_totp_flag false t) adb))
  else (false, adb).

Definition set_admin_totp_enabled (t : Z) (id : Uuid) (enabled : bool) (adb : AuthDb) : bool * AuthDb :=
  (is_some (admins adb !! id), alter_admin id (with_totp_flag enabled t) adb).

Definition clear_admin_totp (t : Z) (id : Uuid) (adb : AuthDb) : bool * AuthDb :=
  if is_some (admins adb !! id)
  then (true, with_totp (delete id) (alter_admin id (with_totp_flag false t) adb))
  else (false, adb).

(** The replacement is one transaction: a digest that is taken undoes it. *)
Definition replace_recovery_codes (admin : Uuid) (hashes : list string) (adb : AuthDb) : result unit db_error * AuthDb :=
  let others := List.filter (fun c => negb (rc_admin_id c =? admin)) (recovery_codes adb) in
  if bool_decide (NoDup hashes) && forallb (fun h => negb (existsb (fun c => String.eqb (rc_hash c) h) others)) hashes
  then (Ok tt, replace_admin_recovery_codes admin hashes adb)
  else (Err UniqueViolation, adb).

(** *** Sessions *)

Definition live (t : Z) (s : AdminSession) : bool := t <? ss_expires_at s.

(** A session joined with the name of its account. *)
Definition session_row (adb : AuthDb) (s : AdminSession) : option (AdminSession * string) :=
  (fun a => (s, Admin.username a)) <$> admins adb !! ss_admin_id s.

Definition list_admin_sessions (t : Z) (admin : Uuid) (adb : AuthDb) : list (AdminSession * string) :=
  omap (session_row adb)
    (sort_by (fun a b => ss_last_seen_at b <=? ss_last_seen_at a)
       (List.filter (fun s => (ss_admin_id s =? admin) && live t s) (admin_sessions adb))).

Definition get_admin_session (t : Z) (id : Uuid) (adb : AuthDb) : option (AdminSession * string) :=
  let! s := List.find (fun s => (ss_id s =? id) && live t s) (admin_sessions adb) in session_row adb s.

Definition admin_session_id_for_hash (t : Z) (hash : string) (adb : AuthDb) : option Uuid :=
  ss_id <$> List.find (fun s => String.eqb (ss_token_hash s) hash && live t s) (admin_sessions adb).

Definition delete_admin_session_by_id (id : Uuid) (adb : AuthDb) : bool * AuthDb :=
  (existsb (fun s => ss_id s =? id) (admin_sessions adb),
   with_sessions (List.filter (fun s => negb (ss_id s =? id))) adb).

Definition list_admin_login_events (admin : option Uuid) (limit : Z) (events : list LoginEvent) : list LoginEvent :=
  firstn (Z.to_nat limit)
    (sort_by (fun a b => ev_created_at b <=? ev_created_at a)
       (List.filter (fun e => match admin with Some a => bool_decide (ev_admin_id e = Some a) | None => true end) events)).

(** *** The allowlist *)

Definition list_admin_ips (adb : AuthDb) : list AdminIp :=
  sort_by (fun a b => ip_created_at a <=? ip_created_at b) (admin_ip_allowlist adb).

Definition add_admin_ip (entry : AdminIp) (adb : AuthDb) : result AdminIp db_error * AuthDb :=
  if existsb (fun e => (ip_id e =? ip_id entry) || String.eqb (ip_cidr e) (ip_cidr entry)) (admin_ip_allowlist adb)
  then (Err UniqueViolation, adb)
  else (Ok entry, with_ips (fun l => l ++ [entry]) adb).

Definition delete_admin_ip (id : Uuid) (adb : AuthDb) : bool * AuthDb :=
  (existsb (fun e => ip_id e =? id) (admin_ip_allowlist adb),
   with_ips (List.filter (fun e => negb (ip_id e =? id))) adb).

(** *** API keys *)

(** [ORDER BY revoked_at IS NOT NULL, created_at DESC]. *)
Definition list_api_keys (adb : AuthDb) : list ApiKey :=
  sort_by (fun a b => if Bool.eqb (is_some (k_revoked_at a)) (is_some (k_revoked_at b))
                      then k_created_at b <=? k_created_at a
                      else negb (is_some (k_revoked_at a))) (api_keys adb).

(** *** Custom roles *)

Definition role_name_taken (id : Uuid) (name : string) (adb : AuthDb) : bool :=
  existsb (fun r => negb (cr_id r =? id) && String.eqb (cr_name r) name) (rows (custom_roles adb)).

Definition create_custom_role_row (t : Z) (id : Uuid) (name : string) (permissions : json) (adb : AuthDb)
    : result CustomRole db_error * AuthDb :=
  let r := mkRole id (trim name) permissions t t in
  if is_some (custom_roles adb !! id) || role_name_taken id (trim name) adb then (Err UniqueViolation, adb)
  else (Ok r, with_roles (insert id r) adb).

Definition update_custom_role_row (t : Z) (id : Uuid) (name : option string) (permissions : option json) (adb : AuthDb)
    : result (option CustomRole) db_error * AuthDb :=
  match custom_roles adb !! id with
  | None => (Ok None, adb)
  | Some r =>
      let r' := mkRole (cr_id r) (coalesce (trim <$> name) (cr_name r)) (coalesce permissions (cr_permissions r))
                  (cr_created_at r) t in
      if role_name_taken id (cr_name r') adb then (Err UniqueViolation, adb)
      else (Ok (Some r'), with_roles (insert id r') adb)
  end.

(** Holders fall back to no custom role. *)
Definition delete_custom_role_row (t : Z) (id : Uuid) (adb : AuthDb) : bool * AuthDb :=
  if is_some (custom_roles adb !! id) then
    (true, with_roles (delete id)
             (with_admins (fmap (fun a => if bool_decide (Admin.custom_role_id a = Some id)
                                          then with_custom_role None t a else a)) adb))
  else (false, adb).

Definition set_admin_custom_role (t : Z) (admin : Uuid) (role_id : option Uuid) (adb : AuthDb)
    : result bool db_error * AuthDb :=
  match admins adb !! admin with
  | None => (Ok false, adb)
  | Some _ =>
      if match role_id with Some r => is_some (custom_roles adb !! r) | None => true end
      then (Ok true, alter_admin admin (with_custom_role role_id t) adb)
      else (Err ForeignKeyViolation, adb)
  end.

(** *** Admins *)

Record AdminPatch := mkAdminPatch {
  ap_role : option string;
  ap_enabled : option bool;
  ap_password_hash : option string;
  ap_max_users : option Z;
  ap_user_traffic_ceiling_bytes : option Z;
  ap_traffic_limit_bytes : option Z;
  ap_commission_percent : option Z }.

Definition admin_updated (t : Z) (p : AdminPatch) (a : Admin.Admin) : Admin.Admin :=
  Admin.mk (Admin.id a) (Admin.username a) (coalesce (ap_password_hash p) (Admin.password_hash a))
    (coalesce (ap_role p) (Admin.role a)) (coalesce (ap_enabled p) (Admin.enabled a)) (Admin.totp_enabled a)
    (coalesce (ap_max_users p) (Admin.max_users a))
    (coalesce (ap_user_traffic_ceiling_bytes p) (Admin.user_traffic_ceiling_bytes a))
    (coalesce (ap_traffic_limit_bytes p) (Admin.traffic_limit_bytes a))
    (coalesce (ap_commission_percent p) (Admin.commission_percent a)) (Admin.custom_role_id a)
    (Admin.last_login_at a) (Admin.created_at a) t.

Definition update_admin_row (t : Z) (id : Uuid) (p : AdminPatch) (adb : AuthDb)
    : result (option Admin.Admin) db_error * AuthDb :=
  match admins adb !! id with
  | None => (Ok None, adb)
  | Some a =>
      let a' := admin_updated t p a in
      if valid_role (Admin.role a') then (Ok (Some a'), with_admins (insert id a') adb)
      else (Err CheckViolation, adb)
  end.

Section Accounts.
Context (encrypt decrypt : string -> option string) (token_hash : string -> string).
Context (verify_totp : string -> string -> bool) (totp_url : string -> string -> option string)
  (qr_svg : string -> option string) (argon2 : string -> option string).
Context (Net : Type) (parse_net : string -> option Net) (net_text : Net -> string).
Context (sql_lower : string -> string) (collate : string -> string -> bool).
Context (uuid_str : Uuid -> string) (timestamp : Z -> string).

(** The table's constraints: a name of 2 to 96 characters, unique up to case. *)
Definition create_admin_row (t : Z) (id : Uuid) (username password_hash role : string)
    (max_users user_traffic_ceiling_bytes traffic_limit_bytes commission_percent : Z) (adb : AuthDb)
    : result Admin.Admin db_error * AuthDb :=
  let name := trim username in
  let a := Admin.mk id name password_hash role true false max_users user_traffic_ceiling_bytes
             traffic_limit_bytes commission_percent None None t t in
  match (bail CheckViolation
           when negb ((2 <=? char_count name) && (char_count name <=? 96) && valid_role role) in
         bail UniqueViolation
           when is_some (admins adb !! id)
                || existsb (fun b => String.eqb (sql_lower (Admin.username b)) (sql_lower name)) (rows (admins adb)) in
         Ok a) with
  | Ok a => (Ok a, with_admins (insert id a) adb)
  | Err e => (Err e, adb)
  end.

Definition list_admins (adb : AuthDb) : list Admin.Admin :=
  sort_by (fun a b => collate (sql_lower (Admin.username a)) (sql_lower (Admin.username b))) (rows (admins adb)).

Definition list_custom_roles (adb : AuthDb) : list CustomRole :=
  sort_by (fun a b => collate (cr_name a) (cr_name b)) (rows (custom_roles adb)).

(** ** Two-factor handlers *)

Definition session_required : api_error := Unauthorized "session required".

Definition totp_status (i : Identity) : M bool :=
  admin ← found (admin_id i) session_required;
  query (fun db => map_or (accounts db !! admin) false Admin.totp_enabled).

Definition totp_setup (t : Z) (secret : string) (i : Identity) : M (string * string * string) :=
  admin ← found (admin_id i) session_required;
  encrypted ← found (encrypt secret) (Internal "encrypt failed");
  _ ← statement (on_auth (plainly (set_admin_totp_secret t admin encrypted)));
  url ← found (totp_url secret (id_username i)) (Internal "totp url");
  qr ← found (qr_svg url) (Internal "qr render");
  mret (secret, url, qr).

(** The stored secret, when it can be read. *)
Definition totp_secret (admin : Uuid) (db : UserDb) : option string :=
  let! enc := totp_secrets (identities db) !! admin in decrypt enc.

Definition totp_enable (t : Z) (i : Identity) (code : string) : M unit :=
  admin ← found (admin_id i) session_required;
  o ← query (totp_secret admin);
  secret ← found o (BadRequest "run two-factor setup first");
  _ ← refuse (negb (verify_totp secret (trim code))) (BadRequest "invalid code");
  _ ← statement (on_auth (plainly (set_admin_totp_enabled t admin true)));
  audit "enable" "totp" admin empty_object.

Definition totp_disable (t : Z) (i : Identity) (code : string) : M unit :=
  admin ← found (admin_id i) session_required;
  o ← query (totp_secret admin);
  _ ← refuse (match o with Some secret => negb (verify_totp secret (trim code)) | None => false end)
        (BadRequest "invalid code");
  _ ← statement (on_auth (plainly (clear_admin_totp t admin)));
  audit "disable" "totp" admin empty_object.

Definition session_account (i : Identity) : M Uuid :=
  found (admin_id i) (Forbidden "admin sessions require a panel session").

Definition totp_recovery_status (i : Identity) : M (bool * Z) :=
  admin ← session_account i;
  enabled ← query (fun db => map_or (accounts db !! admin) false Admin.totp_enabled);
  remaining ← query (fun db => count_unused_admin_recovery_codes admin (identities db));
  mret (enabled, remaining).

(** Ten random bytes, upper-case hexadecimal. *)
Definition generate_recovery_code (bytes : option (list Z)) : option string :=
  (fun bs => to_ascii_uppercase (hex bs)) <$> bytes.

Definition totp_recovery_generate (rng : nat -> option (list Z)) (i : Identity) (code : string)
    : M (list string * Z) :=
  admin ← session_account i;
  oa ← query (fun db => accounts db !! admin);
  a ← found oa session_required;
  _ ← refuse (negb (Admin.totp_enabled a)) (BadRequest "enable two-factor before generating recovery codes");
  o ← query (totp_secret admin);
  secret ← found o (BadRequest "two-factor secret is unavailable");
  _ ← refuse (negb (verify_totp secret (trim code))) (BadRequest "invalid code");
  codes ← found (mapM (fun k => generate_recovery_code (rng k)) (seq 0 10)) (Internal "rng failed");
  let hashes := token_hash <$> codes in
  _ ← statement (on_auth (replace_recovery_codes admin hashes));
  let count := Z.of_nat (length hashes) in
  _ ← audit "generate" "totp_recovery" admin (obj [("count", jint count)]);
  mret (codes, count).

(** ** Allowlist handlers *)

Definition normalize_cidr (raw : string) : option string :=
  match parse_net raw with
  | Some net => Some (net_text net)
  | None =>
      match parse_ip raw with
      | Some (V4 _ as ip) => Some (ip_text ip +:+ "/32")
      | Some (V6 _ as ip) => Some (ip_text ip +:+ "/128")
      | None => None
      end
  end.

Definition list_admin_ips_h : M (list AdminIp) := query (fun db => list_admin_ips (identities db)).

Definition add_admin_ip_h (t : Z) (id : Uuid) (cidr note : string) : M AdminIp :=
  cidr ← found (normalize_cidr (trim cidr)) (BadRequest "cidr must be an IP or CIDR");
  entry ← statement (on_auth (add_admin_ip (mkAdminIp id cidr (trim note) t)));
  _ ← audit "create" "admin_ip" (ip_id entry) (obj [("cidr", JString cidr)]);
  mret entry.

Definition delete_admin_ip_h (id : Uuid) : M unit :=
  gone ← statement (on_auth (plainly (delete_admin_ip id)));
  _ ← refuse (negb gone) (NotFound "entry not found");
  audit "delete" "admin_ip" id empty_object.

Definition set_quota_interval (t : Z) (id : Uuid) (interval : string) : M unit :=
  let interval := trim interval in
  _ ← refuse (negb (one_of ["none"; "daily"; "weekly"] interval)) (BadRequest "interval must be none, daily or weekly");
  let reset_at := if String.eqb interval "none" then None else Some (next_boundary t interval) in
  hit ← statement (fun db => let (b, tb) := set_user_quota_interval t id interval reset_at (tables db) in
                             (Ok b, with_tables (fun _ => tb) db));
  _ ← refuse (negb hit) user_missing;
  audit "set_quota_interval" "user" id (obj [("interval", JString interval)]).

(** ** Session handlers *)

Definition clear_cookie : string := "honey_session=; Path=/; HttpOnly; SameSite=Strict; Max-Age=0".

(** The answer's Set-Cookie. *)
Definition logout (i : Identity) : M string :=
  _ ← (match session_hash i with
       | Some hash => statement (on_auth (plainly (fun adb => (tt, delete_admin_session hash adb))))
       | None => mret tt
       end);
  _ ← emit (AuditEvent "logout" "session" None empty_object);
  mret clear_cookie.

Definition may_manage_account (i : Identity) (own target : Uuid) : bool :=
  (target =? own) || (negb (is_reseller i) && permits i "admin").

Definition current_session (t : Z) (i : Identity) (db : UserDb) : option Uuid :=
  let! hash := session_hash i in admin_session_id_for_hash t hash (identities db).

(** Each session with whether it is the caller's. *)
Definition list_sessions (t : Z) (i : Identity) (target : option Uuid) : M (list (AdminSession * string * bool)) :=
  own ← session_account i;
  let target := default own target in
  _ ← refuse (negb (may_manage_account i own target)) (Forbidden "admin session is outside your scope");
  oa ← query (fun db => accounts db !! target);
  _ ← refuse (negb (is_some oa)) (NotFound "admin not found");
  current ← query (current_session t i);
  sessions ← query (fun db => list_admin_sessions t target (identities db));
  mret ((fun s => (s, bool_decide (current = Some (ss_id s.1)))) <$> sessions).

Definition revoke_session (t : Z) (i : Identity) (id : Uuid) : M (option string) :=
  own ← session_account i;
  o ← query (fun db => get_admin_session t id (identities db));
  session ← found o (NotFound "admin session not found");
  let target := ss_admin_id session.1 in
  _ ← refuse (negb (may_manage_account i own target)) (Forbidden "admin session is outside your scope");
  current_id ← query (current_session t i);
  let current := bool_decide (current_id = Some id) in
  gone ← statement (on_auth (plainly (delete_admin_session_by_id id)));
  _ ← refuse (negb gone) (NotFound "admin session not found");
  _ ← audit "revoke" "admin_session" id (obj [("target_admin_id", JString (uuid_str target)); ("current", JBool current)]);
  mret (if current then Some clear_cookie else None).

Definition revoke_other_sessions (t : Z) (i : Identity) : M Z :=
  admin ← session_account i;
  hash ← found (session_hash i) (Forbidden "current panel session is required");
  revoked ← statement (on_auth (plainly (fun adb =>
    let adb' := delete_other_admin_sessions t admin hash adb in
    (Z.of_nat (length (admin_sessions adb)) - Z.of_nat (length (admin_sessions adb')), adb'))));
  _ ← emit (AuditEvent "revoke_others" "admin_session" None (obj [("revoked", jint revoked)]));
  mret revoked.

(** Over the events the login handler recorded. *)
Definition list_login_history (events : list LoginEvent) (i : Identity) (all : bool) (admin : option Uuid)
    (limit : option Z) : M (list LoginEvent) :=
  own ← session_account i;
  target ← (if all then
              _ ← refuse (is_reseller i || negb (permits i "admin")) (Forbidden "all login history requires admin role");
              mret None
            else
              let target := default own admin in
              _ ← refuse (negb (may_manage_account i own target)) (Forbidden "login history is outside your scope");
              oa ← query (fun db => accounts db !! target);
              _ ← refuse (negb (is_some oa)) (NotFound "admin not found");
              mret (Some target));
  mret (list_admin_login_events target (clamp 1 200 (default 100 limit)) events).

Definition session_cookie (token : string) (hs : headers) : string :=
  let host := default "" (header "host" hs) in
  let forwarded_https := is_some_and (header "x-forwarded-proto" hs) (fun v => eq_ignore_ascii_case v "https") in
  let local := starts_with "127.0.0.1" host || starts_with "localhost" host || starts_with "[::1]" host in
  "honey_session=" +:+ token +:+ "; Path=/; HttpOnly; SameSite=Strict; Max-Age=43200"
    +:+ (if forwarded_https || negb local then "; Secure" else "").

(** ** Admin handlers *)

(** [hash_password]: the salt is drawn inside. *)
Definition hash_password (password : string) : result string api_error :=
  if len password <? 10
  then Err (Internal "password hashing failed: password must contain at least 10 characters")
  else match argon2 password with Some h => Ok h | None => Err (Internal "password hashing failed") end.

Record CreateAdminInput := mkCreateAdmin {
  ca_username : string;
  ca_password : string;
  ca_role : string;
  ca_max_users : Z;
  ca_user_traffic_ceiling_bytes : Z;
  ca_traffic_limit_bytes : Z;
  ca_commission_percent : Z;
  ca_group_ids : list Uuid }.

Definition create_admin (t : Z) (id : Uuid) (input : CreateAdminInput) : M Admin.Admin :=
  _ ← refuse (negb (valid_role (ca_role input))) (BadRequest "invalid role");
  password_hash ← lift_result (hash_password (ca_password input));
  admin ← statement (on_auth (create_admin_row t id (ca_username input) password_hash (ca_role input)
            (Z.max 0 (ca_max_users input)) (Z.max 0 (ca_user_traffic_ceiling_bytes input))
            (Z.max 0 (ca_traffic_limit_bytes input)) (clamp 0 100 (ca_commission_percent input))));
  _ ← (if String.eqb (ca_role input) "reseller"
       then statement (set_reseller_groups (Admin.id admin) (ca_group_ids input)) else mret tt);
  _ ← audit "create" "admin" (Admin.id admin) (obj [("role", JString (Admin.role admin))]);
  mret admin.

Record UpdateAdminInput := mkUpdateAdmin {
  ua_role : option string;
  ua_enabled : option bool;
  ua_password : option string;
  ua_max_users : option Z;
  ua_user_traffic_ceiling_bytes : option Z;
  ua_traffic_limit_bytes : option Z;
  ua_commission_percent : option Z;
  ua_group_ids : option (list Uuid);
  ua_custom_role_id : Patch Uuid }.

(** An owner acting on its own account. *)
Definition demotes_self (i : Identity) (id : Uuid) (input : UpdateAdminInput) : bool :=
  bool_decide (admin_id i = Some id)
  && (bool_decide (ua_enabled input = Some false)
      || is_some_and (ua_role input) (fun role => negb (String.eqb role "owner"))).

Definition admin_patch (input : UpdateAdminInput) (password_hash : option string) : AdminPatch :=
  mkAdminPatch (ua_role input) (ua_enabled input) password_hash (Z.max 0 <$> ua_max_users input)
    (Z.max 0 <$> ua_user_traffic_ceiling_bytes input) (Z.max 0 <$> ua_traffic_limit_bytes input)
    (clamp 0 100 <$> ua_commission_percent input).

Definition hashed (password : option string) : result (option string) api_error :=
  match password with Some p => let? h := hash_password p in Ok (Some h) | None => Ok None end.

Definition update_admin (t : Z) (i : Identity) (id : Uuid) (input : UpdateAdminInput) : M Admin.Admin :=
  _ ← refuse (is_some_and (ua_role input) (fun role => negb (valid_role role))) (BadRequest "invalid role");
  _ ← refuse (demotes_self i id input) (BadRequest "you cannot disable or demote your own owner account");
  password_hash ← lift_result (hashed (ua_password input));
  o ← statement (on_auth (update_admin_row t id (admin_patch input password_hash)));
  admin ← found o (NotFound "admin not found");
  _ ← (match ua_group_ids input with Some groups => statement (set_reseller_groups id groups) | None => mret tt end);
  _ ← (match ua_custom_role_id input with
       | Value r => done_with (statement (on_auth (set_admin_custom_role t id (Some r))))
       | Null => done_with (statement (on_auth (set_admin_custom_role t id None)))
       | Missing => mret tt
       end);
  _ ← (if bool_decide (ua_enabled input = Some false) || is_some password_hash
       then statement (on_auth (plainly (fun adb => (tt, delete_admin_sessions id adb)))) else mret tt);
  _ ← audit "update" "admin" id
        (obj [("role", jopt_str (ua_role input));
              ("enabled", match ua_enabled input with Some b => JBool b | None => JNull end);
              ("password_changed", JBool (is_some password_hash))]);
  mret admin.

(** ** Role handlers *)

Definition role_domains : list string :=
  ["nodes"; "inbounds"; "users"; "groups"; "routing"; "domains"; "config"; "notifications"; "audit"; "admin"].

Definition valid_permissions (perms : json) : bool :=
  match perms with
  | JObject fields =>
      forallb (fun kv => one_of role_domains kv.1
                         && is_some_and (as_i64 kv.2) (fun n => (0 <=? n) && (n <=? 2))) fields
  | _ => false
  end.

Definition bad_permissions : api_error := BadRequest "permissions must map known domains to 0/1/2".

Definition create_custom_role (t : Z) (id : Uuid) (name : string) (permissions : json) : M CustomRole :=
  _ ← refuse (is_empty (trim name) || (64 <? len name)) (BadRequest "name is required (max 64 chars)");
  _ ← refuse (negb (valid_permissions permissions)) bad_permissions;
  role ← statement (on_auth (create_custom_role_row t id name permissions));
  _ ← audit "create" "custom_role" (cr_id role) (obj [("name", JString (cr_name role))]);
  mret role.

Definition update_custom_role (t : Z) (id : Uuid) (name : option string) (permissions : option json) : M CustomRole :=
  _ ← refuse (is_some_and permissions (fun p => negb (valid_permissions p))) bad_permissions;
  o ← statement (on_auth (update_custom_role_row t id name permissions));
  role ← found o (NotFound "custom role not found");
  _ ← audit "update" "custom_role" id empty_object;
  mret role.

Definition delete_custom_role (t : Z) (id : Uuid) : M unit :=
  gone ← statement (on_auth (plainly (delete_custom_role_row t id)));
  _ ← refuse (negb gone) (NotFound "custom role not found");
  audit "delete" "custom_role" id empty_object.

(** ** Key handlers *)

Definition api_key_status (t : Z) (k : ApiKey) : string :=
  if is_some (k_revoked_at k) then "revoked"
  else if is_some_and (k_expires_at k) (fun e => e <=? t) then "expired" else "active".

Definition list_api_keys_handler (t : Z) : M (list (ApiKey * string)) :=
  query (fun db => (fun k => (k, api_key_status t k)) <$> list_api_keys (identities db)).

Definition validate_api_key_input (i : Identity) (name role : string) (expires_days t : Z)
    : result (string * string * option Z) api_error :=
  let name := trim name in
  bail (BadRequest "name must be 1-64 printable characters")
    when is_empty name || (64 <? char_count name) || existsb is_control (chars name) in
  let role := trim role in
  bail (BadRequest "scope must be owner/admin/operator/viewer")
    when negb (one_of ["owner"; "admin"; "operator"; "viewer"] role) in
  bail (Forbidden "cannot mint a key above your own role") when is_reseller i || negb (permits i role) in
  bail (BadRequest "expires_days must be between 0 and 3650")
    when negb ((0 <=? expires_days) && (expires_days <=? 3650)) in
  Ok (name, role, if 0 <? expires_days then Some (t + days expires_days) else None).

Definition create_api_key_handler (t : Z) (id : Uuid) (random_token : option string) (i : Identity)
    (name role : string) (expires_days : Z) : M (ApiKey * string * string) :=
  v ← lift_result (validate_api_key_input i name role expires_days t);
  let '(name, role, expires_at) := v in
  secret ← found random_token (Internal "rng failed");
  kt ← statement (on_auth (create_api_key token_hash t id secret name role (admin_id i) expires_at));
  let '(key, token) := kt in
  _ ← audit "create" "api_key" (k_id key)
        (obj [("name", JString (k_name key)); ("role", JString (k_role key));
              ("expires_at", jopt_str (timestamp <$> k_expires_at key))]);
  mret (key, api_key_status t key, token).

Definition revoke_api_key_handler (t : Z) (id : Uuid) : M unit :=
  o ← statement (on_auth (plainly (revoke_api_key t id)));
  key ← found o (NotFound "api key not found or already revoked");
  audit "revoke" "api_key" id (obj [("name", JString (k_name key)); ("role", JString (k_role key))]).
End Accounts.

(** ** Operations as steps *)

Inductive AccountOp :=
| TotpSetup (secret : string)
| TotpEnable (code : string)
| TotpDisable (code : string)
| RecoveryGenerate (rng : nat -> option (list Z)) (code : string)
| AddIp (id : Uuid) (cidr note : string)
| DeleteIp (id : Uuid)
| QuotaInterval (id : Uuid) (interval : string)
| Logout
| RevokeSession (id : Uuid)
| RevokeOthers
| CreateAdmin (id : Uuid) (input : CreateAdminInput)
| UpdateAdmin (id : Uuid) (input : UpdateAdminInput)
| CreateRole (id : Uuid) (name : string) (permissions : json)
| UpdateRole (id : Uuid) (name : option string) (permissions : option json)
| DeleteRole (id : Uuid)
| CreateKey (id : Uuid) (random_token : option string) (name role : string) (expires_days : Z)
| RevokeKey (id : Uuid).

Section Steps.
Context (encrypt decrypt : string -> option string) (token_hash : string -> string).
Context (verify_totp : string -> string -> bool) (totp_url : string -> string -> option string)
  (qr_svg : string -> option string) (argon2 : string -> option string).
Context (Net : Type) (parse_net : string -> option Net) (net_text : Net -> string)
  (net_contains : Net -> IpAddr -> bool).
Context (sql_lower : string -> string) (uuid_str : Uuid -> string) (timestamp : Z -> string).
Context (api_token : option string).

Definition run_account_op (t : Z) (i : Identity) (op : AccountOp) : M unit :=
  match op with
  | TotpSetup secret => done_with (totp_setup encrypt totp_url qr_svg t secret i)
  | TotpEnable code => totp_enable decrypt verify_totp t i code
  | TotpDisable code => totp_disable decrypt verify_totp t i code
  | RecoveryGenerate rng code => done_with (totp_recovery_generate decrypt token_hash verify_totp rng i code)
  | AddIp id cidr note => done_with (add_admin_ip_h Net parse_net net_text t id cidr note)
  | DeleteIp id => delete_admin_ip_h id
  | QuotaInterval id interval => set_quota_interval t id interval
  | Logout => done_with (logout i)
  | RevokeSession id => done_with (revoke_session uuid_str t i id)
  | RevokeOthers => done_with (revoke_other_sessions t i)
  | CreateAdmin id input => done_with (create_admin argon2 sql_lower t id input)
  | UpdateAdmin id input => done_with (update_admin argon2 t i id input)
  | CreateRole id name perms => done_with (create_custom_role t id name perms)
  | UpdateRole id name perms => done_with (update_custom_role t id name perms)
  | DeleteRole id => delete_custom_role t id
  | CreateKey id rnd name role days => done_with (create_api_key_handler token_hash timestamp t id rnd i name role days)
  | RevokeKey id => revoke_api_key_handler t id
  end.

(** The route an operation is mounted on. *)
Definition op_route (op : AccountOp) : Method * string :=
  match op with
  | TotpSetup _ => (POST, "/auth/totp/setup")
  | TotpEnable _ => (POST, "/auth/totp/enable")
  | TotpDisable _ => (POST, "/auth/totp/disable")
  | RecoveryGenerate _ _ => (POST, "/auth/totp/recovery/generate")
  | AddIp _ _ _ => (POST, "/admin-ips")
  | DeleteIp id => (DELETE, "/admin-ips/" +:+ uuid_str id)
  | QuotaInterval id _ => (PUT, "/users/" +:+ uuid_str id +:+ "/quota-interval")
  | Logout => (POST, "/auth/logout")
  | RevokeSession id => (DELETE, "/auth/sessions/" +:+ uuid_str id)
  | RevokeOthers => (POST, "/auth/sessions/revoke-others")
  | CreateAdmin _ _ => (POST, "/admins")
  | UpdateAdmin id _ => (PATCH, "/admins/" +:+ uuid_str id)
  | CreateRole _ _ _ => (POST, "/custom-roles")
  | UpdateRole id _ _ => (PATCH, "/custom-roles/" +:+ uuid_str id)
  | DeleteRole id => (DELETE, "/custom-roles/" +:+ uuid_str id)
  | CreateKey _ _ _ _ _ => (POST, "/api-keys")
  | RevokeKey id => (DELETE, "/api-keys/" +:+ uuid_str id)
  end.

(** A request the middleware passes, and the handler it reaches. *)
Inductive served_request (r : AuthRequest) (i : Identity) (db db' : UserDb) : Prop :=
| served f now t adb op :
    require_auth token_hash Net parse_net net_contains api_token f now r (identities db) = (Passed i, adb) ->
    (req_method r, req_path r) = op_route op ->
    db' = store (run_account_op t i op (mkSt (with_identities (fun _ => adb) db) [])).2 ->
    served_request r i db db'.

(** *** Owners *)

Definition owner (a : Uuid) (db : UserDb) : Prop :=
  exists r, accounts db !! a = Some r /\ Admin.enabled r = true /\ Admin.role r = "owner".

(** Each account under its own id. *)
Definition accounts_keyed (db : UserDb) : Prop := map_Forall (fun k a => Admin.id a = k) (accounts db).

(** Accounts stay, with the rank and the standing they have. *)
Definition ranks_kept (db db' : UserDb) : Prop :=
  (accounts_keyed db -> accounts_keyed db') /\
  forall a r, accounts db !! a = Some r -> exists r', accounts db' !! a = Some r' /\
    Admin.role r' = Admin.role r /\ Admin.enabled r' = Admin.enabled r.

#[local] Instance ranks_kept_preorder : PreOrder ranks_kept.
Proof.
  split; [intros db; split; [done|eauto]|]. intros x y z [Hk Hr] [Hk' Hr']. split; [auto|].
  intros a r Ha. destruct (Hr a r Ha) as (r1 & Ha1 & H1 & H2), (Hr' a r1 Ha1) as (r2 & Ha2 & H3 & H4).
  exists r2. split_and!; congruence.
Qed.

Lemma ranks_kept_owner a db db' : ranks_kept db db' -> owner a db -> owner a db'.
Proof. intros [_ Hr] (r & Ha & He & Ho). destruct (Hr a r Ha) as (r' & Ha' & Hro & Hen). exists r'. split_and!; congruence. Qed.

(** Writing each account back with what a request may change of it. *)
Definition same_rank (f : Admin.Admin -> Admin.Admin) : Prop :=
  forall a, Admin.id (f a) = Admin.id a /\ Admin.role (f a) = Admin.role a /\ Admin.enabled (f a) = Admin.enabled a.

Lemma same_accounts db db' : accounts db' = accounts db -> ranks_kept db db'.
Proof. intros H. unfold ranks_kept, accounts_keyed. rewrite H. split; [done|eauto]. Qed.

Lemma alter_kept id f db : same_rank f -> ranks_kept db (with_identities (alter_admin id f) db).
Proof.
  intros Hf. split.
  - intros Hk k a. unfold accounts. simpl. intros [(-> & x & Hx & ->)|[_ Ha]]%lookup_alter_Some; [|by apply Hk].
    destruct (Hf x) as [-> _]. by apply Hk.
  - intros a r Ha. unfold accounts in *. simpl. destruct (decide (id = a)) as [->|Hne].
    + exists (f r). rewrite lookup_alter_eq, Ha. destruct (Hf r) as (_ & ? & ?). done.
    + exists r. by rewrite lookup_alter_ne.
Qed.

Lemma fmap_kept f db : same_rank f -> ranks_kept db (with_identities (with_admins (fmap f)) db).
Proof.
  intros Hf. split.
  - intros Hk k a. unfold accounts. simpl. rewrite lookup_fmap. intros (x & Hx & ->)%fmap_Some_1.
    destruct (Hf x) as [-> _]. by apply Hk.
  - intros a r Ha. unfold accounts in *. simpl. exists (f r). rewrite lookup_fmap, Ha. destruct (Hf r) as (_ & ? & ?). done.
Qed.

Lemma insert_kept id a db : Admin.id a = id -> accounts db !! id = None ->
  ranks_kept db (with_identities (with_admins (insert id a)) db).
Proof.
  intros Hid Hn. split.
  - intros Hk k b. unfold accounts. simpl. intros [[<- <-]|[_ Hb]]%lookup_insert_Some; [done|by apply Hk].
  - intros k r Hr. unfold accounts in *. simpl. exists r. rewrite lookup_insert_ne; [done|]. congruence.
Qed.

Lemma totp_rank b t : same_rank (with_totp_flag b t).
Proof. by intros a. Qed.
Lemma role_rank_kept r t : same_rank (with_custom_role r t).
Proof. by intros a. Qed.

(** Every operation but an update of an account keeps the ranks of all. *)
Lemma set_secret_kept t id enc db : ranks_kept db (on_auth (plainly (set_admin_totp_secret t id enc)) db).2.
Proof.
  unfold on_auth, plainly, set_admin_totp_secret. destruct (is_some _); [|by apply same_accounts].
  apply (alter_kept id (with_totp_flag false t)), totp_rank.
Qed.

Lemma clear_totp_kept t id db : ranks_kept db (on_auth (plainly (clear_admin_totp t id)) db).2.
Proof.
  unfold on_auth, plainly, clear_admin_totp. destruct (is_some _); [|by apply same_accounts].
  apply (alter_kept id (with_totp_flag false t)), totp_rank.
Qed.

Lemma create_admin_kept t id u p ro a b c d db :
  ranks_kept db (on_auth (create_admin_row sql_lower t id u p ro a b c d) db).2.
Proof.
  unfold on_auth, create_admin_row. destruct (negb _); [by apply same_accounts|].
  destruct (is_some (admins (identities db) !! id) || _) eqn:Ei; [by apply same_accounts|].
  apply orb_false_iff in Ei as [Ei _]. apply insert_kept; [done|].
  unfold accounts. by destruct (admins (identities db) !! id).
Qed.

Lemma set_groups_kept a gs db : ranks_kept db (set_reseller_groups a gs db).2.
Proof. unfold set_reseller_groups. destruct (forallb _ _); by apply same_accounts. Qed.

Lemma custom_role_kept t a r db : ranks_kept db (on_auth (set_admin_custom_role t a r) db).2.
Proof.
  unfold on_auth, set_admin_custom_role. destruct (admins _ !! a); [|by apply same_accounts].
  destruct (match r with Some _ => _ | None => _ end); [|by apply same_accounts].
  apply (alter_kept a (with_custom_role r t)), role_rank_kept.
Qed.

Lemma delete_role_kept t id db : ranks_kept db (on_auth (plainly (delete_custom_role_row t id)) db).2.
Proof.
  unfold on_auth, plainly, delete_custom_role_row. destruct (is_some _); [|by apply same_accounts].
  apply (fmap_kept (fun a => if bool_decide (Admin.custom_role_id a = Some id) then with_custom_role None t a else a)).
  intros a. by case_bool_decide.
Qed.

Lemma auth_same {A} (f : AuthDb -> result A db_error * AuthDb) db :
  (forall adb, admins (f adb).2 = admins adb) -> ranks_kept db (on_auth f db).2.
Proof. intros Hf. apply same_accounts. unfold on_auth, accounts. specialize (Hf (identities db)). by destruct (f _). Qed.

Lemma quota_same t id interval at_ db :
  ranks_kept db (let (b, tb) := set_user_quota_interval t id interval at_ (tables db) in
                 (@Ok bool db_error b, with_tables (fun _ => tb) db)).2.
Proof. apply same_accounts. by destruct (set_user_quota_interval _ _ _ _ _). Qed.

Lemma op_ranks t i op :
  (forall id input, op <> UpdateAdmin id input) -> Keeps ranks_kept (run_account_op t i op).
Proof.
  intros Hop.
  destruct op; try (by destruct (Hop _ _ eq_refl)); unfold run_account_op, done_with, totp_setup, totp_enable,
    totp_disable, totp_recovery_generate, session_account, add_admin_ip_h, delete_admin_ip_h, set_quota_interval, logout,
    revoke_session, revoke_other_sessions, create_admin, create_custom_role, update_custom_role, delete_custom_role,
    create_api_key_handler, revoke_api_key_handler; keeps; apply keeps_statement; intros db;
    first [ apply set_secret_kept | apply clear_totp_kept | apply create_admin_kept | apply set_groups_kept
          | apply delete_role_kept | apply quota_same
          | apply (alter_kept _ (with_totp_flag true _)), totp_rank
          | apply auth_same; intros adb ].
  - unfold replace_recovery_codes. by destruct (_ && _).
  - unfold add_admin_ip. by destruct (existsb _ _).
  - done.
  - done.
  - done.
  - done.
  - unfold create_custom_role_row. by destruct (_ || _).
  - unfold update_custom_role_row. destruct (_ !! _); [|done]. by destruct (role_name_taken _ _ _).
  - unfold create_api_key, store_key. destruct (existsb _ _); [done|]. by destruct (negb _).
  - done.
Qed.

(** An update by an owner leaves that owner one. *)
Definition owned (a : Uuid) (db : UserDb) : Prop := accounts_keyed db /\ owner a db.

Lemma ranks_kept_owned a db db' : ranks_kept db db' -> owned a db -> owned a db'.
Proof. intros Hr [Hk Ho]. split; [by apply Hr|by eapply ranks_kept_owner]. Qed.

Lemma update_row_owned t a i id input p db :
  admin_id i = Some a -> demotes_self i id input = false -> owned a db ->
  owned a (on_auth (update_admin_row t id (admin_patch input p)) db).2.
Proof.
  intros Hi Hs [Hk (r & Ha & He & Ho)]. unfold on_auth, update_admin_row.
  destruct (admins (identities db) !! id) as [x|] eqn:Ex; [|by split; [|exists r]].
  destruct (valid_role _); [|by split; [|exists r]]. split.
  - intros k b. unfold accounts. simpl. intros [[<- <-]|[_ Hb]]%lookup_insert_Some; [|by apply Hk].
    simpl. by apply Hk.
  - unfold owner, accounts in *. simpl. destruct (decide (id = a)) as [->|Hne]; [|exists r; by rewrite lookup_insert_ne].
    rewrite lookup_insert_eq. eexists. split; [done|]. rewrite Ex in Ha. injection Ha as ->. simpl.
    unfold demotes_self in Hs. rewrite bool_decide_eq_true_2 in Hs by done.
    apply orb_false_iff in Hs as [Hen Hro]. apply bool_decide_eq_false in Hen. split.
    + destruct (ua_enabled input) as [[]|]; [done|by destruct Hen|done].
    + destruct (ua_role input) as [ro|]; [|done]. simpl in *. by apply negb_false_iff, String.eqb_eq in Hro.
Qed.

Lemma update_admin_owned t i a id input :
  admin_id i = Some a ->
  hoare (owned a) (update_admin argon2 t i id input) (fun _ => owned a) (owned a).
Proof.
  intros Hi. unfold update_admin. apply hoare_refuse; [done|intros _]. apply hoare_refuse; [done|intros Hs].
  apply hoare_read; [apply _|done|intros p]. apply (hoare_bind _ _ (fun _ => owned a)).
  - apply hoare_statement. intros db Hdb. pose proof (update_row_owned t a i id input p db Hi Hs Hdb) as H.
    by destruct (on_auth _ db) as [[o|e] db'].
  - intros o. apply (keeps_hoare ranks_kept); [|apply ranks_kept_owned]. unfold done_with. keeps; apply keeps_statement; intros db;
      first [apply set_groups_kept | apply custom_role_kept | by apply auth_same].
Qed.

(** A session the middleware admits is of an enabled account with that rank. *)
Lemma session_identity f now r adb i adb' :
  require_auth token_hash Net parse_net net_contains api_token f now r adb = (Passed i, adb') ->
  bearer (req_headers r) = None ->
  admins adb' = admins adb /\ authorized i (req_method r) (req_path r) = true /\
  exists k a, admins adb !! k = Some a /\ Admin.enabled a = true /\ admin_id i = Some (Admin.id a) /\
    id_role i = Admin.role a.
Proof.
  unfold require_auth, identify. fold (bearer (req_headers r)). intros H Hb. rewrite Hb in H. revert H.
  destruct (cookie _ _) as [token|]; [|done]. destruct (session_lookup_fails f); [done|].
  destruct (admin_for_session _ _ _) as [[a|] db1] eqn:Es; [|done].
  repeat (destruct (negb _ || _); [done|]). destruct (negb (_ || _)); [done|].
  destruct (_ && cross_site _); [done|]. destruct (_ && negb (origin_matches_host _)); [done|].
  destruct (authorized _ _ _) eqn:Ea; [|done]. intros [= <- <-].
  assert (Hsame : admins db1 = admins adb) by (unfold admin_for_session in Es; destruct (admin_of_session _ _ _);
    by injection Es as _ <-).
  apply admin_for_session_inv in Es as (_ & s & _ & _ & _ & Had & Hen).
  split; [done|]. split; [done|]. exists (ss_admin_id s), a. done.
Qed.

(** Only an owner passes to the account routes. *)
Lemma admins_route_owner i id :
  permissions i = None -> authorized i PATCH ("/admins/" +:+ uuid_str id) = true -> id_role i = "owner".
Proof.
  unfold authorized. intros Hp. rewrite Hp. destruct (is_reseller i) eqn:Er; [by vm_compute|]. simpl.
  change (required_role PATCH ("/admins/" +:+ uuid_str id)) with "owner". unfold permits.
  change (role_rank "owner") with 3. unfold role_rank. destruct (String.eqb_spec (id_role i) "owner") as [->|]; [done|].
  destruct (String.eqb _ "admin"); [done|]. by destruct (String.eqb _ "operator").
Qed.

(** C13: the panel is never left without an owner.  Whatever sequence of account
    requests comes in over panel sessions without a custom role, from a table
    with an enabled owner, an enabled owner remains. *)
Theorem owner_retained (db db' : UserDb) :
  accounts_keyed db -> (exists a, owner a db) ->
  rtc (fun x y => exists r i, bearer (req_headers r) = None /\ permissions i = None /\ served_request r i x y) db db' ->
  exists a, owner a db'.
Proof.
  intros Hk [a Ho] Hsteps. enough (exists a, owned a db') as [b [_ Hb]] by eauto.
  assert (Hdb : exists a, owned a db) by (exists a; by split). clear a Hk Ho. revert Hdb.
  induction Hsteps as [x|x y z (r & i & Hb & Hp & Hreq) _ IH]; [done|]. intros [a Ha]. apply IH. clear IH.
  destruct Hreq as [f now t adb op Hpass Hroute ->].
  destruct (session_identity _ _ _ _ _ _ Hpass Hb) as (Hsame & Hauth & k & me & Hme & Hen & Hid & Hrole).
  set (x1 := with_identities (fun _ => adb) x).
  assert (Hx1 : ranks_kept x x1) by (apply same_accounts; unfold accounts; simpl; congruence).
  apply (ranks_kept_owned _ _ _ Hx1) in Ha.
  destruct op; try (exists a; eapply ranks_kept_owned; [by apply (op_ranks t i)|exact Ha]).
  assert (owned (Admin.id me) x1) as Hmine.
  { destruct Ha as [Hk _]. split; [done|]. assert (accounts x1 !! k = Some me) as Hkm by (unfold accounts; simpl; congruence).
    rewrite (Hk k me Hkm). exists me. split; [done|]. split; [done|]. rewrite <- Hrole.
    injection Hroute as Hm Hpath. rewrite Hm, Hpath in Hauth. by apply (admins_route_owner i id). }
  exists (Admin.id me). pose proof (update_admin_owned t i (Admin.id me) id input Hid (mkSt x1 []) Hmine) as H.
  unfold run_account_op, done_with, mbind, M_bind. by destruct (update_admin _ _ _ _ _ _) as [[]].
Qed.

(** *** Keys *)

Definition key_identity (i : Identity) (k : ApiKey) : Identity :=
  mkIdentity (admin_id i) ("apikey:" +:+ k_name k) (k_role k) None None.

Definition unexpired (t : Z) (k : ApiKey) : Prop := match k_expires_at k with Some e => t < e | None => True end.

Lemma find_app_r {A} (p : A -> bool) l x : (forall y, In y l -> p y = false) -> p x = true -> List.find p (l ++ [x]) = Some x.
Proof.
  intros Hl Hx. induction l as [|y l IH]; simpl; [by rewrite Hx|]. rewrite (Hl y) by (by left).
  apply IH. intros z Hz. apply Hl. by right.
Qed.

Lemma existsb_none {A} (p : A -> bool) l : existsb p l = false <-> forall x, In x l -> p x = false.
Proof.
  induction l as [|y l IH]; simpl; [by split|]. rewrite orb_false_iff, IH. split.
  - intros [Hy Hl] x [<-|Hx]; auto.
  - intros H. split; [apply H; by left|intros x Hx; apply H; by right].
Qed.

(** A bearer token that is not the shared one is looked up among the keys. *)
Lemma identify_key f t hs token adb :
  bearer hs = Some token -> api_token <> Some token -> starts_with "hny_" token = true -> key_lookup_fails f = false ->
  identify token_hash api_token f t hs adb =
  match authenticate_api_key t (token_hash token) adb with
  | (Some key, adb') => (Ok (Some (mkIdentity (k_created_by key) ("apikey:" +:+ k_name key) (k_role key) None None, false)), adb')
  | (None, adb') => (Ok None, adb')
  end.
Proof.
  intros Hb Ht Hp Hf. unfold identify. fold (bearer hs). rewrite Hb, Hp, Hf. simpl.
  destruct (is_some_and api_token _) eqn:E; [|done].
  destruct api_token as [x|]; [|done]. simpl in E. apply ct_eq_spec, bytes_inj in E as <-. done.
Qed.

Lemma create_key_ok t id rnd i name role days s key status token s' :
  create_api_key_handler token_hash timestamp t id rnd i name role days s = (Ok (key, status, token), s') ->
  exists secret ro, token = "hny_" +:+ secret /\ k_hash key = token_hash token /\ k_id key = id /\ k_role key = ro /\
    k_created_by key = admin_id i /\ k_revoked_at key = None /\ is_reseller i = false /\ permits i ro = true /\
    one_of ["owner"; "admin"; "operator"; "viewer"] ro = true /\
    api_keys (identities (store s')) = api_keys (identities (store s)) ++ [key] /\
    (forall k, In k (api_keys (identities (store s))) -> k_id k <> id /\ k_hash k <> token_hash token).
Proof.
  unfold create_api_key_handler. intros (v & s1 & Hv & H)%bind_ok. unfold lift_result in Hv. injection Hv as Hv <-.
  destruct v as [[nm ro] ex]. apply bind_ok in H as (secret & s2 & [_ ->]%found_ok & H).
  apply bind_ok in H as ([k tok] & s3 & Hst & H). apply statement_ok in Hst as [Hst _].
  apply bind_ok in H as ([] & s4 & Haud & H). injection Haud as <-. injection H as -> _ -> <-.
  unfold validate_api_key_input in Hv. cbv zeta in Hv. destruct (_ || _ || _); [done|]. destruct (negb (one_of _ _)) eqn:Er; [done|].
  destruct (is_reseller i || negb _) eqn:Ep; [done|].
  destruct (negb ((0 <=? days) && _)); [done|]. injection Hv as _ <- _.
  apply orb_false_iff in Ep as [Ers Ep%negb_false_iff]. apply negb_false_iff in Er.
  unfold on_auth, create_api_key, store_key in Hst.
  destruct (existsb _ _) eqn:Eu; [done|]. destruct (negb _); [done|]. injection Hst as Hk Htok Hdb.
  exists secret, (trim role). subst key token. simpl in *. rewrite <- Hdb. simpl. split_and!; try done.
  intros k' Hk'. apply (proj1 (existsb_none _ _) Eu) in Hk'. apply orb_false_iff in Hk' as [H1%Z.eqb_neq H2%String.eqb_neq].
  done.
Qed.

(** The scopes a key can have rank below whatever permits them. *)
Lemma scope_bounded i j ro m p :
  is_reseller i = false -> permissions i = None -> permits i ro = true ->
  one_of ["owner"; "admin"; "operator"; "viewer"] ro = true -> id_role j = ro -> permissions j = None ->
  authorized j m p = true -> authorized i m p = true.
Proof.
  intros Hi Hp Hro Hone Hj Hpj. unfold authorized. rewrite Hi, Hp, Hpj.
  assert (is_reseller j = false) as ->.
  { unfold is_reseller. rewrite Hj. destruct (String.eqb_spec ro "reseller") as [->|]; [by vm_compute in Hone|done]. }
  simpl. unfold permits in *. rewrite Hj. intros H. apply Z.leb_le in H, Hro. apply Z.leb_le. lia.
Qed.

(** Once no unrevoked key has a digest, no key answers to it. *)
Lemma revoked_unknown t hash adb :
  (forall k, In k (api_keys adb) -> k_hash k = hash -> is_some (k_revoked_at k) = true) ->
  (authenticate_api_key t hash adb).1 = None.
Proof.
  intros H. unfold authenticate_api_key. destruct (List.find _ _) as [k|] eqn:E; [|done].
  apply find_some in E as [Hin Hk]. apply andb_true_iff in Hk as [Hh Hl]. apply String.eqb_eq in Hh.
  unfold key_live in Hl. by rewrite (H k Hin Hh) in Hl.
Qed.

(** A minted key is worth what was granted.  Its token identifies, from then on
    and until the key expires, a caller with the granted scope; that caller may
    do nothing its minter may not, when the minter has no custom role; and once
    the key is revoked the token identifies nobody. *)
Theorem minted_key_works t id rnd i name role days s key status token s' :
  create_api_key_handler token_hash timestamp t id rnd i name role days s = (Ok (key, status, token), s') ->
  api_token <> Some token ->
  (forall f t' hs, bearer hs = Some token -> key_lookup_fails f = false -> unexpired t' key ->
     (identify token_hash api_token f t' hs (identities (store s'))).1 = Ok (Some (key_identity i key, false))) /\
  (permissions i = None -> forall m p, authorized (key_identity i key) m p = true -> authorized i m p = true) /\
  (forall t1 s2 f t' hs, revoke_api_key_handler t1 id s' = (Ok tt, s2) -> bearer hs = Some token ->
     key_lookup_fails f = false -> (identify token_hash api_token f t' hs (identities (store s2))).1 = Ok None).
Proof.
  intros H Hlegacy. apply create_key_ok in H as
    (secret & ro & Htok & Hhash & Hid & Hro & Hby & Hrev & Hres & Hper & Hone & Hkeys & Hfresh).
  assert (Hpre : starts_with "hny_" token = true) by (subst token; apply strip_prefix_starts with secret, strip_prefix_app).
  split; [|split].
  - intros f t' hs Hb Hf Hexp. rewrite (identify_key f t' hs token) by done. unfold authenticate_api_key.
    rewrite Hkeys, find_app_r.
    + simpl. unfold key_identity, touch_key. rewrite <- Hby. by destruct (map_or _ _ _).
    + intros k Hk. apply andb_false_iff. left. apply String.eqb_neq. by apply Hfresh.
    + rewrite Hhash, String.eqb_refl. unfold key_live. rewrite Hrev. simpl. unfold unexpired in Hexp.
      destruct (k_expires_at key); [by apply Z.ltb_lt|done].
  - intros Hp m p. by apply (scope_bounded i _ ro).
  - intros t1 s2 f t' hs Hr Hb Hf. rewrite (identify_key f t' hs token) by done.
    unfold revoke_api_key_handler in Hr. apply bind_ok in Hr as (o & s3 & Hst & Hr). apply statement_ok in Hst as [Hst _].
    assert (store s2 = store s3) as ->.
    { apply bind_ok in Hr as (k & s4 & [_ ->]%found_ok & Hr). by injection Hr as <-. }
    enough ((authenticate_api_key t' (token_hash token) (identities (store s3))).1 = None) as Hn
      by (destruct (authenticate_api_key _ _ _) as [[]]; simpl in *; congruence).
    apply revoked_unknown. unfold on_auth, plainly, revoke_api_key in Hst. injection Hst as _ <-. simpl.
    rewrite Hkeys. intros k Hk Hkh. apply in_map_iff in Hk as (k0 & <- & Hk0).
    apply in_app_or in Hk0 as [Hk0|[<-|[]]].
    + destruct (Hfresh k0 Hk0) as [Hne Hh]. apply Z.eqb_neq in Hne. rewrite Hne in *. simpl in *. done.
    + by rewrite Hid, Z.eqb_refl, Hrev.
Qed.

(** *** Suspension *)

(** No session row is left of account [id], and accounts are keyed. *)
Definition signed_out (id : Uuid) (db : UserDb) : Prop :=
  accounts_keyed db /\ forall s, In s (admin_sessions (identities db)) -> ss_admin_id s <> id.

Lemma update_row_keyed t id p db : accounts_keyed db -> accounts_keyed (on_auth (update_admin_row t id p) db).2.
Proof.
  intros Hk. unfold on_auth, update_admin_row. destruct (admins (identities db) !! id) as [a|] eqn:Ea; [|done].
  destruct (valid_role _); [|done]. intros k b. unfold accounts. simpl.
  intros [[<- <-]|[_ Hb]]%lookup_insert_Some; [simpl|]; by apply Hk.
Qed.

Lemma update_admin_signs_out t i id input :
  ua_enabled input = Some false \/ is_some (ua_password input) = true ->
  hoare accounts_keyed (update_admin argon2 t i id input) (fun _ => signed_out id) (fun _ => True).
Proof.
  intros Hsus. unfold update_admin. apply hoare_refuse; [done|intros _]. apply hoare_refuse; [done|intros _].
  apply hoare_lift; [done|intros p Hp]. apply (hoare_bind _ _ (fun _ => accounts_keyed)).
  { apply hoare_statement. intros db Hdb. pose proof (update_row_keyed t id (admin_patch input p) db Hdb).
    by destruct (on_auth _ db) as [[]]. }
  intros o. apply (hoare_read); [apply _|done|intros a].
  assert (Hk : forall A (m : M A), Keeps ranks_kept m -> hoare accounts_keyed m (fun _ => accounts_keyed) (fun _ => True)).
  { intros A m Hm s Hs. specialize (Hm s). destruct (m s) as [[x|e] s']; [by apply Hm|done]. }
  apply (hoare_bind _ _ (fun _ => accounts_keyed)).
  { apply Hk. keeps. apply keeps_statement. intros. apply set_groups_kept. }
  intros _. apply (hoare_bind _ _ (fun _ => accounts_keyed)).
  { apply Hk. unfold done_with. keeps; apply keeps_statement; intros; apply custom_role_kept. }
  intros _. assert (bool_decide (ua_enabled input = Some false) || is_some p = true) as ->.
  { destruct Hsus as [Hs|Hs]; [by rewrite bool_decide_eq_true_2|]. apply orb_true_iff. right. destruct (ua_password input); [|done]. simpl in Hp.
    destruct (hash_password _ _); by inversion Hp. }
  apply (hoare_bind _ _ (fun _ => signed_out id)).
  { apply hoare_statement. intros db Hdb. simpl. split; [done|]. simpl. intros s Hs.
    apply List.filter_In in Hs as [_ Hs]. by apply negb_true_iff, Z.eqb_neq in Hs. }
  intros _. apply hoare_only; [apply _|done].
Qed.

(** Suspension and a new password sign out.  Once an account is disabled or its
    password is changed, no cookie identifies it any more. *)
Theorem suspension_signs_out t i id input s a s' :
  accounts_keyed (store s) -> ua_enabled input = Some false \/ is_some (ua_password input) = true ->
  update_admin argon2 t i id input s = (Ok a, s') ->
  forall f t' hs j c adb, bearer hs = None ->
    identify token_hash api_token f t' hs (identities (store s')) = (Ok (Some (j, c)), adb) -> admin_id j <> Some id.
Proof.
  intros Hk Hsus Hok. pose proof (update_admin_signs_out t i id input Hsus s Hk) as H. rewrite Hok in H.
  destruct H as [Hk' Hout]. intros f t' hs j c adb Hb. unfold identify. fold (bearer hs). rewrite Hb.
  destruct (cookie _ _) as [token|]; [|done]. destruct (session_lookup_fails f); [done|].
  destruct (admin_for_session _ _ _) as [[x|] adb1] eqn:Es; [|done]. intros [= <- _ _]. simpl.
  apply admin_for_session_inv in Es as (_ & se & Hin & _ & _ & Hx & _). intros [= Heq].
  apply (Hout se Hin). by rewrite <- Heq, (Hk' _ _ Hx).
Qed.

(** Keys outlive their maker.  Whatever is done to an account, every bearer
    credential identifies whom it identified before: the keys a disabled account
    minted go on acting in its name. *)
Theorem suspension_keeps_keys t i id input s r s' :
  update_admin argon2 t i id input s = (r, s') ->
  forall f t' hs token, bearer hs = Some token ->
    (identify token_hash api_token f t' hs (identities (store s'))).1 =
    (identify token_hash api_token f t' hs (identities (store s))).1.
Proof.
  intros Hr f t' hs token Hb.
  assert (Hkeep : Keeps (fun db db' => api_keys (identities db') = api_keys (identities db)) (update_admin argon2 t i id input)).
  { assert (PreOrder (fun db db' : UserDb => api_keys (identities db') = api_keys (identities db))).
    { split; [by intros ?|intros ???; congruence]. }
    unfold update_admin, done_with. keeps; apply keeps_statement; intros db.
    - unfold on_auth, update_admin_row. destruct (_ !! id); [|done]. by destruct (valid_role _).
    - unfold set_reseller_groups. by destruct (forallb _ _).
    - unfold on_auth, set_admin_custom_role. by destruct (admins _ !! id).
    - unfold on_auth, set_admin_custom_role. destruct (admins _ !! id); [|done]. by destruct (is_some _).
    - done. }
  specialize (Hkeep s). rewrite Hr in Hkeep. simpl in Hkeep. unfold identify. fold (bearer hs). rewrite Hb.
  destruct (is_some_and _ _); [done|]. destruct (negb _); [done|]. destruct (key_lookup_fails f); [done|].
  unfold authenticate_api_key. rewrite Hkeep. by destruct (List.find _ _).
Qed.

(** A half-made update.  When the custom role named in an update does not exist
    the request is refused, but the new rank, standing and password are already
    stored, the sessions they should have ended stay open, and no audit event is
    sent. *)
Theorem refused_update_keeps_sessions t i id input p a role s :
  is_some_and (ua_role input) (fun r => negb (valid_role r)) = false -> demotes_self i id input = false ->
  hashed argon2 (ua_password input) = Ok p -> accounts (store s) !! id = Some a -> valid_role (Admin.role a) = true ->
  ua_group_ids input = None -> ua_custom_role_id input = Value role ->
  custom_roles (identities (store s)) !! role = None ->
  exists s', update_admin argon2 t i id input s = (Err (ApiDb ForeignKeyViolation), s') /\
    accounts (store s') !! id = Some (admin_updated t (admin_patch input p) a) /\
    admin_sessions (identities (store s')) = admin_sessions (identities (store s)) /\ trace s' = trace s.
Proof.
  intros Hro Hself Hp Ha Hva Hg Hc Hnone. set (a' := admin_updated t (admin_patch input p) a).
  assert (Hv : valid_role (Admin.role a') = true).
  { subst a'. simpl. destruct (ua_role input); [|done]. simpl in *. by apply negb_false_iff in Hro. }
  exists (mkSt (with_identities (with_admins (insert id a')) (store s)) (trace s)).
  split; [|split; [|done]].
  - unfold update_admin, mbind, M_bind, refuse. rewrite Hro, Hself. simpl. unfold lift_result. rewrite Hp.
    unfold statement, on_auth, update_admin_row. unfold accounts in Ha. rewrite Ha. fold a'. rewrite Hv. simpl.
    rewrite Hg, Hc. simpl. unfold done_with, mbind, M_bind, set_admin_custom_role. simpl. by rewrite lookup_insert_eq, Hnone.
  - unfold accounts. simpl. apply lookup_insert_eq.
Qed.

(** *** Two-factor *)

(** Setting up two-factor again turns it off.  The setup request asks for no
    code: after it, sent by any credential of the account, its password signs in
    whatever second factor comes along, or none. *)
Theorem setup_disarms_two_factor verify_password db_lower t secret enc i a row s r s' clk sid token hs input st :
  admin_id i = Some a -> accounts (store s) !! a = Some row -> Admin.enabled row = true -> encrypt secret = Some enc ->
  totp_setup encrypt totp_url qr_svg t secret i s = (r, s') ->
  auth_db st = identities (store s') ->
  get_admin_by_username db_lower (in_username input) (auth_db st) = accounts (store s') !! a ->
  verify_password (in_password input) (Admin.password_hash row) = true ->
  (Login.locked_for (t_prune clk) (t_guard clk) (t_left clk) (default "unknown" (forwarded_remote hs)) (limiter st)).1 = None ->
  ip_allowed Net parse_net net_contains (auth_db st) (forwarded_remote hs) = true ->
  (login token_hash Net parse_net net_contains verify_password verify_totp decrypt db_lower clk sid (Some token) hs input st).1
  = LoggedIn (with_totp_flag false t row) token (utc clk + twelve_hours).
Proof.
  intros Hi Ha Hen Henc Hs Hdb Hget Hpw Hlock Hip.
  assert (Hrow : accounts (store s') !! a = Some (with_totp_flag false t row)).
  { revert Hs. unfold totp_setup, mbind, M_bind, found. rewrite Hi, Henc. simpl. unfold statement, on_auth, plainly.
    unfold set_admin_totp_secret. unfold accounts in Ha. rewrite Ha. simpl.
    destruct (totp_url _ _) as [url|]; simpl.
    1: destruct (qr_svg url); simpl.
    all: intros [= _ <-]; unfold accounts; simpl; by rewrite lookup_alter_eq, Ha. }
  unfold login. destruct (Login.locked_for _ _ _ _ _) as [locked m]. simpl in Hlock. subst locked. simpl.
  unfold verified_admin. rewrite Hget, Hrow. simpl. rewrite Hen. simpl. rewrite Hpw. simpl. by rewrite Hip.
Qed.

(** *** Custom roles *)

(** Deleting a role widens it.  A session of an account that held the role runs
    on under the account's rank, whatever the role had withheld. *)
Theorem role_deletion_restores_rank t role s s' f t' hs token a :
  delete_custom_role t role s = (Ok tt, s') -> bearer hs = None -> cookie hs "honey_session" = Some token ->
  session_lookup_fails f = false -> admin_of_session t' (token_hash token) (identities (store s)) = Some a ->
  Admin.custom_role_id a = Some role -> Admin.role a <> "reseller" ->
  exists j, (identify token_hash api_token f t' hs (identities (store s'))).1 = Ok (Some (j, true)) /\
    admin_id j = Some (Admin.id a) /\ id_role j = Admin.role a /\
    forall m p, authorized j m p = permits j (required_role m p).
Proof.
  intros Hd Hb Hc Hf Ha Hcr Hnr. unfold delete_custom_role in Hd.
  apply bind_ok in Hd as (gone & s1 & Hst & Hd). apply statement_ok in Hst as [Hst _].
  apply bind_ok in Hd as (u & s2 & [Hgone ->]%refuse_ok & Hd). injection Hd as <-. simpl.
  apply negb_false_iff in Hgone. subst gone. unfold on_auth, plainly, delete_custom_role_row in Hst.
  destruct (is_some _); [|done]. injection Hst as Hst.
  set (adb' := identities (store s1)).
  set (a' := with_custom_role None t a).
  assert (Ha' : admin_of_session t' (token_hash token) adb' = Some a').
  { subst adb'. rewrite <- Hst. unfold admin_of_session in *. simpl. destruct (List.find _ _) as [se|]; [|done].
    rewrite lookup_fmap. destruct (admins (identities (store s)) !! ss_admin_id se) as [x|]; [|done]. simpl.
    destruct (Admin.enabled x) eqn:Ex; [|done]. injection Ha as ->. rewrite bool_decide_eq_true_2 by done. simpl. by rewrite Ex. }
  exists (mkIdentity (Some (Admin.id a)) (Admin.username a) (Admin.role a) (Some (token_hash token)) None).
  split; [|split; [done|split; [done|]]].
  - unfold identify. fold (bearer hs). rewrite Hb, Hc, Hf. unfold admin_for_session. by rewrite Ha'.
  - intros m p. unfold authorized, is_reseller. simpl. by destruct (String.eqb_spec (Admin.role a) "reseller").
Qed.

(** *** Recovery codes *)

Definition upper_hex (c : ascii) : bool := is_digit c || between 65 70 c.

Lemma upper_hex_digit n : 0 <= n < 16 -> upper_hex (upper (hex_digit n)) = true.
Proof.
  intros Hn. assert (Hall : forallb (fun k => upper_hex (upper (hex_digit (Z.of_nat k)))) (seq 0 16) = true) by by vm_compute.
  rewrite forallb_forall in Hall. rewrite <- (Z2Nat.id n) by lia. apply Hall, in_seq. lia.
Qed.

Lemma hex_code bs : Forall (fun b => 0 <= b < 256) bs ->
  String.length (to_ascii_uppercase (hex bs)) = (2 * length bs)%nat /\ all_bytes upper_hex (to_ascii_uppercase (hex bs)) = true.
Proof.
  induction 1 as [|b bs Hb _ [IHl IHa]]; [done|]. rewrite hex_cons. unfold to_ascii_uppercase, hex_byte in *. simpl in *.
  change ("" +:+ hex bs) with (hex bs).
  rewrite IHl, IHa, !upper_hex_digit; [split; [lia|done]| |]; [apply Z.mod_pos_bound; lia|].
  split; [apply Z.div_pos; lia|apply Z.div_lt_upper_bound; lia].
Qed.

(** Upper-case hexadecimal is its own normal form. *)
Lemma normalize_upper_hex c : String.length c = 20%nat -> all_bytes upper_hex c = true -> normalize_recovery_code c = Some c.
Proof.
  intros Hl Hc. unfold normalize_recovery_code.
  assert (map_bytes upper (filter_bytes (fun c => negb (is_ascii_whitespace c) && negb (code c =? 45)) c) = c) as ->.
  { clear Hl. induction c as [|x c IH]; [done|]. simpl in Hc. apply andb_true_iff in Hc as [Hx Hc].
    assert (H : forall y, implb (upper_hex y)
      (negb (is_ascii_whitespace y) && negb (code y =? 45) && Ascii.eqb (upper y) y && is_hexdigit y) = true).
    { intros y. destruct y as [[] [] [] [] [] [] [] []]; reflexivity. }
    specialize (H x). rewrite Hx in H. simpl in H. repeat (apply andb_true_iff in H as [H ?]). simpl.
    rewrite H. match goal with E : negb (code x =? 45) = true |- _ => rewrite E end. simpl.
    match goal with E : Ascii.eqb _ _ = true |- _ => apply Ascii.eqb_eq in E; rewrite E end. by rewrite (IH Hc). }
  unfold len. rewrite Hl. simpl.
  assert (all_bytes is_hexdigit c = true) as ->; [|done]. eapply all_bytes_impl; [|exact Hc].
  intros y. destruct y as [[] [] [] [] [] [] [] []]; by vm_compute.
Qed.

Lemma generate_ok rng i code s codes n s' :
  totp_recovery_generate decrypt token_hash verify_totp rng i code s = (Ok (codes, n), s') ->
  exists admin, admin_id i = Some admin /\ mapM (fun k => generate_recovery_code (rng k)) (seq 0 10) = Some codes /\
    n = Z.of_nat (length codes) /\
    replace_recovery_codes admin (token_hash <$> codes) (identities (store s)) = (Ok tt, identities (store s')).
Proof.
  intros H. unfold totp_recovery_generate in H.
  apply bind_ok in H as (admin & s1 & [Ha ->]%found_ok & H). apply bind_ok in H as (oa & s1 & [_ ->]%query_ok & H).
  apply bind_ok in H as (a & s1 & [_ ->]%found_ok & H). apply bind_ok in H as ([] & s1 & [_ ->]%refuse_ok & H).
  apply bind_ok in H as (o & s1 & [_ ->]%query_ok & H). apply bind_ok in H as (secret & s1 & [_ ->]%found_ok & H).
  apply bind_ok in H as ([] & s1 & [_ ->]%refuse_ok & H). apply bind_ok in H as (cs & s1 & [Hc ->]%found_ok & H).
  cbv zeta in H. apply bind_ok in H as ([] & s2 & [Hr _]%statement_ok & H).
  apply bind_ok in H as ([] & s3 & Hau & H). injection H as <- <- <-. injection Hau as <-.
  exists admin. rewrite length_fmap. repeat split; [done..|].
  unfold on_auth in Hr. destruct (replace_recovery_codes _ _ _) as [r adb] eqn:E. injection Hr as -> <-. done.
Qed.

(** Exactly one row of a duplicate-free list of fresh codes has a given hash. *)
Lemma fresh_code_once admin h hashes : NoDup hashes -> h ∈ hashes ->
  length (List.filter (unused_code admin h) ((fun h => mkCode admin h None) <$> hashes)) = 1%nat.
Proof.
  intros Hnd Hin. induction Hnd as [|x l Hx Hnd IH]; [by apply elem_of_nil in Hin|]. simpl.
  assert (Hu : unused_code admin h (mkCode admin x None) = String.eqb x h)
    by (unfold unused_code; simpl; by rewrite Z.eqb_refl, andb_true_r).
  rewrite Hu. destruct (String.eqb_spec x h) as [->|Hne].
  - simpl. f_equal. clear -Hx. induction l as [|y l IH]; [done|]. apply not_elem_of_cons in Hx as [Hy Hl]. simpl.
    assert (unused_code admin h (mkCode admin y None) = false) as ->; [|by apply IH].
    unfold unused_code; simpl. apply not_eq_sym, String.eqb_neq in Hy. by rewrite Hy, andb_false_r.
  - apply IH. apply elem_of_cons in Hin as [->|]; done.
Qed.

Lemma unused_code_others admin h l :
  List.filter (unused_code admin h) (List.filter (fun c => negb (rc_admin_id c =? admin)) l) = [].
Proof.
  induction l as [|c l IH]; [done|]. simpl. destruct (rc_admin_id c =? admin) eqn:E; simpl; [done|].
  unfold unused_code at 1. by rewrite E.
Qed.

(** Fresh recovery codes work, once, and alone.  The ten codes a successful
    request prints are read back as they were printed; each of them is accepted
    as a second factor of the account that asked, and is refused from then on;
    and no other code of the account, issued earlier or never, is accepted. *)
Theorem recovery_codes_work rng i code s codes n s' admin :
  totp_recovery_generate decrypt token_hash verify_totp rng i code s = (Ok (codes, n), s') ->
  admin_id i = Some admin ->
  (forall k bs, rng k = Some bs -> length bs = 10%nat /\ Forall (fun b => 0 <= b < 256) bs) ->
  n = 10 /\
  (forall c, c ∈ codes -> normalize_recovery_code c = Some c /\
     forall t, exists adb, consume_admin_recovery_code t admin (token_hash c) (identities (store s')) = (true, adb) /\
       forall t', (consume_admin_recovery_code t' admin (token_hash c) adb).1 = false) /\
  (forall t h, h ∉ token_hash <$> codes ->
     (consume_admin_recovery_code t admin h (identities (store s'))).1 = false).
Proof.
  intros H Ha Hrng. apply generate_ok in H as (admin' & Ha' & Hc & -> & Hrep).
  assert (admin' = admin) as -> by congruence. clear Ha'. apply mapM_Some in Hc.
  unfold replace_recovery_codes in Hrep. destruct (_ && _) eqn:Eu in Hrep; [|done].
  apply andb_true_iff in Eu as [Hnd _]. apply bool_decide_eq_true in Hnd. injection Hrep as Hadb.
  assert (Hrows : forall h, List.filter (unused_code admin h) (recovery_codes (identities (store s')))
    = List.filter (unused_code admin h) ((fun h => mkCode admin h None) <$> (token_hash <$> codes))).
  { intros h. rewrite <- Hadb. simpl. by rewrite List.filter_app, unused_code_others. }
  split; [|split].
  - apply Forall2_length in Hc. rewrite length_seq in Hc. lia.
  - intros c Hin. split.
    + apply list_elem_of_lookup in Hin as [k Hk]. destruct (Forall2_lookup_r _ _ _ _ _ Hc Hk) as (j & _ & Hj).
      apply fmap_Some in Hj as (bs & Hbs & ->). destruct (Hrng _ _ Hbs) as [Hl Hb].
      destruct (hex_code bs Hb) as [Hlen Hall]. apply normalize_upper_hex; [by rewrite Hlen, Hl|done].
    + intros t. destruct (consume_admin_recovery_code t admin (token_hash c) (identities (store s'))) as [b adb] eqn:E.
      exists adb. split; [|intros t'; by apply (consume_once _ _ _ _ _ _ _ E)].
      f_equal. unfold consume_admin_recovery_code in E. injection E as <- _. apply Nat.eqb_eq. rewrite Hrows.
      apply fresh_code_once; [done|]. by apply list_elem_of_fmap_2.
  - intros t h Hh. unfold consume_admin_recovery_code. cbn [fst]. rewrite Hrows. apply Nat.eqb_neq.
    destruct (List.filter _ _) as [|x l] eqn:E; [done|]. exfalso. apply Hh.
    assert (Hx : In x (x :: l)) by by left. rewrite <- E in Hx. apply filter_In in Hx as [Hx Hu].
    apply in_map_iff in Hx as (h' & <- & Hin). unfold unused_code in Hu. simpl in Hu.
    rewrite Z.eqb_refl, andb_true_r in Hu. apply String.eqb_eq in Hu as ->. by apply list_elem_of_In.
Qed.
End Steps.

(** ** Witnesses *)

Definition bearer_of (token : string) : headers := [("authorization", "Bearer " +:+ token)].

Definition ola : Admin.Admin := Admin.mk 1 "ola" "pw" "owner" true true 0 0 0 0 None None 0 0.
Definition max : Admin.Admin := Admin.mk 2 "max" "mx" "admin" true false 0 0 0 0 (Some 9) None 0 0.
Definition office_auth : AuthDb :=
  mkAuthDb {[1 := ola; 2 := max]}
    [mkSession 31 1 "ola-tok" 500 0 None None 0; mkSession 32 2 "max-tok" 500 0 None None 0]
    [mkKey 40 "deploy" "hny_k" "admin" (Some 2) None None None 0] {[9 := mkRole 9 "auditor" (obj []) 0 0]} [] [mkCode 1 "OLD" None] {[1 := "seed"]}.
Definition office : St := mkSt (mkUserDb shop_tables ∅ ∅ ∅ office_auth) [].
Definition owner_ola : Identity := mkIdentity (Some 1) "ola" "owner" (Some "ola-tok") None.
Definition suspend : UpdateAdminInput := mkUpdateAdmin None (Some false) None None None None None None Missing.
Definition cookie_of (token : string) : headers := [("cookie", "honey_session=" +:+ token)].

Lemma office_keyed : accounts_keyed (store office).
Proof.
  intros k a. unfold accounts. cbn -[insert singletonM].
  intros [[<- <-]|[_ [<- <-]%lookup_singleton_Some]]%lookup_insert_Some; done.
Qed.

Definition ola_request : AuthRequest := mkRequest PATCH ("/admins/" +:+ show 2) (cookie_of "ola-tok").
Definition suspended : result Admin.Admin api_error * St := update_admin plain 10 owner_ola 2 suspend office.

Lemma owner_retained_witness : exists a, owner a (store suspended.2).
Proof.
  refine (owner_retained plain plain id (fun _ _ => false) (fun _ _ => None) plain plain unit (fun _ => None)
    (fun _ => "") (fun _ _ => false) id show show None (store office) (store suspended.2) office_keyed _ _).
  - exists 1, ola. done.
  - apply rtc_once. exists ola_request, owner_ola. split; [done|]. split; [done|].
    refine (served _ _ _ _ _ _ _ _ _ _ _ _ _ _ _ _ _ _ _ no_faults 10 10 office_auth (UpdateAdmin 2 suspend) _ _ _);
      vm_compute; reflexivity.
Defined.

Definition minted : result (ApiKey * string * string) api_error * St :=
  create_api_key_handler id show 10 41 (Some "s3cret") owner_ola "ci" "viewer" 30 office.

Lemma minted_ok : answered minted = true.
Proof. vm_compute. reflexivity. Qed.

Lemma minted_key_works_witness : exists key,
  (identify id None no_faults 20 (bearer_of "hny_s3cret") (identities (store minted.2))).1
  = Ok (Some (key_identity owner_ola key, false)).
Proof.
  destruct (answered_ok _ minted_ok) as [[[key status] token] H]. exists key.
  assert (token = "hny_s3cret" /\ unexpired 20 key) as [-> Hx] by (vm_compute in H; injection H as <- _ <-; done).
  refine (proj1 (minted_key_works id show None 10 41 (Some "s3cret") owner_ola "ci" "viewer" 30 office
    key status _ minted.2 H _) no_faults 20 _ _ _ Hx); done.
Defined.

Lemma suspension_signs_out_witness : exists j adb,
  identify id None no_faults 20 (cookie_of "ola-tok") (identities (store suspended.2)) = (Ok (Some (j, true)), adb) /\
  admin_id j <> Some 2.
Proof.
  eexists _, _. split; [vm_compute; reflexivity|].
  refine (suspension_signs_out id plain None 10 owner_ola 2 suspend office _ suspended.2 office_keyed
    (or_introl eq_refl) _ no_faults 20 (cookie_of "ola-tok") _ true _ eq_refl _); vm_compute; reflexivity.
Defined.

Lemma suspension_keeps_keys_witness :
  (identify id None no_faults 20 (bearer_of "hny_k") (identities (store suspended.2))).1
  = Ok (Some (mkIdentity (Some 2) "apikey:deploy" "admin" None None, false)).
Proof.
  rewrite (suspension_keeps_keys id plain None 10 owner_ola 2 suspend office suspended.1 suspended.2
    (surjective_pairing _) no_faults 20 (bearer_of "hny_k") "hny_k"); vm_compute; reflexivity.
Defined.

(** An update that names a custom role nobody defined. *)
Definition misassigned : UpdateAdminInput := mkUpdateAdmin None (Some false) None None None None None None (Value 77).

Lemma refused_update_keeps_sessions_witness : exists s',
  update_admin plain 10 owner_ola 2 misassigned office = (Err (ApiDb ForeignKeyViolation), s') /\
  (Admin.enabled <$> accounts (store s') !! 2) = Some false /\
  admin_sessions (identities (store s')) = admin_sessions office_auth.
Proof.
  destruct (refused_update_keeps_sessions plain 10 owner_ola 2 misassigned None max 77 office)
    as (s' & Hu & Ha & Hs & _); [done..|].
  exists s'. split; [exact Hu|]. split; [|exact Hs]. rewrite Ha. reflexivity.
Defined.

Definition armed : result (string * string * string) api_error * St :=
  totp_setup plain (fun _ _ => Some "otpauth://x") plain 10 "seed2" owner_ola office.

Lemma setup_disarms_two_factor_witness :
  (login id unit (fun _ => None) (fun _ _ => false) String.eqb (fun _ _ => false) plain to_ascii_lowercase
     (mkClock 0 0 0 0 1000) 33 (Some "token") [] (mkInput "ola" "pw" None None)
     (mkState (identities (store armed.2)) ∅ [] [])).1
  = LoggedIn (with_totp_flag false 10 ola) "token" (1000 + twelve_hours).
Proof.
  refine (setup_disarms_two_factor plain plain id (fun _ _ => false) (fun _ _ => Some "otpauth://x") plain
    unit (fun _ => None) (fun _ _ => false) String.eqb to_ascii_lowercase 10 "seed2" "seed2" owner_ola 1 ola office
    armed.1 armed.2 (mkClock 0 0 0 0 1000) 33 "token" [] (mkInput "ola" "pw" None None) _ _ _ _ _ _ _ _ _ _ _);
    vm_compute; reflexivity.
Defined.

Lemma role_deletion_restores_rank_witness : exists j,
  (identify id None no_faults 20 (cookie_of "max-tok")
     (identities (store (delete_custom_role 10 9 office).2))).1 = Ok (Some (j, true)) /\
  authorized j POST "/users" = true.
Proof.
  destruct (role_deletion_restores_rank id None 10 9 office (delete_custom_role 10 9 office).2 no_faults 20
    (cookie_of "max-tok") "max-tok" max) as (j & Hj & _ & Hr & Hauth);
    [vm_compute; reflexivity..|vm_compute; discriminate|].
  exists j. split; [exact Hj|]. rewrite Hauth. unfold permits. rewrite Hr. reflexivity.
Defined.

Definition ten_bytes (k : nat) : option (list Z) := Some (Z.of_nat k :: [1; 2; 3; 4; 5; 6; 7; 8; 171]).
Definition printed : result (list string * Z) api_error * St :=
  totp_recovery_generate plain id (fun _ _ => true) (fun k => if (k <? 10)%nat then ten_bytes k else None) owner_ola "123456" office.

Lemma printed_ok : answered printed = true.
Proof. vm_compute. reflexivity. Qed.

Lemma recovery_codes_work_witness : exists codes,
  printed.1 = Ok (codes, 10) /\
  (consume_admin_recovery_code 20 1 "OLD" (identities (store printed.2))).1 = false.
Proof.
  destruct (answered_ok _ printed_ok) as [[codes n] H]. exists codes.
  destruct (recovery_codes_work plain id (fun _ _ => true) (fun k => if (k <? 10)%nat then ten_bytes k else None)
    owner_ola "123456" office codes n printed.2 1 H eq_refl) as (-> & _ & Hold).
  - intros k bs. destruct (Nat.ltb_spec k 10); [|done]. intros [= <-]. split; [done|].
    repeat constructor; lia.
  - split; [by rewrite H|]. apply Hold. vm_compute in H. injection H as <-. by apply (bool_decide_unpack _).
Defined.
