(* ===== verification/Delivery.v ===== *)
(** * Public subscription delivery (the /sub and /s routes of
    src/master/src/api/mod.rs)

    Resolving a link to a user, the defaults an operator configures, the
    documents each client gets, and the guard in front of all of it.  The URL,
    base64, QR, JSON and template libraries are parameters, as in the files the
    documents come from. *)

From S2P Require Import Prelude Strings Json Ip Models Db Api RateLimit Settings Access Wg Subscription Documents SubPage Spec Auth Secrets Services Users.
Import Models.SubscriptionEndpoint.

(** ** Requests, responses and state *)

(** A finite number, an infinity or NaN, as a query string carries one. *)
Inductive F64 := NaN | Infinite (negative : bool) | Finite (num : Z) (den : positive).

Inductive Route :=
| Document
| Links
| V2ray
| ClientProfile (client : string)
| Singbox
| SingboxTun
| Clash
| QrAll
| Qr (inbound : Uuid)
| Speedtest (mb : option F64)
| ServiceLinks
| WgList
| WgConfig (iface : Uuid)
| WgQr (iface : Uuid).

Inductive Body :=
| Text (s : string)
| JsonBody (j : json)
| Octets (bytes : list Z).

Record Response := mkResponse {
  r_status : Z;
  r_headers : list (string * string);
  r_body : Body }.

Record World := mkWorld {
  accounts_db : UserDb;
  w_interfaces : list WgInterface.WgInterface;
  w_peers : list WgPeer.WgPeer;
  w_services : list NodeService.NodeService;
  w_profiles : gmap Uuid RoutingProfile.RoutingProfile;
  w_settings : gmap string string }.

Definition w_tables (w : World) : Db := Users.tables (accounts_db w).
Definition w_plane (w : World) : Plane := mkPlane (w_tables w) (w_interfaces w) (w_peers w) (w_services w).
Definition with_peers (peers : list WgPeer.WgPeer) (w : World) : World :=
  mkWorld (accounts_db w) (w_interfaces w) peers (w_services w) (w_profiles w) (w_settings w).

(** [HeaderMap::insert]: one value per name. *)
Definition insert_header (hs : list (string * string)) (h : string * string) : list (string * string) :=
  List.filter (fun x => negb (String.eqb x.1 h.1)) hs ++ [h].
Definition insert_headers (hs extra : list (string * string)) : list (string * string) :=
  fold_left insert_header extra hs.
Definition remove_header (name : string) (hs : list (string * string)) : list (string * string) :=
  List.filter (fun x => negb (String.eqb x.1 name)) hs.

(** ** Clients *)

Inductive SubFormat := FV2ray | FHapp | FClash | FSingbox.

Definition has_any (keys : list string) (ua : string) : bool := existsb (fun k => contains k ua) keys.

Definition format_for_ua (ua : string) : option SubFormat :=
  let ua := to_ascii_lowercase ua in
  if has_any ["clash"; "mihomo"; "stash"; "flclash"; "clashx"] ua then Some FClash
  else if has_any ["sing-box"; "singbox"; "sfa"; "sfi"; "sft"; "hiddify"] ua then Some FSingbox
  else if has_any ["happ"] ua then Some FHapp
  else if has_any ["v2ray"; "nekobox"; "nekoray"; "streisand"; "shadowrocket"; "v2raytun"; "loon"; "surge";
                   "quantumult"; "sagernet"; "matsuri"; "throne"; "karing"; "v2box"] ua then Some FV2ray
  else None.

Definition client_profile_for_ua (ua : string) : option string :=
  let ua := to_ascii_lowercase ua in
  if contains "happ" ua then Some (if contains "android" ua then "happ-android" else "happ-desktop")
  else if contains "karing" ua then Some "karing"
  else (fun _ => "generic") <$> format_for_ua ua.

Definition with_profile (mode fingerprint : string) (e : Endpoint) : Endpoint :=
  if String.eqb (network e) "xhttp" then
    mk (inbound_id e) (node_name e) (address e) (tag e) (kind e) (core e) (listen_port e) (flow e) (tls_enabled e)
      (server_name e) (reality e) (reality_public_key e) (reality_short_ids e) (network e) (transport_path e)
      (transport_host e) (transport_service_name e) (Some mode) (Some fingerprint) (ech e) (extra e) (extra_addresses e)
  else e.

Definition apply_client_profile (es : list Endpoint) (mode fingerprint : string) : list Endpoint :=
  with_profile mode fingerprint <$> es.

Definition subscription_traffic_visible (policy : string) (traffic_limit_bytes : Z) : bool :=
  if String.eqb policy "never" then false
  else if String.eqb policy "always" then true
  else 0 <? traffic_limit_bytes.

(** ** The operator's defaults *)

Definition blank (o : option string) : bool := map_or o true (fun v => is_empty (trim v)).

Definition defaulted (own : option string) (setting : option string) : option string :=
  if blank own then match setting with Some v => if is_empty (trim v) then own else Some v | None => own end
  else own.

Definition with_presentation (title description group : option string) (policy : string) (u : User.User) : User.User :=
  User.mk (User.id u) (User.username u) title description group policy (User.labels u) (User.uuid u)
    (User.password u) (User.enabled u) (User.traffic_limit_bytes u) (User.used_traffic_bytes u)
    (User.expires_at u) (User.device_limit u) (User.routing_profile_id u) (User.quota_interval u)
    (User.quota_reset_at u) (User.created_by u) (User.subscription_alias u) (User.created_at u)
    (User.updated_at u).

Definition apply_subscription_defaults (settings : gmap string string) (u : User.User) : User.User :=
  with_presentation
    (defaulted (User.subscription_title u) (settings !! "default_subscription_title"))
    (defaulted (User.subscription_description u) (settings !! "default_subscription_description"))
    (defaulted (User.subscription_group u) (settings !! "default_subscription_group"))
    (if String.eqb (User.subscription_traffic_policy u) "inherit"
     then default "auto" (opt_filter (one_of ["auto"; "always"; "never"]) (settings !! "subscription_traffic_policy"))
     else User.subscription_traffic_policy u) u.

Definition update_interval (settings : gmap string string) : Z :=
  default 1 (match settings !! "profile_update_interval_hours" with Some v => parse_i64 v | None => None end).

(** ** Speed test *)

(** [(size_mb * 1024.0 * 1024.0) as usize] after [clamp(1.0, 50.0)]: scaling by
    a power of two is exact, the cast truncates, NaN casts to 0. *)
Definition speed_len (mb : option F64) : Z :=
  match default (Finite 10 1) mb with
  | NaN => 0
  | Infinite true => 1048576
  | Infinite false => 52428800
  | Finite num den =>
      if num <? Zpos den then 1048576
      else if 50 * Zpos den <? num then 52428800
      else num * 1048576 / Zpos den
  end.

Definition speed_payload (len : Z) : list Z := (fun i => Z.of_nat i mod 251) <$> seq 0 (Z.to_nat len).

(** ** Documents *)

(** [serde_json::from_value::<AmneziaParams>]. *)
Definition json_u32 (k : string) (j : json) : option Z :=
  let! v := get k j in let! n := as_u64 v in if n <=? u32_max then Some n else None.

Definition amnezia_of_json (j : json) : option AmneziaParams :=
  let! jc := json_u32 "jc" j in let! jmin := json_u32 "jmin" j in let! jmax := json_u32 "jmax" j in
  let! s1 := json_u32 "s1" j in let! s2 := json_u32 "s2" j in
  let! h1 := json_u32 "h1" j in let! h2 := json_u32 "h2" j in let! h3 := json_u32 "h3" j in
  let! h4 := json_u32 "h4" j in Some (mkAmnezia jc jmin jmax s1 s2 h1 h2 h3 h4).

Definition lift_wg {A} (r : result A wg_error) : result A api_error :=
  lift (fun e => match e with WgDb d => ApiDb d | _ => Internal "wireguard" end) r.

Section Serving.
Context (ops : UrlOps) (b64 b64url form_encode to_uppercase : string -> string).
Context (json_compact json_pretty : json -> option string) (of_text : string -> option json).
Context (date timestamp : Z -> string) (TEMPLATE : string) (qr_svg : string -> option string) (header_ok : string -> bool).
Context (encrypt decrypt : string -> option string) (token_hash : string -> string) (uuid_str : Uuid -> string).
Context (sql_lower : string -> string) (collate : string -> string -> bool).
(** The time of the request and what a new WireGuard peer is made of. *)
Context (now : Z) (peer_id : Uuid) (peer_keys : result Keypair wg_error).

#[local] Abbreviation links_of := (endpoint_links ops b64 b64url form_encode json_compact).
#[local] Abbreviation v2ray_of := (v2ray_document ops b64 b64url form_encode json_compact).
#[local] Abbreviation clash_of := (clash_config to_uppercase json_pretty).

Definition client_profile_overrides (settings : gmap string string) (client : string)
    : result (string * string) api_error :=
  bail (BadRequest "unknown subscription client profile") when negb (one_of profile_names client) in
  let profiles := default default_client_profiles
    (match settings !! "subscription_client_profiles" with Some v => of_text v | None => None end) in
  match get client profiles with
  | Some (JObject _ as profile) =>
      Ok (default "packet-up" (get_str "xhttp_mode" profile), default "chrome" (get_str "fingerprint" profile))
  | _ => Err (BadRequest "client profile is not configured")
  end.

Definition valued (name value : string) : list (string * string) := if header_ok value then [(name, value)] else [].

Definition sub_headers (u : User.User) (support_url : option string) (update_interval_hours : Z)
    : list (string * string) :=
  [("content-type", "text/plain; charset=utf-8")]
  ++ (if subscription_traffic_visible (User.subscription_traffic_policy u) (User.traffic_limit_bytes u)
      then [("subscription-userinfo", if header_ok (userinfo_header u) then userinfo_header u else "")] else [])
  ++ valued "profile-update-interval" (show (clamp 1 168 update_interval_hours))
  ++ valued "profile-title" (profile_title_header b64 u)
  ++ (match announce_header b64 now u with Some v => valued "announce" v | None => [] end)
  ++ (match opt_filter (fun v => negb (is_empty (trim v))) (User.subscription_group u) with
      | Some group => valued "profile-group" ("base64:" +:+ b64 group) | None => [] end)
  ++ (match opt_filter (fun v => negb (is_empty (trim v))) support_url with
      | Some v => valued "support-url" v | None => [] end).

Definition subscription_headers (w : World) (u : User.User) : list (string * string) :=
  sub_headers u (w_settings w !! "subscription_support_url") (update_interval (w_settings w)).

Definition routing_profile_for_user (w : World) (user : Uuid) : option RoutingProfile.RoutingProfile :=
  match (let! u := users (w_tables w) !! user in User.routing_profile_id u) with
  | Some id => w_profiles w !! id
  | None => List.find RoutingProfile.is_default (rows (w_profiles w))
  end.

(** *** Resolving the link *)

Definition user_of_token (token : Uuid) (w : World) : result User.User api_error :=
  let? o := lift_db (get_user_by_subscription_token decrypt token_hash uuid_str token (accounts_db w)) in
  match o with
  | Some u => Ok u
  | None => Err (NotFound "subscription not found")
  end.

Definition gone (u : User.User) : option api_error :=
  (fun reason => Gone ("subscription is " +:+ reason)) <$> User.suppressed_reason now u.

Definition user_endpoints (w : World) (u : User.User) : list Endpoint :=
  subscription_endpoints collate (User.id u) (w_tables w).

Definition load_subscription (token : Uuid) (w : World) : result (User.User * list Endpoint) api_error :=
  let? u := user_of_token token w in
  let u := apply_subscription_defaults (w_settings w) u in
  match gone u with
  | Some e => Err e
  | None => Ok (u, expand_endpoints (user_endpoints w u))
  end.

Definition load_subscription_page (token : Uuid) (w : World) : result (User.User * list Endpoint) api_error :=
  let? u := user_of_token token w in
  let u := apply_subscription_defaults (w_settings w) u in
  Ok (u, if User.is_active now u then user_endpoints w u else []).

(** *** Rendering *)

Definition tailored_response (w : World) (fmt : SubFormat) (u : User.User) (es : list Endpoint) : Response :=
  let profile := routing_profile_for_user w (User.id u) in
  let '(content_type, body) :=
    match fmt with
    | FV2ray | FHapp => ("text/plain; charset=utf-8", v2ray_of u es)
    | FSingbox => ("application/json; charset=utf-8", default "" (json_pretty (singbox_config u es false profile)))
    | FClash => ("text/yaml; charset=utf-8", clash_of u es profile)
    end in
  mkResponse 200
    (insert_header
       (insert_headers [("content-type", content_type)] (remove_header "content-type" (subscription_headers w u)))
       ("cache-control", "no-store"))
    (Text body).

(** With the overrides of a client profile. *)
Definition profiled (w : World) (client : string) (es : list Endpoint) : result (list Endpoint) api_error :=
  let? o := client_profile_overrides (w_settings w) client in
  Ok (apply_client_profile es o.1 o.2).

Definition ua_client (hs : headers) : string :=
  default "generic" (let! ua := header "user-agent" hs in client_profile_for_ua ua).

Definition json_response (j : json) : Response := mkResponse 200 [("content-type", "application/json")] (JsonBody j).

Definition link_json (l : EndpointLink) : json :=
  obj [("inbound_id", JString (uuid_str (l_inbound_id l))); ("node", JString (l_node l)); ("tag", JString (l_tag l));
       ("protocol", JString (l_protocol l)); ("core", JString (l_core l)); ("address", JString (l_address l));
       ("port", jint (l_port l)); ("uri", jopt_str (l_uri l)); ("error", jopt_str (l_error l))].

Definition document_json (w : World) (u : User.User) (es : list Endpoint) : json :=
  obj [("id", JString (uuid_str (User.id u))); ("username", JString (User.username u));
       ("status", JString (default "active" (User.suppressed_reason now u)));
       ("created_at", JString (timestamp (User.created_at u)));
       ("expires_at", jopt_str (timestamp <$> User.expires_at u));
       ("traffic_limit_bytes", jint (User.traffic_limit_bytes u));
       ("used_traffic_bytes", jint (User.used_traffic_bytes u));
       ("links", JArray (link_json <$> links_of u es));
       ("singbox_config", singbox_config u es false (routing_profile_for_user w (User.id u)))].

Definition page (w : World) (u : User.User) (token : Uuid) (es : list Endpoint) : Response :=
  let fallback := opt_filter (fun v => negb (is_empty (trim v))) (w_settings w !! "subscription_fallback_base_url") in
  let '(st, hs, body) :=
    html_response (render uuid_str date TEMPLATE now u token (links_of u es) fallback (update_interval (w_settings w))) in
  mkResponse st hs (Text body).

Definition wants_json (hs : headers) : bool :=
  is_some_and (header "accept" hs) (contains "application/json").

Definition subscription_document (token : Uuid) (hs : headers) (w : World) : result Response api_error :=
  match (let! ua := header "user-agent" hs in format_for_ua ua) with
  | Some fmt =>
      let? ue := load_subscription token w in
      let? es := profiled w (ua_client hs) ue.2 in
      Ok (tailored_response w fmt ue.1 es)
  | None =>
      if wants_json hs then
        let? ue := load_subscription token w in
        Ok (json_response (document_json w ue.1 ue.2))
      else
        let? ue := load_subscription_page token w in
        Ok (page w ue.1 token ue.2)
  end.

Definition subscription_links (token : Uuid) (w : World) : result Response api_error :=
  let? ue := load_subscription token w in
  let? es := profiled w "generic" ue.2 in
  Ok (mkResponse 200 (subscription_headers w ue.1) (Text (join nl (omap l_uri (links_of ue.1 es)) +:+ nl))).

Definition subscription_v2ray (token : Uuid) (w : World) : result Response api_error :=
  let? ue := load_subscription token w in
  let? es := profiled w "generic" ue.2 in
  Ok (mkResponse 200 (subscription_headers w ue.1) (Text (v2ray_of ue.1 es))).

Definition subscription_client_profile (client : string) (token : Uuid) (w : World) : result Response api_error :=
  let? ue := load_subscription token w in
  let? es := profiled w client ue.2 in
  Ok (tailored_response w FV2ray ue.1 es).

Definition subscription_singbox (tun : bool) (token : Uuid) (w : World) : result Response api_error :=
  let? ue := load_subscription token w in
  Ok (json_response (singbox_config ue.1 ue.2 tun (routing_profile_for_user w (User.id ue.1)))).

Definition subscription_clash (token : Uuid) (w : World) : result Response api_error :=
  let? ue := load_subscription token w in
  Ok (mkResponse 200
        (insert_headers [("content-type", "text/yaml; charset=utf-8")]
           (remove_header "content-type" (subscription_headers w ue.1)))
        (Text (clash_of ue.1 ue.2 (routing_profile_for_user w (User.id ue.1))))).

Definition svg (text : string) (hs : list (string * string)) : result Response api_error :=
  match qr_svg text with
  | Some s => Ok (mkResponse 200 (("content-type", "image/svg+xml; charset=utf-8") :: hs) (Text s))
  | None => Err (Internal "qr render")
  end.

Definition subscription_qr (inbound : Uuid) (token : Uuid) (w : World) : result Response api_error :=
  let? ue := load_subscription token w in
  match (let! l := List.find (fun l => l_inbound_id l =? inbound) (links_of ue.1 ue.2) in l_uri l) with
  | Some uri => svg uri [("cache-control", "no-store")]
  | None => Err (NotFound "subscription endpoint not found")
  end.

(** Where the link points to: the configured address, or the one of the request. *)
Definition link_origin (hs : headers) (settings : gmap string string) : string :=
  let host := default "" (header "host" hs) in
  let scheme := default "https" (header "x-forwarded-proto" hs) in
  default (scheme +:+ "://" +:+ host)
    (opt_filter (fun v => negb (is_empty v))
       ((fun v => trim_end_matches "/" (trim v)) <$> settings !! "subscription_fallback_base_url")).

Definition subscription_qr_all (token : Uuid) (hs : headers) (w : World) : result Response api_error :=
  let? u := user_of_token token w in
  let path := match User.subscription_alias u with
              | Some alias => "/s/" +:+ alias
              | None => "/sub/" +:+ uuid_str token
              end in
  svg (link_origin hs (w_settings w) +:+ path) [("cache-control", "no-store")].

Definition subscription_speedtest (mb : option F64) (token : Uuid) (w : World) : result Response api_error :=
  let? _ := load_subscription token w in
  Ok (mkResponse 200 [("content-type", "application/octet-stream"); ("cache-control", "no-store")]
        (Octets (speed_payload (speed_len mb)))).

Definition subscription_services (token : Uuid) (w : World) : result Response api_error :=
  let? ue := load_subscription token w in
  let? services := lift_db (node_services_for_user decrypt (User.id ue.1) (w_plane w)) in
  Ok (json_response (JArray (omap service_entry services))).

(** *** WireGuard *)

Definition wg_interfaces_for_user (user : Uuid) (w : World) : result (list WgInterface.WgInterface) db_error :=
  let visible i := WgInterface.enabled i
    && is_some_and (nodes (w_tables w) !! WgInterface.node_id i) Node.enabled
    && can_reach user (WgInterface.node_id i) (w_tables w) in
  try_map (decrypt_wg_interface decrypt)
    (sort_by (fun a b => WgInterface.created_at a <=? WgInterface.created_at b)
       (List.filter visible (w_interfaces w))).

Definition subscription_wg_list (token : Uuid) (w : World) : result Response api_error :=
  let? ue := load_subscription token w in
  let? ifaces := lift_db (wg_interfaces_for_user (User.id ue.1) w) in
  Ok (json_response (JArray ((fun i => obj [("id", JString (uuid_str (WgInterface.id i)));
                                            ("name", JString (WgInterface.name i));
                                            ("amnezia", JBool (WgInterface.amnezia i))]) <$> ifaces))).

Definition safe_name (name : string) : string :=
  let safe := concat_chars ((fun ch => if all_bytes is_alphanumeric ch then ch else "-") <$> chars name) in
  if is_empty safe then "wireguard" else safe.

(** The peer is allocated on the first fetch and kept even when a later step
    fails. *)
Definition build_wg_config (u : User.User) (iface_id : Uuid) (w : World)
    : result (string * string) api_error * World :=
  match lift_db (wg_interfaces_for_user (User.id u) w) with
  | Err e => (Err e, w)
  | Ok ifaces =>
      match List.find (fun i => WgInterface.id i =? iface_id) ifaces with
      | None => (Err (NotFound "wireguard interface not available"), w)
      | Some iface =>
          match lift_wg (ensure_wg_peer encrypt decrypt peer_id now peer_keys iface (User.id u) (w_peers w)) with
          | Err e => (Err e, w)
          | Ok (peer, peers) =>
              ((match nodes (w_tables w) !! WgInterface.node_id iface with
                | None => Err (NotFound "node not found")
                | Some node =>
                    let host := default (Node.address node)
                      (opt_filter (fun h => negb (is_empty (trim h))) (WgInterface.endpoint_host iface)) in
                    Ok (client_config (mkClientConfig (WgPeer.private_key peer) (WgPeer.address peer)
                          (WgInterface.dns iface) (WgInterface.mtu iface) (WgInterface.public_key iface)
                          (host +:+ ":" +:+ show (WgInterface.listen_port iface))
                          (if WgInterface.amnezia iface then amnezia_of_json (WgInterface.amnezia_params iface) else None)),
                        safe_name (WgInterface.name iface))
                end), with_peers peers w)
          end
      end
  end.

Definition subscription_wg (iface : Uuid) (token : Uuid) (w : World) (show_config : string * string -> result Response api_error)
    : result Response api_error * World :=
  match load_subscription token w with
  | Err e => (Err e, w)
  | Ok ue =>
      let '(r, w') := build_wg_config ue.1 iface w in
      ((let? c := r in show_config c), w')
  end.

Definition quote : string := String (ascii_of_N 34) "".

Definition wg_attachment (c : string * string) : result Response api_error :=
  Ok (mkResponse 200 [("content-type", "text/plain; charset=utf-8");
                      ("content-disposition", "attachment; filename=" +:+ quote +:+ c.2 +:+ ".conf" +:+ quote)] (Text c.1)).

(** *** The routes *)

Definition serve (route : Route) (token : Uuid) (hs : headers) (w : World) : result Response api_error * World :=
  match route with
  | Document => (subscription_document token hs w, w)
  | Links => (subscription_links token w, w)
  | V2ray => (subscription_v2ray token w, w)
  | ClientProfile client => (subscription_client_profile client token w, w)
  | Singbox => (subscription_singbox false token w, w)
  | SingboxTun => (subscription_singbox true token w, w)
  | Clash => (subscription_clash token w, w)
  | QrAll => (subscription_qr_all token hs w, w)
  | Qr inbound => (subscription_qr inbound token w, w)
  | Speedtest mb => (subscription_speedtest mb token w, w)
  | ServiceLinks => (subscription_services token w, w)
  | WgList => (subscription_wg_list token w, w)
  | WgConfig iface => subscription_wg iface token w wg_attachment
  | WgQr iface => subscription_wg iface token w (fun c => svg c.1 [])
  end.

(** /s/:alias: a client app gets its document, a browser the permanent link. *)
Definition subscription_by_alias (alias : string) (hs : headers) (w : World) : result Response api_error :=
  let? o := lift_db (get_user_by_alias decrypt sql_lower alias (accounts_db w)) in
  match o with
  | None => Err (NotFound "subscription not found")
  | Some u =>
      let u := apply_subscription_defaults (w_settings w) u in
      match (let! ua := header "user-agent" hs in format_for_ua ua) with
      | Some fmt =>
          match gone u with
          | Some e => Err e
          | None =>
              let? es := profiled w (ua_client hs) (expand_endpoints (user_endpoints w u)) in
              Ok (tailored_response w fmt u es)
          end
      | None => Ok (mkResponse 303 [("location", "/sub/" +:+ uuid_str (User.id u))] (Text ""))
      end
  end.

(** *** The operator's preview *)

Definition preview_warning (e : Endpoint) : option string :=
  if tls_enabled e && map_or (server_name e) true (fun v => is_empty (trim v)) then Some "TLS endpoint has no SNI"
  else if String.eqb (kind e) "shadowsocks" && map_or (get_str "method" (extra e)) true is_empty
  then Some "Shadowsocks method is missing"
  else None.

Definition preview_endpoint (e : Endpoint) : json :=
  obj [("name", JString (client_label_from_endpoint e)); ("protocol", JString (kind e)); ("network", JString (network e));
       ("xhttp_mode", if String.eqb (network e) "xhttp" then JString (default "auto" (transport_mode e)) else JNull);
       ("fingerprint", if tls_enabled e || reality e then JString (default "qq" (utls_fingerprint e)) else JNull);
       ("warning", jopt_str (preview_warning e))].

Definition subscription_preview (i : Identity) (id : Uuid) (client : option string) (w : World) : result json api_error :=
  let? u := (owned_user decrypt i id (Handler.mkSt (accounts_db w) [])).1 in
  let u := apply_subscription_defaults (w_settings w) u in
  let client := default "generic" client in
  let? es := profiled w client (expand_endpoints (subscription_endpoints collate id (w_tables w))) in
  Ok (obj [("client", JString client); ("title", JString (profile_title u));
           ("description", jopt_str (User.subscription_description u)); ("group", jopt_str (User.subscription_group u));
           ("traffic_header",
            JBool (subscription_traffic_visible (User.subscription_traffic_policy u) (User.traffic_limit_bytes u)));
           ("profile_update_interval_hours", jint (clamp 1 168 (update_interval (w_settings w))));
           ("permanent_subscription_path", JString ("/sub/" +:+ uuid_str (User.id u)));
           ("profile_path", JString ("/sub/" +:+ uuid_str (User.id u) +:+ "/profile/" +:+ client));
           ("endpoints", JArray (preview_endpoint <$> es));
           ("warnings", jstrs (match es with [] => ["No accessible endpoints"] | _ => [] end))]).
End Serving.

(** ** The guard *)

Definition subscription_path_identity (path : string) : option (string * string) :=
  match split "/" (trim_start_matches "/" path) with
  | "sub" :: value :: _ => if is_empty value then None else Some ("token", value)
  | "s" :: value :: _ => if is_empty value then None else Some ("alias", value)
  | _ => None
  end.

Record Incoming := mkIncoming {
  i_path : string;
  i_headers : headers;
  i_peer : option string }.

Definition request_remote (r : Incoming) : string :=
  default "unknown"
    (opt_or (opt_filter (fun v => is_some (parse_ip v)) (forwarded_remote (i_headers r))) (i_peer r)).

Definition security_headers : list (string * string) :=
  [("cache-control", "private, no-store, max-age=0"); ("pragma", "no-cache"); ("referrer-policy", "no-referrer");
   ("x-content-type-options", "nosniff")].

Definition apply_subscription_security_headers (r : Response) : Response :=
  mkResponse (r_status r) (insert_headers (r_headers r) security_headers) (r_body r).

Section Guard.
Context (decrypt : string -> option string) (token_hash : string -> string) (uuid_str : Uuid -> string)
  (uuid_parse : string -> option Uuid) (sql_lower spec_hash : string -> string).

Definition resolved (r : result (option User.User) db_error) : option Uuid :=
  match r with Ok (Some u) => Some (User.id u) | _ => None end.

Definition subscription_guard_subject (path : string) (db : UserDb) : string :=
  match subscription_path_identity path with
  | None => "unknown"
  | Some (kind, value) =>
      let user_id :=
        if String.eqb kind "token" then
          match uuid_parse value with
          | Some token => resolved (get_user_by_subscription_token decrypt token_hash uuid_str token db)
          | None => None
          end
        else resolved (get_user_by_alias decrypt sql_lower value db) in
      match user_id with
      | Some id => uuid_str id
      | None => "invalid:" +:+ spec_hash value
      end
  end.

Definition guard_key (r : Incoming) (db : UserDb) : string :=
  spec_hash (request_remote r) +:+ ":" +:+ spec_hash (subscription_guard_subject (i_path r) db).

Definition limited (retry_after : Z) : Response :=
  mkResponse 429 [("content-type", "application/json"); ("retry-after", show retry_after)]
    (JsonBody (obj [("error", JString "subscription request limit exceeded"); ("code", JString "M1701");
                    ("retry_after", jint retry_after)])).

(** [next] is the route; an error of it is a response by then. *)
Definition require_subscription_access (unix t : Z) (next : World -> Response * World) (r : Incoming)
    (limiter : RateLimit.Subscription.SubscriptionLimiter) (w : World)
    : Response * RateLimit.Subscription.SubscriptionLimiter * World :=
  let config := subscription_guard_config (Ok (w_settings w)) in
  match RateLimit.Subscription.check config unix t (guard_key r (accounts_db w)) limiter with
  | (RateLimit.Subscription.Allow, limiter') =>
      let '(response, w') := next w in (apply_subscription_security_headers response, limiter', w')
  | (RateLimit.Subscription.Block retry_after, limiter') =>
      (apply_subscription_security_headers (limited retry_after), limiter', w)
  end.
End Guard.

(** ** Properties *)

Section Facts.
Context (ops : UrlOps) (b64 b64url form_encode to_uppercase : string -> string).
Context (json_compact json_pretty : json -> option string) (of_text : string -> option json).
Context (date timestamp : Z -> string) (TEMPLATE : string) (qr_svg : string -> option string) (header_ok : string -> bool).
Context (encrypt decrypt : string -> option string) (token_hash : string -> string) (uuid_str : Uuid -> string).
Context (sql_lower spec_hash : string -> string) (collate : string -> string -> bool) (uuid_parse : string -> option Uuid).
Context (now : Z) (peer_id : Uuid) (peer_keys : result Keypair wg_error).

#[local] Abbreviation serving :=
  (serve ops b64 b64url form_encode to_uppercase json_compact json_pretty of_text date timestamp TEMPLATE qr_svg
     header_ok encrypt decrypt token_hash uuid_str collate now peer_id peer_keys).
#[local] Abbreviation aliased :=
  (subscription_by_alias ops b64 b64url form_encode to_uppercase json_compact json_pretty of_text header_ok decrypt uuid_str sql_lower
     collate now).
#[local] Abbreviation the_page := (page ops b64 b64url form_encode json_compact date TEMPLATE uuid_str now).
#[local] Abbreviation resolve := (user_of_token decrypt token_hash uuid_str).

Lemma defaults_suppressed settings u :
  User.suppressed_reason now (apply_subscription_defaults settings u) = User.suppressed_reason now u.
Proof. done. Qed.

Lemma load_suppressed token w u reason :
  resolve token w = Ok u -> User.suppressed_reason now u = Some reason ->
  load_subscription decrypt token_hash uuid_str collate now token w = Err (Gone ("subscription is " +:+ reason)).
Proof.
  intros Hu Hr. unfold load_subscription. rewrite Hu. simpl. unfold gone.
  by rewrite defaults_suppressed, Hr.
Qed.

Lemma page_credentials uuid password w u token :
  the_page w (User.with_credentials uuid password u) token [] = the_page w u token [].
Proof.
  assert (H : forall f n, placeholders uuid_str date now (User.with_credentials uuid password u) token [] f n
    = placeholders uuid_str date now u token [] f n) by (intros f n; by destruct u).
  unfold page, render. cbn [endpoint_links fmap list_fmap]. by rewrite H.
Qed.

(** The link a QR code leads to: the alias when there is one, or the token it was
    asked with. *)
Definition own_link (token : Uuid) (hs : headers) (w : World) (alias : option string) : string :=
  link_origin hs (w_settings w) +:+ match alias with Some a => "/s/" +:+ a | None => "/sub/" +:+ uuid_str token end.

Lemma suppressed_by_token route token hs w u reason :
  resolve token w = Ok u -> User.suppressed_reason now u = Some reason ->
  (serving route token hs w).2 = w /\
  match (serving route token hs w).1 with
  | Err e => e = Gone ("subscription is " +:+ reason) \/ (route = QrAll /\ e = Internal "qr render")
  | Ok r =>
      (route = QrAll /\ exists svg, qr_svg (own_link token hs w (User.subscription_alias u)) = Some svg /\ r_body r = Text svg) \/
      (route = Document /\ wants_json hs = false /\
       forall uuid password,
         r = the_page w (User.with_credentials uuid password (apply_subscription_defaults (w_settings w) u)) token [])
  end.
Proof.
  intros Hu Hr. assert (Hl := load_suppressed token w u reason Hu Hr).
  destruct route; cbn [serve];
    unfold subscription_document, subscription_links, subscription_v2ray, subscription_client_profile,
      subscription_singbox, subscription_clash, subscription_qr, subscription_speedtest, subscription_services,
      subscription_wg_list, subscription_wg; rewrite ?Hl; try (by split; [|left]).
  - destruct (let! ua := header "user-agent" hs in format_for_ua ua); [by split; [|left]|].
    destruct (wants_json hs) eqn:Ej; [by split; [|left]|]. split; [done|].
    unfold load_subscription_page. rewrite Hu. simpl. right. split; [done|]. split; [done|].
    intros uuid password. rewrite page_credentials. unfold User.is_active. rewrite defaults_suppressed, Hr. done.
  - split; [done|]. unfold subscription_qr_all. rewrite Hu. simpl. unfold svg, own_link.
    destruct (qr_svg _) as [s|] eqn:Eq; [left|by right]. eauto.
Qed.


(** *** The guard *)

(** What follows the link in a path: nothing, or more segments. *)
Definition segments_after (suffix : string) : Prop := suffix = "" \/ exists s, suffix = String "/" s.

(** A path segment of its own. *)
Definition one_segment (x : string) : bool :=
  all_bytes (fun c => negb (Ascii.eqb c "/")) x && negb (is_empty x).

Lemma split_segment x suffix :
  one_segment x = true -> segments_after suffix -> exists l, split "/" (x +:+ suffix) = x :: l.
Proof.
  intros Hx [->|[s ->]]; apply andb_true_iff in Hx as [Hx _].
  - rewrite string_app_empty, split_no_sep by done. eauto.
  - rewrite split_app by done. eauto.
Qed.

Lemma identity_token x suffix :
  one_segment x = true -> segments_after suffix ->
  subscription_path_identity ("/sub/" +:+ x +:+ suffix) = Some ("token", x).
Proof.
  intros Hx Hs. unfold subscription_path_identity.
  change (trim_start_matches "/" ("/sub/" +:+ x +:+ suffix)) with ("sub/" +:+ x +:+ suffix).
  destruct (split_segment x suffix Hx Hs) as [l Hl]. change (split "/" ("sub/" +:+ x +:+ suffix)) with
    ("sub" :: split "/" (x +:+ suffix)). rewrite Hl. apply andb_true_iff in Hx as [_ Hx].
  by rewrite (proj1 (negb_true_iff _) Hx).
Qed.

Lemma identity_alias x suffix :
  one_segment x = true -> segments_after suffix ->
  subscription_path_identity ("/s/" +:+ x +:+ suffix) = Some ("alias", x).
Proof.
  intros Hx Hs. unfold subscription_path_identity.
  change (trim_start_matches "/" ("/s/" +:+ x +:+ suffix)) with ("s/" +:+ x +:+ suffix).
  destruct (split_segment x suffix Hx Hs) as [l Hl]. change (split "/" ("s/" +:+ x +:+ suffix)) with
    ("s" :: split "/" (x +:+ suffix)). rewrite Hl. apply andb_true_iff in Hx as [_ Hx].
  by rewrite (proj1 (negb_true_iff _) Hx).
Qed.

Lemma alias_plain a : valid_alias a = true -> one_segment a = true /\ trim a = a.
Proof.
  intros H. apply andb_true_iff in H as [H Hb]. apply andb_true_iff in H as [H _].
  assert (Hp : forall q : ascii -> bool,
    (forall c, is_alphanumeric c || Ascii.eqb c "-" || Ascii.eqb c "_" = true -> q c = true) -> all_bytes q a = true)
    by (intros q Hq; eapply all_bytes_impl; [exact Hq|exact Hb]).
  split; [|apply trim_plain, Hp; by intros [[] [] [] [] [] [] [] []]].
  unfold one_segment. rewrite Hp by (by intros [[] [] [] [] [] [] [] []]). by destruct a.
Qed.

Section Links.
(** The textual form of a uuid is one path segment and parses back. *)
Context (uuid_roundtrip : forall x, uuid_parse (uuid_str x) = Some x)
  (uuid_segment : forall x, one_segment (uuid_str x) = true).

#[local] Abbreviation subject := (subscription_guard_subject decrypt token_hash uuid_str uuid_parse sql_lower spec_hash).

Lemma subject_token tok u suffix db :
  segments_after suffix ->
  get_user_by_subscription_token decrypt token_hash uuid_str tok db = Ok (Some u) ->
  subject ("/sub/" +:+ uuid_str tok +:+ suffix) db = uuid_str (User.id u).
Proof.
  intros Hs Hu. unfold subscription_guard_subject. rewrite identity_token by done. cbn [String.eqb]. simpl. by rewrite uuid_roundtrip, Hu.
Qed.

(** A user's rate budget is one budget: the revocable token, the permanent
    link and the alias of a user, on every route under them, count against the
    same guard key for a client. *)
Theorem guard_counts_user_once k row u t tok a suffix r1 r2 r3 db :
  users (Users.tables db) !! k = Some row -> decrypt_user decrypt row = Ok u -> User.id row = k ->
  tokens db !! k = Some t -> tk_hash t = token_hash (uuid_str tok) -> digests_unique db ->
  not_a_token token_hash uuid_str k db ->
  User.subscription_alias row = Some a -> valid_alias a = true ->
  (forall v b, In v (rows (users (Users.tables db))) -> User.subscription_alias v = Some b ->
     sql_lower b = sql_lower a -> v = row) ->
  segments_after suffix ->
  i_path r1 = "/sub/" +:+ uuid_str tok +:+ suffix -> i_path r2 = "/sub/" +:+ uuid_str k +:+ suffix ->
  i_path r3 = "/s/" +:+ a ->
  request_remote r1 = request_remote r2 -> request_remote r2 = request_remote r3 ->
  let key r := guard_key decrypt token_hash uuid_str uuid_parse sql_lower spec_hash r db in
  key r1 = key r2 /\ key r2 = key r3.
Proof.
  intros Hrow Hd Hid Ht Hh Huniq Hperm Ha Hva Hau Hsuf H1 H2 H3 Hr12 Hr23 key.
  assert (Hu : User.id u = k) by (by rewrite (decrypt_user_id _ _ _ Hd)).
  assert (S1 : subject (i_path r1) db = uuid_str k).
  { rewrite H1, <- Hu. apply subject_token; [done|]. eapply (token_resolves _ _ _ k); try done.
    intros k' t' Hk' Ht'. apply (Huniq k' k t' t); congruence. }
  assert (S2 : subject (i_path r2) db = uuid_str k).
  { rewrite H2, <- Hu. apply subject_token; [done|]. rewrite Hu. by eapply permanent_resolves. }
  assert (S3 : subject (i_path r3) db = uuid_str k).
  { destruct (alias_plain a Hva) as [Hseg Htr]. rewrite H3. unfold subscription_guard_subject.
    replace ("/s/" +:+ a) with ("/s/" +:+ a +:+ "") by (by rewrite string_app_empty).
    rewrite identity_alias by (done || by left). cbn [String.eqb]. simpl. unfold get_user_by_alias.
    destruct (List.find _ (rows (users (Users.tables db)))) as [v|] eqn:Ef.
    - apply List.find_some in Ef as [Hin Hv]. destruct (User.subscription_alias v) as [b|] eqn:Eb; [|done].
      simpl in Hv. apply String.eqb_eq in Hv. rewrite Htr in Hv. rewrite (Hau v b Hin Eb Hv). simpl.
      by rewrite Hd, <- Hu.
    - apply (List.find_none _ _) with (x := row) in Ef; [|by apply in_rows; eauto].
      rewrite Ha in Ef. simpl in Ef. by rewrite Htr, String.eqb_refl in Ef. }
  unfold key, guard_key. by rewrite S1, S2, S3, Hr12, Hr23.
Qed.

(** The guard reads the raw path where the router decodes it: a link with a
    percent-encoded byte is served to the user it decodes to, but is counted
    under a key of its own spelling, never under the user's; two spellings have
    two budgets. *)
Theorem encoded_link_escapes_budget (percent_decode : string -> string) tok v1 v2 k r1 r2 r db :
  percent_decode v1 = uuid_str tok -> percent_decode v2 = uuid_str tok ->
  (forall v, any_byte (Ascii.eqb "%") v = true -> uuid_parse v = None) ->
  (forall x y, spec_hash x = spec_hash y -> x = y) ->
  (forall x y, "invalid:" +:+ x <> uuid_str y) ->
  any_byte (Ascii.eqb "%") v1 = true -> any_byte (Ascii.eqb "%") v2 = true -> v1 <> v2 ->
  one_segment v1 = true -> one_segment v2 = true ->
  i_path r1 = "/sub/" +:+ v1 -> i_path r2 = "/sub/" +:+ v2 -> subject (i_path r) db = uuid_str k ->
  request_remote r1 = request_remote r -> request_remote r2 = request_remote r ->
  let key r := guard_key decrypt token_hash uuid_str uuid_parse sql_lower spec_hash r db in
  uuid_parse (percent_decode v1) = Some tok /\ uuid_parse (percent_decode v2) = Some tok /\
  key r1 <> key r2 /\ key r1 <> key r /\ key r2 <> key r.
Proof.
  intros D1 D2 Hp Hinj Hinv P1 P2 Hne S1 S2 H1 H2 Hk R1 R2 key.
  assert (Hsub : forall v, any_byte (Ascii.eqb "%") v = true -> one_segment v = true ->
    subject ("/sub/" +:+ v) db = "invalid:" +:+ spec_hash v).
  { intros v Hv Hseg. unfold subscription_guard_subject. replace ("/sub/" +:+ v) with ("/sub/" +:+ v +:+ "")
      by (by rewrite string_app_empty). rewrite identity_token by (done || by left). simpl. by rewrite Hp. }
  assert (Hkey : forall x y : string, forall c, c +:+ ":" +:+ spec_hash x = c +:+ ":" +:+ spec_hash y -> x = y).
  { intros x y c H. apply (inj (String.append c)) in H. injection H as H. by apply Hinj. }
  split; [by rewrite D1|]. split; [by rewrite D2|].
  unfold key, guard_key. rewrite H1, H2, !Hsub, R1, R2, Hk by done. split_and!.
  - intros H. apply Hkey, (inj (String.append "invalid:")), Hinj in H. done.
  - intros H. apply Hkey in H. by apply Hinv in H.
  - intros H. apply Hkey in H. by apply Hinv in H.
Qed.
End Links.

(** The JSON document behind any link of a user, a revocable one included,
    names the user's id, which is the permanent link: it keeps resolving in
    every later state the user exists in, whatever was rotated meanwhile. *)
Theorem document_discloses_permanent_link token hs w r :
  (let! ua := header "user-agent" hs in format_for_ua ua) = None -> wants_json hs = true ->
  (serving Document token hs w).1 = Ok r ->
  exists u j, resolve token w = Ok u /\ r_body r = JsonBody j /\
    get_str "id" j = Some (uuid_str (User.id u)) /\
    forall w' row v, users (w_tables w') !! User.id u = Some row -> decrypt_user decrypt row = Ok v ->
      not_a_token token_hash uuid_str (User.id u) (accounts_db w') -> resolve (User.id u) w' = Ok v.
Proof.
  intros Hua Hj. cbn [serve fst]. unfold subscription_document. rewrite Hua, Hj. unfold load_subscription.
  destruct (resolve token w) as [u|]; [|done]. simpl. destruct (gone _ _); [done|]. intros [= <-].
  exists u. eexists. split; [done|]. split; [reflexivity|]. split; [reflexivity|].
  intros w' row v Hrow Hd Hn. unfold user_of_token.
  by rewrite (permanent_resolves decrypt token_hash uuid_str (User.id u) row v).
Qed.
End Facts.

(** ** Witnesses *)

(** Uuids printed and read in decimal. *)
Definition read_z (s : string) : option Z :=
  match s with String "-" r => Z.opp <$> digits_value 0 r | _ => digits_value 0 s end.

Lemma read_show x : read_z (show x) = Some x.
Proof.
  unfold show. destruct x as [|p|p]; [done| |].
  - destruct (pretty_N_digits (N.pos p)) as (Hd & Hv & Hne). change (pretty (Z.pos p)) with (pretty (N.pos p)).
    unfold read_z. destruct (pretty (N.pos p)) as [|c s]; [done|]. rewrite Hv.
    cbn [all_bytes] in Hd. apply andb_true_iff in Hd as [Hd _]. by destruct c as [[] [] [] [] [] [] [] []].
  - destruct (pretty_N_digits (N.pos p)) as (_ & Hv & _).
    change (pretty (Z.neg p)) with (String "-" (pretty (N.pos p))). simpl. by rewrite Hv.
Qed.

Lemma show_segment x : one_segment (show x) = true.
Proof.
  unfold one_segment. rewrite show_bytes; [|done|by intros [[] [] [] [] [] [] [] []]].
  assert (H := read_show x). by destruct (show x) eqn:E; [destruct x|].
Qed.

Lemma read_percent v : any_byte (Ascii.eqb "%") v = true -> read_z v = None.
Proof.
  assert (Hd : forall s acc, any_byte (Ascii.eqb "%") s = true -> digits_value acc s = None).
  { induction s as [|c s IH]; intros acc; [done|]. cbn [any_byte digits_value].
    destruct (Ascii.eqb_spec "%" c) as [<-|]; [done|]. simpl. intros H. destruct (is_digit c); [by apply IH|done]. }
  intros H. unfold read_z. destruct v as [|c v]; [done|].
  destruct (decide (c = "-"%char)) as [->|Hne]; [by rewrite Hd|].
  rewrite <- (Hd (String c v) 0 H). by destruct c as [[] [] [] [] [] [] [] []].
Qed.

Definition expired_row : User.User :=
  User.mk 21 "ann" None None None "inherit" [] "22" "pw" true 0 0 (Some 5) 0 None "none" None (Some 7) (Some "ann-home") 1 1.
Definition fresh_row : User.User :=
  User.mk 21 "ann" None None None "inherit" [] "22" "pw" true 0 0 None 0 None "none" None (Some 7) (Some "ann-home") 1 1.
Definition one_user (row : User.User) : UserDb :=
  mkUserDb (mkDb ∅ ∅ {[21 := row]} ∅ ∅ ∅ ∅ ∅) {[21 := mkToken "23" None]} ∅ ∅ empty_auth.
Definition home (row : User.User) : World := mkWorld (one_user row) [] [] [] ∅ ∅.

Definition fetch (route : Route) (token : Uuid) (hs : headers) (w : World) : result Response api_error * World :=
  serve text_url id id id id (fun _ => Some "") (fun _ => Some "") (fun _ => None) show show "{{TITLE}}" (fun _ => None)
    (fun _ => true) plain plain id show String.leb 10 0 (Err Wg.RngFailed) route token hs w.

Definition fetch_alias (alias : string) (hs : headers) (w : World) : result Response api_error :=
  subscription_by_alias text_url id id id id (fun _ => Some "") (fun _ => Some "") (fun _ => None) (fun _ => true) plain show
    to_ascii_lowercase String.leb 10 alias hs w.


Lemma document_discloses_permanent_link_witness :
  exists j, (exists r, (fetch Document 23 [("accept", "application/json")] (home fresh_row)).1 = Ok r /\ r_body r = JsonBody j) /\
    get_str "id" j = Some "21".
Proof.
  destruct (fetch Document 23 [("accept", "application/json")] (home fresh_row)).1 as [r|] eqn:E; [|discriminate E].
  destruct (document_discloses_permanent_link text_url id id id id (fun _ => Some "") (fun _ => Some "") (fun _ => None) show
    show "{{TITLE}}" (fun _ => None) (fun _ => true) plain plain id show String.leb 10 0 (Err Wg.RngFailed) 23
    [("accept", "application/json")] (home fresh_row) r eq_refl eq_refl E) as (u & j & Hu & Hb & Hi & _).
  exists j. split; [by exists r|]. rewrite Hi. injection Hu as <-. reflexivity.
Defined.

Lemma one_user_tokens row k t : tokens (one_user row) !! k = Some t -> k = 21 /\ t = mkToken "23" None.
Proof. cbn [tokens one_user]. intros H. by apply lookup_singleton_Some in H as [<- <-]. Qed.

Definition asks (path : string) : Incoming := mkIncoming path [] (Some "198.51.100.7").

Lemma one_user_rows row v : In v (rows (users (Users.tables (one_user row)))) -> v = row.
Proof.
  intros H. apply in_rows in H as [k H]. cbn [one_user Users.tables users] in H.
  by apply lookup_singleton_Some in H as [_ <-].
Qed.

Lemma guard_counts_user_once_witness :
  let key path := guard_key plain id show read_z to_ascii_lowercase id (asks path) (one_user fresh_row) in
  key "/sub/23/clash" = key "/sub/21/clash" /\ key "/sub/21/clash" = key "/s/ann-home".
Proof.
  refine (guard_counts_user_once plain id show to_ascii_lowercase id read_z read_show show_segment 21 fresh_row fresh_row
    (mkToken "23" None) 23 "ann-home" "/clash" (asks "/sub/23/clash") (asks "/sub/21/clash") (asks "/s/ann-home")
    (one_user fresh_row) eq_refl eq_refl eq_refl eq_refl eq_refl _ _ eq_refl eq_refl _ _ eq_refl eq_refl eq_refl eq_refl eq_refl).
  - intros k k' t t' Hk Hk' _. apply one_user_tokens in Hk as [-> _]. by apply one_user_tokens in Hk' as [-> _].
  - intros k t Hk. apply one_user_tokens in Hk as [-> ->]. done.
  - intros v b Hv _ _. by apply one_user_rows in Hv.
  - right. by exists "clash".
Defined.

(** Decoding of the two encodings of 23 used below. *)
Definition decode23 (v : string) : string := if one_of ["2%33"; "%323"] v then "23" else v.

Lemma encoded_link_escapes_budget_witness :
  let key path := guard_key plain id show read_z to_ascii_lowercase id (asks path) (one_user fresh_row) in
  key "/sub/2%33" <> key "/sub/%323" /\ key "/sub/2%33" <> key "/sub/23".
Proof.
  destruct (encoded_link_escapes_budget plain id show to_ascii_lowercase id read_z read_show decode23 23 "2%33" "%323" 21
    (asks "/sub/2%33") (asks "/sub/%323") (asks "/sub/23") (one_user fresh_row)) as (_ & _ & H1 & H2 & _);
    try reflexivity; try done; [apply read_percent|].
  intros x y H. assert (Hr := read_show y). rewrite <- H in Hr. done.
Defined.
