(* ===== verification/Issues.v ===== *)
(** * The health cockpit (src/master/src/issues.rs)

    Issues are derived from a snapshot of nodes, inbounds, managed domains,
    users and certificates.  Times are microseconds; the textual form of an id
    is a parameter. *)

From S2P Require Import Prelude Strings Json Models Db Enroll.

Definition NODE_ONLINE_WINDOW : Z := 120 * 1000000.
Definition CERT_EXPIRY_WINDOW : Z := 14 * 86400 * 1000000.

Inductive IssueSeverity := Critical | Warning | Info.
#[export] Instance IssueSeverity_eq_dec : EqDecision IssueSeverity.
Proof. solve_decision. Defined.

Definition rank (s : IssueSeverity) : Z :=
  match s with Critical => 0 | Warning => 1 | Info => 2 end.

Record Issue := mkIssue {
  i_id : string;
  severity : IssueSeverity;
  i_code : string;
  i_kind : string;
  title : string;
  message : string;
  entity_type : string;
  entity_id : Uuid;
  entity_label : string;
  i_labels : list string;
  i_node_id : option Uuid;
  action : option string;
  detected_at : option Z }.

Record IssueCounts := mkCounts { total : Z; critical : Z; warning : Z; info : Z }.
Record IssuesResponse := mkResponse { generated_at : Z; counts : IssueCounts; issues : list Issue }.

(** ** Ordering *)

(** [Option<DateTime>]: [None] is below every [Some]. *)
Definition opt_compare (a b : option Z) : comparison :=
  match a, b with
  | None, None => Eq
  | None, Some _ => Lt
  | Some _, None => Gt
  | Some x, Some y => x ?= y
  end.

Definition then_with (a b : comparison) : comparison := match a with Eq => b | c => c end.

Definition issue_compare (l r : Issue) : comparison :=
  then_with (rank (severity l) ?= rank (severity r))
    (then_with (opt_compare (detected_at r) (detected_at l)) (String.compare (i_id l) (i_id r))).

Definition issue_le (l r : Issue) : bool :=
  match issue_compare l r with Gt => false | _ => true end.

Definition count_severity (s : IssueSeverity) (l : list Issue) : Z :=
  Z.of_nat (length (List.filter (fun i => bool_decide (severity i = s)) l)).

Definition response (now : Z) (found : list Issue) : IssuesResponse :=
  let sorted := sort_by issue_le found in
  let kept := dedup_by (fun l r => String.eqb (i_id l) (i_id r)) sorted in
  mkResponse now
    (mkCounts (Z.of_nat (length kept)) (count_severity Critical kept) (count_severity Warning kept)
       (count_severity Info kept))
    kept.

(** ** The snapshot *)

Record NodeHealth := mkNodeHealth {
  nh_id : Uuid; nh_name : string; nh_labels : list string; nh_enabled : bool;
  nh_last_seen : option Z; nh_last_push_at : option Z; nh_last_push_status : option string;
  nh_created_at : Z }.
Definition node_health (n : Node.Node) : NodeHealth :=
  mkNodeHealth (Node.id n) (Node.name n) (Node.labels n) (Node.enabled n) (Node.last_seen n)
    (Node.last_push_at n) (Node.last_push_status n) (Node.created_at n).

Record InboundHealth := mkInboundHealth {
  ih_id : Uuid; ih_node_id : Uuid; ih_tag : string; ih_labels : list string; ih_enabled : bool;
  ih_reachable : option bool; ih_checked_at : option Z }.
Definition inbound_health (i : Inbound.Inbound) : InboundHealth :=
  mkInboundHealth (Inbound.id i) (Inbound.node_id i) (Inbound.tag i) (Inbound.labels i)
    (Inbound.enabled i) (Inbound.reachable i) (Inbound.reach_checked_at i).

(** A row of managed_domains. *)
Record ManagedDomain := mkDomain {
  md_id : Uuid; md_host : string; md_node_id : option Uuid; md_proxied : bool; md_notes : string;
  md_last_checked_at : option Z; md_dns_ok : bool; md_resolved_ips : list string;
  md_reachable_443 : bool; md_cert_not_after : option Z; md_cert_ok : bool;
  md_check_error : option string; md_created_at : Z; md_updated_at : Z }.
Record DomainHealth := mkDomainHealth {
  dh_id : Uuid; dh_node_id : option Uuid; dh_host : string; dh_checked_at : option Z; dh_dns_ok : bool;
  dh_reachable : bool; dh_cert_ok : bool; dh_cert_not_after : option Z }.
Definition domain_health (d : ManagedDomain) : DomainHealth :=
  mkDomainHealth (md_id d) (md_node_id d) (md_host d) (md_last_checked_at d) (md_dns_ok d)
    (md_reachable_443 d) (md_cert_ok d) (md_cert_not_after d).

Record UserHealth := mkUserHealth {
  uh_id : Uuid; uh_username : string; uh_labels : list string; uh_enabled : bool;
  uh_traffic_limit : Z; uh_traffic_used : Z; uh_expires_at : option Z; uh_updated_at : Z }.
Definition user_health (u : User.User) : UserHealth :=
  mkUserHealth (User.id u) (User.username u) (User.labels u) (User.enabled u)
    (User.traffic_limit_bytes u) (User.used_traffic_bytes u) (User.expires_at u) (User.updated_at u).

Record CertificateHealth := mkCertHealth {
  ch_node_id : Uuid; ch_not_before : Z; ch_not_after : Z; ch_revoked : bool; ch_issued_at : Z }.
Definition certificate_health (c : NodeCertificate) : CertificateHealth :=
  mkCertHealth (nc_node_id c) (nc_not_before c) (nc_not_after c) (is_some (nc_revoked_at c))
    (nc_issued_at c).

Record HealthSnapshot := mkSnapshot {
  s_nodes : list NodeHealth;
  s_inbounds : list InboundHealth;
  s_domains : list DomainHealth;
  s_users : list UserHealth;
  s_certificates : list CertificateHealth;
  subscription_abuse_count : Z;
  subscription_abuse_last_seen : option Z }.

(** ** The queries behind it *)

Section Queries.
Context (collate : string -> string -> bool).

Definition inbound_health_snapshot (db : Db) : list InboundHealth :=
  inbound_health <$>
    sort_by (fun a b => (Inbound.node_id a <? Inbound.node_id b)
                        || ((Inbound.node_id a =? Inbound.node_id b)
                            && (Inbound.listen_port a <=? Inbound.listen_port b))) (rows (inbounds db)).

Definition user_health_snapshot (db : Db) : list UserHealth :=
  user_health <$> sort_by (fun a b => collate (User.username a) (User.username b)) (rows (users db)).

Definition list_node_certificates_all (certs : list NodeCertificate) : list NodeCertificate :=
  sort_by (fun a b => (nc_node_id a <? nc_node_id b)
                      || ((nc_node_id a =? nc_node_id b) && (nc_issued_at b <=? nc_issued_at a))) certs.

(** [abuse] is (count, last seen), of the notification table. *)
Definition collect_snapshot (db : Db) (domains : list ManagedDomain) (certs : list NodeCertificate)
    (abuse : Z * option Z) : HealthSnapshot :=
  mkSnapshot
    (node_health <$> sort_by (fun a b => Node.created_at a <=? Node.created_at b) (rows (nodes db)))
    (inbound_health_snapshot db)
    (domain_health <$> sort_by (fun a b => collate (md_host a) (md_host b)) domains)
    (user_health_snapshot db)
    (certificate_health <$> list_node_certificates_all certs)
    abuse.1 abuse.2.
End Queries.

(** ** Deriving the issues *)

Section Build.
Context (uuid_str : Uuid -> string).
Context (now : Z).

Definition abuse_issues (s : HealthSnapshot) : list Issue :=
  if 0 <? subscription_abuse_count s then
    [mkIssue "system:subscription-abuse" Warning "M1701" "subscription"
       "Subscription requests are being rate limited"
       ("The public subscription guard blocked " +:+ show (subscription_abuse_count s)
        +:+ " request(s) during the last 30 minutes.")
       "system" 0 "subscription guard" [] None None (subscription_abuse_last_seen s)]
  else [].

(** The map of a node's labels; of two rows with one id the later wins. *)
Definition node_labels (s : HealthSnapshot) : gmap Uuid (list string) :=
  fold_left (fun m n => <[nh_id n := nh_labels n]> m) (s_nodes s) ∅.

Definition labels_for (s : HealthSnapshot) (own : list string) (node_id : option Uuid) : list string :=
  sort_dedup (own ++ default [] (match node_id with Some id => node_labels s !! id | None => None end)).

Definition offline (n : NodeHealth) : bool :=
  match nh_last_seen n with None => true | Some seen => seen <=? now - NODE_ONLINE_WINDOW end.

Definition node_issues (n : NodeHealth) : list Issue :=
  (if offline n then
     [mkIssue ("node:" +:+ uuid_str (nh_id n) +:+ ":offline") Critical "M0409" "node" "Node is offline"
        "The enabled node has not reported within the last two minutes." "node" (nh_id n) (nh_name n)
        (nh_labels n) (Some (nh_id n)) None (opt_or (nh_last_seen n) (Some (nh_created_at n)))]
   else [])
  ++ (if is_some_and (nh_last_push_status n) (String.eqb "failed") then
        [mkIssue ("node:" +:+ uuid_str (nh_id n) +:+ ":push-failed") Critical "M0406" "push"
           "Last configuration push failed"
           "The node did not apply its most recent desired configuration." "node" (nh_id n) (nh_name n)
           (nh_labels n) (Some (nh_id n)) (Some "retry_push") (nh_last_push_at n)]
      else []).

Definition unreachable (i : InboundHealth) : bool :=
  ih_enabled i && match ih_reachable i with Some false => true | _ => false end.

Definition inbound_issue (s : HealthSnapshot) (i : InboundHealth) : Issue :=
  mkIssue ("inbound:" +:+ uuid_str (ih_id i) +:+ ":unreachable") Warning "M1501" "inbound"
    "Inbound is unreachable"
    "The latest reachability probe could not connect to this enabled inbound." "inbound" (ih_id i)
    (ih_tag i) (labels_for s (ih_labels i) (Some (ih_node_id i))) (Some (ih_node_id i))
    (Some "probe_inbound") (ih_checked_at i).

Definition domain_condition (d : DomainHealth) : option (IssueSeverity * string * string * string) :=
  if negb (is_some (dh_checked_at d)) then
    Some (Warning, "M1302", "Managed domain has not been verified",
          "Run the domain check before relying on this hostname.")
  else if negb (dh_dns_ok d) then
    Some (Critical, "M1302", "Managed domain DNS check failed",
          "The managed hostname did not resolve as expected during the latest check.")
  else if negb (dh_reachable d) then
    Some (Warning, "M1302", "Managed domain is not reachable on 443",
          "DNS resolved, but the latest TLS reachability check did not complete.")
  else if negb (dh_cert_ok d) then
    Some (Critical, "M1301", "Managed domain certificate is invalid",
          "The latest check did not find a currently valid certificate for this hostname.")
  else if is_some_and (dh_cert_not_after d) (fun expiry => expiry <=? now + CERT_EXPIRY_WINDOW) then
    Some (Warning, "M1301", "Managed domain certificate expires soon",
          "The certificate expires within fourteen days.")
  else None.

Definition domain_issues (s : HealthSnapshot) (d : DomainHealth) : list Issue :=
  match domain_condition d with
  | Some (sev, code, title_, message_) =>
      [mkIssue ("domain:" +:+ uuid_str (dh_id d) +:+ ":health") sev code "domain" title_ message_
         "domain" (dh_id d) (dh_host d) (labels_for s [] (dh_node_id d)) (dh_node_id d)
         (Some "verify_domain") (dh_checked_at d)]
  | None => []
  end.

Definition user_condition (u : UserHealth) : option (IssueSeverity * string * string * string) :=
  if negb (uh_enabled u) then
    Some (Info, "M0703", "User is disabled",
          "This user's subscriptions and access are intentionally disabled.")
  else if is_some_and (uh_expires_at u) (fun expiry => expiry <=? now) then
    Some (Warning, "M0703", "User access has expired",
          "This user's subscriptions are suppressed because the expiry time has passed.")
  else if (0 <? uh_traffic_limit u) && (uh_traffic_limit u <=? uh_traffic_used u) then
    Some (Warning, "M0703", "User quota has been reached",
          "This user's subscriptions are suppressed until traffic is reset or the quota window rolls over.")
  else None.

Definition user_issues (u : UserHealth) : list Issue :=
  match user_condition u with
  | Some (sev, code, title_, message_) =>
      [mkIssue ("user:" +:+ uuid_str (uh_id u) +:+ ":suppressed") sev code "user" title_ message_
         "user" (uh_id u) (uh_username u) (uh_labels u) None None (Some (uh_updated_at u))]
  | None => []
  end.

Definition usable (c : CertificateHealth) : bool :=
  negb (ch_revoked c) && (ch_not_before c <=? now) && (now <? ch_not_after c).

Definition max_opt (l : list Z) : option Z :=
  fold_left (fun m x => Some (match m with Some y => Z.max y x | None => x end)) l None.

Definition certificate_issues (s : HealthSnapshot) (n : NodeHealth) : list Issue :=
  match List.filter (fun c => ch_node_id c =? nh_id n) (s_certificates s) with
  | [] => []
  | inventory =>
      match sort_by (fun a b => ch_not_after a <=? ch_not_after b) (List.filter usable inventory) with
      | [] =>
          [mkIssue ("node:" +:+ uuid_str (nh_id n) +:+ ":certificate-unusable") Critical "M0810"
             "certificate" "Node has no usable agent certificate"
             "All enrolled certificates are revoked, expired, or not yet valid." "node" (nh_id n)
             (nh_name n) (nh_labels n) (Some (nh_id n)) None (max_opt (ch_issued_at <$> inventory))]
      | first :: _ =>
          if ch_not_after first <=? now + CERT_EXPIRY_WINDOW then
            [mkIssue ("node:" +:+ uuid_str (nh_id n) +:+ ":certificate-expiring") Warning "M0810"
               "certificate" "Agent certificate expires soon"
               "The next active agent certificate expires within fourteen days." "node" (nh_id n)
               (nh_name n) (nh_labels n) (Some (nh_id n)) None (Some (ch_not_after first))]
          else []
      end
  end.

Definition found_issues (s : HealthSnapshot) : list Issue :=
  let on := List.filter nh_enabled (s_nodes s) in
  abuse_issues s
  ++ flat_map node_issues on
  ++ (inbound_issue s <$> List.filter unreachable (s_inbounds s))
  ++ flat_map (domain_issues s) (s_domains s)
  ++ flat_map user_issues (s_users s)
  ++ flat_map (certificate_issues s) on.

Definition build (s : HealthSnapshot) : IssuesResponse := response now (found_issues s).
End Build.

Definition collect (collate : string -> string -> bool) (uuid_str : Uuid -> string) (now : Z) (db : Db)
    (domains : list ManagedDomain) (certs : list NodeCertificate) (abuse : Z * option Z)
    : IssuesResponse :=
  build uuid_str now (collect_snapshot collate db domains certs abuse).

(** ** Properties *)

Lemma append_inj (a b x y : string) :
  String.length a = String.length b -> a +:+ x = b +:+ y -> a = b /\ x = y.
Proof.
  revert b. induction a as [|c a IH]; intros [|d b] Hl He; simpl in *; try done.
  injection He as -> He. destruct (IH b) as [-> ->]; auto.
Qed.

Lemma append_cancel (a x y : string) : a +:+ x = a +:+ y -> x = y.
Proof. intros He. by destruct (append_inj a a x y eq_refl He). Qed.

Lemma append_sep (c : ascii) (a b x y : string) :
  any_byte (Ascii.eqb c) a = false -> any_byte (Ascii.eqb c) b = false ->
  a +:+ String c x = b +:+ String c y -> a = b /\ x = y.
Proof.
  revert b. induction a as [|d a IH]; intros [|e b] Ha Hb He; simpl in *.
  - by injection He.
  - injection He as -> _. by rewrite Ascii.eqb_refl in Hb.
  - injection He as -> _. by rewrite Ascii.eqb_refl in Ha.
  - apply orb_false_iff in Ha as [_ Ha], Hb as [_ Hb]. injection He as -> He.
    by destruct (IH b Ha Hb He) as [-> ->].
Qed.

(** The elements of a list whose ids are made from a key each. *)
Lemma nodup_flat_map_ids {A} (f : A -> list Issue) (key : A -> Uuid) l :
  NoDup (key <$> l) -> (forall x, NoDup (i_id <$> f x)) ->
  (forall x y i j, In i (f x) -> In j (f y) -> i_id i = i_id j -> key x = key y) ->
  NoDup (i_id <$> flat_map f l).
Proof.
  intros Hnd Hf Hk. induction l as [|x l IH]; simpl; [constructor|].
  apply NoDup_cons in Hnd as [Hni Hnd]. rewrite fmap_app. apply NoDup_app.
  split; [done|]. split; [|by apply IH]. intros s Hs Hs'.
  apply list_elem_of_fmap in Hs as (i & -> & Hi), Hs' as (j & Hij & Hj).
  apply list_elem_of_In, in_flat_map in Hj as (y & Hy & Hj). apply list_elem_of_In in Hi.
  apply Hni. rewrite (Hk x y i j Hi Hj Hij). by apply list_elem_of_fmap_2, list_elem_of_In.
Qed.

Lemma nodup_fmap_filter {A B} (f : A -> B) (p : A -> bool) l :
  NoDup (f <$> l) -> NoDup (f <$> List.filter p l).
Proof.
  induction l as [|x l IH]; simpl; [done|]. rewrite NoDup_cons. intros [Hni Hnd].
  destruct (p x); simpl; [|auto]. apply NoDup_cons. split; [|auto]. intros Hin. apply Hni.
  apply list_elem_of_fmap in Hin as (y & -> & Hy). apply list_elem_of_In, List.filter_In in Hy as [Hy _].
  by apply list_elem_of_fmap_2, list_elem_of_In.
Qed.

(** The rows of each table have distinct ids. *)
Definition snapshot_keyed (s : HealthSnapshot) : Prop :=
  NoDup (nh_id <$> s_nodes s) /\ NoDup (ih_id <$> s_inbounds s) /\
  NoDup (dh_id <$> s_domains s) /\ NoDup (uh_id <$> s_users s).

Section Ids.
Context (uuid_str : Uuid -> string) (now : Z).
Hypothesis uuid_plain : forall u, any_byte (Ascii.eqb ":") (uuid_str u) = false.
Hypothesis uuid_inj : forall u v, uuid_str u = uuid_str v -> u = v.

(** An id of this prefix, row and one of these suffixes. *)
Definition shaped (pre : string) (sufs : list string) (u : Uuid) (i : Issue) : Prop :=
  exists suf, In suf sufs /\ i_id i = pre +:+ uuid_str u +:+ String ":" suf.

Lemma shaped_inj pre sufs sufs' u v i j :
  shaped pre sufs u i -> shaped pre sufs' v j -> i_id i = i_id j ->
  u = v /\ exists suf, In suf sufs /\ In suf sufs'.
Proof.
  intros (s & Hs & Hi) (t & Ht & Hj) He. rewrite Hi, Hj in He. apply append_cancel in He.
  destruct (append_sep ":" _ _ _ _ (uuid_plain u) (uuid_plain v) He) as [Hu ->].
  split; [by apply uuid_inj|eauto].
Qed.

Lemma node_issue_shape n i :
  In i (node_issues uuid_str now n) -> shaped "node:" ["offline"; "push-failed"] (nh_id n) i.
Proof.
  unfold node_issues. intros [Hi|Hi]%in_app_or.
  - destruct (offline now n); [|done]. destruct Hi as [<-|[]]. exists "offline". split; [by left|done].
  - destruct (is_some_and _ _); [|done]. destruct Hi as [<-|[]]. exists "push-failed".
    split; [right; by left|done].
Qed.

Lemma certificate_issue_shape s n i :
  In i (certificate_issues uuid_str now s n) ->
  shaped "node:" ["certificate-unusable"; "certificate-expiring"] (nh_id n) i.
Proof.
  unfold certificate_issues. destruct (List.filter _ (s_certificates s)) as [|c inv]; [done|].
  destruct (sort_by _ _) as [|first rest].
  - intros [<-|[]]. eexists. split; [by left|done].
  - destruct (_ <=? _); [|done]. intros [<-|[]]. eexists. split; [right; by left|done].
Qed.

Lemma domain_issue_shape s d i :
  In i (domain_issues uuid_str now s d) -> shaped "domain:" ["health"] (dh_id d) i.
Proof.
  unfold domain_issues. destruct (domain_condition now d) as [[[[? ?] ?] ?]|]; [|done].
  intros [<-|[]]. eexists. split; [by left|done].
Qed.

Lemma user_issue_shape u i :
  In i (user_issues uuid_str now u) -> shaped "user:" ["suppressed"] (uh_id u) i.
Proof.
  unfold user_issues. destruct (user_condition now u) as [[[[? ?] ?] ?]|]; [|done].
  intros [<-|[]]. eexists. split; [by left|done].
Qed.

Definition first_byte (s : string) : option ascii :=
  match s with String c _ => Some c | "" => None end.
Definition led_by (cs : list ascii) (l : list Issue) : Prop :=
  forall i, In i l -> exists c, first_byte (i_id i) = Some c /\ In c cs.

Lemma led_app cs cs' l l' : led_by cs l -> led_by cs' l' -> led_by (cs ++ cs') (l ++ l').
Proof.
  intros H H' i [Hi|Hi]%in_app_or; [destruct (H i Hi) as (c & ? & ?)|destruct (H' i Hi) as (c & ? & ?)];
    exists c; (split; [done|apply in_or_app; auto]).
Qed.

Lemma led_flat_map {A} (f : A -> list Issue) pre c sufs (key : A -> Uuid) l :
  (forall x i, In i (f x) -> shaped (String c pre) sufs (key x) i) -> led_by [c] (flat_map f l).
Proof.
  intros Hf i (x & _ & Hi)%in_flat_map. destruct (Hf x i Hi) as (suf & _ & He). exists c.
  rewrite He. split; [done|by left].
Qed.

Lemma nodup_ids_app cs cs' l l' :
  led_by cs l -> led_by cs' l' -> (forall c, In c cs -> ~ In c cs') ->
  NoDup (i_id <$> l) -> NoDup (i_id <$> l') -> NoDup (i_id <$> (l ++ l')).
Proof.
  intros H H' Hd Hl Hl'. rewrite fmap_app. apply NoDup_app. split; [done|]. split; [|done].
  intros x Hx Hx'. apply list_elem_of_fmap in Hx as (i & -> & Hi), Hx' as (j & Hij & Hj).
  apply list_elem_of_In in Hi, Hj. destruct (H i Hi) as (c & Hc & Hin), (H' j Hj) as (c' & Hc' & Hin').
  apply (Hd c Hin). congruence.
Qed.

Lemma nodup_shaped {A} (f : A -> list Issue) pre sufs (key : A -> Uuid) l :
  (forall x i, In i (f x) -> shaped pre sufs (key x) i) ->
  (forall x, NoDup (i_id <$> f x)) -> NoDup (key <$> l) -> NoDup (i_id <$> flat_map f l).
Proof.
  intros Hf Hn Hk. apply (nodup_flat_map_ids f key l Hk Hn). intros x y i j Hi Hj He.
  by destruct (shaped_inj _ _ _ _ _ _ _ (Hf x i Hi) (Hf y j Hj) He).
Qed.

Lemma node_part_nodup s l :
  NoDup (nh_id <$> l) ->
  NoDup (i_id <$> (flat_map (node_issues uuid_str now) l ++ flat_map (certificate_issues uuid_str now s) l)).
Proof.
  intros Hl. rewrite fmap_app. apply NoDup_app. split; [|split].
  - apply (nodup_shaped _ _ _ nh_id l node_issue_shape); [|done]. intros n.
    unfold node_issues. destruct (offline now n), (is_some_and _ _); simpl;
      repeat constructor; rewrite ?list_elem_of_singleton; try by intros ?%elem_of_nil.
    intros He%append_cancel%append_cancel. done.
  - intros x Hx Hx'. apply list_elem_of_fmap in Hx as (i & -> & Hi), Hx' as (j & Hij & Hj).
    apply list_elem_of_In, in_flat_map in Hi as (n & _ & Hi), Hj as (m & _ & Hj).
    destruct (shaped_inj _ _ _ _ _ _ _ (node_issue_shape _ _ Hi) (certificate_issue_shape _ _ _ Hj) Hij)
      as (_ & suf & H1 & H2). simpl in H1, H2. naive_solver.
  - apply (nodup_shaped _ _ _ nh_id l (certificate_issue_shape s)); [|done]. intros n.
    unfold certificate_issues. destruct (List.filter _ _) as [|c inv]; [constructor|].
    destruct (sort_by _ _) as [|first rest]; [|destruct (_ <=? _)]; repeat constructor; by intros ?%elem_of_nil.
Qed.

(** A list of at most one issue has no repeated id. *)
Ltac at_most_one := repeat constructor; by intros ?%elem_of_nil.

Lemma abuse_part s : led_by ["s"%char] (abuse_issues s) /\ NoDup (i_id <$> abuse_issues s).
Proof.
  unfold abuse_issues. destruct (_ <? _); [|split; [by intros i []|constructor]]. split; [|at_most_one].
  intros i [<-|[]]. eexists. split; [done|by left].
Qed.

Lemma inbound_part s l :
  NoDup (ih_id <$> l) ->
  led_by ["i"%char] (inbound_issue uuid_str s <$> l) /\ NoDup (i_id <$> (inbound_issue uuid_str s <$> l)).
Proof.
  intros Hl.
  assert (H : inbound_issue uuid_str s <$> l = flat_map (fun i => [inbound_issue uuid_str s i]) l).
  { induction l as [|x l IH]; [done|]. rewrite fmap_cons, IH; [done|]. by apply NoDup_cons in Hl as [_ ?]. }
  assert (Hs : forall x i, In i [inbound_issue uuid_str s x] -> shaped "inbound:" ["unreachable"] (ih_id x) i).
  { intros x i [<-|[]]. eexists. split; [by left|done]. }
  rewrite H. split; [exact (led_flat_map _ "nbound:" "i"%char _ ih_id l Hs)|].
  apply (nodup_shaped _ _ _ ih_id _ Hs); [|done]. intros x. at_most_one.
Qed.

Lemma domain_part s l :
  NoDup (dh_id <$> l) ->
  led_by ["d"%char] (flat_map (domain_issues uuid_str now s) l) /\
  NoDup (i_id <$> flat_map (domain_issues uuid_str now s) l).
Proof.
  intros Hl. split; [exact (led_flat_map _ "omain:" "d"%char _ dh_id l (domain_issue_shape s))|].
  apply (nodup_shaped _ _ _ dh_id _ (domain_issue_shape s)); [|done]. intros x. unfold domain_issues.
  destruct (domain_condition now x) as [[[[? ?] ?] ?]|]; at_most_one.
Qed.

Lemma user_part l :
  NoDup (uh_id <$> l) ->
  led_by ["u"%char] (flat_map (user_issues uuid_str now) l) /\
  NoDup (i_id <$> flat_map (user_issues uuid_str now) l).
Proof.
  intros Hl. split; [exact (led_flat_map _ "ser:" "u"%char _ uh_id l user_issue_shape)|].
  apply (nodup_shaped _ _ _ uh_id _ user_issue_shape); [|done]. intros x. unfold user_issues.
  destruct (user_condition now x) as [[[[? ?] ?] ?]|]; at_most_one.
Qed.

Lemma node_part_led s l :
  led_by ["n"%char] (flat_map (node_issues uuid_str now) l ++ flat_map (certificate_issues uuid_str now s) l).
Proof.
  intros i [Hi|Hi]%in_app_or.
  - exact (led_flat_map _ "ode:" "n"%char _ nh_id l node_issue_shape i Hi).
  - exact (led_flat_map _ "ode:" "n"%char _ nh_id l (certificate_issue_shape s) i Hi).
Qed.

Lemma found_ids_nodup s : snapshot_keyed s -> NoDup (i_id <$> found_issues uuid_str now s).
Proof.
  intros (Hn & Hi & Hd & Hu). unfold found_issues.
  set (on := List.filter nh_enabled (s_nodes s)). set (N := flat_map (node_issues uuid_str now) on).
  set (C := flat_map (certificate_issues uuid_str now s) on).
  destruct (abuse_part s) as [LA NA].
  destruct (inbound_part s _ (nodup_fmap_filter ih_id unreachable _ Hi)) as [LI NI].
  destruct (domain_part s _ Hd) as [LD ND]. destruct (user_part _ Hu) as [LU NU].
  pose proof (node_part_led s on) as LN.
  pose proof (node_part_nodup s on (nodup_fmap_filter nh_id nh_enabled _ Hn)) as NN.
  set (I := inbound_issue uuid_str s <$> _) in *. set (D := flat_map (domain_issues uuid_str now s) _) in *.
  set (U := flat_map (user_issues uuid_str now) _) in *.
  rewrite (fmap_Permutation i_id _ (abuse_issues s ++ (N ++ C) ++ I ++ D ++ U)).
  2:{ rewrite <- app_assoc. apply Permutation_app_head, Permutation_app_head.
      rewrite !app_assoc. by rewrite (Permutation_app_comm _ C), !app_assoc. }
  apply (nodup_ids_app ["s"%char] ["n"%char; "i"%char; "d"%char; "u"%char]); [done| | |done|].
  { by apply (led_app ["n"%char]), (led_app ["i"%char]), (led_app ["d"%char]). } { simpl. naive_solver. }
  apply (nodup_ids_app ["n"%char] ["i"%char; "d"%char; "u"%char]); [done| | |done|].
  { by apply (led_app ["i"%char]), (led_app ["d"%char]). } { simpl. naive_solver. }
  apply (nodup_ids_app ["i"%char] ["d"%char; "u"%char]); [done| | |done|].
  { by apply (led_app ["d"%char]). } { simpl. naive_solver. }
  apply (nodup_ids_app ["d"%char] ["u"%char]); [done|done| |done|done]. simpl. naive_solver.
Qed.
End Ids.

Lemma issue_le_rank a b : issue_le a b = true -> rank (severity a) <= rank (severity b).
Proof.
  unfold issue_le, issue_compare. destruct (Z.compare_spec (rank (severity a)) (rank (severity b)));
    simpl; intros; lia || done.
Qed.
Lemma issue_gt_rank a b : issue_le a b = false -> rank (severity b) <= rank (severity a).
Proof.
  unfold issue_le, issue_compare. destruct (Z.compare_spec (rank (severity a)) (rank (severity b)));
    simpl; intros; lia || done.
Qed.

Lemma count_partition l :
  Z.of_nat (length l) = count_severity Critical l + count_severity Warning l + count_severity Info l.
Proof.
  unfold count_severity. induction l as [|i l IH]; [done|]. cbn [List.filter length].
  destruct (severity i) eqn:E; repeat (case_bool_decide; [|try congruence]); try congruence;
    cbn [length]; lia.
Qed.

Lemma response_perm now l : NoDup (i_id <$> l) -> issues (response now l) ≡ₚ l.
Proof.
  intros Hnd. unfold response. cbn [issues]. rewrite (dedup_by_nodup _ i_id).
  - apply sort_by_perm.
  - intros x y. apply String.eqb_eq.
  - by rewrite sort_by_perm.
Qed.

(** The cockpit reports every condition once.  For tables with distinct ids
    the response lists exactly the conditions found, none lost to
    de-duplication, under distinct ids, the most severe first, and its counters
    add up. *)
Theorem issues_complete (uuid_str : Uuid -> string) (now : Z) (s : HealthSnapshot) :
  (forall u, any_byte (Ascii.eqb ":") (uuid_str u) = false) -> (forall u v, uuid_str u = uuid_str v -> u = v) ->
  snapshot_keyed s ->
  let r := build uuid_str now s in
  issues r ≡ₚ found_issues uuid_str now s /\
  NoDup (i_id <$> issues r) /\
  StronglySorted (fun a b => rank (severity a) <= rank (severity b)) (issues r) /\
  total (counts r) = Z.of_nat (length (found_issues uuid_str now s)) /\
  total (counts r) = critical (counts r) + warning (counts r) + info (counts r).
Proof.
  intros Hl Hi Hk r. unfold r, build, response. cbn [issues counts total critical warning info].
  set (sorted := sort_by issue_le (found_issues uuid_str now s)).
  assert (Hp : sorted ≡ₚ found_issues uuid_str now s) by apply sort_by_perm.
  assert (Hnd : NoDup (i_id <$> sorted)) by (rewrite Hp; by apply found_ids_nodup).
  rewrite (dedup_by_nodup _ i_id sorted); [|intros x y; apply String.eqb_eq|done].
  split; [done|]. split; [done|]. split; [|split].
  - apply sort_by_coarse; [lia|apply issue_le_rank|intros x y; apply issue_gt_rank].
  - by rewrite Hp.
  - apply count_partition.
Qed.

(** The part of the cockpit about users. *)
Lemma found_user_issue uuid_str now s i :
  In i (found_issues uuid_str now s) -> entity_type i = "user" ->
  exists u, In u (s_users s) /\ In i (user_issues uuid_str now u) /\ entity_id i = uh_id u.
Proof.
  unfold found_issues. rewrite !in_app_iff. intros [H|[H|[H|[H|[H|H]]]]] Ht.
  - unfold abuse_issues in H. destruct (_ <? _); [|done]. by destruct H as [<-|[]].
  - apply in_flat_map in H as (n & _ & H). unfold node_issues in H. apply in_app_or in H as [H|H].
    + destruct (offline now n); [|done]. by destruct H as [<-|[]].
    + destruct (is_some_and _ _); [|done]. by destruct H as [<-|[]].
  - apply in_map_iff in H as (x & <- & _). done.
  - apply in_flat_map in H as (d & _ & H). unfold domain_issues in H.
    destruct (domain_condition now d) as [[[[? ?] ?] ?]|]; [|done]. by destruct H as [<-|[]].
  - apply in_flat_map in H as (u & Hu & H). exists u. split; [done|]. split; [done|].
    unfold user_issues in H. destruct (user_condition now u) as [[[[? ?] ?] ?]|]; [|done].
    by destruct H as [<-|[]].
  - apply in_flat_map in H as (n & _ & H). unfold certificate_issues in H.
    destruct (List.filter _ _); [done|]. destruct (sort_by _ _); [by destruct H as [<-|[]]|].
    destruct (_ <=? _); [|done]. by destruct H as [<-|[]].
Qed.

Lemma user_condition_active now u :
  is_some (user_condition now (user_health u)) = negb (User.is_active now u).
Proof.
  unfold user_condition, User.is_active, User.suppressed_reason, user_health. simpl.
  destruct (User.enabled u); simpl; [|done]. destruct (is_some_and (User.expires_at u) _); [done|].
  by destruct (_ && _).
Qed.

Lemma nodup_fmap_inj {A B} (f : A -> B) l x y :
  NoDup (f <$> l) -> In x l -> In y l -> f x = f y -> x = y.
Proof.
  intros Hnd Hx Hy He. apply list_elem_of_In, list_elem_of_lookup in Hx as [i Hi], Hy as [j Hj].
  rewrite NoDup_alt in Hnd. assert (i = j) as ->; [|congruence].
  apply (Hnd i j (f x)); rewrite list_lookup_fmap; [by rewrite Hi|rewrite Hj; simpl; by rewrite He].
Qed.

(** The cockpit agrees with enforcement on users.  A user is listed as
    suppressed exactly when the spec builder and the subscription documents treat
    the user as inactive. *)
Theorem issues_match_suppression (collate : string -> string -> bool) (uuid_str : Uuid -> string)
    (now : Z) (db : Db) (domains : list ManagedDomain) (certs : list NodeCertificate)
    (abuse : Z * option Z) (k : Uuid) (u : User.User) :
  (forall v, any_byte (Ascii.eqb ":") (uuid_str v) = false) -> (forall v w, uuid_str v = uuid_str w -> v = w) ->
  snapshot_keyed (collect_snapshot collate db domains certs abuse) ->
  users db !! k = Some u ->
  (exists i, In i (issues (collect collate uuid_str now db domains certs abuse)) /\
     entity_type i = "user" /\ entity_id i = User.id u) <-> User.is_active now u = false.
Proof.
  intros Hl Hi Hk Hu. set (s := collect_snapshot collate db domains certs abuse) in *.
  assert (Hp : issues (collect collate uuid_str now db domains certs abuse) ≡ₚ found_issues uuid_str now s)
    by (apply response_perm; by apply found_ids_nodup).
  assert (Hin : In (user_health u) (s_users s)).
  { apply in_map, sort_by_in, in_rows. eauto. }
  rewrite <- negb_true_iff, <- user_condition_active. split.
  - intros (i & Hii & Ht & He). rewrite Hp in Hii.
    destruct (found_user_issue _ _ _ _ Hii Ht) as (v & Hv & Hvi & Hid).
    assert (v = user_health u) as ->.
    { destruct Hk as (_ & _ & _ & Hnd). apply (nodup_fmap_inj uh_id (s_users s)); [done..|]. by rewrite <- Hid. }
    unfold user_issues in Hvi. by destruct (user_condition now (user_health u)) as [[[[? ?] ?] ?]|].
  - destruct (user_condition now (user_health u)) as [[[[sev c] t] m]|] eqn:Ec; [|done]. intros _.
    assert (exists i, In i (user_issues uuid_str now (user_health u)) /\ entity_type i = "user"
                      /\ entity_id i = User.id u) as (i & Hi' & Ht & He).
    { unfold user_issues. rewrite Ec. eexists. split; [by left|done]. }
    exists i. split; [|done]. rewrite Hp. unfold found_issues. rewrite !in_app_iff.
    do 4 right. left. apply in_flat_map. eauto.
Qed.

(** Where an issue with this id comes from. *)
Lemma found_certificate_issue uuid_str now
    (Hl : forall v, any_byte (Ascii.eqb ":") (uuid_str v) = false) (Hi : forall v w, uuid_str v = uuid_str w -> v = w) s i u :
  In i (found_issues uuid_str now s) -> i_id i = "node:" +:+ uuid_str u +:+ ":certificate-unusable" ->
  exists n, In n (s_nodes s) /\ nh_enabled n = true /\ In i (certificate_issues uuid_str now s n) /\ nh_id n = u.
Proof.
  intros Hf Hid.
  assert (Hs : shaped uuid_str "node:" ["certificate-unusable"] u i) by (eexists; split; [by left|done]).
  unfold found_issues in Hf. rewrite !in_app_iff in Hf. destruct Hf as [H|[H|[H|[H|[H|H]]]]].
  - unfold abuse_issues in H. destruct (_ <? _); [|done]. destruct H as [<-|[]]. by simpl in Hid.
  - apply in_flat_map in H as (n & _ & H).
    destruct (shaped_inj uuid_str Hl Hi _ _ _ _ _ _ _ (node_issue_shape uuid_str now _ _ H) Hs eq_refl)
      as (_ & suf & H1 & H2). simpl in H1, H2. naive_solver.
  - apply in_map_iff in H as (x & <- & _). by simpl in Hid.
  - apply in_flat_map in H as (d & _ & H). apply domain_issue_shape in H as (suf & _ & He). by rewrite He in Hid.
  - apply in_flat_map in H as (x & _ & H). apply user_issue_shape in H as (suf & _ & He). by rewrite He in Hid.
  - apply in_flat_map in H as (n & Hn & H). apply List.filter_In in Hn as [Hn Hon]. exists n.
    destruct (shaped_inj uuid_str Hl Hi _ _ _ _ _ _ _ (certificate_issue_shape uuid_str now _ _ _ H) Hs eq_refl)
      as (Hu & _). auto.
Qed.

(** An enrolled node none of whose certificates is usable. *)
Definition stranded (now : Z) (s : HealthSnapshot) (n : NodeHealth) : Prop :=
  let inventory := List.filter (fun c => ch_node_id c =? nh_id n) (s_certificates s) in
  inventory <> [] /\ List.filter (usable now) inventory = [].

Lemma unusable_issue uuid_str now s n :
  (exists i, In i (certificate_issues uuid_str now s n) /\
     i_id i = "node:" +:+ uuid_str (nh_id n) +:+ ":certificate-unusable") <-> stranded now s n.
Proof.
  unfold certificate_issues, stranded.
  destruct (List.filter _ (s_certificates s)) as [|c inv] eqn:Ei; [split; [by intros (i & [] & _)|by intros [? _]]|].
  set (le := fun a b => ch_not_after a <=? ch_not_after b).
  pose proof (sort_by_perm le (List.filter (usable now) (c :: inv))) as Hp.
  destruct (sort_by le _) as [|first rest].
  - apply Permutation_nil_l in Hp. split; [|intros _; eexists; split; [by left|done]].
    intros _. by rewrite <- Hp.
  - split.
    + intros (i & Hi & Hid). destruct (_ <=? _); [|done]. destruct Hi as [<-|[]].
      cbn [i_id] in Hid. by apply append_cancel, append_cancel in Hid.
    + intros [_ Hf]. rewrite Hf in Hp. by apply Permutation_nil_r in Hp.
Qed.

Lemma stranded_refused db_upper now certs s n :
  s_certificates s = certificate_health <$> list_node_certificates_all certs ->
  stranded now s n <-> forall fp, authorize_certificate db_upper now (nh_id n) fp certs = false.
Proof.
  intros Hs. unfold stranded. rewrite Hs. set (inv := List.filter _ _).
  assert (Hin : forall h, In h inv <-> exists c, In c certs /\ nc_node_id c = nh_id n /\ h = certificate_health c).
  { intros h. unfold inv. rewrite List.filter_In, in_map_iff. setoid_rewrite sort_by_in. rewrite Z.eqb_eq. split.
    - intros [(c & <- & Hc) Hn]. eauto.
    - intros (c & Hc & Hn & ->). eauto. }
  assert (Hact : forall fp c, active_cert db_upper now fp c = true -> usable now (certificate_health c) = true).
  { intros fp c. unfold active_cert, usable. simpl. rewrite !andb_true_iff. tauto. }
  split.
  - intros [Hne Hu] fp. apply authorize_refused. split.
    + destruct inv as [|h l]; [done|]. destruct (proj1 (Hin h) (or_introl eq_refl)) as (c & Hc & Hn & _). eauto.
    + intros c Hc Hn. apply not_true_iff_false. intros Ha%Hact.
      assert (Hi : In (certificate_health c) (List.filter (usable now) inv))
        by (apply List.filter_In; split; [apply Hin; eauto|done]).
      by rewrite Hu in Hi.
  - intros Hall. split.
    + destruct (proj1 (authorize_refused _ _ _ _ _) (Hall "")) as [(c & Hc & Hn) _]. intros He.
      assert (Hi : In (certificate_health c) inv) by (apply Hin; eauto). by rewrite He in Hi.
    + apply list_nil_filter. intros h (c & Hc & Hn & ->)%Hin.
      destruct (proj1 (authorize_refused _ _ _ _ _) (Hall (nc_fingerprint c))) as [_ Hf].
      specialize (Hf c Hc Hn). unfold active_cert in Hf. by rewrite String.eqb_refl in Hf.
Qed.

(** The cockpit agrees with enforcement on certificates.  A node is reported
    as having no usable certificate exactly when it is enabled and the registry
    refuses every certificate it could present. *)
Theorem issues_match_authorization (collate : string -> string -> bool) (uuid_str : Uuid -> string)
    (db_upper : string -> string) (now : Z) (db : Db) (domains : list ManagedDomain)
    (certs : list NodeCertificate) (abuse : Z * option Z) (k : Uuid) (node : Node.Node) :
  (forall v, any_byte (Ascii.eqb ":") (uuid_str v) = false) -> (forall v w, uuid_str v = uuid_str w -> v = w) ->
  snapshot_keyed (collect_snapshot collate db domains certs abuse) ->
  nodes db !! k = Some node ->
  (exists i, In i (issues (collect collate uuid_str now db domains certs abuse)) /\
     i_id i = "node:" +:+ uuid_str (Node.id node) +:+ ":certificate-unusable") <->
  Node.enabled node = true /\
  forall fingerprint, authorize_certificate db_upper now (Node.id node) fingerprint certs = false.
Proof.
  intros Hl Hi Hk Hn. set (s := collect_snapshot collate db domains certs abuse) in *.
  assert (Hp : issues (collect collate uuid_str now db domains certs abuse) ≡ₚ found_issues uuid_str now s)
    by (apply response_perm; by apply found_ids_nodup).
  assert (Hin : In (node_health node) (s_nodes s)).
  { apply in_map, sort_by_in, in_rows. eauto. }
  setoid_rewrite <- (stranded_refused db_upper now certs s (node_health node) eq_refl).
  rewrite <- (unusable_issue uuid_str). split.
  - intros (i & Hii & Hid). rewrite Hp in Hii.
    destruct (found_certificate_issue uuid_str now Hl Hi s i (Node.id node) Hii Hid) as (m & Hm & Hon & Hmi & Hmid).
    assert (m = node_health node) as ->.
    { destruct Hk as (Hnd & _). by apply (nodup_fmap_inj nh_id (s_nodes s)). }
    split; [done|eauto].
  - intros (Hon & i & Hii & Hid). exists i. split; [|done]. rewrite Hp. unfold found_issues.
    rewrite !in_app_iff. do 5 right. apply in_flat_map. exists (node_health node). split; [|done].
    by apply List.filter_In.
Qed.

(** ** A concrete cockpit *)

(** A rendering of ids with the two facts used of UUIDs: no colon, injective. *)
Fixpoint bits (p : positive) : string :=
  match p with xH => "" | xO q => String "0" (bits q) | xI q => String "1" (bits q) end.
Definition render_id (u : Uuid) : string :=
  match u with Z0 => "z" | Zpos p => String "p" (bits p) | Zneg p => String "n" (bits p) end.

Lemma render_plain u : any_byte (Ascii.eqb ":") (render_id u) = false.
Proof.
  assert (Hb : forall p, any_byte (Ascii.eqb ":") (bits p) = false) by (induction p; simpl; auto).
  destruct u; simpl; auto.
Qed.

Lemma render_inj u v : render_id u = render_id v -> u = v.
Proof.
  assert (Hb : forall p q, bits p = bits q -> p = q).
  { induction p as [p IH|p IH|]; intros [q|q|] He; simpl in He; try done; injection He as He;
      by rewrite (IH _ He). }
  destruct u, v; simpl; try done; intros He; injection He as He; by rewrite (Hb _ _ He).
Qed.

(** A disabled user, and an enabled node whose only certificate is revoked. *)
Definition cockpit_user : User.User :=
  User.mk 7 "alice" None None None "inherit" [] "uuid" "password" false 100 0
    None 0 None "none" None None None 0 0.
Definition cockpit_node : Node.Node :=
  Node.mk 1 "a" "10.0.0.1" "honey-agent" 8443 "serve" [] [] true false None None
    None None None None None None None None 0 0 0.
Definition cockpit_db : Db := mkDb {[1 := cockpit_node]} ∅ {[7 := cockpit_user]} ∅ ∅ ∅ ∅ ∅.
Definition cockpit_certs : list NodeCertificate := [mkCert 3 1 "s" "AB" "cn" 0 1000 5 (Some 9)].

Lemma cockpit_keyed : snapshot_keyed (collect_snapshot (fun _ _ => true) cockpit_db [] cockpit_certs (0, None)).
Proof. repeat split; vm_compute; (apply NoDup_singleton || apply NoDup_nil_2). Qed.

Lemma issues_complete_witness :
  exists r, r = collect (fun _ _ => true) render_id 50 cockpit_db [] cockpit_certs (0, None) /\
    total (counts r) = 3 /\ critical (counts r) = 2 /\ NoDup (i_id <$> issues r).
Proof.
  eexists. split; [reflexivity|].
  destruct (issues_complete render_id 50 _ render_plain render_inj cockpit_keyed) as (_ & Hnd & _).
  split; [vm_compute; reflexivity|]. split; [vm_compute; reflexivity|exact Hnd].
Defined.

Lemma issues_match_suppression_witness :
  exists i, In i (issues (collect (fun _ _ => true) render_id 50 cockpit_db [] cockpit_certs (0, None))) /\
    entity_type i = "user" /\ entity_id i = 7.
Proof.
  apply (issues_match_suppression (fun _ _ => true) render_id 50 cockpit_db [] cockpit_certs (0, None) 7
           cockpit_user render_plain render_inj cockpit_keyed eq_refl).
  reflexivity.
Defined.

Lemma issues_match_authorization_witness :
  Node.enabled cockpit_node = true /\
  forall fingerprint, authorize_certificate (fun s => s) 50 1 fingerprint cockpit_certs = false.
Proof.
  apply (issues_match_authorization (fun _ _ => true) render_id (fun s => s) 50 cockpit_db [] cockpit_certs
           (0, None) 1 cockpit_node render_plain render_inj cockpit_keyed eq_refl).
  eexists. split; [vm_compute; left; reflexivity|reflexivity].
Defined.
