(* ===== verification/Versions.v ===== *)
(** * Entity versions (record_entity_version, list_entity_versions and
    get_entity_version of src/master/src/db/repo.rs; the snapshots of
    src/master/src/db/models.rs)

    The panel keeps the last twenty states of every node, user and inbound, as
    the JSON its row serializes to, and a revert reads such a state back as a
    PATCH.  The printing of timestamps and uuids is chrono's and uuid's, and a
    parameter. *)

From stdpp Require Import sorting.
From S2P Require Import Prelude Strings Json Models Db.

Record EntityVersion := mkVersion {
  v_id : Z;
  v_resource_type : string;
  v_resource_id : Uuid;
  v_snapshot : json;
  v_actor : option string;
  v_created_at : Z }.

(** The rows, and what the id sequence draws next. *)
Record VersionTable := mkVersions {
  versions : list EntityVersion;
  next_version : Z }.
Definition no_versions : VersionTable := mkVersions [] 1.

Definition of_entity (kind : string) (id : Uuid) (v : EntityVersion) : bool :=
  String.eqb (v_resource_type v) kind && (v_resource_id v =? id).

(** ORDER BY id DESC LIMIT 20. *)
Definition newest (l : list EntityVersion) : list EntityVersion :=
  take 20 (sort_by (fun a b => v_id b <=? v_id a) l).

Definition record_entity_version (now : Z) (kind : string) (id : Uuid) (snapshot : json) (actor : option string)
    (t : VersionTable) : VersionTable :=
  let l := versions t ++ [mkVersion (next_version t) kind id snapshot actor now] in
  let kept := newest (List.filter (of_entity kind id) l) in
  mkVersions
    (List.filter (fun v => negb (of_entity kind id v) || existsb (fun k => v_id k =? v_id v) kept) l)
    (next_version t + 1).

Definition list_entity_versions (kind : string) (id : Uuid) (t : VersionTable) : list EntityVersion :=
  newest (List.filter (of_entity kind id) (versions t)).

Definition get_entity_version (id : Z) (t : VersionTable) : option EntityVersion :=
  List.find (fun v => v_id v =? id) (versions t).

(** ** Reading a snapshot

    What the derived [Deserialize] accepts of an object: a field of type
    [Option] may be absent or null, a [Patch] keeps the two apart, and a field
    of the wrong type fails the whole. *)

Definition de_string (v : json) : option string := as_str v.
Definition de_bool (v : json) : option bool := as_bool v.
Definition de_i64 (v : json) : option Z := as_i64 v.
Definition de_i32 (v : json) : option Z :=
  match v with JNumber (NInt n) => if (-2147483648 <=? n) && (n <=? i32_max) then Some n else None | _ => None end.
Definition de_strings (v : json) : option (list string) :=
  match v with JArray l => mapM as_str l | _ => None end.
Definition de_json (v : json) : option json := Some v.

Definition opt_field {A} (de : json -> option A) (k : string) (v : json) : option (option A) :=
  match get k v with
  | None | Some JNull => Some None
  | Some x => let! a := de x in Some (Some a)
  end.

Definition patch_field {A} (de : json -> option A) (k : string) (v : json) : option (Patch A) :=
  match get k v with
  | None => Some Missing
  | Some JNull => Some Null
  | Some x => let! a := de x in Some (Value a)
  end.

Definition jopt {A} (f : A -> json) (o : option A) : json :=
  match o with Some a => f a | None => JNull end.

Section Snapshots.
Context (uuid_str timestamp : Z -> string) (parse_uuid parse_timestamp : string -> option Z).

Definition juuid (u : Uuid) : json := JString (uuid_str u).
Definition jtime (t : Z) : json := JString (timestamp t).
Definition de_uuid (v : json) : option Uuid := let! s := as_str v in parse_uuid s.
Definition de_time (v : json) : option Z := let! s := as_str v in parse_timestamp s.

Definition node_json (n : Node.Node) : json :=
  obj [("id", juuid (Node.id n)); ("name", JString (Node.name n)); ("address", JString (Node.address n));
       ("tls_server_name", JString (Node.tls_server_name n)); ("grpc_port", jint (Node.grpc_port n));
       ("transport", JString (Node.transport n)); ("extra_addresses", jstrs (Node.extra_addresses n));
       ("labels", jstrs (Node.labels n)); ("enabled", JBool (Node.enabled n));
       ("maintenance", JBool (Node.maintenance n)); ("last_seen", jopt jtime (Node.last_seen n));
       ("agent_version", jopt_str (Node.agent_version n)); ("singbox_version", jopt_str (Node.singbox_version n));
       ("desired_spec_hash", jopt_str (Node.desired_spec_hash n));
       ("applied_spec_hash", jopt_str (Node.applied_spec_hash n));
       ("applied_spec_summary", jopt id (Node.applied_spec_summary n)); ("applied_at", jopt jtime (Node.applied_at n));
       ("last_push_at", jopt jtime (Node.last_push_at n)); ("last_push_status", jopt_str (Node.last_push_status n));
       ("last_push_message", jopt_str (Node.last_push_message n));
       ("monthly_cost_cents", jint (Node.monthly_cost_cents n)); ("created_at", jtime (Node.created_at n));
       ("updated_at", jtime (Node.updated_at n))].

Definition update_node_of (v : json) : option UpdateNode.UpdateNode :=
  let! name := opt_field de_string "name" v in
  let! address := opt_field de_string "address" v in
  let! tls_server_name := opt_field de_string "tls_server_name" v in
  let! grpc_port := opt_field de_i32 "grpc_port" v in
  let! transport := opt_field de_string "transport" v in
  let! enabled := opt_field de_bool "enabled" v in
  let! extra_addresses := opt_field de_strings "extra_addresses" v in
  let! maintenance := opt_field de_bool "maintenance" v in
  let! monthly_cost_cents := opt_field de_i64 "monthly_cost_cents" v in
  Some (UpdateNode.mk name address tls_server_name grpc_port transport enabled extra_addresses maintenance
          monthly_cost_cents).

(** The password is not serialized. *)
Definition user_json (u : User.User) : json :=
  obj [("id", juuid (User.id u)); ("username", JString (User.username u));
       ("subscription_title", jopt_str (User.subscription_title u));
       ("subscription_description", jopt_str (User.subscription_description u));
       ("subscription_group", jopt_str (User.subscription_group u));
       ("subscription_traffic_policy", JString (User.subscription_traffic_policy u));
       ("labels", jstrs (User.labels u)); ("uuid", JString (User.uuid u)); ("enabled", JBool (User.enabled u));
       ("traffic_limit_bytes", jint (User.traffic_limit_bytes u));
       ("used_traffic_bytes", jint (User.used_traffic_bytes u)); ("expires_at", jopt jtime (User.expires_at u));
       ("device_limit", jint (User.device_limit u)); ("routing_profile_id", jopt juuid (User.routing_profile_id u));
       ("quota_interval", JString (User.quota_interval u)); ("quota_reset_at", jopt jtime (User.quota_reset_at u));
       ("created_by", jopt juuid (User.created_by u)); ("subscription_alias", jopt_str (User.subscription_alias u));
       ("created_at", jtime (User.created_at u)); ("updated_at", jtime (User.updated_at u))].

Definition update_user_of (v : json) : option UpdateUser.UpdateUser :=
  let! username := opt_field de_string "username" v in
  let! password := opt_field de_string "password" v in
  let! title := patch_field de_string "subscription_title" v in
  let! description := patch_field de_string "subscription_description" v in
  let! group := patch_field de_string "subscription_group" v in
  let! policy := opt_field de_string "subscription_traffic_policy" v in
  let! enabled := opt_field de_bool "enabled" v in
  let! traffic_limit_bytes := opt_field de_i64 "traffic_limit_bytes" v in
  let! expires_at := patch_field de_time "expires_at" v in
  let! device_limit := opt_field de_i32 "device_limit" v in
  Some (UpdateUser.mk username password title description group policy enabled traffic_limit_bytes expires_at
          device_limit).

(** The REALITY private key and the chain password are not serialized. *)
Definition inbound_json (i : Inbound.Inbound) : json :=
  obj [("id", juuid (Inbound.id i)); ("node_id", juuid (Inbound.node_id i)); ("tag", JString (Inbound.tag i));
       ("labels", jstrs (Inbound.labels i)); ("kind", JString (Inbound.kind i)); ("core", JString (Inbound.core i));
       ("listen", JString (Inbound.listen i)); ("listen_port", jint (Inbound.listen_port i));
       ("flow", JString (Inbound.flow i)); ("tls_enabled", JBool (Inbound.tls_enabled i));
       ("server_name", jopt_str (Inbound.server_name i)); ("cert_path", jopt_str (Inbound.cert_path i));
       ("key_path", jopt_str (Inbound.key_path i)); ("reality", JBool (Inbound.reality i));
       ("reality_public_key", jopt_str (Inbound.reality_public_key i));
       ("reality_short_ids", jstrs (Inbound.reality_short_ids i));
       ("reality_handshake_server", jopt_str (Inbound.reality_handshake_server i));
       ("reality_handshake_port", jopt jint (Inbound.reality_handshake_port i));
       ("network", JString (Inbound.network i)); ("transport_path", jopt_str (Inbound.transport_path i));
       ("transport_host", jopt_str (Inbound.transport_host i));
       ("transport_service_name", jopt_str (Inbound.transport_service_name i));
       ("transport_mode", jopt_str (Inbound.transport_mode i)); ("ech", JBool (Inbound.ech i));
       ("utls_fingerprint", jopt_str (Inbound.utls_fingerprint i));
       ("shadowtls_handshake_server", jopt_str (Inbound.shadowtls_handshake_server i));
       ("shadowtls_handshake_port", jopt jint (Inbound.shadowtls_handshake_port i)); ("extra", Inbound.extra i);
       ("enabled", JBool (Inbound.enabled i)); ("reachable", jopt JBool (Inbound.reachable i));
       ("reach_checked_at", jopt jtime (Inbound.reach_checked_at i)); ("reach_error", jopt_str (Inbound.reach_error i));
       ("fallback_host", jopt_str (Inbound.fallback_host i)); ("sni_pool", jstrs (Inbound.sni_pool i));
       ("cdn_pool", jstrs (Inbound.cdn_pool i)); ("up_mbps", jint (Inbound.up_mbps i));
       ("down_mbps", jint (Inbound.down_mbps i)); ("udp_idle_timeout", JString (Inbound.udp_idle_timeout i));
       ("upstream_inbound_id", jopt juuid (Inbound.upstream_inbound_id i));
       ("chain_uuid", jopt_str (Inbound.chain_uuid i)); ("created_at", jtime (Inbound.created_at i));
       ("updated_at", jtime (Inbound.updated_at i))].

Definition update_inbound_of (v : json) : option UpdateInbound.UpdateInbound :=
  let! tag := opt_field de_string "tag" v in
  let! kind := opt_field de_string "kind" v in
  let! core := opt_field de_string "core" v in
  let! listen_port := opt_field de_i32 "listen_port" v in
  let! flow := opt_field de_string "flow" v in
  let! tls_enabled := opt_field de_bool "tls_enabled" v in
  let! server_name := patch_field de_string "server_name" v in
  let! cert_path := patch_field de_string "cert_path" v in
  let! key_path := patch_field de_string "key_path" v in
  let! reality := opt_field de_bool "reality" v in
  let! reality_private_key := patch_field de_string "reality_private_key" v in
  let! reality_public_key := patch_field de_string "reality_public_key" v in
  let! reality_short_ids := opt_field de_strings "reality_short_ids" v in
  let! reality_handshake_server := patch_field de_string "reality_handshake_server" v in
  let! reality_handshake_port := patch_field de_i32 "reality_handshake_port" v in
  let! network := opt_field de_string "network" v in
  let! transport_path := patch_field de_string "transport_path" v in
  let! transport_host := patch_field de_string "transport_host" v in
  let! transport_service_name := patch_field de_string "transport_service_name" v in
  let! transport_mode := patch_field de_string "transport_mode" v in
  let! ech := opt_field de_bool "ech" v in
  let! utls_fingerprint := patch_field de_string "utls_fingerprint" v in
  let! shadowtls_handshake_server := patch_field de_string "shadowtls_handshake_server" v in
  let! shadowtls_handshake_port := patch_field de_i32 "shadowtls_handshake_port" v in
  let! extra := opt_field de_json "extra" v in
  let! enabled := opt_field de_bool "enabled" v in
  let! fallback_host := patch_field de_string "fallback_host" v in
  let! sni_pool := opt_field de_strings "sni_pool" v in
  let! cdn_pool := opt_field de_strings "cdn_pool" v in
  let! up_mbps := opt_field de_i32 "up_mbps" v in
  let! down_mbps := opt_field de_i32 "down_mbps" v in
  let! udp_idle_timeout := opt_field de_string "udp_idle_timeout" v in
  let! upstream_inbound_id := patch_field de_uuid "upstream_inbound_id" v in
  Some (UpdateInbound.mk tag kind core listen_port flow tls_enabled server_name cert_path key_path reality
          reality_private_key reality_public_key reality_short_ids reality_handshake_server reality_handshake_port
          network transport_path transport_host transport_service_name transport_mode ech utls_fingerprint
          shadowtls_handshake_server shadowtls_handshake_port extra enabled fallback_host sni_pool cdn_pool
          up_mbps down_mbps udp_idle_timeout upstream_inbound_id).

(** *** A snapshot reads back as the state it was taken of *)

Hypothesis uuid_law : forall u, parse_uuid (uuid_str u) = Some u.
Hypothesis time_law : forall t, parse_timestamp (timestamp t) = Some t.

Definition in_i32 (n : Z) : Prop := -2147483648 <= n <= i32_max.
Definition within_i64 (n : Z) : Prop := i64_min <= n <= i64_max.

(** What a present, non-null field reads as. *)
Lemma opt_field_some {A} (de : json -> option A) k v x a :
  get k v = Some x -> x <> JNull -> de x = Some a -> opt_field de k v = Some (Some a).
Proof. intros Hg Hn Hd. unfold opt_field. rewrite Hg. destruct x; [done|by rewrite Hd..]. Qed.

Lemma patch_field_opt {A} (de : json -> option A) (f : A -> json) k v o :
  get k v = Some (jopt f o) -> (forall a, o = Some a -> f a <> JNull /\ de (f a) = Some a) ->
  patch_field de k v = Some (patch_of_present o).
Proof.
  intros Hg Hf. unfold patch_field. rewrite Hg. destruct o as [a|]; [|done]. destruct (Hf a eq_refl) as [Hn Hd]. simpl.
  destruct (f a); [done|by rewrite Hd..].
Qed.

Lemma de_strings_of l : de_strings (jstrs l) = Some l.
Proof. unfold de_strings, jstrs. apply mapM_fmap_Some. done. Qed.
Lemma de_i32_of n : in_i32 n -> de_i32 (jint n) = Some n.
Proof. unfold in_i32, de_i32, jint. intros H. replace (_ && _) with true; [done|]. symmetry. breflect. lia. Qed.
Lemma de_i64_of n : within_i64 n -> de_i64 (jint n) = Some n.
Proof. unfold within_i64, de_i64, as_i64, jint. intros H. replace (_ && _) with true; [done|]. symmetry. breflect. lia. Qed.
Lemma de_uuid_of u : juuid u <> JNull /\ de_uuid (juuid u) = Some u.
Proof. split; [done|]. apply uuid_law. Qed.
Lemma de_time_of t : jtime t <> JNull /\ de_time (jtime t) = Some t.
Proof. split; [done|]. apply time_law. Qed.
Lemma de_string_of s : JString s <> JNull /\ de_string (JString s) = Some s.
Proof. done. Qed.

(** Reads the next field of a literal snapshot. *)
Ltac next_field :=
  first
    [ erewrite opt_field_some;
      [ | vm_compute; reflexivity | done | solve [done | apply de_strings_of | by apply de_i32_of | by apply de_i64_of] ]
    | erewrite patch_field_opt;
      [ | vm_compute; reflexivity | intros ? ?; solve [apply de_string_of | apply de_time_of | apply de_uuid_of | split; [done|apply de_i32_of; eauto]] ]
    | match goal with |- context [patch_field ?de ?k ?v] => change (patch_field de k v) with (Some (@Missing string)) end ].

Lemma node_snapshot n : in_i32 (Node.grpc_port n) -> within_i64 (Node.monthly_cost_cents n) ->
  update_node_of (node_json n) =
  Some (UpdateNode.mk (Some (Node.name n)) (Some (Node.address n)) (Some (Node.tls_server_name n))
    (Some (Node.grpc_port n)) (Some (Node.transport n)) (Some (Node.enabled n)) (Some (Node.extra_addresses n))
    (Some (Node.maintenance n)) (Some (Node.monthly_cost_cents n))).
Proof. intros Hp Hc. unfold update_node_of. repeat next_field. done. Qed.

Lemma user_snapshot u : within_i64 (User.traffic_limit_bytes u) -> in_i32 (User.device_limit u) ->
  update_user_of (user_json u) =
  Some (UpdateUser.mk (Some (User.username u)) None (patch_of_present (User.subscription_title u))
    (patch_of_present (User.subscription_description u)) (patch_of_present (User.subscription_group u))
    (Some (User.subscription_traffic_policy u)) (Some (User.enabled u)) (Some (User.traffic_limit_bytes u))
    (patch_of_present (User.expires_at u)) (Some (User.device_limit u))).
Proof.
  intros Hl Hd. unfold update_user_of. next_field. change (opt_field de_string "password" (user_json u)) with (@Some (option string) None).
  repeat next_field. done.
Qed.

(** The integer columns of an inbound fit their type. *)
Definition inbound_ints (i : Inbound.Inbound) : Prop :=
  in_i32 (Inbound.listen_port i) /\ in_i32 (Inbound.up_mbps i) /\ in_i32 (Inbound.down_mbps i) /\
  (forall p, Inbound.reality_handshake_port i = Some p -> in_i32 p) /\
  (forall p, Inbound.shadowtls_handshake_port i = Some p -> in_i32 p).

Lemma extra_field i : opt_field de_json "extra" (inbound_json i) =
  Some (if is_null (Inbound.extra i) then None else Some (Inbound.extra i)).
Proof.
  unfold opt_field. replace (get "extra" (inbound_json i)) with (Some (Inbound.extra i)) by (vm_compute; reflexivity).
  by destruct (Inbound.extra i).
Qed.

Lemma inbound_snapshot i : inbound_ints i ->
  update_inbound_of (inbound_json i) =
  Some (UpdateInbound.mk (Some (Inbound.tag i)) (Some (Inbound.kind i)) (Some (Inbound.core i))
    (Some (Inbound.listen_port i)) (Some (Inbound.flow i)) (Some (Inbound.tls_enabled i))
    (patch_of_present (Inbound.server_name i)) (patch_of_present (Inbound.cert_path i))
    (patch_of_present (Inbound.key_path i)) (Some (Inbound.reality i)) Missing
    (patch_of_present (Inbound.reality_public_key i)) (Some (Inbound.reality_short_ids i))
    (patch_of_present (Inbound.reality_handshake_server i)) (patch_of_present (Inbound.reality_handshake_port i))
    (Some (Inbound.network i)) (patch_of_present (Inbound.transport_path i))
    (patch_of_present (Inbound.transport_host i)) (patch_of_present (Inbound.transport_service_name i))
    (patch_of_present (Inbound.transport_mode i)) (Some (Inbound.ech i))
    (patch_of_present (Inbound.utls_fingerprint i)) (patch_of_present (Inbound.shadowtls_handshake_server i))
    (patch_of_present (Inbound.shadowtls_handshake_port i))
    (if is_null (Inbound.extra i) then None else Some (Inbound.extra i)) (Some (Inbound.enabled i))
    (patch_of_present (Inbound.fallback_host i)) (Some (Inbound.sni_pool i)) (Some (Inbound.cdn_pool i))
    (Some (Inbound.up_mbps i)) (Some (Inbound.down_mbps i)) (Some (Inbound.udp_idle_timeout i))
    (patch_of_present (Inbound.upstream_inbound_id i))).
Proof.
  intros (Hp & Hu & Hd & Hr & Hs). unfold update_inbound_of. rewrite extra_field. repeat next_field. done.
Qed.
End Snapshots.

(** ** The history of an entity *)

Record Recording := mkRecording {
  rec_at : Z;
  rec_kind : string;
  rec_entity : Uuid;
  rec_snapshot : json;
  rec_actor : option string }.

Definition record_all (l : list Recording) (t : VersionTable) : VersionTable :=
  fold_left (fun t r => record_entity_version (rec_at r) (rec_kind r) (rec_entity r) (rec_snapshot r) (rec_actor r) t) l t.

(** Every version ever recorded, none dropped. *)
Fixpoint complete_log (n : Z) (l : list Recording) : list EntityVersion :=
  match l with
  | [] => []
  | r :: l => mkVersion n (rec_kind r) (rec_entity r) (rec_snapshot r) (rec_actor r) (rec_at r) :: complete_log (n + 1) l
  end.

Definition ascending : list EntityVersion -> Prop := StronglySorted (fun a b => v_id a < v_id b).
Definition last20 (l : list EntityVersion) : list EntityVersion := drop (length l - 20) l.

Lemma newest_ascending l : ascending l -> newest l = take 20 (rev l).
Proof.
  intros Hl. unfold newest. f_equal.
  apply (StronglySorted_unique_strong (fun a b => (v_id b <=? v_id a) = true)).
  - intros a b Ha Hb Hab Hba. breflect. assert (Hid : v_id a = v_id b) by lia. clear Hab Hba.
    rewrite sort_by_perm in Ha. rewrite list_elem_of_In, <- in_rev, <- list_elem_of_In in Hb.
    induction Hl as [|x l Hs IH Hx]; [by apply elem_of_nil in Ha|]. rewrite Forall_forall in Hx.
    apply elem_of_cons in Ha as [->|Ha], Hb as [Hb|Hb]; [done| | |by apply IH];
      [specialize (Hx b Hb)|subst b; specialize (Hx a Ha)]; lia.
  - apply sort_by_sorted; intros; breflect; lia.
  - induction Hl as [|x l Hs IH Hx]; simpl; [constructor|].
    rewrite Forall_forall in Hx. clear Hs.
    assert (Hr : Forall (fun y => v_id x < v_id y) (rev l)).
    { apply Forall_forall. intros y. rewrite list_elem_of_In, <- in_rev, <- list_elem_of_In. apply Hx. }
    clear Hx. induction (rev l) as [|y r IHr]; simpl; [repeat constructor|].
    inversion IH as [|? ? Hs Hf]; subst. inversion Hr as [|? ? Hy Hr']; subst. constructor; [by apply IHr|].
    apply Forall_app. split; [done|]. constructor; [|constructor]. breflect. lia.
  - rewrite sort_by_perm. apply Permutation_rev.
Qed.

Lemma take_rev_last20 l : take 20 (rev l) = rev (last20 l).
Proof. apply firstn_rev. Qed.

Lemma filter_ascending p l : ascending l -> ascending (List.filter p l).
Proof.
  unfold ascending. induction 1 as [|x l Hs IH Hx]; simpl; [constructor|]. destruct (p x); [|done]. constructor; [done|].
  rewrite Forall_forall in *. intros y Hy. rewrite list_elem_of_In, filter_In, <- list_elem_of_In in Hy. apply Hx, Hy.
Qed.

Lemma ascending_snoc l v : ascending l -> (forall x, x ∈ l -> v_id x < v_id v) -> ascending (l ++ [v]).
Proof.
  unfold ascending. induction 1 as [|x l Hs IH Hx]; intros Hv; simpl; [repeat constructor|]. constructor.
  - apply IH. intros y Hy. apply Hv. by right.
  - apply Forall_app. split; [done|]. constructor; [|constructor]. apply Hv. by left.
Qed.

Lemma last20_snoc l v : last20 (last20 l ++ [v]) = last20 (l ++ [v]).
Proof.
  unfold last20. rewrite !length_app, length_drop. simpl.
  destruct (decide (length l <= 20)%nat) as [Hle|Hgt]; [replace (length l - 20)%nat with 0%nat by lia; by rewrite drop_0, Nat.sub_0_r|].
  replace (length l - (length l - 20) + 1 - 20)%nat with 1%nat by lia.
  replace (length l + 1 - 20)%nat with (S (length l - 20)) by lia.
  rewrite !drop_app_le by (rewrite ?length_drop; lia). by rewrite drop_drop, Nat.add_1_r.
Qed.

(** The pruning keeps the last twenty of an ascending list. *)
Lemma keep_last20 l : ascending l ->
  List.filter (fun v => existsb (fun k => v_id k =? v_id v) (rev (last20 l))) l = last20 l.
Proof.
  intros Hl. set (n := (length l - 20)%nat). change (last20 l) with (drop n l). rewrite <- (take_drop n l) in Hl at 1.
  transitivity (List.filter (fun v => existsb (fun k => v_id k =? v_id v) (rev (drop n l))) (take n l ++ drop n l));
    [by rewrite take_drop|]. rewrite List.filter_app.
  apply StronglySorted_app in Hl as (Hcross & _ & _).
  assert (List.filter (fun v => existsb (fun k => v_id k =? v_id v) (rev (drop n l))) (take n l) = []) as ->.
  { destruct (List.filter _ (take n l)) as [|x r] eqn:Ef; [done|]. exfalso.
    assert (Hx : In x (x :: r)) by by left. rewrite <- Ef in Hx. apply filter_In in Hx as [Hx He]. apply existsb_exists in He as (k & Hk & Heq).
    rewrite <- in_rev in Hk. breflect. rewrite <- list_elem_of_In in Hx, Hk. specialize (Hcross x k Hx Hk). lia. }
  simpl. apply forallb_filter_id, forallb_forall. intros y Hy.
  apply existsb_exists. exists y. rewrite <- in_rev. split; [done|apply Z.eqb_refl].
Qed.

Definition refines (t : VersionTable) (log : list EntityVersion) : Prop :=
  ascending (versions t) /\ (forall v, v ∈ versions t -> v_id v < next_version t) /\
  forall kind id, List.filter (of_entity kind id) (versions t) = last20 (List.filter (of_entity kind id) log).

Lemma filter_filter {A} (p q : A -> bool) l : (forall x, p x = true -> q x = true) -> List.filter p (List.filter q l) = List.filter p l.
Proof.
  intros H. induction l as [|x l IH]; simpl; [done|]. destruct (q x) eqn:Eq; simpl; [by rewrite IH|].
  destruct (p x) eqn:Ep; [|done]. by rewrite H in Eq.
Qed.

Lemma filter_and {A} (p q r : A -> bool) l : (forall x, p x = true -> q x = r x) ->
  List.filter p (List.filter q l) = List.filter r (List.filter p l).
Proof.
  intros H. induction l as [|x l IH]; simpl; [done|]. specialize (H x).
  destruct (p x) eqn:Ep; simpl; [rewrite <- H by done|]; destruct (q x); simpl; rewrite ?Ep, IH; done.
Qed.

Lemma record_refines now kind id snapshot actor t log : refines t log ->
  refines (record_entity_version now kind id snapshot actor t)
    (log ++ [mkVersion (next_version t) kind id snapshot actor now]).
Proof.
  intros (Hs & Hlt & Hent). set (v := mkVersion (next_version t) kind id snapshot actor now).
  assert (Hl : ascending (versions t ++ [v])) by (apply ascending_snoc; [done|exact Hlt]).
  unfold record_entity_version, refines. fold v. cbn [versions next_version]. split_and!.
  - by apply filter_ascending.
  - intros x Hx. rewrite list_elem_of_In, filter_In, <- list_elem_of_In in Hx. destruct Hx as [Hx _].
    apply elem_of_app in Hx as [Hx|Hx]; [specialize (Hlt x Hx)|apply list_elem_of_singleton in Hx as ->; simpl]; lia.
  - intros k i. rewrite (List.filter_app _ log).
    destruct (decide (k = kind /\ i = id)) as [[-> ->]|Hne].
    + rewrite newest_ascending, take_rev_last20 by by apply filter_ascending.
      rewrite (filter_and _ _ (fun x => existsb (fun y => v_id y =? v_id x)
        (rev (last20 (List.filter (of_entity kind id) (versions t ++ [v])))))) by (intros x ->; done).
      rewrite keep_last20 by by apply filter_ascending. rewrite List.filter_app, Hent.
      replace (List.filter (of_entity kind id) [v]) with [v]; [apply last20_snoc|].
      simpl. unfold of_entity. simpl. by rewrite String.eqb_refl, Z.eqb_refl.
    + assert (Hd : forall x, of_entity k i x = true -> of_entity kind id x = false).
      { intros x H. apply not_true_iff_false. intros H'. unfold of_entity in *. breflect. destruct H, H'. apply Hne. split; congruence. }
      rewrite filter_filter by (intros x Hx; by rewrite (Hd x Hx)). rewrite List.filter_app, Hent.
      assert (List.filter (of_entity k i) [v] = []) as ->; [|by rewrite !app_nil_r].
      simpl. destruct (of_entity k i v) eqn:E; [|done]. apply Hd in E. unfold of_entity in E. simpl in E.
      by rewrite String.eqb_refl, Z.eqb_refl in E.
Qed.

Lemma get_version t v : ascending (versions t) -> get_entity_version (v_id v) t = Some v <-> In v (versions t).
Proof.
  unfold get_entity_version. induction 1 as [|x l Hs IH Hx]; simpl; [done|]. rewrite Forall_forall in Hx.
  destruct (Z.eqb_spec (v_id x) (v_id v)) as [He|Hne].
  - split; [intros [= ->]; by left|]. intros [->|Hin]; [done|].
    apply list_elem_of_In in Hin. specialize (Hx v Hin). lia.
  - rewrite IH. split; [by right|]. by intros [->|].
Qed.

Lemma record_all_refines l t log : refines t log -> refines (record_all l t) (log ++ complete_log (next_version t) l).
Proof.
  revert t log. induction l as [|r l IH]; intros t log H; simpl; [by rewrite app_nil_r|].
  replace (log ++ _ :: complete_log (next_version t + 1) l)
    with ((log ++ [mkVersion (next_version t) (rec_kind r) (rec_entity r) (rec_snapshot r) (rec_actor r) (rec_at r)])
          ++ complete_log (next_version t + 1) l) by by rewrite <- app_assoc.
  apply (IH (record_entity_version _ _ _ _ _ t)). by apply record_refines.
Qed.

(** C26: the history refines the complete log.  Whatever is recorded, in whatever
    order, for whatever entities, the history of an entity is the last twenty
    of all versions recorded for it, newest first, and a version is found by
    its number exactly while it is in that list. *)
Theorem history_refines_log l :
  (forall kind id, list_entity_versions kind id (record_all l no_versions)
     = take 20 (rev (List.filter (of_entity kind id) (complete_log 1 l)))) /\
  (forall v, get_entity_version (v_id v) (record_all l no_versions) = Some v <->
     In v (list_entity_versions (v_resource_type v) (v_resource_id v) (record_all l no_versions))).
Proof.
  assert (H : refines (record_all l no_versions) (complete_log 1 l)).
  { apply (record_all_refines l no_versions []). split; [constructor|split; [by intros v Hv%elem_of_nil|done]]. }
  destruct H as (Hs & _ & Hent). split.
  - intros kind id. unfold list_entity_versions. rewrite newest_ascending by by apply filter_ascending.
    by rewrite Hent, <- take_rev_last20, take_take.
  - intros v. rewrite get_version by done. unfold list_entity_versions.
    rewrite newest_ascending by by apply filter_ascending. rewrite take_ge.
    + rewrite <- in_rev, filter_In. unfold of_entity. rewrite String.eqb_refl, Z.eqb_refl. tauto.
    + rewrite length_rev, Hent. unfold last20. rewrite length_drop. lia.
Qed.
