(* ===== verification/Fleet.v ===== *)
(** * The fleet: nodes, groups, routing profiles, WireGuard interfaces and
    the version history (their handlers in src/master/src/api/mod.rs and their
    queries in src/master/src/db/repo.rs)

    The database's collation, the cipher, key generation and the printing of
    timestamps and uuids are parameters. *)

From S2P Require Import Prelude Strings Json Models Db Api Handler Access Wg Spec Inbounds Auth Labels Users Delivery Versions.

(** The whole store: the world subscriptions are served from, and the history. *)
Record FleetDb := mkFleet {
  world : World;
  history : VersionTable }.

#[local] Abbreviation M := (Handler.M FleetDb).

Definition fleet_tables (f : FleetDb) : Db := w_tables (world f).
Definition profiles (f : FleetDb) : gmap Uuid RoutingProfile.RoutingProfile := w_profiles (world f).

Definition with_world g (f : FleetDb) : FleetDb := mkFleet (g (world f)) (history f).
Definition with_accounts_db g (w : World) : World :=
  mkWorld (g (accounts_db w)) (w_interfaces w) (w_peers w) (w_services w) (w_profiles w) (w_settings w).
Definition with_interfaces g (w : World) : World :=
  mkWorld (accounts_db w) (g (w_interfaces w)) (w_peers w) (w_services w) (w_profiles w) (w_settings w).
Definition with_profiles g (w : World) : World :=
  mkWorld (accounts_db w) (w_interfaces w) (w_peers w) (w_services w) (g (w_profiles w)) (w_settings w).
Definition with_fleet_tables g (f : FleetDb) : FleetDb := with_world (with_accounts_db (with_tables g)) f.

(** Statements on a part of the store. *)
Definition on_tables {A} (q : Db -> result (A * Db) db_error) (f : FleetDb) : result A db_error * FleetDb :=
  match q (fleet_tables f) with
  | Ok (a, db) => (Ok a, with_fleet_tables (fun _ => db) f)
  | Err e => (Err e, f)
  end.
Definition on_profiles {A}
    (q : gmap Uuid RoutingProfile.RoutingProfile -> result (A * gmap Uuid RoutingProfile.RoutingProfile) db_error)
    (f : FleetDb) : result A db_error * FleetDb :=
  match q (profiles f) with
  | Ok (a, m) => (Ok a, with_world (with_profiles (fun _ => m)) f)
  | Err e => (Err e, f)
  end.
(** What the inbound component does to the tables, whatever it answers. *)
Definition on_inbounds {A E} (q : Db -> result A E * Db) (f : FleetDb) : result A E * FleetDb :=
  let (r, db) := q (fleet_tables f) in (r, with_fleet_tables (fun _ => db) f).
Definition on_tables_step {A} (q : Db -> result A api_error * Db) : M A := fun s =>
  let (r, f) := on_inbounds q (store s) in (r, mkSt f (trace s)).
(** A step of the user component, on the accounts of the fleet. *)
Definition in_users {A} (m : Handler.M UserDb A) : M A := fun s =>
  let (r, s') := m (mkSt (accounts_db (world (store s))) (trace s)) in
  (r, mkSt (with_world (with_accounts_db (fun _ => store s')) (store s)) (trace s')).

(** ** Nodes *)

(** [length(trim(...)) > 0] of the database, whose trim removes spaces. *)
Definition has_text (s : string) : bool := negb (all_bytes (fun c => code c =? 32) s).

Definition node_checks (n : Node.Node) : bool :=
  valid_transport (Node.transport n) && port_ok (Node.grpc_port n) && has_text (Node.tls_server_name n)
  && (length (Node.labels n) <=? 16)%nat.

(** UNIQUE (name), against every row but [id]. *)
Definition name_taken {V} (name : V -> string) (id : Uuid) (v : V) (m : gmap Uuid V) : bool :=
  existsb (fun kv => negb (kv.1 =? id) && String.eqb (name kv.2) (name v)) (map_to_list m).

Definition write_node (id : Uuid) (n : Node.Node) (db : Db) : result (Node.Node * Db) db_error :=
  bail CheckViolation when negb (node_checks n) in
  bail UniqueViolation when name_taken Node.name id n (nodes db) in
  Ok (n, with_nodes (fun m => <[id := n]> m) db).

Definition new_node (id now : Z) (n : NewNode.NewNode) : Node.Node :=
  Node.mk id (NewNode.name n) (NewNode.address n) (NewNode.tls_server_name n) (NewNode.grpc_port n)
    (NewNode.transport n) [] [] true false None None None None None None None None None None
    (Z.max (NewNode.monthly_cost_cents n) 0) now now.

Definition create_node_row (id now : Z) (n : NewNode.NewNode) (db : Db) : result (Node.Node * Db) db_error :=
  bail UniqueViolation when is_some (nodes db !! id) in
  write_node id (new_node id now n) db.

Definition node_updated (now : Z) (u : UpdateNode.UpdateNode) (n : Node.Node) : Node.Node :=
  Node.mk (Node.id n) (coalesce (UpdateNode.name u) (Node.name n)) (coalesce (UpdateNode.address u) (Node.address n))
    (coalesce (UpdateNode.tls_server_name u) (Node.tls_server_name n))
    (coalesce (UpdateNode.grpc_port u) (Node.grpc_port n)) (coalesce (UpdateNode.transport u) (Node.transport n))
    (coalesce (UpdateNode.extra_addresses u) (Node.extra_addresses n)) (Node.labels n)
    (coalesce (UpdateNode.enabled u) (Node.enabled n)) (coalesce (UpdateNode.maintenance u) (Node.maintenance n))
    (Node.last_seen n) (Node.agent_version n) (Node.singbox_version n) (Node.desired_spec_hash n)
    (Node.applied_spec_hash n) (Node.applied_spec_summary n) (Node.applied_at n) (Node.last_push_at n)
    (Node.last_push_status n) (Node.last_push_message n)
    (coalesce (Z.max 0 <$> UpdateNode.monthly_cost_cents u) (Node.monthly_cost_cents n)) (Node.created_at n) now.

Definition with_node_labels (now : Z) (labels : list string) (n : Node.Node) : Node.Node :=
  Node.mk (Node.id n) (Node.name n) (Node.address n) (Node.tls_server_name n) (Node.grpc_port n) (Node.transport n)
    (Node.extra_addresses n) labels (Node.enabled n) (Node.maintenance n) (Node.last_seen n) (Node.agent_version n)
    (Node.singbox_version n) (Node.desired_spec_hash n) (Node.applied_spec_hash n) (Node.applied_spec_summary n)
    (Node.applied_at n) (Node.last_push_at n) (Node.last_push_status n) (Node.last_push_message n)
    (Node.monthly_cost_cents n) (Node.created_at n) now.

(** UPDATE nodes SET ... WHERE id = $1 RETURNING *. *)
Definition alter_node (id : Uuid) (f : Node.Node -> Node.Node) (db : Db) : result (option Node.Node * Db) db_error :=
  match nodes db !! id with
  | None => Ok (None, db)
  | Some n => let? r := write_node id (f n) db in Ok (Some r.1, r.2)
  end.

Definition update_node_row (now id : Z) (u : UpdateNode.UpdateNode) := alter_node id (node_updated now u).
Definition set_node_labels_row (now id : Z) (labels : list string) := alter_node id (with_node_labels now labels).

Definition list_nodes (db : Db) : list Node.Node :=
  sort_by (fun a b => Node.created_at a <=? Node.created_at b) (rows (nodes db)).

(** DELETE FROM nodes: with its inbounds, memberships and traffic go its
    interfaces, their peers, and its services. *)
Definition delete_node_row (id : Uuid) (f : FleetDb) : result bool db_error * FleetDb :=
  let w := world f in
  match delete_node id (w_tables w) with
  | (false, _) => (Ok false, f)
  | (true, db) =>
      let on_node i := WgInterface.node_id i =? id in
      let orphan p := existsb (fun i => on_node i && (WgInterface.id i =? WgPeer.interface_id p)) (w_interfaces w) in
      (Ok true,
       with_world (fun w => mkWorld (with_tables (fun _ => db) (accounts_db w))
         (List.filter (fun i => negb (on_node i)) (w_interfaces w)) (List.filter (fun p => negb (orphan p)) (w_peers w))
         (List.filter (fun s => negb (NodeService.node_id s =? id)) (w_services w)) (w_profiles w) (w_settings w)) f)
  end.

(** ** Groups *)

Record NewNodeGroup := mkNewGroup { ng_name : string; ng_note : string }.
Record UpdateNodeGroup := mkUpdateGroup { ug_name : option string; ug_note : option string }.

Definition write_group (id : Uuid) (g : NodeGroup) (db : Db) : result (NodeGroup * Db) db_error :=
  bail CheckViolation when is_empty (group_name g) in
  bail UniqueViolation when name_taken group_name id g (node_groups db) in
  Ok (g, mkDb (nodes db) (inbounds db) (users db) (<[id := g]> (node_groups db)) (node_group_members db)
           (user_group_access db) (node_user_traffic db) (traffic_usage_hourly db)).

Definition create_node_group (id : Uuid) (input : NewNodeGroup) (db : Db) : result (NodeGroup * Db) db_error :=
  bail UniqueViolation when is_some (node_groups db !! id) in
  write_group id (mkGroup (trim (ng_name input)) false (trim (ng_note input))) db.

Definition update_node_group (id : Uuid) (input : UpdateNodeGroup) (db : Db) : result (option NodeGroup * Db) db_error :=
  match node_groups db !! id with
  | None => Ok (None, db)
  | Some cur =>
      let? r := write_group id (mkGroup (trim (default (group_name cur) (ug_name input))) (is_default cur)
                                  (trim (default (note cur) (ug_note input)))) db in
      Ok (Some r.1, r.2)
  end.

(** DELETE FROM node_groups: the groups sold to resellers cascade too. *)
Definition delete_group_row (id : Uuid) (f : FleetDb) : result bool db_error * FleetDb :=
  match delete_node_group id (fleet_tables f) with
  | (false, _) => (Ok false, f)
  | (true, db) =>
      (Ok true, with_world (with_accounts_db (fun u => with_sold (filter (fun e => e.2 <> id)) (with_tables (fun _ => db) u))) f)
  end.

Definition node_group_ids (node : Uuid) (db : Db) : list Uuid :=
  snd <$> List.filter (fun e => e.1 =? node) (elements (node_group_members db)).

Definition set_node_groups_row (node : Uuid) (groups : list Uuid) (db : Db) : result (unit * Db) db_error :=
  let? db := set_node_groups node groups db in Ok (tt, db).

(** ** Routing profiles *)

Module NewRoutingProfile.
Record NewRoutingProfile := mk {
  name : string;
  block_ads : bool;
  direct_private : bool;
  direct_geosite : list string;
  direct_geoip : list string;
  final_proxy : bool;
  is_default : bool;
  notes : string;
  block_adult : bool;
  block_gambling : bool;
  blocked_domains : list string;
  direct_domains : list string;
  proxy_domains : list string;
  app_rules : json;
  dns_doh : string;
  dns_fakeip : bool;
  dns_block_plain : bool }.
End NewRoutingProfile.

Module UpdateRoutingProfile.
Record UpdateRoutingProfile := mk {
  name : option string;
  block_ads : option bool;
  direct_private : option bool;
  direct_geosite : option (list string);
  direct_geoip : option (list string);
  final_proxy : option bool;
  is_default : option bool;
  notes : option string;
  block_adult : option bool;
  block_gambling : option bool;
  blocked_domains : option (list string);
  direct_domains : option (list string);
  proxy_domains : option (list string);
  app_rules : option json;
  dns_doh : option string;
  dns_fakeip : option bool;
  dns_block_plain : option bool }.
End UpdateRoutingProfile.

#[local] Abbreviation Profile := RoutingProfile.RoutingProfile.
#[local] Abbreviation Profiles := (gmap Uuid RoutingProfile.RoutingProfile).

(** UPDATE routing_profiles SET is_default = false, with the trigger's stamp. *)
Definition undefaulted (now : Z) (p : Profile) : Profile :=
  if RoutingProfile.is_default p then
    RoutingProfile.mk (RoutingProfile.id p) (RoutingProfile.name p) (RoutingProfile.version p) (RoutingProfile.block_ads p)
      (RoutingProfile.direct_private p) (RoutingProfile.direct_geosite p) (RoutingProfile.direct_geoip p)
      (RoutingProfile.final_proxy p) false (RoutingProfile.notes p) (RoutingProfile.block_adult p)
      (RoutingProfile.block_gambling p) (RoutingProfile.blocked_domains p) (RoutingProfile.direct_domains p)
      (RoutingProfile.proxy_domains p) (RoutingProfile.app_rules p) (RoutingProfile.dns_doh p) (RoutingProfile.dns_fakeip p)
      (RoutingProfile.dns_block_plain p) (RoutingProfile.created_at p) now
  else p.

(** The check on the name, UNIQUE (name), and at most one default. *)
Definition write_profile (id : Uuid) (p : Profile) (m : Profiles) : result (Profile * Profiles) db_error :=
  bail CheckViolation when is_empty (RoutingProfile.name p) in
  bail UniqueViolation
    when name_taken RoutingProfile.name id p m
         || (RoutingProfile.is_default p
             && existsb (fun kv => negb (kv.1 =? id) && RoutingProfile.is_default kv.2) (map_to_list m)) in
  Ok (p, <[id := p]> m).

Definition new_profile (id now : Z) (n : NewRoutingProfile.NewRoutingProfile) : Profile :=
  RoutingProfile.mk id (trim (NewRoutingProfile.name n)) 1 (NewRoutingProfile.block_ads n)
    (NewRoutingProfile.direct_private n) (NewRoutingProfile.direct_geosite n) (NewRoutingProfile.direct_geoip n)
    (NewRoutingProfile.final_proxy n) (NewRoutingProfile.is_default n) (trim (NewRoutingProfile.notes n))
    (NewRoutingProfile.block_adult n) (NewRoutingProfile.block_gambling n) (NewRoutingProfile.blocked_domains n)
    (NewRoutingProfile.direct_domains n) (NewRoutingProfile.proxy_domains n) (NewRoutingProfile.app_rules n)
    (trim (NewRoutingProfile.dns_doh n)) (NewRoutingProfile.dns_fakeip n) (NewRoutingProfile.dns_block_plain n) now now.

(** In one transaction. *)
Definition create_routing_profile (id now : Z) (n : NewRoutingProfile.NewRoutingProfile) (m : Profiles)
    : result (Profile * Profiles) db_error :=
  let m := if NewRoutingProfile.is_default n then undefaulted now <$> m else m in
  bail UniqueViolation when is_some (m !! id) in
  write_profile id (new_profile id now n) m.

Definition profile_updated (now : Z) (u : UpdateRoutingProfile.UpdateRoutingProfile) (p : Profile) : Profile :=
  RoutingProfile.mk (RoutingProfile.id p)
    (trim (default (RoutingProfile.name p) (UpdateRoutingProfile.name u))) (RoutingProfile.version p + 1)
    (default (RoutingProfile.block_ads p) (UpdateRoutingProfile.block_ads u))
    (default (RoutingProfile.direct_private p) (UpdateRoutingProfile.direct_private u))
    (default (RoutingProfile.direct_geosite p) (UpdateRoutingProfile.direct_geosite u))
    (default (RoutingProfile.direct_geoip p) (UpdateRoutingProfile.direct_geoip u))
    (default (RoutingProfile.final_proxy p) (UpdateRoutingProfile.final_proxy u))
    (default (RoutingProfile.is_default p) (UpdateRoutingProfile.is_default u))
    (trim (default (RoutingProfile.notes p) (UpdateRoutingProfile.notes u)))
    (default (RoutingProfile.block_adult p) (UpdateRoutingProfile.block_adult u))
    (default (RoutingProfile.block_gambling p) (UpdateRoutingProfile.block_gambling u))
    (default (RoutingProfile.blocked_domains p) (UpdateRoutingProfile.blocked_domains u))
    (default (RoutingProfile.direct_domains p) (UpdateRoutingProfile.direct_domains u))
    (default (RoutingProfile.proxy_domains p) (UpdateRoutingProfile.proxy_domains u))
    (default (RoutingProfile.app_rules p) (UpdateRoutingProfile.app_rules u))
    (trim (default (RoutingProfile.dns_doh p) (UpdateRoutingProfile.dns_doh u)))
    (default (RoutingProfile.dns_fakeip p) (UpdateRoutingProfile.dns_fakeip u))
    (default (RoutingProfile.dns_block_plain p) (UpdateRoutingProfile.dns_block_plain u))
    (RoutingProfile.created_at p) now.

Definition update_routing_profile (now id : Z) (u : UpdateRoutingProfile.UpdateRoutingProfile) (m : Profiles)
    : result (option Profile * Profiles) db_error :=
  match m !! id with
  | None => Ok (None, m)
  | Some cur =>
      let p := profile_updated now u cur in
      let m := if RoutingProfile.is_default p
               then map_imap (fun k q => Some (if k =? id then q else undefaulted now q)) m else m in
      bail NumericOutOfRange when i32_max <? RoutingProfile.version p in
      let? r := write_profile id p m in Ok (Some r.1, r.2)
  end.

Definition with_routing_profile (now : Z) (profile : option Uuid) (u : User.User) : User.User :=
  User.mk (User.id u) (User.username u) (User.subscription_title u) (User.subscription_description u)
    (User.subscription_group u) (User.subscription_traffic_policy u) (User.labels u) (User.uuid u) (User.password u)
    (User.enabled u) (User.traffic_limit_bytes u) (User.used_traffic_bytes u) (User.expires_at u) (User.device_limit u)
    profile (User.quota_interval u) (User.quota_reset_at u) (User.created_by u) (User.subscription_alias u)
    (User.created_at u) now.

(** ON DELETE SET NULL on the users pinned to it. *)
Definition unpin (now profile : Z) (u : User.User) : User.User :=
  if bool_decide (User.routing_profile_id u = Some profile) then with_routing_profile now None u else u.

Definition delete_routing_profile (now id : Z) (f : FleetDb) : result bool db_error * FleetDb :=
  match profiles f !! id with
  | None => (Ok false, f)
  | Some _ =>
      (Ok true, with_fleet_tables (with_users (fmap (unpin now id))) (with_world (with_profiles (delete id)) f))
  end.

Section Rows.
Context (collate : string -> string -> bool) (sql_lower : string -> string).

(** ORDER BY is_default DESC, name. *)
Definition list_node_groups (db : Db) : list (Uuid * NodeGroup) :=
  sort_by (fun a b => if Bool.eqb (is_default a.2) (is_default b.2) then collate (group_name a.2) (group_name b.2)
                      else is_default a.2) (map_to_list (node_groups db)).

Definition list_routing_profiles (m : Profiles) : list Profile :=
  sort_by (fun a b => collate (RoutingProfile.name a) (RoutingProfile.name b)) (rows m).

Definition set_user_routing_profile (now user : Z) (profile : option Uuid) (f : FleetDb) : result bool db_error * FleetDb :=
  let u := accounts_db (world f) in
  if is_some (users (tables u) !! user) && negb (map_or profile true (fun p => is_some (profiles f !! p)))
  then (Err ForeignKeyViolation, f)
  else
    match update_row sql_lower user (with_routing_profile now profile) (fun t => t) u with
    | (Ok o, u') => (Ok (is_some o), with_world (with_accounts_db (fun _ => u')) f)
    | (Err e, _) => (Err e, f)
    end.
End Rows.

(** ** WireGuard interfaces *)

Record NewWgInterface := mkNewWg {
  nw_name : string;
  nw_listen_port : Z;
  nw_address_cidr : string;
  nw_dns : string;
  nw_mtu : Z;
  nw_amnezia : bool;
  nw_endpoint_host : option string }.

Record UpdateWgInterface := mkUpdateWg {
  uw_name : option string;
  uw_listen_port : option Z;
  uw_dns : option string;
  uw_mtu : option Z;
  uw_enabled : option bool;
  uw_endpoint_host : Patch string }.

(** [serde_json::to_value] on the parameters. *)
Definition amnezia_json (a : AmneziaParams) : json :=
  obj [("jc", jint (jc a)); ("jmin", jint (jmin a)); ("jmax", jint (jmax a)); ("s1", jint (s1 a)); ("s2", jint (s2 a));
       ("h1", jint (h1 a)); ("h2", jint (h2 a)); ("h3", jint (h3 a)); ("h4", jint (h4 a))].

(** UNIQUE (node_id, listen_port), against every row but [id]. *)
Definition wg_port_taken (id node port : Z) (l : list WgInterface.WgInterface) : bool :=
  existsb (fun i => negb (WgInterface.id i =? id) && (WgInterface.node_id i =? node)
                    && (WgInterface.listen_port i =? port)) l.

Definition wg_updated (now : Z) (u : UpdateWgInterface) (i : WgInterface.WgInterface) : WgInterface.WgInterface :=
  WgInterface.mk (WgInterface.id i) (WgInterface.node_id i) (coalesce (uw_name u) (WgInterface.name i))
    (coalesce (uw_listen_port u) (WgInterface.listen_port i)) (WgInterface.private_key i) (WgInterface.public_key i)
    (WgInterface.address_cidr i) (coalesce (uw_dns u) (WgInterface.dns i)) (coalesce (uw_mtu u) (WgInterface.mtu i))
    (WgInterface.amnezia i) (WgInterface.amnezia_params i)
    (effective (uw_endpoint_host u) (WgInterface.endpoint_host i)) (coalesce (uw_enabled u) (WgInterface.enabled i))
    (WgInterface.created_at i) now.

Definition find_wg (id : Uuid) (w : World) : option WgInterface.WgInterface :=
  List.find (fun i => WgInterface.id i =? id) (w_interfaces w).

(** DELETE FROM wg_interfaces: the peers cascade. *)
Definition delete_wg_interface (id : Uuid) (f : FleetDb) : result bool db_error * FleetDb :=
  let w := world f in
  (Ok (is_some (find_wg id w)),
   with_world (fun w => mkWorld (accounts_db w) (List.filter (fun i => negb (WgInterface.id i =? id)) (w_interfaces w))
     (List.filter (fun p => negb (WgPeer.interface_id p =? id)) (w_peers w)) (w_services w) (w_profiles w) (w_settings w)) f).

Section WgRows.
Context (encrypt decrypt : string -> option string).

(** The key pair and the parameters are drawn before the row is written. *)
Definition create_wg_interface (keys : result Keypair wg_error) (params : result AmneziaParams wg_error)
    (id now node : Z) (n : NewWgInterface) (f : FleetDb) : result WgInterface.WgInterface api_error * FleetDb :=
  match lift_wg keys, (if nw_amnezia n then let? a := lift_wg params in Ok (amnezia_json a) else Ok (obj [])) with
  | Err e, _ | _, Err e => (Err e, f)
  | Ok kp, Ok amnezia =>
      match encrypt (private_key kp) with
      | None => (Err (ApiDb EncryptFailed), f)
      | Some enc =>
          let i := WgInterface.mk id node (trim (nw_name n)) (nw_listen_port n) enc (public_key kp)
                     (trim (nw_address_cidr n)) (trim (nw_dns n)) (nw_mtu n) (nw_amnezia n) amnezia
                     (trim <$> nw_endpoint_host n) true now now in
          if is_some (find_wg id (world f)) || wg_port_taken id node (nw_listen_port n) (w_interfaces (world f))
          then (Err (ApiDb UniqueViolation), f)
          else if negb (is_some (nodes (fleet_tables f) !! node)) then (Err (ApiDb ForeignKeyViolation), f)
          else (lift_db (decrypt_wg_interface decrypt i), with_world (with_interfaces (fun l => l ++ [i])) f)
      end
  end.

Definition list_wg_interfaces (node : Uuid) (f : FleetDb) : result (list WgInterface.WgInterface) db_error :=
  try_map (decrypt_wg_interface decrypt)
    (sort_by (fun a b => WgInterface.created_at a <=? WgInterface.created_at b)
       (List.filter (fun i => WgInterface.node_id i =? node) (w_interfaces (world f)))).

Definition get_wg_interface (id : Uuid) (f : FleetDb) : result (option WgInterface.WgInterface) db_error :=
  match find_wg id (world f) with
  | None => Ok None
  | Some i => let? i := decrypt_wg_interface decrypt i in Ok (Some i)
  end.

Definition update_wg_interface (now id : Z) (u : UpdateWgInterface) (f : FleetDb)
    : result (option WgInterface.WgInterface) db_error * FleetDb :=
  match find_wg id (world f) with
  | None => (Ok None, f)
  | Some i =>
      let j := wg_updated now u i in
      if wg_port_taken id (WgInterface.node_id j) (WgInterface.listen_port j) (w_interfaces (world f))
      then (Err UniqueViolation, f)
      else ((let? k := decrypt_wg_interface decrypt j in Ok (Some k)),
            with_world (with_interfaces (fmap (fun k => if WgInterface.id k =? id then j else k))) f)
  end.
End WgRows.

(** ** Inbound rows *)

(** The columns the label query and the scheduler write. *)
Definition with_listing (labels : list string) (enabled : bool) (now : Z) (i : Inbound.Inbound) : Inbound.Inbound :=
  Inbound.mk (Inbound.id i) (Inbound.node_id i) (Inbound.tag i) labels (Inbound.kind i) (Inbound.core i)
    (Inbound.listen i) (Inbound.listen_port i) (Inbound.flow i) (Inbound.tls_enabled i) (Inbound.server_name i)
    (Inbound.cert_path i) (Inbound.key_path i) (Inbound.reality i) (Inbound.reality_private_key i)
    (Inbound.reality_public_key i) (Inbound.reality_short_ids i) (Inbound.reality_handshake_server i)
    (Inbound.reality_handshake_port i) (Inbound.network i) (Inbound.transport_path i) (Inbound.transport_host i)
    (Inbound.transport_service_name i) (Inbound.transport_mode i) (Inbound.ech i) (Inbound.utls_fingerprint i)
    (Inbound.shadowtls_handshake_server i) (Inbound.shadowtls_handshake_port i) (Inbound.extra i) enabled
    (Inbound.reachable i) (Inbound.reach_checked_at i) (Inbound.reach_error i) (Inbound.fallback_host i)
    (Inbound.sni_pool i) (Inbound.cdn_pool i) (Inbound.up_mbps i) (Inbound.down_mbps i) (Inbound.udp_idle_timeout i)
    (Inbound.upstream_inbound_id i) (Inbound.chain_uuid i) (Inbound.chain_password i) (Inbound.created_at i) now.

(** The row is written before it is decrypted for the answer. *)
Definition set_inbound_labels_row (decrypt : string -> option string) (now id : Z) (labels : list string) (f : FleetDb)
    : result (option Inbound.Inbound) db_error * FleetDb :=
  match inbounds (fleet_tables f) !! id with
  | None => (Ok None, f)
  | Some i =>
      let j := with_listing labels (Inbound.enabled i) now i in
      if (16 <? length labels)%nat then (Err CheckViolation, f)
      else ((let? k := decrypt_inbound decrypt j in Ok (Some k)), with_fleet_tables (with_inbounds (<[id := j]>)) f)
  end.

Definition set_inbound_enabled (now id : Z) (enabled : bool) (db : Db) : result (option Uuid * Db) db_error :=
  match inbounds db !! id with
  | None => Ok (None, db)
  | Some i =>
      Ok (Some (Inbound.node_id i), with_inbounds (<[id := with_listing (Inbound.labels i) enabled now i]>) db)
  end.

Definition delete_inbound_row (id : Uuid) (db : Db) : result (bool * Db) db_error := Ok (delete_inbound id db).

(** ** Handlers *)

Definition valid_geo_code (c : string) : bool :=
  negb (is_empty c) && (len c <=? 32) && all_bytes (fun b => is_lower b || is_digit b || Ascii.eqb b "-") c.
Definition valid_geo_codes (codes : list string) : bool := forallb valid_geo_code codes.

Section Handlers.
Context (encrypt decrypt : string -> option string) (collate : string -> string -> bool) (sql_lower : string -> string).
Context (uuid_str timestamp : Z -> string) (parse_uuid parse_timestamp : string -> option Z).

(** Best effort: the row is serialized and recorded under the caller's name. *)
Definition capture_version (now : Z) (i : Identity) (kind : string) (id : Uuid) (snapshot : json) : M unit :=
  statement (fun f => (Ok tt, mkFleet (world f)
    (record_entity_version now kind id snapshot (Some (id_username i)) (history f)))).

Definition get_node_row (id : Uuid) (f : FleetDb) : option Node.Node := nodes (fleet_tables f) !! id.
Definition node_missing : api_error := NotFound "node not found".

Definition list_nodes_handler : M (list Node.Node) := query (fun f => list_nodes (fleet_tables f)).

Definition create_node (id now : Z) (i : Identity) (input : NewNode.NewNode) : M Node.Node :=
  _ ← lift_result (validate_node input);
  node ← statement (on_tables (create_node_row id now input));
  _ ← capture_version now i "node" (Node.id node) (node_json uuid_str timestamp node);
  _ ← audit "create" "node" (Node.id node) (obj [("name", JString (Node.name node))]);
  mret node.

Definition get_node (id : Uuid) : M Node.Node :=
  o ← query (get_node_row id); found o node_missing.

Definition update_node (now : Z) (i : Identity) (id : Uuid) (input : UpdateNode.UpdateNode) : M Node.Node :=
  _ ← lift_result (validate_update_node input);
  o ← statement (on_tables (update_node_row now id input));
  node ← found o node_missing;
  _ ← push_nodes [id];
  _ ← capture_version now i "node" id (node_json uuid_str timestamp node);
  _ ← audit "update" "node" id (obj [("name", JString (Node.name node))]);
  mret node.

Definition set_node_labels (now id : Z) (labels : list string) : M Node.Node :=
  labels ← lift_result (normalize_labels labels);
  o ← statement (on_tables (set_node_labels_row now id labels));
  node ← found o node_missing;
  _ ← audit "labels" "node" id (obj [("labels", jstrs labels)]);
  mret node.

Definition delete_node_handler (id : Uuid) : M unit :=
  gone ← statement (delete_node_row id);
  _ ← refuse (negb gone) node_missing;
  _ ← emit (Disconnect id);
  audit "delete" "node" id (obj []).

(** *** Groups *)

Definition list_groups : M (list (Uuid * NodeGroup)) := query (fun f => list_node_groups collate (fleet_tables f)).

Definition create_group (id : Uuid) (input : NewNodeGroup) : M NodeGroup :=
  _ ← refuse (is_empty (trim (ng_name input))) (BadRequest "name is required");
  group ← statement (on_tables (create_node_group id input));
  _ ← audit "create" "node_group" id (obj [("name", JString (group_name group))]);
  mret group.

Definition update_group (id : Uuid) (input : UpdateNodeGroup) : M NodeGroup :=
  o ← statement (on_tables (update_node_group id input));
  group ← found o (NotFound "group not found");
  _ ← audit "update" "node_group" id (obj []);
  mret group.

Definition delete_group (id : Uuid) : M unit :=
  gone ← statement (delete_group_row id);
  _ ← refuse (negb gone) (BadRequest "group not found, or it is the default group");
  audit "delete" "node_group" id (obj []).

Definition get_node_groups (id : Uuid) : M (list Uuid) :=
  o ← query (get_node_row id);
  _ ← refuse (negb (is_some o)) node_missing;
  query (fun f => node_group_ids id (fleet_tables f)).

Definition set_node_groups_handler (id : Uuid) (groups : list Uuid) : M unit :=
  o ← query (get_node_row id);
  _ ← refuse (negb (is_some o)) node_missing;
  _ ← statement (on_tables (set_node_groups_row id groups));
  _ ← push_nodes [id];
  audit "set_groups" "node" id (obj [("groups", jint (Z.of_nat (length groups)))]).

(** *** Routing profiles *)

Definition profile_missing : api_error := NotFound "routing profile not found".

Definition list_profiles : M (list Profile) := query (fun f => list_routing_profiles collate (profiles f)).

Definition create_profile (id now : Z) (input : NewRoutingProfile.NewRoutingProfile) : M Profile :=
  _ ← refuse (is_empty (trim (NewRoutingProfile.name input))) (BadRequest "name must not be empty");
  _ ← refuse (negb (valid_geo_codes (NewRoutingProfile.direct_geosite input))
              || negb (valid_geo_codes (NewRoutingProfile.direct_geoip input)))
        (BadRequest "geosite/geoip codes must be lowercase (e.g. cn, ru, category-ads-all)");
  profile ← statement (on_profiles (create_routing_profile id now input));
  _ ← audit "create" "routing_profile" (RoutingProfile.id profile) (obj [("name", JString (RoutingProfile.name profile))]);
  mret profile.

Definition update_profile (now id : Z) (input : UpdateRoutingProfile.UpdateRoutingProfile) : M Profile :=
  _ ← refuse (is_some_and (UpdateRoutingProfile.direct_geosite input) (fun c => negb (valid_geo_codes c)))
        (BadRequest "invalid geosite codes");
  _ ← refuse (is_some_and (UpdateRoutingProfile.direct_geoip input) (fun c => negb (valid_geo_codes c)))
        (BadRequest "invalid geoip codes");
  o ← statement (on_profiles (update_routing_profile now id input));
  profile ← found o profile_missing;
  _ ← audit "update" "routing_profile" id (obj []);
  mret profile.

Definition delete_profile (now id : Z) : M unit :=
  gone ← statement (delete_routing_profile now id);
  _ ← refuse (negb gone) profile_missing;
  audit "delete" "routing_profile" id (obj []).

Definition assign_profile (now user : Z) (profile : option Uuid) : M unit :=
  known ← query (fun f => map_or profile true (fun p => is_some (profiles f !! p)));
  _ ← refuse (negb known) (BadRequest "routing profile does not exist");
  ok ← statement (set_user_routing_profile sql_lower now user profile);
  _ ← refuse (negb ok) (NotFound "user not found");
  audit "assign_routing_profile" "user" user (obj [("profile_id", jopt (juuid uuid_str) profile)]).

(** *** WireGuard *)

Definition wg_missing : api_error := NotFound "wireguard interface not found".

Definition list_wg (node : Uuid) : M (list WgInterface.WgInterface) := read (list_wg_interfaces decrypt node).

Definition with_mtu (mtu : Z) (n : NewWgInterface) : NewWgInterface :=
  mkNewWg (nw_name n) (nw_listen_port n) (nw_address_cidr n) (nw_dns n) mtu (nw_amnezia n) (nw_endpoint_host n).

Definition create_wg (keys : result Keypair wg_error) (params : result AmneziaParams wg_error) (id now : Z)
    (node : Uuid) (input : NewWgInterface) : M WgInterface.WgInterface :=
  _ ← refuse (is_empty (trim (nw_name input))) (BadRequest "name is required");
  _ ← refuse (negb (port_ok (nw_listen_port input))) (BadRequest "listen_port out of range");
  _ ← refuse (negb (is_ok (parse_cidr (nw_address_cidr input)))) (BadRequest "address_cidr");
  let input := with_mtu (clamp 1280 1500 (nw_mtu input)) input in
  o ← query (get_node_row node);
  _ ← found o node_missing;
  iface ← (fun s => let (r, f) := create_wg_interface encrypt decrypt keys params id now node input (store s) in
                    (r, mkSt f (trace s)));
  _ ← push_nodes [node];
  _ ← audit "create" "wireguard" (WgInterface.id iface)
        (obj [("node_id", juuid uuid_str node); ("name", JString (WgInterface.name iface));
              ("amnezia", JBool (WgInterface.amnezia iface))]);
  mret iface.

Definition update_wg (now id : Z) (input : UpdateWgInterface) : M WgInterface.WgInterface :=
  o ← statement (update_wg_interface decrypt now id input);
  iface ← found o wg_missing;
  _ ← push_nodes [WgInterface.node_id iface];
  _ ← audit "update" "wireguard" (WgInterface.id iface) (obj []);
  mret iface.

Definition delete_wg (id : Uuid) : M unit :=
  o ← read (get_wg_interface decrypt id);
  iface ← found o wg_missing;
  _ ← statement (delete_wg_interface id);
  _ ← push_nodes [WgInterface.node_id iface];
  audit "delete" "wireguard" id (obj []).

(** *** Inbounds *)

Definition inbound_missing : api_error := NotFound "inbound not found".

(** Validation and the write are those of the inbound component. *)
Definition create_inbound_handler (id now : Z) (fresh : string * string) (i : Identity) (input : NewInbound.NewInbound)
    : M Inbound.Inbound :=
  inbound ← on_tables_step (create_inbound encrypt decrypt id now fresh input);
  _ ← push_nodes [Inbound.node_id inbound];
  _ ← capture_version now i "inbound" (Inbound.id inbound) (inbound_json uuid_str timestamp inbound);
  _ ← audit "create" "inbound" (Inbound.id inbound)
        (obj [("node_id", juuid uuid_str (Inbound.node_id inbound)); ("protocol", JString (Inbound.kind inbound))]);
  mret inbound.

Definition update_inbound_handler (now : Z) (fresh : string * string) (i : Identity) (id : Uuid)
    (input : UpdateInbound.UpdateInbound) : M Inbound.Inbound :=
  inbound ← on_tables_step (update_inbound encrypt decrypt id now fresh input);
  _ ← push_nodes [Inbound.node_id inbound];
  _ ← capture_version now i "inbound" id (inbound_json uuid_str timestamp inbound);
  _ ← audit "update" "inbound" id (obj [("node_id", juuid uuid_str (Inbound.node_id inbound))]);
  mret inbound.

Definition set_inbound_labels (now id : Z) (labels : list string) : M Inbound.Inbound :=
  labels ← lift_result (normalize_labels labels);
  o ← statement (set_inbound_labels_row decrypt now id labels);
  inbound ← found o inbound_missing;
  _ ← audit "labels" "inbound" id (obj [("labels", jstrs labels)]);
  mret inbound.

Definition delete_inbound_handler (id : Uuid) : M unit :=
  o ← read (fun f => get_inbound decrypt id (fleet_tables f));
  inbound ← found o inbound_missing;
  _ ← statement (on_tables (delete_inbound_row id));
  _ ← push_nodes [Inbound.node_id inbound];
  audit "delete" "inbound" id (obj [("node_id", juuid uuid_str (Inbound.node_id inbound))]).

(** *** History *)

Definition node_history (id : Uuid) : M (list EntityVersion) :=
  query (fun f => list_entity_versions "node" id (history f)).
Definition inbound_history (id : Uuid) : M (list EntityVersion) :=
  query (fun f => list_entity_versions "inbound" id (history f)).
Definition user_history (i : Identity) (id : Uuid) : M (list EntityVersion) :=
  _ ← in_users (owned_user decrypt i id);
  query (fun f => list_entity_versions "user" id (history f)).

Definition load_version (version : Z) (kind : string) (id : Uuid) : M json :=
  o ← query (fun f => opt_filter (of_entity kind id) (get_entity_version version (history f)));
  v ← found o (NotFound "version not found for this entity");
  mret (v_snapshot v).

Definition not_revertable : api_error := BadRequest "snapshot is not revertable".

Definition revert_node (now : Z) (i : Identity) (id : Uuid) (version : Z) : M Node.Node :=
  snapshot ← load_version version "node" id;
  update ← found (update_node_of snapshot) not_revertable;
  o ← statement (on_tables (update_node_row now id update));
  node ← found o node_missing;
  _ ← push_nodes [id];
  _ ← capture_version now i "node" id (node_json uuid_str timestamp node);
  _ ← audit "revert" "node" id (obj [("version", jint version)]);
  mret node.

Definition revert_user (d : Draws) (i : Identity) (id : Uuid) (version : Z) : M UserView :=
  _ ← in_users (owned_user decrypt i id);
  snapshot ← load_version version "user" id;
  update ← found (update_user_of parse_timestamp snapshot) not_revertable;
  nodes ← query (fun f => user_node_ids id (fleet_tables f));
  o ← in_users (update_user_row decrypt sql_lower d id update);
  user ← found o user_missing;
  _ ← push_nodes nodes;
  _ ← capture_version (now d) i "user" id (user_json uuid_str timestamp user);
  _ ← audit "revert" "user" id (obj [("version", jint version)]);
  mret (user_view (now d) user).

Definition revert_inbound (now : Z) (fresh : string * string) (i : Identity) (id : Uuid) (version : Z) : M Inbound.Inbound :=
  snapshot ← load_version version "inbound" id;
  update ← found (update_inbound_of parse_uuid snapshot) not_revertable;
  o ← statement (on_inbounds (update_inbound_row encrypt decrypt id now fresh update));
  inbound ← found o inbound_missing;
  _ ← push_nodes [Inbound.node_id inbound];
  _ ← capture_version now i "inbound" id (inbound_json uuid_str timestamp inbound);
  _ ← audit "revert" "inbound" id (obj [("version", jint version)]);
  mret inbound.
End Handlers.

(** ** Going back to a version *)

Section Reverting.
Context (encrypt decrypt : string -> option string) (sql_lower : string -> string).
Context (uuid_str timestamp : Z -> string) (parse_uuid parse_timestamp : string -> option Z).

(** Version [version] is a snapshot of [snapshot] for that entity. *)
Definition version_is (version : Z) (kind : string) (id : Uuid) (snapshot : json) (f : FleetDb) : Prop :=
  exists v, get_entity_version version (history f) = Some v /\ of_entity kind id v = true /\ v_snapshot v = snapshot.

Lemma load_version_ok version kind id j (s : Handler.St FleetDb) :
  version_is version kind id j (store s) -> load_version version kind id s = (Ok j, s).
Proof.
  intros (v & Hg & He & <-). unfold load_version, mbind, M_bind, query, found. rewrite Hg. simpl. by rewrite He.
Qed.

(** What a node was set to, and what the agent reported of it. *)
Definition settings_of (n : Node.Node) :=
  (Node.name n, Node.address n, Node.tls_server_name n, Node.grpc_port n, Node.transport n, Node.enabled n,
   Node.extra_addresses n, Node.maintenance n, Node.monthly_cost_cents n).
Definition reports_of (n : Node.Node) :=
  (Node.id n, Node.labels n, Node.last_seen n, Node.agent_version n, Node.singbox_version n, Node.desired_spec_hash n,
   Node.applied_spec_hash n, Node.applied_spec_summary n, Node.applied_at n,
   (Node.last_push_at n, Node.last_push_status n, Node.last_push_message n, Node.created_at n)).

(** A node's history can be gone back to.  When a version of a node is a
    snapshot of a row the table could hold, and no other node has taken its
    name since, reverting to it answers with a node that has every setting of
    the snapshot and keeps its labels and what its agent reported; that node is
    stored, pushed, and becomes the latest version. *)
Theorem revert_restores_node now i id version n0 n (s : Handler.St FleetDb) :
  version_is version "node" id (node_json uuid_str timestamp n0) (store s) ->
  nodes (fleet_tables (store s)) !! id = Some n ->
  node_checks n0 = true -> in_i32 (Node.grpc_port n0) -> 0 <= Node.monthly_cost_cents n0 <= i64_max ->
  (length (Node.labels n) <= 16)%nat -> name_taken Node.name id n0 (nodes (fleet_tables (store s))) = false ->
  exists n' s', revert_node uuid_str timestamp now i id version s = (Ok n', s') /\
    settings_of n' = settings_of n0 /\ reports_of n' = reports_of n /\
    nodes (fleet_tables (store s')) = <[id := n']> (nodes (fleet_tables (store s))) /\
    In (PushNodes {[id]}) (trace s') /\
    history (store s') = record_entity_version now "node" id (node_json uuid_str timestamp n') (Some (id_username i))
      (history (store s)).
Proof.
  intros Hv Hn Hc Hp Hm Hl Hfree.
  set (u := UpdateNode.mk (Some (Node.name n0)) (Some (Node.address n0)) (Some (Node.tls_server_name n0))
    (Some (Node.grpc_port n0)) (Some (Node.transport n0)) (Some (Node.enabled n0)) (Some (Node.extra_addresses n0))
    (Some (Node.maintenance n0)) (Some (Node.monthly_cost_cents n0))).
  set (n' := node_updated now u n).
  assert (Hw : update_node_row now id u (fleet_tables (store s)) = Ok (Some n', with_nodes (<[id := n']>) (fleet_tables (store s)))).
  { unfold update_node_row, alter_node. rewrite Hn. unfold write_node. fold n'.
    assert (node_checks n' = true) as ->.
    { unfold node_checks in *. simpl. breflect. destruct Hc as [[[? ?] ?] _]. repeat split; try done. by apply Nat.leb_le. }
    assert (name_taken Node.name id n' (nodes (fleet_tables (store s))) = false) as -> by exact Hfree. done. }
  exists n'. eexists. split.
  { unfold revert_node. unfold mbind at 1, M_bind at 1. rewrite (load_version_ok _ _ _ _ s Hv).
    rewrite node_snapshot by (done || unfold within_i64, i64_min; lia). fold u.
    unfold mbind, M_bind, found, statement, on_tables, mret, M_ret. simpl. rewrite Hw. simpl. reflexivity. }
  split_and!; try done.
  - unfold settings_of, n'. simpl. unfold coalesce. simpl. by rewrite Z.max_r by lia.
  - simpl. apply in_or_app. left. apply in_or_app. right. left. f_equal. set_solver.
Qed.

(** A printed uuid reads back. *)
Hypothesis uuid_law : forall u, parse_uuid (uuid_str u) = Some u.

(** A revert skips the check that keeps chains finite.  If a version of an
    inbound was chained to a second inbound, and that one has since been chained
    to the first, then going back to the version makes the two upstreams of each
    other, and neither chain reaches an exit. *)
Theorem revert_closes_loop now fresh i id version i0 other (s s' : Handler.St FleetDb) answer :
  version_is version "inbound" id (inbound_json uuid_str timestamp i0) (store s) -> inbound_ints i0 ->
  Inbound.upstream_inbound_id i0 = Some other -> other <> id ->
  (forall k j, inbounds (fleet_tables (store s)) !! k = Some j -> Inbound.id j = k) ->
  upstream_of (fleet_tables (store s)) other = Some id ->
  revert_inbound encrypt decrypt uuid_str timestamp parse_uuid now fresh i id version s = (Ok answer, s') ->
  ~ ends (fleet_tables (store s')) id /\ ~ ends (fleet_tables (store s')) other.
Proof.
  intros Hv Hi Hup Hne Hkey Hback Hr. unfold revert_inbound in Hr.
  apply bind_ok in Hr as (j & s1 & Hl & Hr). rewrite (load_version_ok _ _ _ _ s Hv) in Hl. injection Hl as <- <-.
  rewrite inbound_snapshot in Hr by done.
  apply bind_ok in Hr as (u & s1 & [Hu ->]%found_ok & Hr). injection Hu as <-.
  apply bind_ok in Hr as (o & s2 & [Hst _]%statement_ok & Hr).
  apply bind_ok in Hr as (a & s3 & [-> ->]%found_ok & Hr).
  unfold on_inbounds in Hst. destruct (update_inbound_row _ _ _ _ _ _ _) as [o' db] eqn:Eu.
  injection Hst as -> Hs2. apply update_inbound_row_cases in Eu as [[_ Hno]|(row & key & cred & Hrow & Hdb)]; [by destruct (Hno a)|].
  assert (Hid : Inbound.id row = id) by by apply (Hkey _ _ Hrow).
  assert (Htab : fleet_tables (store s') = db).
  { transitivity (fleet_tables (store s2)); [|by rewrite <- Hs2].
    apply bind_ok in Hr as (t1 & s4 & H1 & Hr). injection H1 as _ <-.
    apply bind_ok in Hr as (t2 & s5 & H2 & Hr). injection H2 as _ <-.
    apply bind_ok in Hr as (t3 & s6 & H3 & Hr). injection H3 as _ <-. by injection Hr as _ <-. }
  rewrite Htab. clear Htab Hr. rewrite Hdb.
  assert (Ha : upstream_of db id = Some other).
  { rewrite Hdb. rewrite Hid. unfold upstream_of. simpl. rewrite lookup_insert_eq. simpl. by rewrite Hup. }
  assert (Hb : upstream_of db other = Some id).
  { rewrite Hdb, Hid. unfold upstream_of in *. simpl. by rewrite lookup_insert_ne. }
  rewrite <- Hdb. assert (Hno : forall k, ends db k -> k <> id /\ k <> other).
  { induction 1 as [k Hk|k v Hk _ IH]; (split; [intros ->|intros ->]); try congruence; destruct IH; congruence. }
  split; intros H; by destruct (Hno _ H).
Qed.
End Reverting.

(** ** What deleting a group does *)

(** Deleting a group opens the nodes that were only in it.  A node whose single
    group is deleted was reachable by the members of that group; afterwards it
    counts as ungrouped, and every user reaches it.  Nothing is pushed. *)
Theorem deleted_group_opens_node id node (s s' : Handler.St FleetDb) :
  delete_group id s = (Ok tt, s') ->
  (forall g, (node, g) ∈ node_group_members (fleet_tables (store s)) <-> g = id) ->
  (forall user, can_reach user node (fleet_tables (store s)) = member (user, id) (user_group_access (fleet_tables (store s)))) /\
  (forall user, can_reach user node (fleet_tables (store s')) = true) /\
  trace s' = trace s ++ [AuditEvent "delete" "node_group" (Some id) (obj [])].
Proof.
  intros Hd Hg. unfold delete_group in Hd. apply bind_ok in Hd as (gone & s1 & [Hst Htr]%statement_ok & Hd).
  apply bind_ok in Hd as (u & s2 & [Hgone ->]%refuse_ok & Hd). apply negb_false_iff in Hgone. subst gone.
  injection Hd as <-. rewrite <- Htr. split_and!; [| |done].
  - intros user. apply eq_true_iff_eq. unfold can_reach. rewrite orb_true_iff. split.
    + intros [H|H].
      * exfalso. unfold ungrouped in H. rewrite forallb_forall in H.
        assert (Hin : (node, id) ∈ node_group_members (fleet_tables (store s))) by by apply Hg.
        apply elem_of_elements, list_elem_of_In in Hin. specialize (H _ Hin). simpl in H. by rewrite Z.eqb_refl in H.
      * apply existsb_exists in H as ([n g] & Hin & H). simpl in H. breflect. destruct H as [-> H].
        rewrite <- list_elem_of_In, elem_of_elements in Hin. apply Hg in Hin as ->. done.
    + intros H. right. apply existsb_exists. exists (node, id). simpl. rewrite Z.eqb_refl. split; [|done].
      rewrite <- list_elem_of_In. apply elem_of_elements. by apply Hg.
  - intros user. unfold can_reach. cbn [store]. assert (ungrouped node (fleet_tables (store s1)) = true) as ->; [|done].
    unfold delete_group_row, delete_node_group in Hst.
    destruct (node_groups _ !! id) as [g|]; [|done]. destruct (is_default g); [done|]. injection Hst as <-. simpl.
    unfold ungrouped, fleet_tables, w_tables. simpl. apply forallb_forall. intros [n g'] Hin.
    rewrite <- list_elem_of_In, elem_of_elements, elem_of_filter in Hin. simpl in *. destruct Hin as [Hne Hin].
    apply negb_true_iff, Z.eqb_neq. intros ->. apply Hne. by apply Hg.
Qed.

(** ** The tables stay well formed *)

Definition unique_names {V} (name : V -> string) (m : gmap Uuid V) : Prop :=
  forall k1 k2 v1 v2, m !! k1 = Some v1 -> m !! k2 = Some v2 -> name v1 = name v2 -> k1 = k2.

Definition one_default {V} (default_row : V -> bool) (m : gmap Uuid V) : Prop :=
  forall k1 k2 v1 v2, m !! k1 = Some v1 -> m !! k2 = Some v2 -> default_row v1 = true -> default_row v2 = true -> k1 = k2.

Definition nodes_ok (db : Db) : Prop :=
  unique_names Node.name (nodes db) /\ map_Forall (fun k n => Node.id n = k /\ node_checks n = true) (nodes db).

Definition groups_ok (db : Db) : Prop :=
  unique_names group_name (node_groups db) /\ one_default is_default (node_groups db).

Definition profiles_ok (m : gmap Uuid RoutingProfile.RoutingProfile) : Prop :=
  unique_names RoutingProfile.name m /\ one_default RoutingProfile.is_default m /\
  map_Forall (fun k p => RoutingProfile.id p = k) m.

(** Users are pinned to profiles that exist. *)
Definition pins_ok (f : FleetDb) : Prop :=
  forall k u p, users (fleet_tables f) !! k = Some u -> User.routing_profile_id u = Some p -> is_Some (profiles f !! p).

(** No two interfaces share an id, or a port on a node; their nodes exist. *)
Definition interfaces_ok (f : FleetDb) : Prop :=
  NoDup (WgInterface.id <$> w_interfaces (world f)) /\
  NoDup ((fun i => (WgInterface.node_id i, WgInterface.listen_port i)) <$> w_interfaces (world f)) /\
  Forall (fun i => is_Some (nodes (fleet_tables f) !! WgInterface.node_id i)) (w_interfaces (world f)).

Definition fleet_ok (f : FleetDb) : Prop :=
  nodes_ok (fleet_tables f) /\ groups_ok (fleet_tables f) /\ profiles_ok (profiles f) /\ pins_ok f /\ interfaces_ok f.

Definition ok_kept (f f' : FleetDb) : Prop := fleet_ok f -> fleet_ok f'.
#[local] Instance ok_kept_preorder : PreOrder ok_kept.
Proof. split; [by intros f H|intros a b c H1 H2 H; auto]. Qed.

(** *** Unique names *)

Lemma name_free {V} (name : V -> string) id v m k w :
  name_taken name id v m = false -> m !! k = Some w -> name w = name v -> k = id.
Proof.
  intros H Hk Hn. destruct (Z.eqb_spec k id) as [|Hne]; [done|]. exfalso. unfold name_taken in H.
  apply not_true_iff_false in H. apply H, existsb_exists. exists (k, w). split.
  - by rewrite <- list_elem_of_In, elem_of_map_to_list.
  - simpl. apply Z.eqb_neq in Hne. by rewrite Hne, Hn, String.eqb_refl.
Qed.

Lemma unique_insert {V} (name : V -> string) id v m :
  unique_names name m -> name_taken name id v m = false -> unique_names name (<[id := v]> m).
Proof.
  intros Hu Hf k1 k2 v1 v2 H1 H2 Hn.
  apply lookup_insert_Some in H1 as [[<- <-]|[_ H1]], H2 as [[<- <-]|[_ H2]]; [done| | |by eapply Hu];
    [symmetry; by eapply name_free; eauto|by eapply name_free; eauto].
Qed.

Lemma unique_fmap {V} (name : V -> string) (g : V -> V) m :
  (forall v, name (g v) = name v) -> unique_names name m -> unique_names name (g <$> m).
Proof.
  intros Hg Hu k1 k2 v1 v2. rewrite !lookup_fmap_Some. intros (w1 & <- & H1) (w2 & <- & H2). rewrite !Hg. by eapply Hu.
Qed.

Lemma unique_delete {V} (name : V -> string) id (m : gmap Uuid V) : unique_names name m -> unique_names name (delete id m).
Proof. intros Hu k1 k2 v1 v2 [_ H1]%lookup_delete_Some [_ H2]%lookup_delete_Some. by eapply Hu. Qed.

Lemma default_delete {V} (d : V -> bool) id (m : gmap Uuid V) : one_default d m -> one_default d (delete id m).
Proof. intros Hu k1 k2 v1 v2 [_ H1]%lookup_delete_Some [_ H2]%lookup_delete_Some. by eapply Hu. Qed.

Lemma default_insert {V} (d : V -> bool) id v (m : gmap Uuid V) :
  one_default d m -> (d v = true -> forall k w, m !! k = Some w -> d w = true -> k = id) -> one_default d (<[id := v]> m).
Proof.
  intros Hu Hv k1 k2 v1 v2 H1 H2 D1 D2.
  apply lookup_insert_Some in H1 as [[<- <-]|[_ H1]], H2 as [[<- <-]|[_ H2]]; [done| | |by eapply Hu];
    [symmetry; by eapply Hv; eauto|by eapply Hv; eauto].
Qed.

(** *** Rows *)

Lemma tables_kept f db' :
  (nodes_ok (fleet_tables f) -> nodes_ok db') -> (groups_ok (fleet_tables f) -> groups_ok db') ->
  (forall k u, users db' !! k = Some u -> exists u0, users (fleet_tables f) !! k = Some u0 /\
     User.routing_profile_id u = User.routing_profile_id u0) ->
  (forall k, is_Some (nodes (fleet_tables f) !! k) -> is_Some (nodes db' !! k)) ->
  ok_kept f (with_fleet_tables (fun _ => db') f).
Proof.
  intros Hn Hg Hu Hd (H1 & H2 & H3 & H4 & Hi & Hp & Ho). split_and!; [by apply Hn|by apply Hg|done| |split_and!; [done..|]].
  - intros k u p Hk Hr. destruct (Hu k u Hk) as (u0 & Hk0 & He). apply (H4 k u0); [done|congruence].
  - eapply Forall_impl; [exact Ho|]. intros i. apply Hd.
Qed.

Lemma same_users (db db' : Db) : users db' = users db ->
  forall k u, users db' !! k = Some u -> exists u0, users db !! k = Some u0 /\
    User.routing_profile_id u = User.routing_profile_id u0.
Proof. intros -> k u H. by exists u. Qed.

Lemma write_node_kept f id n a db' : Node.id n = id ->
  write_node id n (fleet_tables f) = Ok (a, db') -> ok_kept f (with_fleet_tables (fun _ => db') f).
Proof.
  intros Hid. unfold write_node. destruct (negb _) eqn:Ec; [done|]. destruct (name_taken _ _ _ _) eqn:Et; [done|].
  intros [= <- <-]. apply negb_false_iff in Ec. apply tables_kept; [|done|by apply same_users|].
  - intros [Hu Hf]. split; [by apply unique_insert|]. by apply map_Forall_insert_2.
  - intros k Hk. simpl. apply lookup_insert_is_Some'. by right.
Qed.

Lemma on_tables_kept {A} (q : Db -> result (A * Db) db_error) f :
  (forall a db', q (fleet_tables f) = Ok (a, db') -> ok_kept f (with_fleet_tables (fun _ => db') f)) ->
  ok_kept f (on_tables q f).2.
Proof. unfold on_tables. destruct (q _) as [[a db']|]; [|done]. intros H. by apply (H a). Qed.

Lemma with_same_tables f : with_fleet_tables (fun _ => fleet_tables f) f = f.
Proof. by destruct f as [[[] ] ]. Qed.

Lemma alter_node_kept id g f : (forall n, Node.id (g n) = Node.id n) -> ok_kept f (on_tables (alter_node id g) f).2.
Proof.
  intros Hg Hok. assert (Hkey := Hok). destruct Hkey as ([_ Hkey] & _). revert Hok.
  change (ok_kept f (on_tables (alter_node id g) f).2). apply on_tables_kept. intros a db'. unfold alter_node.
  destruct (nodes (fleet_tables f) !! id) as [n|] eqn:En.
  - destruct (write_node id (g n) (fleet_tables f)) as [[b d]|] eqn:Ew; [|done]. intros [= _ <-].
    apply (write_node_kept _ id (g n) b); [|done]. rewrite Hg. by apply (Hkey id n).
  - intros [= _ <-]. by rewrite with_same_tables.
Qed.

Lemma create_node_kept id now n f : ok_kept f (on_tables (create_node_row id now n) f).2.
Proof.
  apply on_tables_kept. intros a db'. unfold create_node_row. destruct (is_some _); [done|].
  by apply write_node_kept.
Qed.

Lemma write_group_kept f id g a db' :
  (is_default g = true -> exists g0, node_groups (fleet_tables f) !! id = Some g0 /\ is_default g0 = true) ->
  write_group id g (fleet_tables f) = Ok (a, db') -> ok_kept f (with_fleet_tables (fun _ => db') f).
Proof.
  intros Hd. unfold write_group. destruct (is_empty _); [done|]. destruct (name_taken _ _ _ _) eqn:Et; [done|].
  intros [= <- <-]. apply tables_kept; [done| |by apply same_users|done].
  intros [Hu Ho]. split; [by apply unique_insert|]. apply default_insert; [done|].
  intros Hg k w Hk Hw. destruct (Hd Hg) as (g0 & H0 & Hg0). by apply (Ho k id w g0).
Qed.

Lemma create_group_kept id n f : ok_kept f (on_tables (create_node_group id n) f).2.
Proof.
  apply on_tables_kept. intros a db'. unfold create_node_group. destruct (is_some _); [done|].
  by apply write_group_kept.
Qed.

Lemma update_group_kept id u f : ok_kept f (on_tables (update_node_group id u) f).2.
Proof.
  apply on_tables_kept. intros a db'. unfold update_node_group.
  destruct (node_groups (fleet_tables f) !! id) as [g|] eqn:Eg.
  - destruct (write_group _ _ _) as [[b d]|] eqn:Ew; [|done]. intros [= _ <-].
    eapply write_group_kept; [|exact Ew]. simpl. intros Hd. by exists g.
  - intros [= _ <-]. by rewrite with_same_tables.
Qed.

Lemma delete_group_kept id f : ok_kept f (delete_group_row id f).2.
Proof.
  unfold delete_group_row, delete_node_group. destruct (node_groups (fleet_tables f) !! id) as [g|]; [|done].
  destruct (is_default g); [done|]. intros (H1 & [H2 H2'] & H3 & H4 & H5). split_and!; [done| |done..].
  split; [by apply unique_delete|by apply default_delete].
Qed.

Lemma node_groups_row_kept id groups f : ok_kept f (on_tables (set_node_groups_row id groups) f).2.
Proof.
  apply on_tables_kept. intros a db'. unfold set_node_groups_row, set_node_groups. destruct (negb _); [done|].
  intros [= _ <-]. apply tables_kept; [done|done|by apply same_users|done].
Qed.

Lemma undefaulted_same now p :
  RoutingProfile.name (undefaulted now p) = RoutingProfile.name p /\ RoutingProfile.id (undefaulted now p) = RoutingProfile.id p /\
  (RoutingProfile.is_default (undefaulted now p) = true -> RoutingProfile.is_default p = true).
Proof. unfold undefaulted. destruct (RoutingProfile.is_default p) eqn:E; simpl; split_and!; congruence || done. Qed.

Lemma write_profile_ok id p m a m' : RoutingProfile.id p = id -> profiles_ok m ->
  write_profile id p m = Ok (a, m') -> profiles_ok m' /\ m' = <[id := p]> m.
Proof.
  intros Hid (Hu & Hd & Hk). unfold write_profile. destruct (is_empty _); [done|].
  destruct (_ || _) eqn:E; [done|]. apply orb_false_iff in E as [Et Ed]. intros [= <- <-]. split; [|done].
  split_and!; [by apply unique_insert| |by apply map_Forall_insert_2].
  apply default_insert; [done|]. intros Hp k w Hk' Hw. rewrite Hp in Ed. simpl in Ed.
  destruct (Z.eqb_spec k id) as [|Hne]; [done|]. exfalso. apply not_true_iff_false in Ed. apply Ed, existsb_exists.
  exists (k, w). rewrite <- list_elem_of_In, elem_of_map_to_list. split; [done|]. simpl.
  apply Z.eqb_neq in Hne. by rewrite Hne, Hw.
Qed.

(** Clearing the default of some profiles. *)
Lemma undefault_some now (g : Uuid -> bool) m : profiles_ok m ->
  profiles_ok (map_imap (fun k q => Some (if g k then q else undefaulted now q)) m).
Proof.
  intros (Hu & Hd & Hk).
  assert (Hl : forall k p, map_imap (fun k q => Some (if g k then q else undefaulted now q)) m !! k = Some p ->
    exists q, m !! k = Some q /\ RoutingProfile.name p = RoutingProfile.name q /\ RoutingProfile.id p = RoutingProfile.id q /\
      (RoutingProfile.is_default p = true -> RoutingProfile.is_default q = true)).
  { intros k p. rewrite map_lookup_imap. intros (q & Hq & [= <-])%bind_Some. exists q.
    destruct (g k); [done|]. destruct (undefaulted_same now q) as (-> & -> & H). done. }
  split_and!.
  - intros k1 k2 v1 v2 (q1 & H1 & N1 & _)%Hl (q2 & H2 & N2 & _)%Hl Hn. apply (Hu k1 k2 q1 q2); congruence.
  - intros k1 k2 v1 v2 (q1 & H1 & _ & _ & D1)%Hl (q2 & H2 & _ & _ & D2)%Hl. eauto.
  - intros k p (q & Hq & _ & -> & _)%Hl. by apply Hk.
Qed.

Lemma undefault_all now m : profiles_ok m -> profiles_ok (undefaulted now <$> m).
Proof.
  intros Hok. assert (undefaulted now <$> m = map_imap (fun k q => Some (if (fun _ : Uuid => false) k then q else undefaulted now q)) m) as ->.
  { apply map_eq. intros k. rewrite map_lookup_imap, lookup_fmap. by destruct (m !! k). }
  exact (undefault_some now (fun _ => false) m Hok).
Qed.

Lemma on_profiles_kept {A} q f :
  (forall (a : A) m', profiles_ok (profiles f) -> q (profiles f) = Ok (a, m') ->
     profiles_ok m' /\ forall k, is_Some (profiles f !! k) -> is_Some (m' !! k)) ->
  ok_kept f (on_profiles q f).2.
Proof.
  unfold on_profiles. destruct (q (profiles f)) as [[a m']|]; [|done]. intros H (H1 & H2 & H3 & H4 & H5).
  destruct (H a m' H3 eq_refl) as [Hok Hdom]. split_and!; [done|done|done| |done].
  intros k u p Hk Hp. apply Hdom. by apply (H4 k u).
Qed.

Lemma create_profile_kept id now n f : ok_kept f (on_profiles (create_routing_profile id now n) f).2.
Proof.
  apply on_profiles_kept. intros a m' Hok. unfold create_routing_profile. cbv zeta.
  set (m := if NewRoutingProfile.is_default n then undefaulted now <$> profiles f else profiles f).
  assert (Hm : profiles_ok m) by (subst m; destruct (NewRoutingProfile.is_default n); [by apply undefault_all|done]).
  destruct (is_some _); [done|]. intros [Hok' ->]%write_profile_ok; [|done|done]. split; [done|].
  intros k Hk. apply lookup_insert_is_Some'. right. subst m. destruct (NewRoutingProfile.is_default n); [|done].
  by rewrite lookup_fmap, fmap_is_Some.
Qed.

Lemma update_profile_kept now id u f : ok_kept f (on_profiles (update_routing_profile now id u) f).2.
Proof.
  apply on_profiles_kept. intros a m' Hok. unfold update_routing_profile.
  destruct (profiles f !! id) as [cur|] eqn:Ec; [|by intros [= _ <-]]. cbv zeta.
  set (m := if RoutingProfile.is_default (profile_updated now u cur) then _ else profiles f).
  assert (Hm : profiles_ok m) by (subst m; destruct (RoutingProfile.is_default (profile_updated now u cur)); [exact (undefault_some now (fun k => k =? id) _ Hok)|done]).
  destruct (_ <? _); [done|]. destruct (write_profile _ _ _) as [[b m1]|] eqn:Ew; [|done]. intros [= _ <-].
  apply write_profile_ok in Ew as [Hok' ->]; [|destruct Hok as (_ & _ & Hk); by apply (Hk id cur)|done]. split; [done|].
  intros k Hk. apply lookup_insert_is_Some'. right. subst m.
  destruct (RoutingProfile.is_default (profile_updated now u cur)); [|done].
  rewrite map_lookup_imap. destruct Hk as [p Hp]. rewrite Hp. by eexists.
Qed.

Lemma delete_profile_kept now id f : ok_kept f (delete_routing_profile now id f).2.
Proof.
  unfold delete_routing_profile. destruct (profiles f !! id); [|done].
  intros (H1 & H2 & (Hu & Hd & Hk) & H4 & H5). split_and!; [done|done| | |done].
  - split_and!; [by apply unique_delete|by apply default_delete|by apply map_Forall_delete].
  - intros k u p. unfold fleet_tables, w_tables, profiles. simpl. rewrite lookup_fmap_Some. intros (u0 & <- & Hu0) Hp.
    unfold unpin in Hp. destruct (bool_decide _) eqn:E; [done|]. apply bool_decide_eq_false in E.
    rewrite lookup_delete_ne by congruence. by apply (H4 k u0).
Qed.

Lemma NoDup_fmap_filter {A B} (g : A -> B) p l : NoDup (g <$> l) -> NoDup (g <$> List.filter p l).
Proof.
  intros H. induction l as [|x l IH]; [done|]. apply NoDup_cons in H as [Hx H]. simpl. destruct (p x); [|by apply IH].
  apply NoDup_cons. split; [|by apply IH]. intros Hin. apply Hx.
  apply list_elem_of_fmap in Hin as (y & -> & Hy). apply list_elem_of_fmap_2.
  rewrite list_elem_of_In, filter_In, <- list_elem_of_In in Hy. apply Hy.
Qed.

Lemma delete_node_kept id f : ok_kept f (delete_node_row id f).2.
Proof.
  unfold delete_node_row, delete_node. destruct (nodes (w_tables (world f)) !! id); [|done].
  intros ([Hu Hk] & H2 & H3 & H4 & Hi & Hp & Ho). split_and!; [|done|done|done|].
  - split; [by apply unique_delete|by apply map_Forall_delete].
  - unfold interfaces_ok, fleet_tables, w_tables in *. simpl in *. split_and!.
    + by apply NoDup_fmap_filter.
    + by apply NoDup_fmap_filter.
    + apply Forall_forall. intros i Hin. rewrite list_elem_of_In, filter_In, <- list_elem_of_In in Hin.
      destruct Hin as [Hin Hne]. apply negb_true_iff, Z.eqb_neq in Hne. rewrite lookup_delete_ne by done.
      rewrite Forall_forall in Ho. by apply Ho.
Qed.

(** *** Interfaces *)

Lemma find_wg_none id w : find_wg id w = None -> id ∉ WgInterface.id <$> w_interfaces w.
Proof.
  unfold find_wg. intros H (i & -> & Hi)%list_elem_of_fmap. apply list_elem_of_In in Hi.
  apply (find_none _ _ H) in Hi. by rewrite Z.eqb_refl in Hi.
Qed.

Lemma port_free id node port l i : wg_port_taken id node port l = false -> i ∈ l -> WgInterface.id i <> id ->
  (WgInterface.node_id i, WgInterface.listen_port i) <> (node, port).
Proof.
  intros H Hi Hne [= <- <-]. apply not_true_iff_false in H. apply H, existsb_exists. exists i.
  apply Z.eqb_neq in Hne. rewrite Hne, !Z.eqb_refl. split; [by apply list_elem_of_In|done].
Qed.

Lemma create_wg_kept encrypt decrypt keys params id now node n f :
  ok_kept f (create_wg_interface encrypt decrypt keys params id now node n f).2.
Proof.
  unfold create_wg_interface. destruct (lift_wg keys) as [kp|]; [|done].
  destruct (if nw_amnezia n then _ else _) as [amnezia|]; [|done]. destruct (encrypt _) as [enc|]; [|done]. cbv zeta.
  destruct (is_some (find_wg id (world f)) || _) eqn:E; [done|]. apply orb_false_iff in E as [Ei Ep].
  destruct (nodes (fleet_tables f) !! node) as [x|] eqn:En; [|done]. simpl.
  destruct (find_wg id (world f)) eqn:Ef; [done|]. apply find_wg_none in Ef.
  intros (H1 & H2 & H3 & H4 & Hi & Hp & Ho). split_and!; [done..|].
  unfold interfaces_ok. simpl. rewrite !fmap_app. simpl. split_and!.
  - apply NoDup_app. split_and!; [done| |by apply NoDup_singleton]. intros y Hy ->%list_elem_of_singleton. done.
  - apply NoDup_app. split_and!; [done| |by apply NoDup_singleton].
    intros y (i & -> & Hin)%list_elem_of_fmap Hy. apply list_elem_of_singleton in Hy.
    refine (port_free _ _ _ _ _ Ep Hin _ Hy). intros He. apply Ef. rewrite <- He. by apply list_elem_of_fmap_2.
  - apply Forall_app. split; [done|]. apply Forall_singleton. simpl. unfold fleet_tables, w_tables in *. simpl. by rewrite En.
Qed.

(** Replacing the row of [id] by one whose key is free keeps keys distinct. *)
Lemma NoDup_replace {A B} (ident : A -> Z) (key : A -> B) (id : Z) (j : A) (l : list A) :
  NoDup (ident <$> l) -> NoDup (key <$> l) -> (forall i, i ∈ l -> ident i <> id -> key i <> key j) ->
  NoDup (key <$> ((fun k => if ident k =? id then j else k) <$> l)).
Proof.
  intros Hid Hkey Hfree. induction l as [|x l IH]; [done|]. simpl.
  apply NoDup_cons in Hid as [Hx Hid], Hkey as [Hxk Hkey]. apply NoDup_cons. split.
  - rewrite <- list_fmap_compose. intros (y & He & Hy)%list_elem_of_fmap. simpl in He.
    assert (Hxy : ident x <> ident y) by (intros Heq; apply Hx; rewrite Heq; by apply list_elem_of_fmap_2).
    destruct (Z.eqb_spec (ident x) id), (Z.eqb_spec (ident y) id); [congruence| | |].
    + apply (Hfree y); [by right|done|done].
    + apply (Hfree x); [by left|done|done].
    + apply Hxk. rewrite He. by apply list_elem_of_fmap_2.
  - apply IH; [done..|]. intros i Hi. apply Hfree. by right.
Qed.

Lemma update_wg_kept decrypt now id u f : ok_kept f (update_wg_interface decrypt now id u f).2.
Proof.
  unfold update_wg_interface. destruct (find_wg id (world f)) as [i|] eqn:Ef; [|done]. cbv zeta.
  destruct (wg_port_taken _ _ _ _) eqn:Ep; [done|]. apply find_some in Ef as [Hin Hid]. apply Z.eqb_eq in Hid.
  intros (H1 & H2 & H3 & H4 & Hi & Hp & Ho). split_and!; [done..|]. unfold interfaces_ok. simpl. split_and!.
  - apply NoDup_replace; [done..|]. simpl. intros k Hk Hne. by rewrite Hid.
  - apply NoDup_replace; [done..|]. intros k Hk Hne. by apply (port_free _ _ _ _ _ Ep).
  - apply Forall_fmap. eapply Forall_impl; [exact Ho|]. intros k Hk. simpl.
    destruct (_ =? _); [|done]. rewrite Forall_forall in Ho. by apply (Ho i), list_elem_of_In.
Qed.

Lemma delete_wg_kept id f : ok_kept f (delete_wg_interface id f).2.
Proof.
  intros (H1 & H2 & H3 & H4 & Hi & Hp & Ho). split_and!; [done..|]. unfold interfaces_ok. simpl. split_and!.
  - by apply NoDup_fmap_filter.
  - by apply NoDup_fmap_filter.
  - rewrite Forall_forall in *. intros i Hin. rewrite list_elem_of_In, filter_In, <- list_elem_of_In in Hin.
    apply Ho, Hin.
Qed.

(** *** Users and inbounds *)

(** The user component changes neither nodes nor groups, nor a user's pin. *)
Definition pins_kept (u u' : UserDb) : Prop :=
  nodes (tables u') = nodes (tables u) /\ node_groups (tables u') = node_groups (tables u) /\
  forall k x, users (tables u') !! k = Some x -> exists x0, users (tables u) !! k = Some x0 /\
    User.routing_profile_id x = User.routing_profile_id x0.
#[local] Instance pins_kept_preorder : PreOrder pins_kept.
Proof.
  split; [intros u; split_and!; eauto|]. intros a b c (N1 & G1 & U1) (N2 & G2 & U2). split_and!; [congruence..|].
  intros k x Hx. destruct (U2 k x Hx) as (y & Hy & E2), (U1 k y Hy) as (z & Hz & E1). exists z. split; congruence.
Qed.

Lemma in_users_kept {A} (m : Handler.M UserDb A) : Keeps pins_kept m -> Keeps ok_kept (in_users m).
Proof.
  intros Hm s. specialize (Hm (mkSt (accounts_db (world (store s))) (trace s))). unfold in_users.
  destruct (m _) as [r s']. simpl in *. destruct Hm as (Hn & Hg & Hu).
  intros (H1 & H2 & H3 & H4 & H5). unfold fleet_ok, nodes_ok, groups_ok, pins_ok, interfaces_ok, fleet_tables, w_tables in *.
  simpl. rewrite Hn, Hg. split_and!; try done; try apply H1; try apply H2; try apply H5.
  intros k u p Hk Hp. destruct (Hu k u Hk) as (u0 & Hk0 & He). apply (H4 k u0); [done|congruence].
Qed.

Lemma update_row_pins sql_lower id g t0 u : (forall x, User.routing_profile_id (g x) = User.routing_profile_id x) ->
  pins_kept u (update_row sql_lower id g t0 u).2.
Proof.
  intros Hg. unfold update_row. destruct (users (tables u) !! id) as [x|] eqn:Ex; [|done].
  destruct (tokens u !! id); [|done]. unfold write_user. destruct (negb _); [done|]. destruct (user_taken _ _ _ _); [done|].
  destruct (negb _); [done|]. split_and!; [done..|]. simpl.
  intros k y [[<- <-]|[_ Hy]]%lookup_insert_Some; [by exists x|by exists y].
Qed.

Lemma update_user_pins decrypt sql_lower d id input : Keeps pins_kept (update_user_row decrypt sql_lower d id input).
Proof.
  unfold update_user_row, update_returning. keeps. apply keeps_statement. intros u. by apply update_row_pins.
Qed.

Lemma pin_user_kept sql_lower now user profile f : ok_kept f (set_user_routing_profile sql_lower now user profile f).2.
Proof.
  unfold set_user_routing_profile, update_row. destruct (users _ !! user) as [u|] eqn:Eu; [|by destruct f as [[]]]. simpl.
  destruct (map_or profile true _) eqn:Ep; [|done]. simpl. destruct (tokens _ !! user) as [tk|]; [|by destruct f as [[]]].
  unfold write_user. destruct (negb _); [done|]. destruct (user_taken _ _ _ _); [done|]. destruct (negb _); [done|]. simpl.
  intros (H1 & H2 & H3 & H4 & H5). split_and!; [done..| |done].
  intros k x p. unfold fleet_tables, w_tables. simpl. intros [[<- <-]|[_ Hx]]%lookup_insert_Some Hp; [|by apply (H4 k x)].
  simpl in Hp. subst profile. simpl in Ep. destruct (profiles f !! p) eqn:Efp; [|done]. unfold profiles in *. simpl. by rewrite Efp.
Qed.

(** A statement that writes inbounds only. *)
Lemma inbounds_kept f g : ok_kept f (with_fleet_tables (with_inbounds g) f).
Proof. intros H. exact H. Qed.

Lemma same_other (db : Db) g f : db = with_inbounds g (fleet_tables f) -> ok_kept f (with_fleet_tables (fun _ => db) f).
Proof. intros -> H. exact H. Qed.

Lemma on_inbounds_kept {A E} (q : Db -> result A E * Db) f :
  (exists g, (q (fleet_tables f)).2 = with_inbounds g (fleet_tables f)) -> ok_kept f (on_inbounds q f).2.
Proof. intros [g H]. unfold on_inbounds. destruct (q _) as [r db]. by eapply same_other. Qed.

Lemma same_inbounds (db : Db) : exists g, db = with_inbounds g db.
Proof. exists id. by destruct db. Qed.

Lemma inbound_row_kept encrypt decrypt id now fresh u f :
  ok_kept f (on_inbounds (update_inbound_row encrypt decrypt id now fresh u) f).2.
Proof.
  apply on_inbounds_kept. destruct (update_inbound_row _ _ _ _ _ _ _) as [r db] eqn:E.
  apply update_inbound_row_cases in E as [[-> _]|(row & key & cred & _ & ->)]; [apply same_inbounds|by eexists].
Qed.

Lemma label_inbound_kept decrypt now id labels f : ok_kept f (set_inbound_labels_row decrypt now id labels f).2.
Proof.
  unfold set_inbound_labels_row. destruct (inbounds _ !! id); [|done]. cbv zeta. destruct (_ <? _)%nat; [done|].
  apply inbounds_kept.
Qed.

Lemma delete_inbound_kept id f : ok_kept f (on_tables (delete_inbound_row id) f).2.
Proof.
  apply on_tables_kept. intros a db'. unfold delete_inbound_row, delete_inbound. destruct (inbounds _ !! id).
  - intros [= _ <-]. by eapply same_other.
  - intros [= _ <-]. by rewrite with_same_tables.
Qed.

(** *** Sequences of requests *)

Inductive FleetOp :=
| CreateNode (id : Uuid) (input : NewNode.NewNode)
| UpdateNode (id : Uuid) (input : UpdateNode.UpdateNode)
| SetNodeLabels (id : Uuid) (labels : list string)
| DeleteNode (id : Uuid)
| CreateGroup (id : Uuid) (input : NewNodeGroup)
| UpdateGroup (id : Uuid) (input : UpdateNodeGroup)
| DeleteGroup (id : Uuid)
| SetNodeGroups (id : Uuid) (groups : list Uuid)
| CreateProfile (id : Uuid) (input : NewRoutingProfile.NewRoutingProfile)
| UpdateProfile (id : Uuid) (input : UpdateRoutingProfile.UpdateRoutingProfile)
| DeleteProfile (id : Uuid)
| AssignProfile (user : Uuid) (profile : option Uuid)
| CreateWg (keys : result Keypair wg_error) (params : result AmneziaParams wg_error) (id node : Uuid) (input : NewWgInterface)
| UpdateWg (id : Uuid) (input : UpdateWgInterface)
| DeleteWg (id : Uuid)
| CreateInbound (id : Uuid) (fresh : string * string) (input : NewInbound.NewInbound)
| UpdateInboundOp (id : Uuid) (fresh : string * string) (input : UpdateInbound.UpdateInbound)
| SetInboundLabels (id : Uuid) (labels : list string)
| DeleteInbound (id : Uuid)
| RevertNode (id : Uuid) (version : Z)
| RevertUser (id : Uuid) (version : Z)
| RevertInbound (id : Uuid) (fresh : string * string) (version : Z).

Section Requests.
Context (encrypt decrypt : string -> option string) (sql_lower : string -> string).
Context (uuid_str timestamp : Z -> string) (parse_uuid parse_timestamp : string -> option Z).

Definition forget {A} (m : M A) : M unit := m ≫= fun _ => mret tt.

Definition run_fleet_op (d : Draws) (i : Identity) (op : FleetOp) : M unit :=
  let t := now d in
  match op with
  | CreateNode id input => forget (create_node uuid_str timestamp id t i input)
  | UpdateNode id input => forget (update_node uuid_str timestamp t i id input)
  | SetNodeLabels id labels => forget (set_node_labels t id labels)
  | DeleteNode id => delete_node_handler id
  | CreateGroup id input => forget (create_group id input)
  | UpdateGroup id input => forget (update_group id input)
  | DeleteGroup id => delete_group id
  | SetNodeGroups id groups => set_node_groups_handler id groups
  | CreateProfile id input => forget (create_profile id t input)
  | UpdateProfile id input => forget (update_profile t id input)
  | DeleteProfile id => delete_profile t id
  | AssignProfile user profile => assign_profile sql_lower uuid_str t user profile
  | CreateWg keys params id node input => forget (create_wg encrypt decrypt uuid_str keys params id t node input)
  | UpdateWg id input => forget (update_wg decrypt t id input)
  | DeleteWg id => delete_wg decrypt id
  | CreateInbound id fresh input => forget (create_inbound_handler encrypt decrypt uuid_str timestamp id t fresh i input)
  | UpdateInboundOp id fresh input => forget (update_inbound_handler encrypt decrypt uuid_str timestamp t fresh i id input)
  | SetInboundLabels id labels => forget (set_inbound_labels decrypt t id labels)
  | DeleteInbound id => delete_inbound_handler decrypt uuid_str id
  | RevertNode id version => forget (revert_node uuid_str timestamp t i id version)
  | RevertUser id version => forget (revert_user decrypt sql_lower uuid_str timestamp parse_timestamp d i id version)
  | RevertInbound id fresh version =>
      forget (revert_inbound encrypt decrypt uuid_str timestamp parse_uuid t fresh i id version)
  end.

Inductive fleet_step (f f' : FleetDb) : Prop :=
| fleet_request d i op : f' = store (run_fleet_op d i op (mkSt f [])).2 -> fleet_step f f'.

Lemma capture_kept now i kind id j : Keeps ok_kept (capture_version now i kind id j).
Proof. apply keeps_statement. intros f H. exact H. Qed.

Lemma keeps_step {A} (g : FleetDb -> result A api_error * FleetDb) : (forall f, ok_kept f (g f).2) ->
  Keeps ok_kept (fun s => let (r, f) := g (store s) in (r, mkSt f (trace s))).
Proof. intros H s. specialize (H (store s)). by destruct (g (store s)). Qed.

Lemma keeps_tables_step {A} (q : Db -> result A api_error * Db) :
  (forall db, exists g, (q db).2 = with_inbounds g db) -> Keeps ok_kept (on_tables_step q).
Proof. intros H. apply (keeps_step (on_inbounds q)). intros f. by apply on_inbounds_kept. Qed.

Lemma fleet_op_kept d i op : Keeps ok_kept (run_fleet_op d i op).
Proof.
  destruct op; unfold run_fleet_op, forget, create_node, update_node, set_node_labels, delete_node_handler, create_group,
    update_group, delete_group, set_node_groups_handler, create_profile, update_profile, delete_profile, assign_profile,
    create_wg, update_wg, delete_wg, create_inbound_handler, update_inbound_handler, set_inbound_labels,
    delete_inbound_handler, revert_node, revert_user, revert_inbound, load_version; keeps; try apply capture_kept.
  all: try (apply in_users_kept; first [apply update_user_pins|keeps]).
  all: try (apply keeps_statement; intros f;
    first [ apply create_node_kept | by apply alter_node_kept | apply delete_node_kept | apply create_group_kept
          | apply update_group_kept | apply delete_group_kept | apply node_groups_row_kept | apply create_profile_kept
          | apply update_profile_kept | apply delete_profile_kept | apply pin_user_kept | apply update_wg_kept
          | apply delete_wg_kept | apply inbound_row_kept | apply delete_inbound_kept | apply label_inbound_kept ]).
  - apply (keeps_step (create_wg_interface encrypt decrypt keys params id _ node _)). intros f. apply create_wg_kept.
  - apply keeps_tables_step. intros db. destruct (create_inbound _ _ _ _ _ _ _) as [r db'] eqn:E.
    apply create_inbound_cases in E as [[-> _]|(_ & _ & _ & key & cred & ->)]; [apply same_inbounds|by eexists].
  - apply keeps_tables_step. intros db. destruct (update_inbound _ _ _ _ _ _ _) as [r db'] eqn:E.
    apply update_inbound_cases in E as [->|(row & key & cred & _ & -> & _)]; [apply same_inbounds|by eexists].
Qed.

(** C21: the fleet stays well formed.  From a well-formed store, whatever sequence of
    the fleet's requests is served, accepted or refused, node, group and profile
    names stay unique, no two WireGuard interfaces of a node share a port, and
    at most one profile is the default; so the routing a user gets is determined:
    the profile the user is pinned to, which exists, or else the one default. *)
Theorem fleet_wellformed f f' : fleet_ok f -> rtc fleet_step f f' ->
  fleet_ok f' /\
  forall user u, users (fleet_tables f') !! user = Some u ->
    forall p, routing_profile_for_user (world f') user = Some p <->
      match User.routing_profile_id u with
      | Some pin => profiles f' !! pin = Some p
      | None => exists k, profiles f' !! k = Some p /\ RoutingProfile.is_default p = true
      end.
Proof.
  intros Hok Hsteps. assert (Hok' : fleet_ok f').
  { induction Hsteps as [f|f f1 f2 [d i op ->] _ IH]; [done|]. apply IH. by apply (fleet_op_kept d i op (mkSt f [])). }
  split; [done|]. intros user u Hu p. unfold routing_profile_for_user. fold (fleet_tables f'). rewrite Hu.
  destruct (User.routing_profile_id u) as [pin|]; [done|]. fold (profiles f').
  destruct Hok' as (_ & _ & (_ & Hd & _) & _). split.
  - intros [Hin Hp]%find_some. apply in_rows in Hin as [k Hk]. eauto.
  - intros (k & Hk & Hp). destruct (List.find _ _) as [q|] eqn:Ef.
    + apply find_some in Ef as [Hin Hq]. apply in_rows in Hin as [k' Hk'].
      assert (k = k') as <- by by apply (Hd k k' p q). congruence.
    + assert (Hin : In p (rows (profiles f'))) by (apply in_rows; eauto). apply (find_none _ _ Ef) in Hin. congruence.
Qed.
End Requests.

(** ** Witnesses *)

Definition staff : Identity := mkIdentity (Some 1) "ola" "owner" None None.
Definition fleet_of (db : Db) : FleetDb := mkFleet (mkWorld (mkUserDb db ∅ ∅ ∅ empty_auth) [] [] [] ∅ ∅) no_versions.
Definition depot : Handler.St FleetDb := mkSt (fleet_of node_db) [].

Definition repoint (up : Patch Uuid) : UpdateInbound.UpdateInbound :=
  UpdateInbound.mk None None None None None None Missing Missing Missing None Missing Missing None Missing Missing None
    Missing Missing Missing Missing None Missing Missing Missing None None Missing None None None None None up.

(** Two inbounds; the first is chained to the second and unchained again, then
    the second is chained to the first. *)
Definition chain_ops : list FleetOp :=
  [CreateInbound 20 ("c1", "c2") (new_reality 443 (Some 443) None); CreateInbound 21 ("c1", "c2") (new_reality 444 (Some 443) None);
   UpdateInboundOp 20 ("c3", "c4") (repoint (Value 21)); UpdateInboundOp 20 ("c5", "c6") (repoint Null);
   UpdateInboundOp 21 ("c7", "c8") (repoint (Value 20))].
Definition run_fleet (ops : list FleetOp) (s : Handler.St FleetDb) : Handler.St FleetDb :=
  fold_left (fun s op => (run_fleet_op Some Some id show show read_z read_z (draws 10 1 2 3) staff op s).2) ops s.
Definition entangled : Handler.St FleetDb := run_fleet chain_ops depot.
Definition reverted : result Inbound.Inbound api_error * Handler.St FleetDb :=
  revert_inbound Some Some show show read_z 11 ("c9", "c0") staff 20 3 entangled.
Definition chained_row : Inbound.Inbound := default (sample_inbound 20 1 None None) (inbounds (fleet_tables (store (run_fleet (firstn 3 chain_ops) depot))) !! 20).

Definition answered_fleet {A} (x : result A api_error * Handler.St FleetDb) : bool := is_ok x.1.
Lemma fleet_answer {A} (x : result A api_error * Handler.St FleetDb) : answered_fleet x = true -> exists a, x = (Ok a, x.2).
Proof. destruct x as [[a|] s]; [by eauto|done]. Qed.

Lemma chained_row_ints : inbound_ints chained_row.
Proof.
  assert (Inbound.listen_port chained_row = 443) as H1 by (vm_compute; reflexivity).
  assert (Inbound.up_mbps chained_row = 0) as H2 by (vm_compute; reflexivity).
  assert (Inbound.down_mbps chained_row = 0) as H3 by (vm_compute; reflexivity).
  assert (Inbound.reality_handshake_port chained_row = Some 443) as H4 by (vm_compute; reflexivity).
  assert (Inbound.shadowtls_handshake_port chained_row = None) as H5 by (vm_compute; reflexivity).
  unfold inbound_ints, in_i32, i32_max. rewrite H1, H2, H3, H4, H5. clear.
  split_and!; try lia; [|done]. intros p [= <-]. lia.
Qed.

Lemma revert_closes_loop_witness :
  upstream_of (fleet_tables (store reverted.2)) 20 = Some 21 /\ ~ ends (fleet_tables (store reverted.2)) 20.
Proof.
  split; [vm_compute; reflexivity|].
  assert (H : answered_fleet reverted = true) by (vm_compute; reflexivity). apply fleet_answer in H as [a Ha].
  refine (proj1 (revert_closes_loop Some Some show show read_z read_show 11 ("c9", "c0") staff 20 3 chained_row 21
    entangled reverted.2 a _ _ _ _ _ _ Ha)).
  - eexists. split; [vm_compute; reflexivity|]. split; vm_compute; reflexivity.
  - exact chained_row_ints.
  - vm_compute. reflexivity.
  - discriminate.
  - apply (bool_decide_unpack (map_Forall (fun k j => Inbound.id j = k) (inbounds (fleet_tables (store entangled))))).
    vm_compute. exact I.
  - vm_compute. reflexivity.
Defined.

(** A node that was renamed and moved, and is taken back. *)
Definition moved : UpdateNode.UpdateNode :=
  UpdateNode.mk (Some "c") (Some "10.0.0.9") None None None (Some false) None None None.
Definition berth : NewNode.NewNode := NewNode.mk "a" "10.0.0.1" "honey-agent" 8443 "serve" 0.
Definition dock : Handler.St FleetDb := run_fleet [CreateNode 3 (NewNode.mk "z" "10.0.0.3" "honey-agent" 8443 "serve" 250); UpdateNode 3 moved] depot.
Definition docked : Node.Node := new_node 3 10 (NewNode.mk "z" "10.0.0.3" "honey-agent" 8443 "serve" 250).

Lemma revert_restores_node_witness : exists n' s',
  revert_node show show 11 staff 3 1 dock = (Ok n', s') /\ Node.name n' = "z" /\ Node.enabled n' = true.
Proof.
  destruct (revert_restores_node show show 11 staff 3 1 docked
    (node_updated 10 moved docked) dock) as (n' & s' & Hr & Hs & _).
  - eexists. split; [vm_compute; reflexivity|]. split; vm_compute; reflexivity.
  - vm_compute. reflexivity.
  - vm_compute. reflexivity.
  - split; vm_compute; discriminate.
  - split; vm_compute; discriminate.
  - vm_compute. lia.
  - vm_compute. reflexivity.
  - exists n', s'. split; [exact Hr|]. unfold settings_of in Hs. injection Hs as -> _ _ _ _ -> _ _ _. done.
Defined.

Lemma deleted_group_opens_node_witness :
  can_reach 8 1 (fleet_tables (store depot)) = false /\
  can_reach 8 1 (fleet_tables (store (delete_group 5 depot).2)) = true.
Proof.
  destruct (deleted_group_opens_node 5 1 depot (delete_group 5 depot).2) as (Hb & Ha & _).
  - vm_compute. reflexivity.
  - intros g. change (node_group_members (fleet_tables (store depot))) with ({[(1, 5)]} : gset (Uuid * Uuid)).
    rewrite elem_of_singleton. split; [by intros [= ->]|by intros ->].
  - split; [rewrite Hb; vm_compute; reflexivity|apply Ha].
Defined.

Definition bare : FleetDb := fleet_of empty_db.
Lemma bare_ok : fleet_ok bare.
Proof.
  split_and!; [split; [|]|split|split_and!| |split_and!]; try (by intros ? ? ? ? H); try (by intros ? ? H); try (by intros ? ? ? H); constructor.
Qed.
Definition manned : FleetDb := store (run_fleet_op Some Some id show show read_z read_z (draws 10 1 2 3) staff (CreateNode 3 berth) (mkSt bare [])).2.

Lemma fleet_wellformed_witness : is_Some (nodes (fleet_tables manned) !! 3) /\ fleet_ok manned.
Proof.
  split; [by eexists; vm_compute|].
  refine (proj1 (fleet_wellformed Some Some id show show read_z read_z bare manned bare_ok _)).
  apply rtc_once. by eapply fleet_request.
Defined.
