(* ===== verification/Gitops.v ===== *)
(** * Configuration as code and bulk import (config_export, config_apply and
    import_users of src/master/src/api/mod.rs)

    The fleet exported as a document that refers to everything by name, and a
    document applied to the fleet.  The iteration order of a hash map, Unicode
    lower-casing, the collation, chrono's range check and the cipher are
    parameters. *)

From S2P Require Import Prelude Strings Json Models Db Api Handler Access Wg Spec Inbounds Auth Users Delivery Versions Fleet.

#[local] Abbreviation M := (Handler.M FleetDb).
#[local] Abbreviation St := (Handler.St FleetDb).
#[local] Abbreviation Profile := RoutingProfile.RoutingProfile.

(** ** Export *)

Section Exporting.
Context (decrypt : string -> option string) (collate : string -> string -> bool).
Context (hash_order : list (Uuid * string) -> list (Uuid * string)).

Definition group_doc (g : NodeGroup) : json :=
  obj [("name", JString (group_name g)); ("note", JString (note g)); ("is_default", JBool (is_default g))].

Definition profile_doc (p : Profile) : json :=
  obj [("name", JString (RoutingProfile.name p)); ("block_ads", JBool (RoutingProfile.block_ads p));
       ("block_adult", JBool (RoutingProfile.block_adult p)); ("block_gambling", JBool (RoutingProfile.block_gambling p));
       ("direct_private", JBool (RoutingProfile.direct_private p));
       ("direct_geosite", jstrs (RoutingProfile.direct_geosite p)); ("direct_geoip", jstrs (RoutingProfile.direct_geoip p));
       ("final_proxy", JBool (RoutingProfile.final_proxy p)); ("is_default", JBool (RoutingProfile.is_default p));
       ("blocked_domains", jstrs (RoutingProfile.blocked_domains p)); ("direct_domains", jstrs (RoutingProfile.direct_domains p));
       ("proxy_domains", jstrs (RoutingProfile.proxy_domains p)); ("notes", JString (RoutingProfile.notes p))].

Definition node_doc (n : Node.Node) : json :=
  obj [("name", JString (Node.name n)); ("address", JString (Node.address n));
       ("tls_server_name", JString (Node.tls_server_name n)); ("grpc_port", jint (Node.grpc_port n));
       ("transport", JString (Node.transport n)); ("monthly_cost_cents", jint (Node.monthly_cost_cents n));
       ("enabled", JBool (Node.enabled n))].

Definition inbound_doc (node_name : string) (i : Inbound.Inbound) : json :=
  obj [("node", JString node_name); ("tag", JString (Inbound.tag i)); ("kind", JString (Inbound.kind i));
       ("core", JString (Inbound.core i)); ("listen_port", jint (Inbound.listen_port i));
       ("network", JString (Inbound.network i)); ("tls_enabled", JBool (Inbound.tls_enabled i));
       ("reality", JBool (Inbound.reality i)); ("server_name", jopt_str (Inbound.server_name i));
       ("enabled", JBool (Inbound.enabled i))].

Definition node_inbounds (node : Uuid) (db : Db) : result (list Inbound.Inbound) db_error :=
  try_map (decrypt_inbound decrypt)
    (sort_by (fun a b => Inbound.listen_port a <=? Inbound.listen_port b)
       (List.filter (fun i => Inbound.node_id i =? node) (rows (inbounds db)))).

Definition config_export (f : FleetDb) : json :=
  let db := fleet_tables f in
  let node_map := hash_order ((fun n => (Node.id n, Node.name n)) <$> list_nodes db) in
  let inbounds_of (kn : Uuid * string) :=
    match node_inbounds kn.1 db with Ok l => inbound_doc kn.2 <$> l | Err _ => [] end in
  obj [("version", jint 1); ("groups", JArray ((fun kg => group_doc kg.2) <$> list_node_groups collate db));
       ("routing_profiles", JArray (profile_doc <$> list_routing_profiles collate (profiles f)));
       ("nodes", JArray (node_doc <$> list_nodes db)); ("inbounds", JArray (flat_map inbounds_of node_map))].
End Exporting.

(** ** The document *)

Record ConfigDoc := mkDoc {
  cd_groups : list NewNodeGroup;
  cd_routing_profiles : list NewRoutingProfile.NewRoutingProfile;
  cd_nodes : list NewNode.NewNode;
  cd_dry_run : bool;
  cd_prune : bool }.

(** A field that must be present, and one with a default. *)
Definition req_field {A} (de : json -> option A) (k : string) (v : json) : option A :=
  let! x := get k v in de x.
Definition def_field {A} (d : A) (de : json -> option A) (k : string) (v : json) : option A :=
  match get k v with None => Some d | Some x => de x end.
Definition de_list {A} (de : json -> option A) (v : json) : option (list A) :=
  match v with JArray l => mapM de l | _ => None end.

Definition group_of (v : json) : option NewNodeGroup :=
  let! name := req_field de_string "name" v in
  let! note := def_field "" de_string "note" v in
  Some (mkNewGroup name note).

Definition profile_of (v : json) : option NewRoutingProfile.NewRoutingProfile :=
  let! name := req_field de_string "name" v in
  let! block_ads := def_field false de_bool "block_ads" v in
  let! direct_private := def_field true de_bool "direct_private" v in
  let! direct_geosite := def_field [] de_strings "direct_geosite" v in
  let! direct_geoip := def_field [] de_strings "direct_geoip" v in
  let! final_proxy := def_field true de_bool "final_proxy" v in
  let! is_default := def_field false de_bool "is_default" v in
  let! notes := def_field "" de_string "notes" v in
  let! block_adult := def_field false de_bool "block_adult" v in
  let! block_gambling := def_field false de_bool "block_gambling" v in
  let! blocked_domains := def_field [] de_strings "blocked_domains" v in
  let! direct_domains := def_field [] de_strings "direct_domains" v in
  let! proxy_domains := def_field [] de_strings "proxy_domains" v in
  let! app_rules := def_field JNull de_json "app_rules" v in
  let! dns_doh := def_field "" de_string "dns_doh" v in
  let! dns_fakeip := def_field false de_bool "dns_fakeip" v in
  let! dns_block_plain := def_field false de_bool "dns_block_plain" v in
  Some (NewRoutingProfile.mk name block_ads direct_private direct_geosite direct_geoip final_proxy is_default notes
          block_adult block_gambling blocked_domains direct_domains proxy_domains app_rules dns_doh dns_fakeip
          dns_block_plain).

Definition node_of (v : json) : option NewNode.NewNode :=
  let! name := req_field de_string "name" v in
  let! address := req_field de_string "address" v in
  let! tls_server_name := def_field "honey-agent" de_string "tls_server_name" v in
  let! grpc_port := def_field 8443 de_i32 "grpc_port" v in
  let! transport := def_field "serve" de_string "transport" v in
  let! monthly_cost_cents := def_field 0 de_i64 "monthly_cost_cents" v in
  Some (NewNode.mk name address tls_server_name grpc_port transport monthly_cost_cents).

(** The body is an object. *)
Definition config_doc_of (v : json) : option ConfigDoc :=
  let! _ := (if is_object v then Some tt else None) in
  let! groups := def_field [] (de_list group_of) "groups" v in
  let! routing_profiles := def_field [] (de_list profile_of) "routing_profiles" v in
  let! nodes := def_field [] (de_list node_of) "nodes" v in
  let! dry_run := def_field false de_bool "dry_run" v in
  let! prune := def_field false de_bool "prune" v in
  Some (mkDoc groups routing_profiles nodes dry_run prune).

(** ** Apply *)

Record Counts := mkCounts { created : Z; updated : Z; deleted : Z }.
Definition no_counts : Counts := mkCounts 0 0 0.
Definition one_created (c : Counts) : Counts := mkCounts (created c + 1) (updated c) (deleted c).
Definition one_updated (c : Counts) : Counts := mkCounts (created c) (updated c + 1) (deleted c).
Definition one_deleted (c : Counts) : Counts := mkCounts (created c) (updated c) (deleted c + 1).

Record Plan := mkPlan {
  pl_dry_run : bool;
  pl_prune : bool;
  pl_groups : Counts;
  pl_profiles : Counts;
  pl_nodes : Counts }.

(** [for x in l { ... }], the position of [x] with it. *)
Fixpoint each {A S} (body : nat -> A -> S -> M S) (k : nat) (l : list A) (s : S) : M S :=
  match l with
  | [] => mret s
  | x :: l => s ← body k x s; each body (Datatypes.S k) l s
  end.

(** [if !dry { ... }]. *)
Definition unless {A} (dry : bool) (m : M A) : M unit := if dry then mret tt else m ≫= fun _ => mret tt.

Section Apply.
Context (collate : string -> string -> bool) (to_lowercase : string -> string).

(** The rows a document names, and those it leaves out. *)
Definition named_like {A} (name : A -> string) (spec : string) (existing : list A) : option A :=
  List.find (fun x => eq_ignore_ascii_case (name x) (trim spec)) existing.
Definition left_out {A} (name : A -> string) (specs : list string) (x : A) : bool :=
  negb (existsb (String.eqb (to_lowercase (name x))) ((fun n => to_lowercase (trim n)) <$> specs)).

Definition prune_all {A} (prune dry : bool) (gone : A -> bool) (remove : A -> M unit) (existing : list A) (c : Counts) : M Counts :=
  if prune then
    each (fun _ x c => if gone x then _ ← unless dry (remove x); mret (one_deleted c) else mret c) 0 existing c
  else mret c.

Definition apply_group (dry : bool) (ids : nat -> Uuid) (existing : list (Uuid * NodeGroup)) (k : nat) (spec : NewNodeGroup)
    (c : Counts) : M Counts :=
  match named_like (fun kg => group_name kg.2) (ng_name spec) existing with
  | Some cur =>
      if String.eqb (note cur.2) (ng_note spec) then mret c
      else
        _ ← unless dry (statement (on_tables (update_node_group cur.1 (mkUpdateGroup None (Some (ng_note spec))))));
        mret (one_updated c)
  | None =>
      _ ← unless dry (statement (on_tables (create_node_group (ids k) spec)));
      mret (one_created c)
  end.

Definition apply_groups (ids : nat -> Uuid) (doc : ConfigDoc) : M Counts :=
  let dry := cd_dry_run doc in
  existing ← query (fun f => list_node_groups collate (fleet_tables f));
  c ← each (apply_group dry ids existing) 0 (cd_groups doc) no_counts;
  prune_all (cd_prune doc) dry
    (fun kg => negb (is_default kg.2) && left_out (fun kg => group_name kg.2) (ng_name <$> cd_groups doc) kg)
    (fun kg => statement (delete_group_row kg.1) ≫= fun _ => mret tt) existing c.

(** What a document sets of a profile; app rules and DNS stay. *)
Definition profile_patch (spec : NewRoutingProfile.NewRoutingProfile) : UpdateRoutingProfile.UpdateRoutingProfile :=
  UpdateRoutingProfile.mk (Some (NewRoutingProfile.name spec)) (Some (NewRoutingProfile.block_ads spec))
    (Some (NewRoutingProfile.direct_private spec)) (Some (NewRoutingProfile.direct_geosite spec))
    (Some (NewRoutingProfile.direct_geoip spec)) (Some (NewRoutingProfile.final_proxy spec))
    (Some (NewRoutingProfile.is_default spec)) (Some (NewRoutingProfile.notes spec))
    (Some (NewRoutingProfile.block_adult spec)) (Some (NewRoutingProfile.block_gambling spec))
    (Some (NewRoutingProfile.blocked_domains spec)) (Some (NewRoutingProfile.direct_domains spec))
    (Some (NewRoutingProfile.proxy_domains spec)) None None None None.

Definition apply_profile (dry : bool) (now : Z) (ids : nat -> Uuid) (existing : list Profile) (k : nat)
    (spec : NewRoutingProfile.NewRoutingProfile) (c : Counts) : M Counts :=
  match named_like RoutingProfile.name (NewRoutingProfile.name spec) existing with
  | Some cur =>
      _ ← unless dry (statement (on_profiles (update_routing_profile now (RoutingProfile.id cur) (profile_patch spec))));
      mret (one_updated c)
  | None =>
      _ ← unless dry (statement (on_profiles (create_routing_profile (ids k) now spec)));
      mret (one_created c)
  end.

Definition apply_profiles (now : Z) (ids : nat -> Uuid) (doc : ConfigDoc) : M Counts :=
  let dry := cd_dry_run doc in
  existing ← query (fun f => list_routing_profiles collate (profiles f));
  c ← each (apply_profile dry now ids existing) 0 (cd_routing_profiles doc) no_counts;
  prune_all (cd_prune doc) dry
    (fun p => negb (RoutingProfile.is_default p)
              && left_out RoutingProfile.name (NewRoutingProfile.name <$> cd_routing_profiles doc) p)
    (fun p => statement (delete_routing_profile now (RoutingProfile.id p)) ≫= fun _ => mret tt) existing c.

(** What a document sets of a node: neither its name nor its standing. *)
Definition node_patch (spec : NewNode.NewNode) : UpdateNode.UpdateNode :=
  UpdateNode.mk None (Some (NewNode.address spec)) (Some (NewNode.tls_server_name spec)) (Some (NewNode.grpc_port spec))
    (Some (NewNode.transport spec)) None None None (Some (NewNode.monthly_cost_cents spec)).

Definition apply_node (dry : bool) (now : Z) (ids : nat -> Uuid) (existing : list Node.Node) (k : nat)
    (spec : NewNode.NewNode) (c : Counts) : M Counts :=
  match named_like Node.name (NewNode.name spec) existing with
  | Some cur =>
      _ ← unless dry (statement (on_tables (update_node_row now (Node.id cur) (node_patch spec))));
      mret (one_updated c)
  | None =>
      _ ← unless dry (statement (on_tables (create_node_row (ids k) now spec)));
      mret (one_created c)
  end.

Definition apply_nodes (now : Z) (ids : nat -> Uuid) (doc : ConfigDoc) : M Counts :=
  let dry := cd_dry_run doc in
  existing ← query (fun f => list_nodes (fleet_tables f));
  c ← each (apply_node dry now ids existing) 0 (cd_nodes doc) no_counts;
  prune_all (cd_prune doc) dry (left_out Node.name (NewNode.name <$> cd_nodes doc))
    (fun n => statement (delete_node_row (Node.id n)) ≫= fun _ => mret tt) existing c.

Definition config_apply (now : Z) (group_ids profile_ids node_ids : nat -> Uuid) (doc : ConfigDoc) : M Plan :=
  g ← apply_groups group_ids doc;
  p ← apply_profiles now profile_ids doc;
  n ← apply_nodes now node_ids doc;
  _ ← unless (cd_dry_run doc) (emit (AuditEvent "apply" "config" None (obj [])));
  mret (mkPlan (cd_dry_run doc) (cd_prune doc) g p n).
End Apply.

(** ** Bulk import *)

Record ImportUser := mkImport {
  iu_username : string;
  iu_traffic_limit_bytes : option Z;
  iu_data_limit : option Z;
  iu_expires_at : option Z;
  iu_expire : option Z;
  iu_status : option string;
  iu_enabled : option bool }.

Record Tally := mkTally { t_created : Z; t_skipped : Z; t_failed : Z; created_names : list string }.

(** [.ok()] and [match] on the outcome of a step. *)
Definition attempt {A} (m : M A) : M (result A api_error) := fun s => let (r, s') := m s in (Ok r, s').

Section Importing.
Context (decrypt : string -> option string) (token_hash : string -> string) (uuid_str : Uuid -> string)
  (sql_lower : string -> string) (from_timestamp : Z -> option Z).

Definition get_user_by_name (name : string) (db : Db) : result (option User.User) db_error :=
  decrypt_opt_user decrypt (List.find (fun u => String.eqb (User.username u) name) (rows (users db))).

Definition set_user_enabled (now id : Z) (enabled : bool) (f : FleetDb) : result bool db_error * FleetDb :=
  match update_row sql_lower id (User.with_enabled enabled now) (fun t => t) (accounts_db (world f)) with
  | (Ok o, u) => (Ok (is_some o), with_world (with_accounts_db (fun _ => u)) f)
  | (Err e, _) => (Err e, f)
  end.

Definition import_expiry (u : ImportUser) : option Z :=
  opt_or (iu_expires_at u) (let! s := opt_filter (fun s => 0 <? s) (iu_expire u) in from_timestamp s).

Definition import_enabled (u : ImportUser) : bool :=
  default (negb (is_some_and (iu_status u) (one_of ["disabled"; "expired"]))) (iu_enabled u).

Definition import_new (password : string) (u : ImportUser) : NewUser.NewUser :=
  NewUser.mk (trim (iu_username u)) password None None None "inherit"
    (Z.max (default 0 (opt_or (iu_traffic_limit_bytes u) (iu_data_limit u))) 0) (import_expiry u) 0.

(** The draws and the generated password of each entry. *)
Definition import_one (draws : nat -> Draws) (passwords : nat -> option string) (i : Identity) (k : nat) (u : ImportUser)
    (t : Tally) : M Tally :=
  let failed := mkTally (t_created t) (t_skipped t) (t_failed t + 1) (created_names t) in
  let name := trim (iu_username u) in
  if is_empty name then mret failed
  else
    o ← attempt (read (fun f => get_user_by_name name (fleet_tables f)));
    if (match o with Ok (Some _) => true | _ => false end)
    then mret (mkTally (t_created t) (t_skipped t + 1) (t_failed t) (created_names t))
    else
      match passwords k with
      | None => mret failed
      | Some password =>
          r ← attempt (in_users (create_user_row decrypt token_hash uuid_str sql_lower (draws k) (import_new password u)
                                   (admin_id i) true));
          match r with
          | Err _ => mret failed
          | Ok (user, _) =>
              _ ← (if import_enabled u then mret (Ok true)
                   else attempt (statement (set_user_enabled (now (draws k)) (User.id user) false)));
              mret (mkTally (t_created t + 1) (t_skipped t) (t_failed t) (created_names t ++ [name]))
          end
      end.

Definition import_users (draws : nat -> Draws) (passwords : nat -> option string) (i : Identity) (input : list ImportUser)
    : M Tally :=
  t ← each (import_one draws passwords i) 0 input (mkTally 0 0 0 []);
  _ ← (match created_names t with
       | [] => mret tt
       | _ => ids ← query (fun f => Node.id <$> list_nodes (fleet_tables f)); push_nodes ids
       end);
  _ ← emit (AuditEvent "import" "user" None
              (obj [("created", jint (t_created t)); ("skipped", jint (t_skipped t)); ("failed", jint (t_failed t))]));
  mret t.
End Importing.

(** ** A dry run foretells the run *)

(** A loop body that, run dry, only counts, and counts the same when it acts. *)
Definition predictable {A} (body : bool -> nat -> A -> Counts -> M Counts) (effect : A -> Counts -> Counts) : Prop :=
  (forall k x c s, body true k x c s = (Ok (effect x c), s)) /\
  (forall k x c s c' s', body false k x c s = (Ok c', s') -> c' = effect x c).

Lemma each_predictable {A} body (effect : A -> Counts -> Counts) : predictable body effect ->
  forall l k c, (forall s, each (body true) k l c s = (Ok (fold_left (fun c x => effect x c) l c), s)) /\
    (forall s c' s', each (body false) k l c s = (Ok c', s') -> c' = fold_left (fun c x => effect x c) l c).
Proof.
  intros [Hd Hw] l. induction l as [|x l IH]; intros k c; simpl.
  - split; [done|]. by intros s c' s' [= ->].
  - split.
    + intros s. unfold mbind, M_bind. rewrite Hd. apply IH.
    + intros s c' s' (c1 & s1 & H1 & H2)%bind_ok. apply Hw in H1 as ->. by apply IH in H2.
Qed.

(** An action, then a count. *)
Lemma unless_predictable {A} (m : M A) (c : Counts) :
  (forall s, (unless true m ≫= fun _ => mret c) s = (Ok c, s)) /\
  (forall s c' s', (unless false m ≫= fun _ => mret c) s = (Ok c', s') -> c' = c).
Proof. split; [done|]. intros s c' s' (u & s1 & _ & H)%bind_ok. by injection H as ->. Qed.

Section Foretold.
Context (collate : string -> string -> bool) (to_lowercase : string -> string).

Lemma prune_predictable {A} prune (gone : A -> bool) remove existing c :
  exists c1, (forall s, prune_all prune true gone remove existing c s = (Ok c1, s)) /\
    forall s c' s', prune_all prune false gone remove existing c s = (Ok c', s') -> c' = c1.
Proof.
  unfold prune_all. destruct prune; [|exists c; split; [done|by intros s c' s' [= ->]]].
  destruct (each_predictable (fun dry _ x c => if gone x then _ ← unless dry (remove x); mret (one_deleted c) else mret c)
    (fun x c => if gone x then one_deleted c else c)) with (l := existing) (k := 0%nat) (c := c) as [Hd Hw].
  - split; intros k x d; destruct (gone x); [apply (unless_predictable (remove x))|done| |].
    + intros s c' s' H. by apply (unless_predictable (remove x)) in H.
    + by intros s c' s' [= ->].
  - eexists. split; [exact Hd|exact Hw].
Qed.

Lemma group_predictable ids existing : exists effect, predictable (fun dry => apply_group dry ids existing) effect.
Proof.
  exists (fun spec c => match named_like (fun kg => group_name kg.2) (ng_name spec) existing with
    | Some cur => if String.eqb (note cur.2) (ng_note spec) then c else one_updated c | None => one_created c end).
  split; intros k x c; unfold apply_group; destruct (named_like _ _ _); [destruct (String.eqb _ _)| |destruct (String.eqb _ _)|];
    try done; try (by intros s c' s' [= ->]); intros s c' s' H; by apply unless_predictable in H.
Qed.

Lemma profile_predictable now ids existing : exists effect, predictable (fun dry => apply_profile dry now ids existing) effect.
Proof.
  exists (fun spec c => match named_like RoutingProfile.name (NewRoutingProfile.name spec) existing with
    | Some _ => one_updated c | None => one_created c end).
  split; intros k x c; unfold apply_profile; destruct (named_like _ _ _); try done; intros s c' s' H; by apply unless_predictable in H.
Qed.

Lemma node_predictable now ids existing : exists effect, predictable (fun dry => apply_node dry now ids existing) effect.
Proof.
  exists (fun spec c => match named_like Node.name (NewNode.name spec) existing with
    | Some _ => one_updated c | None => one_created c end).
  split; intros k x c; unfold apply_node; destruct (named_like _ _ _); try done; intros s c' s' H; by apply unless_predictable in H.
Qed.

(** A section of the document: read the rows, apply the specs, prune. *)
Definition apply_section {X A} (rows_of : FleetDb -> list X) (body : bool -> list X -> nat -> A -> Counts -> M Counts)
    (gone : X -> bool) (remove : X -> M unit) (specs : list A) (prune dry : bool) : M Counts :=
  existing ← query rows_of;
  c ← each (body dry existing) 0 specs no_counts;
  prune_all prune dry gone remove existing c.

Lemma section_predictable {X A} rows_of body gone remove (specs : list A) prune (s s0 : St) c0 s0' :
  (forall existing : list X, exists effect, predictable (fun dry => body dry existing) effect) ->
  rows_of (store s) = rows_of (store s0) ->
  apply_section rows_of body gone remove specs prune false s0 = (Ok c0, s0') ->
  apply_section rows_of body gone remove specs prune true s = (Ok c0, s).
Proof.
  intros Hp Hr H. unfold apply_section in *. apply bind_ok in H as (ex & s1 & [-> ->]%query_ok & H).
  apply bind_ok in H as (c & s1 & He & H). destruct (Hp (rows_of (store s0))) as [effect Heff].
  destruct (each_predictable _ _ Heff specs 0 no_counts) as [Hd Hw]. apply Hw in He as ->.
  destruct (prune_predictable prune gone remove (rows_of (store s0)) (fold_left (fun c x => effect x c) specs no_counts))
    as (c1 & Hpd & Hpw). apply Hpw in H as ->.
  unfold mbind, M_bind, query. rewrite Hr, Hd. apply Hpd.
Qed.

Lemma keeps_each {A S} (R : relation FleetDb) (body : nat -> A -> S -> M S) : PreOrder R ->
  (forall k x s, Keeps R (body k x s)) -> forall l k s, Keeps R (each body k l s).
Proof. intros HR H l. induction l as [|x l IH]; intros k s; simpl; [keeps|]. apply keeps_bind; [apply _|apply H|intros c; apply IH]. Qed.

Lemma keeps_unless {A} (R : relation FleetDb) dry (m : M A) : PreOrder R -> Keeps R m -> Keeps R (unless dry m).
Proof. intros HR H. destruct dry; simpl; [keeps|]. apply keeps_bind; [apply _|done|]. intros a. keeps. Qed.

Lemma keeps_prune {A} (R : relation FleetDb) prune dry (gone : A -> bool) remove existing c : PreOrder R ->
  (forall x, Keeps R (remove x)) -> Keeps R (prune_all prune dry gone remove existing c).
Proof.
  intros HR H. unfold prune_all. destruct prune; [|keeps]. apply keeps_each; [done|]. intros k x d. destruct (gone x); [|keeps].
  apply keeps_bind; [apply _|by apply keeps_unless|]. intros u. keeps.
Qed.

(** Groups are applied beside profiles and nodes, profiles beside nodes. *)
Definition beside_groups (f f' : FleetDb) : Prop := profiles f' = profiles f /\ nodes (fleet_tables f') = nodes (fleet_tables f).
Definition beside_profiles (f f' : FleetDb) : Prop := nodes (fleet_tables f') = nodes (fleet_tables f).
#[local] Instance beside_groups_preorder : PreOrder beside_groups.
Proof. split; [by intros f|]. intros a b c [H1 H2] [H3 H4]. split; congruence. Qed.
#[local] Instance beside_profiles_preorder : PreOrder beside_profiles.
Proof. split; [by intros f|]. unfold beside_profiles. intros a b c H1 H2. congruence. Qed.

Lemma on_tables_beside {A} (q : Db -> result (A * Db) db_error) :
  (forall db a db', q db = Ok (a, db') -> nodes db' = nodes db) -> Keeps beside_groups (statement (on_tables q)).
Proof.
  intros H. apply keeps_statement. intros f. unfold on_tables. destruct (q _) as [[a db']|] eqn:E; [|done]. split; [done|].
  by apply (H _ a).
Qed.

Lemma write_group_nodes id g db a db' : write_group id g db = Ok (a, db') -> nodes db' = nodes db.
Proof. unfold write_group. destruct (is_empty _); [done|]. destruct (name_taken _ _ _ _); [done|]. by intros [= _ <-]. Qed.

Lemma apply_groups_beside ids doc : Keeps beside_groups (apply_groups collate to_lowercase ids doc).
Proof.
  unfold apply_groups. cbv zeta. apply keeps_bind; [apply _|keeps|]. intros ex. apply keeps_bind; [apply _| |].
  - apply keeps_each; [apply _|]. intros k x c. unfold apply_group. destruct (named_like _ _ _) as [cur|].
    + destruct (String.eqb _ _); [keeps|]. apply keeps_bind; [apply _| |intros u; keeps].
      apply keeps_unless; [apply _|]. apply on_tables_beside. intros db a db'. unfold update_node_group.
      destruct (node_groups db !! _); [|by intros [= _ <-]]. destruct (write_group _ _ _) as [[b d]|] eqn:E; [|done].
      intros [= _ <-]. by eapply write_group_nodes.
    + apply keeps_bind; [apply _| |intros u; keeps]. apply keeps_unless; [apply _|]. apply on_tables_beside.
      intros db a db'. unfold create_node_group. destruct (is_some _); [done|]. apply write_group_nodes.
  - intros c. apply keeps_prune; [apply _|]. intros x. keeps. apply keeps_statement. intros f.
    unfold delete_group_row, delete_node_group. destruct (node_groups _ !! _) as [g|]; [|done]. by destruct (is_default g).
Qed.

Lemma on_profiles_beside {A} q : Keeps beside_profiles (statement (@on_profiles A q)).
Proof. apply keeps_statement. intros f. unfold on_profiles. by destruct (q _) as [[]|]. Qed.

Lemma apply_profiles_beside now ids doc : Keeps beside_profiles (apply_profiles collate to_lowercase now ids doc).
Proof.
  unfold apply_profiles. cbv zeta. apply keeps_bind; [apply _|keeps|]. intros ex. apply keeps_bind; [apply _| |].
  - apply keeps_each; [apply _|]. intros k x c. unfold apply_profile.
    destruct (named_like _ _ _); (apply keeps_bind; [apply _| |intros u; keeps]); (apply keeps_unless; [apply _|]);
      apply on_profiles_beside.
  - intros c. apply keeps_prune; [apply _|]. intros x. keeps. apply keeps_statement. intros f.
    unfold delete_routing_profile. by destruct (profiles f !! _).
Qed.

Definition dry_or_not (dry : bool) (doc : ConfigDoc) : ConfigDoc :=
  mkDoc (cd_groups doc) (cd_routing_profiles doc) (cd_nodes doc) dry (cd_prune doc).

(** A dry run foretells the run.  When applying a document succeeds, applying it
    dry from the same state would have answered with the same counts of rows
    created, updated and deleted; and the dry run leaves the state, and the audit
    log, as they are. *)
Theorem dry_run_foretells now g p n g' p' n' doc s plan s' :
  config_apply collate to_lowercase now g p n (dry_or_not false doc) s = (Ok plan, s') ->
  config_apply collate to_lowercase now g' p' n' (dry_or_not true doc) s =
    (Ok (mkPlan true (cd_prune doc) (pl_groups plan) (pl_profiles plan) (pl_nodes plan)), s).
Proof.
  intros H. unfold config_apply in H. apply bind_ok in H as (cg & s1 & Hg & H). apply bind_ok in H as (cp & s2 & Hp & H).
  apply bind_ok in H as (cn & s3 & Hn & H). apply bind_ok in H as (u & s4 & _ & H). injection H as <- _. simpl.
  pose proof (apply_groups_beside g (dry_or_not false doc) s) as [K1 K1']. rewrite Hg in K1, K1'.
  pose proof (apply_profiles_beside now p (dry_or_not false doc) s1) as K2. rewrite Hp in K2.
  unfold beside_profiles in K2. simpl in K1, K1', K2.
  assert (apply_groups collate to_lowercase g' (dry_or_not true doc) s = (Ok cg, s)) as Eg.
  { eapply (section_predictable (fun f => list_node_groups collate (fleet_tables f)) (fun dry => apply_group dry g)
      _ _ (cd_groups doc)); [|reflexivity|exact Hg]. apply group_predictable. }
  assert (apply_profiles collate to_lowercase now p' (dry_or_not true doc) s = (Ok cp, s)) as Ep.
  { eapply (section_predictable (fun f => list_routing_profiles collate (profiles f)) (fun dry => apply_profile dry now p)
      _ _ (cd_routing_profiles doc)); [| |exact Hp]; [apply profile_predictable|]. simpl. by rewrite K1. }
  assert (apply_nodes to_lowercase now n' (dry_or_not true doc) s = (Ok cn, s)) as En.
  { eapply (section_predictable (fun f => list_nodes (fleet_tables f)) (fun dry => apply_node dry now n)
      _ _ (cd_nodes doc)); [| |exact Hn]; [apply node_predictable|]. simpl. unfold list_nodes. by rewrite K2, K1'. }
  unfold config_apply, mbind, M_bind. rewrite Eg, Ep, En. done.
Qed.
End Foretold.

(** ** Applying an export changes nothing *)

(** What the document says of a row. *)
Definition group_spec (kg : Uuid * NodeGroup) : NewNodeGroup := mkNewGroup (group_name kg.2) (note kg.2).
Definition profile_spec (p : Profile) : NewRoutingProfile.NewRoutingProfile :=
  NewRoutingProfile.mk (RoutingProfile.name p) (RoutingProfile.block_ads p) (RoutingProfile.direct_private p)
    (RoutingProfile.direct_geosite p) (RoutingProfile.direct_geoip p) (RoutingProfile.final_proxy p)
    (RoutingProfile.is_default p) (RoutingProfile.notes p) (RoutingProfile.block_adult p) (RoutingProfile.block_gambling p)
    (RoutingProfile.blocked_domains p) (RoutingProfile.direct_domains p) (RoutingProfile.proxy_domains p) JNull "" false false.
Definition node_spec (n : Node.Node) : NewNode.NewNode :=
  NewNode.mk (Node.name n) (Node.address n) (Node.tls_server_name n) (Node.grpc_port n) (Node.transport n)
    (Node.monthly_cost_cents n).

(** Names a document can tell apart: trimmed, and distinct whatever their case. *)
Definition nameable {V} (name : V -> string) (m : gmap Uuid V) : Prop :=
  map_Forall (fun _ v => trim (name v) = name v) m /\
  forall k1 k2 v1 v2, m !! k1 = Some v1 -> m !! k2 = Some v2 -> eq_ignore_ascii_case (name v1) (name v2) = true -> k1 = k2.

(** The rows an export describes in full. *)
Definition exportable_profiles (m : gmap Uuid Profile) : Prop :=
  nameable RoutingProfile.name m /\
  map_Forall (fun _ p => is_empty (RoutingProfile.name p) = false /\ trim (RoutingProfile.notes p) = RoutingProfile.notes p /\
    trim (RoutingProfile.dns_doh p) = RoutingProfile.dns_doh p /\ RoutingProfile.version p < i32_max) m.
Definition exportable_nodes (m : gmap Uuid Node.Node) : Prop :=
  nameable Node.name m /\ map_Forall (fun _ n => 0 <= Node.monthly_cost_cents n <= i64_max) m.
Definition exportable (f : FleetDb) : Prop :=
  nameable group_name (node_groups (fleet_tables f)) /\ exportable_profiles (profiles f) /\
  exportable_nodes (nodes (fleet_tables f)).

(** The rows named by [ids] touched, the others as they are. *)
Definition touched {V} (touch : V -> V) (ids : list Uuid) (m : gmap Uuid V) : gmap Uuid V :=
  map_imap (fun k v => Some (if bool_decide (k ∈ ids) then touch v else v)) m.

Lemma touched_none {V} (touch : V -> V) m : touched touch [] m = m.
Proof. apply map_eq. intros k. unfold touched. rewrite map_lookup_imap. by destruct (m !! k). Qed.

Lemma touched_all {V} (touch : V -> V) ids m : (forall k, is_Some (m !! k) -> k ∈ ids) -> touched touch ids m = touch <$> m.
Proof.
  intros H. apply map_eq. intros k. unfold touched. rewrite map_lookup_imap, lookup_fmap.
  destruct (m !! k) eqn:E; [|done]. simpl. rewrite bool_decide_eq_true_2; [done|]. apply H. by rewrite E.
Qed.

Lemma touched_step {V} (touch : V -> V) ids k v (m : gmap Uuid V) :
  m !! k = Some v -> <[k := touch v]> (touched touch ids m) = touched touch (ids ++ [k]) m.
Proof.
  intros H. apply map_eq. intros j. unfold touched. destruct (decide (j = k)) as [->|Hj].
  - rewrite lookup_insert_eq, map_lookup_imap, H. simpl. rewrite bool_decide_eq_true_2; [done|set_solver].
  - rewrite lookup_insert_ne, !map_lookup_imap by done. destruct (m !! j); [|done]. simpl.
    by rewrite (bool_decide_ext (j ∈ ids ++ [k]) (j ∈ ids)) by set_solver.
Qed.

Lemma touched_lookup {V} (touch : V -> V) ids k v (m : gmap Uuid V) :
  m !! k = Some v -> k ∉ ids -> touched touch ids m !! k = Some v.
Proof. intros H Hk. unfold touched. rewrite map_lookup_imap, H. simpl. by rewrite bool_decide_eq_false_2. Qed.

(** A loop that touches the rows of a list, one each. *)
Lemma each_touches {A X V} (step : nat -> A -> Counts -> M Counts) (spec : X -> A) (key : X -> Uuid) (val : X -> V)
    (touch : V -> V) (m : gmap Uuid V) (put : gmap Uuid V -> FleetDb) tr :
  forall l, NoDup (key <$> l) -> Forall (fun x => m !! key x = Some (val x)) l ->
  (forall k x c ids, x ∈ l -> key x ∉ ids ->
     step k (spec x) c (mkSt (put (touched touch ids m)) tr)
     = (Ok (one_updated c), mkSt (put (<[key x := touch (val x)]> (touched touch ids m))) tr)) ->
  forall k c ids, (forall x, x ∈ l -> key x ∉ ids) ->
  each step k (spec <$> l) c (mkSt (put (touched touch ids m)) tr)
  = (Ok (mkCounts (created c) (updated c + Z.of_nat (length l)) (deleted c)), mkSt (put (touched touch (ids ++ (key <$> l)) m)) tr).
Proof.
  intros l. induction l as [|x l IH]; intros Hnd Hm Hstep k c ids Hids; simpl.
  - rewrite app_nil_r. destruct c. simpl. by rewrite Z.add_0_r.
  - apply NoDup_cons in Hnd as [Hx Hnd]. apply Forall_cons in Hm as [Hmx Hm].
    unfold mbind, M_bind. rewrite Hstep by (try apply Hids; set_solver). rewrite (touched_step _ _ _ (val x)) by done.
    rewrite IH; [|done|done| |].
    + rewrite <- app_assoc. simpl. do 2 f_equal. unfold one_updated. simpl. f_equal. lia.
    + intros k' y c' ids' Hy. apply Hstep. set_solver.
    + intros y Hy. rewrite elem_of_app, list_elem_of_singleton. intros [H|E]; [by apply (Hids y) in H; [|set_solver]|].
      apply Hx. rewrite <- E. by apply list_elem_of_fmap_2.
Qed.

Section RoundTrip.
Context (decrypt : string -> option string) (collate : string -> string -> bool) (to_lowercase : string -> string).
Context (hash_order : list (Uuid * string) -> list (Uuid * string)).

Lemma prune_nothing {A} prune dry (gone : A -> bool) remove l c s : (forall x, x ∈ l -> gone x = false) ->
  prune_all prune dry gone remove l c s = (Ok c, s).
Proof.
  intros H. unfold prune_all. destruct prune; [|done]. generalize 0%nat. induction l as [|x l IH]; intros k; [done|].
  simpl. rewrite H by set_solver. apply IH. intros y Hy. apply H. set_solver.
Qed.

(** A row the document names is not left out of it. *)
Lemma left_out_not {X A} (name : X -> string) (spec : X -> A) (spec_name : A -> string) l x :
  (forall y, spec_name (spec y) = name y) -> (forall y, y ∈ l -> trim (name y) = name y) -> x ∈ l ->
  left_out to_lowercase name (spec_name <$> (spec <$> l)) x = false.
Proof.
  intros Hs Ht Hx. unfold left_out. apply negb_false_iff, existsb_exists. exists (to_lowercase (name x)).
  split; [|apply String.eqb_refl]. apply list_elem_of_In. rewrite list_elem_of_fmap. exists (name x).
  rewrite Ht by done. split; [done|]. rewrite list_elem_of_fmap. exists (spec x). split; [by rewrite Hs|].
  rewrite list_elem_of_fmap. eauto.
Qed.

(** The name of a row finds that row. *)
Lemma named_like_self {X V} (key : X -> Uuid) (val : X -> V) (name : V -> string) (m : gmap Uuid V) l x :
  nameable name m -> (forall y, y ∈ l -> m !! key y = Some (val y)) ->
  (forall y z, y ∈ l -> z ∈ l -> key y = key z -> y = z) -> x ∈ l ->
  named_like (fun y => name (val y)) (name (val x)) l = Some x.
Proof.
  intros [Ht Hd] Hm Hk Hx. unfold named_like. rewrite (Ht _ _ (Hm x Hx)). destruct (List.find _ _) as [y|] eqn:E.
  - apply find_some in E as [Hy%list_elem_of_In Hn]. f_equal. apply Hk; [done..|]. eapply Hd; eauto.
  - apply find_none with (x := x) in E; [|by apply list_elem_of_In]. unfold eq_ignore_ascii_case in E.
    by rewrite String.eqb_refl in E.
Qed.

(** ** Nodes *)

Definition restamp_node (now : Z) : Node.Node -> Node.Node := node_updated now (UpdateNode.mk None None None None None None None None None).
Definition set_nodes (f : FleetDb) (m : gmap Uuid Node.Node) : FleetDb := with_fleet_tables (with_nodes (fun _ => m)) f.

Lemma list_nodes_rows db n : nodes_ok db -> n ∈ list_nodes db <-> nodes db !! Node.id n = Some n.
Proof.
  intros [_ Hid]. unfold list_nodes. rewrite list_elem_of_In, sort_by_in, in_rows. split; [|eauto].
  intros [k Hk]. by destruct (Hid _ _ Hk) as [-> _].
Qed.

Lemma list_nodes_nodup db : nodes_ok db -> NoDup (Node.id <$> list_nodes db).
Proof.
  intros [_ Hid]. unfold list_nodes. rewrite sort_by_perm. unfold rows. rewrite <- list_fmap_compose.
  rewrite (Forall_fmap_ext_1 _ fst); [apply NoDup_fst_map_to_list|].
  apply Forall_forall. intros [k n] Hk%elem_of_map_to_list. by apply Hid in Hk as [? _].
Qed.

Lemma apply_node_again now ids f tr k n c done_ids :
  nodes_ok (fleet_tables f) -> exportable_nodes (nodes (fleet_tables f)) -> n ∈ list_nodes (fleet_tables f) -> Node.id n ∉ done_ids ->
  apply_node false now ids (list_nodes (fleet_tables f)) k (node_spec n) c
    (mkSt (set_nodes f (touched (restamp_node now) done_ids (nodes (fleet_tables f)))) tr)
  = (Ok (one_updated c),
     mkSt (set_nodes f (<[Node.id n := restamp_node now n]> (touched (restamp_node now) done_ids (nodes (fleet_tables f))))) tr).
Proof.
  intros Hok [Hn Hc] Hin Hnew. unfold apply_node. simpl.
  rewrite (named_like_self Node.id id Node.name (nodes (fleet_tables f)) _ n Hn) by
    (try done; unfold id; intros *; rewrite !(list_nodes_rows _ _ Hok); congruence).
  rewrite (list_nodes_rows _ _ Hok) in Hin. assert (Hc' := Hc _ _ Hin). simpl in Hc'. destruct Hok as [Hu Hid].
  destruct (Hid _ _ Hin) as [_ Hck]. unfold unless, mbind, M_bind, statement, on_tables, update_node_row, alter_node. simpl.
  rewrite (touched_lookup _ _ _ _ _ Hin Hnew).
  assert (node_updated now (node_patch (node_spec n)) n = restamp_node now n) as ->.
  { unfold node_updated, restamp_node. simpl. by rewrite Z.max_r by lia. }
  unfold write_node. assert (node_checks (restamp_node now n) = true) as -> by exact Hck. simpl.
  assert (name_taken Node.name (Node.id n) (restamp_node now n) (touched (restamp_node now) done_ids (nodes (fleet_tables f))) = false) as ->; [|done].
  apply not_true_iff_false. unfold name_taken. rewrite existsb_exists. intros ([j v] & Hj & Hv).
  apply list_elem_of_In, elem_of_map_to_list in Hj. unfold touched in Hj. rewrite map_lookup_imap in Hj.
  breflect. destruct Hv as [Hne Heq]. destruct (nodes (fleet_tables f) !! j) as [w|] eqn:Ej; [|done]. simpl in Hj.
  apply Hne. apply (Hu j (Node.id n) w n Ej Hin). injection Hj as <-. by destruct (bool_decide _).
Qed.
(** ** Routing profiles *)

Definition restamp_profile (now : Z) (p : Profile) : Profile :=
  RoutingProfile.mk (RoutingProfile.id p) (RoutingProfile.name p) (RoutingProfile.version p + 1) (RoutingProfile.block_ads p)
    (RoutingProfile.direct_private p) (RoutingProfile.direct_geosite p) (RoutingProfile.direct_geoip p)
    (RoutingProfile.final_proxy p) (RoutingProfile.is_default p) (RoutingProfile.notes p) (RoutingProfile.block_adult p)
    (RoutingProfile.block_gambling p) (RoutingProfile.blocked_domains p) (RoutingProfile.direct_domains p)
    (RoutingProfile.proxy_domains p) (RoutingProfile.app_rules p) (RoutingProfile.dns_doh p) (RoutingProfile.dns_fakeip p)
    (RoutingProfile.dns_block_plain p) (RoutingProfile.created_at p) now.
Definition set_profiles (f : FleetDb) (m : gmap Uuid Profile) : FleetDb := with_world (with_profiles (fun _ => m)) f.

Lemma list_profiles_rows m p : profiles_ok m -> p ∈ list_routing_profiles collate m <-> m !! RoutingProfile.id p = Some p.
Proof.
  intros (_ & _ & Hid). unfold list_routing_profiles. rewrite list_elem_of_In, sort_by_in, in_rows. split; [|eauto].
  intros [k Hk]. assert (E := Hid _ _ Hk). simpl in E. by rewrite E.
Qed.

Lemma list_profiles_nodup m : profiles_ok m -> NoDup (RoutingProfile.id <$> list_routing_profiles collate m).
Proof.
  intros (_ & _ & Hid). unfold list_routing_profiles. rewrite sort_by_perm. unfold rows. rewrite <- list_fmap_compose.
  rewrite (Forall_fmap_ext_1 _ fst); [apply NoDup_fst_map_to_list|].
  apply Forall_forall. intros [k p] Hk%elem_of_map_to_list. by apply Hid in Hk.
Qed.

Lemma touched_some {V} (touch : V -> V) ids (m : gmap Uuid V) j v :
  touched touch ids m !! j = Some v -> exists w, m !! j = Some w /\ (v = w \/ v = touch w).
Proof.
  unfold touched. rewrite map_lookup_imap. destruct (m !! j) as [w|]; [|done]. simpl. intros [= <-].
  exists w. split; [done|]. case_bool_decide; auto.
Qed.

(** Setting the default again unsets no other. *)
Lemma undefault_others now ids m p : profiles_ok m -> m !! RoutingProfile.id p = Some p -> RoutingProfile.is_default p = true ->
  let m' := touched (restamp_profile now) ids m in
  map_imap (fun k q => Some (if k =? RoutingProfile.id p then q else undefaulted now q)) m' = m' /\
  existsb (fun kv => negb (kv.1 =? RoutingProfile.id p) && RoutingProfile.is_default kv.2) (map_to_list m') = false.
Proof.
  intros (_ & Hone & _) Hp Hd m'.
  assert (forall k q, m' !! k = Some q -> k <> RoutingProfile.id p -> RoutingProfile.is_default q = false) as Hq.
  { intros k q (w & Hw & Hq)%touched_some Hk. apply not_true_iff_false. intros E. apply Hk.
    apply (Hone _ _ w p Hw Hp); [|done]. by destruct Hq as [-> | ->]. }
  split.
  - apply map_eq. intros k. rewrite map_lookup_imap. destruct (m' !! k) as [q|] eqn:E; [|done]. simpl.
    destruct (Z.eqb_spec k (RoutingProfile.id p)) as [|Hk]; [done|]. unfold undefaulted. by rewrite (Hq k q).
  - apply not_true_iff_false. rewrite existsb_exists. intros ([k q] & Hk%list_elem_of_In & Hv).
    apply elem_of_map_to_list in Hk. simpl in Hv. breflect. destruct Hv as [Hne Hqd]. by rewrite (Hq k q) in Hqd.
Qed.

Lemma apply_profile_again now ids f tr k p c done_ids :
  profiles_ok (profiles f) -> exportable_profiles (profiles f) -> p ∈ list_routing_profiles collate (profiles f) -> RoutingProfile.id p ∉ done_ids ->
  apply_profile false now ids (list_routing_profiles collate (profiles f)) k (profile_spec p) c
    (mkSt (set_profiles f (touched (restamp_profile now) done_ids (profiles f))) tr)
  = (Ok (one_updated c),
     mkSt (set_profiles f (<[RoutingProfile.id p := restamp_profile now p]> (touched (restamp_profile now) done_ids (profiles f)))) tr).
Proof.
  intros Hok [Hn Hf] Hin Hnew. unfold apply_profile. simpl.
  rewrite (named_like_self RoutingProfile.id id RoutingProfile.name (profiles f) _ p Hn) by
    (try done; unfold id; intros *; rewrite !(list_profiles_rows _ _ Hok); congruence).
  rewrite (list_profiles_rows _ _ Hok) in Hin. destruct (Hf _ _ Hin) as (He & Hnotes & Hdns & Hv).
  assert (Hname := proj1 Hn _ _ Hin). simpl in Hname.
  unfold unless, mbind, M_bind, statement, on_profiles, update_routing_profile, profiles. simpl. fold (profiles f).
  rewrite (touched_lookup _ _ _ _ _ Hin Hnew).
  assert (profile_updated now (profile_patch (profile_spec p)) p = restamp_profile now p) as ->.
  { unfold profile_updated, restamp_profile. simpl. by rewrite Hname, Hnotes, Hdns. }
  set (m := touched (restamp_profile now) done_ids (profiles f)).
  assert (name_taken RoutingProfile.name (RoutingProfile.id p) (restamp_profile now p) m = false) as Hfree.
  { apply not_true_iff_false. unfold name_taken. rewrite existsb_exists. intros ([j v] & Hj%list_elem_of_In & Ht).
    apply elem_of_map_to_list, touched_some in Hj as (w & Hw & Hvw). breflect. destruct Ht as [Hne Heq]. apply Hne.
    apply (proj1 Hok j _ w p Hw Hin). by destruct Hvw as [-> | ->]. }
  replace (i32_max <? _) with false by (symmetry; apply Z.ltb_ge; simpl; lia).
  unfold write_profile. simpl. rewrite He.
  destruct (RoutingProfile.is_default p) eqn:Ed.
  - destruct (undefault_others now done_ids _ p Hok Hin Ed) as [H1 H2]. cbv zeta in H1, H2. fold m in H1, H2.
    by rewrite H1, Hfree, H2.
  - by rewrite Hfree.
Qed.

(** ** Groups *)

Lemma apply_groups_again ids f tr l k c :
  (forall x, x ∈ l -> x ∈ list_node_groups collate (fleet_tables f)) -> exportable f ->
  each (apply_group false ids (list_node_groups collate (fleet_tables f))) k (group_spec <$> l) c (mkSt f tr) = (Ok c, mkSt f tr).
Proof.
  intros Hl (Hn & _). revert k. induction l as [|x l IH]; intros k; [done|]. simpl.
  assert (Hrows : forall y, y ∈ list_node_groups collate (fleet_tables f) -> node_groups (fleet_tables f) !! y.1 = Some y.2).
  { intros [j g]. unfold list_node_groups. rewrite list_elem_of_In, sort_by_in, <- list_elem_of_In. apply elem_of_map_to_list. }
  unfold mbind, M_bind, apply_group. simpl.
  rewrite (named_like_self fst snd group_name (node_groups (fleet_tables f)) _ x Hn Hrows).
  - rewrite String.eqb_refl. apply IH. set_solver.
  - intros [j1 g1] [j2 g2] H1%Hrows H2%Hrows. simpl in *. intros ->. congruence.
  - apply Hl. set_solver.
Qed.

(** ** The document read back *)

Lemma mapM_docs {X A} (doc : X -> json) (de : json -> option A) (spec : X -> A) l :
  (forall x, x ∈ l -> de (doc x) = Some (spec x)) -> de_list de (JArray (doc <$> l)) = Some (spec <$> l).
Proof.
  intros H. unfold de_list. apply mapM_Some_2, Forall2_fmap_2, Forall_Forall2_diag. by apply Forall_forall.
Qed.

Lemma def_field_of {A} (d : A) de k v x a : get k v = Some x -> de x = Some a -> def_field d de k v = Some a.
Proof. intros H Hx. unfold def_field. by rewrite H. Qed.

Lemma profile_read p : profile_of (profile_doc p) = Some (profile_spec p).
Proof.
  unfold profile_of.
  do 5 (erewrite (def_field_of [] de_strings); [|vm_compute; reflexivity|apply de_strings_of]).
  reflexivity.
Qed.

Lemma node_read n : node_checks n = true -> 0 <= Node.monthly_cost_cents n <= i64_max -> node_of (node_doc n) = Some (node_spec n).
Proof.
  intros Hc Hm. assert (in_i32 (Node.grpc_port n)) as Hp.
  { unfold node_checks, port_ok in Hc. unfold in_i32, i32_max. breflect. lia. }
  assert (within_i64 (Node.monthly_cost_cents n)) as Hi by (unfold within_i64, i64_min, i64_max in *; lia). unfold node_of.
  erewrite (def_field_of _ de_i32); [|vm_compute; reflexivity|by apply de_i32_of].
  by erewrite (def_field_of _ de_i64); [|vm_compute; reflexivity|by apply de_i64_of].
Qed.

Definition exported (f : FleetDb) (dry prune : bool) : ConfigDoc :=
  mkDoc (group_spec <$> list_node_groups collate (fleet_tables f)) (profile_spec <$> list_routing_profiles collate (profiles f))
    (node_spec <$> list_nodes (fleet_tables f)) dry prune.

Lemma export_read f : nodes_ok (fleet_tables f) -> exportable f ->
  config_doc_of (config_export decrypt collate hash_order f) = Some (exported f false false).
Proof.
  intros Hok (_ & _ & _ & Hc). unfold config_doc_of, def_field, config_export. cbv zeta.
  change (is_object (obj _)) with true. cbn [get].
  change (get "groups" (obj _)) with (Some (JArray ((fun kg => group_doc kg.2) <$> list_node_groups collate (fleet_tables f)))).
  change (get "routing_profiles" (obj _)) with (Some (JArray (profile_doc <$> list_routing_profiles collate (profiles f)))).
  change (get "nodes" (obj _)) with (Some (JArray (node_doc <$> list_nodes (fleet_tables f)))).
  cbv beta iota. rewrite (mapM_docs _ group_of group_spec) by done. rewrite (mapM_docs _ _ _ _ (fun p _ => profile_read p)).
  rewrite (mapM_docs _ node_of node_spec); [done|]. intros n Hn. apply (list_nodes_rows _ _ Hok) in Hn. apply node_read.
  - by apply (proj2 Hok) in Hn as [_ ?].
  - by apply Hc in Hn.
Qed.

(** ** Applied again *)

Lemma apply_groups_noop ids f tr prune : exportable f ->
  apply_groups collate to_lowercase ids (exported f false prune) (mkSt f tr) = (Ok no_counts, mkSt f tr).
Proof.
  intros Hx. unfold apply_groups, mbind, M_bind. simpl. rewrite apply_groups_again by done. apply prune_nothing.
  intros x Hin. apply andb_false_iff. right. apply left_out_not; [done| |done]. intros [k g] Hk.
  unfold list_node_groups in Hk. rewrite list_elem_of_In, sort_by_in, <- list_elem_of_In in Hk.
  apply elem_of_map_to_list in Hk. by apply Hx in Hk.
Qed.

Lemma apply_profiles_restamp now ids f tr prune : profiles_ok (profiles f) -> exportable_profiles (profiles f) ->
  apply_profiles collate to_lowercase now ids (exported f false prune) (mkSt f tr)
  = (Ok (mkCounts 0 (Z.of_nat (length (list_routing_profiles collate (profiles f)))) 0),
     mkSt (set_profiles f (restamp_profile now <$> profiles f)) tr).
Proof.
  intros Hok Hx. unfold apply_profiles, mbind, M_bind. simpl. set (l := list_routing_profiles collate (profiles f)).
  assert (mkSt f tr = mkSt (set_profiles f (touched (restamp_profile now) [] (profiles f))) tr) as E
    by (rewrite touched_none; by destruct f as [[]]).
  rewrite E. rewrite (each_touches (apply_profile false now ids l) profile_spec RoutingProfile.id id (restamp_profile now) (profiles f)
    (set_profiles f) tr l); [|by apply list_profiles_nodup| | |intros x _; apply not_elem_of_nil].
  - rewrite app_nil_l, touched_all.
    + apply prune_nothing. intros p Hp. apply andb_false_iff. right. apply left_out_not; [done| |done].
      intros q Hq. apply (list_profiles_rows _ _ Hok) in Hq. exact (proj1 (proj1 Hx) _ _ Hq).
    + intros k [p Hp]. rewrite list_elem_of_fmap. exists p. assert (k = RoutingProfile.id p) as -> by (symmetry; by apply Hok in Hp).
      split; [done|]. by apply list_profiles_rows.
  - apply Forall_forall. intros p Hp. by apply list_profiles_rows in Hp.
  - intros k p c ids' Hp Hnew. by apply apply_profile_again.
Qed.

Lemma apply_nodes_restamp now ids f tr prune doc : nodes_ok (fleet_tables f) -> exportable_nodes (nodes (fleet_tables f)) ->
  cd_nodes doc = node_spec <$> list_nodes (fleet_tables f) -> cd_dry_run doc = false -> cd_prune doc = prune ->
  apply_nodes to_lowercase now ids doc (mkSt f tr)
  = (Ok (mkCounts 0 (Z.of_nat (length (list_nodes (fleet_tables f)))) 0),
     mkSt (set_nodes f (restamp_node now <$> nodes (fleet_tables f))) tr).
Proof.
  intros Hok Hx Hd Hdry Hp. unfold apply_nodes, mbind, M_bind. simpl. rewrite Hd, Hdry, Hp. set (l := list_nodes (fleet_tables f)).
  assert (mkSt f tr = mkSt (set_nodes f (touched (restamp_node now) [] (nodes (fleet_tables f)))) tr) as E
    by (rewrite touched_none; by destruct f as [[[[]]]]).
  rewrite E. rewrite (each_touches (apply_node false now ids l) node_spec Node.id id (restamp_node now) (nodes (fleet_tables f))
    (set_nodes f) tr l); [|by apply list_nodes_nodup| | |intros x _; apply not_elem_of_nil].
  - rewrite app_nil_l, touched_all.
    + apply prune_nothing. intros n Hn. apply left_out_not; [done| |done].
      intros q Hq. apply (list_nodes_rows _ _ Hok) in Hq. exact (proj1 (proj1 Hx) _ _ Hq).
    + intros k [n Hn]. rewrite list_elem_of_fmap. exists n. destruct (proj2 Hok _ _ Hn) as [<- _].
      split; [done|]. by apply list_nodes_rows.
  - apply Forall_forall. intros n Hn. by apply list_nodes_rows in Hn.
  - intros k n c ids' Hn Hnew. by apply apply_node_again.
Qed.

(** C23: an export describes the fleet it came from, when the fleet's names can be told
    apart.  Take tables as the schema keeps them, in which moreover the names of
    groups, of routing profiles and of nodes are trimmed and no two of a kind are equal
    up to ASCII case, every profile has a name that is not empty, trimmed notes and
    resolver and a version that can still go up, and no node's cost is negative.  Then
    the document [config_export] writes is one [config_apply] reads, and applying it to
    the same fleet, with or without pruning, creates and deletes nothing: no group
    changes, every node keeps all its columns but the time of its last update, and
    every routing profile all but that and its version, which goes up by one.  Without
    distinct names this is false ([twins_merged]). *)
Theorem export_apply_roundtrip now g p n prune f tr : fleet_ok f -> exportable f ->
  config_doc_of (config_export decrypt collate hash_order f) = Some (exported f false false) /\
  config_apply collate to_lowercase now g p n (exported f false prune) (mkSt f tr)
  = (Ok (mkPlan false prune no_counts (mkCounts 0 (Z.of_nat (length (list_routing_profiles collate (profiles f)))) 0)
           (mkCounts 0 (Z.of_nat (length (list_nodes (fleet_tables f)))) 0)),
     mkSt (set_nodes (set_profiles f (restamp_profile now <$> profiles f)) (restamp_node now <$> nodes (fleet_tables f)))
       (tr ++ [AuditEvent "apply" "config" None (obj [])])).
Proof.
  intros (Hn & _ & Hp & _) Hx. split; [by apply export_read|]. unfold config_apply, mbind, M_bind.
  rewrite apply_groups_noop by done. destruct Hx as (_ & Hxp & Hxn). rewrite apply_profiles_restamp by done.
  set (f1 := set_profiles f (restamp_profile now <$> profiles f)). by rewrite (apply_nodes_restamp now n f1 tr prune).
Qed.
End RoundTrip.

(** ** An import adds users and touches none *)

Section Imported.
Context (decrypt : string -> option string) (token_hash : string -> string) (uuid_str : Uuid -> string)
  (sql_lower : string -> string) (from_timestamp : Z -> option Z).

Definition users_of (f : FleetDb) : gmap Uuid User.User := users (fleet_tables f).

(** A fresh account of [creator] named [name]. *)
Definition adds (k : Uuid) (name : string) (creator : option Uuid) (m m' : gmap Uuid User.User) : Prop :=
  m !! k = None /\ exists u, m' !! k = Some u /\ User.username u = name /\ User.created_by u = creator.

Lemma create_user_row_adds d input by_ dflt s r s' :
  create_user_row decrypt token_hash uuid_str sql_lower d input by_ dflt s = (r, s') ->
  users (tables (store s)) ⊆ users (tables (store s')) /\
  forall u t, r = Ok (u, t) -> User.id u = new_id d /\
    adds (new_id d) (NewUser.username input) by_ (users (tables (store s))) (users (tables (store s'))).
Proof.
  unfold create_user_row, mbind, M_bind, encrypted. destruct (encrypt d 0 _); [|by intros [= <- <-]].
  destruct (encrypt d 1 _); [|by intros [= <- <-]]. destruct (encrypt d 2 _); [|by intros [= <- <-]]. simpl.
  unfold statement, insert_user. simpl. destruct (users (tables (store s)) !! new_id d) as [x|] eqn:Ek; [by intros [= <- <-]|].
  simpl. destruct (write_user _ _ _ _ _) as [db'|] eqn:Ew; [|by intros [= <- <-]]. apply write_user_ok in Ew as [_ ->]. simpl.
  set (row := new_row _ _ _ _ _). intros H.
  assert (users (tables (store s')) = <[new_id d := row]> (users (tables (store s)))) as Hs.
  { unfold lift_result in H. destruct dflt, (lift_db _); by injection H as _ <-. }
  rewrite Hs. split; [by apply insert_subseteq|]. intros u t ->. unfold lift_result in H.
  destruct (decrypt_user decrypt row) as [u'|] eqn:Ed; [|done]. injection H as -> _ _. split.
  - unfold decrypt_user in Ed. destruct (decrypt _); [|done]. destruct (decrypt _); [|done]. by injection Ed as <-.
  - split; [done|]. exists row. by rewrite lookup_insert_eq.
Qed.

Lemma set_user_enabled_only now id b f k :
  k <> id -> users_of (set_user_enabled sql_lower now id b f).2 !! k = users_of f !! k.
Proof.
  intros Hk. unfold set_user_enabled, update_row, users_of, fleet_tables, w_tables.
  destruct (users (tables _) !! id); [|done]. destruct (tokens _ !! id); [|done].
  destruct (write_user _ _ _ _ _) as [db|] eqn:E; [|done]. apply write_user_ok in E as [_ ->]. simpl. by rewrite lookup_insert_ne.
Qed.

Lemma set_user_enabled_keeps now id b f u :
  users_of f !! id = Some u -> exists u', users_of (set_user_enabled sql_lower now id b f).2 !! id = Some u' /\
    User.username u' = User.username u /\ User.created_by u' = User.created_by u.
Proof.
  unfold set_user_enabled, update_row, users_of, fleet_tables, w_tables. intros Hu. rewrite Hu.
  destruct (tokens _ !! id); [|eauto]. destruct (write_user _ _ _ _ _) as [db|] eqn:E; [|eauto].
  apply write_user_ok in E as [_ ->]. simpl. rewrite lookup_insert_eq. eauto.
Qed.

(** Every entry counted once, every name reported created a new account of
    [creator], and the accounts of [f0] as they were. *)
Definition accounted (creator : option Uuid) (n : Z) (f0 f : FleetDb) (t : Tally) : Prop :=
  t_created t + t_skipped t + t_failed t = n /\ Z.of_nat (length (created_names t)) = t_created t /\
  users_of f0 ⊆ users_of f /\
  Forall (fun name => exists k, adds k name creator (users_of f0) (users_of f)) (created_names t).

Lemma adds_later k name creator m m1 m2 : m1 ⊆ m2 -> adds k name creator m m1 -> adds k name creator m m2.
Proof. intros H [Hk (u & Hu & E)]. split; [done|]. exists u. split; [by eapply lookup_weaken|done]. Qed.

(** The account kept or switched off as it was created. *)
Lemma import_added creator n f0 f f' t k name : accounted creator n f0 f t -> users_of f ⊆ users_of f' ->
  adds k name creator (users_of f) (users_of f') ->
  accounted creator (n + 1) f0 f' (mkTally (t_created t + 1) (t_skipped t) (t_failed t) (created_names t ++ [name])).
Proof.
  intros (Hn & Hl & Hk & Hc) Hf Ha. split_and!; simpl; [lia|rewrite length_app; simpl; lia|by etrans|].
  apply Forall_app. split.
  - eapply Forall_impl; [exact Hc|]. intros x [j Hj]. exists j. by eapply adds_later.
  - apply Forall_singleton. exists k. destruct Ha as [H1 H2]. split; [|done]. by eapply lookup_weaken_None.
Qed.

Lemma import_one_ok draws passwords i k u t s n f0 : accounted (admin_id i) n f0 (store s) t ->
  exists t' s', import_one decrypt token_hash uuid_str sql_lower from_timestamp draws passwords i k u t s = (Ok t', s') /\
    accounted (admin_id i) (n + 1) f0 (store s') t'.
Proof.
  intros Hacc. assert (forall f, users_of (store s) ⊆ users_of f -> accounted (admin_id i) (n + 1) f0 f
    (mkTally (t_created t) (t_skipped t) (t_failed t + 1) (created_names t))) as Hfail.
  { intros f Hf. destruct Hacc as (Hn & Hl & Hk & Hc). split_and!; simpl; [lia|done|by etrans|].
    eapply Forall_impl; [exact Hc|]. intros x [j Hj]. exists j. by eapply adds_later. }
  unfold import_one. destruct (is_empty _); [eexists _, _; split; [done|by apply Hfail]|].
  unfold mbind, M_bind, attempt, read. cbv beta zeta. match goal with |- context [if ?b then _ else _] => destruct b end.
  { eexists _, _. split; [done|]. destruct Hacc as (Hn & Hl & Hk & Hc). split_and!; simpl; [lia|done..]. }
  destruct (passwords k) as [pw|]; [|eexists _, _; split; [done|by apply Hfail]].
  unfold in_users. destruct (create_user_row _ _ _ _ _ _ _ _ _) as [r s1] eqn:Er.
  apply create_user_row_adds in Er as [Hsub Hadd]. cbn [store] in Hsub, Hadd.
  destruct r as [[v tok]|]; [|eexists _, _; split; [done|by apply Hfail]]. destruct (Hadd v tok eq_refl) as [Hid Ha].
  destruct (import_enabled u); [eexists _, _; split; [done|]; by apply (import_added _ _ _ (store s) _ _ (new_id (draws k)))|].
  unfold statement. cbn [store trace]. set (f1 := with_world _ (store s)) in *.
  pose proof (set_user_enabled_only (now (draws k)) (User.id v) false f1) as Ho.
  pose proof (set_user_enabled_keeps (now (draws k)) (User.id v) false f1) as Hv.
  destruct (set_user_enabled _ _ _ _ _) as [ro f2]. cbn [fst snd] in Ho, Hv. eexists _, _. split; [done|]. cbn [store].
  destruct Ha as [Hnone (w & Hw & Hname & Hby)]. rewrite <- Hid in Hnone, Hw. destruct (Hv w Hw) as (w' & Hw' & E1 & E2).
  apply (import_added _ _ _ (store s) _ _ (User.id v)); [done| |].
  - apply map_subseteq_spec. intros j x Hj. rewrite Ho; [by eapply lookup_weaken|]. intros ->. change (users_of (store s) !! User.id v = None) in Hnone. congruence.
  - split; [exact Hnone|]. exists w'. split; [done|]. by rewrite E1, E2.
Qed.

(** An import accounts for every entry.  Whatever the document holds, the import
    answers; the entries it counts as created, skipped and failed add up to the
    entries it was given; every name it counts as created is a new account of the
    administrator who imported it; and no account that was there before changed. *)
Theorem import_accounts_for_all draws passwords i input s :
  exists t s', import_users decrypt token_hash uuid_str sql_lower from_timestamp draws passwords i input s = (Ok t, s') /\
    accounted (admin_id i) (Z.of_nat (length input)) (store s) (store s') t.
Proof.
  assert (forall l k n t s1, accounted (admin_id i) n (store s) (store s1) t ->
    exists t' s', each (import_one decrypt token_hash uuid_str sql_lower from_timestamp draws passwords i) k l t s1 = (Ok t', s') /\
      accounted (admin_id i) (n + Z.of_nat (length l)) (store s) (store s') t') as Hloop.
  { intros l. induction l as [|u l IH]; intros k n t s1 Hacc; cbn [each].
    - exists t, s1. split; [done|]. by rewrite Z.add_0_r.
    - destruct (import_one_ok draws passwords i k u t s1 n (store s) Hacc) as (t1 & s2 & E & Hacc').
      unfold mbind, M_bind. rewrite E. destruct (IH (Datatypes.S k) _ _ _ Hacc') as (t' & s' & E' & H').
      exists t', s'. split; [done|]. by replace (n + Z.of_nat (length (u :: l))) with (n + 1 + Z.of_nat (length l)) by (cbn [length]; lia). }
  destruct (Hloop input 0%nat 0 (mkTally 0 0 0 []) s) as (t & s1 & E & Hacc); [by split_and!|].
  unfold import_users. unfold mbind, M_bind at 1. rewrite E. destruct (created_names t) eqn:Ec; eexists _, _; (split; [done|]);
    exact Hacc.
Qed.
End Imported.

(** ** Witnesses *)

Definition no_ads : NewRoutingProfile.NewRoutingProfile :=
  NewRoutingProfile.mk "No ads" true true ["cn"] [] true true "for phones" false false [] ["intra.lan"] [] JNull "" false false.
Definition outpost : FleetDb :=
  mkFleet (mkWorld (mkUserDb (mkDb {[3 := new_node 3 0 berth]} ∅ ∅ {[5 := mkGroup "vip" false "paid"]} {[(3, 5)]} ∅ ∅ ∅) ∅ ∅ ∅ empty_auth)
    [] [] [] {[7 := new_profile 7 0 no_ads]} ∅) no_versions.

Lemma only_row {V} (m : gmap Uuid V) k v k1 k2 v1 v2 : m = {[k := v]} -> m !! k1 = Some v1 -> m !! k2 = Some v2 -> k1 = k2.
Proof. by intros -> [<- _]%lookup_singleton_Some [<- _]%lookup_singleton_Some. Qed.

Lemma nameable_singleton {V} (name : V -> string) k v : trim (name v) = name v -> nameable name {[k := v]}.
Proof.
  intros H. split; [by apply map_Forall_singleton|]. intros k1 k2 v1 v2 H1 H2 _. by eapply only_row.
Qed.

Lemma outpost_ok : fleet_ok outpost.
Proof.
  split_and!; [split|split|split_and!| |split_and!].
  all: try (intros k1 k2 v1 v2 H1 H2; intros; exact (only_row _ _ _ _ _ _ _ eq_refl H1 H2)).
  - by apply map_Forall_singleton.
  - by apply map_Forall_singleton.
  - by intros k u p H.
  - constructor.
  - constructor.
  - constructor.
Qed.

Lemma outpost_exportable : exportable outpost.
Proof.
  split_and!; [|split|split]; try (by apply nameable_singleton); apply map_Forall_singleton; by split_and!.
Qed.

Definition hundred_up (k : nat) : Uuid := 100 + Z.of_nat k.

Lemma export_apply_roundtrip_witness :
  exists s, config_apply String.leb id 9 hundred_up hundred_up hundred_up (exported String.leb outpost false true) (mkSt outpost [])
    = (Ok (mkPlan false true no_counts (mkCounts 0 1 0) (mkCounts 0 1 0)), s).
Proof.
  eexists. exact (proj2 (export_apply_roundtrip Some String.leb id id 9 hundred_up hundred_up hundred_up true outpost []
    outpost_ok outpost_exportable)).
Defined.

(** Two nodes whose names differ by case only, which the table admits: applying their
    own export gives the first the address of the second. *)
Definition twins : FleetDb :=
  mkFleet (mkWorld (mkUserDb (mkDb {[3 := new_node 3 0 (NewNode.mk "edge" "10.0.0.1" "honey-agent" 8443 "serve" 0);
      4 := new_node 4 1 (NewNode.mk "EDGE" "10.0.0.2" "honey-agent" 8443 "serve" 0)]} ∅ ∅ ∅ ∅ ∅ ∅ ∅) ∅ ∅ ∅ empty_auth)
    [] [] [] ∅ ∅) no_versions.
Definition twins_address (f : FleetDb) : list (option string) := (fun k => Node.address <$> nodes (fleet_tables f) !! k) <$> [3; 4].

Example twins_merged :
  twins_address twins = [Some "10.0.0.1"; Some "10.0.0.2"] /\
  match config_apply String.leb id 9 hundred_up hundred_up hundred_up (exported String.leb twins false false) (mkSt twins []) with
  | (Ok _, s) => twins_address (store s)
  | (Err _, _) => []
  end = [Some "10.0.0.2"; Some "10.0.0.2"].
Proof. split; vm_compute; reflexivity. Qed.

(** A document that adds a node, renames nothing, and prunes the group. *)
Definition wanted : ConfigDoc := mkDoc [mkNewGroup "eu" ""] [no_ads] [berth; NewNode.mk "b" "10.0.0.2" "honey-agent" 8443 "serve" 0] false true.
Definition carried_out : result Plan api_error * St := config_apply String.leb id 9 hundred_up hundred_up hundred_up wanted (mkSt outpost []).

Lemma dry_run_foretells_witness :
  config_apply String.leb id 9 hundred_up hundred_up hundred_up (dry_or_not true wanted) (mkSt outpost [])
  = (Ok (mkPlan true true (mkCounts 1 0 1) (mkCounts 0 1 0) (mkCounts 1 1 0)), mkSt outpost []).
Proof.
  assert (carried_out.1 = Ok (mkPlan false true (mkCounts 1 0 1) (mkCounts 0 1 0) (mkCounts 1 1 0))) as H
    by (vm_compute; reflexivity).
  apply (dry_run_foretells String.leb id 9 hundred_up hundred_up hundred_up hundred_up hundred_up hundred_up wanted _
    (mkPlan false true (mkCounts 1 0 1) (mkCounts 0 1 0) (mkCounts 1 1 0)) carried_out.2).
  rewrite <- H. exact (surjective_pairing carried_out).
Defined.
