(* ===== verification/Schedule.v ===== *)
(** * Scheduled operations (src/master/src/schedule.rs; their handlers in
    src/master/src/api/mod.rs and queries in src/master/src/db/repo.rs)

    An administrator leaves an operation for later; a loop of the leading
    instance claims what is due, runs it and records the outcome.  Requests
    interleave with the loop, so it is a step relation here.  Which nodes are
    connected, the cipher and the text of a database error are parameters. *)

From S2P Require Import Prelude Strings Json Models Db Api Handler Access Inbounds Auth Users Delivery Versions Fleet Gitops.

Record ScheduledOp := mkOp {
  op_id : Uuid;
  op_resource_type : string;
  op_resource_id : Uuid;
  op_action : string;
  op_run_at : Z;
  op_status : string;
  op_result : option string;
  op_created_by : option Uuid;
  op_created_at : Z;
  op_updated_at : Z }.

Record NewScheduledOp := mkNewOp {
  no_resource_type : string;
  no_resource_id : Uuid;
  no_action : string;
  no_run_at : Z }.

(** The fleet, and the table of operations. *)
Record SchedDb := mkSched {
  fleet : FleetDb;
  agenda : gmap Uuid ScheduledOp }.

#[local] Abbreviation M := (Handler.M SchedDb).
#[local] Abbreviation St := (Handler.St SchedDb).

Definition with_agenda g (s : SchedDb) : SchedDb := mkSched (fleet s) (g (agenda s)).

(** A step on the fleet. *)
Definition in_fleet {A} (m : Handler.M FleetDb A) : M A := fun s =>
  let (r, s') := m (mkSt (fleet (store s)) (trace s)) in (r, mkSt (mkSched (store s') (agenda (store s))) (trace s')).

(** ** The table *)

Definition pending (op : ScheduledOp) : bool := String.eqb (op_status op) "pending".

Definition marked (now : Z) (status : string) (res : option string) (op : ScheduledOp) : ScheduledOp :=
  mkOp (op_id op) (op_resource_type op) (op_resource_id op) (op_action op) (op_run_at op) status res (op_created_by op)
    (op_created_at op) now.

Definition create_op_row (id now : Z) (input : NewScheduledOp) (by_ : option Uuid) (s : SchedDb)
    : result ScheduledOp db_error * SchedDb :=
  let op := mkOp id (no_resource_type input) (no_resource_id input) (no_action input) (no_run_at input) "pending" None by_ now now in
  if negb (one_of ["node"; "user"; "inbound"] (op_resource_type op)) then (Err CheckViolation, s)
  else if is_some (agenda s !! id) then (Err UniqueViolation, s)
  else if negb (map_or by_ true (fun a => is_some (accounts (accounts_db (world (fleet s))) !! a))) then (Err ForeignKeyViolation, s)
  else (Ok op, with_agenda (<[id := op]>) s).

(** ORDER BY status = 'pending' DESC, run_at DESC LIMIT 200. *)
Definition list_op_rows (s : SchedDb) : list ScheduledOp :=
  take 200 (sort_by (fun a b => if Bool.eqb (pending a) (pending b) then op_run_at b <=? op_run_at a else pending a) (rows (agenda s))).

Definition cancel_op_row (now id : Z) (s : SchedDb) : result bool db_error * SchedDb :=
  match agenda s !! id with
  | Some op => if pending op then (Ok true, with_agenda (<[id := marked now "canceled" (op_result op) op]>) s) else (Ok false, s)
  | None => (Ok false, s)
  end.

(** WHERE status = 'pending' AND run_at <= now() ORDER BY run_at LIMIT 50. *)
Definition is_due (now : Z) (op : ScheduledOp) : bool := pending op && (op_run_at op <=? now).
Definition due_scheduled_ops (now : Z) (s : SchedDb) : list ScheduledOp :=
  take 50 (sort_by (fun a b => op_run_at a <=? op_run_at b) (List.filter (is_due now) (rows (agenda s)))).

Definition mark_scheduled_op (now id : Z) (status : string) (res : option string) (s : SchedDb) : SchedDb :=
  with_agenda (alter (marked now status res) id) s.

Definition set_node_enabled (now id : Z) (enabled : bool) (db : Db) : result (bool * Db) db_error :=
  let? r := alter_node id (node_updated now (UpdateNode.mk None None None None None (Some enabled) None None None)) db in
  Ok (is_some r.1, r.2).

(** ** The handlers *)

Definition allowed_actions (resource_type : string) : option (list string) :=
  if String.eqb resource_type "node" then Some ["enable"; "disable"; "push"]
  else if String.eqb resource_type "user" then Some ["enable"; "disable"; "reset-traffic"; "rotate-sub"]
  else if String.eqb resource_type "inbound" then Some ["enable"; "disable"]
  else None.

Section Handlers.
Context (timestamp : Z -> string).

Definition list_scheduled_ops : M (list ScheduledOp) := query list_op_rows.

(** [now] in microseconds, as the database keeps time. *)
Definition create_scheduled_op (id now : Z) (i : Identity) (input : NewScheduledOp) : M ScheduledOp :=
  allowed ← found (allowed_actions (no_resource_type input)) (BadRequest "resource_type must be node/user/inbound");
  _ ← refuse (negb (one_of allowed (no_action input))) (BadRequest "unsupported action for this resource type");
  _ ← refuse (no_run_at input <? now - 60000000) (BadRequest "run_at must be in the future");
  op ← statement (create_op_row id now input (admin_id i));
  _ ← audit "schedule" (no_resource_type input) (no_resource_id input)
        (obj [("action", JString (no_action input)); ("run_at", JString (timestamp (no_run_at input)))]);
  mret op.

Definition cancel_scheduled_op (id now : Z) : M unit :=
  done ← statement (cancel_op_row now id);
  _ ← refuse (negb done) (NotFound "scheduled op not found or not pending");
  audit "cancel" "scheduled_op" id (obj []).
End Handlers.

(** ** The scheduler *)

Section Scheduler.
Context (decrypt : string -> option string) (token_hash : string -> string) (uuid_str : Uuid -> string)
  (sql_lower : string -> string) (db_text : db_error -> string).

(** [is_connected], then [auto_push], whose failure is only logged. *)
Definition push_if_connected (connected : Uuid -> bool) (node : Uuid) : M unit :=
  if connected node then push_nodes [node] else mret tt.

Fixpoint push_each (connected : Uuid -> bool) (l : list Uuid) : M unit :=
  match l with [] => mret tt | n :: l => _ ← push_if_connected connected n; push_each connected l end.

Definition push_user_nodes (connected : Uuid -> bool) (user : Uuid) : M unit :=
  ids ← query (fun s => user_node_ids user (fleet_tables (fleet s))); push_each connected ids.

Definition on_off (what : string) (on : bool) : string := what +:+ (if on then " enabled" else " disabled").

(** An [anyhow!] message is an internal error. *)
Definition execute (connected : Uuid -> bool) (d : Draws) (op : ScheduledOp) : M string :=
  let id := op_resource_id op in
  let asked rt action := String.eqb (op_resource_type op) rt && String.eqb (op_action op) action in
  let on := String.eqb (op_action op) "enable" in
  if asked "node" "enable" || asked "node" "disable" then
    ok ← in_fleet (statement (on_tables (set_node_enabled (now d) id on)));
    _ ← refuse (negb ok) (Internal "node not found");
    _ ← push_if_connected connected id;
    mret (on_off "node" on)
  else if asked "node" "push" then
    _ ← push_if_connected connected id; mret "node pushed"
  else if asked "user" "enable" || asked "user" "disable" then
    ok ← in_fleet (statement (set_user_enabled sql_lower (now d) id on));
    _ ← refuse (negb ok) (Internal "user not found");
    _ ← push_user_nodes connected id;
    mret (on_off "user" on)
  else if asked "user" "reset-traffic" then
    o ← in_fleet (in_users (reset_user_traffic_row decrypt (now d) id));
    _ ← refuse (negb (is_some o)) (Internal "user not found");
    _ ← push_user_nodes connected id;
    mret "traffic reset"
  else if asked "user" "rotate-sub" then
    o ← in_fleet (in_users (rotate_subscription_token token_hash uuid_str sql_lower d id));
    _ ← refuse (negb (is_some o)) (Internal "user not found");
    mret "subscription rotated"
  else if asked "inbound" "enable" || asked "inbound" "disable" then
    o ← in_fleet (statement (on_tables (set_inbound_enabled (now d) id on)));
    node ← found o (Internal "inbound not found");
    _ ← push_if_connected connected node;
    mret (on_off "inbound" on)
  else fail (Internal ("unsupported action " +:+ op_resource_type op +:+ "." +:+ op_action op)).

(** [format!("{error:#}")]. *)
Definition error_text (e : api_error) : string :=
  match e with ApiDb d => db_text d | Internal m => m | _ => ae_message (response_of e) end.

Definition outcome (r : result string api_error) : string * string :=
  match r with Ok message => ("done", message) | Err e => ("failed", error_text e) end.

(** The body of the loop for one claimed operation. *)
Definition run_op (connected : Uuid -> bool) (d : Draws) (op : ScheduledOp) (s : St) : St :=
  let (r, s) := execute connected d op s in
  mkSt (mark_scheduled_op (now d) (op_id op) (outcome r).1 (Some (outcome r).2) (store s)) (trace s).

Fixpoint run_ops (connected : Uuid -> bool) (draws : nat -> Draws) (k : nat) (ops : list ScheduledOp) (s : St) : St :=
  match ops with
  | [] => s
  | op :: ops => run_ops connected draws (S k) ops (run_op connected (draws k) op s)
  end.

(** One tick, when nothing interleaves. *)
Definition tick (is_leader : bool) (connected : Uuid -> bool) (draws : nat -> Draws) (now : Z) (s : St) : St :=
  if is_leader then run_ops connected draws 0 (due_scheduled_ops now (store s)) s else s.

(** *** What a tick does *)

Definition keyed (m : gmap Uuid ScheduledOp) : Prop := map_Forall (fun k op => op_id op = k) m.
Definition count_due (now : Z) (m : gmap Uuid ScheduledOp) : nat := length (List.filter (is_due now) (rows m)).

Definition same_agenda (s s' : SchedDb) : Prop := agenda s' = agenda s.
#[local] Instance same_agenda_preorder : PreOrder same_agenda.
Proof. split; [by intros s|]. unfold same_agenda. intros a b c H1 H2. congruence. Qed.

Lemma keeps_in_fleet {A} (m : Handler.M FleetDb A) : Keeps same_agenda (in_fleet m).
Proof. intros s. unfold in_fleet. by destruct (m _). Qed.

Lemma keeps_push connected l : Keeps same_agenda (push_each connected l).
Proof. induction l; simpl; unfold push_if_connected; keeps. done. Qed.

Lemma execute_agenda connected d op s : agenda (store (execute connected d op s).2) = agenda (store s).
Proof.
  revert s. change (Keeps same_agenda (execute connected d op)). unfold execute, push_user_nodes, push_if_connected. cbv zeta.
  repeat match goal with |- Keeps _ (if ?b then _ else _) => destruct b end; keeps;
    first [apply keeps_in_fleet|apply keeps_push].
Qed.

Lemma run_op_agenda connected d op s :
  exists status message, (status = "done" \/ status = "failed") /\
  agenda (store (run_op connected d op s)) = alter (marked (now d) status (Some message)) (op_id op) (agenda (store s)).
Proof.
  unfold run_op. assert (H := execute_agenda connected d op s). destruct (execute _ _ _ _) as [r s1]. simpl in *.
  exists (outcome r).1, (outcome r).2. rewrite H. split; [|done]. destruct r; [by left|by right].
Qed.

(** The operations a tick claims. *)
Lemma due_in now s op : keyed (agenda s) -> In op (due_scheduled_ops now s) ->
  agenda s !! op_id op = Some op /\ is_due now op = true.
Proof.
  intros Hk Hin. unfold due_scheduled_ops in Hin. set (l := sort_by _ _) in Hin.
  assert (H : In op l) by (rewrite <- (take_drop 50 l); apply in_or_app; by left). unfold l in H.
  rewrite sort_by_in, filter_In, in_rows in H. destruct H as [[k H] Hd]. split; [|done].
  assert (E := Hk _ _ H). simpl in E. by rewrite E.
Qed.

Lemma due_nodup now s : keyed (agenda s) -> NoDup (op_id <$> due_scheduled_ops now s).
Proof.
  intros Hk. unfold due_scheduled_ops. rewrite fmap_take. eapply sublist_NoDup; [|apply sublist_take].
  rewrite sort_by_perm. assert (H := rows_nodup op_id _ Hk).
  induction (rows (agenda s)) as [|x l IH]; [constructor|]. simpl in *. apply NoDup_cons in H as [Hx H].
  destruct (is_due now x); [|by apply IH]. simpl. constructor; [|by apply IH]. intros Hin. apply Hx.
  rewrite list_elem_of_fmap in Hin. destruct Hin as (y & Hy & Hin). rewrite Hy. apply list_elem_of_fmap_2.
  rewrite list_elem_of_In, filter_In in Hin. by apply list_elem_of_In, Hin.
Qed.

Lemma due_length now s : length (due_scheduled_ops now s) = Nat.min 50 (count_due now (agenda s)).
Proof. unfold due_scheduled_ops. rewrite length_take, sort_by_perm. done. Qed.

(** Marking a due operation takes it off the list. *)
Lemma count_mark now t status message m k op : m !! k = Some op -> is_due now op = true -> status <> "pending" ->
  count_due now (alter (marked t status message) k m) = (count_due now m - 1)%nat.
Proof.
  intros Hk Hd Hs. unfold count_due.
  assert (E : alter (marked t status message) k m !! k = Some (marked t status message op)) by (rewrite lookup_alter_eq, Hk; done).
  rewrite (filter_perm _ _ _ (rows_delete _ _ _ E)), (filter_perm _ _ _ (rows_delete _ _ _ Hk)), delete_alter_eq.
  assert (is_due now (marked t status message op) = false) as En.
  { unfold is_due, pending. simpl. apply String.eqb_neq in Hs. by rewrite Hs. }
  simpl. rewrite Hd, En. simpl. lia.
Qed.

(** What the claimed operations become, and that the others stay. *)
Lemma run_ops_agenda connected draws now ops : forall k s, keyed (agenda (store s)) -> NoDup (op_id <$> ops) ->
  (forall op, In op ops -> agenda (store s) !! op_id op = Some op /\ is_due now op = true) ->
  let m' := agenda (store (run_ops connected draws k ops s)) in
  keyed m' /\ count_due now m' = (count_due now (agenda (store s)) - length ops)%nat /\
  (forall j, j ∉ op_id <$> ops -> m' !! j = agenda (store s) !! j) /\
  (forall op, In op ops -> exists t status message, m' !! op_id op = Some (marked t status (Some message) op) /\
     (status = "done" \/ status = "failed")).
Proof.
  induction ops as [|op ops IH]; intros k s Hk Hnd Hin; simpl.
  { split_and!; [done|lia|done|done]. }
  apply NoDup_cons in Hnd as [Hop Hnd].
  destruct (run_op_agenda connected (draws k) op s) as (status & message & Hst & Hm). destruct (Hin op) as [Hrow Hdue]; [by left|].
  assert (Hk1 : keyed (agenda (store (run_op connected (draws k) op s)))).
  { rewrite Hm. intros j x Hj. destruct (decide (j = op_id op)) as [->|Hne].
    - rewrite lookup_alter_eq, Hrow in Hj. by injection Hj as <-.
    - rewrite lookup_alter_ne in Hj by done. by apply Hk. }
  destruct (IH (S k) _ Hk1 Hnd) as (H1 & H2 & H3 & H4).
  { intros x Hx. destruct (Hin x) as [Hr Hd]; [by right|]. split; [|done]. rewrite Hm, lookup_alter_ne; [done|].
    intros E. apply Hop. rewrite E. by apply list_elem_of_fmap_2, list_elem_of_In. }
  split_and!; [done| | |].
  - rewrite H2, Hm, (count_mark now _ _ _ _ _ op) by (done || by destruct Hst as [-> | ->]). lia.
  - intros j [Hj1 Hj2]%not_elem_of_cons. rewrite H3 by done. by rewrite Hm, lookup_alter_ne.
  - intros x [->|Hx]; [|by apply H4]. exists (Users.now (draws k)), status, message. split; [|done].
    rewrite H3 by done. by rewrite Hm, lookup_alter_eq, Hrow.
Qed.

(** A tick settles what is due.  It runs the fifty oldest due operations and
    leaves each of them done or failed, with a message, and every other
    operation as it was; so [n] ticks without new requests leave the due
    operations past the first [50 * n]. *)
Theorem tick_settles_due connected draws now s : keyed (agenda (store s)) ->
  (let s' := tick true connected draws now s in
   (forall op, In op (due_scheduled_ops now (store s)) -> exists t status message,
      agenda (store s') !! op_id op = Some (marked t status (Some message) op) /\ (status = "done" \/ status = "failed")) /\
   (forall k, k ∉ op_id <$> due_scheduled_ops now (store s) -> agenda (store s') !! k = agenda (store s) !! k)) /\
  (forall n, count_due now (agenda (store (Nat.iter n (tick true connected draws now) s)))
             = (count_due now (agenda (store s)) - 50 * n)%nat).
Proof.
  intros Hk. assert (Hone : forall s, keyed (agenda (store s)) -> _) by
    (intros s1 Hk1; exact (run_ops_agenda connected draws now (due_scheduled_ops now (store s1)) 0 s1 Hk1
       (due_nodup now _ Hk1) (fun op => due_in now _ op Hk1))).
  split.
  - destruct (Hone s Hk) as (_ & _ & H3 & H4). split; [exact H4|exact H3].
  - intros n. set (sn n := Nat.iter n (tick true connected draws now) s).
    assert (keyed (agenda (store (sn n))) /\ count_due now (agenda (store (sn n))) = (count_due now (agenda (store s)) - 50 * n)%nat)
      as [_ H]; [|exact H].
    induction n as [|n [IHk IHc]]; [split; [done|simpl; lia]|].
    change (sn (S n)) with (tick true connected draws now (sn n)). destruct (Hone _ IHk) as (H1 & H2 & _). split; [exact H1|].
    unfold tick. rewrite H2, due_length, IHc. lia.
Qed.

(** *** The loop among requests *)

(** Where the loop is: between ticks, with claimed operations to run, or about
    to record an outcome.  [ran] is what was executed, with the time of the scan
    that claimed it. *)
Inductive activity :=
| Idle
| Running (scan : Z) (batch : list ScheduledOp)
| Marking (scan : Z) (op : ScheduledOp) (out : string * string) (batch : list ScheduledOp).

Record Machine := mkMachine { sched : St; act : activity; ran : list (Z * ScheduledOp) }.

Definition claimed (a : activity) : list Uuid :=
  match a with
  | Idle => []
  | Running _ batch => op_id <$> batch
  | Marking _ op _ batch => op_id op :: (op_id <$> batch)
  end.

(** [lossy]: whether recording an outcome may fail, which the loop only logs. *)
Inductive sched_step (lossy : bool) : Machine -> Machine -> Prop :=
| scan t s r : sched_step lossy (mkMachine s Idle r) (mkMachine s (Running t (due_scheduled_ops t (store s))) r)
| run connected d t op batch s res s' r :
    execute connected d op s = (res, s') ->
    sched_step lossy (mkMachine s (Running t (op :: batch)) r) (mkMachine s' (Marking t op (outcome res) batch) (r ++ [(t, op)]))
| mark u t op out batch s r :
    sched_step lossy (mkMachine s (Marking t op out batch) r)
      (mkMachine (mkSt (mark_scheduled_op u (op_id op) out.1 (Some out.2) (store s)) (trace s)) (Running t batch) r)
| mark_lost t op out batch s r :
    lossy = true -> sched_step lossy (mkMachine s (Marking t op out batch) r) (mkMachine s (Running t batch) r)
| finish t s r : sched_step lossy (mkMachine s (Running t []) r) (mkMachine s Idle r)
| request_create timestamp id u i input s a r res s' :
    create_scheduled_op timestamp id u i input s = (res, s') -> sched_step lossy (mkMachine s a r) (mkMachine s' a r)
| request_cancel id u s a r res s' :
    cancel_scheduled_op id u s = (res, s') -> sched_step lossy (mkMachine s a r) (mkMachine s' a r)
| request_fleet {A} (m : Handler.M FleetDb A) s a r res s' :
    in_fleet m s = (res, s') -> sched_step lossy (mkMachine s a r) (mkMachine s' a r).

Lemma create_agenda timestamp id u i input s res s' : create_scheduled_op timestamp id u i input s = (res, s') ->
  agenda (store s') = agenda (store s) \/
  exists op, agenda (store s) !! id = None /\ op_id op = id /\ agenda (store s') = <[id := op]> (agenda (store s)).
Proof.
  unfold create_scheduled_op, mbind, M_bind, found, refuse. destruct (allowed_actions _); [|intros [= _ <-]; by left]. simpl.
  destruct (negb _); [intros [= _ <-]; by left|]. destruct (_ <? _); [intros [= _ <-]; by left|]. simpl.
  unfold statement, create_op_row. simpl. destruct (negb _); [intros [= _ <-]; by left|].
  destruct (agenda (store s) !! id) as [x|] eqn:E; [intros [= _ <-]; by left|]. simpl.
  destruct (negb _); [intros [= _ <-]; by left|]. intros [= _ <-]. right. eexists. split_and!; [done| |reflexivity]. done.
Qed.

Lemma cancel_agenda id u s res s' : cancel_scheduled_op id u s = (res, s') ->
  (agenda (store s') = agenda (store s) /\ res <> Ok tt) \/
  exists op, agenda (store s) !! id = Some op /\ pending op = true /\ res = Ok tt /\
    agenda (store s') = <[id := marked u "canceled" (op_result op) op]> (agenda (store s)).
Proof.
  unfold cancel_scheduled_op, mbind, M_bind, statement, cancel_op_row, refuse.
  destruct (agenda (store s) !! id) as [op|]; simpl; [destruct (pending op) eqn:Ep|]; simpl; intros [= <- <-]; [|by left..].
  right. by exists op.
Qed.

Lemma fleet_agenda {A} (m : Handler.M FleetDb A) s res s' : in_fleet m s = (res, s') -> agenda (store s') = agenda (store s).
Proof. unfold in_fleet. destruct (m _). by intros [= _ <-]. Qed.

Lemma executed_agenda connected d op s res s' : execute connected d op s = (res, s') -> agenda (store s') = agenda (store s).
Proof. intros H. assert (E := execute_agenda connected d op s). by rewrite H in E. Qed.

(** A row nobody will run stays as it is. *)
Definition settled (k : Uuid) (op : ScheduledOp) (m : Machine) : Prop :=
  agenda (store (sched m)) !! k = Some op /\ k ∉ claimed (act m).

Lemma settled_step lossy k op m m' : pending op = false -> keyed (agenda (store (sched m))) -> sched_step lossy m m' ->
  settled k op m ->
  settled k op m' /\ List.filter (fun x => op_id x.2 =? k) (ran m') = List.filter (fun x => op_id x.2 =? k) (ran m).
Proof.
  intros Hp Hk Hs [Hrow Hc]. destruct Hs; simpl in *; (split; [split|]); simpl; try done.
  - intros Hin. rewrite list_elem_of_fmap in Hin. destruct Hin as (x & -> & Hin%list_elem_of_In).
    apply due_in in Hin as [Hx Hd]; [|done]. rewrite Hrow in Hx. injection Hx as ->. unfold is_due in Hd. by rewrite Hp in Hd.
  - by rewrite (executed_agenda _ _ _ _ _ _ H).
  - rewrite List.filter_app. simpl. destruct (Z.eqb_spec (op_id op0) k) as [E|]; [|by rewrite app_nil_r].
    destruct Hc. subst k. apply list_elem_of_here.
  - rewrite lookup_alter_ne; [done|]. intros E. apply Hc. subst k. apply list_elem_of_here.
  - intros Hin. apply Hc. by apply list_elem_of_further.
  - intros Hin. apply Hc. by apply list_elem_of_further.
  - apply create_agenda in H as [->|(x & Hn & _ & ->)]; [done|]. rewrite lookup_insert_ne; [done|]. congruence.
  - apply cancel_agenda in H as [[-> _]|(x & Hx & Hpx & _ & ->)]; [done|]. rewrite lookup_insert_ne; [done|]. congruence.
  - by rewrite (fleet_agenda _ _ _ _ H).
Qed.

Lemma keyed_insert k op m : keyed m -> op_id op = k -> keyed (<[k := op]> m).
Proof. intros Hm Hop. by apply map_Forall_insert_2. Qed.

Lemma keyed_step lossy m m' : sched_step lossy m m' -> keyed (agenda (store (sched m))) -> keyed (agenda (store (sched m'))).
Proof.
  intros Hs Hk. destruct Hs; simpl in *; try done.
  - by rewrite (executed_agenda _ _ _ _ _ _ H).
  - intros j x Hj. destruct (decide (j = op_id op)) as [->|Hne].
    + rewrite lookup_alter_eq in Hj. destruct (agenda (store s) !! op_id op) as [y|] eqn:E; [|done]. injection Hj as <-. by apply Hk in E.
    + rewrite lookup_alter_ne in Hj by done. by apply Hk.
  - apply create_agenda in H as [->|(x & _ & Hx & ->)]; [done|]. by apply keyed_insert.
  - apply cancel_agenda in H as [[-> _]|(x & Hx & _ & _ & ->)]; [done|]. apply keyed_insert; [done|]. by apply Hk in Hx.
  - by rewrite (fleet_agenda _ _ _ _ H).
Qed.

(** A cancelled operation never runs.  When cancelling an operation the loop has
    not claimed is answered with success, then whatever is requested and however
    often the loop ticks afterwards, even when it fails to record outcomes, the
    operation is not executed again and its row keeps saying "canceled". *)
Theorem canceled_op_never_runs lossy k u s a r s' m' : keyed (agenda (store s)) -> k ∉ claimed a ->
  cancel_scheduled_op k u s = (Ok tt, s') -> rtc (sched_step lossy) (mkMachine s' a r) m' ->
  (exists op, agenda (store (sched m')) !! k = Some op /\ op_status op = "canceled") /\
  List.filter (fun x => op_id x.2 =? k) (ran m') = List.filter (fun x => op_id x.2 =? k) r.
Proof.
  intros Hk Ha Hc Hr. apply cancel_agenda in Hc as [[_ []]|(op & Hop & _ & _ & Hs)]; [done|].
  set (op' := marked u "canceled" (op_result op) op) in *.
  assert (Hk' : keyed (agenda (store s'))) by (rewrite Hs; apply keyed_insert; [done|by apply Hk in Hop]).
  assert (settled k op' (mkMachine s' a r)) as H0 by (split; [simpl; by rewrite Hs, lookup_insert_eq|done]).
  assert (settled k op' m' /\ List.filter (fun x => op_id x.2 =? k) (ran m') = List.filter (fun x => op_id x.2 =? k) (ran (mkMachine s' a r)))
    as [[H _] Hran].
  { change (keyed (agenda (store (sched (mkMachine s' a r))))) in Hk'. revert Hk' H0. clear - Hr. induction Hr as [m|m m1 m2 Hstep _ IH].
    - done.
    - intros Hk H0. destruct (settled_step lossy k op' m m1 eq_refl Hk Hstep H0) as [H1 E].
      rewrite <- E. apply IH; [by eapply keyed_step|done]. }
  split; [by exists op'|done].
Qed.

(** *** At most once *)

(** The claimed operations still to run, with the time of their scan. *)
Definition waiting (a : activity) : list (Z * ScheduledOp) :=
  match a with Idle => [] | Running t batch | Marking t _ _ batch => (fun op => (t, op)) <$> batch end.
(** The operation that ran and whose outcome is not yet recorded. *)
Definition unrecorded (a : activity) : option Uuid := match a with Marking _ op _ _ => Some (op_id op) | _ => None end.

Definition ids (l : list (Z * ScheduledOp)) : list Uuid := (fun x => op_id x.2) <$> l.

Record once (m : Machine) : Prop := mkOnce {
  once_keyed : keyed (agenda (store (sched m)));
  once_nodup : NoDup (ids (ran m ++ waiting (act m)));
  once_due : Forall (fun x => is_due x.1 x.2 = true) (ran m ++ waiting (act m));
  once_rows : Forall (fun k => is_Some (agenda (store (sched m)) !! k)) (ids (ran m ++ waiting (act m)));
  once_done : forall k op, k ∈ ids (ran m) -> agenda (store (sched m)) !! k = Some op -> pending op = true ->
    unrecorded (act m) = Some k;
  once_out : match act m with Marking _ _ out _ => out.1 <> "pending" | _ => True end }.

(** A request changes rows of the agenda, and makes none pending but a new one. *)
Definition rows_kept (m m' : gmap Uuid ScheduledOp) : Prop :=
  forall k op, m !! k = Some op -> exists op', m' !! k = Some op' /\ (pending op' = true -> pending op = true).

Lemma once_request m s' : once m -> keyed (agenda (store s')) -> rows_kept (agenda (store (sched m))) (agenda (store s')) ->
  once (mkMachine s' (act m) (ran m)).
Proof.
  intros [H1 H2 H3 H4 H5 H6] Hk Hr. split; simpl; try done.
  - eapply Forall_impl; [exact H4|]. intros k [op Hop]. destruct (Hr _ _ Hop) as (op' & -> & _). by eexists.
  - intros k op' Hin Hop' Hp. assert (is_Some (agenda (store (sched m)) !! k)) as [op Hop].
    { rewrite Forall_forall in H4. apply H4. unfold ids in *. rewrite fmap_app. apply elem_of_app. by left. }
    destruct (Hr _ _ Hop) as (x & Hx & Himp). rewrite Hop' in Hx. injection Hx as <-. by apply (H5 k op); auto.
Qed.

Lemma rows_kept_refl m m' : m' = m -> rows_kept m m'.
Proof. intros ->. intros k op H. by exists op. Qed.

Lemma rows_kept_create k op m : m !! k = None -> rows_kept m (<[k := op]> m).
Proof. intros Hn j x Hj. exists x. rewrite lookup_insert_ne by congruence. done. Qed.

Lemma rows_kept_alter k f m : (forall op, pending (f op) = false) -> rows_kept m (alter f k m).
Proof.
  intros Hf j x Hj. destruct (decide (j = k)) as [->|Hne].
  - exists (f x). rewrite lookup_alter_eq, Hj. split; [done|]. by rewrite Hf.
  - exists x. by rewrite lookup_alter_ne.
Qed.

Lemma once_scan t s r : once (mkMachine s Idle r) -> once (mkMachine s (Running t (due_scheduled_ops t (store s))) r).
Proof.
  intros [H1 H2 H3 H4 H5 _]. simpl in *. rewrite app_nil_r in *.
  assert (Hin : forall k, k ∈ op_id <$> due_scheduled_ops t (store s) -> exists op, agenda (store s) !! k = Some op /\ is_due t op = true).
  { intros k Hk. rewrite list_elem_of_fmap in Hk. destruct Hk as (x & -> & Hx%list_elem_of_In). exists x. by apply due_in. }
  assert (Eids : forall l, ids ((fun op => (t, op)) <$> l) = op_id <$> l) by (intros l; unfold ids; by rewrite <- list_fmap_compose).
  split; simpl; try done.
  - unfold ids. rewrite fmap_app. fold (ids r). fold (ids ((fun op => (t, op)) <$> due_scheduled_ops t (store s))). rewrite Eids.
    apply NoDup_app. split_and!; [done| |by apply due_nodup]. intros k Hr Hd. destruct (Hin k Hd) as (op & Hop & Hdue).
    unfold is_due in Hdue. apply andb_prop in Hdue as [Hp _]. by specialize (H5 k op Hr Hop Hp).
  - apply Forall_app. split; [done|]. apply Forall_fmap, Forall_forall. intros op Hop%list_elem_of_In. by apply due_in in Hop as [_ ?].
  - unfold ids. rewrite fmap_app. apply Forall_app. split; [done|]. fold (ids ((fun op => (t, op)) <$> due_scheduled_ops t (store s))).
    rewrite Eids. apply Forall_forall. intros k Hk. destruct (Hin k Hk) as (op & -> & _). by eexists.
Qed.

Lemma once_run t op batch s s' r out : agenda (store s') = agenda (store s) -> out.1 <> "pending" ->
  once (mkMachine s (Running t (op :: batch)) r) -> once (mkMachine s' (Marking t op out batch) (r ++ [(t, op)])).
Proof.
  intros Hs Ho [H1 H2 H3 H4 H5 _]. split; simpl in *; rewrite ?Hs, <- ?app_assoc; try done.
  intros k x Hk Hx Hp. unfold ids in Hk. rewrite fmap_app, elem_of_app in Hk. destruct Hk as [Hk|Hk].
  - by specialize (H5 k x Hk Hx Hp).
  - apply list_elem_of_singleton in Hk as ->. done.
Qed.

Lemma once_mark u t op out batch s r : once (mkMachine s (Marking t op out batch) r) ->
  once (mkMachine (mkSt (mark_scheduled_op u (op_id op) out.1 (Some out.2) (store s)) (trace s)) (Running t batch) r).
Proof.
  intros Ho. assert (Hpend : forall x, pending (marked u out.1 (Some out.2) x) = false).
  { intros x. unfold pending. simpl. apply String.eqb_neq. exact (once_out _ Ho). }
  assert (Hk := once_keyed _ Ho). simpl in Hk.
  destruct (once_request _ (mkSt (mark_scheduled_op u (op_id op) out.1 (Some out.2) (store s)) (trace s)) Ho) as [H1 H2 H3 H4 H5 _].
  - apply (keyed_step false (mkMachine s (Marking t op out batch) r) (mkMachine (mkSt (mark_scheduled_op u (op_id op) out.1 (Some out.2) (store s)) (trace s)) (Running t batch) r)); [apply mark|done].
  - simpl. by apply rows_kept_alter.
  - split; simpl in *; try done. intros k x Hin Hx Hp. specialize (H5 k x Hin Hx Hp). injection H5 as <-.
    rewrite lookup_alter_eq in Hx. destruct (agenda (store s) !! op_id op); [|done]. injection Hx as <-. by rewrite Hpend in Hp.
Qed.

Lemma once_step m m' : sched_step false m m' -> once m -> once m'.
Proof.
  intros Hs Ho. assert (Hk : keyed (agenda (store (sched m')))) by (eapply keyed_step; [exact Hs|by apply once_keyed]).
  destruct Hs; simpl in *.
  - by apply once_scan.
  - eapply once_run; [by eapply executed_agenda| |exact Ho]. by destruct res.
  - by apply once_mark.
  - done.
  - destruct Ho as [H1 H2 H3 H4 H5 H6]. split; try done.
  - apply (once_request (mkMachine s a r)); [done..|]. simpl.
    apply create_agenda in H as [->|(x & Hn & _ & ->)]; [by apply rows_kept_refl|by apply rows_kept_create].
  - apply (once_request (mkMachine s a r)); [done..|]. simpl.
    apply cancel_agenda in H as [[-> _]|(x & Hx & _ & _ & ->)]; [by apply rows_kept_refl|].
    intros j y Hj. destruct (decide (j = id)) as [->|Hne]; [eexists; rewrite lookup_insert_eq; split; [done|]; done|].
    exists y. by rewrite lookup_insert_ne.
  - apply (once_request (mkMachine s a r)); [done..|]. simpl. apply rows_kept_refl. by eapply fleet_agenda.
Qed.

(** C22: a scheduled operation runs at most once, and never early.  While outcomes
    get recorded, then whatever requests arrive between the steps of the loop, no
    operation is executed twice, and each that is executed was pending and due at
    the scan that claimed it. *)
Theorem scheduled_at_most_once s m' : keyed (agenda (store s)) -> rtc (sched_step false) (mkMachine s Idle []) m' ->
  NoDup ((fun x => op_id x.2) <$> ran m') /\ Forall (fun x => is_due x.1 x.2 = true) (ran m').
Proof.
  intros Hk Hr. assert (once m') as [_ H2 H3 _ _ _].
  { assert (once (mkMachine s Idle [])) as H0
      by (split; [done|apply NoDup_nil_2|apply Forall_nil_2|apply Forall_nil_2|by intros k op Hin%not_elem_of_nil|done]).
    induction Hr as [m|m m1 m2 Hs _ IH]; [done|]. apply IH; by eapply once_step. }
  unfold ids in H2. rewrite fmap_app in H2. apply NoDup_app in H2 as [H2 _]. apply Forall_app in H3 as [H3 _]. done.
Qed.

(** A cancellation can come too late without saying so.  When the loop has
    claimed an operation and not yet run it, cancelling it is answered with
    success and the row says "canceled"; the loop runs the operation all the same,
    and the row then says "done" or "failed". *)
Theorem cancellation_overtaken connected d t op batch k u s s' r : agenda (store s) !! k = Some op -> op_id op = k -> pending op = true ->
  cancel_scheduled_op k u s = (Ok tt, s') ->
  (exists x, agenda (store s') !! k = Some x /\ op_status x = "canceled") /\
  exists m', rtc (sched_step false) (mkMachine s' (Running t (op :: batch)) r) m' /\ ran m' = r ++ [(t, op)] /\
    fleet (store (sched m')) = fleet (store (execute connected d op s').2) /\
    exists x, agenda (store (sched m')) !! k = Some x /\ (op_status x = "done" \/ op_status x = "failed").
Proof.
  intros Hop Hid Hp Hc. apply cancel_agenda in Hc as [[_ []]|(y & Hy & _ & _ & Hs)]; [done|]. rewrite Hop in Hy. injection Hy as <-.
  split; [eexists; rewrite Hs, lookup_insert_eq; by split|].
  destruct (execute connected d op s') as [res s2] eqn:He. eexists. split; [|split; [|split]].
  - eapply rtc_l; [apply (run _ connected d _ _ _ _ _ _ _ He)|]. eapply rtc_l; [apply (mark _ u)|]. apply rtc_refl.
  - done.
  - done.
  - simpl. rewrite Hid, lookup_alter_eq, (executed_agenda _ _ _ _ _ _ He), Hs, lookup_insert_eq. eexists. split; [done|].
    simpl. destruct res; [by left|by right].
Qed.
End Scheduler.

(** ** Witnesses *)

Definition shutdown : ScheduledOp := mkOp 30 "node" 1 "disable" 5 "pending" None (Some 1) 0 0.
Definition planned : Handler.St SchedDb := mkSt (mkSched (store depot) {[30 := shutdown]}) [].
Definition everywhere (_ : Uuid) : bool := true.
Definition at_ten (_ : nat) : Draws := draws 10 1 2 3.
Definition no_text (_ : db_error) : string := "".

Lemma planned_keyed : keyed (agenda (store planned)).
Proof. by apply map_Forall_singleton. Qed.

Lemma tick_settles_due_witness : exists t status message,
  agenda (store (tick Some id show id no_text true everywhere at_ten 7 planned)) !! 30 = Some (marked t status (Some message) shutdown)
  /\ (status = "done" \/ status = "failed").
Proof.
  destruct (tick_settles_due Some id show id no_text everywhere at_ten 7 planned planned_keyed) as [[H _] _].
  apply (H shutdown). left. reflexivity.
Defined.

Definition called_off : Handler.St SchedDb := (cancel_scheduled_op 30 6 planned).2.

Lemma canceled_op_never_runs_witness : exists op, agenda (store called_off) !! 30 = Some op /\ op_status op = "canceled".
Proof.
  refine (proj1 (canceled_op_never_runs Some id show id no_text true 30 6 planned Idle [] called_off
    (mkMachine called_off (Running 7 (due_scheduled_ops 7 (store called_off))) []) planned_keyed (not_elem_of_nil _) _ _)).
  - exact (surjective_pairing (cancel_scheduled_op 30 6 planned)).
  - apply rtc_once, scan.
Defined.

Definition shut : result string api_error * Handler.St SchedDb := execute Some id show id everywhere (at_ten 0) shutdown planned.

Lemma scheduled_at_most_once_witness :
  shut.1 = Ok "node disabled" /\ NoDup [30] /\ is_due 7 shutdown = true.
Proof.
  destruct (scheduled_at_most_once Some id show id no_text planned
    (mkMachine shut.2 (Marking 7 shutdown (outcome no_text shut.1) []) [(7, shutdown)]) planned_keyed) as [H1 H2].
  - eapply rtc_l; [apply (scan _ _ _ _ _ _ 7)|]. apply rtc_once.
    change (due_scheduled_ops 7 (store planned)) with [shutdown]. apply (run _ _ _ _ _ _ everywhere (at_ten 0) 7 shutdown [] planned shut.1 shut.2 []).
    exact (surjective_pairing shut).
  - split; [vm_compute; reflexivity|]. split; [exact H1|]. by apply Forall_singleton in H2.
Defined.

Lemma cancellation_overtaken_witness : exists m',
  rtc (sched_step Some id show id no_text false) (mkMachine called_off (Running 7 [shutdown]) []) m' /\ ran m' = [(7, shutdown)].
Proof.
  destruct (cancellation_overtaken Some id show id no_text everywhere (at_ten 0) 7 shutdown [] 30 6 planned called_off [])
    as (_ & m' & Hr & Hran & _); [reflexivity..| |].
  - exact (surjective_pairing (cancel_scheduled_op 30 6 planned)).
  - exists m'. by split.
Defined.
