(* ===== verification/Notify.v ===== *)
(** * Notifications (src/master/src/notify.rs; the notification and channel
    handlers of src/master/src/api/mod.rs and their queries in
    src/master/src/db/repo.rs)

    An alert is recorded once per key and half hour and fanned out to channels;
    every administrator reads the recorded ones at their own pace.  Times are
    microseconds.  What a channel's server answers and the collation are
    parameters; what is sent to it is a value here. *)

From S2P Require Import Prelude Strings Json Models Db Api Handler Auth.

(** ** Rows *)

Record NotifyChannel := mkChannel {
  ch_id : Uuid;
  ch_name : string;
  ch_kind : string;
  ch_target : string;
  ch_events : list string;
  ch_enabled : bool;
  ch_created_at : Z;
  ch_updated_at : Z }.

Record NewNotifyChannel := mkNewChannel {
  nc_name : string;
  nc_kind : string;
  nc_target : string;
  nc_events : list string }.

Record UpdateNotifyChannel := mkUpdateChannel {
  uc_name : option string;
  uc_target : option string;
  uc_events : option (list string);
  uc_enabled : option bool }.

Record SystemNotification := mkNotice {
  sn_id : Uuid;
  event_type : string;
  dedupe_key : string;
  severity : string;
  sn_code : string;
  sn_title : string;
  sn_body : string;
  resource_type : option string;
  resource_id : option string;
  occurrence_count : Z;
  sn_last_seen_at : Z;
  sn_created_at : Z }.

(** The notices, and when which administrator read which. *)
Record NotifyDb := mkNotify {
  channels : gmap Uuid NotifyChannel;
  notices : gmap Uuid SystemNotification;
  reads : gmap (Uuid * Uuid) Z;
  known_admins : gset Uuid }.

Definition with_channels g (db : NotifyDb) : NotifyDb := mkNotify (g (channels db)) (notices db) (reads db) (known_admins db).
Definition with_notices g (db : NotifyDb) : NotifyDb := mkNotify (channels db) (g (notices db)) (reads db) (known_admins db).
Definition with_reads g (db : NotifyDb) : NotifyDb := mkNotify (channels db) (notices db) (g (reads db)) (known_admins db).

#[local] Abbreviation M := (Handler.M NotifyDb).

(** ** Channels *)

Section Channels.
Context (collate : string -> string -> bool).

Definition list_notify_channels (db : NotifyDb) : list NotifyChannel :=
  sort_by (fun a b => collate (ch_name a) (ch_name b)) (rows (channels db)).

Definition get_notify_channel (id : Uuid) (db : NotifyDb) : option NotifyChannel := channels db !! id.

(** WHERE enabled AND (cardinality(events) = 0 OR $1 = ANY(events)). *)
Definition subscribed (event : string) (c : NotifyChannel) : bool :=
  ch_enabled c && (match ch_events c with [] => true | l => existsb (String.eqb event) l end).
Definition channels_for_event (event : string) (db : NotifyDb) : list NotifyChannel :=
  List.filter (subscribed event) (rows (channels db)).

(** The table's check on the kind. *)
Definition kind_storable (kind : string) : bool := one_of ["webhook"; "discord"; "slack"; "telegram"] kind.

Definition create_notify_channel (id now : Z) (input : NewNotifyChannel) (db : NotifyDb) : result NotifyChannel db_error * NotifyDb :=
  let c := mkChannel id (trim (nc_name input)) (trim (nc_kind input)) (trim (nc_target input)) (nc_events input) true now now in
  if negb (kind_storable (ch_kind c)) then (Err CheckViolation, db)
  else if is_some (channels db !! id) then (Err UniqueViolation, db)
  else (Ok c, with_channels (<[id := c]>) db).

Definition channel_updated (now : Z) (u : UpdateNotifyChannel) (c : NotifyChannel) : NotifyChannel :=
  mkChannel (ch_id c) (trim (default (ch_name c) (uc_name u))) (ch_kind c) (trim (default (ch_target c) (uc_target u)))
    (default (ch_events c) (uc_events u)) (default (ch_enabled c) (uc_enabled u)) (ch_created_at c) now.

Definition update_notify_channel (now id : Z) (u : UpdateNotifyChannel) (db : NotifyDb)
    : result (option NotifyChannel) db_error * NotifyDb :=
  match channels db !! id with
  | None => (Ok None, db)
  | Some c => let c := channel_updated now u c in (Ok (Some c), with_channels (<[id := c]>) db)
  end.

Definition delete_notify_channel (id : Uuid) (db : NotifyDb) : result bool db_error * NotifyDb :=
  (Ok (is_some (channels db !! id)), with_channels (delete id) db).

(** *** Handlers *)

Definition channel_missing : api_error := NotFound "channel not found".

Definition list_channels : M (list NotifyChannel) := query list_notify_channels.

Definition create_channel (id now : Z) (input : NewNotifyChannel) : M NotifyChannel :=
  _ ← refuse (negb (one_of ["webhook"; "discord"; "slack"; "telegram"; "email"; "sms"; "alertmanager"] (trim (nc_kind input))))
        (BadRequest "kind must be webhook, discord, slack, telegram, email, sms or alertmanager");
  _ ← refuse (is_empty (trim (nc_name input)) || is_empty (trim (nc_target input))) (BadRequest "name and target are required");
  c ← statement (create_notify_channel id now input);
  _ ← audit "create" "notify_channel" (ch_id c) (obj [("kind", JString (ch_kind c))]);
  mret c.

Definition update_channel (now id : Z) (input : UpdateNotifyChannel) : M NotifyChannel :=
  o ← statement (update_notify_channel now id input);
  c ← found o channel_missing;
  _ ← audit "update" "notify_channel" id (obj []);
  mret c.

Definition delete_channel (id : Uuid) : M unit :=
  gone ← statement (delete_notify_channel id);
  _ ← refuse (negb gone) channel_missing;
  audit "delete" "notify_channel" id (obj []).
End Channels.

(** ** Sending *)

Inductive credentials := NoAuth | Bearer (token : string) | Basic (user password : string).
Inductive payload := AsJson (v : json) | AsForm (fields : list (string * string)).
Record Request := mkRequest { url : string; auth_with : credentials; content : payload }.

Definition newline : string := String (ascii_of_nat 10) "".

Definition email_request (target title body : string) : result Request string :=
  match split "|" target with
  | ["resend"; key; from; to] =>
      Ok (mkRequest "https://api.resend.com/emails" (Bearer key)
            (AsJson (obj [("from", JString from); ("to", JArray [JString to]); ("subject", JString title); ("text", JString body)])))
  | ["mailgun"; domain; key; from; to] =>
      Ok (mkRequest ("https://api.mailgun.net/v3/" +:+ domain +:+ "/messages") (Basic "api" key)
            (AsForm [("from", from); ("to", to); ("subject", title); ("text", body)]))
  | _ => Err "email target must be resend|<key>|<from>|<to> or mailgun|<domain>|<key>|<from>|<to>"
  end.

Definition sms_request (target title body : string) : result Request string :=
  match split "|" target with
  | ["twilio"; sid; token; from; to] =>
      Ok (mkRequest ("https://api.twilio.com/2010-04-01/Accounts/" +:+ sid +:+ "/Messages.json") (Basic sid token)
            (AsForm [("From", from); ("To", to); ("Body", title +:+ newline +:+ body)]))
  | _ => Err "sms target must be twilio|<account_sid>|<auth_token>|<from>|<to>"
  end.

Definition alertmanager_request (target title body : string) : Request :=
  mkRequest (trim_end_matches "/" target +:+ "/api/v2/alerts") NoAuth
    (AsJson (JArray [obj [("labels", obj [("alertname", JString "honey"); ("severity", JString "warning"); ("instance", JString "honey")]);
                          ("annotations", obj [("summary", JString title); ("description", JString body)])]])).

(** What [send] posts, or why it does not. *)
Definition request_of (c : NotifyChannel) (title body : string) : result Request string :=
  let to_target v := Ok (mkRequest (ch_target c) NoAuth (AsJson v)) in
  if String.eqb (ch_kind c) "discord" then to_target (obj [("content", JString ("**" +:+ title +:+ "**" +:+ newline +:+ body))])
  else if String.eqb (ch_kind c) "slack" then to_target (obj [("text", JString ("*" +:+ title +:+ "*" +:+ newline +:+ body))])
  else if String.eqb (ch_kind c) "telegram" then
    match rsplit_once "@" (ch_target c) with
    | None => Err "telegram target must be <bot_token>@<chat_id>"
    | Some (token, chat) =>
        Ok (mkRequest ("https://api.telegram.org/bot" +:+ token +:+ "/sendMessage") NoAuth
              (AsJson (obj [("chat_id", JString chat); ("text", JString (title +:+ newline +:+ body))])))
    end
  else if String.eqb (ch_kind c) "email" then email_request (ch_target c) title body
  else if String.eqb (ch_kind c) "sms" then sms_request (ch_target c) title body
  else if String.eqb (ch_kind c) "alertmanager" then Ok (alertmanager_request (ch_target c) title body)
  else to_target (obj [("title", JString title); ("body", JString body)]).

(** [post]: what the server says, an error for a failed exchange or status. *)
Definition send (post : Request -> result unit string) (c : NotifyChannel) (title body : string) : result unit string :=
  let? r := request_of c title body in post r.

(** Every channel is sent to in a task of its own; failures are logged. *)
Definition dispatch (event title body : string) (db : NotifyDb) : list (NotifyChannel * result Request string) :=
  (fun c => (c, request_of c title body)) <$> channels_for_event event db.

Definition test_channel (post : Request -> result unit string) (id : Uuid) : M unit :=
  o ← query (get_notify_channel id);
  c ← found o channel_missing;
  lift_result (match send post c (bytes_of [226; 156; 133] +:+ " honey test") "notifications are working" with
               | Ok _ => Ok tt
               | Err e => Err (BadGateway ("notification test failed: " +:+ e))
               end).

(** ** Recording *)

Definition minutes (n : Z) : Z := n * 60 * 1000000.
Definition days (n : Z) : Z := minutes (n * 24 * 60).

Definition text_between (lo hi : Z) (s : string) : bool := (lo <=? char_count s) && (char_count s <=? hi).

Definition notice_checks (n : SystemNotification) : bool :=
  text_between 1 64 (event_type n) && text_between 1 256 (dedupe_key n) && one_of ["critical"; "warning"; "info"] (severity n)
  && text_between 1 16 (sn_code n) && text_between 1 160 (sn_title n) && text_between 1 1024 (sn_body n)
  && map_or (resource_type n) true (text_between 1 32) && map_or (resource_id n) true (text_between 1 128)
  && (0 <? occurrence_count n).

(** DELETE FROM system_notifications, the reads cascading. *)
Definition prune_notices (cutoff : Z) (db : NotifyDb) : NotifyDb :=
  let kept := filter (fun kn => (sn_created_at kn.2 <? cutoff) = false) (notices db) in
  mkNotify (channels db) kept (filter (fun kr => is_Some (kept !! kr.1.2)) (reads db)) (known_admins db).

Definition prune_system_notifications (now : Z) (db : NotifyDb) : NotifyDb := prune_notices (now - days 90) db.

(** The most recent notice under a key within the cooldown. *)
Definition recent_under (now : Z) (key : string) (db : NotifyDb) : option SystemNotification :=
  head (sort_by (fun a b => sn_created_at b <=? sn_created_at a)
    (List.filter (fun n => String.eqb (dedupe_key n) key && (now - minutes 30 <? sn_created_at n)) (rows (notices db)))).

Definition again (now : Z) (title body : string) (n : SystemNotification) : SystemNotification :=
  mkNotice (sn_id n) (event_type n) (dedupe_key n) (severity n) (sn_code n) title body (resource_type n) (resource_id n)
    (occurrence_count n + 1) now (sn_created_at n).

(** One transaction, under a lock on the key. *)
Definition record_system_notification (id now : Z) (event key sev code title body : string) (kind resource : option string)
    (db : NotifyDb) : result (option SystemNotification) db_error * NotifyDb :=
  match recent_under now key db with
  | Some n =>
      let n' := again now title body n in
      if i32_max <? occurrence_count n' then (Err NumericOutOfRange, db)
      else if negb (notice_checks n') then (Err CheckViolation, db)
      else (Ok None, prune_system_notifications now (with_notices (<[sn_id n := n']>) db))
  | None =>
      let n := mkNotice id event key sev code title body kind resource 1 now now in
      if negb (notice_checks n) then (Err CheckViolation, db)
      else if is_some (notices db !! id) then (Err UniqueViolation, db)
      else (Ok (Some n), prune_system_notifications now (with_notices (<[id := n]>) db))
  end.

Definition metadata (event : string) : string * string * option string :=
  if String.eqb event "node_down" then ("critical", "M0409", Some "node")
  else if String.eqb event "push_failed" then ("critical", "M0406", Some "node")
  else if String.eqb event "cert_expiry" then ("warning", "M1301", Some "domain")
  else if String.eqb event "quota_reset" then ("info", "M1401", Some "user")
  else if String.eqb event "subscription_abuse" then ("warning", "M1701", Some "subscription")
  else if String.eqb event "traffic_anomaly" then ("warning", "M1610", Some "user")
  else if String.eqb event "device_limit" then ("warning", "M1611", Some "user")
  else if String.eqb event "config_drift" then ("warning", "M1612", Some "node")
  else ("warning", "M1600", None).

Definition bounded (value : string) (max : nat) : string := take_chars max value.

(** The process's own memory of what it sent, by its monotonic clock. *)
Definition COOLDOWN : Z := 1800 * 1000000.
Definition Seen : Type := gmap string Z.

Definition should_send_fallback (now : Z) (key : string) (seen : Seen) : bool * Seen :=
  let seen := filter (fun kt => now - kt.2 < 86400 * 1000000) seen in
  match seen !! key with
  | Some last => if now - last <? COOLDOWN then (false, seen) else (true, <[key := now]> seen)
  | None => (true, <[key := now]> seen)
  end.

(** An alert as its callers make it. *)
Record Alert := mkAlert {
  al_event : string;
  al_key : string;
  al_title : string;
  al_body : string;
  al_resource_id : string }.

(** What an alert meets: the next id, the two clocks, and whether the database
    answers when it is recorded and when channels are looked up. *)
Record Moment := mkMoment { fresh : Uuid; now : Z; mono : Z; records : bool; looks_up : bool }.

Record Panel := mkPanel { pdb : NotifyDb; seen : Seen }.

Definition alert_key (a : Alert) : string := bounded (al_key a) 256.

Definition record_alert (m : Moment) (a : Alert) (db : NotifyDb) : option (option SystemNotification) * NotifyDb :=
  let '(sev, code, kind) := metadata (al_event a) in
  if records m then
    match record_system_notification (fresh m) (now m) (al_event a) (alert_key a) sev code (bounded (al_title a) 160)
            (bounded (al_body a) 1024) kind (Some (bounded (al_resource_id a) 128)) db with
    | (Ok o, db) => (Some o, db)
    | (Err _, db) => (None, db)
    end
  else (None, db).

(** [None]: not sent; otherwise what goes to whom. *)
Definition alert (m : Moment) (a : Alert) (p : Panel) : option (list (NotifyChannel * result Request string)) * Panel :=
  let (recorded, db) := record_alert m a (pdb p) in
  let (should_dispatch, s) :=
    match recorded with
    | Some (Some _) => (true, seen p)
    | Some None => (false, seen p)
    | None => should_send_fallback (mono m) (alert_key a) (seen p)
    end in
  (if should_dispatch then
     Some (if looks_up m then dispatch (al_event a) (bounded (al_title a) 160) (bounded (al_body a) 1024) db else [])
   else None, mkPanel db s).

(** [retention]: a tick of the leader. *)
Definition retention_tick (is_leader : bool) (now : Z) (p : Panel) : Panel :=
  if is_leader then mkPanel (prune_system_notifications now (pdb p)) (seen p) else p.

(** ** Reading *)

Record NotificationQuery := mkNotificationQuery {
  nq_severity : option string;
  nq_event : option string;
  nq_unread : bool;
  nq_limit : option Z }.

Definition validate_notification_query (q : NotificationQuery) : result unit api_error :=
  bail (BadRequest "unsupported notification severity")
    when is_some_and (nq_severity q) (fun v => negb (one_of ["critical"; "warning"; "info"] v)) in
  bail (BadRequest "unsupported notification event")
    when is_some_and (nq_event q)
           (fun v => negb (one_of ["node_down"; "push_failed"; "cert_expiry"; "quota_reset"; "subscription_abuse"] v)) in
  Ok tt.

(** LEFT JOIN admin_notification_reads: no row for an unknown reader. *)
Definition read_at (admin : option Uuid) (n : SystemNotification) (db : NotifyDb) : option Z :=
  let! a := admin in reads db !! (a, sn_id n).

Definition matching_notices (admin : option Uuid) (sev event : option string) (unread_only : bool) (db : NotifyDb)
    : list (SystemNotification * option Z) :=
  (fun n => (n, read_at admin n db)) <$>
    List.filter (fun n => map_or sev true (String.eqb (severity n)) && map_or event true (String.eqb (event_type n))
                          && (negb unread_only || negb (is_some (read_at admin n db)))) (rows (notices db)).

Definition list_system_notifications (admin : option Uuid) (sev event : option string) (unread_only : bool) (limit : Z)
    (db : NotifyDb) : list (SystemNotification * option Z) :=
  take (Z.to_nat (clamp 1 200 limit))
    (sort_by (fun a b => sn_created_at b.1 <=? sn_created_at a.1) (matching_notices admin sev event unread_only db)).

Definition count_unread_system_notifications (admin : option Uuid) (db : NotifyDb) : Z :=
  Z.of_nat (length (List.filter (fun n => negb (is_some (read_at admin n db))) (rows (notices db)))).

Definition subscription_abuse_summary (t : Z) (db : NotifyDb) : Z * option Z :=
  let l := List.filter (fun n => String.eqb (event_type n) "subscription_abuse" && (t - minutes 30 <? sn_last_seen_at n))
             (rows (notices db)) in
  (foldr Z.add 0 (occurrence_count <$> l),
   foldr (fun t acc => Some (map_or acc t (Z.max t))) None (sn_last_seen_at <$> l)).

Definition mark_system_notification_read (t : Z) (admin id : Uuid) (db : NotifyDb) : result bool db_error * NotifyDb :=
  match notices db !! id with
  | None => (Ok false, db)
  | Some _ =>
      if bool_decide (admin ∈ known_admins db) then (Ok true, with_reads (<[(admin, id) := t]>) db)
      else (Err ForeignKeyViolation, db)
  end.

(** ON CONFLICT DO NOTHING: earlier marks keep their time. *)
Definition marks_for (t : Z) (admin : Uuid) (l : list SystemNotification) : gmap (Uuid * Uuid) Z :=
  list_to_map ((fun n => ((admin, sn_id n), t)) <$> l).
Definition mark_all_system_notifications_read (t : Z) (admin : Uuid) (db : NotifyDb) : result Z db_error * NotifyDb :=
  let unread := count_unread_system_notifications (Some admin) db in
  if (0 <? unread) && negb (bool_decide (admin ∈ known_admins db)) then (Err ForeignKeyViolation, db)
  else (Ok unread, with_reads (fun m => m ∪ marks_for t admin (rows (notices db))) db).

(** *** Handlers *)

Definition session_account (i : Identity) : M Uuid :=
  found (admin_id i) (Forbidden "admin sessions require a panel session").

Definition list_notifications (i : Identity) (q : NotificationQuery) : M (list (SystemNotification * option Z)) :=
  _ ← lift_result (validate_notification_query q);
  query (list_system_notifications (admin_id i) (nq_severity q) (nq_event q) (nq_unread q) (default 50 (nq_limit q))).

Definition notification_unread_count (i : Identity) : M Z := query (count_unread_system_notifications (admin_id i)).

Definition mark_notification_read (t : Z) (i : Identity) (id : Uuid) : M unit :=
  admin ← session_account i;
  ok ← statement (mark_system_notification_read t admin id);
  refuse (negb ok) (NotFound "notification not found").

Definition mark_all_notifications_read (t : Z) (i : Identity) : M Z :=
  admin ← session_account i;
  statement (mark_all_system_notifications_read t admin).

(** ** One notice per key and half hour *)

Definition notices_keyed (db : NotifyDb) : Prop := map_Forall (fun k n => sn_id n = k) (notices db).

(** Some notice under [key] was created at [t]. *)
Definition noticed (key : string) (t : Z) (db : NotifyDb) : Prop :=
  exists k n, notices db !! k = Some n /\ dedupe_key n = key /\ sn_created_at n = t.

(** What happens to the tables up to a time. *)
Inductive notify_step (until : Z) (db db' : NotifyDb) : Prop :=
| step_alert m a r : now m <= until -> record_alert m a db = (r, db') -> notify_step until db db'
| step_retention t : t <= until -> db' = prune_system_notifications t db -> notify_step until db db'
| step_elsewhere : notices db' = notices db -> notify_step until db db'.

Lemma prune_keyed t db : notices_keyed db -> notices_keyed (prune_notices t db).
Proof. intros H k n. unfold prune_notices. simpl. intros [Hk _]%map_lookup_filter_Some. by apply H. Qed.

Lemma prune_noticed key t cutoff db : cutoff <= t -> noticed key t db -> noticed key t (prune_notices cutoff db).
Proof.
  intros Hc (k & n & Hk & Hd & Ht). exists k, n. split; [|done]. unfold prune_notices. simpl. apply map_lookup_filter_Some.
  split; [done|]. simpl. apply Z.ltb_ge. lia.
Qed.

Lemma recent_under_some t key db n : recent_under t key db = Some n ->
  (exists k, notices db !! k = Some n) /\ dedupe_key n = key /\ t - minutes 30 < sn_created_at n.
Proof.
  unfold recent_under. destruct (sort_by _ _) as [|x l] eqn:E; [done|]. intros [= ->].
  assert (Hin : In n (n :: l)) by by left. rewrite <- E, sort_by_in, filter_In, in_rows in Hin. destruct Hin as [Hk Hn].
  split; [done|]. breflect. destruct Hn as [-> Hn]. done.
Qed.

Lemma recent_under_none t key db k n : recent_under t key db = None -> notices db !! k = Some n -> dedupe_key n = key ->
  sn_created_at n <= t - minutes 30.
Proof.
  unfold recent_under. intros H Hk Hd. destruct (sort_by _ _) as [|x l] eqn:E; [|done]. clear H.
  destruct (Z.ltb_spec (t - minutes 30) (sn_created_at n)) as [Hlt|]; [|done]. exfalso.
  assert (Hin : In n []); [|done]. rewrite <- E, sort_by_in, filter_In, in_rows. split; [eauto|].
  rewrite Hd, String.eqb_refl. by apply Z.ltb_lt.
Qed.

Lemma again_noticed key t u title body n db : notices_keyed db -> (exists k, notices db !! k = Some n) -> noticed key t db ->
  noticed key t (with_notices (<[sn_id n := again u title body n]>) db).
Proof.
  intros Hk [j Hj] (k & x & Hx & Hd & Ht). assert (Hid : sn_id n = j) by by apply Hk in Hj. rewrite Hid.
  destruct (decide (k = j)) as [->|Hne].
  - rewrite Hj in Hx. injection Hx as <-. exists j, (again u title body n). simpl. by rewrite lookup_insert_eq.
  - exists k, x. simpl. by rewrite lookup_insert_ne.
Qed.

Lemma again_keyed u title body n db : notices_keyed db -> notices_keyed (with_notices (<[sn_id n := again u title body n]>) db).
Proof. intros Hk. by apply map_Forall_insert_2. Qed.

(** A recorded alert: a second occurrence, or a notice of its own. *)
Lemma record_alert_cases m a db o db' : record_alert m a db = (o, db') ->
  db' = db /\ o = None \/
  (exists n, recent_under (now m) (alert_key a) db = Some n /\ o = Some None /\
     db' = prune_system_notifications (now m)
             (with_notices (<[sn_id n := again (now m) (bounded (al_title a) 160) (bounded (al_body a) 1024) n]>) db)) \/
  (exists n, recent_under (now m) (alert_key a) db = None /\ o = Some (Some n) /\ notices db !! sn_id n = None /\
     dedupe_key n = alert_key a /\ sn_created_at n = now m /\ occurrence_count n = 1 /\
     db' = prune_system_notifications (now m) (with_notices (<[sn_id n := n]>) db)).
Proof.
  unfold record_alert. destruct (metadata _) as [[sev code] kind]. destruct (records m); [|intros [= <- <-]; by left].
  unfold record_system_notification. destruct (recent_under _ _ _) as [n|] eqn:Er.
  - destruct (_ <? _); [intros [= <- <-]; by left|]. destruct (negb _); [intros [= <- <-]; by left|].
    intros [= <- <-]. right. left. by exists n.
  - destruct (negb _); [intros [= <- <-]; by left|]. destruct (notices db !! fresh m) as [x|] eqn:Ef; [intros [= <- <-]; by left|].
    intros [= <- <-]. right. right. eexists. split_and!; try done.
Qed.

Lemma step_noticed until key t db db' : until - days 90 <= t -> notify_step until db db' -> notices_keyed db ->
  notices_keyed db' /\ (noticed key t db -> noticed key t db').
Proof.
  intros Hu Hs Hk. destruct Hs as [m a r Hm Hr|u Hle ->|He].
  - apply record_alert_cases in Hr as [[-> _]|[(n & Hn & _ & ->)|(n & _ & _ & Hnone & _ & _ & _ & ->)]]; [done| |].
    + apply recent_under_some in Hn as [Hn _]. split; [by apply prune_keyed, again_keyed|].
      intros Ht. apply prune_noticed; [lia|by apply again_noticed].
    + split; [apply prune_keyed; by apply map_Forall_insert_2|]. intros (k & x & Hx & Hd & Ht). apply prune_noticed; [lia|].
      exists k, x. simpl. rewrite lookup_insert_ne by congruence. done.
  - split; [by apply prune_keyed|]. intros Ht. apply prune_noticed; [lia|done].
  - unfold notices_keyed, noticed. by rewrite He.
Qed.

(** Whether an alert goes out, and whether the database recorded it. *)
Definition sends (m : Moment) (a : Alert) (p : Panel) : bool := is_some (alert m a p).1.
Definition recorded (m : Moment) (a : Alert) (p : Panel) : bool := is_some (record_alert m a (pdb p)).1.

(** What happens to a panel up to a moment: its own alerts, what else is done to the
    tables (by requests, the retention loop and other masters), and, where there are
    [restarts], a restart, which forgets what was sent. *)
Inductive panel_step (m2 : Moment) (restarts : bool) (p p' : Panel) : Prop :=
| panel_alert m a : now m <= now m2 -> mono m <= mono m2 -> p' = (alert m a p).2 -> panel_step m2 restarts p p'
| panel_elsewhere : notify_step (now m2) (pdb p) (pdb p') -> seen p' = seen p -> panel_step m2 restarts p p'
| panel_restart : restarts = true -> pdb p' = pdb p -> seen p' = ∅ -> panel_step m2 restarts p p'.

Lemma alert_pdb m a p : pdb (alert m a p).2 = (record_alert m a (pdb p)).2.
Proof. unfold alert. destruct (record_alert _ _ _) as [[[n|]|] db]; [done..|]. by destruct (should_send_fallback _ _ _). Qed.

Lemma alert_seen m a p : seen (alert m a p).2 =
  if recorded m a p then seen p else (should_send_fallback (mono m) (alert_key a) (seen p)).2.
Proof.
  unfold recorded, alert. destruct (record_alert _ _ _) as [[[n|]|] db]; [done..|]. simpl. by destruct (should_send_fallback _ _ _).
Qed.

Lemma alert_sends m a p : sends m a p =
  match (record_alert m a (pdb p)).1 with
  | Some o => is_some o
  | None => (should_send_fallback (mono m) (alert_key a) (seen p)).1
  end.
Proof.
  unfold sends, alert. destruct (record_alert _ _ _) as [[[n|]|] db]; [done..|]. simpl. by destruct (should_send_fallback _ _ _) as [[] ?].
Qed.

Lemma panel_noticed m2 r key t p p' : now m2 - days 90 <= t -> panel_step m2 r p p' ->
  notices_keyed (pdb p) /\ noticed key t (pdb p) -> notices_keyed (pdb p') /\ noticed key t (pdb p').
Proof.
  intros Hu Hs [Hk Hn]. assert (H : notify_step (now m2) (pdb p) (pdb p')).
  { destruct Hs as [m a Hm _ ->|H _|_ H _]; [|done|by apply step_elsewhere; rewrite H].
    rewrite alert_pdb. destruct (record_alert m a (pdb p)) as [o db] eqn:E. by eapply step_alert. }
  destruct (step_noticed _ key t _ _ Hu H Hk). auto.
Qed.

(** The fallback's memory of a key, as long as the key cools down. *)
Lemma fallback_cooling t key key' last s : s !! key = Some last -> t - last < COOLDOWN ->
  (should_send_fallback t key' s).2 !! key = Some last /\ (key' = key -> (should_send_fallback t key' s).1 = false).
Proof.
  intros Hs Ht. unfold should_send_fallback. set (s' := filter _ s).
  assert (Hk : s' !! key = Some last) by (apply map_lookup_filter_Some; split; [done|unfold COOLDOWN in Ht; simpl; lia]).
  destruct (decide (key' = key)) as [->|Hne].
  - rewrite Hk. by apply Z.ltb_lt in Ht as ->.
  - split; [|done]. destruct (s' !! key') as [x|]; [destruct (t - x <? COOLDOWN); [done|]|]; cbn [snd]; (etransitivity; [by apply (lookup_insert_ne (M := gmap string))|done]).
Qed.

Lemma panel_cooling m2 key last p p' : mono m2 < last + COOLDOWN -> panel_step m2 false p p' ->
  seen p !! key = Some last -> seen p' !! key = Some last.
Proof.
  intros Ht Hs Hp. destruct Hs as [m a _ Hm ->|_ ->|H _ _]; [|done|done]. rewrite alert_seen. destruct (recorded m a p); [done|].
  apply fallback_cooling; [done|lia].
Qed.

Lemma rtc_kept {A} (R : A -> A -> Prop) (P : A -> Prop) x y : (forall a b, R a b -> P a -> P b) -> rtc R x y -> P x -> P y.
Proof. intros HR. induction 1; eauto. Qed.

(** What a sent alert leaves behind: its notice, or the fallback's memory of it. *)
Lemma sent_recorded m a p : notices_keyed (pdb p) -> sends m a p = true -> recorded m a p = true ->
  notices_keyed (pdb (alert m a p).2) /\ noticed (alert_key a) (now m) (pdb (alert m a p).2).
Proof.
  intros Hk. rewrite alert_sends, alert_pdb. unfold recorded. destruct (record_alert m a (pdb p)) as [o db] eqn:E.
  apply record_alert_cases in E as [[_ ->]|[(? & _ & -> & _)|(n & _ & -> & _ & Hkey & Ht & _ & ->)]]; [done..|]. intros _ _.
  split; [apply prune_keyed; by apply map_Forall_insert_2|]. apply prune_noticed; [unfold days, minutes; lia|].
  exists (sn_id n), n. simpl. by rewrite lookup_insert_eq.
Qed.

Lemma sent_fallback m a p : sends m a p = true -> recorded m a p = false -> seen (alert m a p).2 !! alert_key a = Some (mono m).
Proof.
  rewrite alert_seen, alert_sends. unfold recorded. destruct (record_alert m a (pdb p)).1; [done|]. intros Hs _. revert Hs. simpl.
  unfold should_send_fallback. destruct (filter _ _ !! _) as [x|]; [destruct (_ <? _); [done|]|]; intros _; apply lookup_insert_eq.
Qed.

(** C25: each of the two ways an alert goes out keeps the cooldown.  Take two alerts
    with the same key that both go out, with anything in between.  When the database
    recorded both, the second comes at least thirty minutes after the first, over
    restarts and whatever else is recorded, pruned and marked read.  When the database
    failed for both, so that the process's own memory decided, and the process was not
    restarted in between, it also comes at least thirty minutes later, by the
    monotonic clock.  So no three alerts with one key go out within thirty minutes of
    one run.  Nothing is claimed of a recorded and an unrecorded alert: these do not
    know of each other. *)
Theorem alert_cooldown restarts m1 a1 p1 m2 a2 p2 : notices_keyed (pdb p1) -> alert_key a2 = alert_key a1 ->
  sends m1 a1 p1 = true -> rtc (panel_step m2 restarts) (alert m1 a1 p1).2 p2 -> sends m2 a2 p2 = true ->
  (recorded m1 a1 p1 = true -> recorded m2 a2 p2 = true -> now m1 + minutes 30 <= now m2) /\
  (recorded m1 a1 p1 = false -> recorded m2 a2 p2 = false -> restarts = false -> mono m1 + minutes 30 <= mono m2).
Proof.
  intros Hk Ekey S1 Hs S2. split.
  - intros R1 R2. destruct (Z.le_gt_cases (now m1 + minutes 30) (now m2)) as [|Hlt]; [done|]. exfalso.
    assert (Hu : now m2 - days 90 <= now m1) by (unfold days, minutes in *; lia).
    destruct (rtc_kept _ _ _ _ (fun x y => panel_noticed m2 restarts (alert_key a1) (now m1) x y Hu) Hs) as [_ (k & x & Hx & Hd & Hc)];
      [by apply sent_recorded|].
    revert S2 R2. rewrite alert_sends. unfold recorded. destruct (record_alert m2 a2 (pdb p2)) as [o db] eqn:E.
    apply record_alert_cases in E as [[_ ->]|[(? & _ & -> & _)|(n' & Hr & _)]]; [done..|]. intros _ _.
    apply (recent_under_none _ _ _ k x) in Hr; [|done|congruence]. lia.
  - intros R1 R2 ->. destruct (Z.le_gt_cases (mono m1 + minutes 30) (mono m2)) as [|Hlt]; [done|]. exfalso.
    assert (Ht : mono m2 < mono m1 + COOLDOWN) by (unfold COOLDOWN, minutes in *; lia).
    assert (Hseen := rtc_kept _ _ _ _ (fun x y => panel_cooling m2 (alert_key a1) (mono m1) x y Ht) Hs (sent_fallback _ _ _ S1 R1)).
    revert S2 R2. rewrite alert_sends. unfold recorded. destruct (record_alert m2 a2 (pdb p2)).1; [done|]. intros S2 _.
    destruct (fallback_cooling (mono m2) (alert_key a1) (alert_key a2) (mono m1) (seen p2) Hseen) as [_ Hf]; [lia|].
    rewrite Hf in S2; done.
Qed.

(** ** Every occurrence is counted *)

(** The occurrences on record under a key, and the alerts recorded under it. *)
Definition occurrences (key : string) (db : NotifyDb) : Z :=
  msum (fun _ n => if String.eqb (dedupe_key n) key then occurrence_count n else 0) (notices db).

Fixpoint recorded_under (key : string) (l : list (Moment * Alert)) (db : NotifyDb) : Z * NotifyDb :=
  match l with
  | [] => (0, db)
  | (m, a) :: l =>
      let (o, db) := record_alert m a db in
      let (c, db) := recorded_under key l db in
      ((if is_some o && String.eqb (alert_key a) key then 1 else 0) + c, db)
  end.

(** Nothing is old enough to be pruned until [until]. *)
Definition recent_only (until : Z) (db : NotifyDb) : Prop :=
  map_Forall (fun _ n => until - days 90 <= sn_created_at n) (notices db).

Lemma prune_recent until t db : t <= until -> recent_only until db -> notices (prune_system_notifications t db) = notices db.
Proof.
  intros Ht Hr. unfold prune_system_notifications, prune_notices. simpl. apply map_filter_id. intros k n Hn. simpl.
  apply Z.ltb_ge. specialize (Hr k n Hn). simpl in Hr. lia.
Qed.

Lemma record_alert_counted key until m a db o db' : now m <= until -> until - days 90 <= now m -> notices_keyed db -> recent_only until db ->
  record_alert m a db = (o, db') ->
  notices_keyed db' /\ recent_only until db' /\
  occurrences key db' = occurrences key db + (if is_some o && String.eqb (alert_key a) key then 1 else 0).
Proof.
  intros Hm Hm' Hk Hr H. unfold notices_keyed, recent_only, occurrences.
  apply record_alert_cases in H as [[-> ->]|[(n & Hn & -> & ->)|(n & _ & -> & Hnone & Hkey & Ht & Hocc & ->)]]; [split_and!; [done..|simpl; lia]| |].
  - apply recent_under_some in Hn as ([k Hn] & Hkey & _). assert (Hid : sn_id n = k) by by apply Hk in Hn. subst k.
    set (n' := again _ _ _ n). assert (Hr' : recent_only until (with_notices (<[sn_id n := n']>) db))
      by (apply map_Forall_insert_2; [exact (Hr _ _ Hn)|done]).
    rewrite (prune_recent until) by done. split_and!; [by apply again_keyed|exact Hr'|]. simpl. rewrite msum_insert, Hn. simpl.
    rewrite Hkey. destruct (String.eqb _ _); lia.
  - assert (Hr' : recent_only until (with_notices (<[sn_id n := n]>) db)) by (apply map_Forall_insert_2; [lia|done]).
    rewrite (prune_recent until) by done. split_and!; [by apply map_Forall_insert_2|exact Hr'|]. simpl.
    rewrite msum_insert_new by done. rewrite Hkey, Hocc. destruct (String.eqb _ _); lia.
Qed.

(** No occurrence is lost.  Over any alerts of ninety days, repeated or new, the
    occurrences on record under a key grow by exactly the alerts that were
    recorded under it, though only the new ones are sent. *)
Theorem occurrences_counted key until l db : notices_keyed db -> recent_only until db ->
  Forall (fun x => until - days 90 <= now x.1 <= until) l ->
  occurrences key (recorded_under key l db).2 = occurrences key db + (recorded_under key l db).1.
Proof.
  revert db. induction l as [|[m a] l IH]; intros db Hk Hr Ht; simpl; [lia|]. apply Forall_cons in Ht as [Hm Ht]. simpl in Hm.
  destruct (record_alert m a db) as [o db1] eqn:E.
  destruct (record_alert_counted key until m a db o db1) as (Hk1 & Hr1 & Ho); [lia..|done|done|done|].
  specialize (IH db1 Hk1 Hr1 Ht). destruct (recorded_under key l db1) as [c db2]. simpl in *. lia.
Qed.

(** ** Reads are private *)

Lemma marks_for_other t a l b id : b <> a -> marks_for t a l !! (b, id) = None.
Proof.
  intros Hb. apply not_elem_of_list_to_map_1. rewrite <- list_fmap_compose. rewrite list_elem_of_fmap.
  intros (n & E & _). simpl in E. congruence.
Qed.

Lemma marks_for_own t a l n : In n l -> is_Some (marks_for t a l !! (a, sn_id n)).
Proof.
  unfold marks_for. induction l as [|x l IH]; [done|]. intros [->|Hin]; simpl; [rewrite lookup_insert_eq; by eexists|].
  destruct (decide ((a, sn_id x) = (a, sn_id n))) as [->|Hne]; [rewrite lookup_insert_eq; by eexists|].
  rewrite lookup_insert_ne by done. by apply IH.
Qed.

Lemma count_split (p : SystemNotification -> bool) (m : gmap Uuid SystemNotification) k n : m !! k = Some n ->
  length (List.filter p (rows m)) = ((if p n then 1 else 0) + length (List.filter p (rows (delete k m))))%nat.
Proof. intros Hk. rewrite (filter_perm p _ _ (rows_delete m k n Hk)). simpl. by destruct (p n). Qed.

(** What one administrator marks changes nothing for the others. *)
Definition private (a : Uuid) (db db' : NotifyDb) : Prop :=
  notices db' = notices db /\
  forall b, b <> Some a ->
    (count_unread_system_notifications b db' = count_unread_system_notifications b db) /\
    (forall sev event unread limit,
       list_system_notifications b sev event unread limit db' = list_system_notifications b sev event unread limit db).

Lemma private_reads a db db' : notices db' = notices db -> (forall b id, b <> a -> reads db' !! (b, id) = reads db !! (b, id)) -> private a db db'.
Proof.
  intros Hn Hr. split; [done|]. intros b Hb.
  assert (E : forall n, read_at b n db' = read_at b n db) by (intros n; destruct b as [b|]; [|done]; simpl; apply Hr; congruence).
  split.
  - unfold count_unread_system_notifications. rewrite Hn. do 2 f_equal. apply filter_ext. intros n. by rewrite E.
  - intros sev event unread limit. unfold list_system_notifications, matching_notices. rewrite Hn. do 2 f_equal.
    rewrite (filter_ext _ (fun n => map_or sev true (String.eqb (severity n)) && map_or event true (String.eqb (event_type n))
      && (negb unread || negb (is_some (read_at b n db))))) by (intros n; by rewrite E).
    apply list_fmap_ext. intros i n _. by rewrite E.
Qed.

(** Reading is private and complete.  Marking one notice or all of them changes
    no one else's unread count or listing.  Marking all answers with the number
    of notices that were unread, after which none is; marking one takes exactly
    one off the count when it was unread. *)
Theorem reads_private_and_complete t i a s s' : admin_id i = Some a -> notices_keyed (store s) ->
  (forall n, mark_all_notifications_read t i s = (Ok n, s') ->
     private a (store s) (store s') /\ n = count_unread_system_notifications (Some a) (store s) /\
     count_unread_system_notifications (Some a) (store s') = 0) /\
  (forall id, mark_notification_read t i id s = (Ok tt, s') ->
     private a (store s) (store s') /\
     count_unread_system_notifications (Some a) (store s') =
       count_unread_system_notifications (Some a) (store s) - (if is_some (reads (store s) !! (a, id)) then 0 else 1)).
Proof.
  intros Hi Hk. split.
  - intros n H. unfold mark_all_notifications_read, session_account in H. rewrite Hi in H.
    apply bind_ok in H as (a' & s1 & [Ha ->]%found_ok & H). injection Ha as <-. apply statement_ok in H as [H _].
    unfold mark_all_system_notifications_read in H. destruct (_ && _); [done|]. injection H as <- <-. split_and!; [|done|].
    + apply private_reads; [done|]. intros b id Hb. simpl. rewrite lookup_union, marks_for_other by done. by destruct (reads _ !! _).
    + unfold count_unread_system_notifications. rewrite list_nil_filter; [done|]. intros n Hn. simpl.
      rewrite lookup_union. destruct (marks_for_own t a (rows (notices (store s))) n Hn) as [x ->]. by destruct (reads _ !! _).
  - intros id H. unfold mark_notification_read, session_account in H. rewrite Hi in H.
    apply bind_ok in H as (a' & s1 & [Ha ->]%found_ok & H). injection Ha as <-.
    apply bind_ok in H as (b & s2 & [Hs _]%statement_ok & [Hb ->]%refuse_ok).
    unfold mark_system_notification_read in Hs. destruct (notices (store s) !! id) as [n|] eqn:En; [|by injection Hs as <- _].
    case_bool_decide; [|done]. injection Hs as _ Hs. rewrite <- Hs. split.
    + apply private_reads; [done|]. intros b' id' Hb'. simpl. rewrite lookup_insert_ne by congruence. done.
    + assert (Hid : sn_id n = id) by by apply Hk in En. unfold count_unread_system_notifications. simpl.
      rewrite !(count_split _ _ id n En). rewrite Hid, lookup_insert_eq. simpl.
      rewrite (filter_ext_in _ (fun x => negb (is_some (reads (store s) !! (a, sn_id x))))); [destruct (is_some _); simpl; lia|].
      intros x [k Hx]%in_rows. apply lookup_delete_Some in Hx as [Hne Hx].
      assert (sn_id x = k) as -> by by apply Hk in Hx. rewrite lookup_insert_ne by congruence. done.
Qed.

(** Three kinds of channel cannot be created.  The handler accepts email, sms and
    alertmanager channels and [send] knows how to reach them, but the table only
    admits the four kinds of its first migration, so every such request fails
    on the constraint. *)
Theorem channel_kind_unstorable id t input (s : Handler.St NotifyDb) :
  In (trim (nc_kind input)) ["email"; "sms"; "alertmanager"] -> is_empty (trim (nc_name input)) = false ->
  is_empty (trim (nc_target input)) = false ->
  create_channel id t input s = (Err (ApiDb CheckViolation), s).
Proof.
  intros Hk Hn Ht. destruct s as [db tr]. unfold create_channel, mbind, M_bind, refuse, statement, create_notify_channel. simpl. rewrite Hn, Ht.
  destruct Hk as [<-|[<-|[<-|[]]]]; reflexivity.
Qed.

(** ** Witnesses *)

Definition quiet : NotifyDb := mkNotify ∅ ∅ ∅ {[1; 2]}.
Definition moment (id t : Z) : Moment := mkMoment id t t true true.
Definition node_down : Alert := mkAlert "node_down" "node_down:1" "node a is down" "no heartbeat" "1".
Definition once_down : NotifyDb := (record_alert (moment 7 0) node_down quiet).2.

Lemma quiet_keyed : notices_keyed quiet.
Proof. apply map_Forall_empty. Qed.

Definition later : Z := minutes 31.
(** A moment at which the database does not answer. *)
Definition outage (t : Z) : Moment := mkMoment 9 t t false false.
Definition fresh_panel : Panel := mkPanel quiet ∅.

Lemma alert_cooldown_witness :
  sends (moment 9 (minutes 29)) node_down (alert (moment 7 0) node_down fresh_panel).2 = false /\
  sends (outage (minutes 29)) node_down (alert (outage 0) node_down fresh_panel).2 = false /\
  0 + minutes 30 <= later /\ 0 + minutes 30 <= later.
Proof.
  split; [vm_compute; reflexivity|]. split; [vm_compute; reflexivity|]. split.
  - refine (proj1 (alert_cooldown true (moment 7 0) node_down fresh_panel (moment 8 later) node_down
      (mkPanel (pdb (alert (moment 7 0) node_down fresh_panel).2) ∅) quiet_keyed eq_refl _ _ _) _ _);
      [vm_compute; reflexivity| |vm_compute; reflexivity..].
    apply rtc_once. by apply panel_restart.
  - refine (proj2 (alert_cooldown false (outage 0) node_down fresh_panel (outage later) node_down (alert (outage 0) node_down fresh_panel).2
      quiet_keyed eq_refl _ _ _) _ _ _); [vm_compute; reflexivity|apply rtc_refl|vm_compute; reflexivity..].
Defined.

(** A recorded alert goes out again a minute later when its second occurrence cannot
    be recorded: the fallback was never told of the first. *)
Example fallback_repeats : sends (moment 7 0) node_down fresh_panel = true /\
  sends (outage (minutes 1)) node_down (alert (moment 7 0) node_down fresh_panel).2 = true.
Proof. split; vm_compute; reflexivity. Qed.

Definition flapping : list (Moment * Alert) := [(moment 7 0, node_down); (moment 8 5, node_down); (moment 9 later, node_down)].

Lemma occurrences_counted_witness : occurrences "node_down:1" (recorded_under "node_down:1" flapping quiet).2 = 3.
Proof.
  rewrite (occurrences_counted "node_down:1" later flapping quiet quiet_keyed).
  - vm_compute. reflexivity.
  - apply map_Forall_empty.
  - repeat constructor; vm_compute; discriminate.
Defined.

Definition reader : Identity := mkIdentity (Some 1) "ola" "owner" None None.
Definition after_reading : result Z api_error * Handler.St NotifyDb := mark_all_notifications_read 9 reader (mkSt once_down []).

Lemma once_down_keyed : notices_keyed once_down.
Proof. exact (bool_decide_unpack (map_Forall (fun k n => sn_id n = k) (notices once_down)) I). Qed.

Lemma reads_private_and_complete_witness :
  count_unread_system_notifications (Some 1) once_down = 1 /\
  count_unread_system_notifications (Some 1) (store after_reading.2) = 0.
Proof.
  split; [vm_compute; reflexivity|].
  destruct (reads_private_and_complete 9 reader 1 (mkSt once_down []) after_reading.2 eq_refl once_down_keyed) as [H _].
  destruct (H 1) as (_ & _ & H0); [|exact H0]. unfold after_reading. vm_compute. reflexivity.
Defined.

Lemma channel_kind_unstorable_witness :
  create_channel 5 0 (mkNewChannel "ops" "email" "resend|k|a|b" []) (mkSt quiet []) = (Err (ApiDb CheckViolation), mkSt quiet []).
Proof. apply channel_kind_unstorable; [left; reflexivity|reflexivity..]. Defined.
