(* ===== verification/Monitor.v ===== *)
(** * Background monitors (src/master/src/monitor.rs and their queries in
    src/master/src/db/repo.rs)

    Four loops of the leading instance: traffic spikes, uptime samples, device
    limits and configuration drift.  Agents answer as the environment picks, and
    an agent that fails to answer loses its channel.  The order in which a hash
    map is walked, the printing of the hour and of uuids, the collation, the
    cipher and the spec's digest are parameters. *)

From S2P Require Import Prelude Strings Json Models Db Api Traffic Settings Access Wg Documents Spec Notify.

(** The tables, the settings, the samples, the registry and the notifications. *)
Record Sample := mkSample { sm_node : Uuid; sm_online : bool; sampled_at : Z }.

Record Watch := mkWatch {
  plane : Plane;
  tuning : gmap string string;
  samples : list Sample;
  conns : gset Uuid;
  panel : Panel }.

Definition with_panel (p : Panel) (w : Watch) : Watch := mkWatch (plane w) (tuning w) (samples w) (conns w) p.
Definition with_samples (l : list Sample) (w : Watch) : Watch := mkWatch (plane w) (tuning w) l (conns w) (panel w).
Definition with_conns (c : gset Uuid) (w : Watch) : Watch := mkWatch (plane w) (tuning w) (samples w) c (panel w).
Definition with_peers (l : list WgPeer.WgPeer) (w : Watch) : Watch :=
  mkWatch (mkPlane (tables (plane w)) (wg_interfaces (plane w)) l (node_services (plane w))) (tuning w) (samples w) (conns w) (panel w).

Definition tuned (key : string) (fallback : Z) (w : Watch) : Z := setting_i64 (Ok (tuning w !! key)) fallback.

(** What a loop sends: the alert, with what went out for it. *)
Definition raise_alert (m : Moment) (a : Alert) (w : Watch) : Watch := with_panel (alert m a (panel w)).2 w.

(** ** Text *)

Definition monitor_units : list string := ["B"; "KB"; "MB"; "GB"; "TB"].

Definition human_bytes (value : Z) : string :=
  let n := f64_of_i64 (Z.max value 0) in
  let '(index, den) := unit_index 5 n 1 0 in
  let unit_ := nth index monitor_units "" in
  if (index =? 0)%nat then show n +:+ " " +:+ unit_ else one_decimal n den +:+ " " +:+ unit_.

Definition human_hours (hours : Z) : string :=
  if Z.rem hours 24 =? 0 then show (Z.quot hours 24) +:+ "-day" else show hours +:+ "-hour".

(** The quotient of two positive doubles: [n / d] with [d] a power of two. *)
Definition f64_div (a b : Z) : Z * Z :=
  let e := Z.log2 a - Z.log2 b in
  let e := if b * 2 ^ Z.max e 0 <=? a * 2 ^ Z.max (- e) 0 then e else e - 1 in
  let s := 52 - e in
  let num := a * 2 ^ Z.max s 0 in
  let den := b * 2 ^ Z.max (- s) 0 in
  let q := num / den in
  let r := num mod den in
  let q := if (den <? 2 * r) || ((2 * r =? den) && Z.odd q) then q + 1 else q in
  (q * 2 ^ Z.max (- s) 0, 2 ^ Z.max s 0).

Definition ratio_text (last_bytes baseline : Z) : string :=
  if 0 <? baseline then
    if 0 <? last_bytes then let '(n, d) := f64_div (f64_of_i64 last_bytes) (f64_of_i64 baseline) in one_decimal n d else "0.0"
  else "0.0".

(** ** Traffic spikes *)

Record TrafficAnomaly := mkAnomaly {
  an_user : Uuid;
  an_username : string;
  last_bytes : Z;
  baseline_bytes : Z }.

(** The bytes of a user in one hour. *)
Definition hour_bytes (bucket user : Z) (db : Db) : Z :=
  msum (fun (k : bucket_key) b => if (k.1 =? bucket) && (k.2.1.2 =? user) then b_up_bytes b + b_down_bytes b else 0)
    (traffic_usage_hourly db).
Definition active_in (bucket user : Z) (db : Db) : bool :=
  existsb (fun kb : bucket_key * Bucket => (kb.1.1 =? bucket) && (kb.1.2.1.2 =? user)) (map_to_list (traffic_usage_hourly db)).

(** The hours of the window in which the user has a row: GROUP BY bucket. *)
Definition window_hours (t baseline_hours user : Z) (db : Db) : list Z :=
  let inside b := (hour_bucket t - baseline_hours * hour <=? b) && (b <? hour_bucket (t - hour)) in
  elements (list_to_set (C := gset Z)
    ((fun kb : bucket_key * Bucket => kb.1.1) <$>
       List.filter (fun kb : bucket_key * Bucket => (kb.1.2.1.2 =? user) && inside kb.1.1) (map_to_list (traffic_usage_hourly db)))).
Definition history_of (t baseline_hours user : Z) (db : Db) : list Z :=
  (fun b => hour_bytes b user db) <$> window_hours t baseline_hours user db.

(** [avg(bytes)::bigint]: rounded, halves away from zero. *)
Definition avg_bigint (l : list Z) : Z :=
  let n := Z.of_nat (length l) in if n =? 0 then 0 else (2 * sumZ l + n) / (2 * n).

Definition is_anomaly (t factor_pct min_bytes baseline_hours min_history user : Z) (db : Db) : bool :=
  let recent := hour_bucket (t - hour) in
  let hist := history_of t baseline_hours user db in
  let bytes := hour_bytes recent user db in
  active_in recent user db && negb (Z.of_nat (length hist) =? 0) && (min_history <=? Z.of_nat (length hist))
  && (0 <? avg_bigint hist) && (min_bytes <=? bytes) && (avg_bigint hist * factor_pct <=? bytes * 100).

(** The sums are bigints. *)
Definition sums_fit (t baseline_hours user : Z) (db : Db) : bool :=
  forallb (fun v => v <=? i64_max) (hour_bytes (hour_bucket (t - hour)) user db :: history_of t baseline_hours user db).

Definition detect_traffic_anomalies (t factor_pct min_bytes baseline_hours min_history : Z) (db : Db)
    : result (list TrafficAnomaly) db_error :=
  bail NumericOutOfRange when negb (forallb (fun u => sums_fit t baseline_hours (User.id u) db) (rows (users db))) in
  Ok (take 200 (sort_by (fun a b => last_bytes b <=? last_bytes a)
    ((fun u => mkAnomaly (User.id u) (User.username u) (hour_bytes (hour_bucket (t - hour)) (User.id u) db)
                 (avg_bigint (history_of t baseline_hours (User.id u) db)))
       <$> List.filter (fun u => is_anomaly t factor_pct min_bytes baseline_hours min_history (User.id u) db) (rows (users db))))).

(** [format!] with the signs of a chart and of a multiplication. *)
Definition chart_sign : string := bytes_of [240; 159; 147; 136].
Definition dash_sign : string := bytes_of [226; 128; 148].
Definition times_sign : string := bytes_of [195; 151].

Section Loops.
Context (hour_text : Z -> string) (uuid_str : Uuid -> string).

Definition anomaly_alert (t baseline_hours : Z) (a : TrafficAnomaly) : Alert :=
  mkAlert "traffic_anomaly" ("traffic_anomaly:" +:+ uuid_str (an_user a) +:+ ":" +:+ hour_text t)
    (chart_sign +:+ " honey: traffic spike " +:+ dash_sign +:+ " " +:+ an_username a)
    (an_username a +:+ " used " +:+ human_bytes (last_bytes a) +:+ " in the last hour ("
     +:+ ratio_text (last_bytes a) (baseline_bytes a) +:+ times_sign +:+ " its " +:+ human_hours baseline_hours
     +:+ " baseline of " +:+ human_bytes (baseline_bytes a) +:+ ")")
    (uuid_str (an_user a)).

(** The moments of the alerts of one tick, by position. *)
Fixpoint raise_all (at_ : nat -> Moment) (k : nat) (l : list Alert) (w : Watch) : Watch :=
  match l with [] => w | a :: l => raise_all at_ (S k) l (raise_alert (at_ k) a w) end.

Definition anomaly_tick (t : Z) (at_ : nat -> Moment) (w : Watch) : result unit db_error * Watch :=
  if tuned "anomaly_enabled" 1 w =? 0 then (Ok tt, w)
  else
    let factor_pct := clamp 150 100000 (tuned "anomaly_factor_pct" 500 w) in
    let min_mib := Z.max (tuned "anomaly_min_mib" 5120 w) 0 in
    let baseline_hours := clamp 6 720 (tuned "anomaly_baseline_hours" 72 w) in
    let min_history := clamp 1 240 (tuned "anomaly_min_history_hours" 6 w) in
    let min_bytes := Z.min (min_mib * (1024 * 1024)) i64_max in
    match detect_traffic_anomalies t factor_pct min_bytes baseline_hours min_history (tables (plane w)) with
    | Err e => (Err e, w)
    | Ok l => (Ok tt, raise_all at_ 0 (anomaly_alert t baseline_hours <$> l) w)
    end.

(** ** Uptime samples *)

Definition sample_node_status (t : Z) (w : Watch) : Watch :=
  with_samples (samples w ++
    ((fun n => mkSample (Node.id n) (is_some_and (Node.last_seen n) (fun s => t - minutes 2 <? s)) t)
       <$> List.filter (fun n => Node.enabled n && negb (Node.maintenance n)) (rows (nodes (tables (plane w)))))) w.

Definition prune_node_status_samples (t keep_days : Z) (w : Watch) : Watch :=
  with_samples (List.filter (fun s => negb (sampled_at s <? t - days (Z.max keep_days 1))) (samples w)) w.

Definition STATUS_KEEP_DAYS : Z := 7.

(** One tick; the counter wraps at 64 bits, and a query may fail. *)
Definition sample_tick (is_leader samples_ok prunes_ok : bool) (t ticks : Z) (w : Watch) : Z * Watch :=
  if is_leader then
    let w := if samples_ok then sample_node_status t w else w in
    let ticks := (ticks + 1) mod 2 ^ 64 in
    (ticks, if (ticks mod 60 =? 0) && prunes_ok then prune_node_status_samples t STATUS_KEEP_DAYS w else w)
  else (ticks, w).

(** Online samples out of all of the last [hours], by node. *)
Record NodeUptime := mkUptime { up_node : Uuid; up_online : Z; up_samples : Z }.
Definition node_uptime (t hours : Z) (w : Watch) : list NodeUptime :=
  let l := List.filter (fun s => t - minutes (60 * Z.max hours 1) <? sampled_at s) (samples w) in
  (fun n => let own := List.filter (fun s => sm_node s =? n) l in
            mkUptime n (Z.of_nat (length (List.filter sm_online own))) (Z.of_nat (length own)))
    <$> elements (list_to_set (C := gset Uuid) (sm_node <$> l)).

Record StatusIncident := mkIncident {
  in_title : string; in_severity : string; in_created_at : Z; in_last_seen_at : Z; in_count : Z }.
Definition recent_incidents (t d limit : Z) (db : NotifyDb) : list StatusIncident :=
  take (Z.to_nat (clamp 1 50 limit))
    ((fun n => mkIncident (sn_title n) (severity n) (sn_created_at n) (sn_last_seen_at n) (occurrence_count n)) <$>
       sort_by (fun a b => sn_created_at b <=? sn_created_at a)
         (List.filter (fun n => one_of ["node_down"; "push_failed"; "cert_expiry"] (event_type n) && (t - days (Z.max d 1) <? sn_created_at n))
            (rows (notices db)))).

(** ** Device limits *)

Definition device_limited_users (db : Db) : list (Uuid * string * Z) :=
  (fun u => (User.id u, User.username u, User.device_limit u))
    <$> List.filter (fun u => (0 <? User.device_limit u) && User.enabled u) (rows (users db)).

(** A connection as an agent reports it, and as the loop keeps it. *)
Record Conn := mkConn { cn_id : string; cn_user : string; cn_source_ip : string; cn_started_at : Z }.
Record ConnRef := mkRef { cr_node : Uuid; cr_id : string; cr_ip : string; cr_started_at : Z }.

(** The walk over the connected nodes; a node that fails is dropped. *)
Fixpoint gather (live : Uuid -> option (list Conn)) (limited : string -> bool) (ids : list Uuid) (w : Watch)
    : list (string * ConnRef) * Watch :=
  match ids with
  | [] => ([], w)
  | n :: ids =>
      match live n with
      | None => gather live limited ids (with_conns (conns w ∖ {[n]}) w)
      | Some l =>
          let (rest, w) := gather live limited ids w in
          (((fun c => (cn_user c, mkRef n (cn_id c) (cn_source_ip c) (cn_started_at c)))
              <$> List.filter (fun c => negb (is_empty (cn_user c)) && negb (is_empty (cn_source_ip c)) && limited (cn_user c)) l)
           ++ rest, w)
      end
  end.

(** The earliest start per address, unknown starts last. *)
Definition started (c : ConnRef) : Z := if 0 <? cr_started_at c then cr_started_at c else i64_max.
Definition ip_first (l : list ConnRef) : gmap string Z :=
  foldl (fun m c => <[cr_ip c := match m !! cr_ip c with Some e => Z.min (started c) e | None => started c end]> m) ∅ l.

(** How the map of addresses is walked. *)
Context (ip_order : gmap string Z -> list (string * Z)).

Definition ranked (l : list ConnRef) : list (string * Z) := sort_by (fun a b => a.2 <=? b.2) (ip_order (ip_first l)).
Definition cut_ips (limit : nat) (l : list ConnRef) : list string := fst <$> drop limit (ranked l).

Definition device_alert (t : Z) (user : string) (user_id : Uuid) (limit cut : nat) (enforce : bool) : Alert :=
  mkAlert "device_limit" ("device_limit:" +:+ uuid_str user_id +:+ ":" +:+ hour_text t)
    (bytes_of [240; 159; 145; 165] +:+ " honey: device limit exceeded " +:+ dash_sign +:+ " " +:+ user)
    (user +:+ " is connected from " +:+ show (Z.of_nat (limit + cut)) +:+ " devices (limit " +:+ show (Z.of_nat limit) +:+ ")"
     +:+ (if enforce then "; closing the newest" else ""))
    (uuid_str user_id).

(** What one user's connections lead to: an alert, and what to close where. *)
Definition judge (t : Z) (enforce : bool) (user : string) (user_id : Uuid) (raw_limit : Z) (l : list ConnRef)
    : option (Alert * list (Uuid * string)) :=
  let limit := Z.to_nat raw_limit in
  if (limit =? 0)%nat || (size (ip_first l) <=? limit)%nat then None
  else
    let cut := cut_ips limit l in
    Some (device_alert t user user_id limit (length cut) enforce,
          if enforce then (fun c => (cr_node c, cr_id c)) <$> List.filter (fun c => existsb (String.eqb (cr_ip c)) cut) l else []).

(** How the map of users is walked. *)
Context (user_order : gset string -> list string).

(** Closing asks each node once; a node that fails is dropped. *)
Definition close_on (closes : Uuid -> bool) (l : list (Uuid * string)) (w : Watch) : Watch :=
  with_conns (filter (fun n => ~ (n ∈ fst <$> l /\ closes n = false)) (conns w)) w.

Fixpoint judge_all (t : Z) (enforce : bool) (closes : Uuid -> bool) (at_ : nat -> Moment) (limits : gmap string (Uuid * Z))
    (per_user : string -> list ConnRef) (k : nat) (names : list string) (w : Watch) : list (Uuid * string) * Watch :=
  match names with
  | [] => ([], w)
  | user :: names =>
      match limits !! user with
      | None => judge_all t enforce closes at_ limits per_user k names w
      | Some (user_id, raw_limit) =>
          match judge t enforce user user_id raw_limit (per_user user) with
          | None => judge_all t enforce closes at_ limits per_user k names w
          | Some (a, closing) =>
              let w := close_on closes closing (raise_alert (at_ k) a w) in
              let (rest, w) := judge_all t enforce closes at_ limits per_user (S k) names w in
              (closing ++ rest, w)
          end
      end
  end.

(** The connections closed, and the state after the tick. *)
Definition device_tick (t : Z) (live : Uuid -> option (list Conn)) (closes : Uuid -> bool) (at_ : nat -> Moment)
    (connected : list Uuid) (w : Watch) : list (Uuid * string) * Watch :=
  let limited := device_limited_users (tables (plane w)) in
  match limited with
  | [] => ([], w)
  | _ =>
      let limits : gmap string (Uuid * Z) := list_to_map (rev ((fun l => (l.1.2, (l.1.1, l.2))) <$> limited)) in
      let enforce := tuned "device_limit_enforce" 0 w =? 1 in
      let (seen_, w) := gather live (fun u => is_some (limits !! u)) connected w in
      let per_user u := snd <$> List.filter (fun x => String.eqb x.1 u) seen_ in
      judge_all t enforce closes at_ limits per_user 0 (user_order (list_to_set (fst <$> seen_))) w
  end.

(** ** Configuration drift *)

Section Drift.
Context (collate : string -> string -> bool) (encrypt decrypt : string -> option string) (to_string : json -> option string).
Context (mint : Uuid -> Uuid -> Uuid * Z * result Keypair wg_error) (spec_hash : Pb.NodeSpec -> string).
Context (from_value : json -> option SpecSummary).

(** What an agent says of a core: which, and whether it drifted. *)
Record CoreDrift := mkDrift { cd_xray : bool; cd_drifted : bool }.

Definition drifted_cores (l : list CoreDrift) : list string :=
  (fun c => if cd_xray c then "xray" else "singbox") <$> List.filter cd_drifted l.

Definition drift_alert (n : Node.Node) (cores : list string) : Alert :=
  mkAlert "config_drift" ("config_drift:" +:+ uuid_str (Node.id n))
    (bytes_of [226; 154; 160; 239; 184; 143] +:+ " honey: config drift on " +:+ Node.name n)
    (Node.name n +:+ ": running config differs from the applied spec (" +:+ String.concat ", " cores +:+ ")")
    (uuid_str (Node.id n)).

(** One connected node. *)
Definition drift_node (t : Z) (answer : Uuid -> Pb.NodeSpec -> option (list CoreDrift)) (m : Moment) (node_id : Uuid) (w : Watch) : Watch :=
  match nodes (tables (plane w)) !! node_id with
  | None => w
  | Some node =>
      let (built, peers) := build_node_spec collate encrypt decrypt uuid_str to_string mint t node_id (plane w) in
      let w := with_peers peers w in
      match built with
      | Err _ => w
      | Ok spec =>
          if changed (preview spec_hash from_value spec (Node.applied_spec_hash node) (Node.applied_spec_summary node)) then w
          else
            match answer node_id spec with
            | None => with_conns (conns w ∖ {[node_id]}) w
            | Some cores =>
                match drifted_cores cores with
                | [] => w
                | drifted => raise_alert m (drift_alert node drifted) w
                end
            end
      end
  end.

Fixpoint drift_tick (t : Z) (answer : Uuid -> Pb.NodeSpec -> option (list CoreDrift)) (at_ : nat -> Moment) (k : nat) (connected : list Uuid)
    (w : Watch) : Watch :=
  match connected with
  | [] => w
  | n :: rest => drift_tick t answer at_ (S k) rest (drift_node t answer (at_ k) n w)
  end.
End Drift.

(** ** Device limits are exact *)

Lemma ip_first_in l ip : (exists c, In c l /\ cr_ip c = ip) -> is_Some (ip_first l !! ip).
Proof.
  induction l as [|c l IH] using rev_ind; [by intros (c & [] & _)|]. intros (x & Hx & Hip). unfold ip_first.
  rewrite foldl_app. simpl. fold (ip_first l). destruct (decide (cr_ip c = ip)) as [->|Hne]; [rewrite lookup_insert_eq; by eexists|].
  rewrite lookup_insert_ne by done. apply IH. exists x. split; [|done]. apply in_app_or in Hx as [|[<-|[]]]; [done|by destruct Hne].
Qed.

(** The first start of an address. *)
Lemma ip_first_some l ip e : ip_first l !! ip = Some e ->
  (exists c, In c l /\ cr_ip c = ip /\ started c = e) /\ forall c, In c l -> cr_ip c = ip -> e <= started c.
Proof.
  revert e. induction l as [|c l IH] using rev_ind; intros e; [done|]. unfold ip_first. rewrite foldl_app. simpl. fold (ip_first l).
  destruct (decide (cr_ip c = ip)) as [Hc|Hne].
  - rewrite Hc, lookup_insert_eq. intros [= <-]. destruct (ip_first l !! ip) as [e0|] eqn:E.
    + destruct (IH e0 eq_refl) as [(c0 & Hin & Hc0 & Hs) Hmin]. split.
      * destruct (Z.min_spec (started c) e0) as [[_ ->]|[_ ->]].
        -- exists c. split; [apply in_or_app; right; by left|done].
        -- exists c0. split; [apply in_or_app; by left|done].
      * intros x [Hx|[<-|[]]]%in_app_or Hip; [|lia]. specialize (Hmin x Hx Hip). lia.
    + split; [exists c; split; [apply in_or_app; right; by left|done]|].
      intros x [Hx|[<-|[]]]%in_app_or Hip; [|lia]. exfalso. clear - E Hx Hip.
      assert (is_Some (ip_first l !! ip)) as [? ?]; [|congruence]. apply ip_first_in. by exists x.
  - rewrite lookup_insert_ne by done. intros He. destruct (IH e He) as [(c0 & Hin & Hc0 & Hs) Hmin]. split.
    + exists c0. split; [apply in_or_app; by left|done].
    + intros x [Hx|[<-|[]]]%in_app_or Hip; [by apply Hmin|done].
Qed.

(** A map is walked in some order, each entry once. *)
Hypothesis ip_order_law : forall m, ip_order m ≡ₚ map_to_list m.

Lemma ranked_keys l ip : ip ∈ fst <$> ranked l <-> exists c, In c l /\ cr_ip c = ip.
Proof.
  unfold ranked. rewrite sort_by_perm, ip_order_law. split.
  - rewrite list_elem_of_fmap. intros ([k e] & -> & Hin%elem_of_map_to_list). apply ip_first_some in Hin as [(c & Hc & Hip & _) _]. eauto.
  - intros [e He]%ip_first_in. rewrite list_elem_of_fmap. exists (ip, e). split; [done|]. by apply elem_of_map_to_list.
Qed.

Lemma ranked_nodup l : NoDup (fst <$> ranked l).
Proof. unfold ranked. rewrite sort_by_perm, ip_order_law. apply NoDup_fst_map_to_list. Qed.

Lemma ranked_length l : length (ranked l) = size (ip_first l).
Proof. unfold ranked. rewrite sort_by_perm, ip_order_law. apply length_map_to_list. Qed.

Lemma ranked_sorted l n a b : In a (take n (ranked l)) -> In b (drop n (ranked l)) -> a.2 <= b.2.
Proof.
  intros Ha Hb. assert (Hs : StronglySorted (fun a b => (a.2 <=? b.2) = true) (ranked l)).
  { apply sort_by_sorted; [intros x y Hxy; breflect; lia|intros x y z Hxy Hyz; breflect; lia]. }
  rewrite <- (take_drop n (ranked l)) in Hs. clear - Ha Hb Hs.
  induction (take n (ranked l)) as [|x t IH]; [done|]. simpl in Hs. inversion Hs as [|? ? Hs' Hx]. subst.
  destruct Ha as [->|Ha]; [|by apply IH]. rewrite Forall_forall in Hx. apply Z.leb_le, Hx.
  apply list_elem_of_In, in_or_app. by right.
Qed.

(** The addresses a user is connected from. *)
Definition addresses (l : list ConnRef) : list string := remove_dups (cr_ip <$> l).

Lemma addresses_ranked l ip : ip ∈ fst <$> ranked l <-> ip ∈ addresses l.
Proof.
  unfold addresses. rewrite elem_of_remove_dups, ranked_keys, list_elem_of_fmap. setoid_rewrite list_elem_of_In.
  split; intros (c & H1 & H2); eauto.
Qed.

Lemma addresses_size l : length (addresses l) = size (ip_first l).
Proof.
  assert (Hp : addresses l ≡ₚ fst <$> ranked l).
  { apply NoDup_Permutation; [apply NoDup_remove_dups|apply ranked_nodup|]. intros ip. by rewrite addresses_ranked. }
  by rewrite Hp, length_fmap, ranked_length.
Qed.

(** The addresses that are kept have a connection no younger than any that is cut. *)
Lemma kept_older n l ip c' : ip ∈ fst <$> take n (ranked l) -> In c' l -> cr_ip c' ∈ cut_ips n l ->
  exists c, In c l /\ cr_ip c = ip /\ started c <= started c'.
Proof.
  intros Hk Hc' Hcut. rewrite list_elem_of_fmap in Hk. destruct Hk as ([ip' e] & -> & Hk%list_elem_of_In).
  unfold cut_ips in Hcut. rewrite list_elem_of_fmap in Hcut. destruct Hcut as ([ip2 e2] & Hip2 & Hcut%list_elem_of_In). simpl in *.
  assert (Hle := ranked_sorted l n _ _ Hk Hcut). simpl in Hle.
  assert (Hin : forall x, In x (ranked l) -> ip_first l !! x.1 = Some x.2).
  { intros [k v] Hx. simpl. unfold ranked in Hx. rewrite sort_by_in in Hx. apply list_elem_of_In in Hx. rewrite ip_order_law in Hx.
    by apply elem_of_map_to_list. }
  assert (He : ip_first l !! ip' = Some e) by (apply (Hin (ip', e)); rewrite <- (take_drop n (ranked l)); apply in_or_app; by left).
  assert (He2 : ip_first l !! ip2 = Some e2) by (apply (Hin (ip2, e2)); rewrite <- (take_drop n (ranked l)); apply in_or_app; by right).
  apply ip_first_some in He as [(c & Hc & Hip & Hs) _]. apply ip_first_some in He2 as [_ Hmin].
  exists c. split_and!; [done..|]. specialize (Hmin c' Hc' Hip2). lia.
Qed.

(** C24: The device limit cuts exactly the newest devices.  A user's connections lead to
    nothing exactly when the limit is not positive or the user is connected from no
    more addresses than it.  Otherwise an alert is raised, and the user's addresses
    fall into as many as the limit allows, which are kept, and the others, which are
    cut: with enforcement on, all connections from a cut address are closed and none
    from a kept one, every kept address having a connection that started no later than
    any connection from a cut one; with enforcement off nothing is closed. *)
Theorem device_limit_exact t enforce user user_id raw_limit l :
  (judge t enforce user user_id raw_limit l = None <-> raw_limit <= 0 \/ Z.of_nat (length (addresses l)) <= raw_limit) /\
  (forall a closing, judge t enforce user user_id raw_limit l = Some (a, closing) -> exists kept cut : list string,
     NoDup (kept ++ cut) /\ (forall ip, ip ∈ kept ++ cut <-> ip ∈ addresses l) /\
     Z.of_nat (length kept) = raw_limit /\ cut <> [] /\
     closing = (if enforce then (fun c => (cr_node c, cr_id c)) <$> List.filter (fun c => existsb (String.eqb (cr_ip c)) cut) l else []) /\
     (forall ip c', ip ∈ kept -> In c' l -> cr_ip c' ∈ cut -> exists c, In c l /\ cr_ip c = ip /\ started c <= started c')).
Proof.
  rewrite addresses_size. unfold judge. destruct (Nat.eqb_spec (Z.to_nat raw_limit) 0) as [H0|H0]; [split; [split; [left; lia|done]|done]|]. simpl.
  destruct (Nat.leb_spec (size (ip_first l)) (Z.to_nat raw_limit)) as [Hle|Hlt]; [split; [split; [right; lia|done]|done]|].
  split; [split; [done|lia]|]. intros a closing [= _ <-]. set (n := Z.to_nat raw_limit) in *.
  exists (fst <$> take n (ranked l)), (cut_ips n l). unfold cut_ips at 1 2 3. rewrite <- fmap_app, take_drop. split_and!.
  - apply ranked_nodup.
  - apply addresses_ranked.
  - rewrite length_fmap, length_take, ranked_length. lia.
  - intros E. apply (f_equal length) in E. rewrite length_fmap, length_drop, ranked_length in E. simpl in E. lia.
  - done.
  - intros ip c'. apply kept_older.
Qed.
End Loops.

(** ** Uptime is what was seen *)

(** The fleet as it is at a tick: a node that is gone takes its samples along. *)
Definition at_tick (m : gmap Uuid Node.Node) (w : Watch) : Watch :=
  mkWatch (mkPlane (with_nodes (fun _ => m) (tables (plane w))) (wg_interfaces (plane w)) (wg_peers (plane w)) (node_services (plane w)))
    (tuning w) (List.filter (fun s => is_some (m !! sm_node s)) (samples w)) (conns w) (panel w).

Fixpoint sampler (l : list (Z * gmap Uuid Node.Node)) (ticks : Z) (w : Watch) : Z * Watch :=
  match l with
  | [] => (ticks, w)
  | (t, m) :: l => let (ticks, w) := sample_tick true true true t ticks (at_tick m w) in sampler l ticks w
  end.

(** What a tick sees of a node, and whether it is up. *)
Definition sighting (n : Uuid) (tm : Z * gmap Uuid Node.Node) : list Sample :=
  match tm.2 !! n with
  | Some x => if Node.enabled x && negb (Node.maintenance x)
              then [mkSample n (is_some_and (Node.last_seen x) (fun s => tm.1 - minutes 2 <? s)) tm.1] else []
  | None => []
  end.
Definition sightings (n from : Z) (l : list (Z * gmap Uuid Node.Node)) : list Sample :=
  List.filter (fun s => from <? sampled_at s) (flat_map (sighting n) l).

Definition nodes_keyed (m : gmap Uuid Node.Node) : Prop := map_Forall (fun k n => Node.id n = k) m.

Lemma rows_other (p : Node.Node -> bool) m n : nodes_keyed m -> m !! n = None ->
  List.filter (fun x => Node.id x =? n) (List.filter p (rows m)) = [].
Proof.
  intros Hk Hn. apply list_nil_filter. intros x Hx. apply filter_In in Hx as [Hx _]. apply in_rows in Hx as [j Hj].
  apply Z.eqb_neq. intros E. apply Hk in Hj as Hid. simpl in Hid. congruence.
Qed.

Lemma row_of (p : Node.Node -> bool) m n : nodes_keyed m ->
  List.filter (fun x => Node.id x =? n) (List.filter p (rows m)) ≡ₚ match m !! n with Some x => if p x then [x] else [] | None => [] end.
Proof.
  intros Hk. destruct (m !! n) as [x|] eqn:E; [|by rewrite rows_other].
  assert (Hid : Node.id x = n) by by apply Hk in E. rewrite (filter_perm _ _ _ (filter_perm p _ _ (rows_delete m n x E))). simpl.
  assert (Hd : nodes_keyed (delete n m)) by by apply map_Forall_delete.
  destruct (p x); simpl; rewrite ?Hid, ?Z.eqb_refl, (rows_other _ _ _ Hd) by apply lookup_delete_eq; done.
Qed.

(** The samples of a node since [from]. *)
Definition own (n from : Z) (w : Watch) : list Sample :=
  List.filter (fun s => (sm_node s =? n) && (from <? sampled_at s)) (samples w).

Lemma own_at_tick n from m w : is_Some (m !! n) -> own n from (at_tick m w) = own n from w.
Proof.
  intros [x Hx]. unfold own. simpl. induction (samples w) as [|s l IH]; [done|]. simpl. destruct (is_some (m !! sm_node s)) eqn:E.
  - simpl. rewrite IH. done.
  - rewrite IH. destruct (Z.eqb_spec (sm_node s) n) as [Hs|]; [by rewrite Hs, Hx in E|done].
Qed.

Lemma own_sampled n from t w : nodes_keyed (nodes (tables (plane w))) ->
  own n from (sample_node_status t w) ≡ₚ own n from w ++ List.filter (fun s => from <? sampled_at s) (sighting n (t, nodes (tables (plane w)))).
Proof.
  intros Hk. unfold own, sample_node_status. simpl. rewrite List.filter_app. apply Permutation_app_head.
  set (mk := fun x => mkSample (Node.id x) (is_some_and (Node.last_seen x) (fun s => t - minutes 2 <? s)) t).
  set (p := fun x => Node.enabled x && negb (Node.maintenance x)).
  assert (forall l, List.filter (fun s => (sm_node s =? n) && (from <? sampled_at s)) (mk <$> l) =
    if from <? t then mk <$> List.filter (fun x => Node.id x =? n) l else []) as ->.
  { intros l. induction l as [|x l IH]; [by destruct (from <? t)|]. rewrite fmap_cons. cbn [List.filter]. rewrite IH. simpl.
    by destruct (Node.id x =? n), (from <? t). }
  unfold sighting. simpl. pose proof (row_of p _ n Hk) as Hrow. destruct (from <? t) eqn:Ef.
  - rewrite Hrow. destruct (nodes (tables (plane w)) !! n) as [x|] eqn:Ex; [|done]. unfold p. destruct (_ && _); [|done]. simpl. rewrite Ef.
    unfold mk. assert (Node.id x = n) as -> by by apply Hk in Ex. done.
  - destruct (nodes (tables (plane w)) !! n) as [x|]; [|done]. destruct (_ && _); [|done]. simpl. by rewrite Ef.
Qed.

Lemma own_pruned n from t keep w : t - days (Z.max keep 1) <= from -> own n from (prune_node_status_samples t keep w) = own n from w.
Proof.
  intros Ht. unfold own. simpl. induction (samples w) as [|s l IH]; [done|]. simpl.
  destruct (Z.ltb_spec (sampled_at s) (t - days (Z.max keep 1))) as [Hlt|]; simpl; rewrite IH; [|done].
  replace (from <? sampled_at s) with false by (symmetry; apply Z.ltb_ge; lia). by rewrite andb_false_r.
Qed.

Lemma sampler_sightings n from until l : until - days 7 <= from -> forall ticks w,
  Forall (fun tm => tm.1 <= until /\ nodes_keyed tm.2 /\ is_Some (tm.2 !! n)) l ->
  own n from (sampler l ticks w).2 ≡ₚ own n from w ++ sightings n from l.
Proof.
  intros Hu. induction l as [|[t m] l IH]; intros ticks w Hl; simpl; [unfold sightings; simpl; by rewrite app_nil_r|].
  apply Forall_cons in Hl as [(Ht & Hk & Hn) Hl]. simpl in *. rewrite IH by done. unfold sightings. simpl.
  rewrite List.filter_app, app_assoc. apply Permutation_app_tail.
  assert (own n from (sample_node_status t (at_tick m w)) ≡ₚ own n from w ++ List.filter (fun s => from <? sampled_at s) (sighting n (t, m))) as E.
  { rewrite own_sampled by done. by rewrite own_at_tick. }
  destruct (_ && true); [|exact E]. rewrite own_pruned; [exact E|]. unfold STATUS_KEEP_DAYS, days, minutes in *. lia.
Qed.

Lemma own_window n from w : List.filter (fun s => sm_node s =? n) (List.filter (fun s => from <? sampled_at s) (samples w)) = own n from w.
Proof.
  unfold own. induction (samples w) as [|s l IH]; [done|]. simpl. destruct (from <? sampled_at s); simpl; rewrite IH.
  - by rewrite andb_true_r.
  - by rewrite andb_false_r.
Qed.

(** The uptime shown is the uptime seen.  Over any ticks of the sampler, the
    fleet changing as it will between them, the uptime of a node over the last
    one to 168 hours counts exactly the ticks of that window at which the node
    was enabled and not in maintenance, and as online those at which it had been
    seen within two minutes; a node with no such tick has no entry.  Pruning
    takes nothing of it away. *)
Theorem uptime_faithful n hours until l w u : samples w = [] -> 1 <= hours <= 168 ->
  Forall (fun tm => tm.1 <= until /\ nodes_keyed tm.2 /\ is_Some (tm.2 !! n)) l ->
  let seen_ := sightings n (until - minutes (60 * hours)) l in
  In u (node_uptime until hours (sampler l 0 w).2) /\ up_node u = n <->
  seen_ <> [] /\ u = mkUptime n (Z.of_nat (length (List.filter sm_online seen_))) (Z.of_nat (length seen_)).
Proof.
  intros Hw Hh Hl seen_. assert (Hp : own n (until - minutes (60 * hours)) (sampler l 0 w).2 ≡ₚ seen_).
  { rewrite (sampler_sightings _ _ until); [|unfold days, minutes; lia|done]. unfold own at 1. by rewrite Hw. }
  unfold node_uptime. rewrite Z.max_l by lia. set (from := until - minutes (60 * hours)) in *. rewrite <- list_elem_of_In, list_elem_of_fmap. split.
  - intros [(k & -> & Hk) Hn]. simpl in Hn. subst k. rewrite own_window. split.
    + rewrite elem_of_elements, elem_of_list_to_set, list_elem_of_fmap in Hk. destruct Hk as (s & -> & Hs%list_elem_of_In).
      intros E. rewrite E in Hp. symmetry in Hp. apply Permutation_nil in Hp. apply filter_In in Hs as [Hs Hf].
      assert (Hin : In s (own (sm_node s) from (sampler l 0 w).2)) by (unfold own; apply filter_In; by rewrite Z.eqb_refl). by rewrite Hp in Hin.
    + by rewrite (filter_perm _ _ _ Hp), Hp.
  - intros [Hne ->]. split; [|done]. exists n. split; [by rewrite own_window, (filter_perm _ _ _ Hp), Hp|].
    rewrite elem_of_elements, elem_of_list_to_set, list_elem_of_fmap. destruct seen_ as [|s r]; [done|].
    assert (Hin : In s (own n from (sampler l 0 w).2)) by (eapply Permutation_in; [symmetry; exact Hp|by left]).
    unfold own in Hin. apply filter_In in Hin as [Hin Hs]. breflect. destruct Hs as [Hs Hf]. exists s. split; [done|].
    apply list_elem_of_In, filter_In. split; [done|]. by apply Z.ltb_lt.
Qed.

(** Steady traffic raises nothing.  Whatever the settings, when no user's last
    hour exceeds the user's average active hour of the window, a tick of the
    anomaly scan leaves everything as it was. *)
Theorem steady_traffic_raises_nothing hour_text uuid_str t at_ w :
  (forall u, In u (rows (users (tables (plane w)))) ->
     hour_bytes (hour_bucket (t - hour)) (User.id u) (tables (plane w))
     <= avg_bigint (history_of t (clamp 6 720 (tuned "anomaly_baseline_hours" 72 w)) (User.id u) (tables (plane w)))) ->
  (anomaly_tick hour_text uuid_str t at_ w).2 = w.
Proof.
  intros Hs. unfold anomaly_tick. destruct (_ =? 0); [done|]. unfold detect_traffic_anomalies. destruct (negb _); [done|].
  rewrite list_nil_filter; [done|]. intros u Hu. apply not_true_iff_false. unfold is_anomaly. intros H.
  specialize (Hs u Hu). breflect. unfold clamp in *. nia.
Qed.

(** ** Witnesses *)

Definition sharing : list ConnRef := [mkRef 1 "a" "198.51.100.1" 50; mkRef 2 "b" "198.51.100.2" 0; mkRef 1 "c" "198.51.100.3" 10; mkRef 2 "d" "198.51.100.1" 70].

Lemma device_limit_exact_witness :
  (match judge show show map_to_list 0 true "eve" 8 2 sharing with Some (_, closing) => closing | None => [] end) = [(2, "b")] /\
  (exists kept cut : list string, Z.of_nat (length kept) = 2 /\ cut <> []) /\
  judge show show map_to_list 0 true "eve" 8 0 sharing = None /\ judge show show map_to_list 0 true "eve" 8 3 sharing = None.
Proof.
  assert (H := fun limit => device_limit_exact show show map_to_list (fun m => reflexivity (map_to_list m)) 0 true "eve" 8 limit sharing).
  split; [vm_compute; reflexivity|]. split_and!.
  - destruct (judge show show map_to_list 0 true "eve" 8 2 sharing) as [[a closing]|] eqn:E; [|vm_compute in E; discriminate].
    destruct (proj2 (H 2) a closing E) as (kept & cut & _ & _ & Hk & Hc & _). exists kept, cut. split; [exact Hk|exact Hc].
  - apply (H 0). left. lia.
  - apply (H 3). right. vm_compute. discriminate.
Defined.

Definition watching : Watch := mkWatch (mkPlane empty_db [] [] []) ∅ [] ∅ (mkPanel quiet ∅).
Definition seen_node (t : Z) : Node.Node :=
  Node.mk 1 "a" "h" "h" 8443 "serve" [] [] true false (Some t) None None None None None None None None None 0 0 0.
Definition two_ticks : list (Z * gmap Uuid Node.Node) := [(minutes 5, {[1 := seen_node (minutes 4)]}); (minutes 8, {[1 := seen_node (minutes 4)]})].

Lemma uptime_faithful_witness : In (mkUptime 1 1 2) (node_uptime (minutes 9) 24 (sampler two_ticks 0 watching).2).
Proof.
  refine (proj1 (proj2 (uptime_faithful 1 24 (minutes 9) two_ticks watching (mkUptime 1 1 2) eq_refl _ _) _)).
  - lia.
  - repeat constructor; try (vm_compute; discriminate); try (by apply map_Forall_singleton); by eexists.
  - split; [vm_compute; discriminate|vm_compute; reflexivity].
Defined.

(** A user with the same traffic in each of three hours. *)
Definition steady : Watch :=
  mkWatch (mkPlane (mkDb ∅ ∅ {[7 := sample_user 7 "alice" 0 0]} ∅ ∅ ∅ ∅
    (<[(2 * hour, (1, 7, "singbox")) := mkBucket 5 5 1]> (<[(hour, (1, 7, "singbox")) := mkBucket 5 5 1]> {[(0, (1, 7, "singbox")) := mkBucket 5 5 1]})))
    [] [] []) {["anomaly_min_mib" := "0"]} [] ∅ (mkPanel quiet ∅).

Lemma steady_traffic_raises_nothing_witness : (anomaly_tick show show (3 * hour) (fun _ => moment 1 0) steady).2 = steady.
Proof.
  apply steady_traffic_raises_nothing. intros u [<-|[]]. vm_compute. discriminate.
Defined.
