(* ===== verification/StatusPage.v ===== *)
(** * Announcements, branding and the public status page (their handlers in
    src/master/src/api/mod.rs and queries in src/master/src/db/repo.rs)

    The printing of an uptime as a percentage and of a date are parameters; a
    query of the page that fails counts as empty, which its arguments say. *)

From S2P Require Import Prelude Strings Json Models Db Api Handler Auth Spec SubPage Fleet Notify Monitor.

(** ** Rows *)

Record Branding := mkBranding {
  brand_name : string;
  logo_url : string;
  accent_color : string;
  support_url : string;
  support_text : string;
  footer_text : string;
  sub_welcome : string;
  sub_show_imports : bool;
  sub_show_downloads : bool;
  sub_show_endpoints : bool }.
Definition seeded_branding : Branding := mkBranding "honey" "" "" "" "" "" "" true true true.

Record UpdateBranding := mkUpdateBranding {
  ub_brand_name : option string;
  ub_logo_url : option string;
  ub_accent_color : option string;
  ub_support_url : option string;
  ub_support_text : option string;
  ub_footer_text : option string;
  ub_sub_welcome : option string;
  ub_sub_show_imports : option bool;
  ub_sub_show_downloads : option bool;
  ub_sub_show_endpoints : option bool }.

Record Announcement := mkAnnouncement {
  ann_id : Uuid;
  ann_title : string;
  ann_body : string;
  ann_level : string;
  ann_enabled : bool;
  ann_created_by : option Uuid;
  ann_created_at : Z;
  ann_updated_at : Z }.

Record NewAnnouncement := mkNewAnnouncement { na_title : string; na_body : string; na_level : string; na_enabled : bool }.
Record UpdateAnnouncement := mkUpdateAnnouncement {
  ua_title : option string;
  ua_body : option string;
  ua_level : option string;
  ua_enabled : option bool }.

(** The singleton row may be missing. *)
Record Site := mkSite { brand : option Branding; news : gmap Uuid Announcement; operators : gset Uuid }.
Definition with_brand b (s : Site) : Site := mkSite (Some b) (news s) (operators s).
Definition with_news g (s : Site) : Site := mkSite (brand s) (g (news s)) (operators s).

#[local] Abbreviation M := (Handler.M Site).

(** ** Queries *)

Definition get_branding (s : Site) : result Branding db_error * Site :=
  match brand s with Some b => (Ok b, s) | None => (Ok seeded_branding, with_brand seeded_branding s) end.

Definition branding_updated (u : UpdateBranding) (b : Branding) : Branding :=
  let text o old := default old (trim <$> o) in
  mkBranding (text (ub_brand_name u) (brand_name b)) (text (ub_logo_url u) (logo_url b)) (text (ub_accent_color u) (accent_color b))
    (text (ub_support_url u) (support_url b)) (text (ub_support_text u) (support_text b)) (text (ub_footer_text u) (footer_text b))
    (text (ub_sub_welcome u) (sub_welcome b)) (default (sub_show_imports b) (ub_sub_show_imports u))
    (default (sub_show_downloads b) (ub_sub_show_downloads u)) (default (sub_show_endpoints b) (ub_sub_show_endpoints u)).

(** [fetch_one]: no row is an error. *)
Definition update_branding (u : UpdateBranding) (s : Site) : result Branding db_error * Site :=
  match brand s with
  | None => (Err RowNotFound, s)
  | Some b => let b := branding_updated u b in (Ok b, with_brand b s)
  end.

Definition valid_level (level : string) : bool := one_of ["info"; "warning"; "critical"] level.

Definition insert_announcement (id now : Z) (input : NewAnnouncement) (by_ : option Uuid) (s : Site)
    : result Announcement db_error * Site :=
  let a := mkAnnouncement id (trim (na_title input)) (trim (na_body input)) (na_level input) (na_enabled input) by_ now now in
  if negb (valid_level (ann_level a)) then (Err CheckViolation, s)
  else if is_some (news s !! id) then (Err UniqueViolation, s)
  else if negb (map_or by_ true (fun x => bool_decide (x ∈ operators s))) then (Err ForeignKeyViolation, s)
  else (Ok a, with_news (<[id := a]>) s).

Definition announcements_listed (s : Site) : list Announcement :=
  take 100 (sort_by (fun a b => ann_created_at b <=? ann_created_at a) (rows (news s))).

Definition active_announcement (s : Site) : option Announcement :=
  head (sort_by (fun a b => ann_created_at b <=? ann_created_at a) (List.filter ann_enabled (rows (news s)))).

Definition announcement_updated (now : Z) (u : UpdateAnnouncement) (a : Announcement) : Announcement :=
  mkAnnouncement (ann_id a) (default (ann_title a) (trim <$> ua_title u)) (default (ann_body a) (trim <$> ua_body u))
    (default (ann_level a) (ua_level u)) (default (ann_enabled a) (ua_enabled u)) (ann_created_by a) (ann_created_at a) now.

Definition alter_announcement (now id : Z) (u : UpdateAnnouncement) (s : Site) : result (option Announcement) db_error * Site :=
  match news s !! id with
  | None => (Ok None, s)
  | Some a =>
      let a := announcement_updated now u a in
      if negb (valid_level (ann_level a)) then (Err CheckViolation, s) else (Ok (Some a), with_news (<[id := a]>) s)
  end.

Definition remove_announcement (id : Uuid) (s : Site) : result bool db_error * Site :=
  (Ok (is_some (news s !! id)), with_news (delete id) s).

(** ** Handlers *)

Definition announcement_missing : api_error := NotFound "announcement not found".

Definition list_announcements : M (list Announcement) := query announcements_listed.

Definition create_announcement (id now : Z) (i : Identity) (input : NewAnnouncement) : M Announcement :=
  _ ← refuse (is_empty (trim (na_title input)) || (200 <? Z.of_nat (String.length (na_title input))))
        (BadRequest "title is required (max 200 chars)");
  _ ← refuse (negb (valid_level (na_level input))) (BadRequest "level must be info/warning/critical");
  a ← statement (insert_announcement id now input (admin_id i));
  _ ← audit "create" "announcement" (ann_id a) (obj [("title", JString (ann_title a))]);
  mret a.

Definition update_announcement (id now : Z) (input : UpdateAnnouncement) : M Announcement :=
  _ ← refuse (is_some_and (ua_level input) (fun l => negb (valid_level l))) (BadRequest "level must be info/warning/critical");
  o ← statement (alter_announcement now id input);
  a ← found o announcement_missing;
  _ ← audit "update" "announcement" id (obj []);
  mret a.

Definition delete_announcement (id : Uuid) : M unit :=
  gone ← statement (remove_announcement id);
  _ ← refuse (negb gone) announcement_missing;
  audit "delete" "announcement" id (obj []).

Definition public_announcement (s : Site) : json :=
  match active_announcement s with
  | Some a => obj [("title", JString (ann_title a)); ("body", JString (ann_body a)); ("level", JString (ann_level a))]
  | None => JNull
  end.

Definition public_branding : M Branding := statement get_branding.

Definition safe_url (url : string) : bool :=
  is_empty url || starts_with "https://" url || starts_with "http://" url || starts_with "/" url.

Definition valid_color (color : string) : bool :=
  is_empty color || ((String.length color =? 7)%nat && starts_with "#" color && all_bytes is_hexdigit (drop_bytes 1 color)).

Definition update_branding_setting (input : UpdateBranding) : M Branding :=
  _ ← refuse (is_some_and (ub_accent_color input) (fun c => negb (valid_color (trim c))))
        (BadRequest "accent_color must be a #rrggbb hex value");
  _ ← refuse (is_some_and (ub_logo_url input) (fun u => negb (safe_url (trim u)))) (BadRequest "urls must be http(s) or a / path");
  _ ← refuse (is_some_and (ub_support_url input) (fun u => negb (safe_url (trim u)))) (BadRequest "urls must be http(s) or a / path");
  b ← statement (update_branding input);
  _ ← emit (AuditEvent "update" "branding" None (obj []));
  mret b.

(** ** The status page *)

Definition STYLE : string :=
  "body{margin:0;background:#080808;color:#f5f5f5;font-family:system-ui,-apple-system,sans-serif;display:flex;min-height:100vh;align-items:center;justify-content:center}"
  +:+ ".card{width:min(92vw,520px);padding:34px;border:1px solid #292929;border-radius:14px;background:#0d0d0d}"
  +:+ "h1{font-size:19px;margin:0 0 4px}.sub{color:#a2a2a2;font-size:13px;margin-bottom:22px}"
  +:+ ".big{display:flex;align-items:center;gap:12px;font-size:22px;font-weight:650;margin-bottom:20px}"
  +:+ ".dot{width:13px;height:13px;border-radius:50%}.ok .dot,.dot.ok{background:#42c98a}.warn .dot,.dot.warn{background:#e2b84b}.bad .dot,.dot.bad{background:#e56b6b}"
  +:+ ".row{display:flex;justify-content:space-between;align-items:center;padding:11px 0;border-top:1px solid #1c1c1c;font-size:14px}"
  +:+ ".muted{color:#a2a2a2}.note{margin:0 0 18px;padding:12px 14px;border-radius:9px;border:1px solid #333;background:#141414}"
  +:+ ".note.warning{border-color:#7a6318}.note.critical{border-color:#7a2b2b}.note b{display:block;font-size:13px}.note p{margin:6px 0 0;color:#cfcfcf;font-size:12px}"
  +:+ ".nodecell{display:flex;align-items:center;gap:9px}.nodecell .dot{width:9px;height:9px}"
  +:+ ".row .muted{display:flex;align-items:center;gap:10px;font-size:12px}.row .muted b{font-weight:600}"
  +:+ "b.ok{color:#42c98a}b.warn{color:#e2b84b}b.bad{color:#e56b6b}"
  +:+ ".sect{margin:22px 0 2px;color:#7f7f7f;font-size:11px;text-transform:uppercase;letter-spacing:.08em}".

Definition dot (cls : string) : string := "<span " +:+ attr "class" ("dot " +:+ cls) +:+ "></span>".
Definition row_open : string := "<div " +:+ attr "class" "row" +:+ "><span " +:+ attr "class" "nodecell" +:+ ">".

Section Page.
Context (percent : Z -> Z -> string) (stamp : Z -> string).

Definition is_online (now : Z) (n : Node.Node) : bool := is_some_and (Node.last_seen n) (fun seen => now - minutes 2 <? seen).

Definition fleet_state (now : Z) (enabled : list Node.Node) : string * string :=
  let online := length (List.filter (is_online now) enabled) in
  let total := length enabled in
  if (total =? 0)%nat then ("warn", "no nodes")
  else if (online =? total)%nat then ("ok", "operational")
  else if (online =? 0)%nat then ("bad", "major outage")
  else ("warn", "degraded").

Definition node_row (now : Z) (uptime : list NodeUptime) (n : Node.Node) : string :=
  let '(cls, word) :=
    if Node.maintenance n then ("warn", "maintenance")
    else if is_online now n then ("ok", "operational") else ("bad", "offline") in
  let up := match List.find (fun u => up_node u =? Node.id n) uptime with
            | Some u => percent (up_online u) (up_samples u) +:+ "%"
            | None => "—"
            end in
  row_open +:+ dot cls +:+ escape (Node.name n) +:+ "</span><span " +:+ attr "class" "muted" +:+ ">" +:+ up
  +:+ "<b " +:+ attr "class" cls +:+ ">" +:+ word +:+ "</b></span></div>".

Definition incident_row (i : StatusIncident) : string :=
  let sev := if String.eqb (in_severity i) "critical" then "bad"
             else if String.eqb (in_severity i) "warning" then "warn" else "muted" in
  let repeats := if 1 <? in_count i then " ×" +:+ show (in_count i) else "" in
  row_open +:+ dot sev +:+ escape (in_title i) +:+ repeats +:+ "</span><span " +:+ attr "class" "muted" +:+ ">"
  +:+ stamp (in_last_seen_at i) +:+ "</span></div>".

Definition incident_html (l : list StatusIncident) : string :=
  match l with
  | [] => ""
  | _ => "<div " +:+ attr "class" "sect" +:+ ">Recent incidents (7d)</div>" +:+ String.concat "" (incident_row <$> l)
  end.

Definition banner (o : option Announcement) : string :=
  match o with
  | Some a =>
      "<div " +:+ attr "class" ("note " +:+ escape (ann_level a)) +:+ "><b>" +:+ escape (ann_title a) +:+ "</b>"
      +:+ (if is_empty (ann_body a) then "" else "<p>" +:+ escape (ann_body a) +:+ "</p>") +:+ "</div>"
  | None => ""
  end.

(** What the five queries of the page returned; [None] is a query that failed. *)
Record Readings := mkReadings {
  rd_brand : option Branding;
  rd_nodes : option (list Node.Node);
  rd_uptime : option (list NodeUptime);
  rd_incidents : option (list StatusIncident);
  rd_announcement : option (option Announcement) }.

Definition enabled_nodes (r : Readings) : list Node.Node := List.filter Node.enabled (default [] (rd_nodes r)).
Definition shown_incidents (r : Readings) : list StatusIncident := default [] (rd_incidents r).
Definition shown_announcement (r : Readings) : option Announcement := default None (rd_announcement r).

Definition status_html (now : Z) (r : Readings) : string :=
  let brand := escape (map_or (rd_brand r) "honey" brand_name) in
  let enabled := enabled_nodes r in
  let online := length (List.filter (is_online now) enabled) in
  let '(state_class, state_word) := fleet_state now enabled in
  "<!doctype html><html " +:+ attr "lang" "en" +:+ "><head><meta " +:+ attr "charset" "utf-8" +:+ ">"
  +:+ "<meta " +:+ attr "name" "viewport" +:+ " " +:+ attr "content" "width=device-width,initial-scale=1" +:+ ">"
  +:+ "<title>" +:+ brand +:+ " status</title><style>" +:+ STYLE
  +:+ "</style></head><body><div " +:+ attr "class" "card" +:+ ">"
  +:+ "<h1>" +:+ brand +:+ " status</h1><div " +:+ attr "class" "sub" +:+ ">public availability of this deployment</div>"
  +:+ banner (shown_announcement r)
  +:+ "<div " +:+ attr "class" ("big " +:+ state_class) +:+ ">" +:+ dot state_class +:+ state_word +:+ "</div>"
  +:+ "<div " +:+ attr "class" "row" +:+ "><span " +:+ attr "class" "muted" +:+ ">Nodes online</span><b>"
  +:+ show (Z.of_nat online) +:+ " / " +:+ show (Z.of_nat (length enabled)) +:+ "</b></div>"
  +:+ String.concat "" (node_row now (default [] (rd_uptime r)) <$> enabled)
  +:+ incident_html (shown_incidents r)
  +:+ "</div></body></html>".

(** The handler, over the tables of the site and of the watched fleet; [up] says which queries the database answers. *)
Definition readings (up : nat -> bool) (now : Z) (w : Watch) (s : Site) : Readings :=
  let ask {A} k (a : A) : option A := if up k then Some a else None in
  mkReadings (ask 0%nat (default seeded_branding (brand s))) (ask 1%nat (list_nodes (tables (plane w)))) (ask 2%nat (node_uptime now 24 w))
    (ask 3%nat (recent_incidents now 7 10 (pdb (panel w)))) (ask 4%nat (active_announcement s)).

Definition status_page (up : nat -> bool) (now : Z) (w : Watch) (s : Site) : (Z * list (string * string) * string) * Site :=
  (html_response (status_html now (readings up now w s)), if up 0%nat then snd (get_branding s) else s).
End Page.

(** ** The markup of the page *)

Section Markup.
Context (percent : Z -> Z -> string) (stamp : Z -> string).
Hypothesis percent_plain : forall a b, skeleton (percent a b) = "".
Hypothesis stamp_plain : forall t, skeleton (stamp t) = "".

Lemma skeleton_attr name value : skeleton name = "" -> skeleton value = "" -> skeleton (attr name value) = dq +:+ dq.
Proof. intros Hn Hv. unfold attr. rewrite !skeleton_app, Hn, Hv. reflexivity. Qed.

Lemma skeleton_big c : skeleton c = "" -> skeleton (attr "class" ("big " +:+ c)) = dq +:+ dq.
Proof. intros H. apply skeleton_attr; [reflexivity|]. rewrite skeleton_app, H. reflexivity. Qed.

Lemma skeleton_dot cls cls' : skeleton cls = "" -> skeleton cls' = "" -> skeleton (dot cls) = skeleton (dot cls').
Proof. intros H H'. unfold dot. rewrite !skeleton_app, !skeleton_attr; rewrite ?skeleton_app, ?H, ?H'; done. Qed.

Lemma fleet_state_plain now l : skeleton (fst (fleet_state now l)) = "" /\ skeleton (snd (fleet_state now l)) = "".
Proof. unfold fleet_state. by repeat destruct (_ =? _)%nat. Qed.

(** The markup bytes of one row, of either list. *)
Definition node_marks : string := skeleton (row_open +:+ dot "" +:+ "</span><span " +:+ attr "class" "" +:+ "><b " +:+ attr "class" "" +:+ "></b></span></div>").
Definition incident_marks : string := skeleton (row_open +:+ dot "" +:+ "</span><span " +:+ attr "class" "" +:+ "></span></div>").

Lemma node_row_marks now up n : skeleton (node_row percent now up n) = node_marks.
Proof.
  unfold node_row. destruct (if Node.maintenance n then _ else _) as [cls word] eqn:E.
  assert (skeleton cls = "" /\ skeleton word = "") as [Hc Hw] by (destruct (Node.maintenance n), (is_online now n); by simplify_eq).
  unfold node_marks. rewrite !skeleton_app, Hw, skeleton_escape, !skeleton_attr, (skeleton_dot cls "") by done.
  destruct (List.find _ _) as [u|]; [rewrite skeleton_app, percent_plain|]; reflexivity.
Qed.

Lemma incident_row_marks i : skeleton (incident_row stamp i) = incident_marks.
Proof.
  unfold incident_row, incident_marks. set (sev := if String.eqb _ _ then _ else _).
  assert (Hs : skeleton sev = "") by (unfold sev; by repeat destruct (String.eqb _ _)). clearbody sev.
  rewrite !skeleton_app, skeleton_escape, stamp_plain, !skeleton_attr, (skeleton_dot sev "") by done.
  destruct (1 <? in_count i); [rewrite skeleton_app, skeleton_show|]; reflexivity.
Qed.

Lemma skeleton_concat {A} (f : A -> string) m l :
  (forall x, skeleton (f x) = m) -> skeleton (String.concat "" (f <$> l)) = String.concat "" (repeat m (length l)).
Proof.
  intros Hf. induction l as [|x [|y l] IH]; [done|apply Hf|].
  change (f <$> x :: y :: l) with (f x :: f y :: (f <$> l)). cbn [String.concat length repeat].
  rewrite !skeleton_app, Hf. f_equal. exact IH.
Qed.

Lemma banner_marks o o' :
  (fun a => is_empty (ann_body a)) <$> o = (fun a => is_empty (ann_body a)) <$> o' -> skeleton (banner o) = skeleton (banner o').
Proof.
  intros H. destruct o as [a|], o' as [a'|]; simpl in H; [|discriminate H..|reflexivity]. injection H as H.
  unfold banner. rewrite !skeleton_app, !skeleton_attr by (done || by rewrite skeleton_app, skeleton_escape).
  rewrite H, !skeleton_escape. destruct (is_empty (ann_body a')); rewrite ?skeleton_app, ?skeleton_escape; reflexivity.
Qed.

Lemma incident_html_marks l l' : length l = length l' -> skeleton (incident_html stamp l) = skeleton (incident_html stamp l').
Proof.
  intros H. destruct l as [|i l], l' as [|i' l']; [reflexivity|discriminate H..|]. unfold incident_html.
  rewrite !skeleton_app, !(skeleton_concat _ incident_marks), H by apply incident_row_marks. reflexivity.
Qed.

(** C34: No text an operator or an event puts on the public status page adds
    markup to it: two readings with the same number of enabled nodes and of
    incidents, and banners alike in having a body, give pages whose markup
    bytes are the same, whatever the brand, the names, the titles, the bodies,
    the levels and the severities are. *)
Theorem status_page_markup_fixed now now' r r' :
  length (enabled_nodes r) = length (enabled_nodes r') ->
  length (shown_incidents r) = length (shown_incidents r') ->
  (fun a => is_empty (ann_body a)) <$> shown_announcement r = (fun a => is_empty (ann_body a)) <$> shown_announcement r' ->
  skeleton (status_html percent stamp now r) = skeleton (status_html percent stamp now' r').
Proof.
  intros Hn Hi Ha. unfold status_html.
  destruct (fleet_state now (enabled_nodes r)) as [c w] eqn:E. destruct (fleet_state now' (enabled_nodes r')) as [c' w'] eqn:E'.
  destruct (fleet_state_plain now (enabled_nodes r)) as [Hc Hw]. destruct (fleet_state_plain now' (enabled_nodes r')) as [Hc' Hw'].
  rewrite E in Hc, Hw. rewrite E' in Hc', Hw'. cbn [fst snd] in *.
  rewrite !skeleton_app, !(skeleton_concat _ node_marks), !skeleton_escape, !skeleton_show, Hw, Hw' by apply node_row_marks.
  rewrite (skeleton_dot c c'), (banner_marks _ _ Ha), (incident_html_marks _ _ Hi), Hn by done.
  rewrite !skeleton_big by assumption. reflexivity.
Qed.
End Markup.

(** ** What the operators store *)

Definition branding_safe (b : Branding) : bool := valid_color (accent_color b) && safe_url (logo_url b) && safe_url (support_url b).

Definition site_ok (s : Site) : Prop :=
  (forall b, brand s = Some b -> branding_safe b = true) /\
  (forall id a, news s !! id = Some a -> ann_id a = id /\ valid_level (ann_level a) = true).

Inductive site_request :=
| BrandRead
| BrandUpdate (u : UpdateBranding)
| Announce (id now : Z) (i : Identity) (a : NewAnnouncement)
| Reannounce (id now : Z) (u : UpdateAnnouncement)
| Withdraw (id : Uuid).

Definition serve (q : site_request) (s : St Site) : St Site :=
  match q with
  | BrandRead => snd (public_branding s)
  | BrandUpdate u => snd (update_branding_setting u s)
  | Announce id now i a => snd (create_announcement id now i a s)
  | Reannounce id now u => snd (update_announcement id now u s)
  | Withdraw id => snd (delete_announcement id s)
  end.

(** What the handlers keep of a site. *)
Definition site_kept (s s' : Site) : Prop := site_ok s -> site_ok s'.

#[export] Instance site_kept_pre : PreOrder site_kept.
Proof. split; unfold site_kept; [intros s|intros s t u]; auto. Qed.

Lemma get_branding_kept s : site_kept s (get_branding s).2.
Proof.
  intros Hs. unfold get_branding. destruct (brand s) eqn:E; [exact Hs|]. split; [|apply Hs]. intros b [= <-]. reflexivity.
Qed.

Lemma announcement_put_kept id a s : ann_id a = id -> valid_level (ann_level a) = true -> site_kept s (with_news (<[id := a]>) s).
Proof.
  intros Hi Ha [Hb Hn]. split; [exact Hb|]. intros k x. cbn [news with_news].
  destruct (decide (k = id)) as [->|Hk]; [rewrite lookup_insert_eq; by intros [= <-]|rewrite lookup_insert_ne by congruence; apply Hn].
Qed.

Lemma insert_announcement_kept id now n by_ s : site_kept s (insert_announcement id now n by_ s).2.
Proof.
  unfold insert_announcement. destruct (valid_level _) eqn:E; simpl negb; [|easy].
  repeat (destruct (negb _) || destruct (is_some _)); try (by intros H). by apply announcement_put_kept.
Qed.

Lemma alter_announcement_kept now id u s : site_kept s (alter_announcement now id u s).2.
Proof.
  intros Hs. unfold alter_announcement. destruct (news s !! id) as [a|] eqn:E; [|easy].
  destruct (valid_level _) eqn:Ev; simpl negb; [|easy]. apply announcement_put_kept; [|exact Ev|exact Hs]. by apply (proj2 Hs) in E as [? _].
Qed.

Lemma remove_announcement_kept id s : site_kept s (remove_announcement id s).2.
Proof. intros [Hb Hn]. split; [exact Hb|]. intros k a. simpl. intros [_ Ha]%lookup_delete_Some. by apply Hn. Qed.

Lemma coalesced_ok (P : string -> bool) o old :
  is_some_and o (fun x => negb (P (trim x))) = false -> P old = true -> P (default old (trim <$> o)) = true.
Proof. destruct o; [|done]. intros H _. by apply negb_false_iff in H. Qed.

(** A branding update that passes the checks of its handler. *)
Lemma update_branding_kept u s :
  is_some_and (ub_accent_color u) (fun c => negb (valid_color (trim c))) = false ->
  is_some_and (ub_logo_url u) (fun l => negb (safe_url (trim l))) = false ->
  is_some_and (ub_support_url u) (fun l => negb (safe_url (trim l))) = false -> site_kept s (update_branding u s).2.
Proof.
  intros Hc Hl Hp Hs. unfold update_branding. destruct (brand s) as [b|] eqn:E; [|easy]. split; [|apply Hs].
  intros x [= <-]. apply (proj1 Hs) in E. unfold branding_safe in *. apply andb_true_iff in E as [[Ec El]%andb_true_iff Ep].
  unfold branding_updated. cbn [accent_color logo_url support_url]. by rewrite !coalesced_ok.
Qed.

(** A guard: past it, its condition is false. *)
Lemma keeps_refuse {A} (R : relation Site) b e (k : unit -> M A) :
  Reflexive R -> (b = false -> Keeps R (k tt)) -> Keeps R (refuse b e ≫= k).
Proof. intros HR Hk s. destruct b; [apply HR|]. by apply Hk. Qed.

Lemma update_branding_setting_kept u : Keeps site_kept (update_branding_setting u).
Proof.
  unfold update_branding_setting. repeat (apply keeps_refuse; [apply _|intros ?]).
  apply keeps_bind; [apply _| |intros b; keeps]. apply keeps_statement. intros s. by apply update_branding_kept.
Qed.

Lemma serve_kept q s : site_kept (store s) (store (serve q s)).
Proof.
  destruct q; simpl; revert s; match goal with |- forall s, site_kept _ (store (?m s).2) => change (Keeps site_kept m) end.
  - apply keeps_statement, get_branding_kept.
  - apply update_branding_setting_kept.
  - unfold create_announcement. keeps. apply keeps_statement. intros ?. apply insert_announcement_kept.
  - unfold update_announcement. keeps. apply keeps_statement, alter_announcement_kept.
  - unfold delete_announcement. keeps. apply keeps_statement, remove_announcement_kept.
Qed.

(** Whatever the operators send, in any order, the stored branding has an
    accent colour that is empty or [#rrggbb] and links that are empty, http(s)
    or start with a slash, so no [javascript:] or [data:] link and no style
    text reaches a page; and each announcement has one of the three levels. *)
Theorem site_stays_safe (l : list site_request) (s : St Site) :
  site_ok (store s) -> site_ok (store (fold_left (fun s q => serve q s) l s)).
Proof. revert s. induction l as [|q l IH]; simpl; [done|]. intros s Hs. by apply IH, serve_kept. Qed.

(** Any other host passes for a same-origin path. *)
Example safe_url_admits_hosts : safe_url "//evil.example/" = true /\ safe_url "javascript:alert(1)" = false.
Proof. by vm_compute. Qed.

(** ** Witnesses *)

Definition quiet_node (name : string) (maintenance : bool) : Node.Node :=
  Node.mk 1 name "h" "h" 8443 "serve" [] [] true maintenance None None None None None None None None None None 0 0 0.

Definition reading (brand name title : string) : Readings :=
  mkReadings (Some (mkBranding brand "" "" "" "" "" "" true true true)) (Some [quiet_node name false]) None
    (Some [mkIncident title "critical" 0 0 3]) (Some (Some (mkAnnouncement 1 title title "info" true None 0 0))).

Lemma status_page_markup_fixed_witness :
  skeleton (status_html (fun _ _ => "99.00") (fun _ => "01 Jan 00:00") 0 (reading "<script>" "</div>" "<b>&"))
  = skeleton (status_html (fun _ _ => "99.00") (fun _ => "01 Jan 00:00") 5 (reading "honey" "fra-1" "node down")).
Proof. apply status_page_markup_fixed; intros; reflexivity. Defined.

Definition new_site : St Site := mkSt (mkSite None ∅ ∅) [].
Definition rebrand : UpdateBranding :=
  mkUpdateBranding (Some "acme") (Some " /logo.svg ") (Some "#00ff7F") None None None None None None None.

Lemma site_stays_safe_witness :
  site_ok (store (fold_left (fun s q => serve q s) [BrandRead; BrandUpdate rebrand] new_site)) /\
  accent_color <$> brand (store (fold_left (fun s q => serve q s) [BrandRead; BrandUpdate rebrand] new_site)) = Some "#00ff7F".
Proof. split; [apply site_stays_safe; split; [discriminate|intros ? ? H; discriminate H]|vm_compute; reflexivity]. Defined.

(** A node under planned maintenance shows as such in its row, and as a major
    outage in the state of the whole. *)
Example maintenance_is_an_outage :
  fleet_state 0 [quiet_node "a" true] = ("bad", "major outage").
Proof. reflexivity. Qed.
