(* ===== verification/Router.v ===== *)
(** * The router (src/master/src/api/mod.rs, [router])

    The three groups of routes with their guards, and what of the API each kind
    of account reaches through them.  The matching of a path against the
    registered patterns and the extraction of path parameters are the web
    framework's: they are parameters with laws. *)

From S2P Require Import Prelude Strings Ip Models Auth.

(** ** The routes *)

Definition public_routes : list (string * list (Method * string)) :=
  [("/", [(GET, "root")]);
   ("/health", [(GET, "health")]);
   ("/ready", [(GET, "ready")]);
   ("/openapi.json", [(GET, "openapi_spec")]);
   ("/announcement", [(GET, "public_announcement")]);
   ("/branding", [(GET, "public_branding")]);
   ("/status", [(GET, "status_page")]);
   ("/auth/login", [(POST, "login")]);
   ("/sub-assets/subscription.css", [(GET, "css")]);
   ("/sub-assets/subscription.js", [(GET, "js")]);
   ("/sub-assets/PretendardVariable.woff2", [(GET, "font")]);
   ("/enroll/:token/claim", [(POST, "claim_enrollment")])].

Definition subscriptions_routes : list (string * list (Method * string)) :=
  [("/sub/:token", [(GET, "subscription_document")]);
   ("/sub/:token/links", [(GET, "subscription_links")]);
   ("/sub/:token/v2ray", [(GET, "subscription_v2ray")]);
   ("/sub/:token/profile/:client", [(GET, "subscription_client_profile")]);
   ("/sub/:token/sing-box", [(GET, "subscription_singbox")]);
   ("/sub/:token/sing-box-tun", [(GET, "subscription_singbox_tun")]);
   ("/sub/:token/clash", [(GET, "subscription_clash")]);
   ("/sub/:token/qr", [(GET, "subscription_qr_all")]);
   ("/sub/:token/qr/:inbound_id", [(GET, "subscription_qr")]);
   ("/sub/:token/speedtest", [(GET, "subscription_speedtest")]);
   ("/sub/:token/services", [(GET, "subscription_services")]);
   ("/sub/:token/wireguard", [(GET, "subscription_wg_list")]);
   ("/sub/:token/wireguard/:iface_id", [(GET, "subscription_wg_config")]);
   ("/sub/:token/wireguard/:iface_id/qr", [(GET, "subscription_wg_qr")]);
   ("/s/:alias", [(GET, "subscription_by_alias")])].

Definition protected_routes : list (string * list (Method * string)) :=
  [("/auth/me", [(GET, "me")]);
   ("/auth/logout", [(POST, "logout")]);
   ("/auth/sessions", [(GET, "list_sessions")]);
   ("/auth/sessions/revoke-others", [(POST, "revoke_other_sessions")]);
   ("/auth/sessions/:id", [(DELETE, "revoke_session")]);
   ("/auth/login-history", [(GET, "list_login_history")]);
   ("/admins", [(GET, "list_admins"); (POST, "create_admin")]);
   ("/admins/:id", [(PATCH, "update_admin")]);
   ("/admins/:id/groups", [(GET, "get_reseller_groups")]);
   ("/api-keys", [(GET, "list_api_keys"); (POST, "create_api_key")]);
   ("/api-keys/:id", [(DELETE, "revoke_api_key")]);
   ("/custom-roles", [(GET, "list_custom_roles"); (POST, "create_custom_role")]);
   ("/custom-roles/:id", [(PATCH, "update_custom_role"); (DELETE, "delete_custom_role")]);
   ("/import/users", [(POST, "import_users")]);
   ("/config/export", [(GET, "config_export")]);
   ("/config/apply", [(POST, "config_apply")]);
   ("/auth/totp", [(GET, "totp_status")]);
   ("/auth/totp/setup", [(POST, "totp_setup")]);
   ("/auth/totp/enable", [(POST, "totp_enable")]);
   ("/auth/totp/disable", [(POST, "totp_disable")]);
   ("/auth/totp/recovery", [(GET, "totp_recovery_status")]);
   ("/auth/totp/recovery/generate", [(POST, "totp_recovery_generate")]);
   ("/admin-ips", [(GET, "list_admin_ips_h"); (POST, "add_admin_ip_h")]);
   ("/admin-ips/:id", [(DELETE, "delete_admin_ip_h")]);
   ("/users/:id/quota-interval", [(PUT, "set_quota_interval")]);
   ("/audit", [(GET, "list_audit")]);
   ("/audit/verify", [(GET, "verify_audit_chain")]);
   ("/analytics/traffic", [(GET, "traffic_analytics")]);
   ("/analytics/traffic.csv", [(GET, "traffic_analytics_csv")]);
   ("/reports/period", [(GET, "period_report")]);
   ("/analytics/geo", [(GET, "geo_distribution")]);
   ("/ha", [(GET, "ha_status")]);
   ("/update", [(GET, "update_check")]);
   ("/update/apply", [(POST, "update_apply")]);
   ("/settings", [(GET, "get_settings"); (PATCH, "update_settings")]);
   ("/system/logs", [(GET, "system_logs")]);
   ("/issues", [(GET, "list_issues")]);
   ("/onboarding", [(GET, "onboarding")]);
   ("/notifications", [(GET, "list_notifications")]);
   ("/notifications/unread-count", [(GET, "notification_unread_count")]);
   ("/notifications/read-all", [(POST, "mark_all_notifications_read")]);
   ("/notifications/:id/read", [(POST, "mark_notification_read")]);
   ("/labels", [(GET, "list_labels")]);
   ("/saved-views", [(GET, "list_saved_views"); (POST, "create_saved_view")]);
   ("/saved-views/:id", [(PATCH, "update_saved_view"); (DELETE, "delete_saved_view")]);
   ("/metrics", [(GET, "metrics")]);
   ("/domains", [(GET, "list_domains"); (POST, "create_domain")]);
   ("/domains/:id", [(GET, "get_domain"); (PATCH, "update_domain"); (DELETE, "delete_domain")]);
   ("/domains/:id/verify", [(POST, "verify_domain")]);
   ("/routing-profiles", [(GET, "list_profiles"); (POST, "create_profile")]);
   ("/routing-profiles/:id", [(PATCH, "update_profile"); (DELETE, "delete_profile")]);
   ("/users/:id/routing-profile", [(PUT, "assign_profile")]);
   ("/notify-channels", [(GET, "list_channels"); (POST, "create_channel")]);
   ("/notify-channels/:id", [(PATCH, "update_channel"); (DELETE, "delete_channel")]);
   ("/notify-channels/:id/test", [(POST, "test_channel")]);
   ("/telegram-chats", [(GET, "list_tg_chats"); (POST, "add_tg_chat")]);
   ("/telegram-chats/:chat_id", [(DELETE, "delete_tg_chat")]);
   ("/live-connections", [(GET, "live_connections")]);
   ("/nodes", [(GET, "list_nodes"); (POST, "create_node")]);
   ("/nodes/:id", [(GET, "get_node"); (PATCH, "update_node"); (DELETE, "delete_node")]);
   ("/nodes/:id/inbounds", [(GET, "node_inbounds")]);
   ("/nodes/:id/labels", [(PUT, "set_node_labels")]);
   ("/nodes/:id/config-preview", [(GET, "node_config_preview")]);
   ("/nodes/:id/config-drift", [(GET, "node_config_drift")]);
   ("/nodes/:id/preflight", [(GET, "node_preflight")]);
   ("/nodes/:id/benchmark", [(POST, "node_benchmark")]);
   ("/nodes/:id/dry-run", [(POST, "dry_run_node")]);
   ("/nodes/:id/push", [(POST, "push_node")]);
   ("/nodes/:id/pushes", [(GET, "node_pushes")]);
   ("/nodes/:id/logs", [(GET, "node_agent_logs")]);
   ("/nodes/:id/metrics", [(GET, "node_metrics")]);
   ("/nodes/:id/enrollments", [(GET, "node_enrollments"); (POST, "create_enrollment")]);
   ("/nodes/:id/certificates", [(GET, "node_certificates")]);
   ("/nodes/:id/history", [(GET, "node_history")]);
   ("/nodes/:id/revert/:version", [(POST, "revert_node")]);
   ("/certificates/:id/revoke", [(POST, "revoke_certificate")]);
   ("/branding", [(PATCH, "update_branding_setting")]);
   ("/announcements", [(GET, "list_announcements"); (POST, "create_announcement")]);
   ("/announcements/:id", [(PATCH, "update_announcement"); (DELETE, "delete_announcement")]);
   ("/scheduled-ops", [(GET, "list_scheduled_ops"); (POST, "create_scheduled_op")]);
   ("/scheduled-ops/:id", [(DELETE, "cancel_scheduled_op")]);
   ("/enrollments/:id/revoke", [(POST, "revoke_enrollment")]);
   ("/reality/keygen", [(POST, "reality_keygen")]);
   ("/inbounds", [(POST, "create_inbound")]);
   ("/nodes/:id/wireguard", [(GET, "list_wg"); (POST, "create_wg")]);
   ("/wireguard/:id", [(PATCH, "update_wg"); (DELETE, "delete_wg")]);
   ("/nodes/:id/services", [(GET, "list_services"); (POST, "create_service")]);
   ("/services/:id", [(PATCH, "update_service"); (DELETE, "delete_service")]);
   ("/inbounds/:id/labels", [(PUT, "set_inbound_labels")]);
   ("/inbounds/:id", [(GET, "get_inbound"); (PATCH, "update_inbound"); (DELETE, "delete_inbound")]);
   ("/inbounds/:id/history", [(GET, "inbound_history")]);
   ("/inbounds/:id/revert/:version", [(POST, "revert_inbound")]);
   ("/users/:id/history", [(GET, "user_history")]);
   ("/users/:id/revert/:version", [(POST, "revert_user")]);
   ("/groups", [(GET, "list_groups"); (POST, "create_group")]);
   ("/groups/:id", [(PATCH, "update_group"); (DELETE, "delete_group")]);
   ("/nodes/:id/groups", [(GET, "get_node_groups"); (PUT, "set_node_groups")]);
   ("/users/:id/groups", [(GET, "get_user_groups"); (PUT, "set_user_groups")]);
   ("/inbounds/:id/reach", [(POST, "probe_inbound")]);
   ("/inbounds/:id/reachability", [(GET, "list_reachability"); (PUT, "report_reachability")]);
   ("/inbounds/:id/rotate-sni", [(POST, "rotate_sni")]);
   ("/users", [(GET, "list_users"); (POST, "create_user")]);
   ("/users/:id/labels", [(PUT, "set_user_labels")]);
   ("/users/:id", [(GET, "get_user"); (PATCH, "update_user"); (DELETE, "delete_user")]);
   ("/users/:id/rotate", [(POST, "rotate_user_credentials")]);
   ("/users/:id/rotate-sub", [(POST, "rotate_subscription")]);
   ("/users/:id/subscription", [(GET, "reveal_subscription")]);
   ("/users/:id/subscription-preview", [(GET, "subscription_preview")]);
   ("/users/:id/subscriptions", [(GET, "list_user_subscriptions"); (POST, "create_user_subscription")]);
   ("/users/:id/subscriptions/:sid", [(GET, "reveal_user_subscription"); (DELETE, "delete_user_subscription")]);
   ("/users/:id/alias", [(PUT, "set_alias")]);
   ("/users/:id/gdpr-export", [(GET, "gdpr_export")]);
   ("/users/:id/gdpr-erase", [(POST, "gdpr_erase")]);
   ("/users/:id/reset-traffic", [(POST, "reset_user_traffic")])].

(** The group a route is registered in, which decides what runs before its handler. *)
Inductive group := Public | Subscriptions | Protected.
#[export] Instance group_eq_dec : EqDecision group.
Proof. solve_decision. Defined.

Definition grouped (g : group) (l : list (string * list (Method * string))) : list (string * (group * list (Method * string))) :=
  (fun r => (r.1, (g, r.2))) <$> l.

(** [merge]: a path two groups share keeps the methods of both. *)
Definition routes : list (string * (group * list (Method * string))) :=
  grouped Public public_routes ++ grouped Subscriptions subscriptions_routes ++ grouped Protected protected_routes.

(** A GET route answers HEAD. *)
Definition served_by (m : Method) (ms : list (Method * string)) : option string :=
  let by_ m := snd <$> List.find (fun e => bool_decide (e.1 = m)) ms in
  opt_or (by_ m) (if bool_decide (m = HEAD) then by_ GET else None).

(** The handler of a registered path and method. *)
Definition handler_at (pattern : string) (m : Method) : option (group * string) :=
  head (omap (fun r => if String.eqb r.1 pattern then (fun h => (r.2.1, h)) <$> served_by m r.2.2 else None) routes).

(** ** Path parameters *)

Inductive param_type := PUuid | PInt | PText.

(** The type the handler's [Path] gives a parameter. *)
Definition param_type_of (pattern name : string) : param_type :=
  if one_of [":version"; ":chat_id"] name then PInt
  else if one_of [":alias"; ":client"] name || starts_with "/enroll/" pattern then PText
  else PUuid.

Definition is_param (s : string) : bool := starts_with ":" s.

(** The segments of a path fit those of a pattern; a parameter is not empty. *)
Fixpoint segments_fit (ps l : list string) : bool :=
  match ps, l with
  | [], [] => true
  | p :: ps, s :: l => (if is_param p then negb (is_empty s) else String.eqb p s) && segments_fit ps l
  | _, _ => false
  end.
Definition fits (pattern path : string) : bool := segments_fit (split "/" pattern) (split "/" path).

Section Router.
Context (find_pattern : list string -> string -> option string).
Context (accepts : param_type -> string -> bool).

Definition params_ok (pattern path : string) : bool :=
  forallb (fun ps => negb (is_param ps.1) || accepts (param_type_of pattern ps.1) ps.2) (zip (split "/" pattern) (split "/" path)).

(** ** A request *)

Inductive answer :=
| Run (handler : string) (who : option Identity)
| Limited (handler : string)
| Refused (status : Z) (code : string)
| BadPath
| MethodNotAllowed
| Panel.

Context (token_hash : string -> string).
Context (Net : Type) (parse_net : string -> option Net) (net_contains : Net -> IpAddr -> bool).
Context (api_token : option string).

(** [route_layer]: the guard of a group runs for a matched path and method, before
    the handler's extractors; a path without a route goes to [panel::serve]. *)
Definition router (f : Faults) (now : Z) (r : AuthRequest) (db : AuthDb) : answer * AuthDb :=
  match find_pattern (fst <$> routes) (req_path r) with
  | None => (Panel, db)
  | Some pattern =>
      match handler_at pattern (req_method r) with
      | None => (MethodNotAllowed, db)
      | Some (Public, h) => (if params_ok pattern (req_path r) then Run h None else BadPath, db)
      | Some (Subscriptions, h) => (Limited h, db)
      | Some (Protected, h) =>
          match require_auth token_hash Net parse_net net_contains api_token f now r db with
          | (Rejected status code, db') => (Refused status code, db')
          | (Passed i, db') => (if params_ok pattern (req_path r) then Run h (Some i) else BadPath, db')
          end
      end
  end.
End Router.

(** ** The policies on path segments *)

Section Segments.
Context {X : Type} (eqs pre : string -> X -> bool).

Fixpoint seg_prefix (ps : list string) (l : list X) : bool :=
  match ps, l with
  | [], _ => true
  | _, [] => false
  | [p], x :: _ => pre p x
  | p :: ps, x :: l => eqs p x && seg_prefix ps l
  end.

Fixpoint seg_eq (ps : list string) (l : list X) : bool :=
  match ps, l with
  | [], [] => true
  | p :: ps, x :: l => eqs p x && seg_eq ps l
  | _, _ => false
  end.

Definition begins (p : string) (l : list X) : bool := seg_prefix (split "/" p) l.
Definition equals (p : string) (l : list X) : bool := seg_eq (split "/" p) l.
(** Ends in the segment [w], which is not the first. *)
Definition ends (w : string) (l : list X) : bool :=
  match l with [] => false | _ :: t => map_or (last t) false (eqs w) end.
(** A segment after the first begins with [w]. *)
Definition has_segment (w : string) (l : list X) : bool := existsb (pre w) (tail l).

Definition role_at (m : Method) (l : list X) : string :=
  if begins "/notifications" l then "viewer"
  else if begins "/auth/sessions" l || equals "/auth/login-history" l then "viewer"
  else if begins "/saved-views" l then "viewer"
  else if existsb (fun p => begins p l)
            ["/admins"; "/settings"; "/api-keys"; "/branding"; "/update"; "/config"; "/custom-roles"] then "owner"
  else if begins "/audit" l || has_segment "enrollments" l then "admin"
  else if is_method safe_methods m || equals "/auth/logout" l then "viewer"
  else if existsb (fun w => ends w l) ["push"; "rotate"; "rotate-sub"; "reset-traffic"; "labels"] then "operator"
  else "admin".

Definition domain_at (l : list X) : string :=
  let any := existsb (fun p => begins p (tail l)) in
  if any ["nodes"; "certificates"; "enrollments"; "reality"; "wireguard"; "services"] then "nodes"
  else if begins "inbounds" (tail l) then "inbounds"
  else if any ["users"; "import"] then "users"
  else if begins "groups" (tail l) then "groups"
  else if begins "routing-profiles" (tail l) then "routing"
  else if begins "domains" (tail l) then "domains"
  else if any ["config"; "scheduled-ops"] then "config"
  else if any ["notify-channels"; "telegram"; "announcements"] then "notifications"
  else if begins "audit" (tail l) then "audit"
  else if any ["settings"; "branding"; "api-keys"; "admins"; "custom-roles"; "admin-ips"] then "admin"
  else "dashboard".

Definition reseller_user_at (m : Method) (l : list X) : bool :=
  match List.find (fun e => equals e.1 l)
          [("rotate", [POST]); ("reset-traffic", [POST]); ("rotate-sub", [POST]);
           ("subscription", [GET]); ("subscriptions", [GET; POST])] with
  | Some (_, ms) => is_method ms m
  | None =>
      is_method (if begins "subscriptions/" l then [GET; DELETE]
                 else if equals "alias" l then [PUT]
                 else if equals "groups" l then [GET; PUT]
                 else if equals "labels" l then [PUT] else []) m
  end.

Definition reseller_at (m : Method) (l : list X) : bool :=
  match List.find (fun e => equals e.1 l) reseller_paths with
  | Some (_, ms) => is_method ms m
  | None =>
      if begins "/saved-views/" l then is_method [PATCH; DELETE] m
      else if begins "/auth/sessions/" l then is_method [DELETE] m
      else if begins "/users/" l then
        match drop 3 l with [] => is_method [GET; PATCH; DELETE] m | sub => reseller_user_at m sub end
      else false
  end.
End Segments.

(** ** The policies read the segments *)

Abbreviation segs := (split "/").
Abbreviation prefix_ := (seg_prefix String.eqb starts_with).
Abbreviation equal_ := (seg_eq String.eqb).

Lemma seg_prefix_cons p ps x l : ps <> [] -> prefix_ (p :: ps) (x :: l) = String.eqb p x && prefix_ ps l.
Proof. by destruct ps. Qed.

Lemma starts_with_cons c d p s : starts_with (String c p) (String d s) = Ascii.eqb c d && starts_with p s.
Proof. unfold starts_with. simpl. destruct (ascii_dec c d) as [->|H]; [by rewrite Ascii.eqb_refl|]. by apply Ascii.eqb_neq in H as ->. Qed.

Lemma eqb_cons c d a b : String.eqb (String c a) (String d b) = Ascii.eqb c d && String.eqb a b.
Proof. simpl. by destruct (Ascii.eqb c d). Qed.

Lemma starts_with_segs p s : starts_with p s = prefix_ (segs p) (segs s).
Proof.
  revert s. induction p as [|c p IH]; intros s.
  - pose proof (split_nonempty "/" s) as H. destruct (segs s) as [|x l]; [done|]. by destruct s, x.
  - pose proof (split_nonempty "/" p) as Hp. destruct s as [|d s].
    + cbn [split]. destruct (Ascii.eqb c "/"); [rewrite seg_prefix_cons by done; destruct (segs p) as [|q r]; [done|]; by destruct r|].
      by destruct (segs p) as [|q [|q' r]].
    + rewrite starts_with_cons, IH. pose proof (split_nonempty "/" s) as Hs. cbn [split].
      destruct (Ascii.eqb_spec c "/") as [->|Hc], (Ascii.eqb_spec d "/") as [->|Hd].
      * rewrite seg_prefix_cons by done. done.
      * rewrite (proj2 (Ascii.eqb_neq _ _)) by congruence. destruct (segs s) as [|x l]; [done|]. by rewrite seg_prefix_cons by done.
      * rewrite (proj2 (Ascii.eqb_neq _ _)) by congruence. by destruct (segs p) as [|q [|q' r]].
      * destruct (segs p) as [|q [|q' r]], (segs s) as [|x l]; try done.
        -- cbn [seg_prefix]. by rewrite starts_with_cons.
        -- rewrite !seg_prefix_cons, eqb_cons by done. apply andb_assoc.
Qed.

Lemma eqb_segs p s : String.eqb p s = equal_ (segs p) (segs s).
Proof.
  revert s. induction p as [|c p IH]; intros s.
  - destruct s as [|d s]; [done|]. simpl. destruct (Ascii.eqb d "/"); [by destruct (segs s) eqn:E; [apply split_nonempty in E|]|].
    by destruct (segs s).
  - destruct s as [|d s].
    + simpl. destruct (Ascii.eqb c "/"); [by destruct (segs p) eqn:E; [apply split_nonempty in E|]|]. by destruct (segs p).
    + rewrite eqb_cons, IH. pose proof (split_nonempty "/" s) as Hs. pose proof (split_nonempty "/" p) as Hp. cbn [split].
      destruct (Ascii.eqb_spec c "/") as [->|Hc], (Ascii.eqb_spec d "/") as [->|Hd].
      * done.
      * rewrite (proj2 (Ascii.eqb_neq _ _)) by congruence. by destruct (segs s).
      * rewrite (proj2 (Ascii.eqb_neq _ _)) by congruence. by destruct (segs p).
      * destruct (segs p), (segs s); try done. cbn [seg_eq]. rewrite eqb_cons. apply andb_assoc.
Qed.

Definition no_slash (w : string) : bool := all_bytes (fun c => negb (Ascii.eqb c "/")) w.

Lemma ends_with_segs w s : no_slash w = true -> ends_with (String "/" w) s = ends String.eqb w (segs s).
Proof.
  intros Hw. pose proof (split_no_sep "/" w Hw) as Ew. induction s as [|d s IH]; [done|].
  cbn [ends_with]. rewrite eqb_cons, IH, eqb_segs, Ew. cbn [split]. pose proof (split_nonempty "/" s) as Hs.
  destruct (Ascii.eqb_spec d "/") as [->|Hd].
  - destruct (segs s) as [|x [|y l]]; [done| |simpl; by destruct (String.eqb x w)].
    simpl. rewrite (String.eqb_sym x w). by destruct (String.eqb w x).
  - by destruct (segs s).
Qed.

Lemma contains_segs w s : no_slash w = true -> contains (String "/" w) s = has_segment starts_with w (segs s).
Proof.
  intros Hw. pose proof (split_no_sep "/" w Hw) as Ew. induction s as [|d s IH]; [done|].
  cbn [contains]. rewrite starts_with_cons, IH, starts_with_segs, Ew, (Ascii.eqb_sym "/" d). cbn [split].
  pose proof (split_nonempty "/" s) as Hs.
  destruct (Ascii.eqb_spec d "/") as [->|Hd]; by destruct (segs s).
Qed.

Lemma required_role_segs m path : required_role m path = role_at String.eqb starts_with m (segs path).
Proof.
  unfold required_role, role_at, starts_with_any, begins, equals. cbn [existsb].
  rewrite !(String.eqb_sym path), !starts_with_segs, !eqb_segs, (contains_segs "enrollments"), !ends_with_segs by reflexivity.
  reflexivity.
Qed.

(** A path whose first segment is not empty. *)
Definition rooted (l : list string) : bool := match l with "" :: x :: _ => negb (is_empty x) | _ => false end.

Lemma rooted_path path : rooted (segs path) = true -> exists rest, path = String "/" rest /\ trim_start_matches "/" path = rest /\ segs rest = tail (segs path).
Proof.
  destruct path as [|c rest]; [done|]. cbn [split]. pose proof (split_nonempty "/" rest) as Hr.
  destruct (Ascii.eqb_spec c "/") as [->|]; [|by destruct (segs rest)].
  intros H. exists rest. split; [done|]. split; [|done]. destruct rest as [|d rest]; [done|].
  cbn [split] in H. destruct (Ascii.eqb_spec d "/") as [->|Hd]; [done|].
  cbn [trim_start_matches]. rewrite Ascii.eqb_refl, (proj2 (Ascii.eqb_neq "/" d)) by congruence. done.
Qed.

Lemma path_domain_segs path : rooted (segs path) = true -> path_domain path = domain_at String.eqb starts_with (segs path).
Proof.
  intros (rest & _ & Ht & Hs)%rooted_path. unfold path_domain, domain_at, starts_with_any, begins. rewrite Ht, <- Hs.
  cbn [existsb]. rewrite !starts_with_segs. reflexivity.
Qed.

Lemma split_once_segs s :
  match split_once "/" s with Some (a, b) => segs s = a :: segs b | None => segs s = [s] end.
Proof.
  induction s as [|c s IH]; [done|]. simpl. destruct (Ascii.eqb c "/"); [done|].
  destruct (split_once "/" s) as [[a b]|]; by rewrite IH.
Qed.

Lemma reseller_user_segs m sub : is_method (reseller_user_methods sub) m = reseller_user_at String.eqb starts_with m (segs sub).
Proof.
  unfold reseller_user_methods, reseller_user_at, begins, equals. cbn [List.find fst].
  rewrite !starts_with_segs, !(String.eqb_sym sub), !eqb_segs. by repeat destruct (equal_ _ _).
Qed.

Lemma strip_prefix_inv p s : 
  match strip_prefix p s with Some rest => s = p +:+ rest | None => starts_with p s = false end.
Proof.
  revert s. induction p as [|c p IH]; intros s; [by destruct s|]. destruct s as [|d s]; [done|].
  cbn [strip_prefix]. rewrite starts_with_cons. destruct (Ascii.eqb_spec c d) as [->|]; [|done].
  specialize (IH s). destruct (strip_prefix p s); [by rewrite IH|exact IH].
Qed.

Lemma reseller_permits_segs m path : reseller_permits m path = reseller_at String.eqb starts_with m (segs path).
Proof.
  unfold reseller_permits, reseller_at, begins, equals. cbn [List.find reseller_paths fst].
  rewrite !starts_with_segs, !eqb_segs. repeat (destruct (equal_ _ _); [done|]).
  repeat (destruct (prefix_ (segs "/saved-views/") _); [done|]). destruct (prefix_ (segs "/auth/sessions/") _); [done|].
  pose proof (strip_prefix_inv "/users/" path) as H. destruct (strip_prefix "/users/" path) as [rest|].
  - subst path. change (segs ("/users/" +:+ rest)) with ("" :: "users" :: segs rest).
    pose proof (split_nonempty "/" rest) as Hr. change (segs "/users/") with [""; "users"; ""]. rewrite (seg_prefix_cons "") by done. cbn [String.eqb andb].
    pose proof (split_once_segs rest) as Ho. destruct (split_once "/" rest) as [[a b]|]; rewrite Ho.
    + change (prefix_ ["users"; ""] ("users" :: a :: segs b)) with (starts_with "" a). destruct a; cbn [drop starts_with String.prefix];
        pose proof (split_nonempty "/" b); rewrite reseller_user_segs; by destruct (segs b).
    + destruct rest; done.
  - by rewrite starts_with_segs in H; rewrite H.
Qed.

(** ** A route decides the policies *)

(** The bytes of an identifier or a number in a path, percent-encoded or not:
    hexadecimal digits, hyphens, braces, signs and the letters of urn:uuid. *)
Definition param_byte (c : ascii) : bool :=
  is_hexdigit c || existsb (Ascii.eqb c) ["-"; "{"; "}"; "%"; ":"; "+"; "u"; "r"; "n"; "i"]%char.

(** A word no parameter spells. *)
Definition foreign (w : string) : bool := is_empty w || negb (all_bytes param_byte w).

Definition segment_fits (s p : string) : Prop :=
  if is_param p then s <> "" /\ all_bytes param_byte s = true else s = p.

Definition eq_sym (w p : string) : bool := if is_param p then false else String.eqb w p.
Definition pre_sym (w p : string) : bool := if is_param p then is_empty w else starts_with w p.

Lemma starts_with_bytes (f : ascii -> bool) w s : starts_with w s = true -> all_bytes f s = true -> all_bytes f w = true.
Proof.
  revert s. induction w as [|c w IH]; intros [|d s]; try done. rewrite starts_with_cons. intros [Hc Hw]%andb_true_iff.
  apply Ascii.eqb_eq in Hc as ->. simpl. rewrite !andb_true_iff. intros [H1 H2]. split; [done|]. by apply (IH s).
Qed.

Lemma eq_fits w s p : foreign w = true -> segment_fits s p -> String.eqb w s = eq_sym w p.
Proof.
  unfold foreign, segment_fits, eq_sym. intros Hw Hs. destruct (is_param p); [|by subst]. destruct Hs as [Hne Hb].
  apply String.eqb_neq. intros ->. rewrite Hb in Hw. destruct s; [done|discriminate Hw].
Qed.

Lemma pre_fits w s p : foreign w = true -> segment_fits s p -> starts_with w s = pre_sym w p.
Proof.
  unfold foreign, segment_fits, pre_sym. intros Hw Hs. destruct (is_param p); [|by subst]. destruct Hs as [Hne Hb].
  destruct (is_empty w) eqn:E; [by destruct w, s|]. destruct (starts_with w s) eqn:Es; [|done].
  by rewrite (starts_with_bytes _ _ _ Es Hb) in Hw.
Qed.

Lemma seg_prefix_fits ps l pat :
  forallb foreign ps = true -> Forall2 segment_fits l pat -> prefix_ ps l = seg_prefix eq_sym pre_sym ps pat.
Proof.
  intros Hp Hl. revert ps Hp. induction Hl as [|s p l pat Hs Hl IH]; intros [|w ps] Hp; [done|by destruct ps|done|].
  simpl in Hp. apply andb_true_iff in Hp as [Hw Hp]. destruct ps as [|w' ps]; [by apply pre_fits|].
  change (String.eqb w s && prefix_ (w' :: ps) l = eq_sym w p && seg_prefix eq_sym pre_sym (w' :: ps) pat).
  by rewrite (eq_fits w s p), IH.
Qed.

Lemma seg_eq_fits ps l pat : forallb foreign ps = true -> Forall2 segment_fits l pat -> equal_ ps l = seg_eq eq_sym ps pat.
Proof.
  intros Hp Hl. revert ps Hp. induction Hl as [|s p l pat Hs Hl IH]; intros [|w ps] Hp; try done.
  simpl in *. apply andb_true_iff in Hp as [Hw Hp]. by rewrite (eq_fits w s p), IH.
Qed.

Lemma ends_fits w l pat : foreign w = true -> Forall2 segment_fits l pat -> ends String.eqb w l = ends eq_sym w pat.
Proof.
  intros Hw Hl. destruct Hl as [|s p l pat _ Hl]; [done|]. unfold ends. induction Hl as [|s' p' l pat Hs Hl IH]; [done|].
  destruct Hl; [by apply eq_fits|]. exact IH.
Qed.

Lemma has_segment_fits w l pat : foreign w = true -> Forall2 segment_fits l pat -> has_segment starts_with w l = has_segment pre_sym w pat.
Proof.
  intros Hw Hl. unfold has_segment. destruct Hl as [|s p l pat _ Hl]; [done|]. simpl.
  induction Hl as [|s' p' l pat Hs Hl IH]; [done|]. simpl. by rewrite (pre_fits w s' p'), IH.
Qed.

(** Moves the tests of a policy from the segments of a path to those of its pattern. *)
Ltac fit H :=
  rewrite ?(fun ps Hp => seg_prefix_fits ps _ _ Hp H), ?(fun ps Hp => seg_eq_fits ps _ _ Hp H),
    ?(fun w Hw => ends_fits w _ _ Hw H), ?(fun w Hw => has_segment_fits w _ _ Hw H) by reflexivity.

Lemma role_fits m l pat : Forall2 segment_fits l pat -> role_at String.eqb starts_with m l = role_at eq_sym pre_sym m pat.
Proof. intros Hl. unfold role_at, begins, equals. cbn [existsb]. fit Hl. reflexivity. Qed.

Lemma domain_fits l pat : Forall2 segment_fits l pat -> domain_at String.eqb starts_with l = domain_at eq_sym pre_sym pat.
Proof.
  intros Hl. assert (Ht : Forall2 segment_fits (tail l) (tail pat)) by (by destruct Hl).
  unfold domain_at, begins. cbn [existsb]. fit Ht. reflexivity.
Qed.

Lemma reseller_user_fits m l pat :
  Forall2 segment_fits l pat -> reseller_user_at String.eqb starts_with m l = reseller_user_at eq_sym pre_sym m pat.
Proof. intros Hl. unfold reseller_user_at, begins, equals. cbn [List.find fst]. fit Hl. reflexivity. Qed.

Lemma reseller_fits m l pat : Forall2 segment_fits l pat -> reseller_at String.eqb starts_with m l = reseller_at eq_sym pre_sym m pat.
Proof.
  intros Hl. assert (Ht := Forall2_drop _ _ _ 3 Hl). unfold reseller_at, begins, equals. cbn [List.find reseller_paths fst]. fit Hl.
  destruct Ht as [|s p l' pat' Hs Ht]; [done|]. by rewrite (reseller_user_fits m (s :: l') (p :: pat')) by (by constructor).
Qed.

(** ** Who may run a handler *)

Definition owner_handlers : list string :=
  ["list_admins"; "create_admin"; "update_admin"; "get_reseller_groups"; "list_api_keys"; "create_api_key";
   "revoke_api_key"; "list_custom_roles"; "create_custom_role"; "update_custom_role"; "delete_custom_role";
   "config_export"; "config_apply"; "update_check"; "update_apply"; "get_settings"; "update_settings";
   "update_branding_setting"].
Definition operator_handlers : list string :=
  ["set_node_labels"; "push_node"; "set_inbound_labels"; "set_user_labels"; "rotate_user_credentials";
   "rotate_subscription"; "reset_user_traffic"].
Definition viewer_handlers : list string :=
  ["me"; "logout"; "list_sessions"; "revoke_other_sessions"; "revoke_session"; "list_login_history"; "totp_status";
   "totp_recovery_status"; "list_admin_ips_h"; "traffic_analytics"; "traffic_analytics_csv"; "period_report";
   "geo_distribution"; "ha_status"; "system_logs"; "list_issues"; "onboarding"; "list_notifications";
   "notification_unread_count"; "mark_all_notifications_read"; "mark_notification_read"; "list_labels";
   "list_saved_views"; "create_saved_view"; "update_saved_view"; "delete_saved_view"; "metrics"; "list_domains";
   "get_domain"; "list_profiles"; "list_channels"; "list_tg_chats"; "live_connections"; "list_nodes"; "get_node";
   "node_inbounds"; "node_config_preview"; "node_config_drift"; "node_preflight"; "node_pushes"; "node_agent_logs";
   "node_metrics"; "node_certificates"; "node_history"; "list_announcements"; "list_scheduled_ops"; "list_wg";
   "list_services"; "get_inbound"; "inbound_history"; "user_history"; "list_groups"; "get_node_groups";
   "get_user_groups"; "list_reachability"; "list_users"; "get_user"; "reveal_subscription"; "subscription_preview";
   "list_user_subscriptions"; "reveal_user_subscription"; "gdpr_export"].

(** What every other handler asks for is the admin role. *)
Definition least_role (h : string) : string :=
  if one_of owner_handlers h then "owner"
  else if one_of operator_handlers h then "operator"
  else if one_of viewer_handlers h then "viewer" else "admin".

(** The permission domains of custom roles; every other handler is the dashboard's. *)
Definition domain_handlers : list (string * list string) :=
  [("admin",
     ["list_admins"; "create_admin"; "update_admin"; "get_reseller_groups"; "list_api_keys"; "create_api_key";
      "revoke_api_key"; "list_custom_roles"; "create_custom_role"; "update_custom_role"; "delete_custom_role";
      "list_admin_ips_h"; "add_admin_ip_h"; "delete_admin_ip_h"; "get_settings"; "update_settings";
      "update_branding_setting"]);
   ("users",
     ["import_users"; "set_quota_interval"; "assign_profile"; "user_history"; "revert_user"; "get_user_groups";
      "set_user_groups"; "list_users"; "create_user"; "set_user_labels"; "get_user"; "update_user"; "delete_user";
      "rotate_user_credentials"; "rotate_subscription"; "reveal_subscription"; "subscription_preview";
      "list_user_subscriptions"; "create_user_subscription"; "reveal_user_subscription"; "delete_user_subscription";
      "set_alias"; "gdpr_export"; "gdpr_erase"; "reset_user_traffic"]);
   ("config",
     ["config_export"; "config_apply"; "list_scheduled_ops"; "create_scheduled_op"; "cancel_scheduled_op"]);
   ("audit",
     ["list_audit"; "verify_audit_chain"]);
   ("domains",
     ["list_domains"; "create_domain"; "get_domain"; "update_domain"; "delete_domain"; "verify_domain"]);
   ("routing",
     ["list_profiles"; "create_profile"; "update_profile"; "delete_profile"]);
   ("notifications",
     ["list_channels"; "create_channel"; "update_channel"; "delete_channel"; "test_channel"; "list_tg_chats";
      "add_tg_chat"; "delete_tg_chat"; "list_announcements"; "create_announcement"; "update_announcement";
      "delete_announcement"]);
   ("nodes",
     ["list_nodes"; "create_node"; "get_node"; "update_node"; "delete_node"; "node_inbounds"; "set_node_labels";
      "node_config_preview"; "node_config_drift"; "node_preflight"; "node_benchmark"; "dry_run_node"; "push_node";
      "node_pushes"; "node_agent_logs"; "node_metrics"; "node_enrollments"; "create_enrollment"; "node_certificates";
      "node_history"; "revert_node"; "revoke_certificate"; "revoke_enrollment"; "reality_keygen"; "list_wg";
      "create_wg"; "update_wg"; "delete_wg"; "list_services"; "create_service"; "update_service"; "delete_service";
      "get_node_groups"; "set_node_groups"]);
   ("inbounds",
     ["create_inbound"; "set_inbound_labels"; "get_inbound"; "update_inbound"; "delete_inbound"; "inbound_history";
      "revert_inbound"; "probe_inbound"; "list_reachability"; "report_reachability"; "rotate_sni"]);
   ("groups",
     ["list_groups"; "create_group"; "update_group"; "delete_group"])].

Definition handler_domain (h : string) : string :=
  map_or (List.find (fun e => one_of e.2 h) domain_handlers) "dashboard" fst.

Definition reseller_handlers : list string :=
  ["me"; "logout"; "list_sessions"; "revoke_other_sessions"; "revoke_session"; "list_login_history";
   "traffic_analytics"; "traffic_analytics_csv"; "period_report"; "geo_distribution"; "onboarding"; "list_labels";
   "list_saved_views"; "create_saved_view"; "update_saved_view"; "delete_saved_view"; "live_connections";
   "list_groups"; "get_user_groups"; "set_user_groups"; "list_users"; "create_user"; "set_user_labels"; "get_user";
   "update_user"; "delete_user"; "rotate_user_credentials"; "rotate_subscription"; "reveal_subscription";
   "list_user_subscriptions"; "create_user_subscription"; "reveal_user_subscription"; "delete_user_subscription";
   "set_alias"; "reset_user_traffic"].

Definition allowed (i : Identity) (m : Method) (h : string) : bool :=
  if is_reseller i then one_of reseller_handlers h
  else match permissions i with
       | Some p => String.eqb (handler_domain h) "dashboard" || (need_level m <=? default 0 (p !! handler_domain h))
       | None => role_rank (least_role h) <=? role_rank (id_role i)
       end.

Definition all_methods : list Method := [GET; HEAD; OPTIONS; POST; PUT; PATCH; DELETE; OtherMethod].

(** The check of one protected route against the tables. *)
Definition route_policed (m : Method) (r : string * list (Method * string)) : bool :=
  match served_by m r.2 with
  | None => true
  | Some h =>
      let pat := segs r.1 in
      rooted pat && String.eqb (role_at eq_sym pre_sym m pat) (least_role h)
      && String.eqb (domain_at eq_sym pre_sym pat) (handler_domain h)
      && (if bool_decide (m = HEAD) then implb (reseller_at eq_sym pre_sym m pat) (one_of reseller_handlers h)
          else Bool.eqb (reseller_at eq_sym pre_sym m pat) (one_of reseller_handlers h))
      && forallb (fun p => negb (is_param p) || match param_type_of r.1 p with PText => false | _ => true end) pat
  end.

Lemma routes_policed : forallb (fun m => forallb (route_policed m) protected_routes) all_methods = true.
Proof. vm_compute. reflexivity. Qed.

Lemma handler_at_inv p m g h :
  handler_at p m = Some (g, h) -> exists ms, In (p, (g, ms)) routes /\ served_by m ms = Some h.
Proof.
  unfold handler_at. intros H%head_Some_elem_of. apply list_elem_of_omap in H as ([q [g' ms]] & Hin & H). cbn [fst snd] in H.
  destruct (String.eqb_spec q p) as [->|]; [|done]. destruct (served_by m ms) eqn:E; [|done]. simpl in H. simplify_eq.
  exists ms. split; [by apply list_elem_of_In|done].
Qed.

Lemma grouped_in g g' p ms l : In (p, (g, ms)) (grouped g' l) -> g = g' /\ In (p, ms) l.
Proof. unfold grouped. rewrite in_map_iff. intros ([q ms'] & H & Hin). by simplify_eq. Qed.

(** The methods registered for a path of a group. *)
Lemma routes_in g p ms :
  In (p, (g, ms)) routes ->
  In (p, ms) (match g with Public => public_routes | Subscriptions => subscriptions_routes | Protected => protected_routes end).
Proof. unfold routes. rewrite !in_app_iff. by intros [H|[H|H]]; apply grouped_in in H as [-> H]. Qed.

Lemma served_by_in m ms h : served_by m ms = Some h -> In h (snd <$> ms).
Proof.
  unfold served_by. assert (Hf : forall m' x, snd <$> List.find (fun e : Method * string => bool_decide (e.1 = m')) ms = Some x -> In x (snd <$> ms)).
  { intros m' x H. destruct (List.find _ ms) as [e|] eqn:E; [|done]. apply find_some in E as [E _]. simpl in H. simplify_eq.
    by apply in_map. }
  destruct (snd <$> List.find (fun e => bool_decide (e.1 = m)) ms) as [x|] eqn:E; cbn [opt_or]; [intros [= <-]; by apply (Hf m)|].
  destruct (bool_decide _); [apply Hf|done].
Qed.

Definition group_handlers (l : list (string * list (Method * string))) : list string := flat_map (fun r => snd <$> r.2) l.

Lemma group_handler p m g h :
  handler_at p m = Some (g, h) ->
  In h (group_handlers (match g with Public => public_routes | Subscriptions => subscriptions_routes | Protected => protected_routes end)).
Proof.
  intros (ms & Hin%routes_in & Hs%served_by_in)%handler_at_inv. unfold group_handlers. apply in_flat_map. eauto.
Qed.

Section Policy.
Context (find_pattern : list string -> string -> option string).
Context (accepts : param_type -> string -> bool).
(** A pattern found for a path is one of the registered ones and fits it. *)
Hypothesis find_pattern_law : forall ps path p, find_pattern ps path = Some p -> In p ps /\ fits p path = true.
(** The text of an identifier or a number. *)
Hypothesis accepts_law : forall ty s, ty <> PText -> accepts ty s = true -> all_bytes param_byte s = true.

Lemma segments_fitted pattern ps l :
  segments_fit ps l = true ->
  forallb (fun p => negb (is_param p) || match param_type_of pattern p with PText => false | _ => true end) ps = true ->
  forallb (fun x => negb (is_param x.1) || accepts (param_type_of pattern x.1) x.2) (zip ps l) = true ->
  Forall2 segment_fits l ps.
Proof.
  revert l. induction ps as [|p ps IH]; intros [|s l]; try done. cbn [segments_fit forallb zip zip_with].
  rewrite !andb_true_iff. intros [Hf Hfs] [Ht Hts] [Ha Has]. constructor; [|by apply IH]. cbn [fst snd] in Ha.
  unfold segment_fits. destruct (is_param p); simpl in *; [|by apply String.eqb_eq in Hf].
  split; [by intros ->|]. apply (accepts_law (param_type_of pattern p)); [by destruct (param_type_of pattern p)|done].
Qed.

Lemma rooted_fits l pat : Forall2 segment_fits l pat -> rooted pat = true -> rooted l = true.
Proof.
  intros Hl Hr. destruct pat as [|[|] [|x pat]]; try done. inversion_clear Hl as [|s ? l' ? H0 Hl']. inversion_clear Hl' as [|s' ? l'' ? H1 _].
  unfold segment_fits in H0. simpl in H0. subst s. unfold segment_fits in H1. simpl in *. destruct (is_param x); [|by subst].
  destruct H1 as [Hne _]. by destruct s'.
Qed.

(** What the tables say of a protected route a request's path fits. *)
Lemma protected_policy pattern m h path :
  handler_at pattern m = Some (Protected, h) -> fits pattern path = true -> params_ok accepts pattern path = true ->
  required_role m path = least_role h /\ path_domain path = handler_domain h /\
  (reseller_permits m path = true -> one_of reseller_handlers h = true) /\
  (m <> HEAD -> reseller_permits m path = one_of reseller_handlers h).
Proof.
  intros (ms & Hin%routes_in & Hs)%handler_at_inv Hf Hp.
  assert (Hc := proj1 (forallb_forall _ _) routes_policed m ltac:(destruct m; simpl; tauto)).
  assert (Hr := proj1 (forallb_forall _ _) Hc _ Hin). clear Hc. unfold route_policed in Hr. cbn [fst snd] in Hr. rewrite Hs in Hr.
  rewrite !andb_true_iff in Hr. destruct Hr as [[[[Hroot Hrole] Hdom] Hres] Hty].
  assert (Hl : Forall2 segment_fits (segs path) (segs pattern)) by (by eapply segments_fitted).
  rewrite required_role_segs, path_domain_segs, reseller_permits_segs, (role_fits _ _ _ Hl), (domain_fits _ _ Hl), (reseller_fits _ _ _ Hl)
    by (by eapply rooted_fits).
  apply String.eqb_eq in Hrole, Hdom. split; [done|]. split; [done|].
  case_bool_decide as Hm; [|apply eqb_prop in Hres; rewrite Hres; auto].
  split; [|done]. intros H. by rewrite H in Hres.
Qed.


Lemma authorized_allowed pattern m h path i :
  handler_at pattern m = Some (Protected, h) -> fits pattern path = true -> params_ok accepts pattern path = true ->
  authorized i m path = true -> allowed i m h = true.
Proof.
  intros Hh Hf Hp. destruct (protected_policy _ _ _ _ Hh Hf Hp) as (Hr & Hd & Hs & _).
  unfold authorized, allowed. rewrite Hr, Hd. destruct (is_reseller i); [exact Hs|].
  unfold permits_domain, permits. destruct (permissions i) as [p|]; [|done]. simpl. by destruct (String.eqb _ "dashboard").
Qed.

Context (token_hash : string -> string).
Context (Net : Type) (parse_net : string -> option Net) (net_contains : Net -> IpAddr -> bool).
Context (api_token : option string).
#[local] Abbreviation guard := (require_auth token_hash Net parse_net net_contains api_token).
#[local] Abbreviation route := (router find_pattern accepts token_hash Net parse_net net_contains api_token).

Lemma passed_authorized f now r db i db' : guard f now r db = (Passed i, db') -> authorized i (req_method r) (req_path r) = true.
Proof.
  unfold require_auth. destruct (identify _ _ _ _ _ _) as [[[[i' c]|]|] db1]; try done.
  repeat match goal with |- context [if ?b then Rejected _ _ else _] => destruct b; [done|] end.
  destruct (authorized i' _ _) eqn:E; [|done]. by intros [= <- _].
Qed.

(** C14: Nothing of the API runs past its guard.  Whatever the request, a handler
    that runs without an identity is one of the twelve public ones, a
    subscription handler runs behind the rate limit, and a handler that runs for an
    identity is a protected one that the middleware admitted this identity to and
    that the table of handlers allows it: the role, the custom permissions or the
    reseller's list. *)
Theorem handlers_guarded f now r db a db' :
  route f now r db = (a, db') ->
  match a with
  | Run h None => In h (group_handlers public_routes) /\ db' = db
  | Limited h => In h (group_handlers subscriptions_routes) /\ db' = db
  | Run h (Some i) =>
      In h (group_handlers protected_routes) /\ guard f now r db = (Passed i, db') /\ allowed i (req_method r) h = true
  | _ => True
  end.
Proof.
  unfold router. destruct (find_pattern _ _) as [p|] eqn:Ep; [|by intros [= <- <-]]. apply find_pattern_law in Ep as [_ Hf].
  destruct (handler_at p (req_method r)) as [[g h]|] eqn:Eh; [|by intros [= <- <-]].
  assert (Hg := group_handler _ _ _ _ Eh). destruct g.
  - destruct (params_ok _ _ _); by intros [= <- <-].
  - by intros [= <- <-].
  - destruct (guard f now r db) as [[i|st c] db1] eqn:Ea; [|by intros [= <- <-]].
    destruct (params_ok accepts p (req_path r)) eqn:Epk; intros [= <- <-]; [|done].
    split; [done|]. split; [done|]. eapply authorized_allowed; eauto using passed_authorized.
Qed.
End Policy.

(** ** Registration *)

(** Two patterns whose first differing segments are both parameters cannot both be registered. *)
Fixpoint conflict (p q : list string) : bool :=
  match p, q with
  | x :: p, y :: q => if String.eqb x y then conflict p q else is_param x && is_param y
  | _, _ => false
  end.

(** Building the router does not panic: no path and method is registered twice,
    and no two patterns name the same parameter differently. *)
Lemma routes_register :
  NoDup (flat_map (fun r => (fun mh => (r.1, mh.1)) <$> r.2.2) routes) /\
  forallb (fun p => forallb (fun q => negb (conflict (segs p) (segs q))) (fst <$> routes)) (fst <$> routes) = true.
Proof. split; [apply (bool_decide_unpack _)|]; vm_compute; exact I || reflexivity. Qed.

(** ** Witnesses *)

Definition first_fit (ps : list string) (path : string) : option string := List.find (fun p => fits p path) ps.
Definition spelled (ty : param_type) (s : string) : bool := match ty with PText => true | _ => all_bytes param_byte s end.

Lemma first_fit_law ps path p : first_fit ps path = Some p -> In p ps /\ fits p path = true.
Proof. intros H. by apply find_some in H. Qed.

Lemma spelled_law ty s : ty <> PText -> spelled ty s = true -> all_bytes param_byte s = true.
Proof. by destruct ty. Qed.


Lemma handlers_guarded_witness :
  allowed (mkIdentity (Some 5) "shop" "reseller" (Some "tok") None) GET "list_users" = true.
Proof.
  refine (proj2 (proj2 (handlers_guarded first_fit spelled first_fit_law spelled_law (fun s => s) unit (fun _ => None) (fun _ _ => false) None
    no_faults 0 reseller_request reseller_db (Run "list_users" (Some (mkIdentity (Some 5) "shop" "reseller" (Some "tok") None))) reseller_db _))).
  vm_compute. reflexivity.
Defined.

(** An account below the admin role cannot set up its own second factor. *)
Example second_factor_admins_only :
  (fun role => allowed (mkIdentity (Some 5) "x" role None None) POST "totp_setup") <$> ["viewer"; "operator"; "reseller"; "admin"]
  = [false; false; false; true].
Proof. reflexivity. Qed.
