(* ===== verification/Domains.v ===== *)
(** * Managed domains (src/master/src/domains.rs, and their rows and handlers)

    The resolver, the sockets, the TLS handshake and the certificate parser are
    the fields of [World]; [lower] and [pg_space] are the database's. *)

From S2P Require Import Prelude Strings Json Models Db Api Handler Notify.

(** ** Rows *)

Record ManagedDomain := mkDomain {
  d_id : Uuid;
  d_host : string;
  d_node_id : option Uuid;
  d_proxied : bool;
  d_notes : string;
  d_last_checked_at : option Z;
  d_dns_ok : bool;
  d_resolved_ips : list string;
  d_reachable_443 : bool;
  d_cert_not_after : option Z;
  d_cert_ok : bool;
  d_check_error : option string;
  d_created_at : Z;
  d_updated_at : Z }.

Record NewManagedDomain := mkNewDomain { nd_host : string; nd_node_id : option Uuid; nd_proxied : bool; nd_notes : string }.
Record UpdateManagedDomain := mkUpdateDomain { ud_node_id : Patch Uuid; ud_proxied : option bool; ud_notes : option string }.

Record Estate := mkEstate { estate_nodes : gmap Uuid Node.Node; managed : gmap Uuid ManagedDomain; bell : Panel }.
Definition with_managed g (s : Estate) : Estate := mkEstate (estate_nodes s) (g (managed s)) (bell s).
Definition with_bell p (s : Estate) : Estate := mkEstate (estate_nodes s) (managed s) p.

#[local] Abbreviation M := (Handler.M Estate).

(** ** Queries *)

Section Rows.
Context (lower : string -> string) (pg_space : string -> bool).

(** The columns of managed_domains. *)
Definition host_storable (host : string) : bool :=
  String.eqb host (lower host) && negb (is_empty host)
  && negb (existsb (fun ch => String.eqb ch "/" || String.eqb ch ":" || pg_space ch) (chars host)).

Definition domain_checks (d : ManagedDomain) (s : Estate) : option db_error :=
  if negb (host_storable (d_host d)) then Some CheckViolation
  else if existsb (fun x => String.eqb (d_host x) (d_host d) && negb (d_id x =? d_id d)) (rows (managed s)) then Some UniqueViolation
  else if negb (map_or (d_node_id d) true (fun n => is_some (estate_nodes s !! n))) then Some ForeignKeyViolation
  else None.

Definition put_domain (d : ManagedDomain) (s : Estate) : result ManagedDomain db_error * Estate :=
  match domain_checks d s with Some e => (Err e, s) | None => (Ok d, with_managed (<[d_id d := d]>) s) end.

Definition list_managed_domains (s : Estate) : list ManagedDomain :=
  sort_by (fun a b => String.leb (d_host a) (d_host b)) (rows (managed s)).
Definition get_managed_domain (id : Uuid) (s : Estate) : option ManagedDomain := managed s !! id.

Definition create_managed_domain (id now : Z) (host : string) (node_id : option Uuid) (proxied : bool) (notes : string)
    : Estate -> result ManagedDomain db_error * Estate :=
  put_domain (mkDomain id host node_id proxied notes None false [] false None false None now now).

Definition update_managed_domain (now id : Z) (input : UpdateManagedDomain) (s : Estate)
    : result (option ManagedDomain) db_error * Estate :=
  match get_managed_domain id s with
  | None => (Ok None, s)
  | Some c =>
      let d := mkDomain (d_id c) (d_host c) (effective (ud_node_id input) (d_node_id c)) (coalesce (ud_proxied input) (d_proxied c))
                 (coalesce (ud_notes input) (d_notes c)) (d_last_checked_at c) (d_dns_ok c) (d_resolved_ips c) (d_reachable_443 c)
                 (d_cert_not_after c) (d_cert_ok c) (d_check_error c) (d_created_at c) now in
      match put_domain d s with (Ok d, s') => (Ok (Some d), s') | (Err e, s') => (Err e, s') end
  end.

Definition delete_managed_domain (id : Uuid) (s : Estate) : result bool db_error * Estate :=
  (Ok (is_some (managed s !! id)), with_managed (delete id) s).
End Rows.

(** ** A check *)

Record Verdict := mkVerdict {
  dns_ok : bool;
  resolved_ips : list string;
  reachable_443 : bool;
  cert_not_after : option Z;
  cert_ok : bool;
  v_error : option string }.

Definition checked (now : Z) (v : Verdict) (d : ManagedDomain) : ManagedDomain :=
  mkDomain (d_id d) (d_host d) (d_node_id d) (d_proxied d) (d_notes d) (Some now) (dns_ok v) (resolved_ips v) (reachable_443 v)
    (cert_not_after v) (cert_ok v) (v_error v) (d_created_at d) now.

Definition set_managed_domain_check (now id : Z) (v : Verdict) (s : Estate) : option ManagedDomain * Estate :=
  match managed s !! id with
  | None => (None, s)
  | Some d => (Some (checked now v d), with_managed (<[id := checked now v d]>) s)
  end.

(** What an attempt under a timeout comes to. *)
Inductive attempt (A : Type) := Done (a : A) | Failed (e : string) | TimedOut.
Arguments Done {A} a.
Arguments Failed {A} e.
Arguments TimedOut {A}.

(** The outside at the time of a check: DNS, the two connections to port 443, the
    handshake with the leaf certificate it shows, and the certificate's end. *)
Record World := mkWorld {
  lookup_host : string -> result (list string) string;
  connect : string -> attempt unit;
  connect_again : string -> attempt unit;
  server_name : string -> bool;
  handshake : string -> attempt (option string);
  parse_not_after : string -> result (option Z) string }.

Definition probe_cert (w : World) (now : Z) (host : string) : option Z * bool * option string :=
  match connect_again w host with
  | Failed e => (None, false, Some ("tls connect: " +:+ e))
  | TimedOut => (None, false, Some "tls connect: timed out")
  | Done _ =>
      if negb (server_name w host) then (None, false, Some "invalid tls server name")
      else match handshake w host with
           | Failed e => (None, false, Some ("tls handshake: " +:+ e))
           | TimedOut => (None, false, Some "tls handshake: timed out")
           | Done None => (None, false, Some "no peer certificate")
           | Done (Some leaf) =>
               match parse_not_after w leaf with
               | Ok not_after => (not_after, map_or not_after false (fun na => now <? na), None)
               | Err e => (None, false, Some ("cert parse: " +:+ e))
               end
           end
  end.

(** The DNS step: whether the answer suits, the answer, and what is wrong with it. *)
Definition resolve (w : World) (host : string) (proxied : bool) (expected_ip : option string) : bool * list string * option string :=
  let '(ips, error) := match lookup_host w host with
                       | Ok addrs => (addrs, None)
                       | Err e => ([], Some ("dns: " +:+ e))
                       end in
  let resolved := sort_dedup ips in
  let none := match resolved with [] => true | _ => false end in
  let ok := if none then false
            else if proxied then true
            else match expected_ip with Some expected => one_of resolved expected | None => true end in
  (ok, resolved,
   if negb ok && negb (is_some error) && negb none
   then Some ("resolves to " +:+ join ", " resolved +:+ " but not the node address") else error).

(** The TCP step, which keeps an earlier error. *)
Definition reach_443 (w : World) (host : string) (error : option string) : bool * option string :=
  match connect w host with
  | Done _ => (true, error)
  | Failed e => (false, opt_or error (Some ("tcp :443: " +:+ e)))
  | TimedOut => (false, opt_or error (Some "tcp :443: timed out"))
  end.

Definition verify (w : World) (now : Z) (host : string) (proxied : bool) (expected_ip : option string) : Verdict :=
  let '(ok, resolved, error) := resolve w host proxied expected_ip in
  let '(reachable, error) := reach_443 w host error in
  let '(not_after, valid, cert_err) := if reachable then probe_cert w now host else (None, false, None) in
  mkVerdict ok resolved reachable not_after valid (opt_or error cert_err).

Definition RENEW_WARN_DAYS : Z := 14.
Definition day : Z := 86400000000.
(** [num_days] rounds towards zero. *)
Definition num_days (span : Z) : Z := Z.quot span day.

Section Checks.
Context (uuid_str : Uuid -> string).

Definition expiry_alert (now : Z) (d : ManagedDomain) (v : Verdict) : option Alert :=
  let! not_after := cert_not_after v in
  let left_ := num_days (not_after - now) in
  if left_ <=? RENEW_WARN_DAYS
  then Some (mkAlert "cert_expiry" ("cert_expiry:" +:+ d_host d) (bytes_of [240; 159; 148; 146] +:+ " honey: certificate expiring")
               (d_host d +:+ " expires in " +:+ show left_ +:+ " day(s)") (uuid_str (d_id d)))
  else None.

Definition verdict_of (w : World) (now : Z) (nodes : gmap Uuid Node.Node) (d : ManagedDomain) : Verdict :=
  verify w now (d_host d) (d_proxied d) (let! n := d_node_id d in Node.address <$> nodes !! n).

Definition run_and_store (w : World) (m : Moment) (id : Uuid) (s : Estate) : option ManagedDomain * Estate :=
  match get_managed_domain id s with
  | None => (None, s)
  | Some d =>
      let v := verdict_of w (now m) (estate_nodes s) d in
      let s := match expiry_alert (now m) d v with Some a => with_bell (snd (alert m a (bell s))) s | None => s end in
      set_managed_domain_check (now m) id v s
  end.

(** A tick of the monitor; each check has a moment of its own. *)
Definition monitor_tick (is_leader : bool) (w : World) (moment : Uuid -> Moment) (s : Estate) : Estate :=
  if is_leader then fold_left (fun s id => snd (run_and_store w (moment id) id s)) (d_id <$> list_managed_domains s) s else s.
End Checks.

(** ** Handlers *)

Section Handlers.
Context (lower : string -> string) (pg_space : string -> bool) (uuid_str : Uuid -> string).

Definition domain_missing : api_error := NotFound "domain not found".

Definition list_domains : M (list ManagedDomain) := query list_managed_domains.
Definition get_domain (id : Uuid) : M ManagedDomain :=
  o ← query (get_managed_domain id); found o domain_missing.

Definition host_accepted (host : string) : bool :=
  negb (is_empty host || existsb (fun ch => String.eqb ch "/" || String.eqb ch ":" || is_whitespace ch) (chars host)).

Definition node_known (id : option Uuid) : M unit :=
  known ← query (fun s => map_or id true (fun n => is_some (estate_nodes s !! n)));
  refuse (negb known) (BadRequest "node_id does not exist").

Definition create_domain (id now : Z) (input : NewManagedDomain) : M ManagedDomain :=
  let host := to_ascii_lowercase (trim (nd_host input)) in
  _ ← refuse (negb (host_accepted host)) (BadRequest "host must be a bare domain (no scheme, port or path)");
  _ ← node_known (nd_node_id input);
  d ← statement (create_managed_domain lower pg_space id now host (nd_node_id input) (nd_proxied input) (trim (nd_notes input)));
  _ ← audit "create" "domain" (d_id d) (obj [("host", JString host)]);
  mret d.

Definition update_domain (id now : Z) (input : UpdateManagedDomain) : M ManagedDomain :=
  _ ← node_known (match ud_node_id input with Value n => Some n | _ => None end);
  o ← statement (update_managed_domain lower pg_space now id input);
  d ← found o domain_missing;
  _ ← audit "update" "domain" id (obj []);
  mret d.

Definition delete_domain (id : Uuid) : M unit :=
  gone ← statement (delete_managed_domain id);
  _ ← refuse (negb gone) domain_missing;
  audit "delete" "domain" id (obj []).

Definition verify_domain (w : World) (m : Moment) (id : Uuid) : M ManagedDomain :=
  o ← statement (fun s => let (o, s') := run_and_store uuid_str w m id s in (Ok o, s'));
  found o domain_missing.
End Handlers.

(** ** Properties *)

Definition keyed (s : Estate) : Prop := forall id d, managed s !! id = Some d -> d_id d = id.

Lemma resolve_clean w host proxied expected ok ips :
  resolve w host proxied expected = (ok, ips, None) ->
  exists l, lookup_host w host = Ok l /\ (l <> [] -> ok = true) /\ (ok = true -> proxied = false -> forall e, expected = Some e -> In e l).
Proof.
  unfold resolve. destruct (lookup_host w host) as [l|e]; [|by intros [=]].
  assert (Hl : forall x, In x (sort_dedup l) <-> In x l) by (intros x; apply sort_dedup_in). destruct (sort_dedup l) as [|x r] eqn:E.
  - intros [= <- <-]. exists l. split; [done|]. split; [|done]. intros Hne. destruct l as [|y l]; [done|]. by destruct (proj2 (Hl y) (or_introl eq_refl)).
  - cbn [negb is_some andb]. set (c := if proxied then _ else _). destruct c eqn:Ec; [|by intros [=]]. intros [= <- <-].
    exists l. split; [done|]. split; [done|]. intros _ -> e ->. unfold c, one_of in Ec. apply existsb_exists in Ec as (y & Hy & Ey).
    apply String.eqb_eq in Ey as <-. by apply Hl.
Qed.

Lemma probe_clean w t host na ok :
  probe_cert w t host = (na, ok, None) ->
  exists leaf, handshake w host = Done (Some leaf) /\ parse_not_after w leaf = Ok na /\ ok = map_or na false (fun na => t <? na).
Proof.
  unfold probe_cert. destruct (connect_again w host); try done. destruct (server_name w host); try done. simpl.
  destruct (handshake w host) as [[leaf|]| |]; try done. destruct (parse_not_after w leaf) eqn:En; try done.
  intros [= <- <-]. by exists leaf.
Qed.

(** A domain check that reports no error really went through: the name
    resolved, and to the node's address unless the domain is proxied or has no
    node; port 443 answered; and the certificate shown there was read, its end
    stored and judged against the clock. *)
Theorem clean_verdict w t host proxied expected :
  let v := verify w t host proxied expected in
  v_error v = None ->
  (exists ips, lookup_host w host = Ok ips /\ (ips <> [] -> dns_ok v = true) /\
     (dns_ok v = true -> proxied = false -> forall e, expected = Some e -> In e ips)) /\
  reachable_443 v = true /\
  exists leaf, handshake w host = Done (Some leaf) /\ parse_not_after w leaf = Ok (cert_not_after v) /\
    cert_ok v = map_or (cert_not_after v) false (fun na => t <? na).
Proof.
  unfold verify, reach_443. destruct (resolve w host proxied expected) as [[ok ips] e] eqn:Er.
  destruct (connect w host); destruct e; try done; destruct (probe_cert w t host) as [[na valid] ce] eqn:Ec; try done.
  simpl. intros ->. apply resolve_clean in Er. apply probe_clean in Ec. auto.
Qed.

(** ** The monitor *)

Section Watched.
Context (uuid_str : Uuid -> string).

Lemma run_and_store_row w m id s k :
  managed (run_and_store uuid_str w m id s).2 !! k =
  (if decide (k = id) then (fun d => checked (now m) (verdict_of w (now m) (estate_nodes s) d) d) <$> managed s !! id
   else managed s !! k).
Proof.
  unfold run_and_store, get_managed_domain, set_managed_domain_check. destruct (managed s !! id) as [d|] eqn:E.
  - assert (Hm : forall o : option Alert, managed (match o with Some a => with_bell (alert m a (bell s)).2 s | None => s end) = managed s) by (by intros []).
    rewrite Hm, E. simpl. rewrite Hm. destruct (decide (k = id)) as [->|Hk]; [by rewrite lookup_insert_eq|by rewrite lookup_insert_ne].
  - simpl. by destruct (decide (k = id)) as [->|].
Qed.

Lemma run_and_store_nodes w m id s : estate_nodes (run_and_store uuid_str w m id s).2 = estate_nodes s.
Proof.
  unfold run_and_store, set_managed_domain_check. destruct (get_managed_domain id s); [|done].
  destruct (expiry_alert _ _ _ _); simpl; by destruct (managed s !! id).
Qed.

(** The rows after checking the domains of a list of ids. *)
Lemma checks_rows w moment ids s k :
  NoDup ids ->
  let s' := fold_left (fun s id => (run_and_store uuid_str w (moment id) id s).2) ids s in
  estate_nodes s' = estate_nodes s /\
  managed s' !! k = (if decide (k ∈ ids) then (fun d => checked (now (moment k)) (verdict_of w (now (moment k)) (estate_nodes s) d) d) <$> managed s !! k
                     else managed s !! k).
Proof.
  revert s. induction ids as [|id ids IH]; intros s Hnd; [split; [done|by rewrite decide_False by set_solver]|].
  apply NoDup_cons in Hnd as [Hni Hnd]. cbn [fold_left]. destruct (IH (run_and_store uuid_str w (moment id) id s).2 Hnd) as [Hn Hm].
  split; [by rewrite Hn, run_and_store_nodes|]. rewrite Hm, run_and_store_nodes, run_and_store_row.
  destruct (decide (k = id)) as [->|Hk].
  - rewrite (decide_False (P := id ∈ ids)), (decide_True (P := id ∈ id :: ids)) by set_solver. by destruct (managed s !! id).
  - destruct (decide (k ∈ ids)); [by rewrite decide_True by set_solver|by rewrite decide_False by set_solver].
Qed.

Lemma listed_ids s : keyed s ->
  NoDup (d_id <$> list_managed_domains s) /\ forall k, k ∈ (d_id <$> list_managed_domains s) <-> is_Some (managed s !! k).
Proof.
  intros Hk. unfold list_managed_domains. rewrite sort_by_perm. split; [by apply rows_nodup|]. intros k.
  rewrite list_elem_of_fmap. split.
  - intros (d & -> & Hd). rewrite list_elem_of_In, sort_by_in, in_rows in Hd. destruct Hd as [j Hj]. rewrite (Hk _ _ Hj). by eexists.
  - intros [d Hd]. exists d. split; [by rewrite (Hk _ _ Hd)|]. rewrite list_elem_of_In, sort_by_in, in_rows. eauto.
Qed.

(** A tick of the leader's domain monitor checks every managed domain: each row
    comes out with the verdict of that domain's own check, taken against its
    node's address, stamped with the time of the check, and otherwise unchanged; no
    row appears or disappears.  Another instance's tick does nothing. *)
Theorem monitor_checks_all w moment s k :
  keyed s ->
  managed (monitor_tick uuid_str true w moment s) !! k =
    ((fun d => checked (now (moment k)) (verdict_of w (now (moment k)) (estate_nodes s) d) d) <$> managed s !! k) /\
  monitor_tick uuid_str false w moment s = s.
Proof.
  intros Hk. split; [|done]. destruct (listed_ids s Hk) as [Hnd Hin]. unfold monitor_tick.
  rewrite (proj2 (checks_rows w moment _ s k Hnd)). destruct (decide _) as [|Hn]; [done|].
  rewrite Hin in Hn. by destruct (managed s !! k); [destruct Hn; eexists|].
Qed.
End Watched.

(** ** The registry *)

Section Registry.
Context (lower : string -> string) (pg_space : string -> bool) (uuid_str : Uuid -> string).

(** Hosts are storable and belong to one row, and a row's node exists. *)
Definition estate_ok (s : Estate) : Prop :=
  keyed s /\
  (forall id d, managed s !! id = Some d ->
     host_storable lower pg_space (d_host d) = true /\ forall n, d_node_id d = Some n -> is_Some (estate_nodes s !! n)) /\
  (forall i j d e, managed s !! i = Some d -> managed s !! j = Some e -> d_host d = d_host e -> i = j).

Definition estate_kept (s s' : Estate) : Prop := estate_nodes s' = estate_nodes s /\ (estate_ok s -> estate_ok s').

#[export] Instance estate_kept_pre : PreOrder estate_kept.
Proof. split; [by intros s|]. intros s t u [H1 H2] [H3 H4]. split; [congruence|auto]. Qed.

Lemma domain_checks_none d s :
  domain_checks lower pg_space d s = None ->
  host_storable lower pg_space (d_host d) = true /\ (forall n, d_node_id d = Some n -> is_Some (estate_nodes s !! n)) /\
  (forall i e, managed s !! i = Some e -> d_host e = d_host d -> d_id e = d_id d).
Proof.
  unfold domain_checks. destruct (host_storable _ _ _); [|done]. simpl. destruct (existsb _ _) eqn:Ex; [done|].
  destruct (map_or _ _ _) eqn:En; [|done]. intros _. split; [done|]. split.
  - intros n Hn. rewrite Hn in En. simpl in En. by destruct (estate_nodes s !! n).
  - intros i e He Hh. apply Z.eqb_eq. destruct (d_id e =? d_id d) eqn:E; [done|]. exfalso. apply not_true_iff_false in Ex. apply Ex, existsb_exists.
    exists e. split; [apply in_rows; eauto|]. by rewrite Hh, String.eqb_refl, E.
Qed.

Lemma put_domain_kept d s : estate_kept s (put_domain lower pg_space d s).2.
Proof.
  unfold put_domain. destruct (domain_checks lower pg_space d s) eqn:E; [done|]. apply domain_checks_none in E as (Hh & Hn & Hu).
  split; [done|]. intros (Hk & Hr & Hd). unfold estate_ok, keyed. cbn [snd managed with_managed estate_nodes]. split; [|split].
  - intros id x [[<- <-]|[_ Hx]]%lookup_insert_Some; [done|by apply Hk].
  - intros id x [[<- <-]|[_ Hx]]%lookup_insert_Some; [done|by apply (Hr id)].
  - intros i j x y [[<- <-]|[Hi Hx]]%lookup_insert_Some [[<- <-]|[Hj Hy]]%lookup_insert_Some E; [done| | |by eapply Hd].
    + apply Hu in Hy as Hid; [|done]. by rewrite (Hk _ _ Hy) in Hid.
    + apply Hu in Hx as Hid; [|done]. by rewrite (Hk _ _ Hx) in Hid.
Qed.

Lemma update_managed_domain_kept t id u s : estate_kept s (update_managed_domain lower pg_space t id u s).2.
Proof.
  unfold update_managed_domain. destruct (get_managed_domain id s); [|done].
  match goal with |- context [put_domain _ _ ?d s] => assert (H := put_domain_kept d s); by destruct (put_domain lower pg_space d s) as [[]] end.
Qed.

Lemma delete_managed_domain_kept id s : estate_kept s (delete_managed_domain id s).2.
Proof.
  split; [done|]. intros (Hk & Hr & Hd). unfold estate_ok, keyed. cbn [delete_managed_domain snd managed with_managed estate_nodes].
  split; [|split]; setoid_rewrite lookup_delete_Some; naive_solver.
Qed.

Lemma run_and_store_kept w m id s : estate_kept s (run_and_store uuid_str w m id s).2.
Proof.
  split; [apply run_and_store_nodes|]. intros (Hk & Hr & Hd).
  assert (Hc : forall k d', managed (run_and_store uuid_str w m id s).2 !! k = Some d' ->
    exists d, managed s !! k = Some d /\ d_id d' = d_id d /\ d_host d' = d_host d /\ d_node_id d' = d_node_id d).
  { intros k d'. rewrite run_and_store_row. destruct (decide (k = id)) as [->|]; [|by eauto].
    destruct (managed s !! id) as [d|]; [|done]. intros [= <-]. by exists d. }
  split; [|split].
  - intros k d' (d & H & -> & _)%Hc. by apply Hk.
  - intros k d' (d & H & _ & -> & ->)%Hc. rewrite run_and_store_nodes. by apply (Hr k).
  - intros i j x y (d & H & _ & -> & _)%Hc (e & H' & _ & -> & _)%Hc. by apply Hd with (1 := H).
Qed.

Inductive domain_request :=
| Register (id t : Z) (i : NewManagedDomain)
| Alter (id t : Z) (u : UpdateManagedDomain)
| Drop_ (id : Uuid)
| Verify (w : World) (m : Moment) (id : Uuid)
| Tick (leader : bool) (w : World) (moment : Uuid -> Moment).

Definition serve_domain (q : domain_request) (s : St Estate) : St Estate :=
  match q with
  | Register id t i => (create_domain lower pg_space id t i s).2
  | Alter id t u => (update_domain lower pg_space id t u s).2
  | Drop_ id => (delete_domain id s).2
  | Verify w m id => (verify_domain uuid_str w m id s).2
  | Tick leader w moment => mkSt (monitor_tick uuid_str leader w moment (store s)) (trace s)
  end.

Lemma serve_domain_kept q s : estate_kept (store s) (store (serve_domain q s)).
Proof.
  destruct q; simpl.
  - revert s. change (Keeps estate_kept (create_domain lower pg_space id t i)). unfold create_domain, node_known. keeps.
    apply keeps_statement. intros s. apply put_domain_kept.
  - revert s. change (Keeps estate_kept (update_domain lower pg_space id t u)). unfold update_domain, node_known. keeps.
    apply keeps_statement. intros s. apply update_managed_domain_kept.
  - revert s. change (Keeps estate_kept (delete_domain id)). unfold delete_domain. keeps. apply keeps_statement, delete_managed_domain_kept.
  - revert s. change (Keeps estate_kept (verify_domain uuid_str w m id)). unfold verify_domain. keeps. apply keeps_statement. intros s.
    assert (H := run_and_store_kept w m id s). by destruct (run_and_store uuid_str w m id s).
  - destruct leader; [|done]. unfold monitor_tick. generalize (d_id <$> list_managed_domains (store s)). intros ids.
    generalize (store s). induction ids as [|id ids IH]; intros e; [done|]. simpl. etrans; [apply run_and_store_kept|apply IH].
Qed.

(** Whatever the requests and the checks of the monitor, in any order, the
    registry of managed domains stays well formed: every host is a bare lower-case
    name that one row has, every node a row names exists, and no check moves a
    domain to another host or node. *)
Theorem registry_stays_wellformed l s :
  estate_ok (store s) -> estate_ok (store (fold_left (fun s q => serve_domain q s) l s)).
Proof. revert s. induction l as [|q l IH]; [done|]. intros s Hs. by apply IH, serve_domain_kept. Qed.
End Registry.

(** ** Witnesses *)

Definition sunny : World :=
  mkWorld (fun _ => Ok ["203.0.113.7"]) (fun _ => Done tt) (fun _ => Done tt) (fun _ => true) (fun _ => Done (Some "leaf")) (fun _ => Ok (Some (20 * day))).

Lemma clean_verdict_witness : cert_ok (verify sunny 0 "a.example" false (Some "203.0.113.7")) = true.
Proof.
  destruct (clean_verdict sunny 0 "a.example" false (Some "203.0.113.7") eq_refl) as (_ & _ & leaf & _ & _ & H).
  rewrite H. reflexivity.
Defined.

Definition one_domain : ManagedDomain := mkDomain 3 "a.example" None false "" None false [] false None false None 0 0.
Definition small_estate : Estate := mkEstate ∅ {[3 := one_domain]} (mkPanel quiet ∅).

Lemma small_estate_keyed : keyed small_estate.
Proof. intros id d H. cbn [managed small_estate] in H. apply lookup_singleton_Some in H as [<- <-]. reflexivity. Qed.

Lemma monitor_checks_all_witness :
  (d_dns_ok <$> managed (monitor_tick show true sunny (fun id => mkMoment id 5 5 true true) small_estate) !! 3) = Some true.
Proof.
  rewrite (proj1 (monitor_checks_all show sunny (fun id => mkMoment id 5 5 true true) small_estate 3 small_estate_keyed)).
  reflexivity.
Defined.

Lemma registry_stays_wellformed_witness :
  estate_ok to_ascii_lowercase is_whitespace
    (store (fold_left (fun s q => serve_domain to_ascii_lowercase is_whitespace show q s)
       [Register 4 0 (mkNewDomain " B.example " None true ""); Drop_ 3] (mkSt small_estate []))).
Proof.
  apply registry_stays_wellformed. split; [apply small_estate_keyed|]. split.
  - intros id d H. cbn [store managed small_estate] in H. apply lookup_singleton_Some in H as [<- <-]. split; [reflexivity|discriminate].
  - intros i j d e H H'. cbn [store managed small_estate] in H, H'. apply lookup_singleton_Some in H as [<- _], H' as [<- _]. reflexivity.
Defined.
