(* ===== verification/PanelHost.v ===== *)
(** * Panel hosting (src/master/src/panel.rs, the panel_domains table, and the
    [domain] commands of src/master/src/main.rs)

    The URL parser, the database's [lower] and [pg_space], and the embedded files
    are parameters. *)

From S2P Require Import Prelude Strings Ip Models Db Auth Router.

(** ** Targets *)

(** What the parser of URLs tells of one. *)
Record Url := mkUrl {
  scheme : string;
  username : string;
  password : option string;
  query : option string;
  fragment : option string;
  host_str : option string }.

Record PanelTarget := mkTarget { t_host : string; t_base_path : string }.

(** The loop that pops slashes off the end of a path that starts with one, while
    more than one byte is left. *)
Definition pop_slashes (path : string) : string :=
  let kept := trim_end_matches "/" path in if is_empty kept then "/" else kept.

Definition path_byte (c : ascii) : bool :=
  is_alphanumeric c || existsb (Ascii.eqb c) ["/"; "-"; "_"; "."; "~"]%char.

Definition normalize_path (input : string) : result string string :=
  let path := trim input in
  let path := if starts_with "/" path then path else "/" +:+ path in
  let path := pop_slashes path in
  if String.eqb path "/" then Err "panel must use a non-root path, for example /panel"
  else if contains "//" path || existsb (one_of ["."; ".."]) (split "/" path) || negb (all_bytes path_byte path)
  then Err "panel path may contain only URL-safe letters, digits, /, -, _, . and ~"
  else Ok path.

Section Parsing.
Context (url_parse : string -> option Url).

(** [split_once] with a string. *)
Fixpoint split_at (sep s : string) : option string :=
  if starts_with sep s then Some (drop_bytes (String.length sep) s)
  else match s with "" => None | String _ s' => split_at sep s' end.

(** The rest of a string from its first slash. *)
Fixpoint from_slash (s : string) : option string :=
  match s with "" => None | String c s' => if Ascii.eqb c "/" then Some s else from_slash s' end.

Definition parse (input : string) (path_override : option string) : result PanelTarget string :=
  let input := trim input in
  bail "domain must not be empty" when is_empty input in
  let source := if contains "://" input then input else "https://" +:+ input in
  let? url := match url_parse source with Some u => Ok u | None => Err "invalid panel domain or URL" end in
  bail "panel URL scheme must be http or https" when negb (one_of ["http"; "https"] (scheme url)) in
  bail "panel URL must not contain credentials" when (negb (is_empty (username url)) || is_some (password url)) in
  bail "panel URL must not contain a query or fragment" when (is_some (query url) || is_some (fragment url)) in
  let? host := match host_str url with Some h => Ok (to_ascii_lowercase h) | None => Err "panel URL has no host" end in
  bail "use a DNS name or IPv4 address without a port" when existsb (one_of [":"; "/"; " "]) (chars host) in
  let authority_and_path := default input (split_at "://" input) in
  let raw_path := default "/panel" (opt_or path_override (from_slash authority_and_path)) in
  let? base_path := normalize_path raw_path in
  Ok (mkTarget host base_path).
End Parsing.

Definition url (t : PanelTarget) : string := "https://" +:+ t_host t +:+ t_base_path t.

(** ** Rows *)

Record PanelDomain := mkPanelDomain { pd_host : string; pd_base_path : string; pd_enabled : bool }.

(** (^|/)\.\.?(/|$) *)
Definition dotted (path : string) : bool := existsb (one_of ["."; ".."]) (split "/" path).

Section Hosting.
Context (lower : string -> string) (pg_space : string -> bool).

Definition panel_checks (d : PanelDomain) : bool :=
  String.eqb (pd_host d) (lower (pd_host d)) && negb (is_empty (pd_host d))
  && negb (existsb (fun ch => String.eqb ch "/" || String.eqb ch ":" || pg_space ch) (chars (pd_host d)))
  && starts_with "/" (pd_base_path d) && all_bytes path_byte (pd_base_path d) && negb (String.eqb (pd_base_path d) "/")
  && negb (ends_with "/" (pd_base_path d)) && negb (contains "//" (pd_base_path d)) && negb (dotted (pd_base_path d)).

Definition same_panel (host base_path : string) (d : PanelDomain) : bool :=
  String.eqb (pd_host d) host && String.eqb (pd_base_path d) base_path.

Definition list_panel_domains (l : list PanelDomain) : list PanelDomain :=
  sort_by (fun a b => if String.eqb (pd_host a) (pd_host b) then String.leb (pd_base_path a) (pd_base_path b)
                      else String.leb (pd_host a) (pd_host b)) l.

(** An existing row is enabled again. *)
Definition add_panel_domain (host base_path : string) (l : list PanelDomain) : result PanelDomain db_error * list PanelDomain :=
  let d := mkPanelDomain host base_path true in
  if negb (panel_checks d) then (Err CheckViolation, l)
  else if existsb (same_panel host base_path) l then (Ok d, (fun x => if same_panel host base_path x then d else x) <$> l)
  else (Ok d, l ++ [d]).

Definition remove_panel_domain (host base_path : string) (l : list PanelDomain) : bool * list PanelDomain :=
  (existsb (same_panel host base_path) l, List.filter (fun d => negb (same_panel host base_path d)) l).

Definition covers (path : string) (d : PanelDomain) : bool :=
  String.eqb (pd_base_path d) path || starts_with (pd_base_path d +:+ "/") path.

Definition find_panel_domain (host path : string) (l : list PanelDomain) : option PanelDomain :=
  head (sort_by (fun a b => char_count (pd_base_path b) <=? char_count (pd_base_path a))
          (List.filter (fun d => pd_enabled d && String.eqb (pd_host d) host && covers path d) l)).

(** ** The commands *)

Inductive DomainAction :=
| Add (target : string) (path : option string)
| List_
| Remove (target : string) (path : option string).

Inductive command_error := BadTarget (e : string) | Database (e : db_error).

(** What a command prints, and the rows after it. *)
Definition domain_command (url_parse : string -> option Url) (a : DomainAction) (l : list PanelDomain)
    : result (list string) command_error * list PanelDomain :=
  match a with
  | Add target path =>
      match parse url_parse target path with
      | Err e => (Err (BadTarget e), l)
      | Ok t =>
          match add_panel_domain (t_host t) (t_base_path t) l with
          | (Err e, l') => (Err (Database e), l')
          | (Ok _, l') => (Ok ["panel added: " +:+ url t;
                               "point DNS and your TLS reverse proxy at honey-master; Host + path are now allowed"], l')
          end
      end
  | List_ =>
      (Ok (match list_panel_domains l with
           | [] => ["no panel domains. add one with: honey-master domain add example.com/panel"]
           | ds => (fun d => (if pd_enabled d then "on" else "off") +:+ String (ascii_of_nat 9) "" +:+ "https://" +:+ pd_host d +:+ pd_base_path d) <$> ds
           end), l)
  | Remove target path =>
      match parse url_parse target path with
      | Err e => (Err (BadTarget e), l)
      | Ok t =>
          let (gone, l') := remove_panel_domain (t_host t) (t_base_path t) l in
          (Ok [(if gone then "panel removed: " else "nothing to remove: ") +:+ url t], l')
      end
  end.

(** ** Serving *)

Definition host_without_port (authority : string) : option string :=
  let authority := trim authority in
  if is_empty authority then None
  else if starts_with "[" authority
       then let! rest := strip_prefix "[" authority in fst <$> split_once "]" rest
       else Some (map_or (split_once ":" authority) authority fst).

Inductive page :=
| Index
| Css
| Js
| Font
| FontLicense.

Inductive panel_answer :=
| Page (p : page) (content_type cache : string)
| RedirectTo (location : string)
| NoPage
| LookupFailed.

Definition asset (relative : string) : panel_answer :=
  if is_empty relative then Page Index "text/html; charset=utf-8" "no-cache"
  else if String.eqb relative "app.css" then Page Css "text/css; charset=utf-8" "public, max-age=3600, must-revalidate"
  else if String.eqb relative "app.js" then Page Js "text/javascript; charset=utf-8" "public, max-age=3600, must-revalidate"
  else if String.eqb relative "assets/PretendardVariable.woff2" then Page Font "font/woff2" "public, max-age=31536000, immutable"
  else if String.eqb relative "assets/PRETENDARD-LICENSE.txt"
       then Page FontLicense "text/plain; charset=utf-8" "public, max-age=31536000, immutable"
  else if negb (contains "." relative) then Page Index "text/html; charset=utf-8" "no-cache"
  else NoPage.

Definition serve (lookup_fails : bool) (hs : headers) (path : string) (l : list PanelDomain) : panel_answer :=
  match (let! v := header "host" hs in host_without_port v) with
  | None => NoPage
  | Some host =>
      if lookup_fails then LookupFailed
      else match find_panel_domain (to_ascii_lowercase host) path l with
           | None => NoPage
           | Some domain =>
               if String.eqb path (pd_base_path domain) then RedirectTo (pd_base_path domain +:+ "/")
               else asset (trim_start_matches "/" (default path (strip_prefix (pd_base_path domain) path)))
           end
  end.
End Hosting.

Definition panel_headers (content_type cache : string) : list (string * string) :=
  [("content-type", content_type); ("cache-control", cache); ("x-content-type-options", "nosniff"); ("x-frame-options", "DENY");
   ("referrer-policy", "same-origin");
   ("content-security-policy",
    "default-src 'self'; script-src 'self'; style-src 'self'; font-src 'self'; connect-src 'self'; img-src 'self' data:; frame-ancestors 'none'; base-uri 'self'; form-action 'self'")].

(** ** Paths that are accepted can be stored *)

Lemma trim_end_shape c s : ends_with (String c "") (trim_end_matches c s) = false.
Proof.
  induction s as [|d s IH]; [done|]. cbn [trim_end_matches]. destruct (Ascii.eqb_spec c d) as [->|Hc]; cbn [andb].
  - destruct (is_empty (trim_end_matches d s)) eqn:E; [done|]. cbn [ends_with]. rewrite IH, eqb_cons, Ascii.eqb_refl.
    unfold is_empty in E. by rewrite E.
  - cbn [ends_with]. rewrite IH, eqb_cons, (proj2 (Ascii.eqb_neq d c)) by congruence. done.
Qed.

Lemma pop_slashes_shape s : starts_with "/" s = true ->
  starts_with "/" (pop_slashes s) = true /\ (pop_slashes s <> "/" -> ends_with "/" (pop_slashes s) = false).
Proof.
  intros Hs. unfold pop_slashes. destruct (is_empty (trim_end_matches "/" s)) eqn:E; [done|]. split; [|intros _; apply trim_end_shape].
  destruct s as [|c s]; [done|]. rewrite starts_with_cons in Hs. apply andb_true_iff in Hs as [Hc _]. apply Ascii.eqb_eq in Hc as <-.
  cbn [trim_end_matches] in *. destruct (Ascii.eqb "/" "/" && _); [done|]. by rewrite starts_with_cons; destruct (trim_end_matches "/" s).
Qed.

Lemma normalize_path_shape p q :
  normalize_path p = Ok q ->
  starts_with "/" q = true /\ all_bytes path_byte q = true /\ q <> "/" /\ ends_with "/" q = false /\ contains "//" q = false /\ dotted q = false.
Proof.
  unfold normalize_path. set (s := if starts_with "/" (trim p) then trim p else "/" +:+ trim p).
  assert (Hs : starts_with "/" s = true) by (unfold s; destruct (starts_with "/" (trim p)) eqn:E; [done|]; by destruct (trim p)).
  destruct (pop_slashes_shape s Hs) as [H1 H2]. destruct (String.eqb_spec (pop_slashes s) "/") as [|Hne]; [done|].
  destruct (contains "//" _) eqn:Ec; [done|]. destruct (existsb _ _) eqn:Ed; [done|]. destruct (all_bytes _ _) eqn:Eb; [|done].
  simpl. intros [= <-]. auto 10.
Qed.

Section Serving.
Context (lower : string -> string) (pg_space : string -> bool) (url_parse : string -> option Url).

(** The host of a target is one the table takes. *)
Definition host_ok (host : string) : Prop :=
  host <> "" /\ lower host = host /\ existsb (fun ch => String.eqb ch "/" || String.eqb ch ":" || pg_space ch) (chars host) = false.

Lemma parse_path target path t : parse url_parse target path = Ok t -> exists p, normalize_path p = Ok (t_base_path t).
Proof.
  unfold parse. destruct (is_empty _); [done|]. destruct (url_parse _) as [u|]; [|done]. destruct (negb _); [done|].
  destruct (_ || _); [done|]. destruct (_ || _); [done|]. destruct (host_str u); [|done]. destruct (existsb _ _); [done|].
  destruct (normalize_path _) as [q|] eqn:E; [|done]. intros [= <-]. eauto.
Qed.

Lemma target_storable target path t :
  parse url_parse target path = Ok t -> host_ok (t_host t) -> panel_checks lower pg_space (mkPanelDomain (t_host t) (t_base_path t) true) = true.
Proof.
  intros (p & H)%parse_path (Hn & Hl & Hc). apply normalize_path_shape in H as (H1 & H2 & H3 & H4 & H5 & H6).
  unfold panel_checks. cbn [pd_host pd_base_path]. rewrite Hl, String.eqb_refl, Hc, H1, H2, H4, H5, H6.
  apply String.eqb_neq in H3 as ->. unfold is_empty. by apply String.eqb_neq in Hn as ->.
Qed.

(** ** What is served *)

Lemma char_count_ascii s : all_bytes (fun c => negb (is_continuation c)) s = true -> char_count s = Z.of_nat (String.length s).
Proof.
  unfold char_count. intros H. f_equal. induction s as [|c s IH]; [done|]. simpl in H. apply andb_true_iff in H as [_ H].
  cbn [chars String.length]. rewrite <- (IH H). clear IH. destruct s as [|d s]; [done|].
  assert (Hd : exists ch r, chars (String d s) = String d ch :: r).
  { cbn [chars]. destruct (chars s) as [|[|x y] r]; [by eexists _, _..|]. destruct (is_continuation x); by eexists _, _. }
  destruct Hd as (ch & r & E). rewrite E. simpl in H. apply andb_true_iff in H as [Hd _]. apply negb_true_iff in Hd. by rewrite Hd.
Qed.

Lemma path_byte_ascii c : path_byte c = true -> negb (is_continuation c) = true.
Proof. destruct c as [[] [] [] [] [] [] [] []]; vm_compute; done. Qed.

Lemma base_count d : panel_checks lower pg_space d = true -> char_count (pd_base_path d) = Z.of_nat (String.length (pd_base_path d)).
Proof.
  unfold panel_checks. rewrite !andb_true_iff. intros H. apply char_count_ascii. eapply all_bytes_impl; [apply path_byte_ascii|]. apply H.
Qed.

Lemma found_domain host path l d :
  find_panel_domain host path l = Some d ->
  In d l /\ pd_enabled d = true /\ pd_host d = host /\ covers path d = true /\
  forall e, In e l -> pd_enabled e = true -> pd_host e = host -> covers path e = true -> char_count (pd_base_path e) <= char_count (pd_base_path d).
Proof.
  unfold find_panel_domain. set (f := List.filter _ l). set (le := fun a b : PanelDomain => _). intros Hh.
  assert (Hin : forall x, In x (sort_by le f) <-> In x l /\ pd_enabled x && String.eqb (pd_host x) host && covers path x = true)
    by (intros x; by rewrite sort_by_in; unfold f; rewrite filter_In).
  assert (Hsort : StronglySorted (fun a b => char_count (pd_base_path b) <= char_count (pd_base_path a)) (sort_by le f)).
  { apply sort_by_coarse; unfold le; intros *; breflect; lia. }
  destruct (sort_by le f) as [|x r]; [done|]. simpl in Hh. injection Hh as ->.
  destruct (proj1 (Hin d) (or_introl eq_refl)) as [H H']. breflect. destruct H' as [[He Hhost] Hc]. do 4 (split; [done|]).
  intros e H1 H2 H3 H4. assert (Hi : In e (d :: r)) by (apply Hin; rewrite H2, H3, H4, String.eqb_refl; done).
  destruct Hi as [<-|Hi]; [lia|]. apply StronglySorted_inv in Hsort as [_ Hs]. rewrite Forall_forall in Hs. by apply Hs, list_elem_of_In.
Qed.

Lemma ends_with_app c s : ends_with (String c "") (s +:+ String c "") = true.
Proof.
  induction s as [|d s IH]; [by simpl; rewrite Ascii.eqb_refl|].
  change (String d s +:+ String c "") with (String d (s +:+ String c "")). cbn [ends_with]. by rewrite IH, orb_true_r.
Qed.

Lemma append_inj_r a b c : a +:+ c = b +:+ c -> a = b.
Proof.
  revert b. induction a as [|x a IH]; intros [|y b] H; [done| | |].
  - exfalso. apply (f_equal String.length) in H. rewrite !string_length_app in H. simpl in H. lia.
  - exfalso. apply (f_equal String.length) in H. rewrite !string_length_app in H. simpl in H. lia.
  - injection H as -> H. f_equal. by apply IH.
Qed.

(** The longest base path that covers the root of a panel is its own. *)
Lemma covering_root d base :
  panel_checks lower pg_space d = true -> covers (base +:+ "/") d = true ->
  Z.of_nat (String.length base) <= char_count (pd_base_path d) -> pd_base_path d = base.
Proof.
  intros Hd Hc Hl. rewrite base_count in Hl by done. unfold covers in Hc. apply orb_true_iff in Hc as [Hc|Hc].
  - apply String.eqb_eq in Hc. unfold panel_checks in Hd. rewrite !andb_true_iff, Hc in Hd. by rewrite ends_with_app in Hd; destruct Hd as [[[_ Hd] _] _].
  - pose proof (strip_prefix_inv (pd_base_path d +:+ "/") (base +:+ "/")) as H.
    destruct (strip_prefix _ _) as [rest|]; [|by rewrite H in Hc].
    assert (Hn := f_equal String.length H). rewrite !string_length_app in Hn. simpl in Hn. destruct rest; [|simpl in Hn; lia].
    rewrite append_nil_r in H. by apply append_inj_r in H.
Qed.

Lemma add_panel_domain_ok host base l d l' :
  add_panel_domain lower pg_space host base l = (Ok d, l') -> Forall (fun d => panel_checks lower pg_space d = true) l ->
  In (mkPanelDomain host base true) l' /\ Forall (fun d => panel_checks lower pg_space d = true) l'.
Proof.
  unfold add_panel_domain. destruct (panel_checks lower pg_space _) eqn:E; [|done]. simpl. destruct (existsb _ l) eqn:Ex; intros [= <- <-] Hl.
  - split.
    + apply existsb_exists in Ex as (x & Hx & Hs). apply list_elem_of_In, list_elem_of_fmap. exists x. rewrite Hs. split; [done|by apply list_elem_of_In].
    + apply Forall_fmap. eapply Forall_impl; [exact Hl|]. intros x Hx. simpl. by destruct (same_panel host base x).
  - split; [apply in_or_app; right; by left|]. apply Forall_app. by split; [|constructor].
Qed.

(** The panel is shown only where it was put.  Whatever the request, an answer
    other than "not found" needs a registered and enabled row whose host is the
    request's, without its port and in lower case, and whose base path is the path or
    a whole-segment prefix of it. *)
Theorem panel_confined fails hs path l :
  match serve fails hs path l with
  | Page _ _ _ | RedirectTo _ =>
      exists v h d, header "host" hs = Some v /\ host_without_port v = Some h /\
        In d l /\ pd_enabled d = true /\ pd_host d = to_ascii_lowercase h /\
        (path = pd_base_path d \/ exists rest, path = pd_base_path d +:+ "/" +:+ rest)
  | _ => True
  end.
Proof.
  unfold serve. destruct (header "host" hs) as [v|]; [|done]. destruct (host_without_port v) as [h|] eqn:Eh; [|done].
  destruct fails; [done|]. destruct (find_panel_domain _ path l) as [d|] eqn:Ef; [|done].
  apply found_domain in Ef as (Hin & He & Hh & Hc & _).
  assert (Hcov : path = pd_base_path d \/ exists rest, path = pd_base_path d +:+ "/" +:+ rest).
  { unfold covers in Hc. apply orb_true_iff in Hc as [Hc|Hc]; [left; by apply String.eqb_eq in Hc|right].
    pose proof (strip_prefix_inv (pd_base_path d +:+ "/") path) as H. destruct (strip_prefix _ _) as [rest|]; [|by rewrite H in Hc].
    exists rest. by rewrite H, append_assoc. }
  destruct (if String.eqb path _ then _ else _); try done; by exists v, h, d.
Qed.

(** A panel that is added answers: when the [domain add] command accepts a
    target, a request for the target's path with a slash, whose Host header is the
    target's host in any case and with any port, gets the panel's page; the command
    cannot fail on the table's constraints unless the host does; and once [domain
    remove] ran, nothing answers there unless another panel of the host covers it. *)
Theorem added_panel_answers target path t l hs v h :
  parse url_parse target path = Ok t -> host_ok (t_host t) ->
  Forall (fun d => panel_checks lower pg_space d = true) l ->
  header "host" hs = Some v -> host_without_port v = Some h -> to_ascii_lowercase h = t_host t ->
  exists out l' out' l'',
    domain_command lower pg_space url_parse (Add target path) l = (Ok out, l') /\
    serve false hs (t_base_path t +:+ "/") l' = Page Index "text/html; charset=utf-8" "no-cache" /\
    domain_command lower pg_space url_parse (Remove target path) l' = (Ok out', l'') /\
    (Forall (fun d => pd_host d = t_host t -> covers (t_base_path t +:+ "/") d = false) l'' ->
     serve false hs (t_base_path t +:+ "/") l'' = NoPage).
Proof.
  intros Ht Hh Hl Hv Hp Hlow. assert (Hst := target_storable _ _ _ Ht Hh). unfold domain_command. rewrite Ht.
  destruct (add_panel_domain lower pg_space (t_host t) (t_base_path t) l) as [[d|e] l'] eqn:Ea;
    [|unfold add_panel_domain in Ea; rewrite Hst in Ea; simpl in Ea; by destruct (existsb _ _)].
  destruct (add_panel_domain_ok _ _ _ _ _ Ea Hl) as [Hin Hl'].
  do 4 eexists. split; [reflexivity|]. unfold serve. rewrite Hv. simpl. rewrite Hp, Hlow. split; [|split; [reflexivity|]].
  - assert (Hcov : covers (t_base_path t +:+ "/") (mkPanelDomain (t_host t) (t_base_path t) true) = true).
    { unfold covers. cbn [pd_base_path]. assert (Hself := starts_with_app (t_base_path t +:+ "/") "").
      rewrite append_nil_r in Hself. by rewrite Hself, orb_true_r. }
    destruct (find_panel_domain _ _ l') as [x|] eqn:Ef.
    + apply found_domain in Ef as (Hx & He & Hhost & Hc & Hmax). specialize (Hmax _ Hin eq_refl eq_refl Hcov).
      rewrite (base_count _ Hst) in Hmax. rewrite Forall_forall in Hl'.
      rewrite (covering_root x (t_base_path t)); [|by apply Hl', list_elem_of_In|done|done].
      destruct (String.eqb_spec (t_base_path t +:+ "/") (t_base_path t)) as [E|_].
      { apply (f_equal String.length) in E. rewrite string_length_app in E. simpl in E. lia. }
      by rewrite strip_prefix_app.
    + exfalso. unfold find_panel_domain in Ef. apply head_None in Ef. 
      assert (Hi : In (mkPanelDomain (t_host t) (t_base_path t) true) []) by (rewrite <- Ef, sort_by_in, filter_In; split; [done|]; by rewrite Hcov; simpl; rewrite String.eqb_refl).
      destruct Hi.
  - intros Hno. destruct (find_panel_domain _ _ _) as [x|] eqn:Ef; [|done]. apply found_domain in Ef as (Hx & _ & Hhost & Hc & _).
    rewrite Forall_forall in Hno. rewrite Hno in Hc; [done|by apply list_elem_of_In|done].
Qed.
End Serving.

(** ** Under the router *)

(** The first segments of the API's paths. *)
Definition api_roots : list string := (fun r => nth 1 (split "/" r.1) "") <$> routes.

(** The panel is not shadowed by the API: under a base path whose first segment is
    not one of the API's own, no route fits, so the router hands every request to
    the panel, whatever its method and credentials, and leaves the database alone. *)
Theorem panel_reached (find_pattern : list string -> string -> option string) (accepts : param_type -> string -> bool)
    (find_pattern_law : forall ps path p, find_pattern ps path = Some p -> In p ps /\ fits p path = true)
    (token_hash : string -> string) (Net : Type) (parse_net : string -> option Net) (net_contains : Net -> IpAddr -> bool)
    (api_token : option string) f now r db root rest :
  req_path r = "/" +:+ root +:+ "/" +:+ rest -> no_slash root = true -> one_of api_roots root = false ->
  router find_pattern accepts token_hash Net parse_net net_contains api_token f now r db = (Panel, db).
Proof.
  intros Hp Hr Hno. unfold router. destruct (find_pattern _ _) as [p|] eqn:E; [|done]. exfalso.
  apply find_pattern_law in E as [Hin Hf]. unfold fits in Hf. rewrite Hp in Hf.
  change (split "/" ("/" +:+ root +:+ "/" +:+ rest)) with ("" :: split "/" (root +:+ "/" +:+ rest)) in Hf.
  assert (Hs : split "/" (root +:+ "/" +:+ rest) = root :: split "/" rest) by (by apply split_app). rewrite Hs in Hf.
  assert (Hc : forallb (fun p => match split "/" p with _ :: q :: _ => one_of api_roots q && negb (is_param q) | _ => true end) (fst <$> routes) = true)
    by (vm_compute; reflexivity).
  rewrite forallb_forall in Hc. specialize (Hc p Hin). destruct (split "/" p) as [|q0 [|q l]]; try done; [by simpl in Hf; rewrite andb_false_r in Hf|].
  cbn [segments_fit] in Hf. apply andb_true_iff in Hc as [Hq Hn]. apply negb_true_iff in Hn. rewrite Hn in Hf.
  rewrite !andb_true_iff in Hf. destruct Hf as (_ & Hf & _). apply String.eqb_eq in Hf as ->. by rewrite Hq in Hno.
Qed.

(** ** Witnesses *)

Definition plain_url (s : string) : option Url := Some (mkUrl "https" "" None None None (Some "Panel.example")).
Definition asked : headers := [("host", "PANEL.example:8443")].

Lemma added_panel_answers_witness :
  exists l', (domain_command to_ascii_lowercase is_whitespace plain_url (Add "Panel.example/admin/" None) []).2 = l' /\
    serve false asked "/admin/" l' = Page Index "text/html; charset=utf-8" "no-cache".
Proof.
  destruct (added_panel_answers to_ascii_lowercase is_whitespace plain_url "Panel.example/admin/" None
    (mkTarget "panel.example" "/admin") [] asked "PANEL.example:8443" "PANEL.example") as (out & l' & out' & l'' & H1 & H2 & _).
  - vm_compute. reflexivity.
  - split; [discriminate|split; vm_compute; reflexivity].
  - constructor.
  - vm_compute. reflexivity.
  - vm_compute. reflexivity.
  - vm_compute. reflexivity.
  - exists l'. split; [by rewrite H1|exact H2].
Defined.

Lemma panel_reached_witness :
  (router first_fit spelled (fun s => s) unit (fun _ => None) (fun _ _ => false) None no_faults 0
     (mkRequest GET "/panel/users" []) reseller_db).1 = Panel.
Proof.
  rewrite (panel_reached first_fit spelled first_fit_law (fun s => s) unit (fun _ => None) (fun _ _ => false) None no_faults 0
    (mkRequest GET "/panel/users" []) reseller_db "panel" "users"); reflexivity.
Defined.

(** A base path of the API's is accepted, and never served. *)
Example shadowed_panel :
  parse plain_url "Panel.example/users" None = Ok (mkTarget "panel.example" "/users") /\
  (router first_fit spelled (fun s => s) unit (fun _ => None) (fun _ _ => false) None no_faults 0
     (mkRequest GET "/users" asked) reseller_db).1 = Refused 401 "M1207".
Proof. split; vm_compute; reflexivity. Qed.
