(* ===== verification/Analytics.v ===== *)
(** * Traffic analytics (the analytics handlers of src/master/src/api/mod.rs and
    their queries in src/master/src/db/repo.rs)

    The database's [date_trunc] and [collate], and the text of a date and of a
    percentage, are parameters. *)

From S2P Require Import Prelude Strings Json Models Db Api Handler Traffic Settings Documents SubPage Auth Users StatusPage.

(** ** Queries *)

Record HourRow := mkHour { h_bucket : Z; h_node : Uuid; h_user : Uuid; h_core : string; h_up : Z; h_down : Z }.
Definition hour_row (kb : bucket_key * Bucket) : HourRow :=
  let '((bucket, (node, user, core)), b) := kb in mkHour bucket node user core (b_up_bytes b) (b_down_bytes b).

Record Slice := mkSlice {
  sl_from : Z;
  sl_to : Z;
  sl_node : option Uuid;
  sl_user : option Uuid;
  sl_core : option string;
  sl_creator : option Uuid }.

(** The conditions on the history row itself. *)
Definition in_window (sl : Slice) (h : HourRow) : bool :=
  (sl_from sl <=? h_bucket h) && (h_bucket h <? sl_to sl)
  && map_or (sl_node sl) true (Z.eqb (h_node h)) && map_or (sl_user sl) true (Z.eqb (h_user h))
  && map_or (sl_core sl) true (String.eqb (h_core h)).

(** JOIN users u, with the creator's condition. *)
Definition of_creator (sl : Slice) (db : Db) (user : Uuid) : bool :=
  match users db !! user with
  | Some u => map_or (sl_creator sl) true (fun a => bool_decide (User.created_by u = Some a))
  | None => false
  end.

Definition selected (sl : Slice) (db : Db) : list HourRow :=
  hour_row <$> map_to_list (filter (fun kb => in_window sl (hour_row kb) && of_creator sl db (h_user (hour_row kb)) = true) (traffic_usage_hourly db)).

(** JOIN nodes n. *)
Definition selected_on_nodes (sl : Slice) (db : Db) : list HourRow :=
  hour_row <$> map_to_list (filter (fun kb => in_window sl (hour_row kb) && is_some (nodes db !! h_node (hour_row kb)) = true) (traffic_usage_hourly db)).

(** GROUP BY, in the order of the keys. *)
Definition groups {A K} `{EqDecision K} (le : K -> K -> bool) (key : A -> K) (l : list A) : list (K * list A) :=
  (fun k => (k, List.filter (fun a => bool_decide (key a = k)) l)) <$> sort_by le (remove_dups (key <$> l)).

(** sum(up_bytes)::bigint, sum(down_bytes)::bigint. *)
Definition byte_sums (l : list HourRow) : result (Z * Z) db_error :=
  let? up := bigint (sumZ (h_up <$> l)) in
  let? down := bigint (sumZ (h_down <$> l)) in
  Ok (up, down).

Definition traffic_totals (sl : Slice) (db : Db) : result (Z * Z) db_error := byte_sums (selected sl db).

Record TrafficSeriesPoint := mkPoint { tp_bucket : Z; tp_up : Z; tp_down : Z }.
Record TrafficRank := mkRank { tr_id : Uuid; tr_name : string; tr_up : Z; tr_down : Z }.
Record TrafficCoreBreakdown := mkCore { tc_core : string; tc_up : Z; tc_down : Z }.
Record FleetHealthSummary := mkHealth { nodes_total : Z; nodes_online : Z; failed_pushes : Z; unreachable_endpoints : Z }.

Section Analytics.
Context (date_trunc : string -> Z -> Z) (collate : string -> string -> bool) (decrypt : string -> option string).

Definition traffic_series (bucket : string) (sl : Slice) (db : Db) : result (list TrafficSeriesPoint) db_error :=
  try_map (fun g => let? s := byte_sums g.2 in Ok (mkPoint g.1 s.1 s.2)) (groups Z.leb (fun h => date_trunc bucket (h_bucket h)) (selected sl db)).

(** ORDER BY the sum DESC, the name; LIMIT 10. *)
Definition rank_before (a b : TrafficRank) : bool :=
  let total r := tr_up r + tr_down r in
  (total b <? total a) || ((total a =? total b) && collate (tr_name a) (tr_name b)).
Definition ranked (name : Uuid -> string) (key : HourRow -> Uuid) (l : list HourRow) : result (list TrafficRank) db_error :=
  let? all := try_map (fun g => let? s := byte_sums g.2 in Ok (mkRank g.1 (name g.1) s.1 s.2)) (groups Z.leb key l) in
  Ok (take 10 (sort_by rank_before all)).

Definition traffic_top_users (sl : Slice) (db : Db) : result (list TrafficRank) db_error :=
  ranked (fun u => map_or (users db !! u) "" User.username) h_user (selected sl db).
Definition traffic_top_nodes (sl : Slice) (db : Db) : result (list TrafficRank) db_error :=
  ranked (fun n => map_or (nodes db !! n) "" Node.name) h_node (selected_on_nodes sl db).

Definition traffic_by_core (sl : Slice) (db : Db) : result (list TrafficCoreBreakdown) db_error :=
  try_map (fun g => let? s := byte_sums g.2 in Ok (mkCore g.1 s.1 s.2)) (groups String.leb h_core (selected sl db)).

Definition fleet_health_summary (now : Z) (db : Db) : FleetHealthSummary :=
  let count p := Z.of_nat (length (List.filter (fun n => Node.enabled n && p n) (rows (nodes db)))) in
  mkHealth (count (fun _ => true))
    (count (fun n => is_some_and (Node.last_seen n) (fun t => now - 120000000 <=? t)))
    (count (fun n => bool_decide (Node.last_push_status n = Some "failed")))
    (Z.of_nat (length (List.filter (fun i => Inbound.enabled i && bool_decide (Inbound.reachable i = Some false)) (rows (inbounds db))))).

(** ** The request *)

Record TrafficAnalyticsQuery := mkTrafficQuery {
  tq_from : option Z;
  tq_to : option Z;
  tq_bucket : option string;
  tq_node_id : option Uuid;
  tq_user_id : option Uuid;
  tq_core : option string }.

Record TrafficRange := mkRange { rg_from : Z; rg_to : Z; rg_bucket : string }.

Definition hours (n : Z) : Z := n * 3600000000.
Definition days (n : Z) : Z := hours (24 * n).

Definition validate_traffic_query (q : TrafficAnalyticsQuery) (now : Z) : result TrafficRange api_error :=
  bail (BadRequest "core must be singbox or xray") when is_some_and (tq_core q) (fun c => negb (one_of ["singbox"; "xray"] c)) in
  let to_ := default now (tq_to q) in
  let from := default (to_ - hours 24) (tq_from q) in
  let span := to_ - from in
  bail (BadRequest "traffic range must be positive") when (span <=? 0) in
  bail (BadRequest "traffic range must not exceed 366 days") when (days 366 <? span) in
  let? bucket := match tq_bucket q with
                 | None => Ok (if span <=? days 7 then "hour" else "day")
                 | Some b => if one_of ["hour"; "day"] b then Ok b else Err (BadRequest "bucket must be hour or day")
                 end in
  bail (BadRequest "hour buckets are limited to a 31-day range") when (String.eqb bucket "hour" && (days 31 <? span)) in
  Ok (mkRange from to_ bucket).

Record TrafficSummaryView := mkSummary {
  sv_up : Z;
  sv_down : Z;
  sv_total : Z;
  sv_previous_total : Z;
  sv_change_percent : option (Z * Z) }.

Record TrafficAnalyticsView := mkView {
  tv_scope : string;
  tv_from : Z;
  tv_to : Z;
  tv_bucket : string;
  tv_retention_days : Z;
  tv_summary : TrafficSummaryView;
  tv_series : list TrafficSeriesPoint;
  tv_top_users : list TrafficRank;
  tv_top_nodes : list TrafficRank;
  tv_cores : list TrafficCoreBreakdown;
  tv_health : option FleetHealthSummary }.

(** The two operands of the percentage. *)
Definition traffic_change_percent (current previous : Z) : option (Z * Z) :=
  if previous <=? 0 then None else Some (current - previous, previous).

Definition saturating_add (a b : Z) : Z := Z.max i64_min (Z.min i64_max (a + b)).

Definition build_traffic_analytics (now : Z) (knob : result (option string) db_error) (i : Identity) (q : TrafficAnalyticsQuery) (db : UserDb)
    : result TrafficAnalyticsView api_error :=
  let? range := validate_traffic_query q now in
  let reseller := is_reseller i in
  bail (Forbidden "node filters are outside reseller scope") when (reseller && is_some (tq_node_id q)) in
  let? _ := match tq_user_id q with
            | Some u => let? _ := fst (owned_user decrypt i u (mkSt db [])) in Ok tt
            | None => Ok tt
            end in
  let? creator := if reseller
                  then match admin_id i with Some a => Ok (Some a) | None => Err (Forbidden "reseller identity has no account") end
                  else Ok None in
  let t := tables db in
  let slice from to_ := mkSlice from to_ (tq_node_id q) (tq_user_id q) (tq_core q) creator in
  let sl := slice (rg_from range) (rg_to range) in
  let? current := lift_db (traffic_totals sl t) in
  let? previous := lift_db (traffic_totals (slice (rg_from range - (rg_to range - rg_from range)) (rg_from range)) t) in
  let? series := lift_db (traffic_series (rg_bucket range) sl t) in
  let? top_users := lift_db (traffic_top_users sl t) in
  let? cores := lift_db (traffic_by_core sl t) in
  let? nodes_health := if reseller then Ok ([], None)
                       else let? ns := lift_db (traffic_top_nodes sl t) in Ok (ns, Some (fleet_health_summary now t)) in
  let total := saturating_add current.1 current.2 in
  let previous_total := saturating_add previous.1 previous.2 in
  Ok (mkView (if reseller then "reseller" else "fleet") (rg_from range) (rg_to range) (rg_bucket range)
        (clamp 7 3650 (setting_i64 knob DEFAULT_TRAFFIC_HISTORY_DAYS))
        (mkSummary current.1 current.2 total previous_total (traffic_change_percent total previous_total))
        series top_users nodes_health.1 cores nodes_health.2).

(** ** The report and the table *)

Definition traffic_csv (rfc3339 : Z -> string) (v : TrafficAnalyticsView) : string :=
  let nl := String (ascii_of_nat 10) "" in
  "bucket,upload_bytes,download_bytes,total_bytes" +:+ nl
  +:+ String.concat "" ((fun p => rfc3339 (tp_bucket p) +:+ "," +:+ show (tp_up p) +:+ "," +:+ show (tp_down p) +:+ ","
                                  +:+ show (saturating_add (tp_up p) (tp_down p)) +:+ nl) <$> tv_series v).

Definition traffic_analytics_csv (rfc3339 : Z -> string) (now : Z) (knob : result (option string) db_error) (i : Identity)
    (q : TrafficAnalyticsQuery) (db : UserDb) : result (list (string * string) * string) api_error :=
  let? v := build_traffic_analytics now knob i q db in
  Ok ([("content-type", "text/csv; charset=utf-8"); ("content-disposition", "attachment; filename=" +:+ dq +:+ "honey-traffic.csv" +:+ dq)],
      traffic_csv rfc3339 v).
End Analytics.

(** i64 addition in a release build. *)
Definition wrapping_add (a b : Z) : Z := (a + b + 2 ^ 63) mod 2 ^ 64 - 2 ^ 63.

(** [report_bytes] is the [bytes] of the subscription page. *)
Definition report_bytes (value : Z) : string := SubPage.bytes value.

Definition report_row (name : string) (up down : Z) : string :=
  let cell v := "<td " +:+ attr "class" "n" +:+ ">" +:+ report_bytes v +:+ "</td>" in
  "<tr><td>" +:+ escape name +:+ "</td>" +:+ cell (wrapping_add up down) +:+ cell up +:+ cell down +:+ "</tr>".

Definition empty_row (text : string) : string :=
  "<tr><td " +:+ attr "colspan" "4" +:+ " " +:+ attr "class" "muted" +:+ ">" +:+ text +:+ "</td></tr>".

Definition report_rows (l : list TrafficRank) : string :=
  match l with
  | [] => empty_row "no traffic in this period"
  | _ => String.concat "" ((fun r => report_row (tr_name r) (tr_up r) (tr_down r)) <$> l)
  end.

Definition core_rows (l : list TrafficCoreBreakdown) : string :=
  match l with
  | [] => empty_row "no core traffic in this period"
  | _ => String.concat "" ((fun c => report_row (tc_core c) (tc_up c) (tc_down c)) <$> l)
  end.

Definition REPORT_STYLE : string :=
  "*{box-sizing:border-box}body{margin:0;padding:32px;font:14px/1.5 system-ui,-apple-system,sans-serif;color:#111;background:#fff}"
  +:+ "h1{font-size:22px;margin:0 0 4px}h2{font-size:15px;margin:28px 0 8px}"
  +:+ ".sub{color:#666;font-size:12px;margin-bottom:20px}"
  +:+ ".cards{display:flex;gap:10px;flex-wrap:wrap;margin:10px 0 4px}"
  +:+ ".card{flex:1 1 150px;border:1px solid #ddd;border-radius:8px;padding:12px}"
  +:+ ".card small{display:block;color:#666;font-size:11px;text-transform:uppercase;letter-spacing:.05em}"
  +:+ ".card b{display:block;font-size:20px;margin-top:4px}"
  +:+ "table{width:100%;border-collapse:collapse;font-size:13px}"
  +:+ "th,td{text-align:left;padding:7px 8px;border-bottom:1px solid #e5e5e5}"
  +:+ "th{color:#666;font-weight:600;font-size:11px;text-transform:uppercase;letter-spacing:.04em}"
  +:+ "td.n,th.n{text-align:right;font-variant-numeric:tabular-nums}"
  +:+ ".muted{color:#888}footer{margin-top:28px;color:#888;font-size:11px}"
  +:+ "@media print{body{padding:0}.card{break-inside:avoid}table{break-inside:auto}tr{break-inside:avoid}}".

Definition card (label value : string) : string :=
  "<div " +:+ attr "class" "card" +:+ "><small>" +:+ label +:+ "</small><b>" +:+ value +:+ "</b></div>".
Definition cards (body : string) : string := "<div " +:+ attr "class" "cards" +:+ ">" +:+ body +:+ "</div>".
Definition report_table (title first body : string) : string :=
  let th s := "<th " +:+ attr "class" "n" +:+ ">" +:+ s +:+ "</th>" in
  "<h2>" +:+ title +:+ "</h2><table><thead><tr><th>" +:+ first +:+ "</th>" +:+ th "Total" +:+ th "Up" +:+ th "Down"
  +:+ "</tr></thead><tbody>" +:+ body +:+ "</tbody></table>".

Section Report.
Context (stamp : Z -> string) (signed_percent : Z -> Z -> string).

Definition health_cards (o : option FleetHealthSummary) : string :=
  match o with
  | Some h => cards (card "Nodes online" (show (nodes_online h) +:+ "/" +:+ show (nodes_total h))
                     +:+ card "Failed pushes" (show (failed_pushes h)) +:+ card "Unreachable endpoints" (show (unreachable_endpoints h)))
  | None => ""
  end.

Definition change_text (o : option (Z * Z)) : string :=
  match o with
  | Some (d, p) => signed_percent d p +:+ "% vs previous period"
  | None => "no comparable previous period"
  end.

Definition traffic_cards (s : TrafficSummaryView) : string :=
  cards (card "Total" (report_bytes (sv_total s)) +:+ card "Upload" (report_bytes (sv_up s)) +:+ card "Download" (report_bytes (sv_down s))
         +:+ "<div " +:+ attr "class" "card" +:+ "><small>Change</small><b " +:+ attr "style" "font-size:14px" +:+ ">"
         +:+ change_text (sv_change_percent s) +:+ "</b></div>").

(** [brand] is [None] when its query fails. *)
Definition report_html (now : Z) (brand : option Branding) (v : TrafficAnalyticsView) : string :=
  let name := escape (map_or brand "honey" brand_name) in
  "<!doctype html><html " +:+ attr "lang" "en" +:+ "><head><meta " +:+ attr "charset" "utf-8" +:+ ">"
  +:+ "<meta " +:+ attr "name" "viewport" +:+ " " +:+ attr "content" "width=device-width,initial-scale=1" +:+ ">"
  +:+ "<title>" +:+ name +:+ " — period report</title><style>" +:+ REPORT_STYLE +:+ "</style></head><body>"
  +:+ "<h1>" +:+ name +:+ " — period report</h1>"
  +:+ "<div " +:+ attr "class" "sub" +:+ ">" +:+ stamp (tv_from v) +:+ " → " +:+ stamp (tv_to v) +:+ " · bucket " +:+ tv_bucket v
  +:+ " · scope " +:+ tv_scope v +:+ " · generated " +:+ stamp now +:+ "</div>"
  +:+ health_cards (tv_health v)
  +:+ "<h2>Traffic</h2>"
  +:+ traffic_cards (tv_summary v)
  +:+ report_table "Top users" "User" (report_rows (tv_top_users v))
  +:+ report_table "Top nodes" "Node" (report_rows (tv_top_nodes v))
  +:+ report_table "Core split" "Core" (core_rows (tv_cores v))
  +:+ "<footer>Counters are agent-reported per user and core; protocol/transport attribution is not claimed. Print this page (Ctrl/Cmd+P) to save it as PDF.</footer>"
  +:+ "</body></html>".

Definition report_headers : list (string * string) :=
  [("content-type", "text/html; charset=utf-8"); ("cache-control", "no-store");
   ("content-security-policy", "default-src 'none'; style-src 'unsafe-inline'; img-src data:; base-uri 'none'; form-action 'none'; frame-ancestors 'none'")].

Definition period_report (date_trunc : string -> Z -> Z) (collate : string -> string -> bool) (decrypt : string -> option string)
    (now : Z) (knob : result (option string) db_error) (brand : option Branding) (i : Identity) (q : TrafficAnalyticsQuery) (db : UserDb)
    : result (list (string * string) * string) api_error :=
  let? v := build_traffic_analytics date_trunc collate decrypt now knob i q db in
  Ok (report_headers, report_html now brand v).
End Report.

(** ** Every byte is counted once *)

Lemma sumZ_cons x l : sumZ (x :: l) = x + sumZ l.
Proof. done. Qed.

Lemma sumZ_zip {K} (f g : K -> Z) ks : sumZ ((fun k => f k + g k) <$> ks) = sumZ (f <$> ks) + sumZ (g <$> ks).
Proof. induction ks as [|k ks IH]; [done|]. rewrite !fmap_cons, !sumZ_cons, IH. lia. Qed.

Lemma sum_one {K} `{EqDecision K} (k0 : K) (v : Z) ks :
  NoDup ks -> sumZ ((fun k => if bool_decide (k0 = k) then v else 0) <$> ks) = if bool_decide (k0 ∈ ks) then v else 0.
Proof.
  induction 1 as [|k ks Hk Hnd IH]; [done|]. rewrite fmap_cons, sumZ_cons, IH. repeat case_bool_decide; set_solver by lia.
Qed.

(** The groups of a list partition it. *)
Lemma sum_over_keys {A K} `{EqDecision K} (key : A -> K) (f : A -> Z) (l : list A) (ks : list K) :
  NoDup ks -> (forall a, In a l -> key a ∈ ks) ->
  sumZ ((fun k => sumZ (f <$> List.filter (fun a => bool_decide (key a = k)) l)) <$> ks) = sumZ (f <$> l).
Proof.
  intros Hnd. induction l as [|x l IH]; intros Hin.
  - clear. induction ks as [|k ks IH]; [done|]. rewrite fmap_cons, sumZ_cons, IH. done.
  - rewrite fmap_cons, sumZ_cons, <- IH by (intros a Ha; apply Hin; by right).
    assert (Hx := sum_one (key x) (f x) ks Hnd). rewrite bool_decide_eq_true_2 in Hx by (apply Hin; by left). rewrite <- Hx, <- sumZ_zip.
    f_equal. apply list_fmap_ext. intros _ k _. cbn [List.filter]. by destruct (bool_decide (key x = k)).
Qed.

Lemma groups_sum {A K} `{EqDecision K} (le : K -> K -> bool) (key : A -> K) (f : A -> Z) l :
  sumZ ((fun g => sumZ (f <$> g.2)) <$> groups le key l) = sumZ (f <$> l).
Proof.
  unfold groups. rewrite <- list_fmap_compose. rewrite <- (sum_over_keys key f l (sort_by le (remove_dups (key <$> l)))); [done| |].
  - rewrite sort_by_perm. apply NoDup_remove_dups.
  - intros a Ha. rewrite sort_by_perm. rewrite elem_of_remove_dups. by apply list_elem_of_fmap_2, list_elem_of_In.
Qed.

Lemma byte_sums_ok l s : byte_sums l = Ok s -> s = (sumZ (h_up <$> l), sumZ (h_down <$> l)).
Proof. unfold byte_sums, bigint. destruct (in_i64 _); [|done]. destruct (in_i64 _); [|done]. by intros [= <-]. Qed.

(** What a query that sums its groups answers. *)
Lemma grouped_sums {K B} (mk : K -> Z -> Z -> B) (up down : B -> Z) (gs : list (K * list HourRow)) bs :
  (forall k u d, up (mk k u d) = u /\ down (mk k u d) = d) ->
  try_map (fun g => let? s := byte_sums g.2 in Ok (mk g.1 s.1 s.2)) gs = Ok bs ->
  (up <$> bs) = ((fun g => sumZ (h_up <$> g.2)) <$> gs) /\ (down <$> bs) = ((fun g => sumZ (h_down <$> g.2)) <$> gs).
Proof.
  intros Hmk. revert bs. induction gs as [|g gs IH]; intros bs; [by intros [= <-]|]. cbn [try_map].
  destruct (byte_sums g.2) as [s|] eqn:E; [|done]. destruct (try_map _ gs) as [ys|]; [|done]. intros [= <-].
  apply byte_sums_ok in E as ->. destruct (IH ys eq_refl) as [H1 H2]. rewrite !fmap_cons, H1, H2. cbn [fst snd]. by destruct (Hmk g.1 (sumZ (h_up <$> g.2)) (sumZ (h_down <$> g.2))) as [-> ->].
Qed.

Lemma series_keys (gs : list (Z * list HourRow)) ps :
  try_map (fun g => let? s := byte_sums g.2 in Ok (mkPoint g.1 s.1 s.2)) gs = Ok ps -> tp_bucket <$> ps = gs.*1.
Proof.
  intros H%try_map_inv. induction H as [|g p gs ps Hp _ IH]; [done|]. rewrite !fmap_cons, IH. f_equal.
  destruct (byte_sums g.2); [|done]. by injection Hp as <-.
Qed.

(** What an answer went through. *)
Section Answers.
Context (date_trunc : string -> Z -> Z) (collate : string -> string -> bool) (decrypt : string -> option string).
#[local] Abbreviation build := (build_traffic_analytics date_trunc collate decrypt).

Definition slice_of (i : Identity) (q : TrafficAnalyticsQuery) (from to_ : Z) : Slice :=
  mkSlice from to_ (tq_node_id q) (tq_user_id q) (tq_core q) (if is_reseller i then admin_id i else None).

Lemma analytics_inv now knob i q db v :
  build now knob i q db = Ok v ->
  exists range, validate_traffic_query q now = Ok range /\
    let sl := slice_of i q (rg_from range) (rg_to range) in
    traffic_totals sl (tables db) = Ok (sv_up (tv_summary v), sv_down (tv_summary v)) /\
    traffic_series date_trunc (rg_bucket range) sl (tables db) = Ok (tv_series v) /\
    traffic_top_users collate sl (tables db) = Ok (tv_top_users v) /\
    traffic_by_core sl (tables db) = Ok (tv_cores v).
Proof.
  unfold build_traffic_analytics, slice_of. destruct (validate_traffic_query q now) as [range|]; [|done].
  destruct (is_reseller i && is_some (tq_node_id q)); [done|].
  destruct (match tq_user_id q with Some _ => _ | None => _ end); [|done].
  destruct (if is_reseller i then _ else _) as [creator|] eqn:Ec; [|done].
  assert (creator = if is_reseller i then admin_id i else None) as <- by (destruct (is_reseller i); [destruct (admin_id i)|]; by simplify_eq).
  set (sl := mkSlice (rg_from range) _ _ _ _ _).
  destruct (traffic_totals sl _) as [[up down]|] eqn:E1; [|done]. cbn [lift_db lift_result].
  match goal with |- context [lift_db (traffic_totals ?x _)] => destruct (lift_db (traffic_totals x (tables db))) as [prev|]; [|done] end.
  destruct (traffic_series _ _ _ _) eqn:E2; [|done]. destruct (traffic_top_users _ _ _) eqn:E3; [|done].
  destruct (traffic_by_core _ _) eqn:E4; [|done]. cbn [lift_db lift].
  match goal with |- context [if is_reseller i then Ok ([], None) else ?e] => destruct (if is_reseller i then Ok ([], None) else e) as [nh|]; [|done] end.
  intros [= <-]. exists range. by split.
Qed.

(** In every traffic report the parts add up to the whole: the points of the
    series, and the cores, sum to the upload and download of the summary, each point
    stands for a bucket of its own, and so do the users listed when they are fewer
    than the ten the list is cut at. *)
Theorem analytics_conserve now knob i q db v :
  build now knob i q db = Ok v ->
  let up := sv_up (tv_summary v) in let down := sv_down (tv_summary v) in
  sumZ (tp_up <$> tv_series v) = up /\ sumZ (tp_down <$> tv_series v) = down /\ NoDup (tp_bucket <$> tv_series v) /\
  sumZ (tc_up <$> tv_cores v) = up /\ sumZ (tc_down <$> tv_cores v) = down /\
  ((length (tv_top_users v) < 10)%nat -> sumZ (tr_up <$> tv_top_users v) = up /\ sumZ (tr_down <$> tv_top_users v) = down).
Proof.
  intros (range & _ & Ht & Hs & Hu & Hc)%analytics_inv. apply byte_sums_ok in Ht. injection Ht as -> ->.
  set (l := selected _ _) in *. cbv zeta.
  destruct (grouped_sums mkPoint tp_up tp_down _ _ ltac:(done) Hs) as [-> ->]. rewrite !groups_sum.
  destruct (grouped_sums mkCore tc_up tc_down _ _ ltac:(done) Hc) as [-> ->]. rewrite !groups_sum.
  split; [done|]. split; [done|]. split; [|do 2 (split; [done|])].
  - rewrite (series_keys _ _ Hs). unfold groups. rewrite <- list_fmap_compose.
    change (NoDup (id <$> sort_by Z.leb (remove_dups ((fun h => date_trunc (rg_bucket range) (h_bucket h)) <$> l)))).
    rewrite list_fmap_id, sort_by_perm. apply NoDup_remove_dups.
  - unfold traffic_top_users, ranked in Hu. destruct (try_map _ _) as [all|] eqn:Ea; [|done]. injection Hu as Hu.
    assert (Hp := sort_by_perm (rank_before collate) all). rewrite <- Hu, length_take. intros Hlen. rewrite take_ge by lia.
    destruct (grouped_sums (fun k => mkRank k (map_or (users (tables db) !! k) "" User.username)) tr_up tr_down _ _ ltac:(done) Ea) as [Hup Hdn].
    split; [rewrite (sumZ_perm _ (tr_up <$> all)) by (by apply fmap_Permutation); by rewrite Hup, groups_sum|].
    rewrite (sumZ_perm _ (tr_down <$> all)) by (by apply fmap_Permutation). by rewrite Hdn, groups_sum.
Qed.

(** ** What a reseller sees *)

Definition own_users (a : Uuid) (t : Db) : gmap Uuid User.User := filter (fun ku => User.created_by ku.2 = Some a) (users t).
Definition own_hours (a : Uuid) (t : Db) : gmap bucket_key Bucket :=
  filter (fun kb => is_Some (own_users a t !! h_user (hour_row kb))) (traffic_usage_hourly t).

Lemma own_users_lookup a t u : own_users a t !! u = (let! x := users t !! u in if bool_decide (User.created_by x = Some a) then Some x else None).
Proof.
  unfold own_users. destruct (users t !! u) as [x|] eqn:E; simpl.
  - case_bool_decide as H; [by apply map_lookup_filter_Some_2|]. apply map_lookup_filter_None_2. right. intros y Hy. by simplify_eq.
  - apply map_lookup_filter_None_2. by left.
Qed.

Lemma of_creator_own sl a t u : sl_creator sl = Some a -> of_creator sl t u = is_some (own_users a t !! u).
Proof. intros Hc. unfold of_creator. rewrite own_users_lookup, Hc. destruct (users t !! u) as [x|]; [|done]. simpl. by case_bool_decide. Qed.

(** A reseller's selection reads only its own users' history. *)
Lemma selected_own sl a t : sl_creator sl = Some a ->
  selected sl t = hour_row <$> map_to_list (filter (fun kb => in_window sl (hour_row kb) = true) (own_hours a t)).
Proof.
  intros Hc. unfold selected, own_hours. f_equal. f_equal. rewrite map_filter_filter. apply map_filter_ext. intros k b _.
  rewrite (of_creator_own sl a t _ Hc), andb_true_iff. split; intros [H1 H2]; (split; [done|]).
  - by destruct (own_users a t !! _).
  - by destruct H2 as [x ->].
Qed.

Lemma ranked_ext name name' key l :
  (forall h, In h l -> name (key h) = name' (key h)) -> ranked collate name key l = ranked collate name' key l.
Proof.
  intros H. unfold ranked. enough (E : forall gs, (forall g, In g gs -> name g.1 = name' g.1) ->
    try_map (fun g : Uuid * list HourRow => let? s := byte_sums g.2 in Ok (mkRank g.1 (name g.1) s.1 s.2)) gs =
    try_map (fun g => let? s := byte_sums g.2 in Ok (mkRank g.1 (name' g.1) s.1 s.2)) gs).
  { rewrite E; [done|]. intros g Hg. unfold groups in Hg. apply list_elem_of_In, list_elem_of_fmap in Hg as (k & -> & Hk). simpl.
    rewrite sort_by_perm, elem_of_remove_dups, list_elem_of_fmap in Hk. destruct Hk as (h & -> & Hh). by apply H, list_elem_of_In. }
  induction gs as [|g gs IH]; intros Hg; [done|]. cbn [try_map]. rewrite (Hg g) by (by left). rewrite IH; [done|]. intros x Hx. apply Hg. by right.
Qed.

Lemma selected_user_own sl a t h : sl_creator sl = Some a -> In h (selected sl t) -> is_Some (own_users a t !! h_user h).
Proof.
  intros Hc Hh. rewrite (selected_own _ _ _ Hc) in Hh. apply list_elem_of_In, list_elem_of_fmap in Hh as (kb & -> & Hk).
  destruct kb as [k b]. apply elem_of_map_to_list, map_lookup_filter_Some in Hk as [Hk _]. by apply map_lookup_filter_Some in Hk as [_ Hk].
Qed.

Lemma own_name a t t' u : own_users a t = own_users a t' -> is_Some (own_users a t !! u) -> users t !! u = users t' !! u.
Proof.
  intros He [x Hx]. assert (Hx' := Hx). rewrite He in Hx'. apply map_lookup_filter_Some in Hx as [-> _], Hx' as [-> _]. done.
Qed.

Lemma owned_user_own i a u db db' :
  own_users a (tables db) = own_users a (tables db') -> is_Some (own_users a (tables db) !! u) ->
  fst (owned_user decrypt i u (mkSt db [])) = fst (owned_user decrypt i u (mkSt db' [])).
Proof.
  intros He Hu. apply (own_name _ _ _ _ He) in Hu. unfold owned_user, read, mbind, M_bind, get_user. cbn [store]. rewrite Hu.
  destruct (decrypt_opt_user decrypt (users (tables db') !! u)) as [[x|]|]; try done. simpl.
  unfold refuse, fail. by destruct (is_reseller i && _).
Qed.

(** C30: A reseller's traffic reports depend on nothing but the reseller's own users
    and their history: two databases that agree on those give the same answer,
    errors included, to every query over all of them or over one of them, whatever
    other users, nodes and operators there are. *)
Theorem reseller_analytics_confined now knob i a q db db' :
  is_reseller i = true -> admin_id i = Some a ->
  own_users a (tables db) = own_users a (tables db') -> own_hours a (tables db) = own_hours a (tables db') ->
  (forall u, tq_user_id q = Some u -> is_Some (own_users a (tables db) !! u)) ->
  build now knob i q db = build now knob i q db'.
Proof.
  intros Hr Ha Hu Hh Hq. unfold build_traffic_analytics. rewrite Hr, Ha. destruct (validate_traffic_query q now) as [range|]; [|done].
  destruct (true && is_some (tq_node_id q)); [done|].
  set (check := fun db => match tq_user_id q with Some u => let? _ := fst (owned_user decrypt i u (mkSt db [])) in Ok tt | None => Ok tt end).
  change (match tq_user_id q with Some u => let? _ := fst (owned_user decrypt i u (mkSt db [])) in Ok tt | None => Ok tt end) with (check db).
  change (match tq_user_id q with Some u => let? _ := fst (owned_user decrypt i u (mkSt db' [])) in Ok tt | None => Ok tt end) with (check db').
  assert (Ho : check db = check db') by (unfold check; destruct (tq_user_id q) as [u|]; [|done]; by rewrite (owned_user_own i a u db db') by auto).
  rewrite Ho. destruct (check db'); [|done]. clear check Ho.
  assert (Hs : forall sl, sl_creator sl = Some a -> selected sl (tables db) = selected sl (tables db')).
  { intros sl Hsl. by rewrite !(selected_own _ _ _ Hsl), Hh. }
  assert (Ht : forall sl, sl_creator sl = Some a -> traffic_top_users collate sl (tables db) = traffic_top_users collate sl (tables db')).
  { intros sl Hsl. unfold traffic_top_users. rewrite <- Hs by done. apply ranked_ext. intros h Hin.
    by rewrite (own_name a _ _ _ Hu (selected_user_own _ _ _ _ Hsl Hin)). }
  unfold traffic_totals, traffic_series, traffic_by_core. by rewrite !Hs, Ht by done.
Qed.
End Answers.

(** ** The markup of the report *)

Lemma skeleton_report_bytes n : skeleton (report_bytes n) = "".
Proof.
  unfold report_bytes, SubPage.bytes. destruct (unit_index _ _ _ _) as [index den].
  assert (Hu : skeleton (nth index UNITS "") = "") by (by destruct index as [|[|[|[|[|[]]]]]]).
  destruct (index =? 0)%nat; unfold one_decimal; rewrite !skeleton_app, Hu, !skeleton_show; reflexivity.
Qed.

Definition row_marks : string := skeleton (report_row "" 0 0).

Lemma report_row_marks name up down : skeleton (report_row name up down) = row_marks.
Proof. unfold row_marks, report_row. rewrite !skeleton_app, !skeleton_escape, !skeleton_report_bytes. reflexivity. Qed.

Lemma report_rows_marks l l' : length l = length l' -> skeleton (report_rows l) = skeleton (report_rows l').
Proof.
  intros H. destruct l as [|x l], l' as [|x' l']; [reflexivity|discriminate H..|]. unfold report_rows.
  rewrite !(skeleton_concat _ row_marks), H by (intros; apply report_row_marks). reflexivity.
Qed.

Lemma core_rows_marks l l' : length l = length l' -> skeleton (core_rows l) = skeleton (core_rows l').
Proof.
  intros H. destruct l as [|x l], l' as [|x' l']; [reflexivity|discriminate H..|]. unfold core_rows.
  rewrite !(skeleton_concat _ row_marks), H by (intros; apply report_row_marks). reflexivity.
Qed.

Lemma skeleton_table title first b b' : skeleton b = skeleton b' -> skeleton (report_table title first b) = skeleton (report_table title first b').
Proof. intros H. unfold report_table. rewrite !skeleton_app, H. reflexivity. Qed.

Definition card_marks (label : string) : string := skeleton (card label "").

Lemma skeleton_card label v : skeleton v = "" -> skeleton (card label v) = card_marks label.
Proof. intros H. unfold card_marks, card. rewrite !skeleton_app, H. reflexivity. Qed.

Lemma show_pair_plain a b : skeleton (show a +:+ "/" +:+ show b) = "".
Proof. rewrite !skeleton_app, !skeleton_show. reflexivity. Qed.

Lemma skeleton_cards b b' : skeleton b = skeleton b' -> skeleton (cards b) = skeleton (cards b').
Proof. intros H. unfold cards. rewrite !skeleton_app, H. reflexivity. Qed.

Lemma health_cards_marks o o' : is_some o = is_some o' -> skeleton (health_cards o) = skeleton (health_cards o').
Proof.
  intros H. destruct o as [h|], o' as [h'|]; [|discriminate H..|reflexivity]. unfold health_cards. apply skeleton_cards.
  rewrite !skeleton_app, !skeleton_card by (apply skeleton_show || apply show_pair_plain). reflexivity.
Qed.

Section ReportMarkup.
Context (stamp : Z -> string) (signed_percent : Z -> Z -> string).
Context (date_trunc : string -> Z -> Z) (collate : string -> string -> bool) (decrypt : string -> option string).
Hypothesis stamp_plain : forall t, skeleton (stamp t) = "".
Hypothesis percent_plain : forall d p, skeleton (signed_percent d p) = "".

(** The words of a view come from the code. *)
Lemma built_words now knob i q db v :
  build_traffic_analytics date_trunc collate decrypt now knob i q db = Ok v -> skeleton (tv_bucket v) = "" /\ skeleton (tv_scope v) = "".
Proof.
  unfold build_traffic_analytics. destruct (validate_traffic_query q now) as [range|] eqn:E; [|done].
  assert (Hb : skeleton (rg_bucket range) = "").
  { unfold validate_traffic_query in E. destruct (is_some_and _ _); [done|]. destruct (_ <=? 0); [done|]. destruct (days 366 <? _); [done|].
    destruct (tq_bucket q) as [b|].
    - destruct (one_of ["hour"; "day"] b) eqn:Eb; [|done]. destruct (_ && _); [done|]. injection E as <-. unfold one_of in Eb. simpl in *.
      rewrite orb_false_r, orb_true_iff, !String.eqb_eq in Eb. destruct Eb; by subst.
    - destruct (_ && _); [done|]. injection E as <-. simpl. by destruct (_ <=? days 7). }
  repeat match goal with
         | |- (if ?b then _ else _) = _ -> _ => destruct b; [done|]
         | |- (match ?x with Ok _ => _ | Err _ => _ end) = _ -> _ => destruct x; [|done]
         end.
  intros [= <-]. split; [done|]. simpl. by destruct (is_reseller i).
Qed.

Lemma traffic_cards_marks s s' : skeleton (traffic_cards signed_percent s) = skeleton (traffic_cards signed_percent s').
Proof.
  assert (Hc : forall o, skeleton (change_text signed_percent o) = "").
  { intros [[d p]|]; unfold change_text; [rewrite skeleton_app, percent_plain|]; reflexivity. }
  unfold traffic_cards. apply skeleton_cards. rewrite !skeleton_app, !Hc, !skeleton_card by apply skeleton_report_bytes. reflexivity.
Qed.

(** The printable report's markup depends on nothing but how many rows its
    three tables have and whether it shows the fleet's health: no brand, user,
    node or core name adds to it. *)
Theorem report_markup_fixed now knob i q db v brand now' knob' i' q' db' v' brand' :
  build_traffic_analytics date_trunc collate decrypt now knob i q db = Ok v ->
  build_traffic_analytics date_trunc collate decrypt now' knob' i' q' db' = Ok v' ->
  length (tv_top_users v) = length (tv_top_users v') -> length (tv_top_nodes v) = length (tv_top_nodes v') ->
  length (tv_cores v) = length (tv_cores v') -> is_some (tv_health v) = is_some (tv_health v') ->
  skeleton (report_html stamp signed_percent now brand v) = skeleton (report_html stamp signed_percent now' brand' v').
Proof.
  intros [Hb Hs]%built_words [Hb' Hs']%built_words Hu Hn Hc Hh. unfold report_html.
  rewrite !skeleton_app, !skeleton_escape, !stamp_plain, Hb, Hb', Hs, Hs', (health_cards_marks _ _ Hh), (traffic_cards_marks (tv_summary v) (tv_summary v')),
    (skeleton_table "Top users" "User" _ _ (report_rows_marks _ _ Hu)), (skeleton_table "Top nodes" "Node" _ _ (report_rows_marks _ _ Hn)),
    (skeleton_table "Core split" "Core" _ _ (core_rows_marks _ _ Hc)).
  reflexivity.
Qed.
End ReportMarkup.

(** ** Witnesses *)

(** Two shops with an hour of traffic each; in the second database the other
    shop's history is gone. *)
Definition hour_of (node user up : Z) : bucket_key * Bucket := ((hours 10, (node, user, "xray")), mkBucket up 5 1).
Definition busy (l : list (bucket_key * Bucket)) : UserDb :=
  Users.with_tables (with_hourly (fun _ => list_to_map l)) (store two_shops).
Definition busy_day : UserDb := busy [hour_of 1 21 100; hour_of 1 40 900].
Definition own_day : UserDb := busy [hour_of 1 21 100].
Definition day_query : TrafficAnalyticsQuery := mkTrafficQuery None None None None None None.
Definition whole_hours (unit_ : string) (t : Z) : Z := t.

Definition fleet_day : option TrafficAnalyticsView :=
  match build_traffic_analytics whole_hours String.leb plain (hours 24) (Ok None) legacy day_query busy_day with Ok v => Some v | Err _ => None end.
Definition quiet_day : TrafficAnalyticsView :=
  mkView "" 0 0 "" 0 (mkSummary 0 0 0 0 None) [] [] [] [] None.

Lemma analytics_conserve_witness : sumZ (tp_up <$> tv_series (default quiet_day fleet_day)) = 1000.
Proof.
  rewrite (proj1 (analytics_conserve whole_hours String.leb plain (hours 24) (Ok None) legacy day_query busy_day (default quiet_day fleet_day)
    ltac:(vm_compute; reflexivity))).
  vm_compute. reflexivity.
Defined.

Lemma reseller_analytics_confined_witness :
  build_traffic_analytics whole_hours String.leb plain (hours 24) (Ok None) reseller day_query busy_day =
  build_traffic_analytics whole_hours String.leb plain (hours 24) (Ok None) reseller day_query own_day.
Proof.
  apply (reseller_analytics_confined whole_hours String.leb plain (hours 24) (Ok None) reseller 7 day_query busy_day own_day).
  - reflexivity.
  - reflexivity.
  - reflexivity.
  - vm_cast_no_check (eq_refl (own_hours 7 (tables own_day))).
  - intros u H. discriminate H.
Defined.

Lemma report_markup_fixed_witness :
  let v := default quiet_day fleet_day in
  skeleton (report_html show (fun _ _ => "+1.0") (hours 24) (Some (mkBranding "<script>" "" "" "" "" "" "" true true true)) v) =
  skeleton (report_html show (fun _ _ => "+1.0") (hours 24) None v).
Proof.
  apply (report_markup_fixed show (fun _ _ => "+1.0") whole_hours String.leb plain skeleton_show (fun _ _ => eq_refl)
    (hours 24) (Ok None) legacy day_query busy_day (default quiet_day fleet_day) _ (hours 24) (Ok None) legacy day_query busy_day);
    vm_compute; reflexivity.
Defined.
