(* ===== verification/Overview.v ===== *)
(** * Onboarding, metrics, and the rights of a data subject (their handlers in
    src/master/src/api/mod.rs and queries in src/master/src/db/repo.rs)

    The printing of ids and dates, and of JSON, are parameters. *)

From S2P Require Import Prelude Strings Json Models Db Api Handler Access Auth Users Delivery Versions Fleet Issues.

#[local] Abbreviation M := (Handler.M FleetDb).

(** ** Onboarding *)

Record OnboardingSnapshot := mkSnapshot {
  domain_count : Z;
  node_count : Z;
  inbound_count : Z;
  user_count : Z;
  subscription_count : Z }.

Definition count {A} (l : list A) : Z := Z.of_nat (length l).

(** [domains] is the number of managed domains. *)
Definition onboarding_snapshot (domains : Z) (creator : option Uuid) (db : UserDb) : OnboardingSnapshot :=
  let t := tables db in
  let mine := List.filter (fun ku => map_or creator true (fun a => bool_decide (User.created_by ku.2 = Some a))) (map_to_list (users t)) in
  mkSnapshot domains (count (rows (nodes t))) (count (rows (inbounds t))) (count mine)
    (count (List.filter (fun ku => is_some_and (tokens db !! ku.1) (fun t => is_some (tk_enc t))) mine)).

Record OnboardingStep := mkStep {
  step_key : string;
  step_label : string;
  step_description : string;
  step_complete : bool;
  step_route : string;
  step_action : option string }.
Record OnboardingView := mkOnboarding { ob_completed : Z; ob_total : Z; ob_steps : list OnboardingStep }.

Definition build_onboarding (s : OnboardingSnapshot) (reseller : bool) : OnboardingView :=
  let steps :=
    (if reseller then [] else
       [mkStep "domain" "Register a domain" "Add an owned hostname for TLS or a public endpoint." (0 <? domain_count s) "domains" (Some "add-domain");
        mkStep "node" "Connect a node" "Register a server and enroll its honey agent." (0 <? node_count s) "nodes" (Some "add-node");
        mkStep "inbound" "Create an inbound" "Choose a core, protocol, security and transport." (0 <? inbound_count s) "inbounds" (Some "add-inbound")])
    ++ [mkStep "user" "Create a user" "Set access, quota and expiry for a subscriber." (0 <? user_count s) "users" (Some "add-user");
        mkStep "subscription" "Share a subscription" "Reveal the current link and import it into a client." (0 <? subscription_count s) "subscriptions" None] in
  mkOnboarding (count (List.filter step_complete steps)) (count steps) steps.

Definition onboarding (domains : Z) (i : Identity) : M OnboardingView :=
  creator ← (if is_reseller i then a ← found (admin_id i) (Forbidden "reseller identity has no account"); mret (Some a) else mret None);
  s ← query (fun f => onboarding_snapshot domains creator (accounts_db (world f)));
  mret (build_onboarding s (is_reseller i)).

(** ** Metrics *)

Record MetricsSnapshot := mkMetrics {
  m_nodes : Z;
  m_online : Z;
  m_users : Z;
  m_active : Z;
  m_inbounds : Z;
  m_traffic : Z }.

(** WHERE enabled AND (limit = 0 OR used < limit) AND (expires IS NULL OR expires > now()). *)
Definition sql_active (now : Z) (u : User.User) : bool :=
  User.enabled u
  && ((User.traffic_limit_bytes u =? 0) || (User.used_traffic_bytes u <? User.traffic_limit_bytes u))
  && map_or (User.expires_at u) true (fun e => now <? e).

Definition metrics_snapshot (now : Z) (t : Db) : result MetricsSnapshot db_error :=
  let total := sumZ (User.used_traffic_bytes <$> rows (users t)) in
  bail NumericOutOfRange when negb ((i64_min <=? total) && (total <=? i64_max)) in
  Ok (mkMetrics (count (rows (nodes t)))
        (count (List.filter (fun n => is_some_and (Node.last_seen n) (fun s => now - 120000000 <? s)) (rows (nodes t))))
        (count (rows (users t))) (count (List.filter (sql_active now) (rows (users t)))) (count (rows (inbounds t))) total).

Definition nl : string := String (ascii_of_nat 10) "".

(** A gauge or counter of the exposition format. *)
Definition metric (name help kind : string) (v : Z) : string :=
  "# HELP " +:+ name +:+ " " +:+ help +:+ nl +:+ "# TYPE " +:+ name +:+ " " +:+ kind +:+ nl +:+ name +:+ " " +:+ show v +:+ nl.

Definition severity_line (severity : string) (v : Z) : string :=
  let q := String (ascii_of_nat 34) "" in
  "honey_issues{severity=" +:+ q +:+ severity +:+ q +:+ "} " +:+ show v +:+ nl.

Definition metrics_body (s : MetricsSnapshot) (c : IssueCounts) : string :=
  metric "honey_nodes_total" "Registered nodes." "gauge" (m_nodes s)
  +:+ metric "honey_nodes_online" "Nodes seen in the last 2 minutes." "gauge" (m_online s)
  +:+ metric "honey_inbounds_total" "Configured inbounds." "gauge" (m_inbounds s)
  +:+ metric "honey_users_total" "Users." "gauge" (m_users s)
  +:+ metric "honey_users_active" "Active users (enabled, under quota, unexpired)." "gauge" (m_active s)
  +:+ metric "honey_traffic_bytes_total" "Total used traffic across all users." "counter" (m_traffic s)
  +:+ "# HELP honey_issues Current health cockpit issues by severity." +:+ nl +:+ "# TYPE honey_issues gauge" +:+ nl
  +:+ severity_line "critical" (critical c) +:+ severity_line "warning" (warning c) +:+ severity_line "info" (info c).

(** [collected]: the answer of [Issues.collect]. *)
Definition metrics (now : Z) (collected : result IssuesResponse api_error) : M (list (string * string) * string) :=
  s ← read (fun f => metrics_snapshot now (fleet_tables f));
  r ← lift_result collected;
  mret ([("content-type", "text/plain; version=0.0.12")], metrics_body s (counts r)).

Definition root : string := "honey master. who r u?" +:+ nl.
Definition health : json := obj [("status", JString "ok")].
(** [SELECT 1]. *)
Definition ready (answers : bool) : Z := if answers then 200 else 503.

(** ** Export and erasure *)

Section Subject.
Context (decrypt : string -> option string) (collate : string -> string -> bool) (uuid_str : Uuid -> string) (date_str : Z -> string)
  (to_string_pretty : json -> string).

Definition jdate (o : option Z) : json := match o with Some t => JString (date_str t) | None => JNull end.
Definition juuid (o : option Uuid) : json := match o with Some u => JString (uuid_str u) | None => JNull end.

Definition gdpr_document (now : Z) (user : User.User) (groups : list string) : json :=
  obj [("exported_at", JString (date_str now));
       ("user",
        obj [("id", JString (uuid_str (User.id user))); ("username", JString (User.username user)); ("uuid", JString (User.uuid user));
             ("enabled", JBool (User.enabled user)); ("traffic_limit_bytes", jint (User.traffic_limit_bytes user));
             ("used_traffic_bytes", jint (User.used_traffic_bytes user)); ("expires_at", jdate (User.expires_at user));
             ("created_at", JString (date_str (User.created_at user))); ("subscription_alias", jopt_str (User.subscription_alias user));
             ("quota_interval", JString (User.quota_interval user)); ("routing_profile_id", juuid (User.routing_profile_id user))]);
       ("group_access", jstrs groups);
       ("note", JString "Subscription tokens are stored hashed and are not exportable; the sub link is revocable via rotation.")].

(** [up1] and [up2]: whether the two group queries answer; a failure is an empty list. *)
Definition gdpr_export (now : Z) (up1 up2 : bool) (i : Identity) (id : Uuid) : M (list (string * string) * string) :=
  user ← in_users (owned_user decrypt i id);
  groups ← query (fun f =>
    let ids := if up1 then snd <$> List.filter (fun e => e.1 =? id) (elements (user_group_access (fleet_tables f))) else [] in
    let all := if up2 then list_node_groups collate (fleet_tables f) else [] in
    (fun kg => group_name kg.2) <$> List.filter (fun kg => existsb (Z.eqb kg.1) ids) all);
  _ ← audit "gdpr_export" "user" id (obj []);
  let q := String (ascii_of_nat 34) "" in
  mret ([("content-type", "application/json; charset=utf-8");
         ("content-disposition", "attachment; filename=" +:+ q +:+ "gdpr-" +:+ uuid_str id +:+ ".json" +:+ q)],
        to_string_pretty (gdpr_document now user groups)).

(** DELETE FROM users, with the cascade to the WireGuard peers. *)
Definition erase_row (id : Uuid) (f : FleetDb) : result bool db_error * FleetDb :=
  match delete_user_row id (accounts_db (world f)) with
  | (Ok gone, u) =>
      (Ok gone, with_world (fun w => mkWorld u (w_interfaces w) (List.filter (fun p => negb (WgPeer.user_id p =? id)) (w_peers w))
                                       (w_services w) (w_profiles w) (w_settings w)) f)
  | (Err e, _) => (Err e, f)
  end.

Definition gdpr_erase (i : Identity) (id : Uuid) : M unit :=
  _ ← in_users (owned_user decrypt i id);
  nodes ← query (fun f => user_node_ids id (fleet_tables f));
  gone ← statement (erase_row id);
  _ ← refuse (negb gone) user_missing;
  _ ← push_nodes nodes;
  audit "gdpr_erase" "user" id (obj []).
End Subject.

(** ** Properties *)

(** The activity of users means the same everywhere: the share of active users
    in the metrics and in the bot's summary, counted in SQL, is the number of users
    that nothing suppresses, as the spec and the subscriptions judge them. *)
Theorem active_users_agree now t s :
  metrics_snapshot now t = Ok s -> Forall (fun u => 0 <= User.traffic_limit_bytes u) (rows (users t)) ->
  m_active s = count (List.filter (User.is_active now) (rows (users t))) /\ m_users s = count (rows (users t)).
Proof.
  unfold metrics_snapshot. destruct (negb _); [done|]. intros [= <-] Hl. split; [|done]. cbn [m_active]. f_equal.
  apply filter_ext_in. intros u Hu. rewrite Forall_forall in Hl. apply list_elem_of_In, Hl in Hu.
  unfold sql_active, User.is_active, User.suppressed_reason. destruct (User.enabled u); [|done].
  assert (Hq : (User.traffic_limit_bytes u =? 0) || (User.used_traffic_bytes u <? User.traffic_limit_bytes u)
             = negb ((0 <? User.traffic_limit_bytes u) && (User.traffic_limit_bytes u <=? User.used_traffic_bytes u))) by lia.
  rewrite Hq. destruct (User.expires_at u) as [e|]; simpl; [|by destruct (_ && _)].
  rewrite (Z.ltb_antisym e now). destruct (e <=? now); [by rewrite andb_false_r|]. by destruct (_ && _).
Qed.

(** Nothing of a user is left in the live tables. *)
Record gone_from (id : Uuid) (f : FleetDb) : Prop := mkGone {
  no_row : users (fleet_tables f) !! id = None;
  no_token : tokens (accounts_db (world f)) !! id = None;
  no_link : forall n x, named (accounts_db (world f)) !! n = Some x -> us_user_id x <> id;
  no_grant : forall g, (id, g) ∉ user_group_access (fleet_tables f);
  no_counter : forall k c, node_user_traffic (fleet_tables f) !! k = Some c -> counter_user k <> id;
  no_hour : forall k b, traffic_usage_hourly (fleet_tables f) !! k = Some b -> counter_user k.2 <> id;
  no_peer : forall p, In p (w_peers (world f)) -> WgPeer.user_id p <> id }.

Lemma erase_row_ok id f f' :
  erase_row id f = (Ok true, f') -> gone_from id f' /\ history f' = history f /\
  forall k, k <> id -> users (fleet_tables f') !! k = users (fleet_tables f) !! k.
Proof.
  unfold erase_row, delete_user_row, delete_user. destruct (users (tables (accounts_db (world f))) !! id); [|by intros [=]].
  intros [= <-]. split; [split|split; [done|]]; unfold fleet_tables, w_tables; simpl.
  - apply lookup_delete_eq.
  - apply lookup_delete_eq.
  - intros n x Hx. by apply map_lookup_filter_Some in Hx as [_ Hx].
  - intros g [Hg _]%elem_of_filter. by apply Hg.
  - intros k c [_ Hk]%map_lookup_filter_Some. by apply Z.eqb_neq in Hk.
  - intros k b [_ Hk]%map_lookup_filter_Some. by apply Z.eqb_neq in Hk.
  - intros p [_ Hp]%filter_In. apply negb_true_iff in Hp. by apply Z.eqb_neq.
  - intros k Hk. by rewrite lookup_delete_ne.
Qed.

Section Erasing.
Context (decrypt : string -> option string).

(** Erasing a user on the subject's request removes everything of theirs from
    the live tables - the row, the tokens and links, the grants, the counters and
    the traffic history, the WireGuard keys - touches no other user, and pushes the
    nodes they reached.  It does not remove the versions of the row: the history
    of the user, credentials included, reads as before. *)
Theorem erasure_live_only i id s s' :
  gdpr_erase decrypt i id s = (Ok tt, s') ->
  gone_from id (store s') /\ (forall k, k <> id -> users (fleet_tables (store s')) !! k = users (fleet_tables (store s)) !! k) /\
  In (PushNodes (list_to_set (user_node_ids id (fleet_tables (store s))))) (trace s') /\
  list_entity_versions "user" id (history (store s')) = list_entity_versions "user" id (history (store s)).
Proof.
  unfold gdpr_erase. intros H. apply bind_ok in H as (u & s1 & Ho & H).
  assert (store s1 = store s) as Hs1.
  { unfold in_users in Ho. destruct (owned_user decrypt i id _) as [r s0] eqn:E. injection Ho as -> <-. apply owned_user_ok in E as (_ & _ & _ & -> & _).
    simpl. unfold with_world. destruct (store s) as [w h]. by destruct w. }
  apply bind_ok in H as (ns & s2 & Hn & H). apply query_ok in Hn as [-> ->]. rewrite Hs1 in *.
  apply bind_ok in H as (gone & s3 & Hg & H). apply statement_ok in Hg as [Hg Ht]. rewrite Hs1 in Hg.
  apply bind_ok in H as (r & s4 & Hr & H). apply refuse_ok in Hr as [Hgone ->]. apply negb_false_iff in Hgone as ->.
  apply erase_row_ok in Hg as (H1 & H2 & H3). injection H as <-. simpl. split; [done|]. split; [done|].
  split; [|by rewrite H2]. rewrite <- app_assoc. apply in_or_app. right. by left.
Qed.
End Erasing.

(** ** Witnesses *)

Definition shop_fleet : St FleetDb :=
  mkSt (mkFleet (mkWorld (store two_shops) [] [WgPeer.mk 5 1 21 "k" "p" "10.0.0.2" 0] [] ∅ ∅)
          (record_entity_version 9 "user" 21 (obj [("uuid", JString "secret")]) (Some "rae") no_versions)) [].

Lemma erasure_live_only_witness :
  let s' := (gdpr_erase plain legacy 21 shop_fleet).2 in
  gone_from 21 (store s') /\ length (list_entity_versions "user" 21 (history (store s'))) = 1%nat.
Proof.
  destruct (erasure_live_only plain legacy 21 shop_fleet (gdpr_erase plain legacy 21 shop_fleet).2 ltac:(vm_compute; reflexivity)) as (H1 & _ & _ & H2).
  split; [exact H1|]. rewrite H2. reflexivity.
Defined.

Lemma active_users_agree_witness :
  match metrics_snapshot 100 (fleet_tables (store shop_fleet)) with
  | Ok s => m_active s = count (List.filter (User.is_active 100) (rows (users (fleet_tables (store shop_fleet)))))
  | Err _ => False
  end.
Proof.
  destruct (metrics_snapshot 100 (fleet_tables (store shop_fleet))) as [s|e] eqn:E; [|vm_compute in E; discriminate E].
  refine (proj1 (active_users_agree 100 _ s E _)). vm_compute. repeat constructor; discriminate.
Defined.
