(* ===== verification/Telegram.v ===== *)
(** * The Telegram bot (src/master/src/telegram.rs) and its allowlist of chats (their
    handlers in src/master/src/api/mod.rs and queries in src/master/src/db/repo.rs)

    The Bot API, the printing of doubles and dates, the parsing of UUIDs and the
    calendar are parameters.  A reply is [None] where the code panics. *)

From S2P Require Import Prelude Strings Json Models Db Api Handler Access Documents Auth Users Fleet Gitops Overview.

(** ** Doubles *)

(** The finite values are [num / den], [den] a power of two. *)
Inductive f64 := Finite (neg : bool) (num den : Z) | Infinite (neg : bool) | NaN.

(** The nearest double to [a / b], ties to even. *)
Definition f64_of_ratio (neg : bool) (a b : Z) : f64 :=
  if a =? 0 then Finite neg 0 1 else
  let e := Z.log2 a - Z.log2 b in
  let e := if b * 2 ^ Z.max e 0 <=? a * 2 ^ Z.max (- e) 0 then e else e - 1 in
  let s := Z.min (52 - e) 1074 in
  let num := a * 2 ^ Z.max s 0 in
  let den := b * 2 ^ Z.max (- s) 0 in
  let q := num / den in
  let r := num mod den in
  let q := if (den <? 2 * r) || ((2 * r =? den) && Z.odd q) then q + 1 else q in
  let num := q * 2 ^ Z.max (- s) 0 in
  if 2 ^ 1024 * 2 ^ Z.max s 0 <=? num then Infinite neg else Finite neg num (2 ^ Z.max s 0).

(** The digits at the head of a text, and the rest. *)
Fixpoint take_digits (s : string) : string * string :=
  match s with
  | String c s' => if is_digit c then let (d, r) := take_digits s' in (String c d, r) else ("", s)
  | "" => ("", "")
  end.

(** An exponent, or nothing. *)
Definition parse_exponent (s : string) : option Z :=
  match s with
  | "" => Some 0
  | String c s' =>
      if Ascii.eqb c "e" || Ascii.eqb c "E" then
        let '(sign, digits) := match s' with
                               | String d s'' => if Ascii.eqb d "-" then (-1, s'') else if Ascii.eqb d "+" then (1, s'') else (1, s')
                               | "" => (1, "")
                               end in
        if is_empty digits then None else Z.mul sign <$> digits_value 0 digits
      else None
  end.

(** [str::parse::<f64>]; beyond the exponents of doubles the value is zero or infinite. *)
Definition parse_f64 (s : string) : option f64 :=
  let '(neg, s) := match s with
                   | String c s' => if Ascii.eqb c "-" then (true, s') else if Ascii.eqb c "+" then (false, s') else (false, s)
                   | "" => (false, "")
                   end in
  if one_of ["inf"; "infinity"] (to_ascii_lowercase s) then Some (Infinite neg)
  else if String.eqb (to_ascii_lowercase s) "nan" then Some NaN
  else
    let (whole, rest) := take_digits s in
    let '(frac, rest) := match rest with
                         | String c r => if Ascii.eqb c "." then take_digits r else ("", rest)
                         | "" => ("", "")
                         end in
    if is_empty (whole +:+ frac) then None
    else
      let! e := parse_exponent rest in
      let! m := digits_value 0 (whole +:+ frac) in
      let e := e - len frac in
      Some (if m =? 0 then Finite neg 0 1
            else if 400 <? e then Infinite neg
            else if e + len (whole +:+ frac) <? -400 then Finite neg 0 1
            else f64_of_ratio neg (m * 10 ^ Z.max e 0) (10 ^ Z.max (- e) 0)).

(** [(gb.max(0.0) * GB) as i64], which saturates. *)
Definition gb_bytes (gb : f64) : Z :=
  match gb with
  | NaN | Infinite true | Finite true _ _ => 0
  | Infinite false => i64_max
  | Finite false num den => Z.min i64_max (num * 2 ^ 30 / den)
  end.

(** [gb > 0.0]. *)
Definition positive (gb : f64) : bool :=
  match gb with NaN | Infinite true | Finite true _ _ => false | Infinite false => true | Finite false num _ => 0 <? num end.

Example doubles_read :
  gb_bytes <$> omap parse_f64 ["1"; "0.5"; "-3"; "1e1"; "2.5e-1"; "inf"; "nan"; "."; "1e"; "1e999"; ".5"; "5."]
  = [1073741824; 536870912; 0; 10737418240; 268435456; i64_max; 0; i64_max; 536870912; 5368709120].
Proof. vm_compute. reflexivity. Qed.

(** ** Chats *)

Record TelegramChat := mkChat { chat_id : Z; chat_role : string; chat_note : string; chat_created_at : Z }.
Definition Chats : Type := gmap Z TelegramChat.

Definition list_telegram_chats (c : Chats) : list TelegramChat :=
  sort_by (fun a b => chat_created_at a <=? chat_created_at b) (rows c).
Definition telegram_chat_role (id : Z) (c : Chats) : option string := chat_role <$> c !! id.

Definition add_telegram_chat (now id : Z) (role note : string) (c : Chats) : result TelegramChat db_error * Chats :=
  if negb (one_of ["admin"; "user"] role) then (Err CheckViolation, c)
  else let x := mkChat id role note (map_or (c !! id) now chat_created_at) in (Ok x, <[id := x]> c).
Definition delete_telegram_chat (id : Z) (c : Chats) : result bool db_error * Chats := (Ok (is_some (c !! id)), delete id c).

Definition list_tg_chats : Handler.M Chats (list TelegramChat) := query list_telegram_chats.

Record NewTgChat := mkNewTgChat { ntc_chat_id : Z; ntc_role : string; ntc_note : string }.

Definition add_tg_chat (now : Z) (input : NewTgChat) : Handler.M Chats TelegramChat :=
  _ ← refuse (negb (one_of ["admin"; "user"] (ntc_role input))) (BadRequest "role must be admin or user");
  c ← statement (add_telegram_chat now (ntc_chat_id input) (ntc_role input) (trim (ntc_note input)));
  _ ← emit (AuditEvent "create" "telegram_chat" None (obj [("chat_id", jint (ntc_chat_id input)); ("role", JString (ntc_role input))]));
  mret c.

Definition delete_tg_chat (id : Z) : Handler.M Chats unit :=
  gone ← statement (delete_telegram_chat id);
  _ ← refuse (negb gone) (NotFound "chat not found");
  emit (AuditEvent "delete" "telegram_chat" None (obj [("chat_id", jint id)])).

(** ** Replies *)

Record BotAudit := mkBotAudit { ba_actor : string; ba_action : string; ba_user : string; ba_details : json }.
Record Bot := mkBot { desk : UserDb; chats : Chats; bot_log : list BotAudit }.
Definition with_desk db (b : Bot) : Bot := mkBot db (chats b) (bot_log b).

Definition valid_username (name : string) : bool :=
  negb (is_empty name) && (len name <=? 32)
  && all_bytes (fun c => is_alphanumeric c || existsb (Ascii.eqb c) ["."; "_"; "-"]%char) name.

Definition blank_update : UpdateUser.UpdateUser := UpdateUser.mk None None Missing Missing Missing None None None Missing None.

Definition human (bytes : Z) : string :=
  let n := f64_of_i64 (Z.max bytes 0) in
  let '(i, den) := unit_index 5 n 1 0 in
  one_decimal n den +:+ " " +:+ nth i ["B"; "KB"; "MB"; "GB"; "TB"] "".

Section Bot.
Context (decrypt : string -> option string) (token_hash : string -> string) (uuid_str : Uuid -> string) (sql_lower : string -> string).
Context (collate : string -> string -> bool).
Context (parse_uuid : string -> option Uuid) (show_f64 : f64 -> string) (json_f64 : f64 -> json) (date_str : Z -> string) (db_text : db_error -> string).
(** [Utc::now() + Duration::days(days)]; [None] is a panic. *)
Context (add_days : Z -> Z -> option Z).
Context (public_url : option string).

Definition base : string := default "" public_url.

(** [logs]: the entry can be written; when it cannot, the error is dropped. *)
Definition audit_bot (logs : bool) (chat : Z) (action : string) (user : Uuid) (details : json) (b : Bot) : Bot :=
  mkBot (desk b) (chats b)
    (bot_log b ++ if logs then [mkBotAudit ("telegram:" +:+ show chat) action (uuid_str user) details] else []).

Definition via (l : list (string * json)) : json := obj (("via", JString "telegram") :: l).

(** [days > 0], and then the date. *)
Definition expiry (now days : Z) : option (option Z) :=
  if 0 <? days then Some <$> add_days now days else Some None.

(** [password] is [None] when the generator fails. *)
Definition add_user_reply (d : Draws) (password : option string) (args : list string) (logs : bool) (chat : Z) (b : Bot) : option string * Bot :=
  let username := default "" (head args) in
  if negb (valid_username username)
  then (Some "usage: /adduser <username> [gb] [days]  (username: letters, digits, . _ -)", b)
  else
    let gb := default (Finite false 0 1) (let! s := args !! 1%nat in parse_f64 s) in
    let days := default 0 (let! s := args !! 2%nat in parse_i64 s) in
    match expiry (now d) days with
    | None => (None, b)
    | Some expires_at =>
        match password with
        | None => (Some "rng failed", b)
        | Some password =>
            let new := NewUser.mk username password None None None "inherit" (gb_bytes gb) expires_at 0 in
            match create_user_row decrypt token_hash uuid_str sql_lower d new None true (mkSt (desk b) []) with
            | (Ok (user, token), s) =>
                (Some ("created " +:+ User.username user +:+ nl +:+ "link: " +:+ base +:+ "/sub/" +:+ uuid_str token +:+ nl
                       +:+ "applies on the next node sync"),
                 audit_bot logs chat "create" (User.id user) (via [("username", JString (User.username user))]) (with_desk (store s) b))
            | (Err _, s) => (Some ("could not add " +:+ username +:+ " (already exists?)"), with_desk (store s) b)
            end
        end
    end.

(** The part the three update commands share: find the user, update, audit, answer. *)
Definition update_reply (d : Draws) (username : string) (upd : UpdateUser.UpdateUser) (action : string) (details : json) (reply : string)
    (logs : bool) (chat : Z) (b : Bot) : string * Bot :=
  match get_user_by_name decrypt username (Users.tables (desk b)) with
  | Ok (Some user) =>
      match update_user_row decrypt sql_lower d (User.id user) upd (mkSt (desk b) []) with
      | (Ok (Some _), s) => (reply, audit_bot logs chat action (User.id user) details (with_desk (store s) b))
      | (_, s) => ("update failed", with_desk (store s) b)
      end
  | _ => ("no user named " +:+ username, b)
  end.

Definition set_quota_reply (d : Draws) (args : list string) (logs : bool) (chat : Z) (b : Bot) : option string * Bot :=
  let username := default "" (head args) in
  match (let! s := args !! 1%nat in parse_f64 s) with
  | None => (Some "usage: /setquota <username> <gb>  (0 = unlimited)", b)
  | Some gb =>
      let upd := UpdateUser.mk None None Missing Missing Missing None None (Some (gb_bytes gb)) Missing None in
      let (r, b') := update_reply d username upd "update" (via [("traffic_limit_gb", json_f64 gb)])
                       ("set " +:+ username +:+ " quota to " +:+ (if positive gb then show_f64 gb +:+ " GB" else "unlimited")
                        +:+ " — applies on the next node sync") logs chat b in
      (Some r, b')
  end.

(** The user is looked up before the date is computed. *)
Definition set_expiry_reply (d : Draws) (args : list string) (logs : bool) (chat : Z) (b : Bot) : option string * Bot :=
  let username := default "" (head args) in
  match (let! s := args !! 1%nat in parse_i64 s) with
  | None => (Some "usage: /setexpiry <username> <days>  (0 = never)", b)
  | Some days =>
      match get_user_by_name decrypt username (Users.tables (desk b)), expiry (now d) days with
      | Ok (Some _), None => (None, b)
      | _, o =>
          let upd := UpdateUser.mk None None Missing Missing Missing None None None
                       (match default None o with Some t => Value t | None => Null end) None in
          let (r, b') := update_reply d username upd "update" (via [("expires_days", jint days)])
                           ("set " +:+ username +:+ " expiry to " +:+ (if 0 <? days then show days +:+ " day(s)" else "never")
                            +:+ " — applies on the next node sync") logs chat b in
          (Some r, b')
      end
  end.

Definition toggle_reply (d : Draws) (username : string) (enable : bool) (logs : bool) (chat : Z) (b : Bot) : option string * Bot :=
  if is_empty username then (Some ("usage: /" +:+ (if enable then "enable" else "disable") +:+ " <username>"), b)
  else
    let upd := UpdateUser.mk None None Missing Missing Missing None (Some enable) None Missing None in
    let (r, b') := update_reply d username upd (if enable then "enable" else "disable") (via [])
                     ((if enable then "enabled" else "disabled") +:+ " " +:+ username +:+ " — applies on the next node sync") logs chat b in
    (Some r, b').

Definition help_text (is_admin : bool) (chat : Z) : string :=
  join nl
    (["honey bot"; "/sub <token> — your subscription link, traffic and expiry"]
     ++ (if is_admin
         then ["/status — fleet summary"; "/nodes — nodes + reachability"; "/find <username> — a user's quota/expiry";
               "/adduser <username> [gb] [days] — create a user + link"; "/setquota <username> <gb> — set traffic limit (0 = ∞)";
               "/setexpiry <username> <days> — set expiry (0 = never)"; "/enable <username> · /disable <username>"]
         else ["(this chat id is " +:+ show chat +:+ "; ask an operator for admin access)"])).

Definition limit_text (u : User.User) : string :=
  if 0 <? User.traffic_limit_bytes u then human (User.traffic_limit_bytes u) else "∞".
Definition expiry_text (u : User.User) : string := map_or (User.expires_at u) "never" date_str.

Definition sub_reply (now : Z) (token : string) (b : Bot) : string :=
  match parse_uuid token with
  | None => "usage: /sub <subscription-token>"
  | Some uuid =>
      match get_user_by_subscription_token decrypt token_hash uuid_str uuid (desk b) with
      | Ok (Some user) =>
          User.username user +:+ nl +:+ "link: " +:+ base +:+ "/sub/" +:+ token +:+ nl
          +:+ "traffic: " +:+ human (User.used_traffic_bytes user) +:+ " / " +:+ limit_text user +:+ nl
          +:+ "expires: " +:+ expiry_text user +:+ nl
          +:+ "status: " +:+ (if User.is_active now user then "active" else "suppressed")
      | _ => "no subscription found for that token"
      end
  end.

Definition status_reply (now : Z) (b : Bot) : string :=
  match metrics_snapshot now (Users.tables (desk b)) with
  | Ok m => "nodes: " +:+ show (m_online m) +:+ "/" +:+ show (m_nodes m) +:+ " online" +:+ nl +:+ "inbounds: " +:+ show (m_inbounds m) +:+ nl
            +:+ "users: " +:+ show (m_active m) +:+ "/" +:+ show (m_users m) +:+ " active" +:+ nl +:+ "traffic: " +:+ human (m_traffic m)
  | Err e => "status failed: " +:+ db_text e
  end.

(** [num_seconds] rounds towards zero. *)
Definition nodes_reply (now : Z) (b : Bot) : string :=
  match list_nodes (Users.tables (desk b)) with
  | [] => "no nodes yet"
  | ns => join nl ((fun n => "• " +:+ Node.name n +:+ " (" +:+ Node.address n +:+ ") — "
                             +:+ (if is_some_and (Node.last_seen n) (fun t => Z.quot (now - t) 1000000 <? 120) then "online" else "offline")) <$> ns)
  end.

Definition find_reply (now : Z) (username : string) (b : Bot) : string :=
  if is_empty username then "usage: /find <username>"
  else match get_user_by_name decrypt username (Users.tables (desk b)) with
       | Ok (Some user) =>
           User.username user +:+ nl +:+ "traffic: " +:+ human (User.used_traffic_bytes user) +:+ " / " +:+ limit_text user +:+ nl
           +:+ "expires: " +:+ expiry_text user +:+ nl +:+ "status: " +:+ default "active" (User.suppressed_reason now user)
       | Ok None => "no user named " +:+ username
       | Err e => "find failed: " +:+ db_text e
       end.

Definition admin_commands : list string := ["/status"; "/nodes"; "/find"; "/adduser"; "/setquota"; "/setexpiry"; "/enable"; "/disable"].

(** [role_fails]: the lookup of the chat's role fails, which counts as no role. *)
Definition handle (d : Draws) (password : option string) (role_fails logs : bool) (chat : Z) (text : string) (b : Bot) : option string * Bot :=
  let parts := split_whitespace text in
  let cmd := default "" (head parts) in
  let args := tail parts in
  let arg := default "" (head args) in
  let is_admin := negb role_fails && bool_decide (telegram_chat_role chat (chats b) = Some "admin") in
  if one_of ["/start"; "/help"] cmd then (Some (help_text is_admin chat), b)
  else if String.eqb cmd "/sub" then (Some (sub_reply (now d) arg b), b)
  else if one_of admin_commands cmd then
    if negb is_admin then (Some ("admins only. ask an operator to allowlist this chat (" +:+ show chat +:+ ")."), b)
    else if String.eqb cmd "/status" then (Some (status_reply (now d) b), b)
    else if String.eqb cmd "/nodes" then (Some (nodes_reply (now d) b), b)
    else if String.eqb cmd "/find" then (Some (find_reply (now d) arg b), b)
    else if String.eqb cmd "/adduser" then add_user_reply d password args logs chat b
    else if String.eqb cmd "/setquota" then set_quota_reply d args logs chat b
    else if String.eqb cmd "/setexpiry" then set_expiry_reply d args logs chat b
    else if String.eqb cmd "/enable" then toggle_reply d arg true logs chat b
    else toggle_reply d arg false logs chat b
  else (Some "unknown command — try /help", b).

(** ** The loop *)

Record Update := mkUpdate { update_id : Z; up_chat : Z; up_text : option string }.

(** What a message meets. *)
Record Turn := mkTurn { turn_draws : Draws; turn_password : option string; turn_role_fails : bool; turn_logs : bool }.

Inductive poll :=
| Polled (offset : Z) (b : Bot) (sent : list (Z * string))
| Panicked (b : Bot).

(** One answer of getUpdates, update by update. *)
Fixpoint process (turn : Z -> Turn) (l : list Update) (offset : Z) (b : Bot) (sent : list (Z * string)) : poll :=
  match l with
  | [] => Polled offset b sent
  | u :: l =>
      let offset := update_id u + 1 in
      match up_text u with
      | None => process turn l offset b sent
      | Some text =>
          let t := turn (update_id u) in
          match handle (turn_draws t) (turn_password t) (turn_role_fails t) (turn_logs t) (up_chat u) (trim text) b with
          | (Some reply, b') => process turn l offset b' (sent ++ [(up_chat u, reply)])
          | (None, b') => Panicked b'
          end
      end
  end.
End Bot.

(** ** Who changes what *)

(** Only the user [id] differs. *)
Definition confined (id : Uuid) (db db' : UserDb) : Prop :=
  (forall k, k <> id -> same_user k db db') /\
  nodes (Users.tables db') = nodes (Users.tables db) /\ inbounds (Users.tables db') = inbounds (Users.tables db) /\
  node_groups (Users.tables db') = node_groups (Users.tables db) /\ sold_groups db' = sold_groups db /\ identities db' = identities db.

Section Changes.
Context (decrypt : string -> option string) (token_hash : string -> string) (uuid_str : Uuid -> string) (sql_lower : string -> string).

Lemma write_user_confined id u t db db' : write_user sql_lower id u t db = Ok db' -> confined id db db'.
Proof.
  unfold write_user. destruct (negb _); [done|]. destruct (user_taken _ _ _ _ _); [done|]. destruct (negb _); [done|]. intros [= <-].
  split_and!; try done. intros k Hne. split_and!; simpl; rewrite ?lookup_insert_ne by done; done.
Qed.

Lemma insert_user_confined u t dflt db r db' : insert_user sql_lower u t dflt db = (Ok r, db') -> confined (User.id u) db db'.
Proof.
  unfold insert_user. destruct (is_some _); [done|]. destruct (write_user _ _ _ _ _) as [db1|] eqn:Ew; [|done]. intros [= _ <-].
  apply write_user_confined in Ew as (Hk & H1 & H2 & H3 & H4 & H5). destruct dflt; [|by split_and!].
  split_and!; try done. intros k Hne. destruct (Hk k Hne) as (? & ? & Hg & ? & ?). split_and!; try done.
  intros g. simpl. rewrite <- Hg. unfold grant_defaults. simpl. rewrite elem_of_union, elem_of_list_to_set, list_elem_of_fmap. naive_solver.
Qed.

Lemma insert_user_err u t dflt db e db' : insert_user sql_lower u t dflt db = (Err e, db') -> db' = db.
Proof. unfold insert_user. destruct (is_some _); [by intros [= _ <-]|]. destruct (write_user _ _ _ _ _); [done|]. by intros [= _ <-]. Qed.

(** What [encrypt] seals, [decrypt] opens. *)
Definition opens (d : Draws) : Prop := forall n p c, encrypt d n p = Some c -> is_Some (decrypt c).

Lemma create_user_row_cases d input s r s' :
  opens d -> create_user_row decrypt token_hash uuid_str sql_lower d input None true s = (r, s') ->
  match r with
  | Ok (u, _) => confined (User.id u) (store s) (store s')
  | Err _ => store s' = store s
  end.
Proof.
  intros Ho. unfold create_user_row, encrypted, statement, lift_result, mbind, M_bind, mret, M_ret.
  destruct (encrypt d 0 _) as [c0|] eqn:E0; [|by intros [= <- <-]]. destruct (encrypt d 1 _) as [c1|] eqn:E1; [|by intros [= <- <-]].
  destruct (encrypt d 2 _) as [c2|] eqn:E2; [|by intros [= <- <-]]. simpl.
  destruct (insert_user sql_lower _ _ _ _) as [[row|e] db'] eqn:Ei.
  - simpl. pose proof (insert_user_ok _ _ _ _ _ _ _ Ei) as ->. apply insert_user_confined in Ei. unfold decrypt_user. simpl.
    destruct (Ho _ _ _ E0) as [p0 ->], (Ho _ _ _ E1) as [p1 ->]. by intros [= <- <-].
  - apply insert_user_err in Ei as ->. by intros [= <- <-].
Qed.

Definition users_keyed (db : UserDb) : Prop := forall k u, users (Users.tables db) !! k = Some u -> User.id u = k.

Lemma get_user_by_name_ok name db u :
  users_keyed db -> get_user_by_name decrypt name (Users.tables db) = Ok (Some u) ->
  exists row, users (Users.tables db) !! User.id u = Some row /\ decrypt_user decrypt row = Ok u.
Proof.
  intros Hk. unfold get_user_by_name, decrypt_opt_user. destruct (List.find _ _) as [row|] eqn:E; [|done].
  apply find_some in E as [Hin _]. apply in_rows in Hin as [k Hrow]. destruct (decrypt_user decrypt row) as [u'|] eqn:Ed; [|done].
  intros [= ->]. exists row. split; [|done]. unfold decrypt_user in Ed. destruct (decrypt _); [|done]. destruct (decrypt _); [|done].
  injection Ed as <-. simpl. by rewrite (Hk _ _ Hrow).
Qed.

Lemma update_user_row_cases d id upd s r s' row u :
  UpdateUser.password upd = None -> users (Users.tables (store s)) !! id = Some row -> decrypt_user decrypt row = Ok u ->
  update_user_row decrypt sql_lower d id upd s = (r, s') ->
  match r with Ok (Some _) => confined id (store s) (store s') | _ => store s' = store s end.
Proof.
  intros Hp Hrow Hd. unfold update_user_row. rewrite Hp. unfold update_returning, statement, lift_result, mbind, M_bind, mret, M_ret, update_row.
  rewrite Hrow. destruct (tokens (store s) !! id) as [t|]; [|by intros [= <- <-]].
  destruct (write_user sql_lower id _ t (store s)) as [db'|] eqn:Ew; [|by intros [= <- <-]]. simpl.
  unfold decrypt_user in *. simpl. destruct (decrypt (User.uuid row)); [|done]. destruct (decrypt (User.password row)); [|done].
  intros [= <- <-]. by apply write_user_confined in Ew.
Qed.

(** A change of one user, with an audit entry of the chat where one can be written. *)
Definition changed (logs : bool) (chat : Z) (b b' : Bot) : Prop :=
  chats b' = chats b /\ exists action user details, action ∈ ["create"; "update"; "enable"; "disable"] /\
    bot_log b' = bot_log b ++ (if logs then [mkBotAudit ("telegram:" +:+ show chat) action (uuid_str user) details] else []) /\
    confined user (desk b) (desk b').

Lemma update_reply_cases d username upd action details reply logs chat b :
  action ∈ ["create"; "update"; "enable"; "disable"] ->
  users_keyed (desk b) -> UpdateUser.password upd = None ->
  let b' := (update_reply decrypt uuid_str sql_lower d username upd action details reply logs chat b).2 in b' = b \/ changed logs chat b b'.
Proof.
  intros Ha Hk Hp. unfold update_reply. destruct (get_user_by_name _ _ _) as [[u|]|] eqn:Eg; [|by left..].
  destruct (get_user_by_name_ok _ _ _ Hk Eg) as (row & Hrow & Hd).
  destruct (update_user_row _ _ _ _ _ _) as [r s'] eqn:Eu.
  assert (Hc := update_user_row_cases d (User.id u) upd (mkSt (desk b) []) r s' row u Hp Hrow Hd Eu).
  destruct r as [[x|]|e]; simpl in *; [right; split; [done|]; by exists action, (User.id u), details| |]; left; rewrite Hc; by destruct b.
Qed.

Lemma add_user_reply_cases add_days public_url d password args logs chat b :
  opens d -> let b' := (add_user_reply decrypt token_hash uuid_str sql_lower add_days public_url d password args logs chat b).2 in b' = b \/ changed logs chat b b'.
Proof.
  intros Ho. unfold add_user_reply. destruct (negb _); [by left|]. destruct (expiry _ _ _); [|by left]. destruct password as [pw|]; [|by left].
  destruct (create_user_row _ _ _ _ _ _ _ _ _) as [r s'] eqn:Ec. assert (Hc := create_user_row_cases _ _ _ _ _ Ho Ec).
  destruct r as [[u tok]|e]; simpl in *; [right; split; [done|]; eexists _, (User.id u), _; split; [|done]; set_solver|]. left. rewrite Hc. by destruct b.
Qed.
End Changes.

Lemma snd_some {A B} (p : A * B) : (let (r, b) := p in (Some r, b)).2 = p.2.
Proof. by destruct p. Qed.

Section Handling.
Context (decrypt : string -> option string) (token_hash : string -> string) (uuid_str : Uuid -> string) (sql_lower : string -> string).
Context (parse_uuid : string -> option Uuid) (show_f64 : f64 -> string) (json_f64 : f64 -> json) (date_str : Z -> string) (db_text : db_error -> string).
Context (add_days : Z -> Z -> option Z) (public_url : option string).
#[local] Abbreviation bot := (handle decrypt token_hash uuid_str sql_lower parse_uuid show_f64 json_f64 date_str db_text add_days public_url).

(** A chat that is not on the allowlist as an admin's changes nothing and always
    gets an answer, whatever it sends. *)
Theorem stranger_changes_nothing d password role_fails logs chat text b :
  role_fails = true \/ telegram_chat_role chat (chats b) <> Some "admin" ->
  exists reply, bot d password role_fails logs chat text b = (Some reply, b).
Proof.
  intros H. unfold handle. assert (E : negb role_fails && bool_decide (telegram_chat_role chat (chats b) = Some "admin") = false).
  { destruct H as [->|H]; [done|]. by rewrite bool_decide_eq_false_2, andb_false_r. }
  rewrite E. repeat (destruct (one_of _ _); [by eexists|]). destruct (String.eqb _ "/sub"); [by eexists|]. destruct (one_of _ _); by eexists.
Qed.

(** C31: Only an admin's chat changes anything through the bot, and one user at a time.
    Whatever message a chat sends, the bot either changes nothing, or the chat is on the
    allowlist as an admin's and the bot creates or changes one user; nodes, inbounds,
    groups, accounts, the allowlist and all other users stay as they are.  Such a
    change is recorded in the audit log under the chat's name exactly when the entry
    can be written: when the write fails, the change stands unrecorded. *)
Theorem bot_changes_audited d password role_fails logs chat text b :
  users_keyed (desk b) -> opens decrypt d ->
  let b' := (bot d password role_fails logs chat text b).2 in
  b' = b \/ telegram_chat_role chat (chats b) = Some "admin" /\ changed uuid_str logs chat b b'.
Proof.
  intros Hk Ho. unfold handle. destruct (one_of ["/start"; "/help"] _); [by left|]. destruct (String.eqb _ "/sub"); [by left|].
  destruct (one_of admin_commands _); [|by left]. destruct (negb (negb _ && _)) eqn:Hrole; [by left|].
  assert (Hadmin : telegram_chat_role chat (chats b) = Some "admin")
    by (apply negb_false_iff, andb_true_iff in Hrole as [_ Hrole]; by apply bool_decide_eq_true in Hrole).
  destruct (String.eqb _ "/status"); [by left|]. destruct (String.eqb _ "/nodes"); [by left|]. destruct (String.eqb _ "/find"); [by left|].
  cut (forall p : option string * Bot, p.2 = b \/ changed uuid_str logs chat b p.2 -> p.2 = b \/ telegram_chat_role chat (chats b) = Some "admin" /\ changed uuid_str logs chat b p.2);
    [intros Hcut; apply Hcut|by intros p [|]; auto].
  destruct (String.eqb _ "/adduser"); [by apply add_user_reply_cases|].
  destruct (String.eqb _ "/setquota"); [|destruct (String.eqb _ "/setexpiry"); [|destruct (String.eqb _ "/enable")]].
  - unfold set_quota_reply. destruct (match _ !! 1%nat with Some _ => _ | None => _ end) as [gb|]; [|by left].
    rewrite snd_some. apply update_reply_cases; [set_solver|done..].
  - unfold set_expiry_reply. destruct (match _ !! 1%nat with Some _ => _ | None => _ end) as [days|]; [|by left].
    destruct (get_user_by_name _ _ _) as [[u|]|]; destruct (expiry _ _ _) as [o|]; try (by left);
      (rewrite snd_some; apply update_reply_cases; [set_solver|done..]).
  - unfold toggle_reply. destruct (is_empty _); [by left|]. rewrite snd_some. apply update_reply_cases; [set_solver|done..].
  - unfold toggle_reply. destruct (is_empty _); [by left|]. rewrite snd_some. apply update_reply_cases; [set_solver|done..].
Qed.

(** One message of an admin's chat takes the bot down: asked for an expiry beyond the
    calendar, it panics instead of answering, so the message is never
    acknowledged.  (The task's end also ends the master, see [main].) *)
Theorem far_expiry_panics d password logs chat b turn u :
  (forall t n, 0 <= t -> 100000000 <= n -> add_days t n = None) ->
  0 <= now d -> telegram_chat_role chat (chats b) = Some "admin" ->
  turn u = mkTurn d password false logs ->
  process decrypt token_hash uuid_str sql_lower parse_uuid show_f64 json_f64 date_str db_text add_days public_url turn
    [mkUpdate u chat (Some "/adduser bob 0 100000000")] 0 b [] = Panicked b.
Proof.
  intros Hfar Hnow Hrole Hturn. cbn [process up_text update_id up_chat]. rewrite Hturn. cbn [turn_draws turn_password turn_role_fails turn_logs].
  unfold handle. change (split_whitespace (trim "/adduser bob 0 100000000")) with ["/adduser"; "bob"; "0"; "100000000"].
  rewrite bool_decide_eq_true_2 by done. cbn. unfold add_user_reply, expiry. cbn. by rewrite Hfar by (done || lia).
Qed.
End Handling.

(** ** The loop *)

Section Loop.
Context (decrypt : string -> option string) (token_hash : string -> string) (uuid_str : Uuid -> string) (sql_lower : string -> string).
Context (parse_uuid : string -> option Uuid) (show_f64 : f64 -> string) (json_f64 : f64 -> json) (date_str : Z -> string) (db_text : db_error -> string).
Context (add_days : Z -> Z -> option Z) (public_url : option string).
Context (turn : Z -> Turn) (get_updates : nat -> Z -> list Update).
#[local] Abbreviation proc := (process decrypt token_hash uuid_str sql_lower parse_uuid show_f64 json_f64 date_str db_text add_days public_url turn).

(** The ids taken up by [n] polls, from poll [k] on; a panic ends the loop. *)
Fixpoint taken (n k : nat) (offset : Z) (b : Bot) : list Z :=
  match n with
  | O => []
  | S n =>
      let l := get_updates k offset in
      (update_id <$> l) ++ match proc l offset b [] with Polled offset' b' _ => taken n (S k) offset' b' | Panicked _ => [] end
  end.

(** What the service documents of an answer: the updates from the offset on, in order. *)
Hypothesis get_updates_law : forall k offset,
  StronglySorted Z.lt (update_id <$> get_updates k offset) /\ Forall (fun u => offset <= update_id u) (get_updates k offset).

Lemma process_offset l : forall offset b sent offset' b' sent',
  proc l offset b sent = Polled offset' b' sent' -> StronglySorted Z.lt (update_id <$> l) -> Forall (fun u => offset <= update_id u) l ->
  offset <= offset' /\ Forall (fun u => update_id u < offset') l.
Proof.
  induction l as [|u l IH]; intros offset b sent offset' b' sent'; [intros [= -> _ _]; split; [lia|constructor]|].
  intros Hp Hs Hl. rewrite fmap_cons in Hs. apply StronglySorted_inv in Hs as [Hs Hu]. apply Forall_cons in Hl as [Hlu Hl].
  assert (Hrest : Forall (fun x => update_id u + 1 <= update_id x) l).
  { apply Forall_forall. intros x Hx. rewrite Forall_forall in Hu. specialize (Hu _ (list_elem_of_fmap_2 update_id _ _ Hx)). lia. }
  assert (Hgo : forall b sent, proc l (update_id u + 1) b sent = Polled offset' b' sent' ->
    offset <= offset' /\ Forall (fun x => update_id x < offset') (u :: l)).
  { intros b0 sent0 H. apply IH in H as [H1 H2]; [|done..]. split; [lia|]. constructor; [lia|done]. }
  cbn [process] in Hp. destruct (up_text u); [|by eapply Hgo].
  destruct (handle _ _ _ _ _ _ _ _ _ _ _ _ _ _ _ _ _ _) as [[r|] b1]; [by eapply Hgo|done].
Qed.

(** However often the bot polls, it takes up no update twice: the offset it asks
    from is past every update it has seen. *)
Theorem updates_taken_once n k offset b : NoDup (taken n k offset b) /\ Forall (fun i => offset <= i) (taken n k offset b).
Proof.
  revert k offset b. induction n as [|n IH]; intros k offset b; [split; constructor|]. cbn [taken].
  destruct (get_updates_law k offset) as [Hs Hl]. set (l := get_updates k offset) in *.
  assert (Hids : Forall (fun i => offset <= i) (update_id <$> l)) by (by apply Forall_fmap).
  assert (Hnd : NoDup (update_id <$> l)).
  { clear -Hs. induction Hs as [|x r _ IH Hx]; constructor; [|done]. intros Hin. rewrite Forall_forall in Hx. apply Hx in Hin. lia. }
  destruct (proc l offset b []) as [o' b' sent'|b'] eqn:Ep; [|by rewrite app_nil_r].
  destruct (process_offset l offset b [] o' b' sent' Ep Hs Hl) as [Ho Hlt]. destruct (IH (S k) o' b') as [IH1 IH2]. split.
  - apply NoDup_app. split; [done|]. split; [|done]. intros i Hi Hi'. rewrite Forall_forall in IH2. apply IH2 in Hi'.
    apply list_elem_of_fmap in Hi as (u & -> & Hu). rewrite Forall_forall in Hlt. apply Hlt in Hu. lia.
  - apply Forall_app. split; [done|]. eapply Forall_impl; [exact IH2|]. simpl. lia.
Qed.
End Loop.

(** ** Witnesses *)

Definition counter_desk : Bot := mkBot (store two_shops) {[9 := mkChat 9 "admin" "" 0; 4 := mkChat 4 "user" "" 0]} [].
Definition chrono_days (t n : Z) : option Z := if 90000000 <? n then None else Some (t + n * 86400000000).
Definition talk (logs : bool) (d : Draws) (chat : Z) (text : string) : option string * Bot :=
  handle plain id show to_ascii_lowercase parse_i64 (fun _ => "") (fun _ => JNull) show (fun _ => "") chrono_days None d (Some "pw") false logs chat text counter_desk.

Lemma stranger_changes_nothing_witness : exists reply, talk true (draws 50 0 0 0) 4 "/disable bob" = (Some reply, counter_desk).
Proof. apply stranger_changes_nothing. right. discriminate. Defined.

Lemma bot_changes_audited_witness :
  let b' := (talk true (draws 50 0 0 0) 9 "/disable ann").2 in
  (b' = counter_desk \/ telegram_chat_role 9 (chats counter_desk) = Some "admin" /\ changed show true 9 counter_desk b').
Proof.
  apply bot_changes_audited; [|intros n p c H; by eexists].
  assert (Hall : Forall (fun ku => User.id ku.2 = ku.1) (map_to_list (users (Users.tables (desk counter_desk))))) by (vm_compute; repeat constructor).
  rewrite Forall_forall in Hall. intros k u H%elem_of_map_to_list. exact (Hall _ H).
Defined.

(** The same change with and without its entry. *)
Example change_unrecorded :
  desk (talk false (draws 50 0 0 0) 9 "/disable ann").2 = desk (talk true (draws 50 0 0 0) 9 "/disable ann").2 /\
  length (bot_log (talk true (draws 50 0 0 0) 9 "/disable ann").2) = 1%nat /\
  bot_log (talk false (draws 50 0 0 0) 9 "/disable ann").2 = [].
Proof. split_and!; vm_compute; reflexivity. Qed.

Lemma far_expiry_panics_witness :
  process plain id show to_ascii_lowercase parse_i64 (fun _ => "") (fun _ => JNull) show (fun _ => "") chrono_days None
    (fun _ => mkTurn (draws 50 0 0 0) None false true) [mkUpdate 1 9 (Some "/adduser bob 0 100000000")] 0 counter_desk [] = Panicked counter_desk.
Proof.
  apply (far_expiry_panics _ _ _ _ _ _ _ _ _ _ _ (draws 50 0 0 0) None true 9 counter_desk _ 1).
  - intros t n _ Hn. unfold chrono_days. destruct (Z.ltb_spec 90000000 n); [reflexivity|lia].
  - discriminate.
  - reflexivity.
  - reflexivity.
Defined.

Definition two_updates (k : nat) (offset : Z) : list Update := [mkUpdate offset 4 (Some "/help"); mkUpdate (offset + 3) 9 None].

Lemma updates_taken_once_witness :
  NoDup (taken plain id show to_ascii_lowercase parse_i64 (fun _ => "") (fun _ => JNull) show (fun _ => "") chrono_days None
    (fun _ => mkTurn (draws 50 0 0 0) None false true) two_updates 2 0 0 counter_desk).
Proof.
  apply (updates_taken_once plain id show to_ascii_lowercase parse_i64 (fun _ => "") (fun _ => JNull) show (fun _ => "") chrono_days None
    (fun _ => mkTurn (draws 50 0 0 0) None false true) two_updates).
  intros k offset. split; [|repeat constructor; simpl; lia]. repeat constructor; simpl; lia.
Defined.
