(* ===== verification/Mcp.v ===== *)
(** * The MCP bridge (src/master/src/bin/honey-mcp.rs)

    The tools that turn calls of an assistant into requests of the panel's API:
    how the bridge is configured, what each tool sends, how an answer is read,
    and the catalog of operations, which is scanned out of the text of the
    panel's own router.  URLs, JSON text and base64 are third-party parameters. *)

From S2P Require Import Prelude Strings Json Ip Models Auth Router.

Definition quote_mark : ascii := ascii_of_nat 34.
Definition backslash : ascii := ascii_of_nat 92.

(** ** The catalog *)

(** [str::split_once] with a string separator. *)
Fixpoint split_at (needle s : string) : option (string * string) :=
  match strip_prefix needle s with
  | Some rest => Some ("", rest)
  | None =>
      match s with
      | "" => None
      | String c s' => let! p := split_at needle s' in Some (String c p.1, p.2)
      end
  end.

(** [balanced_call]: the text up to the parenthesis that closes the call, and what follows. *)
Fixpoint balanced_from (depth : nat) (in_string escaped : bool) (input : string) : option (string * string) :=
  match input with
  | "" => None
  | String c rest =>
      let keep r := let! p := (r : option (string * string)) in Some (String c p.1, p.2) in
      if in_string then
        if escaped then keep (balanced_from depth true false rest)
        else if Ascii.eqb c backslash then keep (balanced_from depth true true rest)
        else keep (balanced_from depth (negb (Ascii.eqb c quote_mark)) false rest)
      else if Ascii.eqb c quote_mark then keep (balanced_from depth true escaped rest)
      else if Ascii.eqb c "(" then keep (balanced_from (S depth) false escaped rest)
      else if Ascii.eqb c ")" then
        if (pred depth =? 0)%nat then Some ("", rest) else keep (balanced_from (pred depth) false escaped rest)
      else keep (balanced_from depth false escaped rest)
  end.
Definition balanced_call (input : string) : option (string * string) := balanced_from 1 false false input.

Definition first_string (input : string) : option string :=
  let! start := split_once quote_mark input in
  let! tail := split_once quote_mark start.2 in
  Some tail.1.

Definition needles : list (string * Method) :=
  [("get(", GET); ("post(", POST); ("routing::put(", PUT); (".put(", PUT); ("routing::patch(", PATCH);
   (".patch(", PATCH); ("routing::delete(", DELETE); (".delete(", DELETE)].

Definition route_methods (call : string) : list Method :=
  fold_left (fun methods e => if contains e.1 call && negb (is_method methods e.2) then methods ++ [e.2] else methods)
    needles [].

Definition path_category (path : string) : string :=
  let path := trim_start_matches "/" path in
  let any := existsb (fun p => starts_with p path) in
  if any ["nodes"; "certificates"; "enrollments"; "reality"; "wireguard"; "services"] then "nodes"
  else if starts_with "inbounds" path then "inbounds"
  else if any ["users"; "import"] then "users"
  else if starts_with "groups" path then "groups"
  else if starts_with "routing-profiles" path then "routing"
  else if starts_with "domains" path then "domains"
  else if any ["config"; "scheduled-ops"] then "config"
  else if any ["notify-channels"; "telegram"; "announcements"] then "notifications"
  else if starts_with "audit" path then "audit"
  else if any ["settings"; "branding"; "api-keys"; "admins"; "custom-roles"; "admin-ips"] then "admin"
  else "dashboard".

(** The text of a method; the catalog knows five. *)
Definition method_name (m : Method) : string :=
  match m with
  | GET => "GET" | HEAD => "HEAD" | OPTIONS => "OPTIONS" | POST => "POST" | PUT => "PUT"
  | PATCH => "PATCH" | DELETE => "DELETE" | OtherMethod => ""
  end.

Definition required_role (method path : string) : string :=
  let any := existsb (fun p => starts_with p path) in
  if any ["/notifications"; "/auth/sessions"] || String.eqb path "/auth/login-history" || starts_with "/saved-views" path
  then "viewer"
  else if any ["/admins"; "/settings"; "/api-keys"; "/branding"; "/update"; "/config"; "/custom-roles"] then "owner"
  else if starts_with "/audit" path || contains "/enrollments" path then "admin"
  else if String.eqb method "GET" || String.eqb path "/auth/logout" then "viewer"
  else if existsb (fun suffix => ends_with suffix path) ["/push"; "/rotate"; "/rotate-sub"; "/reset-traffic"; "/labels"]
  then "operator"
  else "admin".

Record Operation := mkOperation {
  op_method : string;
  op_path : string;
  op_category : string;
  op_role : string;
  op_destructive : bool }.

Definition operation (m : Method) (path : string) : Operation :=
  mkOperation (method_name m) path (path_category path) (required_role (method_name m) path)
    (String.eqb (method_name m) "DELETE").

(** The routes between the declaration of the protected router and its guard. *)
Definition protected_section (source : string) : string :=
  default "" (let! declared := split_at "let protected = Router::new()" source in
              let! routes := split_at ".route_layer(" declared.2 in
              Some routes.1).

(** The loop of [route_catalog]: every turn consumes at least the [.route(] it found. *)
Fixpoint scan_routes (fuel : nat) (rest : string) : list Operation :=
  match fuel with
  | O => []
  | S fuel =>
      match split_at ".route(" rest with
      | None => []
      | Some (_, rest) =>
          match balanced_call rest with
          | None => []
          | Some (call, after) =>
              match first_string call with
              | None => scan_routes fuel after
              | Some path => ((fun m => operation m path) <$> route_methods call) ++ scan_routes fuel after
              end
          end
      end
  end.

(** The order of the pairs of path and method. *)
Definition op_le (a b : Operation) : bool :=
  String.ltb (op_path a) (op_path b) || (String.eqb (op_path a) (op_path b) && String.leb (op_method a) (op_method b)).
Definition same_op (a b : Operation) : bool :=
  String.eqb (op_path a) (op_path b) && String.eqb (op_method a) (op_method b).

Definition route_catalog (source : string) : list Operation :=
  let protected := protected_section source in
  dedup_by same_op (sort_by op_le (scan_routes (S (String.length protected)) protected)).

(** ** Configuration *)

(** The parts of a URL that its accessors give out. *)
Record Url := mkUrl {
  scheme : string;
  username : string;
  password : option string;
  host_str : option string;
  port : option Z;
  url_path : string;
  query : option string;
  fragment : option string }.

Record Args := mkArgs {
  arg_base_url : string;
  arg_api_key : option string;
  arg_api_key_file : option string;
  timeout_seconds : Z;
  arg_max_response_bytes : Z }.

Record HoneyMcp := mkMcp {
  client_timeout : Z;
  base_url : Url;
  api_key : string;
  max_response_bytes : Z }.

Definition ABSOLUTE_MAX_RESPONSE_BYTES : Z := 10485760.

Definition is_loopback_host (host : string) : bool :=
  String.eqb (to_ascii_lowercase host) "localhost" || is_some_and (parse_ip host) ip_is_loopback.

(** What [std::fs] says of a path: whether it is a regular file and its mode. *)
Record Metadata := mkMetadata { is_file : bool; mode : Z }.

Section Bridge.
Context (parse : string -> option Url) (join : Url -> string -> result Url string) (query_pairs_mut : Url -> Url) (append_pair : string -> string -> Url -> Url).
Context (to_string_pretty number_text : json -> string) (from_slice : string -> option json).
Context (from_utf8_lossy base64 debug : string -> string).
Context (stat : string -> option Metadata) (read_to_string : string -> option string).

Definition read_api_key_file (path : string) : result string string :=
  match stat path with
  | None => Err ("could not inspect API key file " +:+ path)
  | Some m =>
      if negb (is_file m) then Err ("API key path " +:+ path +:+ " is not a regular file")
      else if negb (Z.land (mode m) 63 =? 0)
      then Err ("API key file " +:+ path +:+ " must not be readable or writable by group/others")
      else match read_to_string path with
           | None => Err ("could not read API key file " +:+ path)
           | Some text => Ok text
           end
  end.

Definition with_path (p : string) (u : Url) : Url :=
  mkUrl (scheme u) (username u) (password u) (host_str u) (port u) p (query u) (fragment u).

(** The command line refuses both sources of the key at once. *)
Definition new (args : Args) : result HoneyMcp string :=
  match parse (arg_base_url args) with
  | None => Err "invalid HONEY_BASE_URL"
  | Some u =>
      bail "HONEY_BASE_URL must use http or https" when negb (one_of ["http"; "https"] (scheme u)) in
      bail "HONEY_BASE_URL must not contain credentials" when negb (is_empty (username u)) || is_some (password u) in
      bail "HONEY_BASE_URL must be an absolute URL without query or fragment"
        when negb (is_some (host_str u)) || is_some (query u) || is_some (fragment u) in
      bail "plain HTTP is allowed only for localhost or a loopback address"
        when String.eqb (scheme u) "http" && negb (is_loopback_host (default "" (host_str u))) in
      let u := if ends_with "/" (url_path u) then u else with_path (url_path u +:+ "/") u in
      let? key := match arg_api_key args, arg_api_key_file args with
                  | Some value, _ => Ok value
                  | None, Some path => read_api_key_file path
                  | None, None => Err "set HONEY_API_KEY or HONEY_API_KEY_FILE"
                  end in
      let key := trim key in
      bail "Honey API key is empty" when is_empty key in
      bail ("max response bytes must be between 1 and " +:+ show ABSOLUTE_MAX_RESPONSE_BYTES)
        when (arg_max_response_bytes args =? 0) || (ABSOLUTE_MAX_RESPONSE_BYTES <? arg_max_response_bytes args) in
      Ok (mkMcp (clamp 1 600 (timeout_seconds args)) u key (arg_max_response_bytes args))
  end.

(** ** One request *)

Definition normalize_path (path : string) : result string string :=
  let path := trim path in
  bail "path must start with one slash" when negb (starts_with "/" path) || starts_with "//" path in
  bail "put query parameters in the query object, not in path"
    when contains "?" path || contains "#" path || contains "://" path in
  bail "dot path segments are not allowed" when existsb (one_of ["."; ".."]) (split "/" path) in
  Ok path.

Definition query_scalar (value : json) : result string string :=
  match value with
  | JString s => Ok s
  | JNumber _ => Ok (number_text value)
  | JBool b => Ok (if b then "true" else "false")
  | JNull => Ok ""
  | _ => Err "query values must be scalars or arrays of scalars"
  end.

(** Query parameters come in the order of their keys.  The pairs of one entry; the URL is given up with the first value that is no scalar. *)
Definition query_pairs (e : string * json) : result (list (string * string)) string :=
  match e.2 with
  | JArray values => try_map (fun v => let? s := query_scalar v in Ok (e.1, s)) values
  | v => let? s := query_scalar v in Ok [(e.1, s)]
  end.

Definition append_query (u : Url) (q : list (string * json)) : result Url string :=
  let? pairs := try_map query_pairs q in
  Ok (fold_left (fun u p => append_pair p.1 p.2 u) (mjoin pairs) (query_pairs_mut u)).

Record Outgoing := mkOutgoing { out_method : Method; out_url : Url; out_bearer : string; out_body : option json }.

(** What a response's stream yields. *)
Inductive chunk := Bytes (b : string) | Broken (error : string).
Record Response := mkResponse { status : Z; header : string -> option string; stream : list chunk }.

(** The bounded read of the body. *)
Fixpoint read_body (max : Z) (bytes : string) (l : list chunk) : result (string * bool) string :=
  match l with
  | [] => Ok (bytes, false)
  | Broken e :: _ => Err e
  | Bytes c :: l =>
      let remaining := Z.max 0 (max - len bytes) in
      if remaining <? len c then Ok (bytes +:+ take_bytes (Z.to_nat remaining) c, true)
      else read_body max (bytes +:+ c) l
  end.

Definition decode_body (bytes : string) (content_type : option string) : json :=
  if is_some_and content_type (contains "json") then default (JString (from_utf8_lossy bytes)) (from_slice bytes)
  else if utf8_valid bytes then JString bytes
  else obj [("encoding", JString "base64"); ("data", JString (base64 bytes))].

Definition error_value (error : string) : json := obj [("ok", JBool false); ("error", JString error)].

(** The request that goes out, before it is sent. *)
Definition outgoing (self : HoneyMcp) (method : Method) (path : string) (q : list (string * json)) (body : option json)
    : result (string * Outgoing) json :=
  match normalize_path path with
  | Err e => Err (error_value e)
  | Ok normalized =>
      match join (base_url self) (trim_start_matches "/" normalized) with
      | Err e => Err (error_value ("invalid path: " +:+ e))
      | Ok u =>
          match append_query u q with
          | Err e => Err (error_value e)
          | Ok u => Ok (normalized, mkOutgoing method u (api_key self) body)
          end
      end
  end.

(** [send]: what the panel, or whoever the URL names, answers. *)
Context (send : Outgoing -> result Response string).

Definition answer_value (self : HoneyMcp) (normalized : string) (o : Outgoing) : json :=
  let method := ("method", JString (method_name (out_method o))) in
  let path := ("path", JString normalized) in
  match send o with
  | Err e => obj [("ok", JBool false); method; path; ("error", JString ("Honey request failed: " +:+ e))]
  | Ok r =>
      let request_id := jopt_str (header r "x-request-id") in
      match read_body (max_response_bytes self) "" (stream r) with
      | Err e =>
          obj [("ok", JBool false); method; path; ("status", jint (status r)); ("request_id", request_id);
               ("error", JString ("could not read Honey response: " +:+ e))]
      | Ok (bytes, truncated) =>
          obj [("ok", JBool ((200 <=? status r) && (status r <? 300))); method; path; ("status", jint (status r));
               ("content_type", jopt_str (header r "content-type")); ("request_id", request_id);
               ("body", decode_body bytes (header r "content-type")); ("truncated", JBool truncated)]
      end
  end.

(** The answer of a request, and the requests that left the bridge for it. *)
Definition request (self : HoneyMcp) (method : Method) (path : string) (q : list (string * json)) (body : option json)
    : json * list Outgoing :=
  match outgoing self method path q body with
  | Err v => (v, [])
  | Ok (normalized, o) => (answer_value self normalized o, [o])
  end.

(** ** The tools *)

Inductive tool :=
| honey_discover (search method : option string) (limit : Z)
| honey_status (detailed : bool)
| honey_read (path : string) (q : list (string * json))
| honey_write (method path : string) (q : list (string * json)) (body : option json)
| honey_delete (path : string) (q : list (string * json)) (confirm : string).

Definition tool_error (message : string) : string := to_string_pretty (error_value message).

Definition operation_json (o : Operation) : json :=
  obj [("method", JString (op_method o)); ("path", JString (op_path o)); ("category", JString (op_category o));
       ("required_role", JString (op_role o)); ("destructive", JBool (op_destructive o))].

Definition discover (source : string) (search method : option string) (limit : Z) : string :=
  let search := to_ascii_lowercase (default "" search) in
  let method := to_ascii_uppercase <$> method in
  let wanted o :=
    map_or method true (String.eqb (op_method o))
    && (is_empty search
        || contains search (to_ascii_lowercase (op_method o +:+ " " +:+ op_path o +:+ " " +:+ op_category o))) in
  let operations := take (Z.to_nat (clamp 1 250 limit)) (List.filter wanted (route_catalog source)) in
  to_string_pretty
    (obj [("ok", JBool true);
          ("count", jint (Z.of_nat (length operations)));
          ("operations", JArray (operation_json <$> operations));
          ("notes", obj
             [("read", JString "Use honey_read for GET operations");
              ("write", JString "Use honey_write for POST, PUT and PATCH operations");
              ("delete", JString "Use honey_delete with an exact confirmation string");
              ("schema", JString "GET /openapi.json returns detailed schemas for the stable automation subset")])]).

Definition status_paths (detailed : bool) : list string :=
  ["/health"; "/ready"; "/status"; "/issues"; "/nodes"] ++ (if detailed then ["/metrics"; "/live-connections"] else []).

Definition status_tool (self : HoneyMcp) (detailed : bool) : string * list Outgoing :=
  let results := (fun p => (p, request self GET p [] None)) <$> status_paths detailed in
  (to_string_pretty (obj [("ok", JBool true); ("results", obj ((fun r => (r.1, r.2.1)) <$> results))]),
   mjoin ((fun r => r.2.2) <$> results)).

Definition write_method (method : string) : option Method :=
  if String.eqb method "POST" then Some POST
  else if String.eqb method "PUT" then Some PUT
  else if String.eqb method "PATCH" then Some PATCH else None.

(** A tool call: the text it returns and the requests it sent. *)
Definition call_tool (source : string) (self : HoneyMcp) (t : tool) : string * list Outgoing :=
  let sent p := (to_string_pretty (p : json * list Outgoing).1, p.2) in
  match t with
  | honey_discover search method limit => (discover source search method limit, [])
  | honey_status detailed => status_tool self detailed
  | honey_read path q => sent (request self GET path q None)
  | honey_write method path q body =>
      let method := to_ascii_uppercase method in
      match write_method method with
      | None => (tool_error ("method " +:+ debug method +:+ " is not allowed; use POST, PUT or PATCH"), [])
      | Some m => sent (request self m path q body)
      end
  | honey_delete path q confirm =>
      let expected := "DELETE " +:+ path in
      if negb (String.eqb confirm expected)
      then (tool_error ("confirmation mismatch; expected " +:+ debug expected), [])
      else sent (request self DELETE path q None)
  end.
End Bridge.

(** ** The text of a router *)

(** How a route may be laid out: whitespace and commas between its parts. *)
Record Layout := mkLayout { gap_before : string; gap_path : string; gap_methods : string; gap_chain : string; gap_end : string }.

(** A method at the head of a route's chain and further along. *)
Definition head_word (m : Method) : string :=
  match m with
  | GET => "get" | POST => "post" | PUT => "axum::routing::put" | PATCH => "axum::routing::patch"
  | DELETE => "axum::routing::delete" | _ => ""
  end.
Definition chain_word (m : Method) : string :=
  match m with
  | GET => ".get" | POST => ".post" | PUT => ".put" | PATCH => ".patch" | DELETE => ".delete" | _ => ""
  end.

(** The calls of a chain: what precedes the parenthesis, the method's word and the handler. *)
Definition links (g : string) (ms : list (Method * string)) : list (string * string * string) :=
  match ms with
  | [] => []
  | (m, h) :: rest => ("", head_word m, h) :: ((fun e => (g, chain_word e.1, e.2)) <$> rest)
  end.
Definition link_text (l : string * string * string) : string :=
  l.1.1 +:+ l.1.2 +:+ "(" +:+ l.2 +:+ ")".
Definition links_text (ls : list (string * string * string)) : string := foldr String.app "" (link_text <$> ls).

Definition quoted (p : string) : string := String quote_mark (p +:+ String quote_mark "").
Definition call_text (ly : Layout) (r : string * list (Method * string)) : string :=
  gap_path ly +:+ quoted r.1 +:+ ("," +:+ gap_methods ly) +:+ links_text (links (gap_chain ly) r.2) +:+ gap_end ly.
Definition route_text (ly : Layout) (r : string * list (Method * string)) : string :=
  gap_before ly +:+ ".route(" +:+ call_text ly r +:+ ")".
Definition router_text (l : list (Layout * (string * list (Method * string)))) (rest : string) : string :=
  foldr String.app rest ((fun e => route_text e.1 e.2) <$> l).

Definition gap_byte (c : ascii) : bool := is_whitespace (String c "") || Ascii.eqb c ",".
Definition is_gap (s : string) : bool := all_bytes gap_byte s.
Definition layout_ok (ly : Layout) : bool :=
  forallb is_gap [gap_before ly; gap_path ly; gap_methods ly; gap_chain ly; gap_end ly].

Definition path_byte (c : ascii) : bool :=
  negb (Ascii.eqb c quote_mark || Ascii.eqb c backslash || Ascii.eqb c "(" || Ascii.eqb c ")").
Definition name_byte (c : ascii) : bool := is_alphanumeric c || Ascii.eqb c "_" || Ascii.eqb c ":".

(** Methods the router registers. *)
Definition routable : list Method := [GET; POST; PUT; PATCH; DELETE].
Definition route_ok (r : string * list (Method * string)) : bool :=
  all_bytes path_byte r.1 && forallb (fun e => is_method routable e.1 && all_bytes name_byte e.2) r.2.

(** ** Reading it back *)

Lemma strip_prefix_first c n d s : Ascii.eqb d c = false -> strip_prefix (String c n) (String d s) = None.
Proof. intros H. simpl. by rewrite Ascii.eqb_sym, H. Qed.

Lemma split_at_skip c n a b :
  all_bytes (not_byte c) a = true -> split_at (String c n) (a +:+ String c n +:+ b) = Some (a, b).
Proof.
  induction a as [|d a IH]; intros Ha.
  - assert (H : strip_prefix (String c n) (String c (n +:+ b)) = Some b) by apply (strip_prefix_app (String c n)).
    change (split_at (String c n) (String c (n +:+ b)) = Some ("", b)). cbn [split_at]. by rewrite H.
  - cbn [all_bytes] in Ha. apply andb_true_iff in Ha as [Hd Ha]. apply negb_true_iff in Hd.
    change ((String d a) +:+ ?x) with (String d (a +:+ x)). cbn [split_at]. rewrite strip_prefix_first by done.
    by rewrite IH.
Qed.

Lemma split_at_none c n a : all_bytes (not_byte c) a = true -> split_at (String c n) a = None.
Proof.
  induction a as [|d a IH]; intros Ha; [done|]. cbn [all_bytes] in Ha. apply andb_true_iff in Ha as [Hd Ha].
  apply negb_true_iff in Hd. cbn [split_at]. by rewrite strip_prefix_first, IH.
Qed.

Definition prepend (a : string) (r : option (string * string)) : option (string * string) :=
  let! p := r in Some (a +:+ p.1, p.2).

Lemma prepend_app a b r : prepend (a +:+ b) r = prepend a (prepend b r).
Proof. destruct r as [[x y]|]; [|done]. unfold prepend. cbn [fst snd]. by rewrite append_assoc. Qed.

(** Neither a quotation mark nor a parenthesis. *)
Definition plain (c : ascii) : bool := negb (Ascii.eqb c quote_mark || Ascii.eqb c "(" || Ascii.eqb c ")").

Lemma balanced_plain d a s :
  all_bytes plain a = true -> balanced_from d false false (a +:+ s) = prepend a (balanced_from d false false s).
Proof.
  induction a as [|c a IH]; intros Ha; [change ("" +:+ s) with s; by destruct (balanced_from d false false s) as [[]|]|].
  cbn [all_bytes] in Ha. apply andb_true_iff in Ha as [Hc Ha]. unfold plain in Hc. rewrite negb_true_iff, !orb_false_iff in Hc.
  destruct Hc as [[H1 H2] H3]. change (String c a +:+ s) with (String c (a +:+ s)). cbn [balanced_from].
  rewrite H1, H2, H3, IH by done. by destruct (balanced_from d false false s) as [[]|].
Qed.

Lemma balanced_quoted d p s :
  all_bytes path_byte p = true -> balanced_from d false false (quoted p +:+ s) = prepend (quoted p) (balanced_from d false false s).
Proof.
  intros Hp. assert (H : balanced_from d true false ((p +:+ String quote_mark "") +:+ s)
                        = prepend (p +:+ String quote_mark "") (balanced_from d false false s)).
  { induction p as [|c p IH].
    { change (prepend (String quote_mark "") (balanced_from d (negb (Ascii.eqb quote_mark quote_mark)) false s)
              = prepend (String quote_mark "") (balanced_from d false false s)). by rewrite Ascii.eqb_refl. }
    cbn [all_bytes] in Hp. apply andb_true_iff in Hp as [Hc Hp]. unfold path_byte in Hc. rewrite negb_true_iff, !orb_false_iff in Hc.
    destruct Hc as [[[H1 H2] _] _]. change ((String c p +:+ ?q) +:+ s) with (String c ((p +:+ q) +:+ s)). cbn [balanced_from].
    rewrite H1, H2. cbn [negb]. rewrite IH by done. by destruct (balanced_from d false false s) as [[]|]. }
  unfold quoted. change (String quote_mark ?x +:+ s) with (String quote_mark (x +:+ s)). cbn [balanced_from].
  rewrite Ascii.eqb_refl, H. by destruct (balanced_from d false false s) as [[]|].
Qed.

(** Where a link's name and handler hold nothing but plain bytes. *)
Definition link_plain (l : string * string * string) : bool :=
  all_bytes plain l.1.1 && all_bytes plain l.1.2 && all_bytes plain l.2.

Lemma balanced_link d l s :
  link_plain l = true -> balanced_from (S d) false false (link_text l +:+ s) = prepend (link_text l) (balanced_from (S d) false false s).
Proof.
  unfold link_plain, link_text. rewrite !andb_true_iff. intros [[H1 H2] H3].
  rewrite !append_assoc, balanced_plain, balanced_plain by done.
  change ("(" +:+ l.2 +:+ ")" +:+ s) with (String "(" (l.2 +:+ String ")" s)). 
  change (balanced_from (S d) false false (String "(" (l.2 +:+ String ")" s)))
    with (prepend "(" (balanced_from (S (S d)) false false (l.2 +:+ String ")" s))).
  rewrite balanced_plain by done.
  change (balanced_from (S (S d)) false false (String ")" s)) with (prepend ")" (balanced_from (S d) false false s)).
  by rewrite <- !prepend_app, !append_assoc.
Qed.

Lemma balanced_links d ls s :
  forallb link_plain ls = true ->
  balanced_from (S d) false false (links_text ls +:+ s) = prepend (links_text ls) (balanced_from (S d) false false s).
Proof.
  unfold links_text. induction ls as [|l ls IH]; intros H.
  { change (foldr String.app "" (link_text <$> []) +:+ s) with s. by destruct (balanced_from (S d) false false s) as [[]|]. }
  cbn [forallb] in H. apply andb_true_iff in H as [Hl H]. rewrite fmap_cons. cbn [foldr].
  by rewrite append_assoc, balanced_link, IH, <- prepend_app.
Qed.

Lemma plain_gap s : is_gap s = true -> all_bytes plain s = true.
Proof.
  apply all_bytes_impl. intros c. unfold gap_byte, plain. destruct (Ascii.eqb_spec c quote_mark) as [->|]; [done|].
  destruct (Ascii.eqb_spec c "(") as [->|]; [done|]. by destruct (Ascii.eqb_spec c ")") as [->|].
Qed.

Lemma plain_name s : all_bytes name_byte s = true -> all_bytes plain s = true.
Proof.
  apply all_bytes_impl. intros c. unfold name_byte, plain. destruct (Ascii.eqb_spec c quote_mark) as [->|]; [done|].
  destruct (Ascii.eqb_spec c "(") as [->|]; [done|]. by destruct (Ascii.eqb_spec c ")") as [->|].
Qed.

Lemma links_plain g ms :
  is_gap g = true -> forallb (fun e => is_method routable e.1 && all_bytes name_byte e.2) ms = true ->
  forallb link_plain (links g ms) = true.
Proof.
  intros Hg%plain_gap H. destruct ms as [|[m h] ms]; [done|]. cbn [links forallb fst snd] in *.
  apply andb_true_iff in H as [[_ Hh%plain_name]%andb_true_iff H].
  apply andb_true_iff. split; [unfold link_plain; cbn [fst snd]; rewrite Hh; by destruct m|].
  induction ms as [|[m' h'] ms IH]; [done|]. cbn [forallb fst snd] in H. apply andb_true_iff in H as [[_ Hh'%plain_name]%andb_true_iff H].
  rewrite fmap_cons. cbn [forallb]. rewrite IH, andb_true_r by done. unfold link_plain. cbn [fst snd]. rewrite Hg, Hh'. by destruct m'.
Qed.

Lemma layout_gaps ly : layout_ok ly = true ->
  is_gap (gap_before ly) = true /\ is_gap (gap_path ly) = true /\ is_gap (gap_methods ly) = true
  /\ is_gap (gap_chain ly) = true /\ is_gap (gap_end ly) = true.
Proof. unfold layout_ok. cbn [forallb]. rewrite !andb_true_iff. tauto. Qed.

(** The call of a route ends where it was written to. *)
Lemma balanced_route ly r s :
  layout_ok ly = true -> route_ok r = true -> balanced_call (call_text ly r +:+ ")" +:+ s) = Some (call_text ly r, s).
Proof.
  intros (_ & Hg1 & Hg2 & Hg3 & Hg4)%layout_gaps [Hp Hm]%andb_true_iff. unfold balanced_call, call_text.
  rewrite !append_assoc, balanced_plain by (by apply plain_gap). rewrite balanced_quoted by done.
  rewrite (balanced_plain 1 ",") by done.
  rewrite balanced_plain by (by apply plain_gap). rewrite balanced_links by (by apply links_plain).
  rewrite balanced_plain by (by apply plain_gap).
  change (balanced_from 1 false false (")" +:+ s)) with (Some ("", s)). unfold prepend. cbn [fst snd]. by rewrite append_nil_r.
Qed.

Lemma first_string_route ly r : layout_ok ly = true -> route_ok r = true -> first_string (call_text ly r) = Some r.1.
Proof.
  intros (_ & Hg & _)%layout_gaps [Hp _]%andb_true_iff. unfold first_string, call_text, quoted.
  change (String quote_mark ?x +:+ ?y) with (String quote_mark (x +:+ y)). rewrite split_once_skip.
  - cbn [fst snd]. rewrite append_assoc. change (String quote_mark "" +:+ ?x) with (String quote_mark x).
    rewrite split_once_skip; [done|]. revert Hp. apply all_bytes_impl. intros c. unfold path_byte, not_byte.
    by destruct (Ascii.eqb c quote_mark).
  - apply plain_gap in Hg. revert Hg. apply all_bytes_impl. intros c. unfold plain, not_byte. by destruct (Ascii.eqb c quote_mark).
Qed.

(** *** Which methods a call names *)

Lemma ends_with_after m a b : ends_with m b = true -> ends_with m (a +:+ b) = true.
Proof. intros H. induction a as [|c a IH]; [done|]. change (String c a +:+ b) with (String c (a +:+ b)). cbn [ends_with]. by rewrite IH, orb_true_r. Qed.

Lemma ends_with_spec m s : ends_with m s = true <-> exists a, s = a +:+ m.
Proof.
  split.
  - induction s as [|c s IH]; cbn [ends_with]; rewrite orb_true_iff, String.eqb_eq.
    + intros [->|H]; [by exists ""|done].
    + intros [->|[a ->]%IH]; [by exists ""|by exists (String c a)].
  - intros [a ->]. apply ends_with_after. destruct m; cbn [ends_with]; by rewrite String.eqb_refl.
Qed.

(** Two endings of one text: the shorter is one of the longer. *)
Lemma ends_with_either m a b : ends_with m (a +:+ b) = true -> ends_with m b = true \/ ends_with b m = true.
Proof.
  intros [p H]%ends_with_spec. rewrite !ends_with_spec. revert p H. induction a as [|x a IH]; intros p H; [left; by exists p|].
  destruct p as [|y p]; [right; exists (String x a); by rewrite H|].
  change (String x (a +:+ b) = String y (p +:+ m)) in H. injection H as -> H. by apply (IH p).
Qed.

Lemma starts_with_spec n s : starts_with n s = true <-> exists b, s = n +:+ b.
Proof.
  split; [|intros [b ->]; apply starts_with_app]. revert s. induction n as [|c n IH]; intros s; [by exists s|].
  destruct s as [|d s]; [done|]. rewrite Router.starts_with_cons. intros [Hc [b ->]%IH]%andb_true_iff.
  apply Ascii.eqb_eq in Hc as ->. by exists b.
Qed.

Lemma contains_spec n s : contains n s = true <-> exists a b, s = a +:+ n +:+ b.
Proof.
  split.
  - induction s as [|c s IH]; cbn [contains]; rewrite orb_true_iff, starts_with_spec.
    + intros [[b H]|H]; [by exists "", b|done].
    + intros [[b H]|(a & b & ->)%IH]; [by exists "", b|by exists (String c a), b].
  - intros (a & b & ->). induction a as [|c a IH].
    + change ("" +:+ n +:+ b) with (n +:+ b). destruct (n +:+ b) eqn:E; cbn [contains]; rewrite <- E, starts_with_app; done.
    + change (String c a +:+ n +:+ b) with (String c (a +:+ n +:+ b)). cbn [contains]. by rewrite IH, orb_true_r.
Qed.

(** Two ways to cut one text at a byte that the first halves do not hold. *)
Lemma cut_unique c a b a' b' :
  all_bytes (not_byte c) a = true -> all_bytes (not_byte c) a' = true -> a +:+ String c b = a' +:+ String c b' -> a = a' /\ b = b'.
Proof. intros Ha Ha' H. apply (f_equal (split_once c)) in H. rewrite !split_once_skip in H by done. by simplify_eq. Qed.

Abbreviation no_paren := (all_bytes (not_byte "(")).

Lemma split_once_inv c s a b : split_once c s = Some (a, b) -> s = a +:+ String c b /\ all_bytes (not_byte c) a = true.
Proof.
  revert a. induction s as [|d s IH]; intros a; [done|]. cbn [split_once]. destruct (Ascii.eqb_spec d c) as [->|Hd].
  - intros [= <- <-]. done.
  - destruct (split_once c s) as [[x y]|]; [|done]. intros [= <- <-]. destruct (IH x eq_refl) as [-> Hx]. split; [done|].
    cbn [all_bytes]. rewrite Hx. unfold not_byte. by rewrite (proj2 (Ascii.eqb_neq d c) Hd).
Qed.

Lemma split_once_none c s : split_once c s = None -> all_bytes (not_byte c) s = true.
Proof.
  induction s as [|d s IH]; [done|]. cbn [split_once all_bytes]. unfold not_byte at 1. destruct (Ascii.eqb d c); [done|].
  destruct (split_once c s) as [[]|]; [done|]. auto.
Qed.

(** A word and its parenthesis are found where a parenthesis follows the word. *)
Lemma contains_call w s1 s2 :
  no_paren w = true -> no_paren s1 = true ->
  contains (w +:+ "(") (s1 +:+ String "(" s2) = ends_with w s1 || contains (w +:+ "(") s2.
Proof.
  intros Hw Hs. apply Bool.eq_iff_eq_true. rewrite orb_true_iff, !contains_spec, ends_with_spec. split.
  - intros (a & b & H). rewrite append_assoc in H. change ("(" +:+ b) with (String "(" b) in H.
    destruct (split_once "(" a) as [[a1 a2]|] eqn:Ea.
    + apply split_once_inv in Ea as [-> Ha1]. rewrite append_assoc in H.
      change (String "(" a2 +:+ ?x) with (String "(" (a2 +:+ x)) in H. apply cut_unique in H as [-> ->]; [|done..].
      right. exists a2, b. by rewrite append_assoc.
    + apply split_once_none in Ea. rewrite <- append_assoc in H. apply cut_unique in H as [-> _]; [left; by exists a|done|].
      by rewrite all_bytes_app, Ea, Hw.
  - intros [[a ->]|(a & b & ->)].
    + exists a, s2. by rewrite !append_assoc.
    + exists (s1 +:+ String "(" a), b. by rewrite !append_assoc.
Qed.

Lemma contains_no_paren w s : no_paren s = true -> contains (w +:+ "(") s = false.
Proof.
  intros Hs. apply not_true_iff_false. rewrite contains_spec. intros (a & b & ->). rewrite !all_bytes_app in Hs.
  change (no_paren "(") with false in Hs. by rewrite andb_false_r, andb_false_l, andb_false_r in Hs.
Qed.

(** Whether a text that ends in [word] ends in [w] shows in the word. *)
Definition settled (w word : string) : bool := ends_with w word || negb (ends_with word w).

Lemma ends_with_settled w a word : settled w word = true -> ends_with w (a +:+ word) = ends_with w word.
Proof.
  unfold settled. intros H. destruct (ends_with w word) eqn:E; [by apply ends_with_after|].
  apply not_true_iff_false. intros [H'|H']%ends_with_either; [by rewrite E in H'|by rewrite H' in H].
Qed.

Lemma no_paren_plain s : all_bytes plain s = true -> no_paren s = true.
Proof. apply all_bytes_impl. intros c. unfold plain, not_byte. destruct (Ascii.eqb c quote_mark), (Ascii.eqb c "("); done. Qed.

Lemma contains_links w ls acc post :
  no_paren w = true -> no_paren acc = true -> no_paren post = true -> forallb link_plain ls = true ->
  forallb (fun l => settled w l.1.2) ls = true ->
  contains (w +:+ "(") (acc +:+ links_text ls +:+ post) = existsb (fun l => ends_with w l.1.2) ls.
Proof.
  intros Hw. revert acc. induction ls as [|l ls IH]; intros acc Ha Hp Hl Hs.
  { apply contains_no_paren. change (links_text []) with "". by rewrite !all_bytes_app, Ha, Hp. }
  cbn [forallb existsb] in *. apply andb_true_iff in Hl as [Hl1 Hl], Hs as [Hs1 Hs].
  unfold link_plain in Hl1. rewrite !andb_true_iff in Hl1. destruct Hl1 as [[H1%no_paren_plain H2%no_paren_plain] H3%no_paren_plain].
  assert (E : acc +:+ links_text (l :: ls) +:+ post
            = ((acc +:+ l.1.1) +:+ l.1.2) +:+ String "(" ((l.2 +:+ ")") +:+ links_text ls +:+ post)).
  { unfold links_text. rewrite fmap_cons. cbn [foldr]. unfold link_text at 1. by rewrite !append_assoc. }
  rewrite E, contains_call, ends_with_settled, IH; try done.
  - by rewrite all_bytes_app, H3.
  - by rewrite !all_bytes_app, Ha, H1, H2.
Qed.

(** The words the needles look for. *)
Definition needle_words : list (string * Method) :=
  [("get", GET); ("post", POST); ("routing::put", PUT); (".put", PUT); ("routing::patch", PATCH); (".patch", PATCH);
   ("routing::delete", DELETE); (".delete", DELETE)].

Lemma needles_words : needles = (fun e => (e.1 +:+ "(", e.2)) <$> needle_words.
Proof. reflexivity. Qed.

(** Every word of a route is settled for every needle, and found by those of its own method alone. *)
Definition word_read (word : string) (m : Method) : bool :=
  forallb (fun e => settled e.1 word && implb (ends_with e.1 word) (bool_decide (e.2 = m))) needle_words
  && existsb (fun e => ends_with e.1 word) needle_words.

Lemma words_read : forallb (fun m => word_read (head_word m) m && word_read (chain_word m) m) routable = true.
Proof. vm_compute. reflexivity. Qed.

Lemma word_reads m : is_method routable m = true -> word_read (head_word m) m = true /\ word_read (chain_word m) m = true.
Proof.
  intros H%bool_decide_eq_true. apply andb_true_iff. assert (W := words_read). rewrite forallb_forall in W.
  apply W. by apply list_elem_of_In.
Qed.

Lemma links_read g ms l :
  forallb (fun e => is_method routable e.1 && all_bytes name_byte e.2) ms = true -> In l (links g ms) ->
  exists m h, In (m, h) ms /\ word_read l.1.2 m = true.
Proof.
  intros Hm. rewrite forallb_forall in Hm. destruct ms as [|[m h] ms]; [done|]. cbn [links In].
  intros [<-|Hl].
  - exists m, h. split; [by left|]. specialize (Hm (m, h) (or_introl eq_refl)). apply andb_true_iff in Hm as [Hm _]. by apply word_reads.
  - apply in_map_iff in Hl as ([m' h'] & <- & Hl). exists m', h'. split; [by right|].
    specialize (Hm (m', h') (or_intror Hl)). apply andb_true_iff in Hm as [Hm _]. by apply word_reads.
Qed.

Lemma links_have g ms m h :
  forallb (fun e => is_method routable e.1 && all_bytes name_byte e.2) ms = true -> In (m, h) ms ->
  exists l, In l (links g ms) /\ word_read l.1.2 m = true.
Proof.
  intros Hm Hin. rewrite forallb_forall in Hm. specialize (Hm _ Hin). apply andb_true_iff in Hm as [Hm _].
  destruct (word_reads m Hm) as [Hh Hc]. destruct ms as [|[m' h'] ms]; [done|]. destruct Hin as [[= -> ->]|Hin].
  - exists ("", head_word m, h). by split; [left|].
  - exists (g, chain_word m, h). split; [|done]. right. apply in_map_iff. by exists (m, h).
Qed.

Lemma route_methods_in call m :
  In m (route_methods call) <-> exists e, In e needles /\ e.2 = m /\ contains e.1 call = true.
Proof.
  unfold route_methods. assert (G : forall l acc,
    In m (fold_left (fun methods e => if contains e.1 call && negb (is_method methods e.2) then methods ++ [e.2] else methods) l acc)
    <-> In m acc \/ exists e, In e l /\ e.2 = m /\ contains e.1 call = true).
  { induction l as [|e l IH]; intros acc; cbn [fold_left In].
    { split; [by left|]. by intros [H|(e & [] & _)]. }
    rewrite IH. assert (S : (exists e', (e = e' \/ In e' l) /\ e'.2 = m /\ contains e'.1 call = true)
      <-> (e.2 = m /\ contains e.1 call = true) \/ exists e', In e' l /\ e'.2 = m /\ contains e'.1 call = true).
    { split; [intros (e' & [<-|H] & H'); [by left|right; by exists e']|]. intros [H|(e' & H & H')]; [exists e|exists e']; auto. }
    rewrite S. clear IH S. destruct (contains e.1 call); cbn [andb]; [|intuition congruence].
    unfold is_method. destruct (bool_decide_reflect (e.2 ∈ acc)) as [Ha|Ha]; cbn [negb].
    - apply list_elem_of_In in Ha. intuition (subst; auto).
    - rewrite in_app_iff. cbn [In]. intuition auto. }
  rewrite G. cbn [In]. tauto.
Qed.

(** A call names exactly the methods its route has. *)
Lemma route_methods_route ly r m :
  layout_ok ly = true -> route_ok r = true -> In m (route_methods (call_text ly r)) <-> exists h, In (m, h) r.2.
Proof.
  intros (_ & Hg1 & Hg2 & Hg3 & Hg4)%layout_gaps [Hp Hm]%andb_true_iff. rewrite route_methods_in, needles_words.
  assert (Hpath : no_paren r.1 = true).
  { revert Hp. apply all_bytes_impl. intros c. unfold path_byte, not_byte. destruct (Ascii.eqb c quote_mark), (Ascii.eqb c backslash), (Ascii.eqb c "("); done. }
  assert (Hc : forall e, In e needle_words ->
    contains (e.1 +:+ "(") (call_text ly r) = existsb (fun l => ends_with e.1 l.1.2) (links (gap_chain ly) r.2)).
  { intros e He. unfold call_text. rewrite <- !(append_assoc _ _ (links_text _ +:+ _)). apply contains_links.
    - assert (W : forallb (fun e => no_paren e.1) needle_words = true) by reflexivity. rewrite forallb_forall in W. by apply W.
    - unfold quoted. rewrite !all_bytes_app, (no_paren_plain _ (plain_gap _ Hg1)), (no_paren_plain _ (plain_gap _ Hg2)).
      change (String quote_mark ?x) with (String quote_mark "" +:+ x). rewrite !all_bytes_app, Hpath. done.
    - apply no_paren_plain, plain_gap, Hg4.
    - by apply links_plain.
    - apply forallb_forall. intros l (m' & h & _ & Hr)%links_read; [|done]. apply andb_true_iff in Hr as [Hr _].
      rewrite forallb_forall in Hr. specialize (Hr e He). by apply andb_true_iff in Hr as [Hr _]. }
  split.
  - intros (e' & He' & <- & H). apply in_map_iff in He' as (e & <- & He). cbn [fst snd] in *. rewrite Hc in H by done.
    apply existsb_exists in H as (l & Hl & H). destruct (links_read _ _ _ Hm Hl) as (m & h & Hin & Hr). exists h.
    apply andb_true_iff in Hr as [Hr _]. rewrite forallb_forall in Hr. specialize (Hr e He). apply andb_true_iff in Hr as [_ Hr].
    rewrite H in Hr. apply bool_decide_eq_true in Hr as ->. done.
  - intros [h Hin]. destruct (links_have (gap_chain ly) _ _ _ Hm Hin) as (l & Hl & Hr). apply andb_true_iff in Hr as [Hall Hr].
    apply existsb_exists in Hr as (e & He & H). exists (e.1 +:+ "(", e.2). cbn [fst snd].
    split; [apply in_map_iff; by exists e|]. rewrite forallb_forall in Hall. specialize (Hall e He).
    rewrite H in Hall. apply andb_true_iff in Hall as [_ Hall%bool_decide_eq_true]. split; [done|].
    rewrite Hc by done. apply existsb_exists. by exists l.
Qed.

Lemma gap_no_dot s : is_gap s = true -> all_bytes (not_byte ".") s = true.
Proof. apply all_bytes_impl. intros c. unfold gap_byte, not_byte. by destruct (Ascii.eqb_spec c ".") as [->|]. Qed.

Definition written (l : list (Layout * (string * list (Method * string)))) : bool :=
  forallb (fun e => layout_ok e.1 && route_ok e.2) l.

Definition listed (routes : list (string * list (Method * string))) (o : Operation) : Prop :=
  exists path ms m h, In (path, ms) routes /\ In (m, h) ms /\ o = operation m path.

Lemma scan_router l rest fuel o :
  written l = true -> is_gap rest = true -> (length l < fuel)%nat ->
  In o (scan_routes fuel (router_text l rest)) <-> listed (snd <$> l) o.
Proof.
  intros Hl Hr. revert fuel. induction l as [|[ly [path ms]] l IH]; intros [|fuel] Hf; cbn [length] in Hf; try lia.
  { cbn [scan_routes]. unfold router_text. cbn [fmap list_fmap foldr]. rewrite split_at_none by (by apply gap_no_dot).
    split; [done|]. by intros (p & ms & m & h & [] & _). }
  cbn [written forallb fst snd] in Hl. apply andb_true_iff in Hl as [[Hly Hok]%andb_true_iff Hl].
  assert (E : router_text ((ly, (path, ms)) :: l) rest
            = gap_before ly +:+ ".route(" +:+ (call_text ly (path, ms) +:+ ")" +:+ router_text l rest)).
  { unfold router_text. rewrite fmap_cons. cbn [foldr fst snd]. unfold route_text. by rewrite !append_assoc. }
  rewrite E. cbn [scan_routes]. rewrite split_at_skip by (apply gap_no_dot; by apply layout_gaps in Hly as [? _]).
  rewrite balanced_route, first_string_route by done. rewrite in_app_iff, IH by (done || lia). cbn [fst].
  rewrite fmap_cons. unfold listed. cbn [In snd]. split.
  - intros [H|(p & ms' & m & h & H & H')]; [|exists p, ms', m, h; auto].
    apply in_map_iff in H as (m & <- & Hm). apply route_methods_route in Hm as [h Hm]; [|done..].
    exists path, ms, m, h. auto.
  - intros (p & ms' & m & h & [[= <- <-]|H] & Hin & ->); [left|right; by exists p, ms', m, h].
    apply in_map_iff. exists m. split; [done|]. apply route_methods_route; [done..|]. by exists h.
Qed.

(** *** Sorting and deduplication *)

Lemma dedup_in {A} (same : A -> A -> bool) l x :
  (forall a b, In a l -> In b l -> same a b = true -> a = b) -> In x (dedup_by same l) <-> In x l.
Proof.
  destruct l as [|y l]; [done|]. cbn [dedup_by]. revert y. induction l as [|z l IH]; intros y Hs; [done|].
  cbn [dedup_from]. destruct (same z y) eqn:E.
  - rewrite (IH y) by (intros a b Ha Hb; apply Hs; destruct Ha, Hb; simpl; auto).
    assert (z = y) as -> by (apply Hs; simpl; auto). simpl. tauto.
  - assert (H := IH z). cbn [In] in *. rewrite H by (intros a b Ha Hb; apply Hs; simpl; auto). tauto.
Qed.

Lemma dedup_from_sub {A} (same : A -> A -> bool) prev l x : In x (dedup_from same prev l) -> In x l.
Proof.
  revert prev. induction l as [|y l IH]; intros prev; [done|]. cbn [dedup_from].
  destruct (same y prev); [intros H; right; by eapply IH|]. intros [<-|H]; [by left|right; by eapply IH].
Qed.

Lemma dedup_nodup {A} (le same : A -> A -> bool) l :
  (forall a b, In a l -> In b l -> le a b = true -> le b a = true -> same b a = true) -> (forall a, same a a = true) ->
  StronglySorted (fun a b => le a b = true) l -> NoDup (dedup_by same l).
Proof.
  intros Hle Hrefl. destruct l as [|y l]; [constructor|]. cbn [dedup_by]. revert y Hle.
  induction l as [|z l IH]; intros y Hle Hs; [apply NoDup_singleton|]. cbn [dedup_from].
  apply StronglySorted_inv in Hs as [Hs Hy]. destruct (same z y) eqn:E.
  - apply IH; [intros a b Ha Hb; apply Hle; destruct Ha, Hb; simpl; auto|].
    apply StronglySorted_inv in Hs as [Hs _]. constructor; [done|]. by inversion Hy.
  - constructor; [|apply IH; [intros a b Ha Hb; apply Hle; simpl; auto|done]].
    intros [->|H]%list_elem_of_In; [by rewrite Hrefl in E|]. apply dedup_from_sub in H.
    apply StronglySorted_inv in Hs as [_ Hz]. rewrite Forall_forall in Hz. inversion Hy as [|? ? Hyz _]; subst.
    assert (same z y = true) as Ht; [|by rewrite Ht in E]. apply Hle; simpl; auto. apply Hz. by apply list_elem_of_In.
Qed.

Lemma op_le_spec a b : op_le a b = true <->
  string_lt (op_path a) (op_path b) \/ (op_path a = op_path b /\ String.leb (op_method a) (op_method b) = true).
Proof. unfold op_le. by rewrite orb_true_iff, andb_true_iff, String.eqb_eq, string_ltb_lt. Qed.

Lemma string_lt_asym a b : string_lt a b -> string_lt b a -> False.
Proof. intros [H1 Hne] [H2 _]. destruct Hne. by apply String.leb_antisym. Qed.

Lemma op_sorted l : StronglySorted (fun a b => op_le a b = true) (sort_by op_le l).
Proof.
  apply sort_by_sorted.
  - intros x y H. apply op_le_spec. destruct (String.eqb_spec (op_path x) (op_path y)) as [E|Hne].
    + right. split; [done|]. destruct (String.leb_total (op_method x) (op_method y)) as [Hm|Hm]; [|done].
      exfalso. apply not_true_iff_false in H. apply H, op_le_spec. by right.
    + left. apply string_ltb_lt, string_ltb_total; [|done]. apply not_true_iff_false in H. apply not_true_iff_false.
      intros Hl. apply H, op_le_spec. left. by apply string_ltb_lt.
  - intros x y z. rewrite !op_le_spec. intros [H1|[E1 H1]] [H2|[E2 H2]].
    + left. by eapply string_lt_trans.
    + left. by rewrite <- E2.
    + left. by rewrite E1.
    + right. split; [congruence|]. by eapply string_leb_trans.
Qed.

Lemma same_op_spec a b : same_op a b = true <-> op_path a = op_path b /\ op_method a = op_method b.
Proof. unfold same_op. by rewrite andb_true_iff, !String.eqb_eq. Qed.

Lemma op_le_same a b : op_le a b = true -> op_le b a = true -> same_op b a = true.
Proof.
  rewrite !op_le_spec, same_op_spec. intros [H1|[E1 H1]] [H2|[E2 H2]].
  - by destruct (string_lt_asym _ _ H1 H2).
  - by destruct H1 as [_ []].
  - by destruct H2 as [_ []].
  - split; [done|]. by apply String.leb_antisym.
Qed.

Lemma router_text_length l rest : (length l <= String.length (router_text l rest))%nat.
Proof.
  unfold router_text. induction l as [|e l IH]; [cbn; lia|]. rewrite fmap_cons. cbn [foldr length]. rewrite string_length_app.
  unfold route_text at 1. rewrite !string_length_app. cbn [String.length]. lia.
Qed.

Lemma listed_same routes a b : listed routes a -> listed routes b -> same_op a b = true -> a = b.
Proof.
  intros (p & ms & m & h & _ & _ & ->) (p' & ms' & m' & h' & _ & _ & ->). rewrite same_op_spec. unfold operation. cbn [op_path op_method].
  by intros [-> ->].
Qed.

(** The catalog of operations is the router: scanned out of the text of the
    protected routes, laid out with whatever whitespace and line breaks, it lists
    each registered method and path once, with nothing missing and nothing added,
    so that a route added to the panel cannot stay hidden from the bridge. *)
Theorem catalog_complete source l rest :
  protected_section source = router_text l rest -> written l = true -> is_gap rest = true ->
  (forall o, In o (route_catalog source) <-> listed (snd <$> l) o)
  /\ NoDup ((fun o => (op_method o, op_path o)) <$> route_catalog source).
Proof.
  intros Hsrc Hl Hr. unfold route_catalog. rewrite Hsrc.
  set (ops := scan_routes _ _). assert (Hops : forall o, In o (sort_by op_le ops) <-> listed (snd <$> l) o).
  { intros o. rewrite sort_by_in. apply scan_router; [done..|]. apply le_n_S, router_text_length. }
  assert (Hin : forall o, In o (dedup_by same_op (sort_by op_le ops)) <-> listed (snd <$> l) o).
  { intros o. rewrite dedup_in; [apply Hops|]. intros a b Ha%Hops Hb%Hops. by apply listed_same with (snd <$> l). }
  split; [done|]. apply NoDup_fmap_2_strong.
  - intros a b Ha%list_elem_of_In%Hin Hb%list_elem_of_In%Hin [= Hm Hp]. apply (listed_same (snd <$> l)); [done..|]. by apply same_op_spec.
  - apply (dedup_nodup op_le); [intros a b _ _; apply op_le_same| |apply op_sorted]. intros a. by apply same_op_spec.
Qed.

(** ** What the catalog says of a route *)

Definition advertised (r : string * list (Method * string)) : bool :=
  forallb (fun e => String.eqb (op_role (operation e.1 r.1)) (least_role e.2)
                    && String.eqb (op_category (operation e.1 r.1)) (handler_domain e.2)) r.2.

Lemma routes_advertised : forallb advertised protected_routes = true.
Proof. vm_compute. reflexivity. Qed.

Section Advertised.
Context (accepts : param_type -> string -> bool).
Hypothesis accepts_law : forall ty s, ty <> PText -> accepts ty s = true -> all_bytes param_byte s = true.

Lemma served_by_entry m ms h : served_by m ms = Some h -> m <> HEAD -> In (m, h) ms.
Proof.
  intros H Hm. unfold served_by in H. rewrite (bool_decide_eq_false_2 (m = HEAD)) in H by done.
  destruct (List.find (fun e => bool_decide (e.1 = m)) ms) as [[m' h']|] eqn:E; [|done]. apply find_some in E as [E He].
  apply bool_decide_eq_true in He. simpl in H, He. by simplify_eq.
Qed.

(** The role and the category that the catalog shows for an operation are the
    ones the panel enforces: on every well-typed path of a registered route, an
    account without a custom role is let in exactly when it has the advertised
    role, and one with a custom role exactly when its permissions cover the
    advertised category. *)
Theorem advertised_role_enforced pattern m h path i :
  handler_at pattern m = Some (Protected, h) -> m <> HEAD -> fits pattern path = true -> params_ok accepts pattern path = true ->
  is_reseller i = false ->
  authorized i m path
  = match permissions i with
    | Some _ => permits_domain i (op_category (operation m pattern)) (need_level m)
    | None => permits i (op_role (operation m pattern))
    end.
Proof.
  intros Hh Hm Hf Hp Hi. destruct (protected_policy accepts accepts_law _ _ _ _ Hh Hf Hp) as (Hr & Hd & _).
  apply handler_at_inv in Hh as (ms & Hin%routes_in & Hs). apply served_by_entry in Hs; [|done].
  assert (Ha := proj1 (forallb_forall _ _) routes_advertised _ Hin). unfold advertised in Ha. cbn [fst snd] in Ha.
  rewrite forallb_forall in Ha. specialize (Ha (m, h) Hs). cbn [fst snd] in Ha.
  apply andb_true_iff in Ha as [Ha%String.eqb_eq Hc%String.eqb_eq]. unfold authorized. rewrite Hi, Hr, Hd, Ha, Hc.
  by destruct (permissions i).
Qed.
End Advertised.

(** ** Reading an answer *)

Definition all_of (cs : list string) : string := foldr String.app "" cs.

Lemma take_bytes_all n a : (String.length a <= n)%nat -> take_bytes n a = a.
Proof. revert n. induction a as [|c a IH]; intros [|n] H; cbn [String.length] in H; [done|done|lia|]. cbn [take_bytes]. rewrite IH by lia. done. Qed.

Lemma take_bytes_past n a b : (String.length a <= n)%nat -> take_bytes n (a +:+ b) = a +:+ take_bytes (n - String.length a) b.
Proof.
  revert n. induction a as [|c a IH]; intros n H; [cbn; by rewrite Nat.sub_0_r|]. destruct n as [|n]; cbn [String.length] in *; [lia|].
  change (String c a +:+ ?x) with (String c (a +:+ x)). cbn [take_bytes]. rewrite IH by lia. done.
Qed.

Lemma take_bytes_within n a b : (n <= String.length a)%nat -> take_bytes n (a +:+ b) = take_bytes n a.
Proof.
  revert n. induction a as [|c a IH]; intros [|n] H; cbn [String.length] in H; [by destruct b|lia|done|].
  change (String c a +:+ b) with (String c (a +:+ b)). cbn [take_bytes]. by rewrite IH by lia.
Qed.

Lemma len_app a b : len (a +:+ b) = len a + len b.
Proof. unfold len. rewrite string_length_app. lia. Qed.

Lemma read_body_from max cs : forall bytes, len bytes <= max ->
  read_body max bytes (Bytes <$> cs)
  = Ok (take_bytes (Z.to_nat max) (bytes +:+ all_of cs), max <? len (bytes +:+ all_of cs)).
Proof.
  induction cs as [|c cs IH]; intros bytes H.
  - cbn [fmap list_fmap read_body all_of foldr]. rewrite append_nil_r, take_bytes_all by (unfold len in H; lia).
    by rewrite (proj2 (Z.ltb_ge max (len bytes))).
  - rewrite fmap_cons. cbn [read_body all_of foldr]. fold (all_of cs). rewrite Z.max_r by lia.
    destruct (Z.ltb_spec (max - len bytes) (len c)) as [Hc|Hc].
    + rewrite take_bytes_past by (unfold len in *; lia). rewrite take_bytes_within by (unfold len in *; lia).
      rewrite !len_app. rewrite (proj2 (Z.ltb_lt _ _)) by (unfold len in *; lia). repeat f_equal. unfold len. lia.
    + rewrite IH by (rewrite len_app; lia). by rewrite !append_assoc.
Qed.

(** However an answer arrives in pieces, what the bridge keeps of it is its
    first bytes up to the configured limit, and it is marked as truncated exactly
    when there was more. *)
Theorem response_capped max cs :
  0 <= max -> read_body max "" (Bytes <$> cs) = Ok (take_bytes (Z.to_nat max) (all_of cs), max <? len (all_of cs)).
Proof. intros H. by rewrite read_body_from. Qed.

(** ** Where requests go *)

Lemma contains_bytes (p : ascii -> bool) n s : all_bytes p s = true -> all_bytes p n = false -> contains n s = false.
Proof.
  intros Hs Hn. apply not_true_iff_false. rewrite contains_spec. intros (a & b & ->). rewrite !all_bytes_app, Hn in Hs.
  by rewrite andb_false_l, andb_false_r in Hs.
Qed.

(** Bytes that mean nothing but themselves in a relative reference. *)
Definition url_byte (c : ascii) : bool :=
  between 33 126 c && negb (existsb (Ascii.eqb c) [":"; "%"; "?"; "#"; backslash]%char).

(** A reference without a scheme, an authority, a leading slash, or dot segments. *)
Definition relative_ref (r : string) : bool :=
  all_bytes url_byte r && negb (starts_with "/" r) && negb (existsb (one_of ["."; ".."]) (split "/" r)).

Record same_origin (a b : Url) : Prop := mkOrigin {
  o_scheme : scheme a = scheme b;
  o_host : host_str a = host_str b;
  o_port : port a = port b }.

(** What a tool may send. *)
Definition tool_allows (t : tool) (m : Method) : bool :=
  match t with
  | honey_discover _ _ _ => false
  | honey_status _ | honey_read _ _ => bool_decide (m = GET)
  | honey_write method _ _ _ => is_method [POST; PUT; PATCH] m && String.eqb (method_name m) (to_ascii_uppercase method)
  | honey_delete path _ confirm => bool_decide (m = DELETE) && String.eqb confirm ("DELETE " +:+ path)
  end.

Definition plain_tool (t : tool) : bool :=
  match t with
  | honey_discover _ _ _ | honey_status _ => true
  | honey_read path _ | honey_write _ path _ _ | honey_delete path _ _ => all_bytes url_byte path
  end.

Section Requests.
Context (parse : string -> option Url) (join : Url -> string -> result Url string).
Context (query_pairs_mut : Url -> Url) (append_pair : string -> string -> Url -> Url).
Context (to_string_pretty number_text : json -> string) (from_slice : string -> option json).
Context (from_utf8_lossy base64 debug : string -> string).
Context (stat : string -> option Metadata) (read_to_string : string -> option string).
Context (send : Outgoing -> result Response string).
#[local] Abbreviation make := (new parse stat read_to_string).
#[local] Abbreviation prepare := (outgoing join query_pairs_mut append_pair number_text).
#[local] Abbreviation ask := (request join query_pairs_mut append_pair number_text from_slice from_utf8_lossy base64 send).
#[local] Abbreviation run := (call_tool join query_pairs_mut append_pair to_string_pretty number_text from_slice from_utf8_lossy base64 debug send).

(** A bridge that starts is pointed at an http or https URL that ends in a slash, in
    the clear only on the machine itself, with a key. *)
Lemma new_ok args self :
  0 <= arg_max_response_bytes args -> make args = Ok self ->
  one_of ["http"; "https"] (scheme (base_url self)) = true /\ ends_with "/" (url_path (base_url self)) = true
  /\ (scheme (base_url self) = "http" -> is_loopback_host (default "" (host_str (base_url self))) = true)
  /\ api_key self <> "" /\ 0 < max_response_bytes self <= ABSOLUTE_MAX_RESPONSE_BYTES.
Proof.
  intros Hpos. unfold new. destruct (parse _) as [u|]; [|done]. destruct (one_of _ (scheme u)) eqn:Es; [|done]. cbn [negb].
  destruct (_ || is_some (password u)); [done|]. destruct (_ || is_some (fragment u)); [done|].
  destruct (_ && negb _) eqn:Eh; [done|]. destruct (match arg_api_key args with Some _ => _ | None => _ end) as [key|]; [|done].
  destruct (is_empty (trim key)) eqn:Ek; [done|]. destruct ((arg_max_response_bytes args =? 0) || _) eqn:Em; [done|].
  intros [= <-]. cbn [base_url api_key max_response_bytes]. breflect.
  set (v := if ends_with "/" (url_path u) then u else _).
  assert (Hv : scheme v = scheme u /\ host_str v = host_str u /\ ends_with "/" (url_path v) = true).
  { unfold v. destruct (ends_with "/" (url_path u)) eqn:E; [done|]. repeat split. by apply ends_with_after. }
  destruct Hv as (-> & -> & ->). repeat split; [done| | |lia|lia].
  - intros H. rewrite H in Eh. destruct (is_loopback_host _); [done|]. by destruct Eh.
  - intros E. by rewrite E in Ek.
Qed.

Lemma outgoing_inv self m path q body n o :
  prepare self m path q body = Ok (n, o) ->
  normalize_path path = Ok n /\ exists u u', join (base_url self) (trim_start_matches "/" n) = Ok u
    /\ append_query query_pairs_mut append_pair number_text u q = Ok u' /\ o = mkOutgoing m u' (api_key self) body.
Proof.
  unfold outgoing. destruct (normalize_path path) as [n'|]; [|done]. destruct (join _ _) as [u|] eqn:Ej; [|done].
  destruct (append_query _ _ _ _ _) as [u'|] eqn:Ea; [|done]. intros [= -> <-]. split; [done|]. by exists u, u'.
Qed.

Lemma normalize_relative path n :
  all_bytes url_byte path = true -> normalize_path path = Ok n -> relative_ref (trim_start_matches "/" n) = true.
Proof.
  intros Hb. unfold normalize_path. rewrite trim_plain.
  2: { revert Hb. apply all_bytes_impl. intros c Hc. destruct c as [[] [] [] [] [] [] [] []]; done. }
  destruct (starts_with "/" path) eqn:E1; [|done]. destruct (starts_with "//" path) eqn:E2; [done|].
  destruct (_ || contains "://" path); [done|]. cbn [negb orb].
  destruct (existsb _ (split "/" path)) eqn:Ed; [done|]. intros [= <-].
  apply starts_with_spec in E1 as [rest ->]. change ("/" +:+ rest) with (String "/" rest) in *.
  assert (Hr : starts_with "/" rest = false).
  { apply not_true_iff_false. intros [r ->]%starts_with_spec. change (starts_with "//" ("//" +:+ r) = false) in E2.
    by rewrite starts_with_app in E2. }
  assert (Ht : trim_start_matches "/" (String "/" rest) = rest).
  { cbn [trim_start_matches]. rewrite Ascii.eqb_refl. destruct rest as [|c rest]; [done|].
    rewrite Router.starts_with_cons in Hr. assert (H : starts_with "" rest = true) by apply (starts_with_app "").
    rewrite H, andb_true_r in Hr. cbn [trim_start_matches]. by rewrite Hr. }
  rewrite Ht. unfold relative_ref. cbn [all_bytes] in Hb. apply andb_true_iff in Hb as [_ ->]. rewrite Hr.
  cbn [split] in Ed. rewrite Ascii.eqb_refl in Ed. cbn [existsb] in Ed. by apply orb_false_iff in Ed as [_ ->].
Qed.

(** A reference relative to a URL that ends in a slash resolves under it (RFC 3986, 5.2). *)
Hypothesis join_relative : forall base r u,
  one_of ["http"; "https"] (scheme base) = true -> ends_with "/" (url_path base) = true -> relative_ref r = true ->
  join base r = Ok u -> same_origin base u /\ starts_with (url_path base) (url_path u) = true.
(** The query editor changes nothing but the query. *)
Hypothesis query_only : forall u k v,
  same_origin u (query_pairs_mut u) /\ url_path (query_pairs_mut u) = url_path u
  /\ same_origin u (append_pair k v u) /\ url_path (append_pair k v u) = url_path u.

Lemma same_origin_trans a b c : same_origin a b -> same_origin b c -> same_origin a c.
Proof. intros [] []. constructor; congruence. Qed.

Lemma append_query_only u q u' :
  append_query query_pairs_mut append_pair number_text u q = Ok u' -> same_origin u u' /\ url_path u' = url_path u.
Proof.
  unfold append_query. destruct (try_map _ q) as [pairs|]; [|done]. intros [= <-].
  destruct (query_only u "" "") as (H1 & H2 & _). revert H1 H2. generalize (query_pairs_mut u) as v.
  induction (mjoin pairs) as [|[k x] l IH]; intros v H1 H2; [done|]. cbn [fold_left fst snd]. apply IH.
  - eapply same_origin_trans; [exact H1|]. by destruct (query_only v k x) as (_ & _ & ? & _).
  - destruct (query_only v k x) as (_ & _ & _ & ->). done.
Qed.

(** Where the request of a plain path goes. *)
Definition confined_to (self : HoneyMcp) (o : Outgoing) : Prop :=
  same_origin (base_url self) (out_url o) /\ starts_with (url_path (base_url self)) (url_path (out_url o)) = true.

Lemma request_sent self m path q body o :
  one_of ["http"; "https"] (scheme (base_url self)) = true -> ends_with "/" (url_path (base_url self)) = true ->
  In o (ask self m path q body).2 ->
  out_bearer o = api_key self /\ out_method o = m /\ (all_bytes url_byte path = true -> confined_to self o).
Proof.
  intros Hs He. unfold request. destruct (prepare _ _ _ _ _) as [[n o']|] eqn:E; [|done]. intros [<-|[]].
  apply outgoing_inv in E as (Hn & u & u' & Hj & Ha & ->). split; [done|]. split; [done|]. intros Hb.
  destruct (join_relative _ _ _ Hs He (normalize_relative _ _ Hb Hn) Hj) as [Ho Hp].
  apply append_query_only in Ha as [Hq Hu]. split; [by eapply same_origin_trans|]. cbn [out_url]. by rewrite Hu.
Qed.

(** C29: The bridge does what its tools say: discovery sends nothing, status and read
    send only GET, write only the POST, PUT or PATCH it was asked for, and delete only
    with the confirmation that spells out its path.  Every request carries the
    configured key, and as long as paths are of plain bytes every request goes to
    the configured origin, under the configured base path. *)
Theorem requests_confined args self source t o :
  0 <= arg_max_response_bytes args -> make args = Ok self -> In o (run source self t).2 ->
  out_bearer o = api_key self /\ tool_allows t (out_method o) = true /\ (plain_tool t = true -> confined_to self o).
Proof.
  intros Hpos (Hs & He & _)%new_ok; [|done]. destruct t as [| |path q|method path q body|path q confirm]; cbn [call_tool snd plain_tool].
  - done.
  - unfold status_tool. cbn [snd]. intros (l & Ho & Hl)%list_elem_of_In%list_elem_of_join.
    apply list_elem_of_fmap in Hl as (r & -> & Hr). apply list_elem_of_fmap in Hr as (p & -> & Hp). cbn [snd] in Ho.
    apply list_elem_of_In, request_sent in Ho as (H1 & H2 & H3); [|done..]. rewrite H2. split; [done|]. split; [done|].
    intros _. apply H3. assert (W : forallb (all_bytes url_byte) (status_paths detailed) = true) by (by destruct detailed).
    rewrite forallb_forall in W. by apply W, list_elem_of_In.
  - intros (H1 & H2 & H3)%request_sent; [|done..]. by rewrite H2.
  - destruct (write_method _) as [m|] eqn:Em; [|done]. cbn [snd]. intros (H1 & H2 & H3)%request_sent; [|done..].
    rewrite H2. split; [done|]. split; [|done]. cbn [tool_allows]. revert Em. unfold write_method.
    destruct (String.eqb_spec (to_ascii_uppercase method) "POST") as [E|_]; [intros [= <-]; by rewrite E|].
    destruct (String.eqb_spec (to_ascii_uppercase method) "PUT") as [E|_]; [intros [= <-]; by rewrite E|].
    destruct (String.eqb_spec (to_ascii_uppercase method) "PATCH") as [E|_]; [intros [= <-]; by rewrite E|]. done.
  - destruct (String.eqb_spec confirm ("DELETE " +:+ path)) as [->|]; [|done]. cbn [snd negb].
    intros (H1 & H2 & H3)%request_sent; [|done..]. rewrite H2. cbn [tool_allows]. by rewrite String.eqb_refl.
Qed.
End Requests.

(** ** Where the key can go *)

Definition as_slash (c : ascii) : ascii := if Ascii.eqb c backslash then "/"%char else c.

(** A domain name of plain lower-case labels. *)
Definition domain (host : string) : bool :=
  all_bytes (fun c => is_lower c || Ascii.eqb c ".") host && forallb (fun l => negb (is_empty l)) (split "." host).

(** The path that names another host behind two backslashes. *)
Definition crafted (host rest : string) : string :=
  String "/" (String backslash (String backslash (host +:+ String "/" rest))).

Definition crafted_byte (c : ascii) : bool := url_byte c || Ascii.eqb c backslash.

Lemma domain_bytes (p : ascii -> bool) host :
  (forall c, is_lower c || Ascii.eqb c "." = true -> p c = true) -> domain host = true -> all_bytes p host = true.
Proof. intros Hp [H _]%andb_true_iff. revert H. apply all_bytes_impl. exact Hp. Qed.

Lemma crafted_accepted host rest : domain host = true -> relative_ref rest = true -> normalize_path (crafted host rest) = Ok (crafted host rest).
Proof.
  intros Hd [[Hb _]%andb_true_iff Hdots%negb_true_iff]%andb_true_iff.
  assert (Hall : all_bytes crafted_byte (crafted host rest) = true).
  { unfold crafted. cbn [all_bytes]. rewrite all_bytes_app. cbn [all_bytes].
    rewrite (domain_bytes crafted_byte) by (done || by_byte). rewrite (all_bytes_impl url_byte crafted_byte rest) by (done || by_byte). done. }
  unfold normalize_path. rewrite trim_plain by (revert Hall; apply all_bytes_impl; by_byte).
  rewrite !(contains_bytes crafted_byte) by done.
  assert (Hs : split "/" (crafted host rest) = "" :: String backslash (String backslash host) :: split "/" rest).
  { unfold crafted. change (split "/" (String "/" ?x)) with ("" :: split "/" x). f_equal.
    apply (split_app "/" (String backslash (String backslash host))). cbn [all_bytes].
    rewrite (domain_bytes (fun c => negb (Ascii.eqb c "/"))) by (done || by_byte). done. }
  rewrite Hs. cbn [existsb]. by rewrite Hdots.
Qed.

Section Leak.
Context (parse : string -> option Url) (join : Url -> string -> result Url string).
Context (query_pairs_mut : Url -> Url) (append_pair : string -> string -> Url -> Url).
Context (to_string_pretty number_text : json -> string) (from_slice : string -> option json).
Context (from_utf8_lossy base64 debug : string -> string).
Context (stat : string -> option Metadata) (read_to_string : string -> option string).
Context (send : Outgoing -> result Response string).
#[local] Abbreviation make := (new parse stat read_to_string).
#[local] Abbreviation run := (call_tool join query_pairs_mut append_pair to_string_pretty number_text from_slice from_utf8_lossy base64 debug send).

(** Under http and https a backslash is read as a slash (URL Standard, 4.4). *)
Hypothesis backslash_law : forall base r,
  one_of ["http"; "https"] (scheme base) = true -> all_bytes crafted_byte r = true -> join base r = join base (map_bytes as_slash r).
(** A reference that begins with two slashes names its own host (RFC 3986, 4.2). *)
Hypothesis network_law : forall base host rest,
  one_of ["http"; "https"] (scheme base) = true -> domain host = true -> relative_ref rest = true ->
  exists u, join base ("//" +:+ host +:+ "/" +:+ rest) = Ok u /\ host_str u = Some host.
(** The query editor keeps the host. *)
Hypothesis query_host : forall u, host_str (query_pairs_mut u) = host_str u.

Lemma map_bytes_id f (p : ascii -> bool) a : (forall c, p c = true -> f c = c) -> all_bytes p a = true -> map_bytes f a = a.
Proof.
  intros Hf. induction a as [|c a IH]; [done|]. cbn [all_bytes map_bytes]. intros [Hc Ha]%andb_true_iff. by rewrite Hf, IH.
Qed.

(** C40: The guard of the bridge's paths does not keep its key at home: a read of a
    path that starts with a slash and two backslashes passes it, and the request,
    with the configured key, goes to the host named behind them. *)
Theorem key_leaves_origin args self source host rest :
  0 <= arg_max_response_bytes args -> make args = Ok self -> domain host = true -> relative_ref rest = true ->
  exists o, (run source self (honey_read (crafted host rest) [])).2 = [o]
    /\ host_str (out_url o) = Some host /\ out_bearer o = api_key self.
Proof.
  intros Hpos (Hs & _)%new_ok Hd Hr; [|done]. destruct (network_law _ host rest Hs Hd Hr) as (u & Hj & Hu).
  cbn [call_tool snd]. unfold request, outgoing. rewrite crafted_accepted by done.
  assert (Ht : trim_start_matches "/" (crafted host rest) = String backslash (String backslash (host +:+ String "/" rest))) by reflexivity.
  rewrite Ht, backslash_law; [|done|].
  - assert (Em : map_bytes as_slash (String backslash (String backslash (host +:+ String "/" rest))) = "//" +:+ host +:+ "/" +:+ rest).
    { cbn [map_bytes]. rewrite map_bytes_app. cbn [map_bytes].
      rewrite (map_bytes_id as_slash url_byte host), (map_bytes_id as_slash url_byte rest); try done; try by_byte.
      - by apply andb_true_iff in Hr as [[? _]%andb_true_iff _].
      - apply domain_bytes; [by_byte|done]. }
    rewrite Em, Hj. exists (mkOutgoing GET (query_pairs_mut u) (api_key self) None). split; [reflexivity|]. cbn [out_url out_bearer]. by rewrite query_host.
  - cbn [all_bytes]. rewrite all_bytes_app. cbn [all_bytes]. rewrite (domain_bytes crafted_byte) by (done || by_byte).
    apply andb_true_iff in Hr as [[Hb _]%andb_true_iff _]. by rewrite (all_bytes_impl url_byte crafted_byte rest) by (done || by_byte).
Qed.
End Leak.

(** No plain-text connection to an IPv6 loopback address: its host is written in brackets. *)
Lemma bracketed_not_loopback s : is_loopback_host ("[" +:+ s) = false.
Proof. reflexivity. Qed.

(** ** Witnesses *)

(** A reader of references: the parts the laws speak of, and nothing else of the standard. *)
Definition resolve (base : Url) (r : string) : result Url string :=
  let r := map_bytes as_slash r in
  match strip_prefix "//" r with
  | Some named =>
      let hp := default (named, "") (split_once "/" named) in
      Ok (mkUrl (scheme base) "" None (Some hp.1) None ("/" +:+ hp.2) None None)
  | None => Ok (with_path (if starts_with "/" r then r else url_path base +:+ r) base)
  end.

Definition panel_url : Url := mkUrl "https" "" None (Some "panel.example") None "/honey" None None.
Definition bridge_args : Args := mkArgs "https://panel.example/honey" (Some "hny_key") None 60 1048576.
Definition bridge : HoneyMcp := mkMcp 60 (with_path "/honey/" panel_url) "hny_key" 1048576.
Definition known_url (s : string) : option Url := if String.eqb s "https://panel.example/honey" then Some panel_url else None.
Definition no_text (v : json) : string := "".
Definition same_text (s : string) : string := s.
Definition silent (o : Outgoing) : result Response string := Err "closed".
Definition asked (t : tool) : list Outgoing :=
  (call_tool resolve id (fun _ _ u => u) no_text no_text (fun _ => None) same_text same_text same_text silent "" bridge t).2.

Lemma resolve_relative base r u :
  one_of ["http"; "https"] (scheme base) = true -> ends_with "/" (url_path base) = true -> relative_ref r = true ->
  resolve base r = Ok u -> same_origin base u /\ starts_with (url_path base) (url_path u) = true.
Proof.
  intros _ _ [[Hb Hs%negb_true_iff]%andb_true_iff _]%andb_true_iff. unfold resolve.
  rewrite (map_bytes_id as_slash url_byte) by (done || by_byte).
  destruct (strip_prefix "//" r) as [n|] eqn:E.
  - assert (H := Router.strip_prefix_inv "//" r). rewrite E in H. subst r.
    change (starts_with "/" ("/" +:+ "/" +:+ n) = false) in Hs. by rewrite starts_with_app in Hs.
  - rewrite Hs. intros [= <-]. split; [done|]. apply starts_with_app.
Qed.

Lemma requests_confined_witness :
  length (asked (honey_delete "/users/7" [] "DELETE /users/7")) = 1%nat
  /\ forall o, In o (asked (honey_delete "/users/7" [] "DELETE /users/7")) ->
       out_bearer o = "hny_key" /\ host_str (out_url o) = Some "panel.example" /\ url_path (out_url o) = "/honey/users/7".
Proof.
  split; [reflexivity|]. intros o Ho. assert (H := Ho).
  apply (requests_confined known_url resolve id (fun _ _ u => u) no_text no_text (fun _ => None) same_text same_text same_text
    (fun _ => None) (fun _ => None) silent resolve_relative (fun u _ _ => ltac:(repeat split)) bridge_args bridge) in H;
    [|discriminate|reflexivity].
  destruct H as (Hk & _ & Hc). split; [exact Hk|]. destruct Hc as [[_ Hh _] _]; [reflexivity|].
  split; [symmetry; exact Hh|]. by destruct Ho as [<-|[]].
Defined.

Lemma resolve_backslash base r :
  one_of ["http"; "https"] (scheme base) = true -> all_bytes crafted_byte r = true ->
  resolve base r = resolve base (map_bytes as_slash r).
Proof.
  intros _ _. unfold resolve. assert (E : map_bytes as_slash (map_bytes as_slash r) = map_bytes as_slash r); [|by rewrite E].
  induction r as [|c r IH]; [done|]. cbn [map_bytes]. rewrite IH. unfold as_slash. destruct (Ascii.eqb c backslash) eqn:E; [done|]. by rewrite E.
Qed.

Lemma resolve_network base host rest :
  one_of ["http"; "https"] (scheme base) = true -> domain host = true -> relative_ref rest = true ->
  exists u, resolve base ("//" +:+ host +:+ "/" +:+ rest) = Ok u /\ host_str u = Some host.
Proof.
  intros _ Hd [[Hb _]%andb_true_iff _]%andb_true_iff. unfold resolve. rewrite (map_bytes_id as_slash url_byte); [|by_byte|].
  - rewrite strip_prefix_app. change ("/" +:+ rest) with (String "/" rest). rewrite split_once_skip; [by eexists|].
    apply domain_bytes; [by_byte|done].
  - rewrite !all_bytes_app, Hb, (domain_bytes url_byte host) by (done || by_byte). done.
Qed.

Lemma key_leaves_origin_witness :
  exists o, asked (honey_read (crafted "evil.example" "x") []) = [o] /\ host_str (out_url o) = Some "evil.example"
    /\ out_bearer o = "hny_key".
Proof.
  exact (key_leaves_origin known_url resolve id (fun _ _ u => u) no_text no_text (fun _ => None) same_text same_text same_text
    (fun _ => None) (fun _ => None) silent resolve_backslash resolve_network (fun _ => eq_refl) bridge_args bridge "" "evil.example" "x"
    ltac:(discriminate) eq_refl eq_refl eq_refl).
Defined.

Lemma response_capped_witness : read_body 4 "" [Bytes "ab"; Bytes "cdef"; Bytes "g"] = Ok ("abcd", true).
Proof. exact (response_capped 4 ["ab"; "cdef"; "g"] ltac:(lia)). Defined.

(** One route to a line, as the formatter writes short ones. *)
Definition indent : string := nl +:+ "        ".
Definition on_a_line (r : string * list (Method * string)) : Layout * (string * list (Method * string)) :=
  (mkLayout indent "" " " "" "", r).
Definition panel_source : string :=
  "    let protected = Router::new()" +:+ router_text (on_a_line <$> protected_routes) indent
  +:+ ".route_layer(middleware::from_fn_with_state(state.clone(), require_auth));".

Lemma catalog_complete_witness :
  In (operation DELETE "/users/:id/subscriptions/:sid") (route_catalog panel_source).
Proof.
  refine (proj2 (proj1 (catalog_complete panel_source (on_a_line <$> protected_routes) indent _ _ _) _) _).
  - vm_compute. reflexivity.
  - vm_compute. reflexivity.
  - reflexivity.
  - exists "/users/:id/subscriptions/:sid", [(GET, "reveal_user_subscription"); (DELETE, "delete_user_subscription")], DELETE,
      "delete_user_subscription".
    split; [|split; [right; by left|reflexivity]].
    change (snd <$> (on_a_line <$> protected_routes)) with protected_routes. apply list_elem_of_In. apply (bool_decide_unpack _). vm_compute. exact I.
Defined.

Lemma advertised_role_enforced_witness :
  authorized (mkIdentity (Some 5) "ops" "operator" None None) POST "/users/6f1f/rotate" = true.
Proof.
  rewrite (advertised_role_enforced spelled spelled_law "/users/:id/rotate" POST "rotate_user_credentials" "/users/6f1f/rotate");
    (reflexivity || discriminate).
Defined.
