(* ===== verification/Live.v ===== *)
(** * Live questions to the nodes (the node inspection, live connection, geography
    and cluster handlers of src/master/src/api/mod.rs, the calls of
    src/master/src/registry.rs behind them, src/master/src/reality.rs)

    Each handler looks a node up, dials it when no channel is open, asks its agent
    one thing and shapes the answer; a call that fails closes the channel.  What
    agents answer is given by the environment.  Floating-point arithmetic is a
    parameter. *)

From S2P Require Import Prelude Strings Json Ip Models Db Api Handler Geo Ha Auth Inbounds Analytics Reach Access Wg Subscription Spec Enroll Push.

#[local] Abbreviation M := (Handler.M World).

(** ** Calls of the registry *)

(** What every call to an agent does: without a channel it fails, and a failed
    call closes the channel. *)
Definition call {A} (node_id : Uuid) (answer : option A) (w : World) : result A push_error * World :=
  if negb (is_connected node_id w) then (Err NotConnected, w)
  else match answer with
       | Some a => (Ok a, w)
       | None => (Err ApplyFailed, remove node_id w)
       end.

Record LiveConn := mkLive {
  lc_user : string;
  lc_source_ip : string;
  lc_destination : string;
  lc_network : string;
  lc_up_bytes : Z;
  lc_down_bytes : Z;
  lc_started_at : Z;
  lc_chain : string }.

Inductive CoreState := CoreUnspecified | Stopped | Running | Errored.
Record CoreStatus := mkStatus { cs_state : CoreState; cs_pid : Z; cs_message : string }.

Record CoreDrift := mkCoreDrift { cd_xray : bool; cd_drifted : bool; cd_running_present : bool }.

Record AgentLogEntry := mkLogEntry {
  le_seq : Z;
  le_at_unix_ms : Z;
  le_level : string;
  le_code : string;
  le_message : string }.

(** A step of a handler that talks to an agent; the text of the failure is not shown. *)
Definition agent_step {A} (what : string) (f : World -> result A push_error * World) : M A :=
  fun s => let (r, w) := f (store s) in (lift (fun _ => BadGateway what) r, mkSt w (trace s)).

(** Debug of [CoreState]. *)
Definition state_text (c : CoreState) : string :=
  match c with CoreUnspecified => "Unspecified" | Stopped => "Stopped" | Running => "Running" | Errored => "Errored" end.

Record PushResult := mkPushResult { pr_node : string; pr_state : string; pr_pid : Z; pr_message : string }.

Section Live.
Context (collate : string -> string -> bool).
Context (encrypt decrypt : string -> option string).
Context (uuid_str : Uuid -> string).
Context (to_string : json -> option string).
Context (mint : Uuid -> Uuid -> Uuid * Z * result Keypair wg_error).
Context (spec_hash : Pb.NodeSpec -> string).
Context (to_value : SpecSummary -> json) (from_value : json -> option SpecSummary).
Context (db_upper : string -> string).
#[local] Abbreviation build := (build collate encrypt decrypt uuid_str to_string mint).
#[local] Abbreviation push_ctx := (push_with_context collate encrypt decrypt uuid_str to_string mint spec_hash to_value).

(** A node that does not dial in itself is dialled when no channel is open. *)
Definition dial_if_needed (now : Z) (dial : DialEnv) (id : Uuid) (node : Node.Node) : M unit :=
  open ← query (is_connected id);
  if negb open && negb (String.eqb (Node.transport node) "dial")
  then agent_step "agent connection failed" (connect_serve uuid_str db_upper now dial node) else mret tt.

(** The first lines of these handlers: the node, and a channel to it. *)
Definition attach (now : Z) (dial : DialEnv) (id : Uuid) : M Node.Node :=
  n ← query (fun w => Db.nodes (tables (plane w)) !! id);
  node ← found n (NotFound "node not found");
  _ ← dial_if_needed now dial id node;
  mret node.

(** *** Pushing *)

(** The rollout gate of Reach.v comes first; [r], [state] and [pid] are the agent's answer. *)
Definition push_node (now event : Z) (net : Net) (probe_id : list Z) (gate : result (option string) db_error) (dial : DialEnv)
    (r : apply_result) (state : CoreState) (pid : Z) (i : Identity) (id : Uuid) : M PushResult :=
  g ← query (fun w => rollout_gate net probe_id decrypt gate id (tables (plane w)));
  node ← lift_result g;
  _ ← dial_if_needed now dial id node;
  message ← agent_step "agent rejected config" (push_ctx now event r id "api" (admin_id i));
  _ ← Handler.audit "push" "node" id (obj [("state", JString (state_text state))]);
  mret (mkPushResult (Node.name node) (state_text state) pid message).

Definition dry_run_node (now : Z) (dial : DialEnv) (answer : option CoreStatus) (id : Uuid) : M PushResult :=
  node ← attach now dial id;
  _ ← agent_step "agent validation failed"
        (dry_run collate encrypt decrypt uuid_str to_string mint now (cs_message <$> answer) id);
  let status := default (mkStatus CoreUnspecified 0 "") answer in
  _ ← Handler.audit "dry_run" "node" id (obj [("state", JString (state_text (cs_state status)))]);
  mret (mkPushResult (Node.name node) (state_text (cs_state status)) 0 (cs_message status)).

(** *** Looking *)

Definition build_step (now : Z) (id : Uuid) : M Pb.NodeSpec :=
  fun s => let (r, w) := build now id (store s) in
           (lift (fun e => match e with PushSpec (SpecDb d) => ApiDb d | _ => Internal "spec" end) r, mkSt w (trace s)).

Definition node_config_preview (now : Z) (id : Uuid) : M ConfigPreview :=
  n ← query (fun w => Db.nodes (tables (plane w)) !! id);
  node ← found n (NotFound "node not found");
  candidate ← build_step now id;
  mret (preview spec_hash from_value candidate (Node.applied_spec_hash node) (Node.applied_spec_summary node)).

Record CoreDriftView := mkDriftRow { dv_core : string; dv_drifted : bool; dv_running_present : bool }.
Record DriftView := mkDriftView { dv_pending_push : bool; dv_any : bool; dv_cores : list CoreDriftView }.

Definition node_config_drift (now : Z) (dial : DialEnv) (answer : Pb.NodeSpec -> option (list CoreDrift)) (id : Uuid) : M DriftView :=
  node ← attach now dial id;
  candidate ← build_step now id;
  let pv := preview spec_hash from_value candidate (Node.applied_spec_hash node) (Node.applied_spec_summary node) in
  cores ← agent_step "agent config-drift failed" (call id (answer candidate));
  mret (mkDriftView (changed pv) (existsb cd_drifted cores)
          ((fun c => mkDriftRow (if cd_xray c then "xray" else "singbox") (cd_drifted c) (cd_running_present c)) <$> cores)).

(** The agent's answer, field by field, is the view. *)
Definition node_metrics {Metrics} (now : Z) (dial : DialEnv) (answer : option Metrics) (id : Uuid) : M Metrics :=
  _ ← attach now dial id;
  agent_step "agent metrics failed" (call id answer).

Definition node_agent_logs (now : Z) (dial : DialEnv) (answer : Z -> Z -> option (list AgentLogEntry)) (after_seq limit : Z)
    (id : Uuid) : M (list AgentLogEntry) :=
  _ ← attach now dial id;
  agent_step "agent logs failed" (call id (answer after_seq (clamp 1 500 limit))).

(** *** Throughput *)

(** The operations on f64 the benchmark uses. *)
Context (f64 : Type) (of_int : Z -> f64) (fsub fmul fdiv fmax : f64 -> f64 -> f64) (fle : f64 -> f64 -> bool) (fclamp : f64 -> f64 -> f64 -> f64)
  (quarter : f64) (to_usize : f64 -> Z).

Record BenchmarkReport := mkBenchmark { bm_size_mb : f64; bm_latency_ms : f64; bm_up_mbps : f64; bm_down_mbps : f64 }.

Definition mbps (bytes : Z) (baseline secs : f64) : f64 :=
  let net := fmax (fsub secs baseline) (of_int 0) in
  if fle net (of_int 0) then of_int 0 else fdiv (fdiv (fmul (of_int bytes) (of_int 8)) net) (of_int 1000000).

(** [benchmark]: only a failure of the first, empty leg closes the channel. *)
Definition benchmark (bytes : Z) (leg : Z -> Z -> option f64) (node_id : Uuid) (w : World)
    : result (f64 * f64 * f64) push_error * World :=
  match call node_id (leg 0 0) w with
  | (Err e, w) => (Err e, w)
  | (Ok baseline, w) =>
      match leg bytes 0, leg 0 (wrap_u32 bytes) with
      | Some up, Some down =>
          (Ok (fmul baseline (of_int 1000), mbps bytes baseline up, mbps bytes baseline down), w)
      | _, _ => (Err ApplyFailed, w)
      end
  end.

Definition node_benchmark (now : Z) (dial : DialEnv) (leg : Z -> Z -> option f64) (f64_json : f64 -> json) (mb : option f64) (id : Uuid)
    : M BenchmarkReport :=
  _ ← attach now dial id;
  let size_mb := fclamp quarter (of_int 3) (default (of_int 2) mb) in
  let bytes := to_usize (fmul (fmul size_mb (of_int 1024)) (of_int 1024)) in
  r ← agent_step "benchmark failed" (benchmark bytes leg id);
  _ ← Handler.audit "benchmark" "node" id (obj [("size_mb", f64_json size_mb)]);
  mret (mkBenchmark size_mb r.1.1 r.1.2 r.2).

(** ** Live connections *)

Record LiveConnView := mkConnView {
  lv_node_id : Uuid;
  lv_node : string;
  lv_user : string;
  lv_user_id : option Uuid;
  lv_source_ip : string;
  lv_destination : string;
  lv_network : string;
  lv_up_bytes : Z;
  lv_down_bytes : Z;
  lv_started_at : option Z;
  lv_chain : string }.

(** [as i64] of a u64. *)
Definition as_i64_of_u64 (x : Z) : Z := (x + 2 ^ 63) mod 2 ^ 64 - 2 ^ 63.

Definition user_rows (w : World) : result (list User.User) db_error :=
  decrypt_users decrypt (sort_by (by_username collate) (rows (users (tables (plane w))))).

(** The maps the scan looks names up in; later rows win. *)
Definition owners_by_name (us : list User.User) : gmap string (Uuid * option Uuid) :=
  fold_left (fun m u => <[User.username u := (User.id u, User.created_by u)]> m) us ∅.
Definition names_by_node (ns : list Node.Node) : gmap Uuid string :=
  fold_left (fun m n => <[Node.id n := Node.name n]> m) ns ∅.

(** Whether the scan keeps a connection for this caller. *)
Definition visible (reseller : option Uuid) (owner : option (Uuid * option Uuid)) : bool :=
  match reseller with
  | None => true
  | Some rid => match owner with Some (_, Some created_by) => created_by =? rid | _ => false end
  end.

Definition conn_view (node_id : Uuid) (node : string) (owner : option (Uuid * option Uuid)) (c : LiveConn) : LiveConnView :=
  mkConnView node_id node (lc_user c) (fst <$> owner) (lc_source_ip c) (lc_destination c) (lc_network c)
    (as_i64_of_u64 (lc_up_bytes c)) (as_i64_of_u64 (lc_down_bytes c))
    (if 0 <? lc_started_at c then Some (lc_started_at c) else None) (lc_chain c).

(** The loop over the open channels; a node that drops out is skipped. *)
Fixpoint scan_nodes (reseller : option Uuid) (owners : gmap string (Uuid * option Uuid)) (names : gmap Uuid string)
    (live : Uuid -> option (list LiveConn)) (ids : list Uuid) (w : World) : list LiveConnView * World :=
  match ids with
  | [] => ([], w)
  | id :: ids =>
      let '(r, w) := call id (live id) w in
      let out := match r with
                 | Ok conns =>
                     omap (fun c => let owner := owners !! lc_user c in
                                    if visible reseller owner then Some (conn_view id (default "" (names !! id)) owner c) else None) conns
                 | Err _ => []
                 end in
      let '(more, w) := scan_nodes reseller owners names live ids w in
      (out ++ more, w)
  end.

Definition scan_step (reseller : option Uuid) (us : list User.User) (ns : list Node.Node) (order : gset Uuid -> list Uuid)
    (live : Uuid -> option (list LiveConn)) : M (list LiveConnView) :=
  fun s => let '(out, w) := scan_nodes reseller (owners_by_name us) (names_by_node ns) live (order (connected_ids (store s))) (store s) in
           (Ok out, mkSt w (trace s)).

(** [order]: the open channels in the order the table of channels gives them out. *)
Definition collect_live_connections (order : gset Uuid -> list Uuid) (live : Uuid -> option (list LiveConn)) (i : Identity)
    : M (list LiveConnView) :=
  us ← read user_rows;
  ns ← query list_nodes;
  scan_step (if is_reseller i then admin_id i else None) us ns order live.

(** *** Where they come from *)

Record GeoBucket := mkGeo { gb_code : string; gb_connections : Z; gb_users : Z; gb_up_bytes : Z; gb_down_bytes : Z }.
Record GeoDistribution := mkGeoDist { gd_country_ranges : nat; gd_total_connections : Z; gd_buckets : list GeoBucket }.

(** The entry of one country while the connections are counted. *)
Record GeoEntry := mkEntry { ge_count : Z; ge_up : Z; ge_down : Z; ge_users : gset string }.
Definition no_entry : GeoEntry := mkEntry 0 0 0 ∅.

Definition count_conn (c : LiveConnView) (e : GeoEntry) : GeoEntry :=
  mkEntry (ge_count e + 1) (wrapping_add (ge_up e) (lv_up_bytes c)) (wrapping_add (ge_down e) (lv_down_bytes c))
    (if is_empty (lv_user c) then ge_users e else {[lv_user c]} ∪ ge_users e).

Definition by_country (cell : option (list Range * nat)) (l : list LiveConnView) : gmap string GeoEntry :=
  fold_left (fun m c => let code := lookup_str cell (lv_source_ip c) in
                        <[code := count_conn c (default no_entry (m !! code))]> m) l ∅.

Definition bucket_le (a b : GeoBucket) : bool :=
  (gb_connections b <? gb_connections a) || ((gb_connections a =? gb_connections b) && String.leb (gb_code a) (gb_code b)).

Definition geo_buckets (m : gmap string GeoEntry) : list GeoBucket :=
  sort_by bucket_le
    ((fun ke => mkGeo ke.1 (ge_count ke.2) (Z.of_nat (size (ge_users ke.2))) (ge_up ke.2) (ge_down ke.2)) <$> map_to_list m).

Definition geo_distribution (cell : option (list Range * nat)) (order : gset Uuid -> list Uuid) (live : Uuid -> option (list LiveConn))
    (i : Identity) : M GeoDistribution :=
  l ← collect_live_connections order live i;
  mret (mkGeoDist (country_ranges cell) (Z.of_nat (length l)) (geo_buckets (by_country cell l))).
End Live.

(** ** Certificates of an inbound *)

(** [InboundView]: where the certificate comes from, and its state. *)
Definition certificate_view (ib : Inbound.Inbound) : string * string :=
  if Inbound.reality ib then ("reality", "not_applicable")
  else if is_some_and (get "acme" (Inbound.extra ib)) (fun v => negb (is_null v)) then ("acme", "managed")
  else if Inbound.tls_enabled ib then
    ("manual", if is_some_and (Inbound.cert_path ib) (fun v => negb (is_empty v))
                  && is_some_and (Inbound.key_path ib) (fun v => negb (is_empty v)) then "configured" else "missing")
  else ("none", "not_applicable").

(** ** REALITY keys *)

Record RealityKeypair := mkReality { rk_private_key : string; rk_public_key : string; rk_short_id : string }.

(** [seed] and [sid] are the random bytes, [None] when the generator fails. *)
Definition generate (base64url : list Z -> string) (secret_bytes public_bytes : list Z -> list Z) (seed sid : option (list Z))
    : option RealityKeypair :=
  let! seed := seed in
  let! sid := sid in
  Some (mkReality (base64url (secret_bytes seed)) (base64url (public_bytes seed)) (hex sid)).

Definition reality_keygen (base64url : list Z -> string) (secret_bytes public_bytes : list Z -> list Z) (seed sid : option (list Z))
    : result json api_error :=
  match generate base64url secret_bytes public_bytes seed sid with
  | None => Err (Internal "reality keygen failed")
  | Some kp => Ok (obj [("private_key", JString (rk_private_key kp)); ("public_key", JString (rk_public_key kp)); ("short_id", JString (rk_short_id kp))])
  end.

(** ** The cluster *)

Record HaInstanceView := mkInstanceView {
  hv_instance_id : Uuid;
  hv_instance : Instance;
  hv_leader : bool;
  hv_self : bool }.
Record HaStatus := mkHaStatus {
  hs_instance_id : Uuid;
  hs_is_leader : bool;
  hs_leader_id : option Uuid;
  hs_lease_expires_at : option Z;
  hs_instances : list HaInstanceView }.

Definition ha_instances (roster : gmap Uuid Instance) : list (Uuid * Instance) :=
  sort_by (fun a b => Ha.started_at a.2 <=? Ha.started_at b.2) (map_to_list roster).

Definition ha_status (now : Z) (me : Uuid) (is_leader : bool) (lease : option Lease) (roster : gmap Uuid Instance) : HaStatus :=
  let held := ha_leader now lease in
  let leader_id := fst <$> held in
  mkHaStatus me is_leader leader_id (snd <$> held)
    ((fun e => mkInstanceView e.1 e.2 (bool_decide (Some e.1 = leader_id)) (e.1 =? me)) <$> ha_instances roster).

(** ** Inspection *)

(** What looking at one node may change: the presence columns of its row, the channel
    to it, and WireGuard peers that a spec in the making adds. *)
Record quiet (id : Uuid) (w w' : World) : Prop := mkQuiet {
  q_running : running w' = running w;
  q_events : push_events w' = push_events w;
  q_deferred : deferred_pushes w' = deferred_pushes w;
  q_certs : certs w' = certs w;
  q_rows : with_nodes (fun _ => ∅) (tables (plane w')) = with_nodes (fun _ => ∅) (tables (plane w));
  q_interfaces : wg_interfaces (plane w') = wg_interfaces (plane w);
  q_services : node_services (plane w') = node_services (plane w);
  q_nodes : forall k, node_view <$> Db.nodes (tables (plane w')) !! k = node_view <$> Db.nodes (tables (plane w)) !! k;
  q_other : forall k, k <> id -> Db.nodes (tables (plane w')) !! k = Db.nodes (tables (plane w)) !! k;
  q_conns : forall k, k <> id -> client_of k w' = client_of k w }.

#[export] Instance quiet_refl id : Reflexive (quiet id).
Proof. by intros w. Qed.
#[export] Instance quiet_trans id : Transitive (quiet id).
Proof.
  intros a b c [] []. constructor; [congruence..| | |]; intros k; [by rewrite q_nodes1| |]; intros Hk.
  - by rewrite q_other1, q_other0.
  - by rewrite q_conns1, q_conns0.
Qed.

Lemma quiet_remove id w : quiet id w (remove id w).
Proof. constructor; try done. intros k Hk. by apply lookup_delete_ne. Qed.

Lemma quiet_touch id client now a b w : quiet id w (register id client (touch_node now id a b w)).
Proof.
  constructor; try done.
  - intros k. simpl. destruct (decide (k = id)) as [->|Hk]; [|by rewrite lookup_alter_ne].
    rewrite lookup_alter_eq. by destruct (Db.nodes _ !! id).
  - intros k Hk. simpl. by rewrite lookup_alter_ne.
  - intros k Hk. apply lookup_insert_ne. congruence.
Qed.

Lemma keeps_agent {A} (R : relation World) what (f : World -> result A push_error * World) :
  (forall w, R w (f w).2) -> Keeps R (agent_step what f).
Proof. intros H s. unfold agent_step. specialize (H (store s)). by destruct (f (store s)). Qed.

Lemma quiet_call {A} id (answer : option A) w : quiet id w (call id answer w).2.
Proof. unfold call. destruct (is_connected id w); [|done]. destruct answer; [done|]. apply quiet_remove. Qed.

Section Inspection.
Context (collate : string -> string -> bool).
Context (encrypt decrypt : string -> option string).
Context (uuid_str : Uuid -> string).
Context (to_string : json -> option string).
Context (mint : Uuid -> Uuid -> Uuid * Z * result Keypair wg_error).
Context (spec_hash : Pb.NodeSpec -> string).
Context (to_value : SpecSummary -> json) (from_value : json -> option SpecSummary).
Context (db_upper : string -> string).

Lemma quiet_build now id w : quiet id w (build collate encrypt decrypt uuid_str to_string mint now id w).2.
Proof. unfold Push.build. destruct (build_node_spec _ _ _ _ _ _ _ _ _) as [r peers]. by constructor. Qed.

Lemma quiet_dial now dial node w : quiet (Node.id node) w (connect_serve uuid_str db_upper now dial node w).2.
Proof.
  unfold connect_serve. destruct (de_client dial) as [client|]; [|done]. destruct (authorize_certificate _ _ _ _ _); [|done].
  destruct (de_whoru dial) as [[[x v1] v2]|]; [|done]. destruct (String.eqb _ _); [|done]. apply quiet_touch.
Qed.

(** Rows carry their own keys. *)
Definition keyed (w : World) : Prop := forall k n, Db.nodes (tables (plane w)) !! k = Some n -> Node.id n = k.

Lemma quiet_attach now dial id s : keyed (store s) -> quiet id (store s) (store (attach uuid_str db_upper now dial id s).2).
Proof.
  intros Hk. unfold attach, mbind, M_bind, query, found.
  destruct (Db.nodes (tables (plane (store s))) !! id) as [node|] eqn:En; [|done]. cbn. unfold dial_if_needed, mbind, M_bind, query. cbn.
  destruct (negb _ && negb _); [|done]. assert (H := keeps_agent (quiet id) "agent connection failed" (connect_serve uuid_str db_upper now dial node)
    (fun w => ltac:(rewrite <- (Hk _ _ En); apply quiet_dial)) s).
  by destruct (agent_step _ _ s) as [[]].
Qed.

Lemma quiet_then {A B} id (m : M A) (k : A -> M B) s :
  quiet id (store s) (store (m s).2) -> (forall a, Keeps (quiet id) (k a)) -> quiet id (store s) (store ((m ≫= k) s).2).
Proof.
  intros Hm Hk. unfold mbind, M_bind. destruct (m s) as [[a|e] s1]; [|done]. etrans; [exact Hm|]. apply Hk.
Qed.

(** Looking at a node changes nothing that matters: whatever the agent
    answers to a dry run, a drift check, a metrics, log or throughput request, the
    cores keep running what they ran, no push is recorded or queued, and no row
    changes except when the node was last seen; only this node's channel may open
    or close. *)
Theorem inspection_harmless {Metrics} now dial answer drift (metrics : option Metrics) logs after_seq limit f64 of_int fsub fmul fdiv fmax fle
    fclamp quarter to_usize leg f64_json mb id s :
  keyed (store s) ->
  quiet id (store s) (store (dry_run_node collate encrypt decrypt uuid_str to_string mint db_upper now dial answer id s).2)
  /\ quiet id (store s)
       (store (node_config_drift collate encrypt decrypt uuid_str to_string mint spec_hash from_value db_upper now dial drift id s).2)
  /\ quiet id (store s) (store (node_metrics uuid_str db_upper now dial metrics id s).2)
  /\ quiet id (store s) (store (node_agent_logs uuid_str db_upper now dial logs after_seq limit id s).2)
  /\ quiet id (store s) (store (node_benchmark uuid_str db_upper f64 of_int fsub fmul fdiv fmax fle fclamp quarter to_usize now dial leg
                                  f64_json mb id s).2).
Proof.
  intros Hk. assert (Ha := quiet_attach now dial id s Hk).
  repeat split_and; apply quiet_then; try exact Ha; intros node.
  - apply keeps_bind; [apply _| |intros ?; keeps]. apply keeps_agent. intros w. unfold dry_run.
    assert (H := quiet_build now id w). destruct (Push.build _ _ _ _ _ _ now id w) as [[spec|e] w1]; [|exact H].
    destruct (is_connected id w1); [|exact H]. destruct (cs_message <$> answer); [exact H|]. etrans; [exact H|apply quiet_remove].
  - apply keeps_bind; [apply _| |intros spec].
    + intros s1. unfold build_step. assert (H := quiet_build now id (store s1)). by destruct (Push.build _ _ _ _ _ _ now id (store s1)).
    + apply keeps_bind; [apply _| |intros ?; keeps]. apply keeps_agent. intros w. apply quiet_call.
  - apply keeps_agent. intros w. apply quiet_call.
  - apply keeps_agent. intros w. apply quiet_call.
  - apply keeps_bind; [apply _| |intros ?; keeps]. apply keeps_agent. intros w. unfold benchmark.
    assert (H := quiet_call id (leg 0 0) w). destruct (call id (leg 0 0) w) as [[b|e] w1]; [|exact H].
    destruct (leg _ 0); [|exact H]. by destruct (leg 0 _).
Qed.
End Inspection.

(** ** Who sees which connection *)

Section Connections.
Context (collate : string -> string -> bool) (decrypt : string -> option string).
Context (order : gset Uuid -> list Uuid) (live : Uuid -> option (list LiveConn)).
(** The keys of a table of channels come each once, in some order. *)
Hypothesis order_law : forall s, NoDup (order s) /\ forall x, x ∈ order s <-> x ∈ s.

(** What the scan adds for one node. *)
Definition shown (reseller : option Uuid) (owners : gmap string (Uuid * option Uuid)) (names : gmap Uuid string) (id : Uuid) : list LiveConnView :=
  omap (fun c => let owner := owners !! lc_user c in
                 if visible reseller owner then Some (conn_view id (default "" (names !! id)) owner c) else None)
    (default [] (live id)).

Lemma scan_nodes_spec reseller owners names ids : forall w,
  NoDup ids -> (forall id, id ∈ ids -> is_connected id w = true) ->
  (scan_nodes reseller owners names live ids w).1 = flat_map (shown reseller owners names) ids
  /\ (scan_nodes reseller owners names live ids w).2 = on_conns (fun _ => conns (scan_nodes reseller owners names live ids w).2) w
  /\ forall k, client_of k (scan_nodes reseller owners names live ids w).2
       = if bool_decide (k ∈ ids) && negb (is_some (live k)) then None else client_of k w.
Proof.
  induction ids as [|id ids IH]; intros w Hnd Hin; [by destruct w|]. apply NoDup_cons in Hnd as [Hni Hnd].
  cbn [scan_nodes flat_map]. unfold call. rewrite (Hin id) by left. cbn [negb].
  assert (Hmem : forall k, k <> id -> bool_decide (k ∈ id :: ids) = bool_decide (k ∈ ids)) by (intros k Hk; apply bool_decide_ext; set_solver).
  destruct (live id) as [cs|] eqn:El.
  - destruct (IH w Hnd) as (H1 & H2 & H3); [intros x Hx; apply Hin; by right|].
    destruct (scan_nodes _ _ _ _ ids w) as [more w1]. cbn [fst snd] in *. unfold shown at 1. rewrite El, H1. split_and!; [done|done|].
    intros k. rewrite H3. destruct (decide (k = id)) as [->|Hk]; [by rewrite El, !andb_false_r|by rewrite Hmem].
  - destruct (IH (remove id w) Hnd) as (H1 & H2 & H3).
    { intros x Hx. unfold is_connected, client_of. cbn. rewrite lookup_delete_ne by (by intros ->). apply (Hin x). by right. }
    destruct (scan_nodes _ _ _ _ ids (remove id w)) as [more w1]. cbn [fst snd] in *. unfold shown at 1. rewrite El, H1.
    split_and!; [done|exact H2|]. intros k. rewrite H3. destruct (decide (k = id)) as [->|Hk].
    + rewrite El, (bool_decide_eq_false_2 (id ∈ ids)) by done. rewrite (bool_decide_eq_true_2 (id ∈ id :: ids)) by left. cbn. apply lookup_delete_eq.
    + rewrite Hmem by done. destruct (_ && _); [done|]. by apply lookup_delete_ne.
Qed.

Lemma owners_by_name_in us name o : owners_by_name us !! name = Some o ->
  exists u, In u us /\ User.username u = name /\ o = (User.id u, User.created_by u).
Proof.
  unfold owners_by_name. assert (G : forall l (m : gmap string (Uuid * option Uuid)), fold_left (fun m u => <[User.username u := (User.id u, User.created_by u)]> m) l m !! name = Some o ->
    m !! name = Some o \/ exists u, In u l /\ User.username u = name /\ o = (User.id u, User.created_by u)).
  { induction l as [|u l IH]; intros m; [by left|]. cbn [fold_left]. intros [H|(x & Hx & H)]%IH; [|right; exists x; simpl; auto].
    destruct (decide (User.username u = name)) as [He|Hne].
    - rewrite He, lookup_insert_eq in H. right. exists u. simpl. split; [auto|]. by simplify_eq.
    - rewrite lookup_insert_ne in H by done. by left. }
  intros [H|H]%G; [by rewrite lookup_empty in H|done].
Qed.

Lemma decrypt_user_same u u' : decrypt_user decrypt u = Ok u' ->
  User.id u' = User.id u /\ User.username u' = User.username u /\ User.created_by u' = User.created_by u.
Proof. unfold decrypt_user. repeat destruct (decrypt _); try done. intros [= <-]. by destruct u. Qed.

(** The column is unique in the schema. *)
Definition usernames_unique (w : World) : Prop := forall k k' u u',
  users (tables (plane w)) !! k = Some u -> users (tables (plane w)) !! k' = Some u' -> User.username u = User.username u' -> u = u'.

(** The row of the user with this name. *)
Definition user_named (name : string) (w : World) (u : User.User) : Prop :=
  exists k, users (tables (plane w)) !! k = Some u /\ User.username u = name.

Lemma fold_named us (m : gmap string (Uuid * option Uuid)) name :
  is_Some (m !! name) \/ (exists u, In u us /\ User.username u = name) ->
  is_Some (fold_left (fun m u => <[User.username u := (User.id u, User.created_by u)]> m) us m !! name).
Proof.
  revert m. induction us as [|x us IH]; intros m [H|(u & Hu & Hn)]; cbn [fold_left]; [done|done| |].
  - apply IH. left. destruct (decide (User.username x = name)) as [->|Hne]; [by rewrite lookup_insert_eq|by rewrite lookup_insert_ne].
  - destruct Hu as [->|Hu]; apply IH; [left; rewrite Hn, lookup_insert_eq; by eexists|right; eauto].
Qed.

(** The map of owners holds the row of that name, and only that. *)
Lemma owner_found w us name : usernames_unique w -> user_rows collate decrypt w = Ok us ->
  match owners_by_name us !! name with
  | Some o => exists u, user_named name w u /\ o = (User.id u, User.created_by u)
  | None => forall u, ~ user_named name w u
  end.
Proof.
  intros Hu Hus. unfold user_rows, decrypt_users in Hus. destruct (owners_by_name us !! name) as [o|] eqn:Eo.
  - apply owners_by_name_in in Eo as (u & Hin & Hn & ->). destruct (try_map_in _ _ _ _ Hus Hin) as (u0 & Hin0 & Hd).
    apply sort_by_in, in_rows in Hin0 as [k Hk]. destruct (decrypt_user_same _ _ Hd) as (Hi & Hun & Hcr).
    exists u0. split; [exists k; split; [done|congruence]|congruence].
  - intros u (k & Hk & Hn). destruct (try_map_in_inv _ _ _ u Hus) as (u' & Hu' & Hd); [apply sort_by_in, in_rows; eauto|].
    destruct (decrypt_user_same _ _ Hd) as (_ & Hun & _). unfold owners_by_name in Eo.
    destruct (fold_named us ∅ name) as [o Ho]; [|by rewrite Ho in Eo]. right. exists u'. split; [done|congruence].
Qed.

(** Who sees a connection: whoever is not a reseller with an account, and the reseller
    that created the user it belongs to. *)
Definition sees (i : Identity) (w : World) (c : LiveConn) : Prop :=
  is_reseller i = false \/ admin_id i = None \/ exists u, user_named (lc_user c) w u /\ User.created_by u = admin_id i.

(** How a connection of a node is shown. *)
Definition shows (w : World) (idc : Uuid * LiveConn) (v : LiveConnView) : Prop :=
  let (id, c) := idc in
  lv_node_id v = id
  /\ lv_node v = match Db.nodes (tables (plane w)) !! id with Some n => Node.name n | None => "" end
  /\ lv_user v = lc_user c
  /\ (forall u, user_named (lc_user c) w u -> lv_user_id v = Some (User.id u))
  /\ ((forall u, ~ user_named (lc_user c) w u) -> lv_user_id v = None)
  /\ lv_source_ip v = lc_source_ip c /\ lv_destination v = lc_destination c /\ lv_network v = lc_network c /\ lv_chain v = lc_chain c
  /\ (0 <= lc_up_bytes c < 2 ^ 63 -> lv_up_bytes v = lc_up_bytes c) /\ (0 <= lc_down_bytes c < 2 ^ 63 -> lv_down_bytes v = lc_down_bytes c)
  /\ (0 < lc_started_at c -> lv_started_at v = Some (lc_started_at c)) /\ (lc_started_at c <= 0 -> lv_started_at v = None).

Lemma as_i64_small x : 0 <= x < 2 ^ 63 -> as_i64_of_u64 x = x.
Proof. intros H. unfold as_i64_of_u64. rewrite Z.mod_small by lia. lia. Qed.

Lemma names_by_node_spec w id : keyed w ->
  default "" (names_by_node (list_nodes w) !! id) = match Db.nodes (tables (plane w)) !! id with Some n => Node.name n | None => "" end.
Proof.
  intros Hk. unfold names_by_node.
  assert (G : forall l (m : gmap Uuid string), (forall n, In n l -> Db.nodes (tables (plane w)) !! Node.id n = Some n) ->
    fold_left (fun m n => <[Node.id n := Node.name n]> m) l m !! id =
    if existsb (fun n => Node.id n =? id) l then Node.name <$> Db.nodes (tables (plane w)) !! id else m !! id).
  { induction l as [|n l IH]; intros m Hl; [done|]. cbn [fold_left existsb]. rewrite IH by (intros x Hx; apply Hl; by right).
    destruct (existsb _ l); [by rewrite orb_true_r|]. rewrite orb_false_r. destruct (Z.eqb_spec (Node.id n) id) as [<-|Hne].
    - rewrite lookup_insert_eq. by rewrite (Hl n) by (by left).
    - by rewrite lookup_insert_ne. }
  rewrite G.
  - rewrite lookup_empty. destruct (existsb _ _) eqn:Ee; [by destruct (_ !! id)|].
    destruct (Db.nodes (tables (plane w)) !! id) as [n|] eqn:En; [|done]. exfalso. apply not_true_iff_false in Ee. apply Ee, existsb_exists.
    exists n. split; [apply sort_by_in, in_rows; eauto|]. by rewrite (Hk _ _ En), Z.eqb_refl.
  - intros n [k Hn]%sort_by_in%in_rows. by rewrite (Hk _ _ Hn).
Qed.

Lemma conn_view_shows w us id c : usernames_unique w -> keyed w -> user_rows collate decrypt w = Ok us ->
  shows w (id, c) (conn_view id (default "" (names_by_node (list_nodes w) !! id)) (owners_by_name us !! lc_user c) c).
Proof.
  intros Hu Hk Hus. assert (Ho := owner_found w us (lc_user c) Hu Hus). unfold shows, conn_view. cbn. rewrite names_by_node_spec by done.
  do 3 (split; [done|]). split.
  { intros u Hn. destruct (owners_by_name us !! lc_user c) as [o|]; [|by destruct (Ho u)]. destruct Ho as (u' & (k' & Hk' & Hn') & ->).
    destruct Hn as (k & Hk0 & Hn). cbn. by rewrite (Hu k' k u' u Hk' Hk0) by congruence. }
  split.
  { intros Hno. destruct (owners_by_name us !! lc_user c) as [o|]; [|done]. destruct Ho as (u & Hn & _). by destruct (Hno u). }
  do 4 (split; [done|]). split; [apply as_i64_small|]. split; [apply as_i64_small|].
  split; intros Hs; destruct (Z.ltb_spec 0 (lc_started_at c)); done || lia.
Qed.

Lemma visible_sees w us i c : usernames_unique w -> user_rows collate decrypt w = Ok us ->
  visible (if is_reseller i then admin_id i else None) (owners_by_name us !! lc_user c) = true <-> sees i w c.
Proof.
  intros Hu Hus. assert (Ho := owner_found w us (lc_user c) Hu Hus). unfold sees. destruct (is_reseller i); [|split; auto].
  destruct (admin_id i) as [a|] eqn:Ea; [|split; auto]. cbn.
  destruct (owners_by_name us !! lc_user c) as [o|].
  - destruct Ho as (u & (k & Hk & Hn) & ->). split.
    + destruct (User.created_by u) as [cb|] eqn:Ec; [|done]. intros ->%Z.eqb_eq. right. right. exists u. split; [by exists k|done].
    + intros [|[|(u' & (k' & Hk' & Hn') & Hc)]]; [done|done|]. rewrite <- (Hu k' k u' u Hk' Hk), Hc by congruence. apply Z.eqb_refl.
  - split; [done|]. intros [|[|(u' & Hn' & _)]]; [done|done|]. by destruct (Ho u').
Qed.

Lemma shown_views w us i id : usernames_unique w -> keyed w -> user_rows collate decrypt w = Ok us ->
  Forall2 (shows w)
    (List.filter (fun idc => visible (if is_reseller i then admin_id i else None) (owners_by_name us !! lc_user idc.2)) (pair id <$> default [] (live id)))
    (shown (if is_reseller i then admin_id i else None) (owners_by_name us) (names_by_node (list_nodes w)) id).
Proof.
  intros Hu Hk Hus. unfold shown. induction (default [] (live id)) as [|c cs IH]; [constructor|]. cbn [fmap list_fmap List.filter omap list_omap snd].
  destruct (visible _ _); [|done]. constructor; [by apply conn_view_shows|done].
Qed.

Lemma filter_flat_map {A B} (P : B -> bool) (f : A -> list B) l : List.filter P (flat_map f l) = flat_map (fun x => List.filter P (f x)) l.
Proof. induction l as [|x l IH]; [done|]. cbn. by rewrite List.filter_app, IH. Qed.

(** C32: The live view shows exactly the connections the connected nodes answer with,
    node by node and each once: all of them to a caller that is not a reseller (or a
    reseller without an account), and to a reseller those of the users it created and
    no others, each with the name of its node and the id of its user.  A node that does
    not answer loses its channel, and nothing else changes. *)
Theorem live_view_exact i s out s' :
  usernames_unique (store s) -> keyed (store s) ->
  collect_live_connections collate decrypt order live i s = (Ok out, s') ->
  (exists ids allowed, NoDup ids /\ (forall id, id ∈ ids <-> is_connected id (store s) = true)
    /\ (forall idc, allowed idc = true <-> sees i (store s) idc.2)
    /\ Forall2 (shows (store s)) (List.filter allowed (flat_map (fun id => pair id <$> default [] (live id)) ids)) out)
  /\ trace s' = trace s /\ store s' = on_conns (fun _ => conns (store s')) (store s)
  /\ forall k, client_of k (store s') = if is_some (live k) then client_of k (store s) else None.
Proof.
  intros Hu Hk H. apply bind_ok in H as (us & s1 & [Hus ->]%read_ok & H). apply bind_ok in H as (ns & s1 & [-> ->]%query_ok & H).
  unfold scan_step in H. destruct (order_law (connected_ids (store s))) as [Hnd Hord].
  assert (Hids : forall id, id ∈ order (connected_ids (store s)) <-> is_connected id (store s) = true).
  { intros id. rewrite Hord. unfold connected_ids, is_connected, client_of. rewrite elem_of_dom. destruct (conns (store s) !! id); split; done. }
  destruct (scan_nodes_spec (if is_reseller i then admin_id i else None) (owners_by_name us) (names_by_node (list_nodes (store s)))
    (order (connected_ids (store s))) (store s) Hnd) as (H1 & H2 & H3); [by intros x Hx; apply Hids|].
  destruct (scan_nodes _ _ _ _ _ _) as [l w]. cbn [fst snd] in *. injection H as <- <-. cbn [store trace].
  split; [|split; [done|split; [exact H2|]]].
  - exists (order (connected_ids (store s))), (fun idc => visible (if is_reseller i then admin_id i else None) (owners_by_name us !! lc_user idc.2)).
    split; [done|]. split; [done|]. split; [intros idc; by apply visible_sees|]. rewrite H1, filter_flat_map.
    clear -Hu Hk Hus. induction (order (connected_ids (store s))) as [|id ids IH]; [constructor|].
    cbn [flat_map]. apply Forall2_app; [by apply shown_views|done].
  - intros k. rewrite H3. destruct (is_some (live k)) eqn:El; [by rewrite andb_false_r|]. rewrite andb_true_r.
    destruct (bool_decide _) eqn:Eb; [done|]. apply bool_decide_eq_false in Eb. rewrite Hids in Eb. unfold is_connected in Eb.
    by destruct (client_of k (store s)).
Qed.
End Connections.

(** ** The geography adds up *)

Lemma wrap_step a b : wrapping_add (as_i64_of_u64 a) b = as_i64_of_u64 (a + b).
Proof.
  unfold wrapping_add, as_i64_of_u64. f_equal.
  replace ((a + 2 ^ 63) mod 2 ^ 64 - 2 ^ 63 + b + 2 ^ 63) with ((a + 2 ^ 63) mod 2 ^ 64 + b) by lia.
  rewrite Zplus_mod_idemp_l. f_equal. lia.
Qed.

(** The rows of one country, and what its entry counts of them. *)
Definition from_code (cell : option (list Range * nat)) (code : string) (l : list LiveConnView) : list LiveConnView :=
  List.filter (fun c => String.eqb (lookup_str cell (lv_source_ip c)) code) l.
Definition entry_of (l : list LiveConnView) : GeoEntry :=
  mkEntry (Z.of_nat (length l)) (as_i64_of_u64 (sumZ (lv_up_bytes <$> l))) (as_i64_of_u64 (sumZ (lv_down_bytes <$> l)))
    (list_to_set (List.filter (fun u => negb (is_empty u)) (lv_user <$> l))).

Lemma sumZ_snoc (f : LiveConnView -> Z) l c : sumZ (f <$> (l ++ [c])) = sumZ (f <$> l) + f c.
Proof. unfold sumZ. induction l as [|x l IH]; cbn [app fmap list_fmap foldr]; [lia|]. rewrite IH. lia. Qed.

Lemma entry_of_snoc l c : entry_of (l ++ [c]) = count_conn c (entry_of l).
Proof.
  unfold entry_of, count_conn. cbn [ge_count ge_up ge_down ge_users]. rewrite !wrap_step, !sumZ_snoc, length_app. f_equal; [cbn; lia|].
  rewrite fmap_app, List.filter_app, list_to_set_app_L. cbn. destruct (is_empty (lv_user c)); cbn; set_solver.
Qed.

Lemma by_country_snoc cell l c :
  by_country cell (l ++ [c])
  = <[lookup_str cell (lv_source_ip c) := count_conn c (default no_entry (by_country cell l !! lookup_str cell (lv_source_ip c)))]> (by_country cell l).
Proof. unfold by_country. by rewrite fold_left_app. Qed.

Lemma by_country_spec cell l code :
  by_country cell l !! code = match from_code cell code l with [] => None | rows => Some (entry_of rows) end.
Proof.
  induction l as [|c l IH] using rev_ind; [done|]. rewrite by_country_snoc. unfold from_code. rewrite List.filter_app. cbn [List.filter].
  destruct (String.eqb_spec (lookup_str cell (lv_source_ip c)) code) as [<-|Hne].
  - rewrite lookup_insert_eq, IH. fold (from_code cell (lookup_str cell (lv_source_ip c)) l).
    destruct (from_code cell _ l) as [|x r] eqn:E; [exact (f_equal Some (eq_sym (entry_of_snoc [] c)))|].
    exact (f_equal Some (eq_sym (entry_of_snoc (x :: r) c))).
  - rewrite lookup_insert_ne by done. rewrite app_nil_r. exact IH.
Qed.

(** The geography of the live connections is a partition of them: each country
    is listed once, with the number, the bytes and the distinct named users of
    exactly the connections that come from it, and the numbers add up to the total. *)
Theorem geo_partition cell l :
  NoDup (gb_code <$> geo_buckets (by_country cell l))
  /\ (forall b, In b (geo_buckets (by_country cell l)) <->
        exists code, from_code cell code l <> [] /\
          let e := entry_of (from_code cell code l) in b = mkGeo code (ge_count e) (Z.of_nat (size (ge_users e))) (ge_up e) (ge_down e))
  /\ sumZ (gb_connections <$> geo_buckets (by_country cell l)) = Z.of_nat (length l).
Proof.
  unfold geo_buckets. repeat split_and.
  - rewrite (fmap_Permutation gb_code _ _ (sort_by_perm _ _)), <- list_fmap_compose. apply NoDup_fst_map_to_list.
  - intros b. rewrite sort_by_in. split.
    + intros ([code e] & <- & H)%in_map_iff. apply list_elem_of_In, elem_of_map_to_list in H. rewrite by_country_spec in H.
      exists code. destruct (from_code cell code l) as [|x r] eqn:E; [done|]. by simplify_eq.
    + intros (code & Hne & ->). apply in_map_iff. exists (code, entry_of (from_code cell code l)). split; [done|].
      apply list_elem_of_In, elem_of_map_to_list. rewrite by_country_spec. by destruct (from_code cell code l).
  - rewrite (sumZ_perm _ _ (fmap_Permutation gb_connections _ _ (sort_by_perm _ _))), <- list_fmap_compose.
    change (gb_connections ∘ ?f) with (fun ke : string * GeoEntry => ge_count ke.2).
    change (msum (fun _ e => ge_count e) (by_country cell l) = Z.of_nat (length l)).
    induction l as [|c l IH] using rev_ind; [done|]. rewrite by_country_snoc, msum_insert, IH, length_app. cbn [length].
    destruct (by_country cell l !! _); cbn; lia.
Qed.

(** ** A push that answers *)

Lemma agent_step_ok {A} what (f : World -> result A push_error * World) s a s' :
  agent_step what f s = (Ok a, s') -> f (store s) = (Ok a, store s') /\ trace s' = trace s.
Proof. unfold agent_step. destruct (f (store s)) as [[x|] w]; intros [= <- <-]; done. Qed.

Section PushNode.
Context (collate : string -> string -> bool).
Context (encrypt decrypt : string -> option string).
Context (uuid_str : Uuid -> string).
Context (to_string : json -> option string).
Context (mint : Uuid -> Uuid -> Uuid * Z * result Keypair wg_error).
Context (spec_hash : Pb.NodeSpec -> string).
Context (to_value : SpecSummary -> json).
Context (db_upper : string -> string).
#[local] Abbreviation push_ctx := (push_with_context collate encrypt decrypt uuid_str to_string mint spec_hash to_value).

Lemma push_answered now event r id source actor w message w' :
  push_ctx now event r id source actor w = (Ok message, w') ->
  exists spec, running w' !! id = Some spec
    /\ forall n, Db.nodes (tables (plane w')) !! id = Some n -> Node.applied_spec_hash n = Some (spec_hash spec).
Proof. intros (spec & _ & _ & Hr & _ & Hn)%pushed_inv. exists spec. by rewrite Hr, lookup_insert_eq. Qed.

Lemma dial_trace now dial id node s u s' : dial_if_needed uuid_str db_upper now dial id node s = (Ok u, s') -> trace s' = trace s.
Proof.
  intros H. apply bind_ok in H as (b & s1 & [_ ->]%query_ok & H). destruct (negb b && _); [by apply agent_step_ok in H as [_ H]|by injection H as _ <-].
Qed.

(** A push through the API that answers has passed the rollout gate, leaves the
    node's agent on the spec whose hash the node's row records, and is audited as
    the caller's. *)
Theorem push_node_in_sync now event net probe_id gate dial r state pid i id s res s' :
  push_node collate encrypt decrypt uuid_str to_string mint spec_hash to_value db_upper now event net probe_id gate dial r state pid i id s
    = (Ok res, s') ->
  (exists n, rollout_gate net probe_id decrypt gate id (tables (plane (store s))) = Ok n /\ pr_node res = Node.name n)
  /\ (exists spec, running (store s') !! id = Some spec
        /\ forall n, Db.nodes (tables (plane (store s'))) !! id = Some n -> Node.applied_spec_hash n = Some (spec_hash spec))
  /\ trace s' = trace s ++ [AuditEvent "push" "node" (Some id) (obj [("state", JString (state_text state))])].
Proof.
  intros H. apply bind_ok in H as (g & s1 & [-> ->]%query_ok & H). apply bind_ok in H as (node & s1 & H0 & H).
  unfold lift_result in H0. injection H0 as Hg <-. apply bind_ok in H as (u & s1 & Hd & H). apply dial_trace in Hd.
  apply bind_ok in H as (message & s2 & [Hp Ht]%agent_step_ok & H). apply bind_ok in H as (u' & s3 & Ha & H).
  injection H as <- <-. injection Ha as _ <-. split; [by exists node|]. split; [by eapply push_answered|]. cbn. by rewrite Ht, Hd.
Qed.
End PushNode.

(** ** Generated REALITY keys *)

Lemma hex_digit_hex n : 0 <= n < 16 -> is_hexdigit (hex_digit n) = true.
Proof.
  intros H. assert (W : forallb (fun n => is_hexdigit (hex_digit n)) (seqZ 0 16) = true) by reflexivity.
  rewrite forallb_forall in W. apply W, list_elem_of_In, elem_of_seqZ. lia.
Qed.

Section Reality.
Context (base64url : list Z -> string) (secret_bytes public_bytes : list Z -> list Z).
(** Unpadded URL-safe base64 of 32 bytes is 43 characters of its alphabet. *)
Hypothesis base64url_law : forall l, length l = 32%nat ->
  len (base64url l) = 43 /\ all_bytes (fun c => is_alphanumeric c || Ascii.eqb c "-" || Ascii.eqb c "_") (base64url l) = true.
(** X25519 keys are 32 bytes. *)
Hypothesis key_law : forall seed, length seed = 32%nat -> length (secret_bytes seed) = 32%nat /\ length (public_bytes seed) = 32%nat.

Lemma base64url_valid l : length l = 32%nat -> valid_reality_key (base64url l) = true.
Proof.
  intros [Hl Hb]%base64url_law. unfold valid_reality_key. rewrite Hl. cbn [andb Z.eqb]. revert Hb. apply all_bytes_impl. by_byte.
Qed.

Lemma hex_short_id bs :
  Forall (fun b => 0 <= b < 256) bs -> all_bytes is_hexdigit (hex bs) = true /\ len (hex bs) = 2 * Z.of_nat (length bs).
Proof.
  induction 1 as [|b bs Hb _ [IHb IHl]]; [done|]. rewrite hex_cons. unfold len in *. rewrite all_bytes_app, string_length_app, IHb.
  unfold hex_byte. cbn [all_bytes String.length length]. rewrite !hex_digit_hex; [split; [done|lia]| |].
  - apply Z.mod_pos_bound. lia.
  - split; [by apply Z.div_pos; lia|]. apply Z.div_lt_upper_bound; lia.
Qed.

(** The keys and the short id that the wizard generates are ones the inbound
    validator accepts. *)
Theorem generated_keys_accepted seed sid kp :
  length seed = 32%nat -> length sid = 4%nat -> Forall (fun b => 0 <= b < 256) sid ->
  generate base64url secret_bytes public_bytes (Some seed) (Some sid) = Some kp ->
  valid_reality_key (rk_private_key kp) = true /\ valid_reality_key (rk_public_key kp) = true /\ valid_short_id (rk_short_id kp) = true.
Proof.
  intros Hs Hl Hb [= <-]. cbn. destruct (key_law seed Hs) as [H1 H2]. split; [by apply base64url_valid|]. split; [by apply base64url_valid|].
  destruct (hex_short_id sid Hb) as [Hh Hn]. unfold valid_short_id. rewrite Hh, Hn, Hl. done.
Qed.
End Reality.

(** ** One leader in the status *)

(** At most one instance is shown as the leader, and it holds a lease that has not
    run out. *)
Lemma status_one_leader now me is_leader lease roster a b :
  In a (hs_instances (ha_status now me is_leader lease roster)) -> In b (hs_instances (ha_status now me is_leader lease roster)) ->
  hv_leader a = true -> hv_leader b = true ->
  hv_instance_id a = hv_instance_id b /\ exists l, lease = Some l /\ Ha.holder l = hv_instance_id a /\ now < Ha.expires_at l.
Proof.
  cbn. intros (x & <- & _)%in_map_iff (y & <- & _)%in_map_iff Ha%bool_decide_eq_true Hb%bool_decide_eq_true. cbn in *.
  rewrite <- Hb in Ha. injection Ha as Ha. split; [done|]. destruct lease as [l|]; [|done]. cbn in Hb.
  destruct (Z.ltb_spec now (Ha.expires_at l)); [|done]. exists l. cbn in Hb. injection Hb as Hb. by rewrite Ha, Hb.
Qed.

(** ** Witnesses *)

Definition desk : Identity := mkIdentity (Some 3) "ops" "operator" None None.
Definition closed_net : Net := mkNet unit (fun _ _ => None) (fun _ _ => None) (fun _ _ => None).
Definition asleep : DialEnv := mkDial None None.

Lemma sample_keyed : keyed sample_world.
Proof.
  assert (W : Forall (fun kn => Node.id kn.2 = kn.1) (map_to_list (Db.nodes (tables (plane sample_world))))) by (vm_compute; repeat constructor).
  intros k n H%elem_of_map_to_list. rewrite Forall_forall in W. exact (W _ H).
Qed.

Lemma inspection_harmless_witness :
  running (store (node_metrics (fun _ => "id") (fun s => s) 5 asleep (None : option unit) 1 (mkSt sample_world [])).2) = ∅.
Proof.
  exact (q_running _ _ _ (proj1 (proj2 (proj2 (inspection_harmless String.leb Some Some (fun _ => "id") (fun _ => Some "{}") sample_mint
    sample_hash (fun _ => None) (fun s => s) 5 asleep None (fun _ => None) (None : option unit) (fun _ _ => None) 0 200 Z (fun z => z) Z.sub
    Z.mul Z.div Z.max Z.leb clamp 0 (fun z => z) (fun _ _ => None) (fun _ => JNull) None 1 (mkSt sample_world [])
    sample_keyed))))).
Defined.

Lemma push_node_in_sync_witness : exists spec,
  running (store (push_node String.leb Some Some (fun _ => "id") (fun _ => Some "{}") sample_mint sample_hash (fun _ => JNull) (fun s => s)
                    5 1 closed_net [] (Ok (Some "off")) asleep (AgentOk "ok") Running 77 desk 1 (mkSt sample_world [])).2) !! 1 = Some spec.
Proof.
  eassert (H : _ = (Ok _, _)); [|destruct (proj1 (proj2 (push_node_in_sync String.leb Some Some (fun _ => "id") (fun _ => Some "{}") sample_mint sample_hash
    (fun _ => JNull) (fun s => s) 5 1 closed_net [] (Ok (Some "off")) asleep (AgentOk "ok") Running 77 desk 1 (mkSt sample_world []) _ _ H))) as (spec & Hr & _)].
  - vm_compute. reflexivity.
  - exists spec. rewrite <- Hr. reflexivity.
Defined.

Definition shop_conns (id : Uuid) : option (list LiveConn) :=
  if id =? 1 then Some [mkLive "alice" "198.51.100.7" "example.org" "tcp" 10 20 5 ""; mkLive "bob" "203.0.113.9" "example.net" "udp" 1 2 0 ""] else None.
Definition shop_world : World :=
  mkWorld (mkPlane (with_users (fun m => <[8 := User.mk 8 "bob" None None None "inherit" [] "u8" "p8" true 0 0 None 0 None "none" None (Some 30) None 0 0]> m)
                      (tables sample_plane)) [] [] []) ∅ {[1 := mkClient (mkStream 0 None) "f1"; 2 := mkClient (mkStream 1 None) "f2"]} ∅ [] ∅.
Definition shopkeeper : Identity := mkIdentity (Some 30) "shop" "reseller" None None.

Definition shop_seen : result (list LiveConnView) api_error * St World :=
  collect_live_connections String.leb Some elements shop_conns shopkeeper (mkSt shop_world []).

Lemma shop_usernames : usernames_unique shop_world.
Proof.
  intros k k' u u' Hk Hk'. cbn in Hk, Hk'.
  apply lookup_insert_Some in Hk as [[<- <-]|[_ Hk]], Hk' as [[<- <-]|[_ Hk']]; try done;
    repeat match goal with H : _ !! _ = Some _ |- _ => apply lookup_singleton_Some in H as [<- <-] end; done.
Qed.
Lemma shop_keyed : keyed shop_world.
Proof. exact sample_keyed. Qed.

Lemma live_view_exact_witness :
  exists out s', shop_seen = (Ok out, s') /\ lv_user <$> out = ["bob"] /\ client_of 2 (store s') = None.
Proof.
  assert (W : match shop_seen.1 with Ok out => lv_user <$> out | Err _ => [] end = ["bob"]) by (vm_compute; reflexivity).
  destruct shop_seen as [[out|e] s'] eqn:E; [|discriminate W]. exists out, s'. unfold shop_seen in E. split; [reflexivity|]. split; [exact W|].
  destruct (live_view_exact String.leb Some elements shop_conns (fun s => conj (NoDup_elements s) (fun x => elem_of_elements s x)) shopkeeper (mkSt shop_world []) _ _
    shop_usernames shop_keyed E) as (_ & _ & _ & Hc). exact (Hc 2).
Defined.

(** Base64 as the standard writes it, in the alphabet for URLs and without padding. *)
Definition sextet (n : Z) : ascii :=
  let n := n mod 64 in
  ascii_of_N (Z.to_N (if n <? 26 then 65 + n else if n <? 52 then 71 + n else if n <? 62 then n - 4 else if n =? 62 then 45 else 95)).
Fixpoint base64url (l : list Z) : string :=
  match l with
  | [] => ""
  | [a] => String (sextet (a / 4)) (String (sextet (a * 16)) "")
  | [a; b] => String (sextet (a / 4)) (String (sextet (a * 16 + b / 16)) (String (sextet (b * 4)) ""))
  | a :: b :: c :: rest =>
      String (sextet (a / 4)) (String (sextet (a * 16 + b / 16)) (String (sextet (b * 4 + c / 64)) (String (sextet c) (base64url rest))))
  end.

Lemma sextet_alphabet n : is_alphanumeric (sextet n) || Ascii.eqb (sextet n) "-" || Ascii.eqb (sextet n) "_" = true.
Proof.
  assert (W : forallb (fun n => is_alphanumeric (sextet n) || Ascii.eqb (sextet n) "-" || Ascii.eqb (sextet n) "_") (seqZ 0 64) = true) by reflexivity.
  rewrite forallb_forall in W. unfold sextet. rewrite <- Zmod_mod. apply W, list_elem_of_In, elem_of_seqZ.
  assert (H := Z.mod_pos_bound n 64 ltac:(lia)). lia.
Qed.

Lemma base64url_32 l : length l = 32%nat ->
  len (base64url l) = 43 /\ all_bytes (fun c => is_alphanumeric c || Ascii.eqb c "-" || Ascii.eqb c "_") (base64url l) = true.
Proof.
  intros H. do 32 (destruct l as [|? l]; [discriminate H|]). destruct l; [|discriminate H]. split; [reflexivity|].
  cbn [base64url all_bytes]. by rewrite !sextet_alphabet.
Qed.

Lemma generated_keys_accepted_witness : valid_short_id (hex [10; 200; 7; 255]) = true.
Proof.
  exact (proj2 (proj2 (generated_keys_accepted base64url (fun s => s) (fun s => s) base64url_32 (fun s H => conj H H) (replicate 32 9) [10; 200; 7; 255]
    (mkReality (base64url (replicate 32 9)) (base64url (replicate 32 9)) (hex [10; 200; 7; 255])) eq_refl eq_refl
    ltac:(repeat constructor; lia) eq_refl))).
Defined.
