(* ===== verification/Collector.v ===== *)
(** * The loops that follow the agents (src/master/src/stats.rs,
    src/master/src/quota.rs, src/master/src/reconcile.rs)

    The statistics collector keeps one stream open per connected node and core; a
    stream is a task of its own, so the collector is a state machine whose events
    are what the poll loop, the tasks and the rest of the master do next.  The
    quota, retention and reconcile loops are their iterations.  What agents answer
    and which queries fail is given by the environment. *)

From S2P Require Import Prelude Strings Json Models Db Api Settings Users Gitops Notify Traffic Access Wg Subscription Spec Enroll Push.

(** ** One sample *)

Record UserStat := mkUserStat { us_name : string; us_up : Z; us_down : Z }.
Record Sample := mkSample { s_epoch : string; s_users : list UserStat }.

Inductive stat_error := CounterOverflow | Database (e : db_error) | PushFailed (e : push_error).

Definition on_tables (f : Db -> Db) (w : World) : World :=
  mkWorld (mkPlane (f (tables (plane w))) (wg_interfaces (plane w)) (wg_peers (plane w)) (node_services (plane w)))
    (push_events w) (conns w) (deferred_pushes w) (certs w) (running w).

Section Loops.
Context (collate : string -> string -> bool) (encrypt decrypt : string -> option string) (uuid_str : Uuid -> string).
Context (to_string : json -> option string) (mint : Uuid -> Uuid -> Uuid * Z * result Keypair wg_error).
Context (spec_hash : Pb.NodeSpec -> string) (to_value : SpecSummary -> json) (db_upper : string -> string).

(** The inner loop of [subscribe]: each user is its own transaction, so rows
    recorded before an error stay. *)
Fixpoint record_users (now : Z) (node_id : Uuid) (core epoch : string) (stats : list UserStat) (crossed : bool) (db : Db)
    : result bool stat_error * Db :=
  match stats with
  | [] => (Ok crossed, db)
  | s :: rest =>
      match get_user_by_name decrypt (us_name s) db with
      | Err e => (Err (Database e), db)
      | Ok None => record_users now node_id core epoch rest crossed db
      | Ok (Some user) =>
          if (i64_max <? us_up s) || (i64_max <? us_down s) then (Err CounterOverflow, db) else
          match record_traffic now node_id (User.id user) core epoch (us_up s) (us_down s) db with
          | Err e => (Err (Database e), db)
          | Ok (c, db') => record_users now node_id core epoch rest (crossed || c) db'
          end
      end
  end.

(** One turn of the loop of [subscribe]: the sample is recorded, and the node is
    pushed when a quota was crossed.  An error ends the stream. *)
Definition take_sample (auto_push_enabled now event : Z) (r : apply_result) (node_id : Uuid) (core : CoreKind) (sample : Sample)
    (w : World) : result unit stat_error * World :=
  let epoch := if String.eqb (s_epoch sample) "" then "legacy" else s_epoch sample in
  match record_users now node_id (core_str core) epoch (s_users sample) false (tables (plane w)) with
  | (Err e, db) => (Err e, on_tables (fun _ => db) w)
  | (Ok false, db) => (Ok tt, on_tables (fun _ => db) w)
  | (Ok true, db) =>
      match auto_push collate encrypt decrypt uuid_str to_string mint spec_hash to_value auto_push_enabled now event r node_id
              (on_tables (fun _ => db) w) with
      | (Ok _, w) => (Ok tt, w)
      | (Err e, w) => (Err (PushFailed e), w)
      end
  end.

(** ** The collector *)

Definition CORES : list CoreKind := [Singbox; Xray].
Definition core_number (core : CoreKind) : Z := match core with Unspecified => 0 | Singbox => 1 | Xray => 2 end.
Definition key_of (s : Uuid * CoreKind) : Uuid * Z := (s.1, core_number s.2).

(** Where a spawned task is: opening its stream, reading it, or about to take its
    key out of the active set. *)
Inductive task := Opening | Reading | Closing.

(** The loop's remaining keys of this tick, the active set, the tasks. *)
Record Collector := mkCollector {
  queue : list (Uuid * CoreKind);
  active : gset (Uuid * Z);
  tasks : list ((Uuid * CoreKind) * task) }.

Definition idle : Collector := mkCollector [] ∅ [].

(** What happens next: a tick of the poll loop (with the order in which the hash
    map of channels is walked), the visit of one key, the answer to a stream
    request, a sample, the end of a stream, the end of a task; or something else in
    the master changes the world. *)
Inductive event :=
| Tick (is_leader : bool) (connected : list Uuid)
| Visit
| Opened (i : nat) (answered : bool)
| Sampled (i : nat) (auto_push_enabled now push_id : Z) (r : apply_result) (sample : Sample)
| Ended (i : nat)
| Closed (i : nat)
| Elsewhere (w : World).

(** One visit: the key is inserted, and a task spawned when it was not there. *)
Definition visit (s : Uuid * CoreKind) (rest : list (Uuid * CoreKind)) (c : Collector) : Collector :=
  if decide (key_of s ∈ active c) then mkCollector rest (active c) (tasks c)
  else mkCollector rest ({[key_of s]} ∪ active c) (tasks c ++ [(s, Opening)]).

Definition with_task (i : nat) (s : Uuid * CoreKind) (t : task) (c : Collector) : Collector :=
  mkCollector (queue c) (active c) (<[i := (s, t)]> (tasks c)).

Definition exec (e : event) (st : World * Collector) : option (World * Collector) :=
  let '(w, c) := st in
  match e with
  | Tick is_leader connected =>
      if negb (bool_decide (queue c = []) && bool_decide (NoDup connected) && bool_decide (list_to_set connected = connected_ids w)) then None
      else if negb is_leader then Some (w, c)
      else Some (w, mkCollector (flat_map (fun id => (fun core => (id, core)) <$> CORES) connected) (active c) (tasks c))
  | Visit => match queue c with [] => None | s :: rest => Some (w, visit s rest c) end
  | Opened i answered =>
      match tasks c !! i with
      | Some (s, Opening) => Some (w, with_task i s (if is_connected s.1 w && answered then Reading else Closing) c)
      | _ => None
      end
  | Sampled i auto_push_enabled now push_id r sample =>
      match tasks c !! i with
      | Some (s, Reading) =>
          let '(res, w) := take_sample auto_push_enabled now push_id r s.1 s.2 sample w in
          Some (w, match res with Ok _ => c | Err _ => with_task i s Closing c end)
      | _ => None
      end
  | Ended i => match tasks c !! i with Some (s, Reading) => Some (w, with_task i s Closing c) | _ => None end
  | Closed i =>
      match tasks c !! i with
      | Some (s, Closing) => Some (w, mkCollector (queue c) (active c ∖ {[key_of s]}) (delete i (tasks c)))
      | _ => None
      end
  | Elsewhere w' => Some (w', c)
  end.

Inductive reachable : World * Collector -> Prop :=
| reachable_start w : reachable (w, idle)
| reachable_step e s s' : reachable s -> exec e s = Some s' -> reachable s'.

(** A whole iteration of the poll loop when nothing comes in between. *)
Definition poll (is_leader : bool) (connected : list Uuid) (c : Collector) : Collector :=
  if negb is_leader then c
  else let c' := fold_left (fun c s => visit s [] c) (flat_map (fun id => (fun core => (id, core)) <$> CORES) connected) c in
       mkCollector [] (active c') (tasks c').

(** ** Quota windows *)

Definition arrows_sign : string := bytes_of [240; 159; 148; 132].
Definition dash_sign : string := bytes_of [226; 128; 148].
Definition red_sign : string := bytes_of [240; 159; 148; 180].

(** The tables, the registry and the notifications. *)
Record Floor := mkFloor { floor : World; panel : Panel }.
Definition on_floor (f : World -> World) (s : Floor) : Floor := mkFloor (f (floor s)) (panel s).
Definition raise_alert (m : Moment) (a : Alert) (s : Floor) : Floor := mkFloor (floor s) (alert m a (panel s)).2.

(** What the environment decides for one due user: whether the list of nodes, the
    reset and the new boundary get through, how each push ends, and when the alert
    is raised on which day. *)
Record QuotaEnv := mkQuotaEnv {
  lists : bool;
  resets : bool;
  advances : bool;
  pushes : Uuid -> Z * apply_result;
  alerted : Moment;
  today : string }.

Definition readable (u : User.User) : bool := match decrypt_user decrypt u with Ok _ => true | Err _ => false end.

Definition push_connected (auto_push_enabled now : Z) (answers : Uuid -> Z * apply_result) (w : World) (id : Uuid) : World :=
  if is_connected id w
  then (auto_push collate encrypt decrypt uuid_str to_string mint spec_hash to_value auto_push_enabled now (answers id).1 (answers id).2 id w).2
  else w.

Definition quota_alert (env : QuotaEnv) (due : Uuid * string) : Alert :=
  mkAlert "quota_reset" ("quota_reset:" +:+ uuid_str due.1 +:+ ":" +:+ today env)
    (arrows_sign +:+ " honey: quota reset")
    ("user " +:+ uuid_str due.1 +:+ " " +:+ dash_sign +:+ " " +:+ due.2 +:+ " traffic window reset") (uuid_str due.1).

Definition quota_user (auto_push_enabled now : Z) (env : QuotaEnv) (due : Uuid * string) (s : Floor) : Floor :=
  let nodes := if lists env then user_node_ids due.1 (tables (plane (floor s))) else [] in
  if negb (resets env) then s else
  let '(user, db) := reset_user_traffic now due.1 (tables (plane (floor s))) in
  let s := on_floor (on_tables (fun _ => db)) s in
  if is_some_and user (fun u => negb (readable u)) then s else
  let s := if advances env then on_floor (on_tables (advance_quota_reset now due.1 (next_boundary now due.2))) s else s in
  let s := on_floor (fun w => fold_left (push_connected auto_push_enabled now (pushes env)) nodes w) s in
  raise_alert (alerted env) (quota_alert env due) s.

(** One iteration; [scans] says whether the scan for due users gets through. *)
Definition quota_loop (is_leader scans : bool) (auto_push_enabled now : Z) (env : Uuid -> QuotaEnv) (s : Floor) : Floor :=
  if negb is_leader then s else
  if negb scans then s else
  fold_left (fun s due => quota_user auto_push_enabled now (env due.1) due s) (due_quota_resets now (tables (plane (floor s)))) s.

(** ** Retention of the hourly history *)

Definition DEFAULT_TRAFFIC_HISTORY_DAYS : Z := 180.

Definition retention (is_leader deletes : bool) (now : Z) (setting : result (option string) db_error) (db : Db) : Db :=
  if negb is_leader then db else
  let d := bounded_history_days (setting_i64 setting DEFAULT_TRAFFIC_HISTORY_DAYS) in
  if deletes then delete_traffic_history_before (now - Traffic.days d) db else db.

(** ** Reconciliation *)

Definition node_down_alert (n : Node.Node) : Alert :=
  mkAlert "node_down" ("node_down:" +:+ uuid_str (Node.id n)) (red_sign +:+ " honey: node down")
    (Node.name n +:+ " (" +:+ Node.address n +:+ ") is unreachable") (uuid_str (Node.id n)).

(** One node of a reconcile tick, with the alert a failed heartbeat raises. *)
Definition tick_node_alert (auto_push_enabled now : Z) (m : Moment) (env : TickEnv) (node : Node.Node) (s : Floor) : Floor :=
  if negb (Node.enabled node) then s else
  let id := Node.id node in
  let s := if negb (String.eqb (Node.transport node) "dial") && negb (is_connected id (floor s))
           then on_floor (fun w => (connect_serve uuid_str db_upper now (te_dial env) node w).2) s else s in
  if negb (is_connected id (floor s)) then s else
  match heartbeat now (te_ping_ok env) id (floor s) with
  | (false, w) => raise_alert m (node_down_alert node) (mkFloor w (panel s))
  | (true, w) =>
      if auto_push_enabled =? 0 then mkFloor w (panel s)
      else mkFloor (reconcile_push collate encrypt decrypt uuid_str to_string mint spec_hash to_value now (te_event env) (te_apply env) id w).2 (panel s)
  end.

(** One turn of the loop: the state after it and the seconds until the next. *)
Definition reconcile_loop (is_leader lists_nodes : bool) (now interval : Z) (settings : string -> result (option string) db_error)
    (moments : Uuid -> Moment) (env : Uuid -> TickEnv) (s : Floor) : Floor * Z :=
  let default_secs := Z.max (interval / 1000000) 1 in
  let s :=
    if is_leader && lists_nodes then
      let auto_push_enabled := setting_i64 (settings "auto_push_enabled") 1 in
      fold_left (fun s n => tick_node_alert auto_push_enabled now (moments (Node.id n)) (env (Node.id n)) n s) (list_nodes (floor s)) s
    else s in
  (s, clamp 5 86400 (setting_i64 (settings "reconcile_secs") default_secs)).
End Loops.

(** ** One stream per node and core *)

(** The active set is the keys of the tasks, and no two tasks share one. *)
Record subscribed_once (c : Collector) : Prop := mkOnce {
  once_nodup : NoDup (tasks c).*1;
  once_active : active c = list_to_set (key_of <$> (tasks c).*1) }.

#[export] Instance key_of_inj : Inj (=) (=) key_of.
Proof. intros [n []] [m []] [= ->]; done. Qed.

Lemma key_active c s : subscribed_once c -> key_of s ∈ active c <-> s ∈ (tasks c).*1.
Proof. intros [_ Ha]. rewrite Ha, elem_of_list_to_set. split; [|by apply list_elem_of_fmap_2]. by intros (? & ->%(inj key_of) & ?)%list_elem_of_fmap. Qed.

Lemma visit_once s rest c : subscribed_once c -> subscribed_once (visit s rest c).
Proof.
  intros H. unfold visit. case_decide as Hk; [by destruct H|]. rewrite key_active in Hk by done. destruct H as [Hn Ha]. split; cbn.
  - rewrite fmap_app. apply NoDup_app. split; [done|]. split; [|apply NoDup_singleton]. intros x Hx ->%list_elem_of_singleton. done.
  - rewrite !fmap_app, list_to_set_app_L, Ha. cbn. set_solver.
Qed.

Lemma with_task_keys i s t t' c : tasks c !! i = Some (s, t) -> (tasks (with_task i s t' c)).*1 = (tasks c).*1.
Proof. intros H. cbn. rewrite list_fmap_insert. cbn. apply list_insert_id. by rewrite list_lookup_fmap, H. Qed.

Lemma with_task_once i s t t' c : tasks c !! i = Some (s, t) -> subscribed_once c -> subscribed_once (with_task i s t' c).
Proof. intros H [Hn Ha]. split; rewrite (with_task_keys _ _ _ _ _ H); done. Qed.

Lemma close_once i s q c : tasks c !! i = Some (s, Closing) -> subscribed_once c ->
  subscribed_once (mkCollector q (active c ∖ {[key_of s]}) (delete i (tasks c))).
Proof.
  intros H [Hn Ha]. assert (Hp := fmap_Permutation fst _ _ (delete_Permutation _ _ _ H)). cbn in Hp.
  rewrite Hp in Hn. apply NoDup_cons in Hn as [Hs Hn]. split; cbn; [done|].
  apply set_eq. intros k. rewrite Ha, elem_of_difference, !elem_of_list_to_set, Hp. cbn. rewrite elem_of_cons, elem_of_singleton.
  split; [tauto|]. intros Hk. split; [by right|]. intros ->. apply list_elem_of_fmap in Hk as (y & ->%(inj key_of) & Hy). done.
Qed.

Section Streams.
Context (collate : string -> string -> bool) (encrypt decrypt : string -> option string) (uuid_str : Uuid -> string).
Context (to_string : json -> option string) (mint : Uuid -> Uuid -> Uuid * Z * result Keypair wg_error).
Context (spec_hash : Pb.NodeSpec -> string) (to_value : SpecSummary -> json).

#[local] Abbreviation step := (exec collate encrypt decrypt uuid_str to_string mint spec_hash to_value).
#[local] Abbreviation reached := (reachable collate encrypt decrypt uuid_str to_string mint spec_hash to_value).

Lemma exec_once e st st' : step e st = Some st' -> subscribed_once st.2 -> subscribed_once st'.2.
Proof.
  destruct st as [w c]. intros H Hc. cbn in Hc. destruct e; cbn in H.
  - destruct (negb _); [done|]. destruct (negb _); injection H as <-; [done|]. by destruct Hc.
  - destruct (queue c) as [|s rest]; [done|]. injection H as <-. by apply visit_once.
  - destruct (tasks c !! i) as [[s []]|] eqn:E; try done. injection H as <-. by eapply with_task_once.
  - destruct (tasks c !! i) as [[s []]|] eqn:E; try done. destruct (take_sample _ _ _ _ _ _ _ _ _ _ _ _ _ _ _ _) as [[] w1];
      injection H as <-; [done|]. by eapply with_task_once.
  - destruct (tasks c !! i) as [[s []]|] eqn:E; try done. injection H as <-. by eapply with_task_once.
  - destruct (tasks c !! i) as [[s []]|] eqn:E; try done. injection H as <-. by apply close_once.
  - by injection H as <-.
Qed.

Lemma reached_once st : reached st -> subscribed_once st.2.
Proof. induction 1 as [w|e s s' _ IH H]; [split; [constructor|done]|by eapply exec_once]. Qed.
End Streams.

#[export] Instance CoreKind_eq_dec : EqDecision CoreKind.
Proof. solve_decision. Defined.

Lemma visit_tasks s c : subscribed_once c ->
  tasks (visit s [] c) = tasks c ++ (if bool_decide (s ∈ (tasks c).*1) then [] else [(s, Opening)]).
Proof.
  intros Hc. unfold visit. case_decide as Hk; rewrite key_active in Hk by done; cbn.
  - rewrite bool_decide_eq_true_2 by done. by rewrite app_nil_r.
  - by rewrite bool_decide_eq_false_2.
Qed.

(** The keys of the list that have no task. *)
Definition missing (l : list (Uuid * CoreKind)) (c : Collector) : list (Uuid * CoreKind) :=
  List.filter (fun s => negb (bool_decide (s ∈ (tasks c).*1))) l.

Lemma visits_tasks l : forall c, subscribed_once c -> NoDup l ->
  tasks (fold_left (fun c s => visit s [] c) l c) = tasks c ++ ((fun s => (s, Opening)) <$> missing l c).
Proof.
  induction l as [|s l IH]; intros c Hc Hnd; cbn; [by rewrite app_nil_r|]. apply NoDup_cons in Hnd as [Hs Hnd].
  rewrite IH by (done || by apply visit_once). rewrite visit_tasks by done.
  assert (Hm : missing l (visit s [] c) = missing l c).
  { unfold missing. apply List.filter_ext_in. intros x Hx%list_elem_of_In. f_equal. apply bool_decide_ext. rewrite visit_tasks by done.
    rewrite fmap_app, elem_of_app. destruct (bool_decide _); cbn; [set_solver|]. rewrite list_elem_of_singleton. split; [|by left].
    intros [?| ->]; done. }
  rewrite Hm. unfold missing. destruct (bool_decide (s ∈ (tasks c).*1)); cbn; [by rewrite app_nil_r|]. by rewrite <- app_assoc.
Qed.

Fixpoint run {S} (step : event -> S -> option S) (es : list event) (s : S) : option S :=
  match es with
  | [] => Some s
  | e :: es => match step e s with Some s' => run step es s' | None => None end
  end.

Section Polling.
Context (collate : string -> string -> bool) (encrypt decrypt : string -> option string) (uuid_str : Uuid -> string).
Context (to_string : json -> option string) (mint : Uuid -> Uuid -> Uuid * Z * result Keypair wg_error).
Context (spec_hash : Pb.NodeSpec -> string) (to_value : SpecSummary -> json).

#[local] Abbreviation step := (exec collate encrypt decrypt uuid_str to_string mint spec_hash to_value).
#[local] Abbreviation reached := (reachable collate encrypt decrypt uuid_str to_string mint spec_hash to_value).

Lemma visit_queue s rest c c' : active c = active c' -> tasks c = tasks c' ->
  visit s rest c = mkCollector rest (active (visit s [] c')) (tasks (visit s [] c')).
Proof. intros Ha Ht. unfold visit. rewrite <- Ha, <- Ht. by case_decide. Qed.

Lemma run_visits l w : forall c, run step (replicate (length l) Visit) (w, mkCollector l (active c) (tasks c)) =
  let c' := fold_left (fun c s => visit s [] c) l c in Some (w, mkCollector [] (active c') (tasks c')).
Proof.
  induction l as [|s l IH]; intros c; [done|]. cbn. rewrite (visit_queue s l _ c) by done. exact (IH (visit s [] c)).
Qed.

(** Agents answer the stream requests of the newest tasks, one after the other. *)
Lemma run_opened w new : forall old q act, (forall s, s ∈ new -> is_connected s.1 w = true) ->
  run step ((fun i => Opened i true) <$> seq (length old) (length new)) (w, mkCollector q act (old ++ ((fun s => (s, Opening)) <$> new)))
  = Some (w, mkCollector q act (old ++ ((fun s => (s, Reading)) <$> new))).
Proof.
  induction new as [|s new IH]; intros old q act Hc; [done|]. cbn [length seq fmap list_fmap run exec tasks].
  rewrite list_lookup_middle by done. rewrite (Hc s) by left. cbn [andb]. unfold with_task. cbn [queue active tasks].
  rewrite insert_app_r_alt, Nat.sub_diag by lia. cbn [insert list_insert].
  specialize (IH (old ++ [(s, Reading)]) q act). rewrite length_app, Nat.add_1_r, <- !app_assoc in IH. apply IH.
  intros x Hx. apply Hc. by right.
Qed.

Definition pairs (connected : list Uuid) : list (Uuid * CoreKind) := flat_map (fun id => (fun core => (id, core)) <$> CORES) connected.

Lemma pairs_in connected n core : (n, core) ∈ pairs connected <-> n ∈ connected /\ core ∈ CORES.
Proof.
  unfold pairs. rewrite list_elem_of_In, in_flat_map. split.
  - intros (x & Hx & (k & [= -> ->] & Hk)%list_elem_of_In%list_elem_of_fmap). split; [by apply list_elem_of_In|done].
  - intros [Hn Hc]. exists n. split; [by apply list_elem_of_In|]. by apply list_elem_of_In, list_elem_of_fmap_2.
Qed.

Lemma pairs_nodup connected : NoDup connected -> NoDup (pairs connected) /\ length (pairs connected) = (2 * length connected)%nat.
Proof.
  induction connected as [|n l IH]; [by split; [constructor|]|]. intros [Hn Hnd]%NoDup_cons. destruct (IH Hnd) as [H1 H2].
  assert (Hno : forall core, (n, core) ∉ pairs l) by (intros core [? _]%pairs_in; done).
  split; [|unfold pairs in *; cbn in *; lia]. cbn. apply NoDup_cons. split; [|apply NoDup_cons; split; [apply Hno|done]].
  intros [?|?]%elem_of_cons; [done|by eapply Hno].
Qed.

(** C17: However streams open, break and reopen, the collector has at most one task
    per node and core, and its set of active keys is exactly those of its tasks.  A turn
    of the poll loop on the leader, its tick and one visit for each connected node and
    core, starts a task for exactly the pairs that have none and leaves the tasks that
    were there as they were; once the agents answer, each of the new tasks reads its
    stream.  On an instance that does not hold the lease a tick starts nothing. *)
Theorem one_stream_each w c : reached (w, c) ->
  NoDup (tasks c).*1 /\ (forall s, key_of s ∈ active c <-> s ∈ (tasks c).*1)
  /\ (queue c = [] -> forall connected, NoDup connected -> list_to_set connected = connected_ids w ->
       run step [Tick false connected] (w, c) = Some (w, c)
       /\ exists new c' c'',
            (forall n core, (n, core) ∈ new <-> is_connected n w = true /\ core ∈ CORES /\ (n, core) ∉ (tasks c).*1)
            /\ run step (Tick true connected :: replicate (2 * length connected) Visit) (w, c) = Some (w, c')
            /\ queue c' = [] /\ tasks c' = tasks c ++ ((fun s => (s, Opening)) <$> new)
            /\ run step ((fun i => Opened i true) <$> seq (length (tasks c)) (length new)) (w, c') = Some (w, c'')
            /\ tasks c'' = tasks c ++ ((fun s => (s, Reading)) <$> new)).
Proof.
  intros Hr%reached_once. cbn in Hr. split; [by destruct Hr|]. split; [intros s; by apply key_active|].
  intros Hq connected Hnd Hcs.
  assert (Hg : negb (bool_decide (queue c = []) && bool_decide (NoDup connected) && bool_decide (list_to_set connected = connected_ids w)) = false)
    by (by rewrite !bool_decide_eq_true_2).
  split; [cbn; by rewrite Hg|]. destruct (pairs_nodup connected Hnd) as [Hpn Hpl].
  assert (Hin : forall n core, (n, core) ∈ missing (pairs connected) c <-> is_connected n w = true /\ core ∈ CORES /\ (n, core) ∉ (tasks c).*1).
  { intros n core. unfold missing. rewrite list_elem_of_In, List.filter_In, <- list_elem_of_In, pairs_in, negb_true_iff, bool_decide_eq_false.
    assert (Hco : n ∈ connected <-> is_connected n w = true); [|tauto].
    rewrite <- (elem_of_list_to_set (C := gset Uuid)), Hcs. unfold connected_ids, is_connected, client_of. rewrite elem_of_dom.
    destruct (conns w !! n); split; done || by intros []. }
  exists (missing (pairs connected) c). do 2 eexists. split; [exact Hin|]. split.
  - rewrite <- Hpl. cbn [run exec]. rewrite Hg. exact (run_visits (pairs connected) w c).
  - cbn [queue tasks]. split; [done|]. rewrite visits_tasks by done. split; [done|]. split; [apply run_opened|done].
    intros [n core] Hx. by apply Hin in Hx as [? _].
Qed.
End Polling.

(** ** A crossed quota takes the user off the node *)

Definition under (u : User.User) : Prop := User.used_traffic_bytes u < User.traffic_limit_bytes u.

Lemma record_under now n uid core epoch up down db c db' k u :
  record_traffic now n uid core epoch up down db = Ok (c, db') -> users db !! k = Some u ->
  exists u', users db' !! k = Some u' /\ User.traffic_limit_bytes u' = User.traffic_limit_bytes u
    /\ (c = false -> 0 < User.traffic_limit_bytes u -> under u -> under u').
Proof.
  intros H Hk. apply record_traffic_inv in H as (v & cnt & Hv & _ & _ & Hus & Hc & _). rewrite Hus.
  destruct (decide (k = uid)) as [->|Hne]; [|rewrite lookup_insert_ne by done; eauto].
  rewrite Hk in Hv. injection Hv as <-. rewrite lookup_insert_eq. eexists. split; [done|]. split; [done|].
  intros Hf Hl Hu. unfold under in *. subst c. cbn. destruct (Z.ltb_spec 0 (User.traffic_limit_bytes u)); [|lia].
  destruct (Z.ltb_spec (User.used_traffic_bytes u) (User.traffic_limit_bytes u)); [|lia]. cbn in Hf. by apply Z.leb_gt in Hf.
Qed.

Section Cutoff.
Context (collate : string -> string -> bool) (encrypt decrypt : string -> option string) (uuid_str : Uuid -> string).
Context (to_string : json -> option string) (mint : Uuid -> Uuid -> Uuid * Z * result Keypair wg_error).
Context (spec_hash : Pb.NodeSpec -> string) (to_value : SpecSummary -> json).

Lemma record_users_under now n core epoch stats : forall b db b' db' k u,
  record_users decrypt now n core epoch stats b db = (Ok b', db') -> users db !! k = Some u ->
  exists u', users db' !! k = Some u' /\ User.traffic_limit_bytes u' = User.traffic_limit_bytes u
    /\ (b' = false -> b = false /\ (0 < User.traffic_limit_bytes u -> under u -> under u')).
Proof.
  induction stats as [|s stats IH]; intros b db b' db' k u; cbn [record_users].
  { intros [= -> ->] Hk. eauto. }
  destruct (get_user_by_name _ _ _) as [[v|]|]; [|by eauto|done]. destruct (_ || _); [done|].
  destruct (record_traffic _ _ _ _ _ _ _ _) as [[c db1]|] eqn:Er; [|done]. intros H Hk.
  destruct (record_under _ _ _ _ _ _ _ _ _ _ _ _ Er Hk) as (u1 & Hk1 & Hl1 & Hu1).
  destruct (IH _ _ _ _ _ _ H Hk1) as (u2 & Hk2 & Hl2 & Hu2). exists u2. split; [done|]. split; [congruence|].
  intros Hb. destruct (Hu2 Hb) as [[-> ->]%orb_false_iff H2]. split; [done|]. intros Hl Hun. apply H2; [lia|]. by apply Hu1.
Qed.

(** Whom a built spec serves, with the rows they come from. *)
Lemma served_from now node_id pl spec peers pb pu :
  build_node_spec collate encrypt decrypt uuid_str to_string mint now node_id pl = (Ok spec, peers) ->
  In pb (Pb.inbounds spec) -> In pu (Pb.users pb) ->
  (exists k row u ib, users (tables pl) !! k = Some row /\ decrypt_user decrypt row = Ok u /\ User.is_active now u = true
     /\ pu = served_user ib u)
  \/ exists ib c, pu = chained_user ib c.
Proof.
  intros (rows_ & us & _ & _ & Hus & Hb & _)%build_node_spec_inv Hpb Hpu.
  destruct (try_map_in _ _ _ _ Hb Hpb) as (ib & _ & (_ & _ & _ & ch & _ & Hl)%build_inbound_inv). rewrite Hl in Hpu.
  apply in_app_iff in Hpu as [Hpu|Hpu]; apply in_map_iff in Hpu as (u & <- & Hu); [|by eauto]. left.
  apply List.filter_In in Hu as [Hu Ha]. eapply users_with_node_access_in in Hu as (row & Hrow & _ & Hd); [|exact Hus].
  apply in_rows in Hrow as [k Hk]. eauto 10.
Qed.

Lemma over_inactive now u u' : decrypt_user decrypt u = Ok u' -> 0 < User.traffic_limit_bytes u -> ~ under u -> User.is_active now u' = false.
Proof.
  unfold decrypt_user. destruct (decrypt (User.uuid u)), (decrypt (User.password u)); try done. intros [= <-] Hl Hu. unfold under in Hu. unfold User.is_active, User.suppressed_reason. cbn.
  destruct (User.enabled u); [|done]. cbn. destruct (is_some_and _ _); [done|].
  destruct (Z.ltb_spec 0 (User.traffic_limit_bytes u)); [|lia]. destruct (Z.leb_spec (User.traffic_limit_bytes u) (User.used_traffic_bytes u)); [done|lia].
Qed.

(** C15: A user whose quota a sample exhausts is off the node at once: when the
    sample has been taken, with automatic pushes on, the agent runs a spec all of
    whose users are other, active users, or belong to chains. *)
Theorem quota_cutoff auto_push_enabled now event r node_id core sample w w' k u u' :
  take_sample collate encrypt decrypt uuid_str to_string mint spec_hash to_value auto_push_enabled now event r node_id core sample w = (Ok tt, w') ->
  auto_push_enabled <> 0 ->
  users (tables (plane w)) !! k = Some u -> users (tables (plane w')) !! k = Some u' ->
  0 < User.traffic_limit_bytes u -> User.used_traffic_bytes u < User.traffic_limit_bytes u ->
  User.traffic_limit_bytes u' <= User.used_traffic_bytes u' ->
  exists spec, running w' !! node_id = Some spec /\ forall pb pu, In pb (Pb.inbounds spec) -> In pu (Pb.users pb) ->
    (exists j row v ib, j <> k /\ users (tables (plane w')) !! j = Some row /\ decrypt_user decrypt row = Ok v
       /\ User.is_active now v = true /\ pu = served_user ib v)
    \/ exists ib c, pu = chained_user ib c.
Proof.
  intros H Hap Hk Hk' Hl Hu Hu'. unfold take_sample in H.
  destruct (record_users _ _ _ _ _ _ _ _) as [[b|] db] eqn:Er; [|done].
  destruct (record_users_under _ _ _ _ _ _ _ _ _ _ _ Er Hk) as (u1 & Hk1 & Hl1 & Hun). destruct b.
  - unfold auto_push in H. destruct (Z.eqb_spec auto_push_enabled 0); [done|].
    destruct (push_with_context _ _ _ _ _ _ _ _ _ _ _ _ _ _ _) as [[m|] w1] eqn:Ep; [|done]. injection H as <-.
    apply pushed_inv in Ep as (spec & peers & Hb & Hr & Hus & _). exists spec. rewrite Hr, lookup_insert_eq. split; [done|].
    intros pb pu Hpb Hpu. destruct (served_from _ _ _ _ _ _ _ Hb Hpb Hpu) as [(j & row & v & ib & Hj & Hd & Ha & ->)|Hc]; [|by right].
    left. exists j, row, v, ib. rewrite Hus. split; [|done]. intros ->. rewrite Hus in Hk'. cbn in Hk', Hj.
    assert (row = u') as -> by congruence. assert (u1 = u') as -> by congruence.
    rewrite (over_inactive now u' v Hd) in Ha; [done|lia|unfold under; lia].
  - injection H as <-. cbn in Hk'. assert (u1 = u') as -> by congruence. destruct (Hun eq_refl) as [_ Hlow]. specialize (Hlow Hl Hu). unfold under in Hlow. lia.
Qed.
End Cutoff.

(** ** Windows turn over *)

Section Windows.
Context (collate : string -> string -> bool) (encrypt decrypt : string -> option string) (uuid_str : Uuid -> string).
Context (to_string : json -> option string) (mint : Uuid -> Uuid -> Uuid * Z * result Keypair wg_error).
Context (spec_hash : Pb.NodeSpec -> string) (to_value : SpecSummary -> json).

#[local] Abbreviation auto := (auto_push collate encrypt decrypt uuid_str to_string mint spec_hash to_value).
#[local] Abbreviation push_all := (push_connected collate encrypt decrypt uuid_str to_string mint spec_hash to_value).
#[local] Abbreviation turn := (quota_user collate encrypt decrypt uuid_str to_string mint spec_hash to_value).
#[local] Abbreviation loop := (quota_loop collate encrypt decrypt uuid_str to_string mint spec_hash to_value).

(** A push writes to the nodes and the WireGuard peers only. *)
Definition same_usage (w w' : World) : Prop :=
  users (tables (plane w')) = users (tables (plane w)) /\ node_user_traffic (tables (plane w')) = node_user_traffic (tables (plane w)).

Lemma auto_push_usage ape now event r id w : same_usage w (auto ape now event r id w).2.
Proof.
  unfold auto_push. destruct (ape =? 0); [done|]. unfold push_with_context, Push.build.
  destruct (build_node_spec _ _ _ _ _ _ _ _ _) as [[spec|] peers]; [|done]. cbn. unfold apply.
  destruct (is_connected id _); [|done]. by destruct r as [| |[]].
Qed.

Lemma pushes_usage ape now answers l : forall w, same_usage w (fold_left (push_all ape now answers) l w).
Proof.
  induction l as [|id l IH]; intros w; [done|]. cbn. unfold same_usage. destruct (IH (push_all ape now answers w id)) as [-> ->]. unfold push_connected.
  destruct (is_connected id w); [apply auto_push_usage|done].
Qed.

(** A window's end as a due row sees it; a row that does not decrypt keeps its boundary. *)
Definition turned (now : Z) (interval : string) (u : User.User) : User.User :=
  let v := User.with_used 0 now u in
  if readable decrypt v then User.with_quota (User.quota_interval u) (Some (next_boundary now interval)) now v else v.

Definition smooth (env : QuotaEnv) : Prop := resets env = true /\ advances env = true.

Lemma turn_usage ape now env due s : smooth env ->
  users (tables (plane (floor (turn ape now env due s)))) = alter (turned now due.2) due.1 (users (tables (plane (floor s))))
  /\ node_user_traffic (tables (plane (floor (turn ape now env due s))))
     = filter (fun kc => (counter_user kc.1 =? due.1) = false) (node_user_traffic (tables (plane (floor s)))).
Proof.
  intros [Hr Ha]. unfold quota_user. rewrite Hr, Ha. cbn [negb]. unfold reset_user_traffic. cbn [users with_counters].
  destruct (users (tables (plane (floor s))) !! due.1) as [u|] eqn:Hu; cbn [is_some_and].
  - assert (Hal : forall f, <[due.1 := f u]> (users (tables (plane (floor s)))) = alter f due.1 (users (tables (plane (floor s))))).
    { intros f. apply map_eq. intros k. destruct (decide (k = due.1)) as [->|Hne]; [by rewrite lookup_insert_eq, lookup_alter_eq, Hu|].
      by rewrite lookup_insert_ne, lookup_alter_ne by done. }
    rewrite <- Hal. unfold turned. destruct (readable decrypt _); [|done]. cbn [negb floor raise_alert on_floor].
    match goal with |- context [fold_left (push_all ape now (pushes env)) ?l ?w] => destruct (pushes_usage ape now (pushes env) l w) as [-> ->] end.
    cbn. unfold advance_quota_reset. cbn. rewrite lookup_insert_eq. cbn. split; [|done]. by rewrite insert_insert_eq.
  - cbn [floor raise_alert on_floor].
    match goal with |- context [fold_left (push_all ape now (pushes env)) ?l ?w] => destruct (pushes_usage ape now (pushes env) l w) as [-> ->] end.
    cbn. unfold advance_quota_reset. cbn. rewrite Hu. cbn. split; [|done]. apply map_eq. intros k.
    destruct (decide (k = due.1)) as [->|Hne]; [by rewrite lookup_alter_eq, Hu|by rewrite lookup_alter_ne].
Qed.

Lemma turns_usage ape now env l : (forall id, smooth (env id)) -> NoDup l.*1 -> forall s,
  let s' := fold_left (fun s due => turn ape now (env due.1) due s) l s in
  (forall k i, (k, i) ∈ l -> users (tables (plane (floor s'))) !! k = turned now i <$> users (tables (plane (floor s))) !! k)
  /\ (forall k, k ∉ l.*1 -> users (tables (plane (floor s'))) !! k = users (tables (plane (floor s))) !! k)
  /\ forall key, node_user_traffic (tables (plane (floor s'))) !! key
       = if decide (counter_user key ∈ l.*1) then None else node_user_traffic (tables (plane (floor s))) !! key.
Proof.
  intros Hs. induction l as [|d l IH]; intros Hnd s; cbn.
  { split; [intros ? ? H; by apply not_elem_of_nil in H|]. split; [done|]. intros key. by rewrite decide_False by apply not_elem_of_nil. }
  apply NoDup_cons in Hnd as [Hd Hnd]. destruct (IH Hnd (turn ape now (env d.1) d s)) as (H1 & H2 & H3).
  destruct (turn_usage ape now (env d.1) d s (Hs d.1)) as [Hu Hc]. repeat split.
  - intros k i Hin. apply elem_of_cons in Hin as [Heq|Hin]; [subst d; cbn in *|].
    + by rewrite H2, Hu, lookup_alter_eq.
    + rewrite (H1 k i Hin), Hu, lookup_alter_ne; [done|]. intros <-. apply Hd. by apply (list_elem_of_fmap_2 fst) in Hin.
  - intros k Hk. apply not_elem_of_cons in Hk as [Hk1 Hk2]. rewrite H2, Hu, lookup_alter_ne by done. done.
  - intros key. rewrite H3, Hc. destruct (decide (counter_user key ∈ l.*1)) as [Hin|Hout].
    + rewrite decide_True; [done|]. by right.
    + destruct (decide (counter_user key = d.1)) as [He|He].
      * rewrite decide_True by (rewrite He; by left). apply map_lookup_filter_None. right. intros x _. cbn. rewrite He, Z.eqb_refl. done.
      * rewrite decide_False by (intros [?|?]%elem_of_cons; done).
        destruct (node_user_traffic _ !! key) as [c|] eqn:E.
        -- apply map_lookup_filter_Some. split; [done|]. cbn. by apply Z.eqb_neq.
        -- apply map_lookup_filter_None. by left.
Qed.

Lemma due_resets_in now db k i : (k, i) ∈ due_quota_resets now db <-> exists u, users db !! k = Some u /\ quota_due now u = true /\ i = User.quota_interval u.
Proof.
  unfold due_quota_resets. rewrite list_elem_of_fmap. split.
  - intros ([k' u] & [= -> ->] & [Hin%list_elem_of_In%elem_of_map_to_list Hd]%list_elem_of_In%List.filter_In). by exists u.
  - intros (u & Hu & Hd & ->). exists (k, u). split; [done|]. apply list_elem_of_In, List.filter_In. split; [|done].
    by apply list_elem_of_In, elem_of_map_to_list.
Qed.

Lemma due_ids now db k : k ∈ (due_quota_resets now db).*1 <-> exists u, users db !! k = Some u /\ quota_due now u = true.
Proof.
  rewrite list_elem_of_fmap. split.
  - intros ([k' i] & -> & (u & Hu & Hd & _)%due_resets_in). by exists u.
  - intros (u & Hu & Hd). exists (k, User.quota_interval u). split; [done|]. apply due_resets_in. by exists u.
Qed.

Lemma due_resets_nodup now db : NoDup (due_quota_resets now db).*1.
Proof.
  unfold due_quota_resets. rewrite <- list_fmap_compose. change (fst ∘ ?f) with (fst : Uuid * User.User -> Uuid).
  assert (H := NoDup_fst_map_to_list (users db)). revert H. generalize (map_to_list (users db)) as l. induction l as [|[k u] l IH]; [done|].
  cbn. intros [Hk Hn]%NoDup_cons. destruct (quota_due now u); [|auto]. cbn. apply NoDup_cons. split; [|auto].
  intros ([k' v] & -> & [Hin _]%list_elem_of_In%List.filter_In)%list_elem_of_fmap. apply Hk. apply list_elem_of_In in Hin. by apply (list_elem_of_fmap_2 fst) in Hin.
Qed.

Lemma decrypt_used v now u : readable decrypt (User.with_used v now u) = readable decrypt u.
Proof. unfold readable, decrypt_user. cbn. by destruct (decrypt (User.uuid u)), (decrypt (User.password u)). Qed.

Lemma zeroed_active now u : User.used_traffic_bytes u = 0 -> User.enabled u = true ->
  is_some_and (User.expires_at u) (fun e => e <=? now) = false -> User.is_active now u = true.
Proof.
  intros H0 He Hx. unfold User.is_active, User.suppressed_reason. rewrite H0, He, Hx. cbn.
  destruct (0 <? User.traffic_limit_bytes u) eqn:El; [|done]. breflect. by destruct (Z.leb_spec (User.traffic_limit_bytes u) 0); [lia|].
Qed.

(** C18: One turn of the quota loop in which the queries get through ends exactly the
    windows that are due.  A due user starts over at zero with no counters left,
    active again unless disabled or expired, and due next a whole window later; every
    other user and counter is as it was.  A user whose secrets do not decrypt is
    zeroed too but stays due, so that each turn zeroes it again. *)
Theorem windows_turn ape now env s : (forall id, smooth (env id)) ->
  let w' := floor (loop true true ape now env s) in
  (forall k u, users (tables (plane (floor s))) !! k = Some u ->
     if quota_due now u
     then exists u', users (tables (plane w')) !! k = Some u' /\ User.used_traffic_bytes u' = 0
          /\ (User.enabled u = true -> is_some_and (User.expires_at u) (fun e => e <=? now) = false -> User.is_active now u' = true)
          /\ (readable decrypt u = true -> User.quota_reset_at u' = Some (next_boundary now (User.quota_interval u)) /\ quota_due now u' = false)
          /\ (readable decrypt u = false -> forall later, now <= later -> quota_due later u' = true)
     else users (tables (plane w')) !! k = Some u)
  /\ forall key, node_user_traffic (tables (plane w')) !! key
       = if is_some_and (users (tables (plane (floor s))) !! counter_user key) (quota_due now) then None
         else node_user_traffic (tables (plane (floor s))) !! key.
Proof.
  intros Hs. cbv zeta. unfold quota_loop. cbn [negb].
  set (db := tables (plane (floor s))). assert (H := turns_usage ape now env (due_quota_resets now db) Hs (due_resets_nodup now db) s). cbv zeta in H.
  destruct H as (H1 & H2 & H3). split.
  - intros k u Hu. destruct (quota_due now u) eqn:Hd.
    + rewrite (H1 k (User.quota_interval u)) by (apply due_resets_in; eauto). fold db. rewrite Hu. eexists. split; [done|].
      unfold turned. rewrite decrypt_used. destruct (readable decrypt u); cbn.
      * split; [done|]. split; [intros; by apply zeroed_active|]. split; [|done]. split; [done|].
        unfold quota_due. cbn. apply andb_false_iff. right. unfold next_boundary, Traffic.days. apply Z.leb_gt. destruct (String.eqb _ _); lia.
      * split; [done|]. split; [intros; by apply zeroed_active|]. split; [done|]. intros _ later Hl. revert Hd. unfold quota_due. cbn.
        destruct (negb _); [|done]. destruct (User.quota_reset_at u); [|done]. cbn. intros ?%Z.leb_le. apply Z.leb_le. lia.
    + rewrite H2; [done|]. intros (v & Hv & Hdv)%due_ids. congruence.
  - intros key. rewrite H3. case_decide as Hin.
    + apply due_ids in Hin as (u & Hu & Hd). fold db. by rewrite Hu; cbn; rewrite Hd.
    + fold db. destruct (users db !! counter_user key) as [u|] eqn:Hu; [|done]. cbn. destruct (quota_due now u) eqn:Hd; [|done].
      exfalso. apply Hin, due_ids. eauto.
Qed.
End Windows.

(** ** Two instances *)

(** Two instances on one database and one agent: an event of the first ([false]) or
    of the second ([true]). *)
Definition exec_two (step : event -> World * Collector -> option (World * Collector)) (e : bool * event)
    (st : World * (Collector * Collector)) : option (World * (Collector * Collector)) :=
  let '(w, (a, b)) := st in
  if e.1 then match step e.2 (w, b) with Some (w, b) => Some (w, (a, b)) | None => None end
  else match step e.2 (w, a) with Some (w, a) => Some (w, (a, b)) | None => None end.

Fixpoint run_two (step : event -> World * Collector -> option (World * Collector)) (es : list (bool * event)) (st : World * (Collector * Collector))
    : option (World * (Collector * Collector)) :=
  match es with
  | [] => Some st
  | e :: es => match exec_two step e st with Some st' => run_two step es st' | None => None end
  end.

(** Only the given instance polls as the leader. *)
Definition led_by (i : bool) (es : list (bool * event)) : Prop :=
  forall j connected, In (j, Tick true connected) es -> j = i.

#[local] Abbreviation plain_exec := (exec String.leb Some Some (fun _ => "id") (fun _ => Some "{}") sample_mint sample_hash (fun _ => JNull)).

(** A user that has used nothing yet. *)
Definition untouched : World := on_tables (with_users (fun _ => {[7 := Traffic.sample_user 7 "alice" 1000 0]})) sample_world.

(** What a run leaves the user charged with. *)
Definition charged (es : list (bool * event)) : option Z :=
  match run_two plain_exec es (untouched, (idle, idle)) with
  | Some (w, _) => User.used_traffic_bytes <$> users (tables (plane w)) !! 7
  | None => None
  end.

(** The counter values the stream of one instance delivers, in order. *)
Definition delivered (i : bool) (es : list (bool * event)) : list Z :=
  flat_map (fun e => match e with
                     | (j, Sampled _ _ _ _ _ sm) => if Bool.eqb i j then (fun u => us_up u + us_down u) <$> s_users sm else []
                     | _ => []
                     end) es.

(** The agent's counter of the user shows [up]; the agent does not restart. *)
Definition reading (up : Z) : event := Sampled 0 0 up up (AgentOk "") (mkSample "boot" [mkUserStat "alice" up 0]).
Definition start : list event := [Tick true [1]; Visit; Visit; Opened 0 true].

(** The first instance leads and reads 0; the lease passes to the second, which reads
    100; then the first delivers the 10 its stream still held, and the second reads
    on. *)
Definition first_reign : list (bool * event) := (pair false <$> start) ++ [(false, reading 0)].
Definition second_reign : list (bool * event) :=
  (false, Tick false [1]) :: (pair true <$> start) ++ [(true, reading 100); (false, reading 10); (true, reading 100)].


(** ** The other loops *)

Section Others.
Context (collate : string -> string -> bool) (encrypt decrypt : string -> option string) (uuid_str : Uuid -> string).
Context (to_string : json -> option string) (mint : Uuid -> Uuid -> Uuid * Z * result Keypair wg_error).
Context (spec_hash : Pb.NodeSpec -> string) (to_value : SpecSummary -> json) (db_upper : string -> string).

#[local] Abbreviation watch := (tick_node_alert collate encrypt decrypt uuid_str to_string mint spec_hash to_value db_upper).
#[local] Abbreviation plain_tick_node := (tick_node collate encrypt decrypt uuid_str to_string mint spec_hash to_value db_upper).

Lemma watch_floor ape now m env n s : floor (watch ape now m env n s) = plain_tick_node ape now env n (floor s).
Proof.
  unfold tick_node_alert, tick_node. destruct (negb (Node.enabled n)); [done|].
  destruct (negb (String.eqb (Node.transport n) "dial") && _); cbn [floor on_floor].
  all: destruct (negb (is_connected _ _)); [done|]; destruct (heartbeat _ _ _ _) as [[] w]; [by destruct (ape =? 0)|done].
Qed.

(** The loop does to the world what [Push.tick] does, and waits between five
    seconds and a day. *)
Lemma reconcile_loop_ticks leader lists now interval settings moments env s :
  let '(s', secs) := reconcile_loop collate encrypt decrypt uuid_str to_string mint spec_hash to_value db_upper leader lists now interval
                       settings moments env s in
  floor s' = (if leader && lists
              then tick collate encrypt decrypt uuid_str to_string mint spec_hash to_value db_upper
                     (setting_i64 (settings "auto_push_enabled") 1) now env (floor s)
              else floor s)
  /\ 5 <= secs <= 86400.
Proof.
  unfold reconcile_loop. split; [|unfold clamp; lia]. destruct (leader && lists); [|done]. unfold tick.
  generalize (list_nodes (floor s)) as l. intros l. revert s. induction l as [|n l IH]; intros s; [done|]. cbn [fold_left]. by rewrite IH, watch_floor.
Qed.
End Others.

(** Whatever is stored as the retention period, the last week of history is kept
    and nothing is kept beyond ten years. *)
Theorem retention_bounded now setting db key b : traffic_usage_hourly db !! key = Some b ->
  (now - Traffic.days 7 <= key.1 -> traffic_usage_hourly (retention true true now setting db) !! key = Some b)
  /\ (key.1 < now - Traffic.days 3650 -> traffic_usage_hourly (retention true true now setting db) !! key = None).
Proof.
  intros Hb. unfold retention, delete_traffic_history_before, bounded_history_days, Traffic.days. cbn [negb traffic_usage_hourly with_hourly].
  generalize (setting_i64 setting DEFAULT_TRAFFIC_HISTORY_DAYS) as v. intros v. assert (7 <= clamp 7 3650 v <= 3650) by (unfold clamp; lia). split.
  - intros Hk. apply map_lookup_filter_Some. split; [done|]. cbn. apply Z.ltb_ge. lia.
  - intros Hk. apply map_lookup_filter_None. right. intros x _. cbn. apply not_false_iff_true, Z.ltb_lt. lia.
Qed.

(** ** Examples *)

#[local] Abbreviation on_sample f := (f String.leb Some Some (fun _ : Uuid => "id") (fun _ : json => Some "{}") sample_mint sample_hash (fun _ : SpecSummary => JNull)).

Lemma one_stream_each_witness : exists n c' c'',
  run plain_exec [Tick true [1]; Visit; Visit] (sample_world, idle) = Some (sample_world, c')
  /\ run plain_exec ((fun i => Opened i true) <$> seq 0 n) (sample_world, c') = Some (sample_world, c'') /\ ((1, Xray), Reading) ∈ tasks c''.
Proof.
  destruct (proj2 (proj2 (on_sample one_stream_each sample_world idle (reachable_start _ _ _ _ _ _ _ _ sample_world))) eq_refl [1])
    as (_ & new & c' & c'' & Hn & Hr & _ & _ & Ho & Ht); [apply NoDup_singleton|vm_compute; reflexivity|].
  exists (length new), c', c''. split; [exact Hr|]. split; [exact Ho|]. rewrite Ht. apply (list_elem_of_fmap_2 (fun s => (s, Reading)) new).
  apply Hn. split; [vm_compute; reflexivity|]. split; [right; left|]. cbn. apply not_elem_of_nil.
Defined.

Definition near_quota : World :=
  on_tables (with_counters <[(1, 7, "singbox") := mkCounter 40 0 40 0 "boot" 0]>) sample_world.
Definition exhausting : Sample := mkSample "boot" [mkUserStat "alice" 150 0].
Definition cut_off : result unit stat_error * World := on_sample take_sample 1 5 1 (AgentOk "ok") 1 Singbox exhausting near_quota.

Lemma quota_cutoff_witness : exists w' spec, cut_off = (Ok tt, w') /\ running w' !! 1 = Some spec.
Proof.
  assert (H : exists w' u u', cut_off = (Ok tt, w') /\ users (tables (plane near_quota)) !! 7 = Some u /\ users (tables (plane w')) !! 7 = Some u'
            /\ 0 < User.traffic_limit_bytes u /\ User.used_traffic_bytes u < User.traffic_limit_bytes u
            /\ User.traffic_limit_bytes u' <= User.used_traffic_bytes u')
    by (do 3 eexists; split; [vm_compute; reflexivity|split; [vm_compute; reflexivity|split; [vm_compute; reflexivity|split; [vm_compute; reflexivity|split; [vm_compute; reflexivity|vm_compute; discriminate]]]]]).
  destruct H as (w' & u & u' & Hc & Hu & Hu' & H1 & H2 & H3).
  destruct (on_sample quota_cutoff 1 5 1 (AgentOk "ok") 1 Singbox exhausting near_quota w' 7 u u' Hc ltac:(discriminate) Hu Hu' H1 H2 H3)
    as (spec & Hs & _). exists w', spec. split; [exact Hc|exact Hs].
Defined.

Definition calm : Uuid -> QuotaEnv := fun _ => mkQuotaEnv true true true (fun _ => (1, AgentOk "ok")) (moment 1 9) "1970-01-01".
Definition windowed : Floor :=
  mkFloor (on_tables (with_users (fun _ => {[7 := User.with_quota "daily" (Some 3) 0 (Traffic.sample_user 7 "alice" 100 100)]})) sample_world) (mkPanel quiet ∅).

Lemma windows_turn_witness : exists u',
  users (tables (plane (floor (on_sample quota_loop true true 1 9 calm windowed)))) !! 7 = Some u' /\ User.is_active 9 u' = true.
Proof.
  assert (Hc : forall id, smooth (calm id)) by (intros id; split; reflexivity).
  destruct (proj1 (on_sample windows_turn 1 9 calm windowed Hc) 7 (User.with_quota "daily" (Some 3) 0 (Traffic.sample_user 7 "alice" 100 100)) ltac:(vm_compute; reflexivity))
    as (u' & Hu & _ & Ha & _). exists u'. split; [exact Hu|]. apply Ha; reflexivity.
Defined.

Lemma retention_bounded_witness : exists b,
  traffic_usage_hourly (retention true true 0 (Ok (Some "-4")) (with_hourly <[(0, (1, 7, "singbox")) := mkBucket 5 6 0]> empty_db)) !! (0, (1, 7, "singbox")) = Some b.
Proof.
  exists (mkBucket 5 6 0).
  refine (proj1 (retention_bounded 0 (Ok (Some "-4")) (with_hourly <[(0, (1, 7, "singbox")) := mkBucket 5 6 0]> empty_db) (0, (1, 7, "singbox")) (mkBucket 5 6 0) _) _);
    vm_compute; [reflexivity|discriminate].
Defined.
