(* ===== verification/Agents.v ===== *)
(** * Channels to the agents and their certificates
    (src/master/src/agent_client.rs, src/master/src/tls.rs,
    src/master/src/tunnel.rs, src/master/src/pki.rs)

    How the master signs a node's certificate with the openssl command, which
    certificates it shows and accepts on a TLS stream, and how a stream becomes a
    channel of the registry, dialled by either side.  The PEM and URL parsers, TLS,
    SHA-256, the openssl command and the generated ids are parameters; files are a
    map from paths to contents. *)

From S2P Require Import Prelude Strings Json Models Db Access Wg Subscription SubPage Spec Enroll Push Live.

Definition Files : Type := gmap string string.

(** [Path::join] with a plain file name. *)
Definition join_path (dir name : string) : string :=
  if is_empty dir || ends_with "/" dir then dir +:+ name else dir +:+ "/" +:+ name.

Inductive agent_error :=
| NoFile (path : string)
| BadPem (path : string)
| NoCertificates (path : string)
| NoKey (path : string)
| BadRoot
| BadIdentity
| BadEndpoint
| BadServerName
| Unreachable
| HandshakeFailed
| NoPeerCertificate
| StreamConsumed
| RpcFailed
| ApplyRejected (message : string)
| NodeIdNotUuid (id : string)
| UnknownNode (id : Uuid)
| NodeDisabled (id : Uuid)
| NotDialTransport (transport : string)
| CertificateNotActive.

(** ** TLS (tls.rs) *)

(** [format!("{byte:02X}")] of every byte. *)
Definition hex_upper (bs : list Z) : string := to_ascii_uppercase (hex bs).

Definition certificate_fingerprint (sha256 : string -> list Z) (certificate_der : string) : string :=
  hex_upper (sha256 certificate_der).

Record ClientConfig := mkConfig {
  cc_roots : list string;
  cc_identity : list string;
  cc_key : string;
  cc_alpn : list string }.

Definition with_grpc_alpn (c : ClientConfig) : ClientConfig := mkConfig (cc_roots c) (cc_identity c) (cc_key c) ["h2"].

Section Tls.
Context (pem_certs : string -> option (list string)) (pem_key : string -> option (option string)).
Context (root_ok : string -> bool) (identity_ok : list string -> string -> bool).

Definition read_file (fs : Files) (path : string) : result string agent_error :=
  match fs !! path with Some s => Ok s | None => Err (NoFile path) end.

Definition load_certs (fs : Files) (path : string) : result (list string) agent_error :=
  let? data := read_file fs path in
  match pem_certs data with
  | None => Err (BadPem path)
  | Some [] => Err (NoCertificates path)
  | Some certs => Ok certs
  end.

Definition load_key (fs : Files) (path : string) : result string agent_error :=
  let? data := read_file fs path in
  match pem_key data with
  | None => Err (BadPem path)
  | Some None => Err (NoKey path)
  | Some (Some key) => Ok key
  end.

Definition client_config_of (roots identity : list string) (key : string) : result ClientConfig agent_error :=
  if negb (identity_ok identity key) then Err BadIdentity
  else Ok (with_grpc_alpn (mkConfig roots identity key [])).

Definition rustls_client_config (fs : Files) (certs_dir : string) : result ClientConfig agent_error :=
  let? roots := load_certs fs (join_path certs_dir "ca.crt") in
  if negb (forallb root_ok roots) then Err BadRoot else
  let? identity := load_certs fs (join_path certs_dir "master.crt") in
  let? key := load_key fs (join_path certs_dir "master.key") in
  client_config_of roots identity key.

(** The acceptor has its own reader, which takes a file without certificates. *)
Definition tunnel_load_certs (fs : Files) (path : string) : result (list string) agent_error :=
  let? data := read_file fs path in
  match pem_certs data with None => Err (BadPem path) | Some certs => Ok certs end.

Definition tunnel_client_config (fs : Files) (certs_dir : string) : result ClientConfig agent_error :=
  let? roots := tunnel_load_certs fs (join_path certs_dir "ca.crt") in
  if negb (forallb root_ok roots) then Err BadRoot else
  let? identity := tunnel_load_certs fs (join_path certs_dir "master.crt") in
  let? key := load_key fs (join_path certs_dir "master.key") in
  client_config_of roots identity key.

(** ** The client (agent_client.rs) *)

(** The connector handed to the gRPC library yields its stream once. *)
Definition connector (slot : option Stream) : result Stream agent_error * option Stream :=
  match slot with
  | Some s => (Ok s, None)
  | None => (Err StreamConsumed, None)
  end.

(** The answers to successive calls of the connector. *)
Fixpoint connections (n : nat) (slot : option Stream) : list (result Stream agent_error) :=
  match n with
  | O => []
  | S n => let '(r, slot) := connector slot in r :: connections n slot
  end.

Context (sha256 : string -> list Z).
Context (url_host_port : string -> option (option string * option Z)) (server_name_ok : string -> bool).

Definition peer_fingerprint (s : Stream) : result string agent_error :=
  match mbind (M := option) head (st_peer s) with
  | Some certificate => Ok (certificate_fingerprint sha256 certificate)
  | None => Err NoPeerCertificate
  end.

(** The channel over the stream the fingerprint was taken from; [preface] says
    whether the gRPC handshake on it gets through. *)
Definition channel_over (preface : bool) (s : Stream) : result AgentClient agent_error :=
  let? fingerprint := peer_fingerprint s in
  let? s := (connector (Some s)).1 in
  if preface then Ok (mkClient s fingerprint) else Err RpcFailed.

Definition connect (tcp : string -> Z -> bool) (tls : ClientConfig -> string -> option Stream) (preface : bool) (fs : Files)
    (endpoint certs_dir tls_server_name : string) : result AgentClient agent_error :=
  match url_host_port endpoint with
  | Some (Some host, Some port) =>
      if negb (tcp host port) then Err Unreachable else
      if negb (server_name_ok tls_server_name) then Err BadServerName else
      let? config := rustls_client_config fs certs_dir in
      match tls config tls_server_name with
      | None => Err HandshakeFailed
      | Some s => channel_over preface s
      end
  | _ => Err BadEndpoint
  end.
End Tls.

(** The states of a core on the wire; an unknown number reads as unspecified. *)
Definition core_state (n : Z) : CoreState := if n =? 1 then Stopped else if n =? 2 then Running else if n =? 3 then Errored else CoreUnspecified.

Definition ensure_apply_success (status : CoreStatus) : result CoreStatus agent_error :=
  match cs_state status with
  | Errored => Err (ApplyRejected (if is_empty (cs_message status) then "agent reported an errored core" else cs_message status))
  | _ => Ok status
  end.

(** [apply]; the call's answer is the state, process and message of the core, or a
    gRPC error. *)
Definition client_apply (answer : option (Z * Z * string)) : result CoreStatus agent_error :=
  match answer with
  | None => Err RpcFailed
  | Some (state, pid, message) => ensure_apply_success (mkStatus (core_state state) pid message)
  end.

(** [is_rpc_failure] tells a gRPC error from a refusal of the agent. *)
Definition is_rpc_failure (e : agent_error) : bool := match e with RpcFailed => true | _ => false end.

(** [logs]: the entries of a finite stream, or the error that broke it. *)
Fixpoint collect_logs {A} (stream : list (result A agent_error)) : result (list A) agent_error :=
  match stream with
  | [] => Ok []
  | Err e :: _ => Err e
  | Ok entry :: rest => let? entries := collect_logs rest in Ok (entry :: entries)
  end.

(** [ping]: the milliseconds between two readings of the clock. *)
Definition ping (sent received : Z) (answered : bool) : result Z agent_error :=
  if answered then Ok (received - sent) else Err RpcFailed.

(** ** The dial acceptor (tunnel.rs) *)

Record NodeIdentity := mkIdentity { who_node_id : string; who_agent_version : string; who_singbox_version : string }.

Section Tunnel.
Context (sha256 : string -> list Z) (parse_uuid : string -> option Uuid) (db_upper : string -> string).

(** One accepted connection: the TLS stream the agent serves on it, if the
    handshake gets through, and what the agent says it is. *)
Definition handle (now : Z) (tls : option Stream) (preface : bool) (whoru : option NodeIdentity) (w : World) : result unit agent_error * World :=
  match tls with
  | None => (Err HandshakeFailed, w)
  | Some stream =>
      match channel_over sha256 preface stream with
      | Err e => (Err e, w)
      | Ok client =>
          match whoru with
          | None => (Err RpcFailed, w)
          | Some who =>
              match parse_uuid (who_node_id who) with
              | None => (Err (NodeIdNotUuid (who_node_id who)), w)
              | Some node_id =>
                  match nodes (tables (plane w)) !! node_id with
                  | None => (Err (UnknownNode node_id), w)
                  | Some node =>
                      if negb (Node.enabled node) then (Err (NodeDisabled node_id), w)
                      else if negb (one_of ["dial"; "both"] (Node.transport node)) then (Err (NotDialTransport (Node.transport node)), w)
                      else if negb (authorize_certificate db_upper now node_id (peer_fingerprint_sha256 client) (certs w))
                      then (Err CertificateNotActive, w)
                      else (Ok tt, register node_id client (touch_node now node_id (who_agent_version who) (who_singbox_version who) w))
                  end
              end
          end
      end
  end.
End Tunnel.

(** ** Issuing certificates (pki.rs) *)

Inductive issue_error :=
| BadRequestPem
| CaMissing
| IoFailed
| NoRandom
| OpensslMissing
| OpensslFailed (stderr : string)
| NoFingerprint
| PathNotUtf8.

Record IssuedCertificate := mkIssuedPem { certificate_pem : string; ca_pem : string; issued : Issued }.

(** What openssl does: nothing when it cannot be run; else its exit status, its two
    outputs, and the files it leaves. *)
Record Process := mkProcess { success : bool; stdout : string; stderr : string; files : Files }.

(** What the disk refuses, by step. *)
Record Disk := mkDisk { makes_dir : bool; writes_csr : bool; writes_ext : bool; reads_back : bool }.

Section Pki.
Context (openssl : list string -> Files -> option Process) (uuid_str : Uuid -> string).

Definition run_openssl (args : list string) (fs : Files) : result string issue_error * Files :=
  match openssl args fs with
  | None => (Err OpensslMissing, fs)
  | Some p => (if success p then Ok (stdout p) else Err (OpensslFailed (trim (stderr p))), files p)
  end.

Definition path (value : string) : result string issue_error := if utf8_valid value then Ok value else Err PathNotUtf8.

Definition remove_dir_all (dir : string) (fs : Files) : Files := filter (fun kv => starts_with (dir +:+ "/") kv.1 = false) fs.

Definition tls_name (node_id : Uuid) : string := "node-" +:+ uuid_str node_id +:+ ".honey".

Definition extensions (node_id : Uuid) : string :=
  "subjectAltName=DNS:" +:+ tls_name node_id +:+ ",DNS:honey-agent" +:+ nl +:+ "extendedKeyUsage=serverAuth,clientAuth" +:+ nl
  +:+ "keyUsage=digitalSignature,keyEncipherment" +:+ nl.

Definition sign_args (csr ca_cert ca_key serial ext cert : string) : list string :=
  ["x509"; "-req"; "-in"; csr; "-CA"; ca_cert; "-CAkey"; ca_key; "-set_serial"; "0x" +:+ serial; "-days"; "90"; "-sha256";
   "-extfile"; ext; "-out"; cert].

Definition fingerprint_args (cert : string) : list string := ["x509"; "-in"; cert; "-noout"; "-fingerprint"; "-sha256"].

(** The value after the first equals sign, without its colons. *)
Definition parse_fingerprint (output : string) : result string issue_error :=
  match split_once "=" (trim output) with
  | Some (_, value) => Ok (replace_byte ":" "" value)
  | None => Err NoFingerprint
  end.

Definition issue_node_certificate (disk : Disk) (now : Z) (work_id : Uuid) (serial_bytes : option (list Z)) (certs_dir : string)
    (node_id : Uuid) (csr_pem : string) (fs : Files) : result IssuedCertificate issue_error * Files :=
  if (32 * 1024 <? len csr_pem) || negb (contains "BEGIN CERTIFICATE REQUEST" csr_pem) then (Err BadRequestPem, fs) else
  let ca_cert := join_path certs_dir "ca.crt" in
  let ca_key := join_path certs_dir "ca.key" in
  if negb (is_some (fs !! ca_cert)) || negb (is_some (fs !! ca_key)) then (Err CaMissing, fs) else
  let work := join_path certs_dir (".enroll-" +:+ uuid_str work_id) in
  if negb (makes_dir disk) then (Err IoFailed, fs) else
  let csr := join_path work "agent.csr" in
  let cert := join_path work "agent.crt" in
  let ext := join_path work "agent.ext" in
  if negb (writes_csr disk) then (Err IoFailed, fs) else
  let fs := <[csr := csr_pem]> fs in
  if negb (writes_ext disk) then (Err IoFailed, fs) else
  let fs := <[ext := extensions node_id]> fs in
  match serial_bytes with
  | None => (Err NoRandom, fs)
  | Some bytes =>
      let serial := hex_upper bytes in
      match try_map path [csr; ca_cert; ca_key; ext; cert] with
      | Err e => (Err e, fs)
      | Ok _ =>
          match run_openssl (sign_args csr ca_cert ca_key serial ext cert) fs with
          | (Err e, fs) => (Err e, remove_dir_all work fs)
          | (Ok _, fs) =>
              match run_openssl (fingerprint_args cert) fs with
              | (Err e, fs) => (Err e, fs)
              | (Ok output, fs) =>
                  match parse_fingerprint output with
                  | Err e => (Err e, fs)
                  | Ok fingerprint =>
                      match fs !! cert, fs !! ca_cert, reads_back disk with
                      | Some certificate_pem, Some ca_pem, true =>
                          (Ok (mkIssuedPem certificate_pem ca_pem
                                 (mkIssued serial fingerprint ("CN=" +:+ tls_name node_id) now (now + 90 * 86400 * 1000000))),
                           remove_dir_all work fs)
                      | _, _, _ => (Err IoFailed, fs)
                      end
                  end
              end
          end
      end
  end.
End Pki.

(** ** Fingerprints *)

Definition fingerprint_byte (c : ascii) : bool := is_digit c || between 65 70 c.

Lemma upper_hex_byte b : 0 <= b < 256 -> exists x y, hex_upper [b] = String x (String y "") /\ fingerprint_byte x = true /\ fingerprint_byte y = true.
Proof.
  intros Hb. assert (H : forall n, 0 <= n < 16 -> fingerprint_byte (upper (hex_digit n)) = true).
  { intros n Hn. assert (Hc : List.Forall (fun n => fingerprint_byte (upper (hex_digit n)) = true) (seqZ 0 16)) by (repeat constructor).
    rewrite List.Forall_forall in Hc. apply Hc, list_elem_of_In, elem_of_seqZ. lia. }
  do 2 eexists. split; [reflexivity|]. split; apply H; [split; [apply Z.div_pos; lia|apply Z.div_lt_upper_bound; lia]|apply Z.mod_pos_bound; lia].
Qed.

Lemma hex_upper_cons b bs : hex_upper (b :: bs) = hex_upper [b] +:+ hex_upper bs.
Proof. unfold hex_upper, to_ascii_uppercase. by rewrite hex_cons, map_bytes_app. Qed.

(** The digest as openssl prints it, its bytes between colons. *)
Definition colons (bs : list Z) : string := join ":" ((fun b => hex_upper [b]) <$> bs).

Lemma colons_cons b b' bs : colons (b :: b' :: bs) = hex_upper [b] +:+ ":" +:+ colons (b' :: bs).
Proof. done. Qed.

Lemma replace_skips c s : all_bytes (not_byte c) s = true -> replace_byte c "" s = s.
Proof.
  induction s as [|d s IH]; [done|]. cbn [all_bytes replace_byte]. intros [Hd%negb_true_iff Hs]%andb_true_iff.
  rewrite Ascii.eqb_sym, Hd. change (String d (replace_byte c "" s) = String d s). by rewrite IH.
Qed.

Lemma fingerprint_bytes bs (p : ascii -> bool) : (forall c, fingerprint_byte c = true -> p c = true) -> Forall (fun b => 0 <= b < 256) bs ->
  Forall (fun b => all_bytes p (hex_upper [b]) = true) bs.
Proof.
  intros Hp H. apply (Forall_impl _ _ _ H). intros b (x & y & -> & Hx & Hy)%upper_hex_byte. cbn. by rewrite !Hp.
Qed.

Lemma colons_bytes (p : ascii -> bool) bs : p ":"%char = true -> Forall (fun b => all_bytes p (hex_upper [b]) = true) bs -> all_bytes p (colons bs) = true.
Proof.
  intros Hc. induction bs as [|b [|b' bs] IH]; intros H; [done|by inversion H|]. apply Forall_cons in H as [Hb Hr].
  rewrite colons_cons, !all_bytes_app. cbn [all_bytes]. by rewrite Hc, Hb, (IH Hr).
Qed.

Lemma colons_removed bs : Forall (fun b => all_bytes (not_byte ":") (hex_upper [b]) = true) bs -> replace_byte ":" "" (colons bs) = hex_upper bs.
Proof.
  induction bs as [|b [|b' bs] IH]; intros H; [done|by apply replace_skips; inversion H|]. inversion H; subst.
  rewrite colons_cons, !replace_byte_app, replace_skips, IH by done. by rewrite (hex_upper_cons b).
Qed.

Lemma parse_printed bs : Forall (fun b => 0 <= b < 256) bs -> bs <> [] ->
  parse_fingerprint ("sha256 Fingerprint=" +:+ colons bs +:+ nl) = Ok (hex_upper bs).
Proof.
  intros Hb Hne. unfold parse_fingerprint. rewrite (trim_line "s" "ha256 Fingerprint=").
  - change ("sha256 Fingerprint=" +:+ colons bs) with ("sha256 Fingerprint" +:+ String "=" (colons bs)). rewrite split_once_skip by done.
    rewrite colons_removed; [done|]. apply fingerprint_bytes; [|done]. by_byte.
  - done.
  - done.
  - apply colons_bytes; [done|]. apply fingerprint_bytes; [|done]. by_byte.
  - destruct bs as [|b bs]; [done|]. inversion Hb; subst. destruct (upper_hex_byte b) as (x & y & E & _); [done|].
    destruct bs as [|b' bs]; [by unfold colons; cbn [fmap list_fmap join]; rewrite E|]. by rewrite colons_cons, E.
Qed.

(** ** From the signing request to the channel *)

(** What openssl documents of the two commands: signing writes the certificate to
    the path after -out and nothing else; -fingerprint prints the SHA-256 digest of
    the certificate's DER form, and writes nothing. *)
Class OpensslLaws (openssl : list string -> Files -> option Process) (der : string -> string) (sha256 : string -> list Z) := {
  digest_bytes : forall s, Forall (fun b => 0 <= b < 256) (sha256 s);
  digest_length : forall s, length (sha256 s) = 32%nat;
  sign_writes : forall csr ca key serial ext cert fs p, openssl (sign_args csr ca key serial ext cert) fs = Some p ->
    (forall q, q <> cert -> files p !! q = fs !! q) /\ (success p = true -> is_Some (files p !! cert));
  fingerprint_prints : forall cert fs p, openssl (fingerprint_args cert) fs = Some p ->
    files p = fs /\ forall pem, fs !! cert = Some pem -> success p = true -> stdout p = "sha256 Fingerprint=" +:+ colons (sha256 (der pem)) +:+ nl }.

Section Issuing.
Context (openssl : list string -> Files -> option Process) (der : string -> string) (sha256 : string -> list Z) `{OpensslLaws openssl der sha256}.
Context (uuid_str : Uuid -> string).

#[local] Abbreviation issue_cert := (issue_node_certificate openssl uuid_str).

(** What an issued certificate holds. *)
Lemma issued_inv disk now work_id serial dir node_id csr fs c fs' :
  issue_cert disk now work_id serial dir node_id csr fs = (Ok c, fs') ->
  fingerprint_sha256 (issued c) = certificate_fingerprint sha256 (der (certificate_pem c))
  /\ subject (issued c) = "CN=" +:+ tls_name uuid_str node_id
  /\ not_before (issued c) = now /\ not_after (issued c) = now + 90 * 86400 * 1000000
  /\ exists bytes, serial = Some bytes /\ serial_number (issued c) = hex_upper bytes.
Proof.
  unfold issue_node_certificate. destruct (_ || _); [done|]. destruct (_ || _); [done|]. destruct (negb _); [done|]. destruct (negb _); [done|].
  destruct (negb _); [done|]. destruct serial as [bytes|]; [|done]. destruct (try_map _ _); [|done].
  set (cert := join_path _ "agent.crt"). destruct (run_openssl _ (sign_args _ _ _ _ _ cert) _) as [[out1|] fs1] eqn:E1; [|done].
  destruct (run_openssl _ (fingerprint_args cert) fs1) as [[out2|] fs2] eqn:E2; [|done].
  destruct (parse_fingerprint out2) as [fp|] eqn:Ep; [|done].
  destruct (fs2 !! cert) as [pem|] eqn:Ec; [|done]. destruct (fs2 !! join_path dir "ca.crt") as [ca|]; [|done]. destruct (reads_back disk); [|done].
  intros [= <- _]. cbn. split; [|by eauto 10].
  unfold run_openssl in E2. destruct (openssl (fingerprint_args cert) fs1) as [p|] eqn:Eo; [|done].
  destruct (fingerprint_prints _ _ _ Eo) as [Hf Hp]. destruct (success p) eqn:Es; [|done]. injection E2 as <- <-. rewrite Hf in Ec.
  rewrite (Hp pem Ec eq_refl), parse_printed in Ep; [by injection Ep as <-|apply digest_bytes|]. intros E0.
  assert (Hl := digest_length (der pem)). by rewrite E0 in Hl.
Qed.

(** Issuing as the enrollment handler sees it. *)
Definition issuer (disk : Disk) (now : Z) (work_id : Uuid) (serial : option (list Z)) (dir : string) (fs : Files) (node_id : Uuid) (csr : string)
    : option Issued :=
  match (issue_cert disk now work_id serial dir node_id csr fs).1 with Ok c => Some (issued c) | Err _ => None end.

Context (token_hash : string -> string) (db_upper : string -> string) (parse_uuid : string -> option Uuid).

(** The row an answered claim adds to the inventory. *)
Definition issued_row (cert_id node_id : Uuid) (now : Z) (i : Issued) : NodeCertificate :=
  mkCert cert_id node_id (serial_number i) (fingerprint_sha256 i) (subject i) (not_before i) (not_after i) now None.

Lemma claimed_row issue now cert_id token csr db node_id i db' :
  claim_enrollment token_hash uuid_str issue now cert_id token csr db = (Ok (node_id, i), db') ->
  issue node_id csr = Some i /\ In (issued_row cert_id node_id now i) (certificates db').
Proof.
  unfold claim_enrollment. destruct (_ || _); [done|]. destruct (claim_enrollment_token _ _ _) as [[n|] db1]; [|done].
  destruct (enroll_nodes db1 !! n); [|done]. destruct (issue n csr) as [i'|] eqn:Ei; [|done].
  destruct (add_node_certificate _ _ _ _ _) as [db2|] eqn:Ea; [|done]. intros [= -> -> <-]. split; [done|].
  unfold add_node_certificate in Ea. destruct (existsb _ _); [done|]. destruct (negb _); [done|]. injection Ea as <-.
  cbn [certificates audit set_node_tls_name]. apply in_or_app. right. by left.
Qed.

(** Requests that do not revoke the certificate with this id. *)
Definition spares (cert_id : Uuid) (o : enroll_op) : Prop := match o with RevokeCertOp _ id _ => id <> cert_id | _ => True end.

Lemma inventory_kept_step issue o db c : spares (nc_id c) o -> In c (certificates db) -> In c (certificates (enroll_step token_hash uuid_str issue db o)).
Proof.
  intros Ho Hc. destruct o as [now id node_id token admin actor m|now cert_id token csr|now id actor|now id actor]; cbn [enroll_step].
  - unfold create_enrollment. destruct (negb _); [done|]. destruct (_ !! node_id); [|done]. unfold create_enrollment_token.
    by destruct (existsb _ _).
  - unfold claim_enrollment. destruct (_ || _); [done|]. cbn [claim_enrollment_token].
    destruct (et_node_id <$> _) as [n|]; [|done]. cbn [enroll_nodes]. destruct (_ !! n); [|done]. destruct (issue n csr); [|done].
    unfold add_node_certificate. destruct (existsb _ _); [done|]. destruct (negb _); [done|]. cbn. apply in_or_app. by left.
  - unfold revoke_enrollment. cbn. by destruct (existsb _ _).
  - unfold revoke_certificate. cbn. destruct (nc_node_id <$> _); [|done]. cbn [certificates audit].
    apply list_elem_of_In, list_elem_of_fmap. exists c. split; [|by apply list_elem_of_In].
    cbn in Ho. by rewrite (proj2 (Z.eqb_neq _ _) (not_eq_sym Ho)).
Qed.

Lemma inventory_kept issue ops : forall db c, Forall (spares (nc_id c)) ops -> In c (certificates db) ->
  In c (certificates (enroll_run token_hash uuid_str issue db ops)).
Proof.
  induction ops as [|o ops IH]; intros db c Ho Hc; [done|]. inversion_clear Ho. cbn. apply IH; [done|]. by apply inventory_kept_step.
Qed.

Lemma active_authorized now fp c l : In c l -> active_cert db_upper now fp c = true ->
  authorize_certificate db_upper now (nc_node_id c) fp l = true.
Proof.
  intros Hc Ha. unfold authorize_certificate, authorize_node_certificate. assert (He : existsb (active_cert db_upper now fp)
    (List.filter (fun d => nc_node_id d =? nc_node_id c) l) = true); [|by rewrite He, andb_false_r].
  apply existsb_exists. exists c. split; [|done]. apply List.filter_In. by rewrite Z.eqb_refl.
Qed.

(** C16: What enrollment hands out works.  When a claim is answered, the certificate
    openssl signed for it, shown on a TLS stream at any time of its ninety days, is
    accepted in both directions as long as it has not been revoked, whatever other
    enrollments and revocations came in between: an agent that dials in with it as its
    node is registered if the node is enabled for dialling, and the master that dials
    the agent registers it too, each with the channel over that stream. *)
Theorem enrolled_agent_admitted disk at_ work_id serial dir fs now cert_id token csr db node_id i db' :
  claim_enrollment token_hash uuid_str (issuer disk at_ work_id serial dir fs) now cert_id token csr db = (Ok (node_id, i), db') ->
  exists c fs', issue_cert disk at_ work_id serial dir node_id csr fs = (Ok c, fs') /\ i = issued c
    /\ forall issue ops t w node stream rest who, Forall (spares cert_id) ops ->
       certs w = certificates (enroll_run token_hash uuid_str issue db' ops) -> at_ <= t < at_ + 90 * 86400 * 1000000 ->
       Db.nodes (tables (plane w)) !! node_id = Some node -> Node.id node = node_id ->
       st_peer stream = Some (der (certificate_pem c) :: rest) ->
       let client := mkClient stream (certificate_fingerprint sha256 (der (certificate_pem c))) in
       let w' := register node_id client (touch_node t node_id (who_agent_version who) (who_singbox_version who) w) in
       (Node.enabled node = true -> Node.transport node = "dial" \/ Node.transport node = "both" -> parse_uuid (who_node_id who) = Some node_id ->
          handle sha256 parse_uuid db_upper t (Some stream) true (Some who) w = (Ok tt, w'))
       /\ (who_node_id who = uuid_str node_id ->
          channel_over sha256 true stream = Ok client
          /\ connect_serve uuid_str db_upper t
               (mkDial (Some client) (Some (who_node_id who, who_agent_version who, who_singbox_version who))) node w = (Ok tt, w')).
Proof.
  intros Hc. destruct (claimed_row _ _ _ _ _ _ _ _ _ Hc) as [Hi Hrow]. unfold issuer in Hi.
  destruct (issue_cert disk at_ work_id serial dir node_id csr fs) as [[c|] fs'] eqn:Ec; [|done]. injection Hi as <-.
  exists c, fs'. split; [done|]. split; [done|].
  intros issue ops t w node stream rest who Hops Hw Ht Hn Hid Hs. cbv zeta.
  destruct (issued_inv _ _ _ _ _ _ _ _ _ _ Ec) as (Hf & _ & Hb & Ha & _).
  assert (Hauth : authorize_certificate db_upper t node_id (certificate_fingerprint sha256 (der (certificate_pem c))) (certs w) = true).
  { rewrite Hw. apply (active_authorized t _ (issued_row cert_id node_id now (issued c))); [by apply inventory_kept|].
    unfold active_cert, issued_row. cbn. rewrite Hf, String.eqb_refl, Hb, Ha. cbn. apply andb_true_iff.
    split; [apply Z.leb_le; lia|apply Z.ltb_lt; lia]. }
  assert (Hch : channel_over sha256 true stream = Ok (mkClient stream (certificate_fingerprint sha256 (der (certificate_pem c)))))
    by (unfold channel_over, peer_fingerprint; by rewrite Hs).
  split.
  - intros Hen Htr Hp. unfold handle. rewrite Hch, Hp, Hn, Hen. cbn [negb peer_fingerprint_sha256]. rewrite Hauth.
    by destruct Htr as [-> | ->].
  - intros Hwho. split; [done|]. unfold connect_serve. cbn [de_client de_whoru peer_fingerprint_sha256].
    by rewrite Hid, Hauth, Hwho, String.eqb_refl.
Qed.
End Issuing.

(** ** Who is let in *)

Section Admission.
Context (sha256 : string -> list Z) (parse_uuid : string -> option Uuid) (db_upper : string -> string).

(** The stream whose certificate was checked is the one that carries the calls: the
    gRPC library gets it on its first attempt to connect and nothing afterwards. *)
Lemma stream_used_once n s : connections (S n) (Some s) = Ok s :: replicate n (Err StreamConsumed).
Proof. cbn. f_equal. induction n as [|n IH]; [done|]. cbn. by rewrite IH. Qed.

Lemma authorized_inv now node_id fp l : authorize_certificate db_upper now node_id fp l = true ->
  (forall c, In c l -> nc_node_id c <> node_id) \/ exists c, In c l /\ nc_node_id c = node_id /\ active_cert db_upper now fp c = true.
Proof.
  unfold authorize_certificate, authorize_node_certificate. destruct (List.filter _ l) as [|x own] eqn:Ef.
  - intros _. left. intros c Hc He. assert (Hin : In c (List.filter (fun c => nc_node_id c =? node_id) l)) by (apply List.filter_In; by rewrite Z.eqb_eq).
    by rewrite Ef in Hin.
  - rewrite <- Ef. cbn [negb andb]. rewrite negb_involutive. intros (c & Hc & Ha)%existsb_exists. right. exists c.
    apply List.filter_In in Hc as [Hc He%Z.eqb_eq]. done.
Qed.

(** C19: A connection that comes in changes nothing unless it is admitted, and is
    admitted only as a node of the database that is enabled and set to dial, with a
    certificate that node's inventory accepts now; what it then changes is that
    node's channel and the versions it reported. *)
Theorem dial_in_sound now tls preface whoru w r w' : handle sha256 parse_uuid db_upper now tls preface whoru w = (r, w') ->
  match r with
  | Err _ => w' = w
  | Ok _ => exists stream cert rest who node_id node,
      tls = Some stream /\ st_peer stream = Some (cert :: rest) /\ whoru = Some who /\ parse_uuid (who_node_id who) = Some node_id
      /\ Db.nodes (tables (plane w)) !! node_id = Some node /\ Node.enabled node = true
      /\ (Node.transport node = "dial" \/ Node.transport node = "both")
      /\ ((forall c, In c (certs w) -> nc_node_id c <> node_id)
          \/ exists c, In c (certs w) /\ nc_node_id c = node_id /\ active_cert db_upper now (certificate_fingerprint sha256 cert) c = true)
      /\ w' = register node_id (mkClient stream (certificate_fingerprint sha256 cert)) (touch_node now node_id (who_agent_version who) (who_singbox_version who) w)
  end.
Proof.
  unfold handle. destruct tls as [stream|]; [|by intros [= <- <-]]. unfold channel_over, peer_fingerprint.
  destruct (st_peer stream) as [[|cert rest]|] eqn:Es; cbn [mbind option_bind head connector fst]; [by intros [= <- <-]| |by intros [= <- <-]].
  destruct preface; [|by intros [= <- <-]]. destruct whoru as [who|]; [|by intros [= <- <-]].
  destruct (parse_uuid (who_node_id who)) as [node_id|] eqn:Ep; [|by intros [= <- <-]].
  destruct (Db.nodes (tables (plane w)) !! node_id) as [node|] eqn:En; [|by intros [= <- <-]].
  destruct (Node.enabled node) eqn:Ee; [|by intros [= <- <-]]. cbn [negb].
  destruct (one_of _ (Node.transport node)) eqn:Et; [|by intros [= <- <-]]. cbn [negb].
  destruct (authorize_certificate _ _ _ _ _) eqn:Ea; [|by intros [= <- <-]]. intros [= <- <-].
  exists stream, cert, rest, who, node_id, node. do 6 (split; [done|]). split.
  { unfold one_of in Et. cbn in Et. apply orb_true_iff in Et as [?%String.eqb_eq|Et]; [by left|].
    apply orb_true_iff in Et as [?%String.eqb_eq|]; [by right|done]. }
  split; [|done]. by apply authorized_inv.
Qed.

Lemma inventory_free node_id l : existsb (fun c => nc_node_id c =? node_id) l = false -> List.filter (fun c => nc_node_id c =? node_id) l = [].
Proof. induction l as [|c l IH]; [done|]. cbn. destruct (nc_node_id c =? node_id); [done|]. exact IH. Qed.

(** Without an active row, a certificate is accepted by exactly the nodes that have no
    inventory. *)
Lemma authorized_inactive now node_id fp l : (forall c, In c l -> active_cert db_upper now fp c = false) ->
  authorize_certificate db_upper now node_id fp l = negb (existsb (fun c => nc_node_id c =? node_id) l).
Proof.
  intros Hin. unfold authorize_certificate, authorize_node_certificate. destruct (existsb (fun c => nc_node_id c =? node_id) l) eqn:Ee.
  - assert (Hno : existsb (active_cert db_upper now fp) (List.filter (fun c => nc_node_id c =? node_id) l) = false).
    { apply not_true_iff_false. intros (c & Hc & Ha)%existsb_exists. apply List.filter_In in Hc as [Hc _]. by rewrite Hin in Ha. }
    rewrite Hno. apply existsb_exists in Ee as (c & Hc & He).
    destruct (List.filter (fun c => nc_node_id c =? node_id) l) as [|x own] eqn:Ef; [|done].
    assert (Hx : In c (List.filter (fun c => nc_node_id c =? node_id) l)) by (by apply List.filter_In). by rewrite Ef in Hx.
  - by rewrite (inventory_free _ _ Ee).
Qed.

(** C39: Revoking a certificate does not shut its holder out.  Pinning is per node id
    and the id is the one the agent reports.  So an agent whose certificate is revoked
    wherever the inventory lists it is refused, without effect, as every node that has
    an inventory, and admitted as every enabled dial node that has none: the channel
    over its stream then replaces whatever channel that node had. *)
Theorem revoked_certificate_dials_in now stream cert rest who node_id node w :
  st_peer stream = Some (cert :: rest) ->
  (forall c, In c (certs w) -> db_upper (nc_fingerprint c) = db_upper (certificate_fingerprint sha256 cert) -> is_Some (nc_revoked_at c)) ->
  parse_uuid (who_node_id who) = Some node_id -> Db.nodes (tables (plane w)) !! node_id = Some node ->
  Node.enabled node = true -> Node.transport node = "dial" \/ Node.transport node = "both" ->
  handle sha256 parse_uuid db_upper now (Some stream) true (Some who) w =
    if existsb (fun c => nc_node_id c =? node_id) (certs w) then (Err CertificateNotActive, w)
    else (Ok tt, register node_id (mkClient stream (certificate_fingerprint sha256 cert))
                   (touch_node now node_id (who_agent_version who) (who_singbox_version who) w)).
Proof.
  intros Hs Hrev Hp Hn He Ht. unfold handle, channel_over, peer_fingerprint. rewrite Hs. cbn [mbind option_bind head connector fst].
  rewrite Hp, Hn, He. cbn [negb peer_fingerprint_sha256]. assert (Hone : one_of ["dial"; "both"] (Node.transport node) = true)
    by by destruct Ht as [-> | ->]. rewrite Hone. cbn [negb]. rewrite authorized_inactive.
  - by destruct (existsb _ (certs w)).
  - intros c Hc. unfold active_cert. destruct (String.eqb_spec (db_upper (nc_fingerprint c)) (db_upper (certificate_fingerprint sha256 cert))) as [E|]; [|done].
    by destruct (Hrev c Hc E) as [x ->].
Qed.
End Admission.

(** ** Applying *)

(** How an Apply call ends for the registry; whether a call that broke was carried
    out is not known. *)
Definition apply_outcome (answer : option (Z * Z * string)) (carried_out : bool) : apply_result :=
  match client_apply answer with
  | Ok status => AgentOk (cs_message status)
  | Err e => if is_rpc_failure e then RpcFailure carried_out else AgentRejected
  end.

(** An answer that reports an errored core is a refusal, which keeps the channel;
    only a broken call closes it, and any other answer is a success. *)
Lemma apply_outcomes answer b :
  match apply_outcome answer b with
  | AgentOk m => exists state pid, answer = Some (state, pid, m) /\ state <> 3
  | AgentRejected => exists pid m, answer = Some (3, pid, m)
  | RpcFailure _ => answer = None
  end.
Proof.
  destruct answer as [[[state pid] m]|]; [|done]. unfold apply_outcome, client_apply, ensure_apply_success, core_state. cbn [cs_state].
  destruct (Z.eqb_spec state 1); [subst; cbn; by exists 1, pid|]. destruct (Z.eqb_spec state 2); [subst; cbn; by exists 2, pid|].
  destruct (Z.eqb_spec state 3); [subst; cbn; eauto|]. cbn. eauto.
Qed.

(** ** Examples *)

(** An openssl that signs by naming the request and prints a constant digest. *)
Definition toy_sha256 (_ : string) : list Z := replicate 32 171.
Definition toy_openssl (args : list string) (fs : Files) : option Process :=
  match args with
  | [_; _; _; csr; _; _; _; _; _; _; _; _; _; _; _; _; cert] =>
      Some (mkProcess true "" "" (<[cert := "CERT " +:+ default "" (fs !! csr)]> fs))
  | [_; _; cert; _; _; _] =>
      Some (mkProcess true ("sha256 Fingerprint=" +:+ colons (toy_sha256 "") +:+ nl) "" fs)
  | _ => None
  end.

#[local] Instance toy_laws : OpensslLaws toy_openssl (fun pem => pem) toy_sha256.
Proof.
  split.
  - intros s. repeat constructor; vm_compute; discriminate.
  - done.
  - intros csr ca key serial ext cert fs p. unfold toy_openssl, sign_args. intros [= <-]. cbn [files]. split.
    + intros q Hq. apply lookup_insert_ne. congruence.
    + intros _. eexists. apply lookup_insert_eq.
  - intros cert fs p. unfold toy_openssl, fingerprint_args. intros [= <-]. done.
Qed.

Definition toy_files : Files := <["certs/ca.crt" := "CA"]> (<["certs/ca.key" := "KEY"]> ∅).
Definition toy_csr : string := "-----BEGIN CERTIFICATE REQUEST-----".
Definition toy_disk : Disk := mkDisk true true true true.
Definition toy_issuer : Uuid -> string -> option Issued := issuer toy_openssl show toy_disk 5 9 (Some (replicate 16 1)) "certs" toy_files.
Definition enrolled : result (Uuid * Issued) enroll_error * EnrollDb :=
  claim_enrollment (fun s => s) show toy_issuer 5 3 "0123456789012345678901234567890123456789" toy_csr
    (mkEnrollDb {[7 := sample_node7]} [mkToken 1 7 "0123456789012345678901234567890123456789" None 100 None None] [] []).

(** The node of the enrollment, a day later, with another token minted and another
    certificate revoked meanwhile. *)
Definition later_requests : list enroll_op := [CreateOp 6 2 7 "t2" None None 10; RevokeCertOp 7 99 None].
Definition fleet_of_7 (db : EnrollDb) : World :=
  mkWorld (mkPlane (with_nodes (fun _ => <[7 := sample_node7]> ∅) empty_db) [] [] []) ∅ ∅ ∅
    (certificates (enroll_run (fun s => s) show (fun _ _ => None) db later_requests)) ∅.

Lemma enrolled_agent_admitted_witness : exists i db' c w',
  enrolled = (Ok (7, i), db')
  /\ connect_serve show (fun s => s) 86400000005
       (mkDial (Some (mkClient (mkStream 4 (Some [certificate_pem c])) (certificate_fingerprint toy_sha256 (certificate_pem c)))) (Some ("7", "1", "1")))
       sample_node7 (fleet_of_7 db') = (Ok tt, w').
Proof.
  assert (H : exists i db', enrolled = (Ok (7, i), db')) by (do 2 eexists; vm_compute; reflexivity).
  destruct H as (i & db' & H).
  destruct (enrolled_agent_admitted toy_openssl (fun pem => pem) toy_sha256 show (fun s => s) (fun s => s) (parse_unsigned 1000)
              toy_disk 5 9 (Some (replicate 16 1)) "certs" toy_files 5 3 _ toy_csr _ 7 i db' H) as (c & fs' & Hc & _ & Hall).
  exists i, db', c. eexists. split; [exact H|].
  refine (proj2 (proj2 (Hall (fun _ _ => None) later_requests 86400000005 (fleet_of_7 db') sample_node7
            (mkStream 4 (Some [certificate_pem c])) [] (mkIdentity "7" "1" "1") _ eq_refl _ eq_refl eq_refl eq_refl) eq_refl)).
  - constructor; [exact I|]. constructor; [discriminate|constructor].
  - lia.
Defined.

Definition nat_node (id : Uuid) (transport : string) : Node.Node :=
  Node.mk id "n" "10.0.0.1" "honey-agent" 8443 transport [] [] true false None None None None None None None None None None 0 0 0.
Definition stolen : Stream := mkStream 0 (Some ["stolen"]).
Definition impostor : NodeIdentity := mkIdentity "2" "1" "1".
Definition two_nodes : World :=
  mkWorld (mkPlane (with_nodes (fun _ => <[1 := nat_node 1 "dial"]> (<[2 := nat_node 2 "dial"]> ∅)) empty_db) [] [] []) ∅ ∅ ∅
    [mkCert 4 1 "s" (certificate_fingerprint toy_sha256 "stolen") "cn" 0 1000 0 (Some 5)] ∅.

Lemma dial_in_sound_witness : exists w', handle toy_sha256 (parse_unsigned 1000) (fun s => s) 9 (Some stolen) true (Some (mkIdentity "1" "1" "1")) two_nodes
  = (Err CertificateNotActive, w') /\ w' = two_nodes.
Proof.
  eexists. split; [vm_compute; reflexivity|].
  exact (dial_in_sound toy_sha256 (parse_unsigned 1000) (fun s => s) 9 (Some stolen) true (Some (mkIdentity "1" "1" "1")) two_nodes
           (Err CertificateNotActive) two_nodes ltac:(vm_compute; reflexivity)).
Defined.

(** Node 2 is connected; the holder of the certificate revoked on node 1 takes over. *)
Definition in_use : World := register 2 (mkClient (mkStream 9 None) "own") two_nodes.

Lemma revoked_certificate_dials_in_witness : exists w',
  handle toy_sha256 (parse_unsigned 1000) (fun s => s) 9 (Some stolen) true (Some (mkIdentity "1" "1" "1")) in_use = (Err CertificateNotActive, in_use)
  /\ handle toy_sha256 (parse_unsigned 1000) (fun s => s) 9 (Some stolen) true (Some impostor) in_use = (Ok tt, w')
  /\ client_of 2 w' = Some (mkClient stolen (certificate_fingerprint toy_sha256 "stolen")).
Proof.
  assert (Hrev : forall c, In c (certs in_use) -> nc_fingerprint c = certificate_fingerprint toy_sha256 "stolen" -> is_Some (nc_revoked_at c)).
  { intros c [<-|[]] _. by eexists. }
  eexists. split; [|split].
  - exact (revoked_certificate_dials_in toy_sha256 (parse_unsigned 1000) (fun s => s) 9 stolen "stolen" [] (mkIdentity "1" "1" "1") 1 (nat_node 1 "dial") in_use
             eq_refl Hrev eq_refl eq_refl eq_refl (or_introl eq_refl)).
  - exact (revoked_certificate_dials_in toy_sha256 (parse_unsigned 1000) (fun s => s) 9 stolen "stolen" [] impostor 2 (nat_node 2 "dial") in_use
             eq_refl Hrev eq_refl eq_refl eq_refl (or_introl eq_refl)).
  - apply lookup_insert_eq.
Defined.
