(* ===== verification/Commands.v ===== *)
(** * Starting the service (src/master/src/main.rs)

    The subcommands: account administration from the shell, pushing one node, and
    starting the API with or without the background loops.  How listeners bind is
    given by the environment, the password hash is a parameter.  Key rotation is in
    Secrets.v, the domain command in PanelHost.v, the dispatch in Process.v. *)

From S2P Require Import Prelude Strings Json Ip Models Db Api Handler Ha RateLimit Auth Login Users Accounts Secrets Access Wg Subscription Spec Enroll Push.

(** ** How the API is served *)

Record TlsPaths := mkTlsPaths { tls_cert : string; tls_key : string }.
Record AcmeParams := mkAcmeParams { acme_domains : list string; acme_email : string; acme_cache : string; acme_staging : bool }.
Inductive TlsMode := TlsNone | TlsStatic (paths : TlsPaths) | TlsAcme (params : AcmeParams).

Inductive cli_error :=
| AcmeAndStatic
| AcmeEmailMissing
| TlsHalfGiven
| BadListen (listen : string)
| BindFailed
| NotBuilt (feature : string)
| EmptyApiToken
| RefusingToExpose (addr : SocketAddr)
| SecretKeyRequired
| NoDatabase
| BadRole
| PasswordRefused (e : api_error)
| AdminNotFound (username : string)
| NoNode (name : string)
| QueryFailed (e : db_error)
| AgentFailed (e : push_error).

Definition build_tls_mode (cert key : option string) (acme_domain : list string) (email : option string) (cache : string) (staging : bool)
    : result TlsMode cli_error :=
  match acme_domain with
  | _ :: _ =>
      if is_some cert || is_some key then Err AcmeAndStatic
      else match email with
           | None => Err AcmeEmailMissing
           | Some email => Ok (TlsAcme (mkAcmeParams acme_domain email cache staging))
           end
  | [] =>
      match cert, key with
      | Some cert, Some key => Ok (TlsStatic (mkTlsPaths cert key))
      | None, None => Ok TlsNone
      | _, _ => Err TlsHalfGiven
      end
  end.

Definition ensure_safe_api_bind (addr : SocketAddr) (api_token : option string) (has_admin : bool) : result unit cli_error :=
  if is_some_and api_token is_empty then Err EmptyApiToken
  else if negb (is_some api_token) && negb has_admin && negb (ip_is_loopback (sock_ip addr)) then Err (RefusingToExpose addr)
  else Ok tt.

Definition parse_listen (listen : string) : result SocketAddr cli_error :=
  match parse_socket listen with Some a => Ok a | None => Err (BadListen listen) end.

(** What the binary was built with. *)
Record Features := mkFeatures { with_tls : bool; with_acme : bool; with_dial_acceptor : bool }.

Definition count_enabled_admins (adb : AuthDb) : Z := Z.of_nat (length (List.filter Admin.enabled (rows (admins adb)))).

(** The address the API answers on, and how. *)
Definition api_serve (built : Features) (bind : string -> option SocketAddr) (api_token : option string) (adb : AuthDb) (listen : string)
    (mode : TlsMode) : result (SocketAddr * TlsMode) cli_error :=
  let has_admin := 0 <? count_enabled_admins adb in
  match mode with
  | TlsNone =>
      match bind listen with
      | None => Err BindFailed
      | Some local_addr => let? _ := ensure_safe_api_bind local_addr api_token has_admin in Ok (local_addr, mode)
      end
  | TlsStatic _ =>
      let? addr := parse_listen listen in
      let? _ := ensure_safe_api_bind addr api_token has_admin in
      if with_tls built then Ok (addr, mode) else Err (NotBuilt "tls")
  | TlsAcme _ =>
      let? addr := parse_listen listen in
      let? _ := ensure_safe_api_bind addr api_token has_admin in
      if with_acme built then Ok (addr, mode) else Err (NotBuilt "acme")
  end.

Definition require_secret_key `{Aead} (cell : CipherCell) : result unit cli_error :=
  if is_enabled cell then Ok tt else Err SecretKeyRequired.

(** ** Starting the service *)

(** The lease in seconds from HONEY_HA_LEASE_SECS. *)
Definition lease_secs (var : option string) : Z :=
  clamp 5 300 (default 15 (let! v := var in parse_unsigned u64_max (trim v))).

Inductive Task :=
| HaTask (lease : Z)
| ApiTask
| ReconcileTask (secs : Z)
| StatsTask (poll_secs sample_ms : Z)
| DomainsTask (secs : Z)
| QuotaTask (secs : Z)
| ReachTask (secs : Z)
| ScheduleTask (secs : Z)
| TrafficRetentionTask (secs : Z)
| NoticeRetentionTask (secs : Z)
| AnomalyTask (secs : Z)
| StatusSampleTask (secs : Z)
| DeviceLimitTask (secs : Z)
| DriftTask (secs : Z)
| TelegramTask (token : string)
| DialTask (listen : string).

Definition service_tasks (built : Features) (lease telegram : option string) (reconcile_secs : Z) (dial_listen : string) : list Task :=
  [HaTask (lease_secs lease); ApiTask; ReconcileTask reconcile_secs; StatsTask 10 1000; DomainsTask (6 * 3600); QuotaTask 300; ReachTask 120;
   ScheduleTask 20; TrafficRetentionTask (6 * 3600); NoticeRetentionTask (6 * 3600); AnomalyTask 3600; StatusSampleTask 60; DeviceLimitTask 120;
   DriftTask 300]
  ++ match telegram with Some token => if is_empty (trim token) then [] else [TelegramTask token] | None => [] end
  ++ (if with_dial_acceptor built then [DialTask dial_listen] else []).

(** What must hold before any task is spawned, in the order it is asked. *)
Definition run_service `{Aead} (built : Features) (cell : CipherCell) (connects migrates : bool) (lease telegram : option string) (reconcile_secs : Z)
    (dial_listen : string) : result (list Task) cli_error :=
  if negb connects then Err NoDatabase else
  let? _ := require_secret_key cell in
  if negb migrates then Err NoDatabase else
  Ok (service_tasks built lease telegram reconcile_secs dial_listen).

(** The first task to end ends the service; the process exits with success. *)
Inductive task_end := Returned | Failed | Panicked.
Definition end_code (e : task_end) : string := match e with Returned => "M0108" | Failed => "M0109" | Panicked => "M0110" end.
Definition join_next (ended : list (Task * task_end)) : option string := option_map (fun te => end_code te.2) (head ended).

Definition serve `{Aead} (built : Features) (cell : CipherCell) (connects migrates : bool) (bind : string -> option SocketAddr) (api_token : option string)
    (adb : AuthDb) (listen : string) (mode : TlsMode) : result (SocketAddr * TlsMode) cli_error :=
  let? _ := require_secret_key cell in
  if negb connects then Err NoDatabase else
  if negb migrates then Err NoDatabase else
  api_serve built bind api_token adb listen mode.

Definition dial_accept `{Aead} (built : Features) (cell : CipherCell) (connects migrates : bool) (listen : string) : result string cli_error :=
  if negb (with_dial_acceptor built) then Err (NotBuilt "dial-acceptor") else
  let? _ := require_secret_key cell in
  if negb connects then Err NoDatabase else
  if negb migrates then Err NoDatabase else Ok listen.

(** ** Accounts from the shell *)

Inductive AdminAction :=
| AdminAdd (username role password : string)
| AdminList
| AdminPassword (username password : string)
| AdminRole (username role : string)
| AdminEnable (username : string)
| AdminDisable (username : string).

Definition no_change : AdminPatch := mkAdminPatch None None None None None None None.
Definition set_role (role : string) : AdminPatch := mkAdminPatch (Some role) None None None None None None.
Definition set_enabled (b : bool) : AdminPatch := mkAdminPatch None (Some b) None None None None None.
Definition set_password (hash : string) : AdminPatch := mkAdminPatch None None (Some hash) None None None None.

Definition tab : string := String (Ascii.ascii_of_nat 9) "".

Section Shell.
Context (argon2 : string -> option string) (sql_lower : string -> string) (collate : string -> string -> bool).

(** Looks an account up, updates it, and ends its sessions when asked. *)
Definition change_admin (t : Z) (username : string) (patch : AdminPatch) (sign_out : bool) (done : Admin.Admin -> string) (adb : AuthDb)
    : result (list string) cli_error * AuthDb :=
  match get_admin_by_username sql_lower username adb with
  | None => (Err (AdminNotFound username), adb)
  | Some entry =>
      match update_admin_row t (Admin.id entry) patch adb with
      | (Err e, adb) => (Err (QueryFailed e), adb)
      | (Ok _, adb) => (Ok [done entry], if sign_out then delete_admin_sessions (Admin.id entry) adb else adb)
      end
  end.

Definition admin (t : Z) (id : Uuid) (action : AdminAction) (adb : AuthDb) : result (list string) cli_error * AuthDb :=
  match action with
  | AdminAdd username role password =>
      if negb (valid_role role) then (Err BadRole, adb) else
      match hash_password argon2 password with
      | Err e => (Err (PasswordRefused e), adb)
      | Ok hash =>
          match create_admin_row sql_lower t id username hash role 0 0 0 0 adb with
          | (Err e, adb) => (Err (QueryFailed e), adb)
          | (Ok created, adb) => (Ok ["admin added: " +:+ Admin.username created +:+ " (" +:+ Admin.role created +:+ ")"], adb)
          end
      end
  | AdminList =>
      (Ok ((fun a => (if Admin.enabled a then "on" else "off") +:+ tab +:+ Admin.role a +:+ tab +:+ Admin.username a)
             <$> list_admins sql_lower collate adb), adb)
  | AdminPassword username password =>
      match get_admin_by_username sql_lower username adb with
      | None => (Err (AdminNotFound username), adb)
      | Some _ =>
          match hash_password argon2 password with
          | Err e => (Err (PasswordRefused e), adb)
          | Ok hash => change_admin t username (set_password hash) true (fun a => "password changed and sessions revoked: " +:+ Admin.username a) adb
          end
      end
  | AdminRole username role =>
      if negb (valid_role role) then (Err BadRole, adb)
      else change_admin t username (set_role role) false (fun a => "role changed: " +:+ Admin.username a +:+ " -> " +:+ role) adb
  | AdminEnable username => change_admin t username (set_enabled true) false (fun a => "admin enabled: " +:+ Admin.username a) adb
  | AdminDisable username => change_admin t username (set_enabled false) true (fun a => "admin disabled: " +:+ Admin.username a) adb
  end.
End Shell.

(** ** Pushing one node *)

Section PushCommand.
Context (collate : string -> string -> bool) (encrypt decrypt_ : string -> option string) (uuid_str : Uuid -> string).
Context (to_string : json -> option string) (mint : Uuid -> Uuid -> Uuid * Z * result Keypair wg_error).
Context (spec_hash : Pb.NodeSpec -> string) (to_value : SpecSummary -> json) (db_upper : string -> string).

Definition get_node_by_name (name : string) (w : World) : option Node.Node :=
  List.find (fun n => String.eqb (Node.name n) name) (rows (Db.nodes (tables (plane w)))).

(** The command's own registry starts without channels. *)
Definition push_command `{Aead} (cell : CipherCell) (connects : bool) (now event : Z) (dial : DialEnv) (r : apply_result) (node_name : string) (w : World)
    : result (string * string) cli_error * World :=
  match require_secret_key cell with
  | Err e => (Err e, w)
  | Ok _ =>
      if negb connects then (Err NoDatabase, w) else
      match get_node_by_name node_name w with
      | None => (Err (NoNode node_name), w)
      | Some node =>
          let w := on_deferred (fun _ => ∅) (on_conns (fun _ => ∅) w) in
          match connect_serve uuid_str db_upper now dial node w with
          | (Err e, w) => (Err (AgentFailed e), w)
          | (Ok _, w) =>
              match push collate encrypt decrypt_ uuid_str to_string mint spec_hash to_value now event r (Node.id node) w with
              | (Err e, w) => (Err (AgentFailed e), w)
              | (Ok message, w) => (Ok (Node.name node, message), w)
              end
          end
      end
  end.
End PushCommand.

(** ** Exposure *)

Lemma enabled_counted adb : (0 <? count_enabled_admins adb) = true <-> exists k a, admins adb !! k = Some a /\ Admin.enabled a = true.
Proof.
  unfold count_enabled_admins. rewrite Z.ltb_lt. split.
  - intros H. destruct (List.filter Admin.enabled (rows (admins adb))) as [|a l] eqn:E; [cbn in H; lia|].
    assert (Ha : In a (List.filter Admin.enabled (rows (admins adb)))) by (rewrite E; by left).
    apply List.filter_In in Ha as [(k & Hk)%in_rows He]. eauto.
  - intros (k & a & Hk & He). assert (Ha : In a (List.filter Admin.enabled (rows (admins adb)))).
    { apply List.filter_In. split; [apply in_rows; eauto|done]. }
    destruct (List.filter _ _); [done|cbn; lia].
Qed.

(** What the check on the address lets through. *)
Lemma safe_bind addr token adb : ensure_safe_api_bind addr token (0 <? count_enabled_admins adb) = Ok tt <->
  token <> Some "" /\ (ip_is_loopback (sock_ip addr) = true \/ is_Some token \/ exists k a, admins adb !! k = Some a /\ Admin.enabled a = true).
Proof.
  rewrite <- enabled_counted. unfold ensure_safe_api_bind. destruct token as [t|]; cbn [is_some_and is_some negb andb].
  - destruct (is_empty t) eqn:Et.
    + split; [done|]. intros [H _]. destruct t; [done|discriminate Et].
    + split; [|done]. intros _. split; [by intros [= ->]|]. right. left. by eexists.
  - destruct (0 <? count_enabled_admins adb); cbn [negb andb]; [split; [intros _; split; [done|auto]|done]|].
    destruct (ip_is_loopback (sock_ip addr)); cbn [negb]; [split; [intros _; split; [done|auto]|done]|].
    split; [done|]. intros [_ [|[[? ?]|]]]; done.
Qed.


(** The lease an operator can configure is renewed three times before it runs out. *)
Lemma lease_renewed var : 5 <= lease_secs var <= 300
  /\ 3 * renew_secs_of (lease_secs var * 1000000) <= ttl_secs_of (lease_secs var * 1000000).
Proof.
  assert (H : 5 <= lease_secs var <= 300) by (unfold lease_secs, clamp; lia). split; [done|].
  unfold renew_secs_of, ttl_secs_of. destruct (Z.le_gt_cases (Z.max (as_secs (lease_secs var * 1000000)) 3 / 3) 1).
  - lia.
  - assert (Hd := Z.mul_div_le (Z.max (as_secs (lease_secs var * 1000000)) 3) 3). lia.
Qed.

(** ** Accounts made and suspended from the shell *)

Section ShellFacts.
Context (argon2 : string -> option string) (sql_lower : string -> string) (collate : string -> string -> bool).
Context (token_hash : string -> string) (Net : Type) (parse_net : string -> option Net) (net_contains : Net -> IpAddr -> bool).
Context (verify_password verify_totp : string -> string -> bool) (decrypt : string -> option string).

#[local] Abbreviation shell := (admin argon2 sql_lower collate).
#[local] Abbreviation log_in := (login token_hash Net parse_net net_contains verify_password verify_totp decrypt sql_lower).

(** The row with a name nobody else has is found. *)
Lemma find_fresh (a : Admin.Admin) id (m : gmap Uuid Admin.Admin) name :
  sql_lower (Admin.username a) = sql_lower name -> m !! id = None ->
  existsb (fun b => String.eqb (sql_lower (Admin.username b)) (sql_lower name)) (rows m) = false ->
  List.find (fun b => String.eqb (sql_lower (Admin.username b)) (sql_lower name)) (rows (<[id := a]> m)) = Some a.
Proof.
  intros Hn Hid Hno. destruct (List.find _ (rows (<[id := a]> m))) as [b|] eqn:E.
  - apply find_some in E as [(k & Hk)%in_rows Hb]. apply lookup_insert_Some in Hk as [[_ ->]|[_ Hk]]; [done|].
    exfalso. apply not_true_iff_false in Hno. apply Hno, existsb_exists. exists b. split; [apply in_rows; eauto|done].
  - exfalso. assert (Ha : In a (rows (<[id := a]> m))) by (apply in_rows; exists id; apply lookup_insert_eq).
    apply (find_none _ _ E) in Ha. cbn in Ha. by rewrite Hn, String.eqb_refl in Ha.
Qed.

Lemma added_inv t id username role password adb out adb' : shell t id (AdminAdd username role password) adb = (Ok out, adb') ->
  exists h, argon2 password = Some h /\ valid_role role = true
    /\ get_admin_by_username sql_lower username adb' = Some (Admin.mk id (trim username) h role true false 0 0 0 0 None None t t)
    /\ adb' = with_admins (insert id (Admin.mk id (trim username) h role true false 0 0 0 0 None None t t)) adb.
Proof.
  unfold admin. destruct (valid_role role) eqn:Er; [|done]. cbn [negb]. unfold hash_password. destruct (len password <? 10); [done|].
  destruct (argon2 password) as [h|]; [|done]. unfold create_admin_row.
  destruct (negb _); [done|]. destruct (is_some (admins adb !! id) || _) eqn:Eu; [done|]. intros [= _ <-].
  apply orb_false_iff in Eu as [Hid Hno]. exists h. do 2 (split; [done|]). split; [|done].
  unfold get_admin_by_username. cbn. apply find_fresh; [done|by destruct (admins adb !! id)|done].
Qed.

(** An account added from the shell can be used: whoever enters its name, in any
    spelling the database folds to it, and its password is logged in with the role it
    was given, unless the client is locked out or its address is not allowed. *)
Theorem added_admin_logs_in t id username role password adb out adb' clk sid token hs input lim evs log_ :
  (forall p h, argon2 p = Some h -> verify_password p h = true) ->
  shell t id (AdminAdd username role password) adb = (Ok out, adb') ->
  sql_lower (trim (in_username input)) = sql_lower (trim username) -> in_password input = password ->
  (Login.locked_for (t_prune clk) (t_guard clk) (t_left clk) (default "unknown" (forwarded_remote hs)) lim).1 = None ->
  ip_allowed Net parse_net net_contains adb' (forwarded_remote hs) = true ->
  exists a st', log_in clk sid (Some token) hs input (mkState adb' lim evs log_) = (LoggedIn a token (utc clk + twelve_hours), st')
    /\ Admin.id a = id /\ Admin.role a = role.
Proof.
  intros Hlaw (h & Hh & _ & Hg & _)%added_inv Hn Hp Hl Hip. unfold login.
  destruct (Login.locked_for _ _ _ _ _) as [locked m]. cbn in Hl. subst locked. cbn [auth_db on_limiter].
  assert (Hg' : get_admin_by_username sql_lower (in_username input) adb' = get_admin_by_username sql_lower username adb')
    by (unfold get_admin_by_username; by rewrite Hn).
  rewrite Hg', Hg. cbn [opt_filter Admin.enabled]. unfold verified_admin. cbn [opt_filter Admin.password_hash]. rewrite Hp, (Hlaw _ _ Hh), Hip.
  cbn [negb Admin.totp_enabled]. do 2 eexists. split; [reflexivity|done].
Qed.

Lemma login_enabled clk sid token hs input st a tok e st' : log_in clk sid token hs input st = (LoggedIn a tok e, st') ->
  exists k, admins (auth_db st) !! k = Some a /\ Admin.enabled a = true.
Proof.
  unfold login. destruct (Login.locked_for _ _ _ _ _) as [[?|] m]; [done|]. cbn [auth_db on_limiter]. unfold verified_admin.
  destruct (get_admin_by_username _ _ _) as [b|] eqn:Eg; [|done]. cbn [opt_filter]. destruct (Admin.enabled b) eqn:Ee; [|done]. cbn [opt_filter].
  destruct (verify_password _ _); [|done]. destruct (negb _); [done|]. apply get_admin_in in Eg as [k Hk]. intros H. exists k.
  assert (a = b) as ->; [|done]. destruct (Admin.totp_enabled b).
  - destruct (_ && _); [done|]. destruct (second_factor _ _ _ _ _ _ _ _) as [[t1 t2] db1]. destruct (_ && _); [done|]. destruct token; [|done]. by injection H.
  - destruct token; [|done]. by injection H.
Qed.

Definition admins_keyed (adb : AuthDb) : Prop := map_Forall (fun k a => Admin.id a = k) (admins adb).

(** An account disabled from the shell is out at once and stays out until it is
    enabled: nobody is logged in as it, and no session cookie it had still names it. *)
Theorem disabled_admin_out t id username adb out adb' api_token : admins_keyed adb ->
  shell t id (AdminDisable username) adb = (Ok out, adb') ->
  exists entry, get_admin_by_username sql_lower username adb = Some entry
    /\ (forall clk sid token hs input lim evs log_ a tok e st',
          log_in clk sid token hs input (mkState adb' lim evs log_) = (LoggedIn a tok e, st') -> Admin.id a <> Admin.id entry)
    /\ (forall f t' hs j c db, bearer hs = None -> identify token_hash api_token f t' hs adb' = (Ok (Some (j, c)), db) ->
          admin_id j <> Some (Admin.id entry)).
Proof.
  intros Hk. unfold admin, change_admin. destruct (get_admin_by_username _ _ _) as [entry|] eqn:Eg; [|done]. unfold update_admin_row.
  destruct (get_admin_in sql_lower _ _ _ Eg) as [k Hrow]. assert (Hid := Hk _ _ Hrow). cbn in Hid. subst k. rewrite Hrow.
  destruct (valid_role _); [|done]. intros [= _ <-]. exists entry. split; [done|].
  set (gone := admin_updated t (set_enabled false) entry).
  assert (Hk' : admins_keyed (with_admins (insert (Admin.id entry) gone) adb)).
  { intros k a. cbn. intros [[<- <-]|[_ Ha]]%lookup_insert_Some; [done|by apply Hk]. }
  split.
  - intros * (k & Ha & He)%login_enabled Heq. cbn in Ha. assert (Hka := Hk' _ _ Ha). cbn in Hka. rewrite <- Hka, Heq, lookup_insert_eq in Ha.
    injection Ha as <-. done.
  - intros f t' hs j c db Hb. unfold identify. fold (bearer hs). rewrite Hb. destruct (cookie _ _) as [tok|]; [|done].
    destruct (session_lookup_fails f); [done|]. destruct (admin_for_session _ _ _) as [[x|] db1] eqn:Es; [|done]. intros [= <- _ _]. cbn.
    apply admin_for_session_inv in Es as (_ & se & Hin & _ & _ & Hx & _). intros [= Heq]. cbn in Hin, Hx.
    apply List.filter_In in Hin as [_ Hne%negb_true_iff%Z.eqb_neq]. apply Hne. by rewrite <- Heq, (Hk' _ _ Hx).
Qed.
End ShellFacts.

(** ** Examples *)

Definition fake_argon2 (p : string) : option string := Some ("hash of " +:+ p).
Definition fake_verify (p h : string) : bool := String.eqb h ("hash of " +:+ p).
Definition rooted : result (list string) cli_error * AuthDb :=
  admin fake_argon2 to_ascii_lowercase String.leb 5 1 (AdminAdd " Root " "owner" "correct horse") empty_auth.

Lemma added_admin_logs_in_witness : exists a st',
  login (fun s => s) unit (fun _ => None) (fun _ _ => false) fake_verify (fun _ _ => false) (fun _ => None) to_ascii_lowercase (mkClock 0 0 0 0 9) 4 (Some "tok") []
    (mkInput "ROOT" "correct horse" None None) (mkState rooted.2 ∅ [] []) = (LoggedIn a "tok" (9 + twelve_hours), st') /\ Admin.id a = 1 /\ Admin.role a = "owner".
Proof.
  refine (added_admin_logs_in fake_argon2 to_ascii_lowercase String.leb (fun s => s) unit (fun _ => None) (fun _ _ => false) fake_verify (fun _ _ => false)
    (fun _ => None) 5 1 " Root " "owner" "correct horse" empty_auth ["admin added: Root (owner)"] rooted.2 (mkClock 0 0 0 0 9) 4 "tok" []
    (mkInput "ROOT" "correct horse" None None) ∅ [] [] _ _ _ _ _ _); try (vm_compute; reflexivity).
  intros p h [= <-]. apply String.eqb_refl.
Defined.

Lemma disabled_admin_out_witness : exists entry, get_admin_by_username to_ascii_lowercase "root" rooted.2 = Some entry.
Proof.
  destruct (disabled_admin_out fake_argon2 to_ascii_lowercase String.leb (fun s => s) unit (fun _ => None) (fun _ _ => false) fake_verify (fun _ _ => false)
    (fun _ => None) 7 2 "root" rooted.2 ["admin disabled: Root"] (admin fake_argon2 to_ascii_lowercase String.leb 7 2 (AdminDisable "root") rooted.2).2 None)
    as (entry & H & _).
  - intros k a. vm_compute. intros H. destruct k as [|p|p]; try discriminate. destruct p; try discriminate. injection H as <-. reflexivity.
  - vm_compute. reflexivity.
  - exists entry. exact H.
Defined.
