(* ===== verification/Process.v ===== *)
(** * The command line (src/master/src/main.rs)

    Every subcommand with its arguments, and the process from the key source to the
    command's effect.  Each command works on the tables its own file models: the
    accounts, the panel domains, the stored secrets, or the fleet.  Parsing the
    arguments is not modelled. *)

From S2P Require Import Prelude Strings Json Ip Models Db Api Handler PanelHost Ha RateLimit Auth Login Users Accounts Secrets Access Wg Subscription Spec Enroll Push Live Agents Commands.

(** ** Arguments *)

Record TlsArgs := mkTlsArgs {
  arg_tls_cert : option string;
  arg_tls_key : option string;
  arg_acme_domain : list string;
  arg_acme_email : option string;
  arg_acme_cache : string;
  arg_acme_staging : bool }.

Inductive Cmd :=
| Ping (agent certs_dir : string)
| Migrate (database_url : string)
| Keygen
| Reencrypt (database_url : string)
| Rekey (old_key new_key database_url : string)
| AdminCmd (action : AdminAction) (database_url : string)
| DomainCmd (action : DomainAction) (database_url : string)
| PushCmd (node database_url certs_dir : string)
| Serve (database_url certs_dir listen : string) (api_token : option string) (tls : TlsArgs)
| Dial (database_url certs_dir listen : string)
| Run (database_url certs_dir api_listen dial_listen : string) (api_token : option string) (reconcile_secs : Z) (tls : TlsArgs).

Definition tls_mode (a : TlsArgs) : result TlsMode cli_error :=
  build_tls_mode (arg_tls_cert a) (arg_tls_key a) (arg_acme_domain a) (arg_acme_email a) (arg_acme_cache a) (arg_acme_staging a).

(** ** The process *)

Section Process.
Context `{Aead, Base64}.
Context (argon2 : string -> option string) (sql_lower : string -> string) (collate : string -> string -> bool).
Context (pg_space : string -> bool) (url_parse : string -> option Url).
(* Sealing draws a nonce of its own at every call. *)
Context (encrypt_ : CipherCell -> string -> option string) (uuid_str : Uuid -> string).
Context (to_string : json -> option string) (mint : Uuid -> Uuid -> Uuid * Z * result Keypair wg_error).
Context (spec_hash : Pb.NodeSpec -> string) (to_value : SpecSummary -> json) (db_upper : string -> string).
Context (pem_certs : string -> option (list string)) (pem_key : string -> option (option string)).
Context (root_ok : string -> bool) (identity_ok : list string -> string -> bool) (sha256 : string -> list Z).
Context (url_host_port : string -> option (option string * option Z)) (server_name_ok : string -> bool).

(** What the machine gives a run: the environment and the key backends, random bytes,
    whether a database answers and its migrations apply, clock and fresh ids,
    listeners, the network, and what agents answer. *)
Record Surroundings := mkSurroundings {
  source : SourceEnv;
  random_key : option string;
  nonces : string * Uuid -> option string;
  connects : string -> bool;
  migrates : string -> bool;
  clock_ : Z;
  fresh_id : Uuid;
  built : Features;
  bind : string -> option SocketAddr;
  dials : DialEnv;
  applies : apply_result;
  files : Files;
  tcp_connects : string -> Z -> bool;
  tls_handshake : ClientConfig -> string -> option Stream;
  http2_preface : bool;
  who_ru : option (string * string);
  pinged : Z * Z * bool }.

(** The cipher cell and the tables. *)
Record Host := mkHost {
  cell : CipherCell;
  host_auth : AuthDb;
  host_domains : list PanelDomain;
  host_secrets : SecretColumns;
  host_world : World }.

Inductive failure :=
| KeySourceFailed (e : source_error)
| KeyRefused (e : secret_error)
| CommandFailed (e : cli_error)
| RotationRefused (e : Secrets.command_error)
| DomainRefused (e : PanelHost.command_error)
| PingFailed (e : agent_error)
| Unreachable_.

Inductive output :=
| Prints (lines : list string)
| Pushed (name message : string)
| AnswersOn (addr : SocketAddr) (mode : TlsMode)
| AcceptsOn (listen : string)
| RunsTasks (mode : TlsMode) (tasks : list Task).

Definition with_cell c (h : Host) : Host := mkHost c (host_auth h) (host_domains h) (host_secrets h) (host_world h).
Definition with_auth a (h : Host) : Host := mkHost (cell h) a (host_domains h) (host_secrets h) (host_world h).
Definition with_domains d (h : Host) : Host := mkHost (cell h) (host_auth h) d (host_secrets h) (host_world h).
Definition with_host_secrets s (h : Host) : Host := mkHost (cell h) (host_auth h) (host_domains h) s (host_world h).
Definition with_host_world w (h : Host) : Host := mkHost (cell h) (host_auth h) (host_domains h) (host_secrets h) w.

Definition failed {A} (r : result A cli_error) : result A failure := match r with Ok a => Ok a | Err e => Err (CommandFailed e) end.

(** A command that needs the migrated database. *)
Definition on_database {A} (env : Surroundings) (url : string) (h : Host) (k : result A failure * Host) : result A failure * Host :=
  if negb (connects env url) || negb (migrates env url) then (Err (CommandFailed NoDatabase), h) else k.

Definition count_nodes (w : World) : Z := Z.of_nat (length (rows (Db.nodes (tables (plane w))))).

(** Dials an agent, asks who it is, and measures a round trip; [who_ru] is the node id
    and system it answers with, [pinged] the clock before and after and whether the
    call was answered. *)
Definition ping_agent (env : Surroundings) (agent certs_dir : string) : result output failure :=
  match (let? client := connect pem_certs pem_key root_ok identity_ok sha256 url_host_port server_name_ok
                          (tcp_connects env) (tls_handshake env) (http2_preface env) (files env) agent certs_dir "honey-agent" in
         let? who := match who_ru env with Some who => Ok who | None => Err RpcFailed end in
         let '(sent, received, answered) := pinged env in
         let? rtt := ping sent received answered in
         Ok (who, rtt)) with
  | Err e => Err (PingFailed e)
  | Ok (node_id, os, rtt) => Ok (Prints ["connected to node '" +:+ node_id +:+ "' (" +:+ os +:+ "), rtt " +:+ show rtt +:+ " ms"])
  end.

(** The command, once the key is in place.  The line a push prints also shows the
    state and process id of the agent's answer. *)
Definition dispatch (env : Surroundings) (cmd : Cmd) (h : Host) : result output failure * Host :=
  match cmd with
  | Ping agent certs_dir => (ping_agent env agent certs_dir, h)
  | Migrate url => on_database env url h (Ok (Prints ["migrations applied. nodes in db: " +:+ show (count_nodes (host_world h))]), h)
  | Keygen => (Err Unreachable_, h)
  | Reencrypt url =>
      if is_enabled (cell h) && negb (connects env url) then (Err (CommandFailed NoDatabase), h) else
      let '(r, s) := reencrypt (cell h) (nonces env) (host_secrets h) in
      (match r with
       | Ok (users, inbounds) => Ok (Prints ["re-encrypted " +:+ show users +:+ " user secret(s) and " +:+ show inbounds +:+ " reality key(s)"])
       | Err e => Err (RotationRefused e)
       end, with_host_secrets s h)
  | Rekey old_key new_key url =>
      let refused := is_empty (trim old_key) || is_empty (trim new_key) || String.eqb (trim old_key) (trim new_key) in
      if negb refused && negb (connects env url) then (Err (CommandFailed NoDatabase), h) else
      let '(r, s) := rekey old_key new_key (nonces env) (host_secrets h) in
      (match r with
       | Ok (users, inbounds, admins) =>
           Ok (Prints ["rekeyed " +:+ show users +:+ " user secret(s), " +:+ show inbounds +:+ " reality key(s), " +:+ show admins +:+ " totp secret(s)";
                       "now restart honey-master with HONEY_SECRET_KEY set to the new key."])
       | Err e => Err (RotationRefused e)
       end, with_host_secrets s h)
  | AdminCmd action url =>
      on_database env url h
        (let '(r, a) := admin argon2 sql_lower collate (clock_ env) (fresh_id env) action (host_auth h) in
         (match r with Ok l => Ok (Prints l) | Err e => Err (CommandFailed e) end, with_auth a h))
  | DomainCmd action url =>
      on_database env url h
        (let '(r, d) := domain_command sql_lower pg_space url_parse action (host_domains h) in
         (match r with Ok l => Ok (Prints l) | Err e => Err (DomainRefused e) end, with_domains d h))
  | PushCmd node url _ =>
      let '(r, w) := push_command collate (encrypt_ (cell h)) (fun s => ok_value (Secrets.decrypt (cell h) s)) uuid_str to_string mint spec_hash to_value db_upper (cell h) (connects env url)
                       (clock_ env) (fresh_id env) (dials env) (applies env) node (host_world h) in
      (match r with
       | Ok (name, message) => Ok (Pushed name message)
       | Err e => Err (CommandFailed e)
       end, with_host_world w h)
  | Serve url _ listen api_token tls =>
      (failed (let? mode := tls_mode tls in
               let? am := serve (built env) (cell h) (connects env url) (migrates env url) (bind env) api_token (host_auth h) listen mode in
               Ok (AnswersOn am.1 am.2)), h)
  | Dial url _ listen =>
      (failed (let? l := dial_accept (built env) (cell h) (connects env url) (migrates env url) listen in Ok (AcceptsOn l)), h)
  | Run url _ api_listen dial_listen api_token reconcile_secs tls =>
      (failed (let? mode := tls_mode tls in
               let? tasks := run_service (built env) (cell h) (connects env url) (migrates env url) (var (source env) "HONEY_HA_LEASE_SECS") (var (source env) "HONEY_TELEGRAM_TOKEN") reconcile_secs dial_listen in
               Ok (RunsTasks mode tasks)), h)
  end.

(** Keygen prints a key without needing one; every other command comes after the key
    source has answered and the cipher is set up. *)
Definition main (env : Surroundings) (cmd : Cmd) (h : Host) : result output failure * Host :=
  match cmd with
  | Keygen => (match generate_key_b64 (random_key env) with Ok k => Ok (Prints [k]) | Err e => Err (KeyRefused e) end, h)
  | _ =>
      match resolve (source env) with
      | Err e => (Err (KeySourceFailed e), h)
      | Ok (key, _) =>
          match init key (cell h) with
          | (Err e, c) => (Err (KeyRefused e), with_cell c h)
          | (Ok _, c) => dispatch env cmd (with_cell c h)
          end
      end
  end.

(** ** Commands and the key *)

Definition same_tables (h h' : Host) : Prop :=
  host_auth h' = host_auth h /\ host_domains h' = host_domains h /\ host_secrets h' = host_secrets h /\ host_world h' = host_world h.

(** The commands that handle stored secrets or reach agents with them. *)
Definition needs_key (cmd : Cmd) : bool :=
  match cmd with Reencrypt _ | PushCmd _ _ _ | Serve _ _ _ _ _ | Dial _ _ _ | Run _ _ _ _ _ _ _ => true | _ => false end.

Lemma keyless_dispatch env cmd h : needs_key cmd = true -> is_enabled (cell h) = false ->
  exists e, (dispatch env cmd h).1 = Err e /\ same_tables h (dispatch env cmd h).2.
Proof.
  intros Hn Hk. destruct cmd; try discriminate Hn; cbn.
  - unfold reencrypt. rewrite Hk. cbn. eexists. split; [reflexivity|done].
  - unfold push_command, require_secret_key. rewrite Hk. eexists. split; [reflexivity|done].
  - unfold serve, require_secret_key. rewrite Hk. destruct (tls_mode tls); eexists; (split; [reflexivity|done]).
  - unfold dial_accept, require_secret_key. rewrite Hk. destruct (with_dial_acceptor _); eexists; (split; [reflexivity|done]).
  - unfold run_service, require_secret_key. rewrite Hk.
    destruct (tls_mode tls); cbn; [destruct (connects env database_url)|]; eexists; (split; [reflexivity|done]).
Qed.

(** A fresh cell holds a cipher only for a key of 32 bytes. *)
Lemma init_fresh key r cipher : init key None = (r, Some (Some cipher)) ->
  exists k bytes, key = Some k /\ b64_decode (trim k) = Some bytes /\ len bytes = 32 /\ cipher = new_cipher bytes.
Proof.
  unfold init. destruct key as [k|]; [|done]. destruct (is_empty (trim k)); [done|].
  destruct (b64_decode (trim k)) as [bytes|] eqn:Hb; [|done]. destruct (len bytes =? 32) eqn:Hl; [|done].
  intros [= _ <-]. exists k, bytes. by apply Z.eqb_eq in Hl.
Qed.

(** A run either stops before its command, or runs it with the cell [init] made. *)
Lemma main_cases env cmd h : cmd <> Keygen ->
  (exists e, (main env cmd h).1 = Err e /\ same_tables h (main env cmd h).2)
  \/ exists key backend c, resolve (source env) = Ok (key, backend) /\ init key (cell h) = (Ok tt, c)
       /\ main env cmd h = dispatch env cmd (with_cell c h).
Proof.
  intros Hc. assert (E : main env cmd h =
    match resolve (source env) with
    | Err e => (Err (KeySourceFailed e), h)
    | Ok (key, _) => match init key (cell h) with
                     | (Err e, c) => (Err (KeyRefused e), with_cell c h)
                     | (Ok _, c) => dispatch env cmd (with_cell c h)
                     end
    end) by by destruct cmd.
  rewrite E. destruct (resolve _) as [[key backend]|e]; [|left; by eexists].
  destruct (init key (cell h)) as [[[]|e] c] eqn:Ei; [|left; by eexists]. right. eauto 10.
Qed.

(** No command that handles stored secrets does anything without a key: if it
    succeeds, or changes a row, the configured source gave a key of 32 bytes and the
    cipher in use is that key's. *)
Theorem secrets_need_key env cmd h r h' : cell h = None -> needs_key cmd = true -> main env cmd h = (r, h') ->
  is_ok r = true \/ ~ same_tables h h' ->
  exists key backend bytes, resolve (source env) = Ok (Some key, backend) /\ b64_decode (trim key) = Some bytes /\ len bytes = 32
    /\ init (Some key) None = (Ok tt, Some (Some (new_cipher bytes))).
Proof.
  intros Hf Hn Hm Hd. destruct (main_cases env cmd h) as [(e & He & Hs)|(key & backend & c & Hr & Hi & Hmd)]; [by intros ->| |].
  - rewrite Hm in He, Hs. cbn in He, Hs. subst r. by destruct Hd.
  - rewrite Hf in Hi. destruct (is_enabled c) eqn:Hk.
    + destruct c as [[cipher|]|]; [|done|done]. destruct (init_fresh _ _ _ Hi) as (k & bytes & -> & Hb & Hl & ->). eauto 10.
    + destruct (keyless_dispatch env cmd (with_cell c h) Hn Hk) as (e & He & Hs).
      rewrite <- Hmd, Hm in He, Hs. cbn in He, Hs. subst r. by destruct Hd.
Qed.

(** ** Commands that fail *)

Lemma change_admin_failed t username patch out done adb e adb' : change_admin sql_lower t username patch out done adb = (Err e, adb') -> adb' = adb.
Proof.
  unfold change_admin, update_admin_row. destruct (get_admin_by_username _ _ _) as [a|]; [|by intros [= _ <-]].
  destruct (admins adb !! Admin.id a); [|done]. destruct (valid_role _); [done|]. by intros [= _ <-].
Qed.

Lemma admin_failed t id action adb e adb' : admin argon2 sql_lower collate t id action adb = (Err e, adb') -> adb' = adb.
Proof.
  unfold admin. destruct action as [u r p| |u p|u r|u|u].
  - destruct (negb (valid_role r)); [by intros [= _ <-]|]. destruct (hash_password argon2 p); [|by intros [= _ <-]].
    unfold create_admin_row. destruct (negb _); [by intros [= _ <-]|]. destruct (_ || _); [by intros [= _ <-]|done].
  - done.
  - destruct (get_admin_by_username sql_lower u adb); [|by intros [= _ <-]].
    destruct (hash_password argon2 p); [apply change_admin_failed|by intros [= _ <-]].
  - destruct (negb (valid_role r)); [by intros [= _ <-]|apply change_admin_failed].
  - apply change_admin_failed.
  - apply change_admin_failed.
Qed.

Lemma domain_failed action l e l' : domain_command sql_lower pg_space url_parse action l = (Err e, l') -> l' = l.
Proof.
  unfold domain_command. destruct action as [target path| |target path]; [|done|].
  - destruct (parse url_parse target path) as [t|]; [|by intros [= _ <-]]. unfold add_panel_domain.
    destruct (negb _); [by intros [= _ <-]|]. by destruct (existsb _ _).
  - destruct (parse url_parse target path) as [t|]; [|by intros [= _ <-]]. by destruct (remove_panel_domain _ _ _).
Qed.

(** The commands whose work is more than one statement. *)
Definition in_steps (cmd : Cmd) : bool := match cmd with Reencrypt _ | Rekey _ _ _ | PushCmd _ _ _ => true | _ => false end.

(** A command that reports an error has changed no row, unless it works in several
    steps: re-encryption, rotation, and a push, which records its failure. *)
Theorem failed_command_no_trace env cmd h e h' : in_steps cmd = false -> main env cmd h = (Err e, h') -> same_tables h h'.
Proof.
  intros Hs Hm. assert (cmd = Keygen \/ cmd <> Keygen) as [->|Hc] by (destruct cmd; by (by left) || right).
  { cbn in Hm. by injection Hm as _ <-. }
  destruct (main_cases env cmd h Hc) as [(e' & _ & Ht)|(key & backend & c & _ & _ & Hmd)]; [by rewrite Hm in Ht|].
  rewrite Hm in Hmd. clear Hm. destruct cmd; try discriminate Hs; cbn in Hmd; unfold on_database in Hmd.
  - by injection Hmd as _ ->.
  - destruct (_ || _); by injection Hmd as _ ->.
  - done.
  - destruct (_ || _); [by injection Hmd as _ ->|].
    destruct (admin _ _ _ _ _ _ _) as [[l|e'] a] eqn:Ea; [done|]. apply admin_failed in Ea as ->. by injection Hmd as _ ->.
  - destruct (_ || _); [by injection Hmd as _ ->|].
    destruct (domain_command _ _ _ _ _) as [[l|e'] d] eqn:Ea; [done|]. apply domain_failed in Ea as ->. by injection Hmd as _ ->.
  - by injection Hmd as _ ->.
  - by injection Hmd as _ ->.
  - by injection Hmd as _ ->.
Qed.

(** ** A generated key *)

(** What keygen prints starts the service: put into the environment, also with white
    space around it, it is the key every later run initializes with, whatever other
    source is configured, and the commands that require a key go on. *)
Theorem generated_key_starts `{!Base64Laws} env key printed h h1 env' cmd h' pre post :
  String.length key = 32%nat -> random_key env = Some key -> main env Keygen h = (Ok (Prints [printed]), h1) ->
  var (source env') "HONEY_SECRET_KEY" = Some (pre +:+ printed +:+ post) ->
  trim (pre +:+ printed +:+ post) = printed -> is_empty printed = false -> cell h' = None -> cmd <> Keygen ->
  main env' cmd h' = dispatch env' cmd (with_cell (Some (Some (new_cipher key))) h')
  /\ require_secret_key (Some (Some (new_cipher key))) = Ok tt.
Proof.
  intros Hl Hr Hk Hv Ht He Hc Hn. split; [|done]. cbn in Hk. rewrite Hr in Hk. injection Hk as Hp _.
  assert (Hres : resolve (source env') = Ok (Some printed, "env")).
  { unfold resolve, Secrets.env. rewrite Hv, Ht, He. cbn. by rewrite He. }
  assert (Htt : trim printed = printed) by (rewrite <- Ht at 1 2; by rewrite trim_trim).
  assert (Hi : init (Some printed) None = (Ok tt, Some (Some (new_cipher key)))).
  { unfold init. rewrite Htt, He, <- Hp, b64_decode_encode. unfold len. by rewrite Hl. }
  destruct cmd; try done; unfold main; by rewrite Hres, Hc, Hi.
Qed.
End Process.

(** ** A first start

    On a machine with an empty database: without a key the API refuses to start; keygen
    prints one; with it in the environment an owner is added and the API answers beyond
    the loopback interface, which it refuses while there is neither owner nor token. *)
#[local] Instance plain_aead : Aead := {|
  Cipher := string;
  new_cipher := fun key => key;
  seal := fun key nonce p => Some (key +:+ p);
  unseal := fun key nonce ct => strip_prefix key ct |}.
#[local] Instance plain_base64 : Base64 := {| b64_encode := fun s => s; b64_decode := Some |}.

Definition machine (key : option string) : Surroundings := {|
  source := mkSource (fun name => if String.eqb name "HONEY_SECRET_KEY" then key else None) (fun _ => None) (fun _ _ => None) (fun _ => None);
  random_key := Some "0123456789abcdef0123456789abcdef";
  nonces := fun _ => None; connects := fun _ => true; migrates := fun _ => true; clock_ := 0; fresh_id := 1;
  built := mkFeatures false false false; bind := parse_socket; dials := mkDial None None; applies := AgentRejected; files := ∅;
  tcp_connects := fun _ _ => false; tls_handshake := fun _ _ => None; http2_preface := false; who_ru := None; pinged := (0, 0, false) |}.

Definition no_rows : SecretColumns := mkColumns [] [] [] [] [] [] [].
Definition fresh_host : Host := mkHost None empty_auth [] no_rows (mkWorld (mkPlane empty_db [] [] []) ∅ ∅ ∅ [] ∅).

#[local] Abbreviation run := (main (fun p => Some ("hash:" +:+ p)) to_ascii_lowercase String.leb (fun _ => false) (fun _ => None) (fun _ => Some) show
  (fun _ => None) (fun _ _ => (0, 0, Err RngFailed)) (fun _ => "") (fun _ => JNull) to_ascii_uppercase (fun _ => None) (fun _ => None) (fun _ => true)
  (fun _ _ => true) (fun _ => []) (fun _ => None) (fun _ => true)).

Definition add_owner : Cmd := AdminCmd (AdminAdd "root" "owner" "correct horse") "postgres://db".
Definition serve_public : Cmd := Serve "postgres://db" "certs" "0.0.0.0:8080" None (mkTlsArgs None None [] None "" false).
Definition first_key : string := "0123456789abcdef0123456789abcdef".

Example first_start :
  (run (machine None) serve_public fresh_host).1 = Err (CommandFailed SecretKeyRequired)
  /\ (run (machine None) Keygen fresh_host).1 = Ok (Prints [first_key])
  /\ (run (machine (Some first_key)) serve_public fresh_host).1 = Err (CommandFailed (RefusingToExpose (mkSocket (V4 0) 8080)))
  /\ let '(r, h) := run (machine (Some first_key)) add_owner fresh_host in
     r = Ok (Prints ["admin added: root (owner)"])
     /\ (run (machine (Some first_key)) serve_public (with_cell None h)).1 = Ok (AnswersOn (mkSocket (V4 0) 8080) TlsNone).
Proof. vm_compute. repeat split. Qed.
