(* ===== verification/Views.v ===== *)
(** * What is shown of inbounds (the handlers node_inbounds, get_inbound and
    node_certificates and the request id of src/master/src/api/mod.rs, with their
    queries in src/master/src/db/repo.rs) *)

From S2P Require Import Prelude Strings Json Models Db Api Auth Versions Inbounds Gitops Access Wg Subscription Spec Enroll Live.

(** ** Inbounds *)

Section Views.
Context (decrypt : string -> option string) (uuid_str : Uuid -> string) (timestamp : Z -> string).

(** [InboundView]: the fields of the inbound and the state of its certificate. *)
Definition inbound_view (i : Inbound.Inbound) : json :=
  let '(source, status) := certificate_view i in
  jset "certificate_status" (JString status) (jset "certificate_source" (JString source) (inbound_json uuid_str timestamp i)).

Definition node_inbounds_view (id : Uuid) (db : Db) : result json api_error :=
  match nodes db !! id with
  | None => Err (NotFound "node not found")
  | Some _ => match node_inbounds decrypt id db with
              | Err e => Err (ApiDb e)
              | Ok l => Ok (JArray (inbound_view <$> l))
              end
  end.

Definition get_inbound_view (id : Uuid) (db : Db) : result json api_error :=
  match get_inbound decrypt id db with
  | Err e => Err (ApiDb e)
  | Ok None => Err (NotFound "inbound not found")
  | Ok (Some i) => Ok (inbound_view i)
  end.
End Views.

(** ** Credentials of nodes *)

(** Newest first; the rows come in the order they were made. *)
Definition list_node_certificates (node_id : Uuid) (l : list NodeCertificate) : list NodeCertificate :=
  sort_by (fun a b => nc_issued_at b <=? nc_issued_at a) (List.filter (fun c => nc_node_id c =? node_id) l).

(** ** Request ids *)

(** The id a request carries into the log and back to its caller. *)
Definition request_id (fresh : string) (hs : headers) : string :=
  match Auth.header "x-request-id" hs with
  | Some s => if negb (is_empty s) && (len s <=? 128) then s else fresh
  | None => fresh
  end.

(** What is written into the log is one line of printable text, tabs included, of at
    most 128 bytes, whatever the caller sends. *)
Lemma request_id_bounded fresh hs : len fresh <= 128 -> all_bytes (fun c => between 32 126 c || (code c =? 9)) fresh = true ->
  len (request_id fresh hs) <= 128 /\ all_bytes (fun c => between 32 126 c || (code c =? 9)) (request_id fresh hs) = true.
Proof.
  intros Hl Hp. unfold request_id, Auth.header. destruct (List.find _ hs) as [[n v]|]; [|done].
  destruct (all_bytes _ v) eqn:Ev; [|done]. destruct (negb (is_empty v) && (len v <=? 128)) eqn:E; [|done].
  apply andb_true_iff in E as [_ E%Z.leb_le]. done.
Qed.

(** ** What the views hide, and what they do not *)

Section Facts.
Context (decrypt : string -> option string) (uuid_str : Uuid -> string) (timestamp : Z -> string).

Lemma view_of_secrets k p i : inbound_view uuid_str timestamp (with_secrets k p i) = inbound_view uuid_str timestamp i.
Proof. reflexivity. Qed.

(** Rows that differ only in the two private columns. *)
Definition same_public (i j : Inbound.Inbound) : Prop := exists k p, j = with_secrets k p i.

Lemma same_public_view i j : same_public i j -> inbound_view uuid_str timestamp j = inbound_view uuid_str timestamp i.
Proof. intros (k & p & ->). apply view_of_secrets. Qed.

Lemma decrypted_public i i' : decrypt_inbound decrypt i = Ok i' -> same_public i i'.
Proof.
  unfold decrypt_inbound. destruct (decrypt_opt _ _) as [k|]; [|done]. destruct (decrypt_opt _ _) as [p|]; [|done].
  intros [= <-]. by exists k, p.
Qed.

(** The answer about an inbound says nothing of its REALITY private key and chain
    password: two databases that differ in these columns alone, and whose columns both
    decrypt, give the same answer. *)
Theorem private_columns_hidden id db db' r r' :
  option_Forall2 same_public (inbounds db !! id) (inbounds db' !! id) ->
  get_inbound_view decrypt uuid_str timestamp id db = Ok r -> get_inbound_view decrypt uuid_str timestamp id db' = Ok r' -> r' = r.
Proof.
  intros Hs. unfold get_inbound_view, get_inbound. inversion Hs as [i j Hij Hi Hj|]; [|done].
  destruct (decrypt_inbound decrypt i) as [i'|] eqn:Ei; [|done]. destruct (decrypt_inbound decrypt j) as [j'|] eqn:Ej; [|done].
  cbn. intros [= <-] [= <-].
  by rewrite (same_public_view _ _ (decrypted_public _ _ Ei)), (same_public_view _ _ (decrypted_public _ _ Ej)), (same_public_view _ _ Hij).
Qed.

Lemma view_chain_uuid i : get "chain_uuid" (inbound_view uuid_str timestamp i) = Some (jopt_str (Inbound.chain_uuid i)).
Proof. unfold inbound_view. destruct (certificate_view i). vm_compute. reflexivity. Qed.

(** The chain uuid is not hidden.  What GET shows of an entry inbound is the uuid of a
    user without quota that the exit node serves on the inbound the entry exits
    through, which is all a VLESS client needs there. *)
Theorem chain_uuid_shown collate encrypt to_string mint now exit_node pl spec peers kx ke exit_ entry uuid password v :
  build_node_spec collate encrypt decrypt uuid_str to_string mint now exit_node pl = (Ok spec, peers) ->
  inbounds (tables pl) !! kx = Some exit_ -> Inbound.node_id exit_ = exit_node -> Inbound.enabled exit_ = true ->
  inbounds (tables pl) !! ke = Some entry -> Inbound.enabled entry = true -> Inbound.upstream_inbound_id entry = Some (Inbound.id exit_) ->
  Inbound.chain_uuid entry = Some uuid -> mbind decrypt (Inbound.chain_password entry) = Some password ->
  get_inbound_view decrypt uuid_str timestamp ke (tables pl) = Ok v ->
  exists pb pu, In pb (Pb.inbounds spec) /\ Pb.tag pb = Inbound.tag exit_ /\ In pu (Pb.users pb) /\ Pb.quota_bytes pu = 0
    /\ get "chain_uuid" v = Some (JString (Pb.uuid pu)).
Proof.
  intros Hb Hx Hn Hxe He Hee Hup Hu Hp Hv. unfold get_inbound_view, get_inbound in Hv. rewrite He in Hv.
  destruct (decrypt_inbound decrypt entry) as [entry'|] eqn:Ed; [|done]. cbn in Hv. injection Hv as <-.
  assert (Hpw : Inbound.chain_password entry' = Some password /\ Inbound.chain_uuid entry' = Some uuid).
  { unfold decrypt_inbound in Ed. destruct (decrypt_opt _ (Inbound.reality_private_key _)); [|done]. unfold decrypt_opt in Ed.
    destruct (Inbound.chain_password entry) as [enc|]; [|done]. cbn in Hp. rewrite Hp in Ed. by injection Ed as <-. }
  destruct Hpw as [Hpw Hcu].
  destruct (chain_credentials_match _ _ _ _ _ _ _ _ _ _ _ _ _ _ _ _ _ _ Hb Hx Hn Hxe He Hee Hup Ed Hcu Hpw) as (pb & pu & H1 & H2 & H3 & <- & _ & H4 & _).
  exists pb, pu. repeat (split; [done|]). by rewrite view_chain_uuid, Hcu.
Qed.
End Facts.

Lemma chain_uuid_shown_witness : exists spec v pb pu, In pb (Pb.inbounds spec) /\ In pu (Pb.users pb)
  /\ get_inbound_view Some (fun _ => "id") show 10 (tables chain_plane) = Ok v /\ get "chain_uuid" v = Some (JString (Pb.uuid pu)).
Proof.
  destruct chain_build_ok as [spec H]. exists spec, (inbound_view (fun _ => "id") show chain_entry).
  destruct (chain_uuid_shown Some (fun _ => "id") show String.leb Some (fun _ => Some "{}") (fun _ _ => (1, 0, Err RngFailed)) 0 1 chain_plane
    spec [] 9 10 (sample_inbound 9 1 None None) chain_entry "cu" "cp" (inbound_view (fun _ => "id") show chain_entry) H) as (pb & pu & H1 & _ & H2 & _ & H3); try (vm_compute; reflexivity).
  exists pb, pu. do 2 (split; [done|]). split; [vm_compute; reflexivity|exact H3].
Defined.
